(* ===== verification/_CoqProject ===== *)
-Q . S2P
Prelude.v
ListH.v
Sched.v
CString.v
Kalloc.v
Vm.v
Umem.v
Reap.v
Locks.v
Bytes.v
Bio.v
Log.v
LogSpace.v
Kernel.v
Console.v
Fs.v
File.v
Proc.v
Exec.v
Sysfile.v
Trap.v
Txn.v
Blocks.v
Atomic.v
Files.v
Writes.v
Mkfs.v
Image.v
Built.v
Paths.v
Wakeup.v
Interleave.v
Pipes.v
Wait.v
Trunc.v
Keeps.v
Fds.v
Namex.v
Virtio.v
Umalloc.v
Ulib.v
Chmod.v
Grep.v
Sh.v
