(* ===== verification/Prelude.v ===== *)
(** * A verification library for the xv6 kernel extensions

    The repository holds three programs: [FileSystem-RAID] (an xv6 kernel for
    RISC-V whose disk is mirrored, with symbolic links and permission bits),
    [Threading-Scheduler] (the scheduling policies of a user-level thread
    library) and [Kernel-Memory] (another xv6 kernel, of which this library
    models the intrusive lists that are its own).

    ** The model

    Definitions are executable and follow the C code function by function, under
    its names.  A stateful function is a computation of the monad [M S A] below: it
    returns ([Ret]), panics or faults ([Panic], with the kernel's message),
    switches to the scheduler ([Sleep], with the state at the switch), or runs
    out of the bound of a loop ([Fuel]).  Integers are [Z] with the wrap-around of
    the C type written out ([u32], [s32], ...).  A pointer into a table is the
    index of the element and [NULL] is -1; a pointer to RAM is its address.

    ** Files, and the sources they model

    - [Prelude] (this file): machine integers, the monad, [wp] (returns, and the
      result satisfies), [wps] (or sleeps), [wpe] (or panics with one of the given
      messages), [wlp] (if it returns), loop rules, automation, and lemmas on
      lists.
    - [ListH]: Kernel-Memory/kernel/list.h, on a heap of list nodes.
    - [Sched]: Threading-Scheduler/threads_sched.c.
    - [CString]: FileSystem-RAID/kernel/string.c on byte memory.  The files below
      are all under FileSystem-RAID/kernel/.
    - [Kalloc], [Vm]: kalloc.c and vm.c on the words of RAM.  [Umem]: proofs about
      the memory of processes, as bytes at virtual addresses.  [Reap]: proofs about
      making page tables and giving their pages back.
    - [Locks]: spinlock.c and sleeplock.c; an interleaving of several CPUs.
    - [Bytes]: little-endian fields of on-disk structures.
    - [Bio]: bio.c and the effect of a disk transfer; the contract [BlockCache]
      of the buffer cache, which the log and the file system are proved against.
    - [Log]: log.c; crash states of [commit].  [LogSpace]: the reservation of log
      space by interleaved operations.
    - [Kernel]: file.h, proc.h and the state of the kernel ([kstate]), with
      [sleep], [wakeup], [sched] and the copies to user memory of proc.c.
    - [Console]: uart.c, console.c, printf.c.
    - [Fs]: fs.c.  [Txn]: what an operation inside a transaction may assume and
      must keep ([ktxn]).  [Blocks], [Files], [Writes], [Paths]: proofs about
      block allocation, about inodes, reading files and directories, about
      [writei] and [bmap], and about path names.  [Trunc]: [itrunc] and [iput].
      [Namex]: [namex] against the directory tree.
      [Atomic]: crashes of whole transactions, composed from [Txn] and [Log].
    - [File]: pipe.c and file.c.  [Pipes]: proofs about what [pipewrite] and
      [piperead] do to the queue of bytes.  [Proc]: proc.c.  [Wakeup]: proofs about
      the process table.  [Interleave]: the statements of [sleep], [wakeup] and the
      scheduler, interleaved.  [Wait]: proofs about the memory of a process and
      [wait].  [Exec]: argument fetching of syscall.c, and exec.c.  [Sysfile]: sysfile.c, sysproc.c and the dispatch of syscall.c.
    - [Keeps], [Fds]: proofs about file descriptors and the reference counts of the
      file table, for every system call.
    - [Trap]: trap.c, plic.c, main.c.
    - [Virtio]: virtio_disk.c with its descriptor table and rings.
    - [Mkfs]: FileSystem-RAID/mkfs/mkfs.c, the builder of the disk image.  [Image]:
      proofs about its files, inodes and blocks, in the terms of [Files] and
      [Writes].  [Built]: the program as a whole.
    - Programs, under FileSystem-RAID/user/: [Umalloc] is umalloc.c, the allocator;
      [Ulib] is ulib.c and printf.c, the library; [Chmod] is chmod.c, with the
      calls that it makes as parameters; [Grep] is
      grep.c, a regular expression matcher and its input buffer; [Sh] is the parser
      and [runcmd] of sh.c.

    The state of a component is a record with one field per variable of the C
    code; [kstate] contains the log's state, which contains the cache's, and RAM.
    [in_lo], [in_bc] and [in_mem] run an operation of a part on its part of the
    kernel; wakeups that the parts call are delivered to the process table.

    ** What the theorems show

    - Storage: [Atomic.transactions_crash_safe] (operations run as transactions
      from [begin_op] to [end_op]; wherever the machine stops, recovery shows a
      prefix of them, each one whole), [Log.commit_crash_atomic] (a crash at any block write of [commit],
      then recovery: all of the transaction or nothing), the RAID theorems of
      [Bio] (that a mirrored write survives the failure of either copy, whether it
      was there at the write or comes later, through any history of writes, changes
      of the flags and reboots; what every read
      returns under every combination of the failure flags, and that a block
      written while disk 0 was failed reads back stale after the repair), the
      contract of [bread] and the recycling of buffers, and the conservation of
      descriptors in [Virtio].
    - File system: [balloc] and [bfree] on the free bitmap, the round trip of an
      inode through the disk, [readi], [writei] and [dirlookup] against the bytes
      of the file and the entries of the directory, [iput] and what it frees,
      [iget]'s table, [skipelem] against splitting at slashes, [namex] against a
      walk in the directory tree, with the references it takes, the check of
      [sys_open], the log reservation; the reference counts of open files, which
      every system call keeps equal to the descriptors that refer to them.
    - The image: what mkfs writes is a file system in the sense of these theorems
      ([file_ok], [fs_ok], [dir_ok]), in which the kernel finds every file with
      its bytes; its mirror is left blank.
    - Kernel: mutual exclusion of spin locks, nesting of [push_off], [printint],
      the page allocator's partition of RAM, [mappages] and [walkaddr], the string
      routines.  No wakeup is lost, for any processes that wait for a condition and
      the lock that protects it, when the statements of [sleep], [wakeup] and the
      scheduler interleave in any way ([Interleave.no_lost_wakeup]).  [pipewrite]
      and [piperead], from a call or from where [sleep] returned, until they return
      or sleep: which bytes move between the memory of the caller and the ring,
      also when its counters wrap around, and when they return which value.
    - Memory of processes: [copyout] and [copyin] on the bytes that a process
      sees, [uvmalloc] and [uvmcopy] with the restoration when pages run out, and
      the isolation of processes: a step of one moves pages between its page
      table and the free list only ([own_step]), so that another, which shares
      none of them ([apart]), sees the same memory.
    - Schedulers: for each policy, the thread it selects and the time it
      allocates; fairness of round robin; termination of the EDF loop.
    - Lists: each operation on the sequence of nodes of a ring.
    - Programs: the allocator keeps the live blocks of any program apart, and
      what it does with requests that overflow the argument of [sbrk]; the matcher
      decides the language of its pattern, and which lines [grep] writes; what
      [printf] writes for a format, that [atoi] reads numbers back, and the string
      routines of the library; the shell's parser returns every command from its text, leaves every word intact
      on any line, and [runcmd] connects the programs of a command.

    ** Bounds

    A loop that the C code leaves by [break] or a condition is [loop], which runs up
    to 2^64 iterations by doubling; the theorems that a function returns include
    that the bound is not met.  [namex] takes the depth of its recursion through
    symbolic links, which the code does not bound, and [freewalk] the height of a
    page table.  The shell's recursive descent takes the length of the line, of
    which each call consumes a character.  The other recursions are structural,
    or bounded by a table.

    ** Assumptions

    One kernel thread runs until it returns or sleeps; the interleaving of CPUs
    is modelled for spin locks and for [sleep] and [wakeup], of operations for the
    log and of driver calls for the disk.  [wait], whose lock is that of the
    process itself, is not among the sleepers of [Interleave].  Parameters stand for what is outside the repository's C code: the
    linker's addresses ([Linker], [ProcSymbols]), bytes the compiler leaves
    uninitialised ([Compiler]), the device's registers, the initial RAM.  A
    property with such hypotheses has a witness at a concrete state.

    ** Not modelled

    - Assembly (entry.S, swtch.S, trampoline.S, kernelvec.S), start.c and the
      control registers of riscv.h: the machine's privileged state.
    - [kvminithart], [cpuid], [mycpu]: register accesses.
    - ramdisk.c: an alternative disk driver that no code calls.
    - The other programs under user/: clients of the system calls, and tests.  In
      the programs that are modelled: [main], a failing [fork1], a [malloc] that
      returns 0 in the shell's parser, which the code does not check, [stat], and the
      size of the stack, which chmod -R overruns on deep trees.  No property is
      stated of [Chmod], whose fuel is enough whatever the calls do
      ([Chmod.chmod_fuel_enough]).
    - In mkfs: the calls of the host that fail, which end it, and its messages.
    - Kernel-Memory/kernel apart from list.h: its slab allocator (slab.c) is
      stubs, debug.c prints, and its other files are the xv6 kernel that
      FileSystem-RAID extends.
    - Memory models weaker than sequential consistency, and time.

    ** Still to do

    Symbolic links in the specification of [namex]; the references to inodes in
    the tables of files and processes. *)
From Stdlib Require Export ZArith Lia String.
From Stdlib Require List.
From stdpp Require Export base gmap sets list list_numbers strings fin_maps decidable.

#[global] Open Scope Z_scope.
#[global] Set Default Goal Selector "!".

(** ** Machine integers *)

(** The C types of the sources: [uint] is 32 bit, [uint64] 64 bit, [int] a
    signed 32-bit integer, [short] signed 16-bit, [ushort] 16-bit, [uchar]
    8-bit.  A value is a [Z]; the wrap-around of an operation is written by
    applying one of the following normalisations to its exact result. *)
Definition u8 (x : Z) : Z := x mod 2 ^ 8.
Definition u16 (x : Z) : Z := x mod 2 ^ 16.
Definition u32 (x : Z) : Z := x mod 2 ^ 32.
Definition u64 (x : Z) : Z := x mod 2 ^ 64.
Definition s16 (x : Z) : Z := (x + 2 ^ 15) mod 2 ^ 16 - 2 ^ 15.
Definition s32 (x : Z) : Z := (x + 2 ^ 31) mod 2 ^ 32 - 2 ^ 31.

#[global] Arguments u8 _ : simpl never.
#[global] Arguments u16 _ : simpl never.
#[global] Arguments u32 _ : simpl never.
#[global] Arguments u64 _ : simpl never.
#[global] Arguments s16 _ : simpl never.
#[global] Arguments s32 _ : simpl never.

Definition INT_MAX : Z := 2 ^ 31 - 1.
Definition INT_MIN : Z := - 2 ^ 31.

(** [is_int x]: [x] is representable as a C [int]. *)
Definition is_int (x : Z) : Prop := INT_MIN <= x <= INT_MAX.

Lemma u8_range x : 0 <= u8 x < 256.
Proof. unfold u8. pose proof (Z.mod_pos_bound x (2 ^ 8)). lia. Qed.

Lemma u16_range x : 0 <= u16 x < 65536.
Proof. unfold u16. pose proof (Z.mod_pos_bound x (2 ^ 16)). lia. Qed.

Lemma u32_range x : 0 <= u32 x < 2 ^ 32.
Proof. unfold u32. pose proof (Z.mod_pos_bound x (2 ^ 32)). lia. Qed.

Lemma s32_range x : is_int (s32 x).
Proof.
  unfold is_int, s32, INT_MIN, INT_MAX.
  pose proof (Z.mod_pos_bound (x + 2 ^ 31) (2 ^ 32)). lia.
Qed.

Lemma u8_small x : 0 <= x < 256 -> u8 x = x.
Proof. intros. unfold u8. apply Z.mod_small. lia. Qed.

Lemma u16_small x : 0 <= x < 65536 -> u16 x = x.
Proof. intros. unfold u16. apply Z.mod_small. lia. Qed.

Lemma u32_small x : 0 <= x < 2 ^ 32 -> u32 x = x.
Proof. intros. unfold u32. apply Z.mod_small. lia. Qed.

Lemma s32_u32 x : s32 (u32 x) = s32 x.
Proof. unfold s32, u32. by rewrite Z.add_mod_idemp_l by done. Qed.
Lemma s32_small x : is_int x -> s32 x = x.
Proof.
  unfold is_int, s32, INT_MIN, INT_MAX. intros. rewrite Z.mod_small; lia.
Qed.

Lemma s16_small x : - 2 ^ 15 <= x < 2 ^ 15 -> s16 x = x.
Proof. unfold s16. intros. rewrite Z.mod_small; lia. Qed.

(** Unsigned 32-bit counters that differ by a small amount: the idiom of ring
    buffers with free-running indices. *)
Lemma u32_add_u32 x y : u32 (u32 x + y) = u32 (x + y).
Proof. unfold u32. by rewrite Z.add_mod_idemp_l. Qed.

Lemma u32_sub_u32 x y : u32 (u32 x - y) = u32 (x - y).
Proof. unfold u32. by rewrite Zminus_mod_idemp_l. Qed.

Create HintDb cint discriminated.
#[export] Hint Resolve u8_range u16_range u32_range s32_range : cint.

(** ** The effect monad of the kernel models

    A C function that reads and writes state of type [S] and returns an [A]
    becomes a function [S -> outcome S A].  [Ret] is an ordinary return,
    [Panic] a call of [panic] (or a memory access outside the modelled
    store), [Sleep] a call of [sleep] that switches to the scheduler, with
    the state at the switch, and [Fuel] says that the bound given to an
    unbounded loop was too small. *)
Inductive outcome (S A : Type) : Type :=
| Ret (a : A) (s : S)
| Panic (msg : string)
| Sleep (s : S)
| Fuel.
Arguments Ret {S A} a s.
Arguments Panic {S A} msg.
Arguments Sleep {S A} s.
Arguments Fuel {S A}.

(** The result and the final state of a run; [run_eq] proves an equation about
    a concrete run by computing its result only. *)
Definition result {S A} (o : outcome S A) : option A :=
  match o with Ret a _ => Some a | _ => None end.
Definition final {S A} (d : S) (o : outcome S A) : S :=
  match o with Ret _ s => s | _ => d end.

Lemma run_eq {S A} (d : S) (o : outcome S A) a :
  result o = Some a -> o = Ret a (final d o).
Proof. by destruct o; intros [= ->]. Qed.

Definition M (S A : Type) : Type := S -> outcome S A.

Definition ret {S A} (a : A) : M S A := fun s => Ret a s.

Definition bind {S A B} (m : M S A) (k : A -> M S B) : M S B :=
  fun s =>
    match m s with
    | Ret a s' => k a s'
    | Panic msg => Panic msg
    | Sleep s' => Sleep s'
    | Fuel => Fuel
    end.

Definition panic {S A} (msg : string) : M S A := fun _ => Panic msg.
Definition get {S} : M S S := fun s => Ret s s.
Definition gets {S A} (f : S -> A) : M S A := fun s => Ret (f s) s.
Definition modify {S} (f : S -> S) : M S unit := fun s => Ret tt (f s).
Definition of_option {S A} (msg : string) (o : option A) : M S A :=
  match o with Some a => ret a | None => panic msg end.

Declare Scope kernel_scope.
Delimit Scope kernel_scope with K.
Notation "'let!' x ':=' m 'in' k" := (bind m (fun x => k))
  (at level 10, x binder, m at level 100, k at level 200,
   format "'[v' 'let!'  x  ':='  m  'in' '/' k ']'") : kernel_scope.
Notation "m ';;;' k" := (bind m (fun _ => k))
  (at level 100, k at level 200, right associativity,
   format "'[v' m  ';;;' '/' k ']'") : kernel_scope.
#[global] Open Scope kernel_scope.

(** [when c m]: an [if] statement with no [else]. *)
Definition when {S} (c : bool) (m : M S unit) : M S unit :=
  if c then m else ret tt.

(** A [for] loop over the values [l] of its counter.  The body returns
    [None] to go on and [Some r] to leave the loop (by [break], [goto] or
    [return]) with [r]; the loop returns [None] when it runs to its end. *)
Fixpoint for_each {S X R} (l : list X) (body : X -> M S (option R)) : M S (option R) :=
  match l with
  | [] => ret None
  | x :: l' =>
      let! r := body x in
      match r with
      | Some v => ret (Some v)
      | None => for_each l' body
      end
  end.

(** A [for] loop that never leaves early. *)
Fixpoint for_all {S X} (l : list X) (body : X -> M S unit) : M S unit :=
  match l with
  | [] => ret tt
  | x :: l' => body x ;;; for_all l' body
  end.

(** A [while] loop whose local variables are [a]: the body returns [inl a']
    to iterate and [inr r] to leave with [r]. *)
Fixpoint while_fuel {S A R} (fuel : nat) (a : A) (body : A -> M S (A + R)) : M S R :=
  match fuel with
  | O => fun _ => Fuel
  | S n =>
      let! r := body a in
      match r with
      | inl a' => while_fuel n a' body
      | inr v => ret v
      end
  end.

(** An unbounded loop ([while], [for (;;)]) of the kernel, executed for at most
    [2 ^ 64] iterations: the doubling makes the bound free of cost, and no
    loop whose counter is a [uint64] that advances can run longer. *)
Fixpoint while_log {S A R} (n : nat) (a : A) (body : A -> M S (A + R)) : M S (A + R) :=
  match n with
  | O => body a
  | S n' =>
      let! r := while_log n' a body in
      match r with
      | inl a' => while_log n' a' body
      | inr v => ret (inr v)
      end
  end.
Definition loop {S A R} (a : A) (body : A -> M S (A + R)) : M S R :=
  let! r := while_log 64 a body in
  match r with
  | inl _ => fun _ => Fuel
  | inr v => ret v
  end.

(** Run an operation of a component on its part of a larger state. *)
Definition zoom {S T A} (part : S -> T) (put : T -> S -> S) (m : M T A) : M S A :=
  fun s =>
    match m (part s) with
    | Ret a t => Ret a (put t s)
    | Panic msg => Panic msg
    | Sleep t => Sleep (put t s)
    | Fuel => Fuel
    end.

(** ** Weakest preconditions

    [wp m s Q]: run from [s], [m] returns (no panic, no blocking, no fuel
    exhaustion) and its result and final state satisfy [Q]. *)
Definition wp {S A} (m : M S A) (s : S) (Q : A -> S -> Prop) : Prop :=
  match m s with
  | Ret a s' => Q a s'
  | _ => False
  end.

Section wp_rules.
Context {S : Type}.

Lemma wp_ret {A} (a : A) (s : S) (Q : A -> S -> Prop) : Q a s -> wp (ret a) s Q.
Proof. done. Qed.

Lemma wp_bind {A B} (m : M S A) (k : A -> M S B) s Q :
  wp m s (fun a s' => wp (k a) s' Q) -> wp (bind m k) s Q.
Proof. unfold wp, bind. by destruct (m s). Qed.

Lemma wp_bind_inv {A B} (m : M S A) (k : A -> M S B) s Q :
  wp (bind m k) s Q -> wp m s (fun a s' => wp (k a) s' Q).
Proof. unfold wp, bind. by destruct (m s). Qed.

Lemma wp_mono {A} (m : M S A) s (Q1 Q2 : A -> S -> Prop) :
  wp m s Q1 -> (forall a s', Q1 a s' -> Q2 a s') -> wp m s Q2.
Proof. unfold wp. destruct (m s); naive_solver. Qed.

Lemma wp_and {A} (m : M S A) s Q1 Q2 :
  wp m s Q1 -> wp m s Q2 -> wp m s (fun a s' => Q1 a s' /\ Q2 a s').
Proof. unfold wp. by destruct (m s). Qed.

Lemma wp_bind_mono {A B} (m : M S A) (k : A -> M S B) s Q1 Q :
  wp m s Q1 -> (forall a s', Q1 a s' -> wp (k a) s' Q) -> wp (bind m k) s Q.
Proof. intros H1 H2. apply wp_bind. eapply wp_mono; eauto. Qed.

Lemma wp_gets {A} (f : S -> A) s (Q : A -> S -> Prop) : Q (f s) s -> wp (gets f) s Q.
Proof. done. Qed.

Lemma wp_get s (Q : S -> S -> Prop) : Q s s -> wp get s Q.
Proof. done. Qed.

Lemma wp_modify (f : S -> S) s (Q : unit -> S -> Prop) : Q tt (f s) -> wp (modify f) s Q.
Proof. done. Qed.

Lemma wp_when (c : bool) (m : M S unit) s Q :
  (c = true -> wp m s Q) -> (c = false -> Q tt s) -> wp (when c m) s Q.
Proof. destruct c; [naive_solver|]. intros _ H. by apply H. Qed.

Lemma wp_of_option {A} msg (o : option A) a s (Q : A -> S -> Prop) :
  o = Some a -> Q a s -> wp (of_option msg o) s Q.
Proof. intros ->. done. Qed.

Lemma wp_eq {A} (m : M S A) s Q a s' : m s = Ret a s' -> Q a s' -> wp m s Q.
Proof. unfold wp. by intros ->. Qed.

Lemma wp_inv {A} (m : M S A) s Q : wp m s Q -> exists a s', m s = Ret a s' /\ Q a s'.
Proof. unfold wp. destruct (m s); naive_solver. Qed.

Lemma bind_eq {A B} (m : M S A) (k : A -> M S B) s a s' :
  m s = Ret a s' -> bind m k s = k a s'.
Proof. unfold bind. by intros ->. Qed.

Lemma bind_ret {A B} (a : A) (k : A -> M S B) s : bind (ret a) k s = k a s.
Proof. done. Qed.

Lemma bind_assoc {A B C} (m : M S A) (k : A -> M S B) (h : B -> M S C) s :
  bind (bind m k) h s = bind m (fun a => bind (k a) h) s.
Proof. unfold bind. by destruct (m s). Qed.

(** The invariant rule of [for_all], the invariant indexed by the part of
    the counter's range already done and the part still to do. *)
Lemma wp_for_all {X} (I : list X -> list X -> S -> Prop) (body : X -> M S unit) s l :
  I [] l s ->
  (forall d x r s', l = d ++ x :: r -> I d (x :: r) s' ->
     wp (body x) s' (fun _ s'' => I (d ++ [x]) r s'')) ->
  wp (for_all l body) s (fun _ s' => I l [] s').
Proof.
  intros HI Hstep.
  assert (forall r d s, l = d ++ r -> I d r s ->
    wp (for_all r body) s (fun _ s' => I l [] s')) as Hgen; [|by apply (Hgen l [])].
  induction r as [|x r IH]; intros d s1 Hl HI1; simpl.
  - rewrite app_nil_r in Hl. rewrite Hl. done.
  - eapply wp_bind_mono; [by apply (Hstep d x r)|]. intros [] s2 HI2.
    apply (IH (d ++ [x])); [|done]. by rewrite <- app_assoc.
Qed.
(** A [for] loop over [0, ..., n - 1]. *)
Lemma wp_for_seq (I : Z -> S -> Prop) (body : Z -> M S unit) s n :
  I 0 s -> 0 <= n ->
  (forall k s', 0 <= k < n -> I k s' -> wp (body k) s' (fun _ s'' => I (k + 1) s'')) ->
  wp (for_all (seqZ 0 n) body) s (fun _ s' => I n s').
Proof.
  intros HI Hn Hstep.
  apply (wp_mono _ _ (fun _ s' => I (Z.of_nat (length (seqZ 0 n))) s')).
  2:{ intros [] s'. rewrite length_seqZ, Z2Nat.id; auto. }
  apply (wp_for_all (fun d _ s' => I (Z.of_nat (length d)) s')); [done|].
  intros d x r s' Heq HI'.
  assert (Hx : seqZ 0 n !! length d = Some x).
  { rewrite Heq, lookup_app_r, Nat.sub_diag by lia. done. }
  apply lookup_seqZ in Hx as [-> Hlt]. rewrite length_app. simpl.
  replace (Z.of_nat (length d + 1)) with (0 + Z.of_nat (length d) + 1) by lia.
  rewrite Z.add_0_l in *. apply Hstep; [lia|done].
Qed.

(** A loop over [a, a + 1, ...] that may leave early: [I k] holds before the
    iteration for [k], [Q] of the value with which the loop is left. *)
Lemma wp_for_each_seq {R} (I : Z -> S -> Prop) (Q : R -> S -> Prop)
    (body : Z -> M S (option R)) s a n :
  I a s -> 0 <= n ->
  (forall k s', a <= k < a + n -> I k s' -> wp (body k) s' (fun r s'' =>
     match r with None => I (k + 1) s'' | Some v => Q v s'' end)) ->
  wp (for_each (seqZ a n) body) s (fun r s' =>
    match r with None => I (a + n) s' | Some v => Q v s' end).
Proof.
  intros HI Hn. revert a s HI. pattern n. apply natlike_ind; [..|exact Hn]; clear n Hn.
  - intros a s HI _. rewrite seqZ_nil by lia. apply wp_ret. by rewrite Z.add_0_r.
  - intros n Hn IH a s HI Hstep. rewrite seqZ_cons, Z.pred_succ by lia. simpl. apply wp_bind.
    eapply wp_mono; [apply Hstep; [lia|done]|]. intros [v|] s' H; [by apply wp_ret|].
    replace (a + Z.succ n) with (Z.succ a + n) by lia. apply IH; [done|].
    intros k s'' Hk. apply Hstep. lia.
Qed.

(** [wpe E m s Q]: [m] returns with [Q], or panics with a message of [E]. *)
Definition wpe (E : string -> Prop) {A} (m : M S A) (s : S) (Q : A -> S -> Prop) : Prop :=
  match m s with
  | Ret a s' => Q a s'
  | Panic msg => E msg
  | _ => False
  end.

Section wpe_rules.
Variable E : string -> Prop.

Lemma wpe_ret {A} (a : A) (s : S) (Q : A -> S -> Prop) : Q a s -> wpe E (ret a) s Q.
Proof. done. Qed.

Lemma wpe_panic {A} msg (s : S) (Q : A -> S -> Prop) : E msg -> wpe E (panic msg) s Q.
Proof. done. Qed.

Lemma wpe_bind {A B} (m : M S A) (k : A -> M S B) s Q :
  wpe E m s (fun a s' => wpe E (k a) s' Q) -> wpe E (bind m k) s Q.
Proof. unfold wpe, bind. by destruct (m s). Qed.

Lemma wpe_mono {A} (m : M S A) s (Q1 Q2 : A -> S -> Prop) :
  wpe E m s Q1 -> (forall a s', Q1 a s' -> Q2 a s') -> wpe E m s Q2.
Proof. unfold wpe. destruct (m s); naive_solver. Qed.

(** A loop ends when a bound on the number of its iterations decreases; the
    bound is an index of the invariant. *)
Lemma wpe_while_log {A R} (n : nat) (I : Z -> A -> S -> Prop)
    (body : A -> M S (A + R)) (Q : R -> S -> Prop) k a s :
  (forall k a s, I k a s -> wpe E (body a) s (fun r s' =>
     match r with
     | inl a' => exists k', I k' a' s' /\ k' < k
     | inr v => Q v s'
     end)) ->
  I k a s ->
  wpe E (while_log n a body) s (fun r s' =>
    match r with
    | inl a' => exists k', I k' a' s' /\ k' <= k - 2 ^ Z.of_nat n
    | inr v => Q v s'
    end).
Proof.
  intros Hbody. revert k a s. induction n as [|n IH]; intros k a s HI; cbn [while_log].
  - eapply wpe_mono; [by apply Hbody|]. intros [a'|v] s' H; [|done].
    destruct H as (k' & H1 & H2). exists k'. split; [done|].
    change (2 ^ Z.of_nat 0) with 1. lia.
  - apply wpe_bind. eapply wpe_mono; [by apply IH|]. intros [a'|v] s' H; [|by apply wpe_ret].
    destruct H as (k' & HI' & Hle). eapply wpe_mono; [by apply IH|].
    intros [a''|v] s'' H; [|done]. destruct H as (k'' & H1 & H2). exists k''. split; [done|].
    rewrite Nat2Z.inj_succ, Z.pow_succ_r by lia. lia.
Qed.

Lemma wpe_loop_idx {A R} (I : Z -> A -> S -> Prop)
    (body : A -> M S (A + R)) (Q : R -> S -> Prop) k a s :
  I k a s -> k < 2 ^ 64 ->
  (forall k a s, I k a s -> 0 <= k) ->
  (forall k a s, I k a s -> wpe E (body a) s (fun r s' =>
     match r with
     | inl a' => exists k', I k' a' s' /\ k' < k
     | inr v => Q v s'
     end)) ->
  wpe E (loop a body) s Q.
Proof.
  intros HI Hk Hpos Hbody. unfold loop. apply wpe_bind.
  eapply wpe_mono; [by apply (wpe_while_log 64 I body Q)|].
  intros [a'|v] s' H; [|by apply wpe_ret].
  destruct H as (k' & H1 & H2). specialize (Hpos _ _ _ H1).
  change (Z.of_nat 64) with 64 in H2. lia.
Qed.
End wpe_rules.

Lemma wp_wpe {A} (m : M S A) s (Q : A -> S -> Prop) : wp m s Q <-> wpe (fun _ => False) m s Q.
Proof. unfold wp, wpe. by destruct (m s). Qed.

Lemma wp_loop_idx {A R} (I : Z -> A -> S -> Prop)
    (body : A -> M S (A + R)) (Q : R -> S -> Prop) k a s :
  I k a s -> k < 2 ^ 64 ->
  (forall k a s, I k a s -> 0 <= k) ->
  (forall k a s, I k a s -> wp (body a) s (fun r s' =>
     match r with
     | inl a' => exists k', I k' a' s' /\ k' < k
     | inr v => Q v s'
     end)) ->
  wp (loop a body) s Q.
Proof.
  intros HI Hk Hpos Hbody. apply wp_wpe. apply (wpe_loop_idx _ I body Q k); [done|done|done|].
  intros k' a' s' H. by apply wp_wpe, Hbody.
Qed.

(** The bound as a measure of the loop's variables. *)
Lemma wp_loop {A R} (I : A -> S -> Prop) (mu : A -> Z)
    (body : A -> M S (A + R)) (Q : R -> S -> Prop) a s :
  I a s -> mu a < 2 ^ 64 ->
  (forall a s, I a s -> 0 <= mu a) ->
  (forall a s, I a s -> wp (body a) s (fun r s' =>
     match r with
     | inl a' => I a' s' /\ mu a' < mu a
     | inr v => Q v s'
     end)) ->
  wp (loop a body) s Q.
Proof.
  intros HI Hmu Hpos Hbody.
  apply (wp_loop_idx (fun k a s => I a s /\ k = mu a) body Q (mu a)); [done|done| |].
  - intros k a' s' [H ->]. by eapply Hpos.
  - intros k a' s' [H ->]. eapply wp_mono; [by apply Hbody|]. intros [a''|v] s'' H'; [|done].
    destruct H'. exists (mu a''). done.
Qed.

(** A loop whose first iteration panics, or its second. *)
Lemma loop_panics {A R} (body : A -> M S (A + R)) a s msg :
  body a s = Panic msg -> loop a body s = Panic msg.
Proof.
  intros H. assert (Hn : forall n, while_log n a body s = Panic msg).
  { induction n as [|n IH]; [exact H|]. cbn [while_log]. unfold bind. by rewrite IH. }
  unfold loop, bind. by rewrite Hn.
Qed.

Lemma loop_second_panics {A R} (body : A -> M S (A + R)) a a' s s' msg :
  body a s = Ret (inl a') s' -> body a' s' = Panic msg -> loop a body s = Panic msg.
Proof.
  intros H1 H2. assert (H : forall n, while_log (Datatypes.S n) a body s = Panic msg).
  { induction n as [|n IH].
    - cbn [while_log]. unfold bind. by rewrite H1, H2.
    - change (while_log (Datatypes.S (Datatypes.S n)) a body)
        with (let! r := while_log (Datatypes.S n) a body in
              match r with
              | inl a' => while_log (Datatypes.S n) a' body
              | inr v => ret (inr v)
              end). unfold bind at 1. by rewrite IH. }
  unfold loop, bind. by rewrite (H 63%nat).
Qed.

Lemma wp_zoom {T A} (part : S -> T) (put : T -> S -> S) (m : M T A) s (Q : A -> S -> Prop) :
  wp m (part s) (fun a t => Q a (put t s)) -> wp (zoom part put m) s Q.
Proof. unfold wp, zoom. by destruct (m (part s)). Qed.
(** Runs that may also switch to the scheduler: [R] holds of the state then. *)
Definition wps {A} (m : M S A) (s : S) (Q : A -> S -> Prop) (R : S -> Prop) : Prop :=
  match m s with
  | Ret a s' => Q a s'
  | Sleep s' => R s'
  | Panic _ | Fuel => False
  end.

Lemma wps_wp {A} (m : M S A) s Q R : wp m s Q -> wps m s Q R.
Proof. unfold wp, wps. by destruct (m s). Qed.

Lemma wps_bind {A B} (m : M S A) (k : A -> M S B) s Q R :
  wps m s (fun a s' => wps (k a) s' Q R) R -> wps (bind m k) s Q R.
Proof. unfold wps, bind. by destruct (m s). Qed.

Lemma wps_bind_wp {A B} (m : M S A) (k : A -> M S B) s Q R :
  wp m s (fun a s' => wps (k a) s' Q R) -> wps (bind m k) s Q R.
Proof. intros H. by apply wps_bind, wps_wp. Qed.

Lemma wps_sleep {A} s Q (R : S -> Prop) : R s -> wps (fun s => Sleep (A := A) s) s Q R.
Proof. done. Qed.

Lemma wps_mono {A} (m : M S A) s (Q1 Q2 : A -> S -> Prop) (R1 R2 : S -> Prop) :
  wps m s Q1 R1 -> (forall a s', Q1 a s' -> Q2 a s') -> (forall s', R1 s' -> R2 s') ->
  wps m s Q2 R2.
Proof. unfold wps. destruct (m s); naive_solver. Qed.
(** Partial correctness: what holds of the state if the run returns. *)
Definition wlp {A} (m : M S A) (s : S) (Q : A -> S -> Prop) : Prop :=
  match m s with Ret a s' => Q a s' | _ => True end.

Lemma wlp_bind {A B} (m : M S A) (k : A -> M S B) s Q :
  wlp m s (fun a s' => wlp (k a) s' Q) -> wlp (bind m k) s Q.
Proof. unfold wlp, bind. by destruct (m s). Qed.

Lemma wlp_mono {A} (m : M S A) s (Q1 Q2 : A -> S -> Prop) :
  wlp m s Q1 -> (forall a s', Q1 a s' -> Q2 a s') -> wlp m s Q2.
Proof. unfold wlp. destruct (m s); naive_solver. Qed.

Lemma wlp_wp {A} (m : M S A) s Q : wp m s Q -> wlp m s Q.
Proof. unfold wp, wlp. by destruct (m s). Qed.

Lemma wlp_inv {A} (m : M S A) s Q a s' : wlp m s Q -> m s = Ret a s' -> Q a s'.
Proof. unfold wlp. intros H E. by rewrite E in H. Qed.

Lemma wlp_while_log {A R} (n : nat) (I : A -> S -> Prop) (Q : R -> S -> Prop)
    (body : A -> M S (A + R)) a s :
  (forall a s, I a s -> wlp (body a) s (fun r s' =>
     match r with inl a' => I a' s' | inr v => Q v s' end)) ->
  I a s -> wlp (while_log n a body) s (fun r s' =>
     match r with inl a' => I a' s' | inr v => Q v s' end).
Proof.
  intros Hbody. revert a s. induction n as [|n IH]; intros a s HI; simpl; [by apply Hbody|].
  apply wlp_bind. eapply wlp_mono; [by apply IH|]. intros [a'|v] s' H; [by apply IH|done].
Qed.

Lemma wlp_loop {A R} (I : A -> S -> Prop) (Q : R -> S -> Prop)
    (body : A -> M S (A + R)) a s :
  (forall a s, I a s -> wlp (body a) s (fun r s' =>
     match r with inl a' => I a' s' | inr v => Q v s' end)) ->
  I a s -> wlp (loop a body) s Q.
Proof.
  intros Hbody HI. unfold loop. apply wlp_bind.
  eapply wlp_mono; [by apply (wlp_while_log 64 I Q)|]. by intros [a'|v] s' H.
Qed.
End wp_rules.

(** One step of symbolic execution, and its closure. *)
Ltac wp_step :=
  lazymatch goal with
  | |- wp (bind _ _) _ _ => apply wp_bind
  | |- wp (ret _) _ _ => apply wp_ret
  | |- wp (gets _) _ _ => apply wp_gets
  | |- wp get _ _ => apply wp_get
  | |- wp (modify _) _ _ => apply wp_modify
  end; cbv beta.
Ltac wp_steps := repeat wp_step.

(** [lia] with division and remainder by constants. *)
Ltac zlia := Z.to_euclidean_division_equations; lia.

(** Case analysis on the boolean tests of the code. *)
Ltac zbool :=
  repeat match goal with
  | H : (_ && _)%bool = true |- _ => apply andb_true_iff in H; destruct H
  | H : (_ || _)%bool = false |- _ => apply orb_false_iff in H; destruct H
  | H : (_ =? _) = true |- _ => apply Z.eqb_eq in H
  | H : (_ =? _) = false |- _ => apply Z.eqb_neq in H
  | H : (_ <? _) = true |- _ => apply Z.ltb_lt in H
  | H : (_ <? _) = false |- _ => apply Z.ltb_ge in H
  | H : (_ <=? _) = true |- _ => apply Z.leb_le in H
  | H : (_ <=? _) = false |- _ => apply Z.leb_gt in H
  | H : negb _ = true |- _ => apply negb_true_iff in H
  | H : negb _ = false |- _ => apply negb_false_iff in H
  end.

(** ** Lists *)

(** The first element of [l] that is best for the strict preference [lt]:
    the loop "[if best == NULL || better(x, best)) best = x]" of the
    schedulers. *)
Fixpoint pick {A} (better : A -> A -> bool) (best : option A) (l : list A) : option A :=
  match l with
  | [] => best
  | x :: l' =>
      pick better
        (match best with
         | None => Some x
         | Some b => if better x b then Some x else Some b
         end) l'
  end.

Section pick.
Context {A : Type} (better : A -> A -> bool).

Lemma pick_some b l : exists m, pick better (Some b) l = Some m.
Proof. revert b. induction l as [|x l IH]; intros b; simpl; [eauto|]. case_match; eauto. Qed.

Lemma pick_elem best l m :
  pick better best l = Some m -> best = Some m \/ m ∈ l.
Proof.
  revert best. induction l as [|x l IH]; intros best; simpl; [auto|].
  intros H%IH. rewrite elem_of_cons.
  destruct best as [b|]; [case_match|]; naive_solver.
Qed.

Lemma pick_none best l : pick better best l = None <-> best = None /\ l = [].
Proof.
  revert best. induction l as [|x l IH]; intros best; simpl; [naive_solver|].
  rewrite IH. destruct best as [b|]; [case_match|]; naive_solver.
Qed.

(** The preference is a strict weak order on a set closed under the
    elements considered: then nothing considered is better than the result. *)
Context (P : A -> Prop).
Context (better_irrefl : forall x, P x -> better x x = false).
Context (better_asym : forall x y, P x -> P y -> better x y = true -> better y x = false).
Context (better_trans : forall x y z, P x -> P y -> P z ->
   better y x = false -> better z y = false -> better z x = false).

Lemma pick_best best l m :
  (forall b, best = Some b -> P b) -> Forall P l ->
  pick better best l = Some m ->
  (forall b, best = Some b -> better b m = false) /\
  Forall (fun x => better x m = false) l.
Proof.
  revert best. induction l as [|x l IH]; intros best Hbest Hl Hp; simpl in *.
  { simplify_eq. split; [|done]. intros b [= ->]. auto. }
  inversion Hl as [|? ? Hx Hl']; subst.
  assert (HPm : forall c, P c -> pick better (Some c) l = Some m -> P m).
  { intros c Hc Hm. destruct (pick_elem _ _ _ Hm) as [?|Hin]; [by simplify_eq|].
    rewrite list.Forall_forall in Hl'. auto. }
  assert (Hnext : forall c, P c -> pick better (Some c) l = Some m ->
    better c m = false /\ Forall (fun x => better x m = false) l).
  { intros c Hc Hm. destruct (IH (Some c)) as [H1 H2]; [naive_solver|done|done|].
    auto. }
  destruct best as [b|].
  - assert (P b) by auto. destruct (better x b) eqn:Hxb.
    + destruct (Hnext x) as [H1 H2]; [done|done|]. split; [|by constructor].
      intros ? [= <-]. apply (better_trans m x b); eauto.
    + destruct (Hnext b) as [H1 H2]; [done|done|]. split; [naive_solver|].
      constructor; [|done]. apply (better_trans m b x); eauto.
  - destruct (Hnext x) as [H1 H2]; [done|done|]. split; [naive_solver|by constructor].
Qed.

Lemma pick_none_best l m :
  Forall P l -> pick better None l = Some m ->
  m ∈ l /\ forall x, x ∈ l -> better x m = false.
Proof.
  intros Hl Hp. split; [by destruct (pick_elem _ _ _ Hp)|].
  apply list.Forall_forall. by eapply (pick_best None).
Qed.
End pick.

(** Replace the slice of [l] that starts at [n] and is as long as [l']. *)
Definition splice {A} (l : list A) (n : nat) (l' : list A) : list A :=
  take n l ++ l' ++ drop (n + length l') l.

Lemma length_splice {A} (l l' : list A) n :
  (n + length l' <= length l)%nat -> length (splice l n l') = length l.
Proof. intros. unfold splice. rewrite !length_app, length_take, length_drop. lia. Qed.

Lemma splice_read {A} (l l' : list A) n :
  (n + length l' <= length l)%nat ->
  take (length l') (drop n (splice l n l')) = l'.
Proof.
  intros. unfold splice. rewrite drop_app_length'; [|rewrite length_take; lia].
  by rewrite take_app_length.
Qed.

Lemma splice_lookup_lt {A} (l l' : list A) n i :
  (n <= length l)%nat -> (i < n)%nat -> splice l n l' !! i = l !! i.
Proof.
  intros. unfold splice. rewrite lookup_app_l; [|rewrite length_take; lia].
  by rewrite lookup_take_lt.
Qed.

Lemma splice_lookup_ge {A} (l l' : list A) n i :
  (n + length l' <= length l)%nat -> (n + length l' <= i)%nat -> splice l n l' !! i = l !! i.
Proof.
  intros. unfold splice.
  rewrite lookup_app_r by (rewrite length_take; lia).
  rewrite lookup_app_r by (rewrite length_take; lia).
  rewrite lookup_drop. f_equal. rewrite length_take. lia.
Qed.

Lemma splice_lookup_mid {A} (l l' : list A) n i :
  (n + length l' <= length l)%nat -> (n <= i < n + length l')%nat ->
  splice l n l' !! i = l' !! (i - n)%nat.
Proof.
  intros. unfold splice.
  rewrite lookup_app_r by (rewrite length_take; lia). rewrite length_take.
  rewrite lookup_app_l by lia. f_equal. lia.
Qed.

(** [List.find] gives the first element that satisfies the test. *)
Lemma find_first {A} (f : A -> bool) l a :
  List.find f l = Some a -> exists l1 l2, l = l1 ++ a :: l2 /\ f a = true /\
    forall x, x ∈ l1 -> f x = false.
Proof.
  induction l as [|y l IH]; simpl; [done|]. destruct (f y) eqn:Hy.
  - intros [= <-]. exists [], l. split_and!; [done|done|]. intros x Hx. by apply not_elem_of_nil in Hx.
  - intros H. destruct (IH H) as (l1 & l2 & -> & Ha & Hl). exists (y :: l1), l2.
    split_and!; [done|done|]. intros x [->|Hx]%elem_of_cons; auto.
Qed.

Lemma find_seqZ (f : Z -> bool) m n a :
  List.find f (seqZ m n) = Some a ->
  m <= a < m + n /\ f a = true /\ forall i, m <= i < a -> f i = false.
Proof.
  intros Hf. apply find_first in Hf as (l1 & l2 & El & Ha & Hl).
  assert (Hlk : seqZ m n !! length l1 = Some a) by (rewrite El; by apply list_lookup_middle).
  apply lookup_seqZ in Hlk as [-> Hlt]. split; [lia|]. split; [done|]. intros i Hi.
  apply Hl. apply list_elem_of_lookup. exists (Z.to_nat (i - m)).
  rewrite <- (lookup_app_l l1 ((m + Z.of_nat (length l1)) :: l2)) by lia. rewrite <- El.
  apply lookup_seqZ. lia.
Qed.

Lemma NoDup_take {A} (l : list A) k : NoDup l -> NoDup (take k l).
Proof. rewrite <- (take_drop k l) at 1. by intros (H & _ & _)%list.NoDup_app. Qed.

Lemma elem_of_take_in {A} (l : list A) k x : x ∈ take k l -> x ∈ l.
Proof. rewrite <- (take_drop k l) at 2. rewrite elem_of_app. by left. Qed.

(** Sums over a list, for counting: the references to a file or an inode. *)
Definition sumZ {A} (g : A -> Z) (l : list A) : Z := fold_right (fun p n => g p + n) 0 l.
Definition delta (f g : Z) : Z := if g =? f then 1 else 0.

Lemma delta_range f g : 0 <= delta f g <= 1.
Proof. unfold delta. destruct (g =? f); lia. Qed.

Lemma sumZ_ext {A} (g h : A -> Z) l : (forall p, p ∈ l -> g p = h p) -> sumZ g l = sumZ h l.
Proof.
  induction l as [|p l IH]; intros H; [done|]. cbn [sumZ fold_right]. fold (sumZ g l) (sumZ h l).
  rewrite (H p), IH; [done| |apply list_elem_of_here]. intros x Hx. by apply H, list_elem_of_further.
Qed.

Lemma sumZ_change `{EqDecision A} (g h : A -> Z) l q : NoDup l -> q ∈ l -> (forall p, p <> q -> g p = h p) -> sumZ g l = sumZ h l + g q - h q.
Proof.
  intros Hn Hq H. induction l as [|p l IH]; [by apply not_elem_of_nil in Hq|].
  apply list.NoDup_cons in Hn as [Hp Hn]. cbn [sumZ fold_right]. fold (sumZ g l) (sumZ h l).
  destruct (decide (p = q)) as [->|Hne].
  - rewrite (sumZ_ext g h l); [lia|]. intros x Hx. apply H. intros ->. done.
  - rewrite IH, (H p) by (done || by apply elem_of_cons in Hq as [->|]). lia.
Qed.

Lemma sumZ_bound {A} (g : A -> Z) l n : (forall p, p ∈ l -> 0 <= g p <= n) -> 0 <= sumZ g l <= Z.of_nat (length l) * n.
Proof.
  induction l as [|p l IH]; intros H; [done|]. cbn [sumZ fold_right length]. fold (sumZ g l).
  specialize (IH (fun x Hx => H x (list_elem_of_further _ _ _ Hx))). specialize (H p (list_elem_of_here _ _)). lia.
Qed.

Lemma sumZ_ge {A} (g : A -> Z) l q : (forall p, p ∈ l -> 0 <= g p) -> q ∈ l -> g q <= sumZ g l.
Proof.
  induction l as [|p l IH]; intros H Hq; [by apply not_elem_of_nil in Hq|]. cbn [sumZ fold_right]. fold (sumZ g l).
  assert (Hs : 0 <= sumZ g l).
  { clear IH Hq. induction l as [|y l IH]; [done|]. cbn [sumZ fold_right]. fold (sumZ g l).
    assert (0 <= g y) by (apply H; set_solver). assert (0 <= sumZ g l) by (apply IH; set_solver). lia. }
  apply elem_of_cons in Hq as [->|Hq]; [lia|].
  assert (0 <= g p) by (apply H, list_elem_of_here). specialize (IH (fun x Hx => H x (list_elem_of_further _ _ _ Hx)) Hq). lia.
Qed.

Lemma sumZ_zero {A} (l : list A) : sumZ (fun _ => 0) l = 0.
Proof. induction l as [|p l IH]; [done|exact IH]. Qed.
