(* ===== verification/ListH.v ===== *)
(** The intrusive circular doubly-linked lists of
    Kernel-Memory/kernel/list.h, at the level of their pointers.

    A heap maps the address of a [struct list_head] to its two fields; an
    access to an address outside the heap is a fault.  The operations are the
    assignments of list.h, in their order.  [dll h head l] says that the nodes
    [l], in this order, hang off [head]; the theorems give each operation its
    meaning on [l] and say that nothing else in the heap moves.  The generic
    part ([chain]) speaks of any two pointer fields, and Bio.v reuses it for
    the LRU list of the buffer cache. *)
From S2P Require Import Prelude.

(** ** Chains of nodes linked by two pointer fields *)

Section chain.
Context {A : Type}.
Implicit Types (nx pv : A -> option A) (l : list A).

Definition link nx pv (a b : A) : Prop := nx a = Some b /\ pv b = Some a.

Fixpoint chain nx pv l : Prop :=
  match l with
  | a :: ((b :: _) as l') => link nx pv a b /\ chain nx pv l'
  | _ => True
  end.

(** The circular list [head <-> l_0 <-> ... <-> l_n <-> head]. *)
Definition ring nx pv (head : A) l : Prop :=
  NoDup (head :: l) /\ chain nx pv (head :: l ++ [head]).

Lemma chain_cons nx pv a b l :
  chain nx pv (a :: b :: l) <-> link nx pv a b /\ chain nx pv (b :: l).
Proof. done. Qed.

Lemma chain_app nx pv l1 a l2 :
  chain nx pv (l1 ++ a :: l2) <-> chain nx pv (l1 ++ [a]) /\ chain nx pv (a :: l2).
Proof.
  induction l1 as [|x l1 IH]; [destruct l2; simpl; tauto|].
  destruct l1 as [|y l1]; [destruct l2; simpl; tauto|].
  change ((x :: y :: l1) ++ a :: l2) with (x :: y :: (l1 ++ a :: l2)).
  change ((x :: y :: l1) ++ [a]) with (x :: y :: (l1 ++ [a])).
  rewrite !chain_cons. change (y :: l1 ++ a :: l2) with ((y :: l1) ++ a :: l2).
  change (y :: l1 ++ [a]) with ((y :: l1) ++ [a]). rewrite IH. tauto.
Qed.

Lemma chain_join nx pv l1 a b l2 :
  chain nx pv (l1 ++ [a]) -> link nx pv a b -> chain nx pv (b :: l2) ->
  chain nx pv (l1 ++ a :: b :: l2).
Proof. intros. apply chain_app. split; [done|]. by apply chain_cons. Qed.

(** A chain depends on [nx] of all its nodes but the last and on [pv] of all
    but the first. *)
Lemma chain_frame nx pv nx' pv' l :
  chain nx pv l ->
  (forall p, p ∈ removelast l -> nx' p = nx p) -> (forall p, p ∈ tail l -> pv' p = pv p) ->
  chain nx' pv' l.
Proof.
  induction l as [|a [|b l] IH]; [done..|]. rewrite !chain_cons.
  intros [[H1 H2] H3] Hn Hp. split.
  - split; [rewrite Hn; [done|]|rewrite Hp; [done|]]; apply list_elem_of_here.
  - apply IH; [done|..].
    + intros p Hp'. apply Hn. change (p ∈ a :: removelast (b :: l)). by apply list_elem_of_further.
    + intros p Hp'. apply Hp. by apply list_elem_of_further.
Qed.

Lemma chain_nx nx pv l1 a b l2 : chain nx pv (l1 ++ a :: b :: l2) -> nx a = Some b.
Proof. rewrite chain_app, chain_cons. unfold link. tauto. Qed.

Lemma chain_pv nx pv l1 a b l2 : chain nx pv (l1 ++ a :: b :: l2) -> pv b = Some a.
Proof. rewrite chain_app, chain_cons. unfold link. tauto. Qed.

Lemma removelast_snoc_list l a : removelast (l ++ [a]) = l.
Proof. apply removelast_last. Qed.

Lemma removelast_app_cons l a l2 : removelast (l ++ a :: l2) = l ++ removelast (a :: l2).
Proof. by apply removelast_app. Qed.

(** Node [x] put between the neighbours [a] and [b]. *)
Lemma chain_insert nx pv nx' pv' xs a b ys x :
  chain nx pv (xs ++ a :: b :: ys) ->
  NoDup (removelast (xs ++ a :: b :: ys)) -> NoDup (tail (xs ++ a :: b :: ys)) ->
  x ∉ xs ++ a :: b :: ys ->
  nx' a = Some x -> nx' x = Some b -> pv' b = Some x -> pv' x = Some a ->
  (forall p, p <> a -> p <> x -> nx' p = nx p) ->
  (forall p, p <> b -> p <> x -> pv' p = pv p) ->
  chain nx' pv' (xs ++ a :: x :: b :: ys).
Proof.
  intros Hc Hn1 Hn2 Hx Ha Hxb Hb Hxa Hnx Hpv.
  assert (Hc' := Hc). rewrite chain_app, chain_cons in Hc'. destruct Hc' as (H1 & _ & H2).
  rewrite removelast_app_cons in Hn1. cbn [removelast] in Hn1.
  apply list.NoDup_app in Hn1 as (_ & Hn1 & Hn1').
  apply list.NoDup_cons in Hn1' as [Hn1' _].
  assert (Hn2' : b ∉ tail (xs ++ [a]) /\ b ∉ ys).
  { destruct xs as [|z xs]; simpl in Hn2 |- *.
    - apply list.NoDup_cons in Hn2 as [? _]. split; [set_solver|done].
    - replace (xs ++ a :: b :: ys) with ((xs ++ [a]) ++ b :: ys) in Hn2
        by (by rewrite <- app_assoc).
      apply list.NoDup_app in Hn2 as (_ & Hd & Hn2). apply list.NoDup_cons in Hn2 as [? _].
      split; [|done]. intros Hin. eapply Hd; [exact Hin|]. apply list_elem_of_here. }
  apply chain_join; [|done|apply chain_join with (l1 := []); [done|done|]].
  - eapply chain_frame; [exact H1|..].
    + intros p. rewrite removelast_snoc_list. intros Hp. apply Hnx; [|set_solver].
      intros ->. eapply Hn1; [exact Hp|]. apply list_elem_of_here.
    + intros p Hp. apply Hpv; [intros ->; tauto|].
      intros ->. apply Hx. destruct xs; simpl in *; set_solver.
  - eapply chain_frame; [exact H2|..].
    + intros p Hp. apply Hnx; [by intros ->|]. intros ->. apply Hx.
      assert (x ∈ b :: ys); [|set_solver].
      rewrite (app_removelast_last x (l := b :: ys)) by done. set_solver.
    + intros p Hp. simpl in Hp. apply Hpv; [intros ->; tauto|]. set_solver.
Qed.

(** Node [x] taken out from between [a] and [b]. *)
Lemma chain_remove nx pv nx' pv' xs a x b ys :
  chain nx pv (xs ++ a :: x :: b :: ys) ->
  NoDup (removelast (xs ++ a :: x :: b :: ys)) -> NoDup (tail (xs ++ a :: x :: b :: ys)) ->
  nx' a = Some b -> pv' b = Some a ->
  (forall p, p <> a -> nx' p = nx p) -> (forall p, p <> b -> pv' p = pv p) ->
  chain nx' pv' (xs ++ a :: b :: ys).
Proof.
  intros Hc Hn1 Hn2 Ha Hb Hnx Hpv.
  assert (Hc' := Hc). rewrite chain_app, !chain_cons in Hc'. destruct Hc' as (H1 & _ & _ & H2).
  rewrite removelast_app_cons in Hn1. cbn [removelast] in Hn1.
  apply list.NoDup_app in Hn1 as (_ & Hn1 & Hn1').
  apply list.NoDup_cons in Hn1' as [Hn1' _].
  assert (Hn2' : b ∉ tail (xs ++ [a]) /\ b ∉ ys).
  { destruct xs as [|z xs]; simpl in Hn2 |- *.
    - apply list.NoDup_cons in Hn2 as [_ Hn2]. apply list.NoDup_cons in Hn2 as [? _].
      split; [set_solver|done].
    - replace (xs ++ a :: x :: b :: ys) with ((xs ++ [a; x]) ++ b :: ys) in Hn2
        by (by rewrite <- app_assoc).
      apply list.NoDup_app in Hn2 as (_ & Hd & Hn2). apply list.NoDup_cons in Hn2 as [? _].
      split; [|done]. intros Hin. eapply (Hd b); [|apply list_elem_of_here].
      rewrite elem_of_app in Hin |- *. set_solver. }
  apply chain_join; [|done|].
  - eapply chain_frame; [exact H1|..].
    + intros p. rewrite removelast_snoc_list. intros Hp. apply Hnx.
      intros ->. eapply Hn1; [exact Hp|]. apply list_elem_of_here.
    + intros p Hp. apply Hpv. intros ->. tauto.
  - eapply chain_frame; [exact H2|..].
    + intros p Hp. apply Hnx. intros ->. apply Hn1'. cbn [removelast] in *.
      set_solver.
    + intros p Hp. simpl in Hp. apply Hpv. intros ->. tauto.
Qed.

Lemma ring_nodups head l :
  NoDup (head :: l) ->
  NoDup (removelast (head :: l ++ [head])) /\ NoDup (tail (head :: l ++ [head])).
Proof.
  intros Hn. change (head :: l ++ [head]) with ((head :: l) ++ [head]).
  rewrite removelast_snoc_list. split; [done|]. simpl.
  by rewrite <- Permutation_cons_append.
Qed.
End chain.

(** ** [struct list_head] and the operations of list.h *)

Abbreviation ptr := Z (only parsing).

Record list_head := { prev : ptr; next : ptr }.

Abbreviation heap := (gmap ptr list_head) (only parsing).
Abbreviation HM := (M (gmap ptr list_head)) (only parsing).

Definition set_node_next (v : ptr) (n : list_head) : list_head := {| prev := prev n; next := v |}.
Definition set_node_prev (v : ptr) (n : list_head) : list_head := {| prev := v; next := next n |}.

(** [p->next], [p->prev], [p->next = v], [p->prev = v]. *)
Definition load_next (p : ptr) : HM ptr :=
  fun h => match h !! p with Some n => Ret (next n) h | None => Panic "fault" end.
Definition load_prev (p : ptr) : HM ptr :=
  fun h => match h !! p with Some n => Ret (prev n) h | None => Panic "fault" end.
Definition store_next (p v : ptr) : HM unit :=
  fun h => match h !! p with
           | Some n => Ret tt (<[p := set_node_next v n]> h)
           | None => Panic "fault"
           end.
Definition store_prev (p v : ptr) : HM unit :=
  fun h => match h !! p with
           | Some n => Ret tt (<[p := set_node_prev v n]> h)
           | None => Panic "fault"
           end.

Definition INIT_LIST_HEAD (head : ptr) : HM unit :=
  store_next head head ;;;
  store_prev head head.

Definition list_add (node head : ptr) : HM unit :=
  let! next := load_next head in
  store_prev next node ;;;
  store_next node next ;;;
  store_prev node head ;;;
  store_next head node.

Definition list_add_tail (node head : ptr) : HM unit :=
  let! prev := load_prev head in
  store_next prev node ;;;
  store_next node head ;;;
  store_prev node prev ;;;
  store_prev head node.

Definition list_del (node : ptr) : HM unit :=
  let! next := load_next node in
  let! prev := load_prev node in
  store_prev next prev ;;;
  store_next prev next.

Definition list_del_init (node : ptr) : HM unit :=
  list_del node ;;;
  INIT_LIST_HEAD node.

Definition list_empty (head : ptr) : HM bool :=
  let! n := load_next head in
  ret (n =? head).

Definition list_is_singular (head : ptr) : HM bool :=
  let! e := list_empty head in
  if e then ret false else
  let! p := load_prev head in
  let! n := load_next head in
  ret (p =? n).

Definition list_splice (list head : ptr) : HM unit :=
  let! head_first := load_next head in
  let! list_first := load_next list in
  let! list_last := load_prev list in
  let! e := list_empty list in
  if e then ret tt else
  store_next head list_first ;;;
  store_prev list_first head ;;;
  store_next list_last head_first ;;;
  store_prev head_first list_last.

Definition list_splice_tail (list head : ptr) : HM unit :=
  let! head_last := load_prev head in
  let! list_first := load_next list in
  let! list_last := load_prev list in
  let! e := list_empty list in
  if e then ret tt else
  store_prev head list_last ;;;
  store_next list_last head ;;;
  store_prev list_first head_last ;;;
  store_next head_last list_first.

Definition list_splice_init (list head : ptr) : HM unit :=
  list_splice list head ;;;
  INIT_LIST_HEAD list.

Definition list_splice_tail_init (list head : ptr) : HM unit :=
  list_splice_tail list head ;;;
  INIT_LIST_HEAD list.

Definition list_cut_position (head_to head_from node : ptr) : HM unit :=
  let! head_from_first := load_next head_from in
  let! e := list_empty head_from in
  if e then ret tt else
  if head_from =? node then INIT_LIST_HEAD head_to else
  let! node_next := load_next node in
  store_next head_from node_next ;;;
  let! hfn := load_next head_from in
  store_prev hfn head_from ;;;
  store_prev head_to node ;;;
  store_next node head_to ;;;
  store_next head_to head_from_first ;;;
  let! htn := load_next head_to in
  store_prev htn head_to.

Definition list_move (node head : ptr) : HM unit :=
  list_del node ;;;
  list_add node head.

Definition list_move_tail (node head : ptr) : HM unit :=
  list_del node ;;;
  list_add_tail node head.

(** [container_of(ptr, type, member)] with [off = offsetof(type, member)]. *)
Definition container_of (p off : Z) : Z := u64 (p - off).
Definition list_first_entry (head off : Z) : HM Z :=
  let! n := load_next head in ret (container_of n off).
Definition list_last_entry (head off : Z) : HM Z :=
  let! n := load_prev head in ret (container_of n off).

(** The traversal of [list_for_each]: the nodes given to the loop body, in
    order; [fuel] bounds the length of the list. *)
Fixpoint list_for_each_from (fuel : nat) (node head : ptr) : HM (list ptr) :=
  if node =? head then ret [] else
  match fuel with
  | O => fun _ => Fuel
  | S n =>
      let! nx := load_next node in
      let! rest := list_for_each_from n nx head in
      ret (node :: rest)
  end.
Definition list_for_each (fuel : nat) (head : ptr) : HM (list ptr) :=
  let! n := load_next head in
  list_for_each_from fuel n head.

(** [list_for_each_safe(node, safe, head) body(node)]. *)
Fixpoint list_for_each_safe_from (fuel : nat) (node safe head : ptr) (body : ptr -> HM unit)
  : HM unit :=
  if node =? head then ret tt else
  match fuel with
  | O => fun _ => Fuel
  | S n =>
      body node ;;;
      let! safe' := load_next safe in
      list_for_each_safe_from n safe safe' head body
  end.
Definition list_for_each_safe (fuel : nat) (head : ptr) (body : ptr -> HM unit) : HM unit :=
  let! node := load_next head in
  let! safe := load_next node in
  list_for_each_safe_from fuel node safe head body.

(** ** The lists a heap represents *)

Definition nx (h : heap) (p : ptr) : option ptr := next <$> h !! p.
Definition pv (h : heap) (p : ptr) : option ptr := prev <$> h !! p.

Definition dll (h : heap) (head : ptr) (l : list ptr) : Prop := ring (nx h) (pv h) head l.

(** Heaps that agree outside [ps]. *)
Definition same_except (ps : list ptr) (h h' : heap) : Prop :=
  forall p, p ∉ ps -> h' !! p = h !! p.

Lemma store_next_run p v (h : heap) :
  is_Some (h !! p) ->
  exists h', store_next p v h = Ret tt h' /\
    (forall q, nx h' q = if decide (p = q) then Some v else nx h q) /\
    (forall q, pv h' q = pv h q) /\
    (forall q, is_Some (h !! q) -> is_Some (h' !! q)) /\ same_except [p] h h'.
Proof.
  intros [n Hn]. unfold store_next. rewrite Hn. eexists. split; [reflexivity|].
  unfold nx, pv, same_except. split_and!; intros q.
  - rewrite lookup_insert. by case_decide.
  - rewrite lookup_insert. case_decide; [|done]. subst. by rewrite Hn.
  - rewrite lookup_insert. by case_decide.
  - intros Hq. apply lookup_insert_ne. set_solver.
Qed.

Lemma store_prev_run p v (h : heap) :
  is_Some (h !! p) ->
  exists h', store_prev p v h = Ret tt h' /\
    (forall q, pv h' q = if decide (p = q) then Some v else pv h q) /\
    (forall q, nx h' q = nx h q) /\
    (forall q, is_Some (h !! q) -> is_Some (h' !! q)) /\ same_except [p] h h'.
Proof.
  intros [n Hn]. unfold store_prev. rewrite Hn. eexists. split; [reflexivity|].
  unfold nx, pv, same_except. split_and!; intros q.
  - rewrite lookup_insert. by case_decide.
  - rewrite lookup_insert. case_decide; [|done]. subst. by rewrite Hn.
  - rewrite lookup_insert. by case_decide.
  - intros Hq. apply lookup_insert_ne. set_solver.
Qed.

Lemma load_next_run p v (h : heap) : nx h p = Some v -> load_next p h = Ret v h.
Proof. unfold nx, load_next. destruct (h !! p); naive_solver. Qed.

Lemma load_prev_run p v (h : heap) : pv h p = Some v -> load_prev p h = Ret v h.
Proof. unfold pv, load_prev. destruct (h !! p); naive_solver. Qed.

Lemma nx_in (h : heap) p v : nx h p = Some v -> is_Some (h !! p).
Proof. unfold nx. destruct (h !! p); naive_solver. Qed.

Lemma pv_in (h : heap) p v : pv h p = Some v -> is_Some (h !! p).
Proof. unfold pv. destruct (h !! p); naive_solver. Qed.

(** Run one assignment of the code, and keep what it says of both fields. *)
Ltac run_store :=
  lazymatch goal with
  | |- context [bind (store_next ?p ?v) ?k ?h] =>
      let h' := fresh "h" in let N := fresh "N" in let P := fresh "P" in
      let D := fresh "D" in let F := fresh "F" in let E := fresh "E" in
      destruct (store_next_run p v h) as (h' & E & N & P & D & F);
      [eauto|rewrite (bind_eq _ _ _ _ _ E); clear E]
  | |- context [bind (store_prev ?p ?v) ?k ?h] =>
      let h' := fresh "h" in let N := fresh "N" in let P := fresh "P" in
      let D := fresh "D" in let F := fresh "F" in let E := fresh "E" in
      destruct (store_prev_run p v h) as (h' & E & P & N & D & F);
      [eauto|rewrite (bind_eq _ _ _ _ _ E); clear E]
  | |- context [store_next ?p ?v ?h] =>
      let h' := fresh "h" in let N := fresh "N" in let P := fresh "P" in
      let D := fresh "D" in let F := fresh "F" in let E := fresh "E" in
      destruct (store_next_run p v h) as (h' & E & N & P & D & F); [eauto|rewrite E; clear E]
  | |- context [store_prev ?p ?v ?h] =>
      let h' := fresh "h" in let N := fresh "N" in let P := fresh "P" in
      let D := fresh "D" in let F := fresh "F" in let E := fresh "E" in
      destruct (store_prev_run p v h) as (h' & E & P & N & D & F); [eauto|rewrite E; clear E]
  end.

(** Evaluate [nx] and [pv] of the heaps reached by [run_store]. *)
Ltac fields :=
  repeat match goal with
  | H : forall q, nx ?h q = _ |- context [nx ?h _] => rewrite H
  | H : forall q, pv ?h q = _ |- context [pv ?h _] => rewrite H
  end;
  repeat (case_decide; try congruence); try done.

Lemma same_except_trans ps h1 h2 h3 :
  same_except ps h1 h2 -> same_except ps h2 h3 -> same_except ps h1 h3.
Proof. intros H1 H2 p Hp. rewrite H2, H1; done. Qed.

Lemma same_except_weaken ps ps' h h' : same_except ps h h' -> ps ⊆ ps' -> same_except ps' h h'.
Proof. intros H Hs p Hp. apply H. set_solver. Qed.

Ltac frames :=
  repeat match goal with
  | H : same_except ?ps ?h1 ?h2 |- same_except _ ?h1 ?h2 =>
      apply (same_except_weaken ps); [exact H|]; set_solver
  | H : same_except ?ps ?h2 ?h3 |- same_except _ _ ?h3 =>
      eapply same_except_trans; [|apply (same_except_weaken ps); [exact H|set_solver]]; clear H
  end.

Lemma snoc_cons {A} (l : list A) a : exists b ys, l ++ [a] = b :: ys /\ (b = a \/ b ∈ l).
Proof. destruct l as [|b l]; simpl; [by exists a, []; auto|]. exists b, (l ++ [a]). set_solver. Qed.

Lemma cons_snoc {A} (l : list A) a : exists xs b, a :: l = xs ++ [b] /\ (b = a \/ b ∈ l).
Proof.
  destruct l as [|b l] using rev_ind; [by exists [], a; auto|].
  exists (a :: l), b. set_solver.
Qed.

(** The assignments common to both insertions, between neighbours [a], [b]. *)
Lemma insert_between (h h' : heap) head l1 l2 a b xs ys node :
  dll h head (l1 ++ l2) -> node ∉ head :: l1 ++ l2 ->
  head :: l1 = xs ++ [a] -> l2 ++ [head] = b :: ys ->
  nx h' a = Some node -> nx h' node = Some b -> pv h' b = Some node -> pv h' node = Some a ->
  (forall p, p <> a -> p <> node -> nx h' p = nx h p) ->
  (forall p, p <> b -> p <> node -> pv h' p = pv h p) ->
  dll h' head (l1 ++ node :: l2).
Proof.
  intros [Hn Hc] Hnode Hxs Hys Ha Hna Hb Hnb Hnx Hpv.
  assert (Heq : head :: (l1 ++ l2) ++ [head] = xs ++ a :: b :: ys).
  { change (head :: (l1 ++ l2) ++ [head]) with (((head :: l1) ++ l2) ++ [head]).
    rewrite Hxs, <- !app_assoc. by rewrite Hys. }
  destruct (ring_nodups _ _ Hn) as [Hn1 Hn2]. rewrite Heq in Hc, Hn1, Hn2. split.
  - change (head :: l1 ++ node :: l2) with ((head :: l1) ++ node :: l2).
    rewrite <- Permutation_middle. by apply list.NoDup_cons.
  - replace (head :: (l1 ++ node :: l2) ++ [head]) with (xs ++ a :: node :: b :: ys).
    + eapply chain_insert; try done. intros Hin. apply Hnode.
      assert (node ∈ head :: (l1 ++ l2) ++ [head]) by (by rewrite Heq). set_solver.
    + change (head :: (l1 ++ node :: l2) ++ [head]) with (((head :: l1) ++ node :: l2) ++ [head]).
      rewrite Hxs, <- !app_assoc. simpl. by rewrite Hys.
Qed.

Lemma list_add_run (h : heap) node head l :
  dll h head l -> node ∉ head :: l -> is_Some (h !! node) ->
  exists h', list_add node head h = Ret tt h' /\ dll h' head (node :: l) /\
    same_except (node :: head :: l) h h' /\ (forall q, is_Some (h !! q) -> is_Some (h' !! q)).
Proof.
  intros Hd Hnode Hin. assert (Hd' := Hd). destruct Hd' as [_ Hc].
  destruct (snoc_cons l head) as (b & ys & Heq & Hb). rewrite Heq in Hc.
  pose proof (chain_nx _ _ [] _ _ _ Hc) as Hnx. pose proof (chain_pv _ _ [] _ _ _ Hc) as Hpv.
  pose proof (nx_in _ _ _ Hnx). pose proof (pv_in _ _ _ Hpv).
  unfold list_add. rewrite (bind_eq _ _ _ _ _ (load_next_run _ _ _ Hnx)).
  do 4 run_store. eexists. split; [reflexivity|].
  assert (b <> node) by set_solver. assert (head <> node) by set_solver. split_and!.
  - apply (insert_between h _ head [] l head b [] ys); try done;
      intros; fields.
  - frames.
  - eauto 10.
Qed.

Lemma list_add_tail_run (h : heap) node head l :
  dll h head l -> node ∉ head :: l -> is_Some (h !! node) ->
  exists h', list_add_tail node head h = Ret tt h' /\ dll h' head (l ++ [node]) /\
    same_except (node :: head :: l) h h' /\ (forall q, is_Some (h !! q) -> is_Some (h' !! q)).
Proof.
  intros Hd Hnode Hin. assert (Hd' := Hd). destruct Hd' as [_ Hc].
  destruct (cons_snoc l head) as (xs & a & Heq & Ha).
  change (head :: l ++ [head]) with ((head :: l) ++ [head]) in Hc.
  rewrite Heq, <- app_assoc in Hc. simpl in Hc.
  pose proof (chain_nx _ _ _ _ _ _ Hc) as Hnx. pose proof (chain_pv _ _ _ _ _ _ Hc) as Hpv.
  pose proof (nx_in _ _ _ Hnx). pose proof (pv_in _ _ _ Hpv).
  unfold list_add_tail. rewrite (bind_eq _ _ _ _ _ (load_prev_run _ _ _ Hpv)).
  do 4 run_store. eexists. split; [reflexivity|].
  assert (a <> node) by set_solver. assert (head <> node) by set_solver. split_and!.
  - apply (insert_between h _ head l [] a head xs []); rewrite ?app_nil_r; try done;
      intros; fields.
  - frames.
  - eauto 10.
Qed.

(** [list_add] and [list_add_tail] put an unlinked node at the front and
    at the back of the list, and write to no node outside the list. *)
Theorem list_add_spec (h : heap) node head l :
  dll h head l -> node ∉ head :: l -> is_Some (h !! node) ->
  (exists h', list_add node head h = Ret tt h' /\ dll h' head (node :: l) /\
     same_except (node :: head :: l) h h') /\
  (exists h', list_add_tail node head h = Ret tt h' /\ dll h' head (l ++ [node]) /\
     same_except (node :: head :: l) h h').
Proof.
  intros Hd Hn Hi. split.
  - destruct (list_add_run h node head l Hd Hn Hi) as (h' & ? & ? & ? & _). eauto.
  - destruct (list_add_tail_run h node head l Hd Hn Hi) as (h' & ? & ? & ? & _). eauto.
Qed.

Lemma list_del_run (h : heap) node head l1 l2 :
  dll h head (l1 ++ node :: l2) ->
  exists h', list_del node h = Ret tt h' /\ dll h' head (l1 ++ l2) /\
    same_except (head :: l1 ++ l2) h h' /\ (forall q, is_Some (h !! q) -> is_Some (h' !! q)).
Proof.
  intros [Hn Hc].
  destruct (cons_snoc l1 head) as (xs & a & Hxs & Ha).
  destruct (snoc_cons l2 head) as (b & ys & Hys & Hb).
  assert (Heq : head :: (l1 ++ node :: l2) ++ [head] = xs ++ a :: node :: b :: ys).
  { change (head :: (l1 ++ node :: l2) ++ [head]) with (((head :: l1) ++ node :: l2) ++ [head]).
    rewrite Hxs, <- !app_assoc. simpl. by rewrite Hys. }
  assert (Heq' : head :: (l1 ++ l2) ++ [head] = xs ++ a :: b :: ys).
  { change (head :: (l1 ++ l2) ++ [head]) with (((head :: l1) ++ l2) ++ [head]).
    rewrite Hxs, <- !app_assoc. by rewrite Hys. }
  destruct (ring_nodups _ _ Hn) as [Hn1 Hn2]. rewrite Heq in Hc, Hn1, Hn2.
  pose proof (chain_pv _ _ _ _ _ _ Hc) as Hpv.
  assert (Hc' := Hc). replace (xs ++ a :: node :: b :: ys) with ((xs ++ [a]) ++ node :: b :: ys)
    in Hc' by (by rewrite <- app_assoc).
  pose proof (chain_nx _ _ _ _ _ _ Hc') as Hnx.
  pose proof (pv_in _ _ _ (chain_pv _ _ _ _ _ _ Hc')).
  pose proof (nx_in _ _ _ (chain_nx _ _ _ _ _ _ Hc)).
  unfold list_del. rewrite (bind_eq _ _ _ _ _ (load_next_run _ _ _ Hnx)).
  rewrite (bind_eq _ _ _ _ _ (load_prev_run _ _ _ Hpv)).
  do 2 run_store. eexists. split; [reflexivity|]. split_and!.
  - split.
    + change (head :: l1 ++ node :: l2) with ((head :: l1) ++ node :: l2) in Hn.
      rewrite <- Permutation_middle in Hn. by apply list.NoDup_cons in Hn as [_ Hn].
    + rewrite Heq'. eapply chain_remove; [exact Hc|done|done|..]; intros; fields.
  - frames.
  - eauto 10.
Qed.

(** [list_del] unlinks exactly its node from wherever it is in the list;
    [list_del_init] also leaves it an empty list of its own. *)
Theorem list_del_spec (h : heap) node head l1 l2 :
  dll h head (l1 ++ node :: l2) ->
  (exists h', list_del node h = Ret tt h' /\ dll h' head (l1 ++ l2) /\
     same_except (head :: l1 ++ l2) h h') /\
  (exists h', list_del_init node h = Ret tt h' /\ dll h' head (l1 ++ l2) /\ dll h' node [] /\
     same_except (node :: head :: l1 ++ l2) h h').
Proof.
  intros Hd. assert (Hd' := Hd). destruct Hd' as [Hn Hc].
  destruct (list_del_run h node head l1 l2 Hd) as (h' & Hrun & [Hn' Hc'] & Hs & Hin).
  split; [by exists h'; repeat split|].
  assert (is_Some (h !! node)) as Hnode.
  { change (head :: (l1 ++ node :: l2) ++ [head]) with (((head :: l1) ++ node :: l2) ++ [head]) in Hc.
    rewrite <- app_assoc in Hc. destruct (snoc_cons l2 head) as (b & ys & Hys & _).
    simpl in Hc. rewrite Hys in Hc. eapply nx_in, (chain_nx _ _ (head :: l1)). exact Hc. }
  assert (node ∉ head :: l1 ++ l2) as Hnin.
  { change (head :: l1 ++ node :: l2) with ((head :: l1) ++ node :: l2) in Hn.
    rewrite <- Permutation_middle in Hn. by apply list.NoDup_cons in Hn as [Hn _]. }
  unfold list_del_init, INIT_LIST_HEAD. rewrite (bind_eq _ _ _ _ _ Hrun).
  do 2 run_store. eexists. split; [reflexivity|]. split_and!.
  - split; [done|]. eapply chain_frame; [exact Hc'|..]; intros p Hp.
    + change (head :: (l1 ++ l2) ++ [head]) with ((head :: l1 ++ l2) ++ [head]) in Hp.
      rewrite removelast_snoc_list in Hp. assert (node <> p) by set_solver. fields.
    + simpl in Hp. assert (node <> p) by set_solver. fields.
  - split; [apply NoDup_singleton|]. split; [|done]. split; fields.
  - frames.
Qed.

(** [list_move_tail] on the represented list: the node leaves its place and
    is appended. *)
Definition move_tail (p : ptr) (q : list ptr) : list ptr :=
  match list_find (eq p) q with
  | Some (i, _) => delete i q ++ [p]
  | None => q ++ [p]
  end.

Lemma move_tail_app p l1 l2 : p ∉ l1 -> move_tail p (l1 ++ p :: l2) = l1 ++ l2 ++ [p].
Proof.
  intros Hp. unfold move_tail.
  assert (list_find (eq p) (l1 ++ p :: l2) = Some (length l1, p)) as ->.
  { apply list_find_app_Some. right. split_and!; [lia|..].
    - apply list_find_None, list.Forall_forall. by intros x Hx <-.
    - simpl. rewrite decide_True by done. by rewrite Nat.sub_diag. }
  rewrite delete_middle. by rewrite <- app_assoc.
Qed.


(** C40: [list_move_tail] implements, on the heap, the queue rotation
    [move_tail] that the scheduling policies are written with; [list_move]
    moves the node to the front. *)
Theorem list_move_tail_refines (h : heap) node head l :
  dll h head l -> node ∈ l ->
  (exists h', list_move_tail node head h = Ret tt h' /\ dll h' head (move_tail node l) /\
     same_except (head :: l) h h') /\
  (exists h' l1 l2, l = l1 ++ node :: l2 /\
     list_move node head h = Ret tt h' /\ dll h' head (node :: l1 ++ l2) /\
     same_except (head :: l) h h').
Proof.
  intros Hd (l1 & l2 & ->)%list_elem_of_split. assert (Hd' := Hd). destruct Hd' as [Hn Hc].
  destruct (list_del_run h node head l1 l2 Hd) as (h1 & Hrun & Hd1 & Hs1 & Hin1).
  change (head :: l1 ++ node :: l2) with ((head :: l1) ++ node :: l2) in Hn.
  assert (Hn' := Hn). rewrite <- Permutation_middle in Hn'.
  apply list.NoDup_cons in Hn' as [Hnin _].
  assert (is_Some (h !! node)) as Hnode.
  { change (head :: (l1 ++ node :: l2) ++ [head]) with (((head :: l1) ++ node :: l2) ++ [head]) in Hc.
    rewrite <- app_assoc in Hc. destruct (snoc_cons l2 head) as (b & ys & Hys & _).
    simpl in Hc. rewrite Hys in Hc. eapply nx_in, (chain_nx _ _ (head :: l1)). exact Hc. }
  split.
  - destruct (list_add_tail_run h1 node head (l1 ++ l2)) as (h2 & Hrun2 & Hd2 & Hs2 & _);
      [done|done|auto|].
    exists h2. unfold list_move_tail. rewrite (bind_eq _ _ _ _ _ Hrun).
    split_and!; [done|rewrite move_tail_app by set_solver; by rewrite app_assoc|].
    eapply same_except_trans; [eapply same_except_weaken; [exact Hs1|]
      |eapply same_except_weaken; [exact Hs2|]]; set_solver.
  - destruct (list_add_run h1 node head (l1 ++ l2)) as (h2 & Hrun2 & Hd2 & Hs2 & _);
      [done|done|auto|].
    exists h2, l1, l2. unfold list_move. rewrite (bind_eq _ _ _ _ _ Hrun).
    split_and!; [done..|].
    eapply same_except_trans; [eapply same_except_weaken; [exact Hs1|]
      |eapply same_except_weaken; [exact Hs2|]]; set_solver.
Qed.

(** [list_for_each] visits exactly the nodes of the list, in order, and
    ends: fuel beyond the length of the list is never needed. *)
Theorem list_for_each_visits (h : heap) head l fuel :
  dll h head l -> (length l <= fuel)%nat -> list_for_each fuel head h = Ret l h.
Proof.
  intros [Hn Hc] Hf.
  assert (Hgen : forall l fuel p, head ∉ l -> (length l <= fuel)%nat ->
    chain (nx h) (pv h) (p :: l ++ [head]) ->
    bind (load_next p) (fun n => list_for_each_from fuel n head) h = Ret l h).
  { clear. intros l. induction l as [|x l IH]; intros fuel p Hnin Hf Hc.
    - simpl in Hc. destruct Hc as [[Hnx _] _].
      rewrite (bind_eq _ _ _ _ _ (load_next_run _ _ _ Hnx)).
      destruct fuel; simpl; by rewrite Z.eqb_refl.
    - simpl in Hf. destruct fuel as [|fuel]; [lia|].
      change (p :: (x :: l) ++ [head]) with (p :: x :: (l ++ [head])) in Hc.
      rewrite chain_cons in Hc. destruct Hc as [[Hnx _] Hc].
      rewrite (bind_eq _ _ _ _ _ (load_next_run _ _ _ Hnx)). cbn [list_for_each_from].
      replace (x =? head) with false by (symmetry; apply Z.eqb_neq; set_solver).
      rewrite <- bind_assoc. specialize (IH fuel x). unfold bind in *.
      rewrite IH; [done|set_solver|lia|done]. }
  apply Hgen; [|done|done]. by apply list.NoDup_cons in Hn as [? _].
Qed.

(** The nodes [m], taken out of a chain, put between the neighbours [a] and
    [b] of another: the pointers of the four end points change. *)
Lemma splice_between (h h' : heap) list head m l1 l2 a b xs ys f e m1 m2 :
  dll h list m -> dll h head (l1 ++ l2) ->
  (forall p, p ∈ list :: m -> p ∉ head :: l1 ++ l2) ->
  m = f :: m1 -> m = m2 ++ [e] -> head :: l1 = xs ++ [a] -> l2 ++ [head] = b :: ys ->
  nx h' a = Some f -> pv h' f = Some a -> nx h' e = Some b -> pv h' b = Some e ->
  (forall p, p <> a -> p <> e -> nx h' p = nx h p) ->
  (forall p, p <> b -> p <> f -> pv h' p = pv h p) ->
  dll h' head (l1 ++ m ++ l2).
Proof.
  intros [Hnm Hcm] [Hn Hc] Hdisj Hf He Hxs Hys Hna Hpf Hne Hpb Hnx Hpv.
  apply list.NoDup_cons in Hnm as [_ Hnm].
  assert (Heq : head :: (l1 ++ l2) ++ [head] = xs ++ a :: b :: ys).
  { change (head :: (l1 ++ l2) ++ [head]) with (((head :: l1) ++ l2) ++ [head]).
    rewrite Hxs, <- !app_assoc. by rewrite Hys. }
  destruct (ring_nodups _ _ Hn) as [Hn1 Hn2]. rewrite Heq in Hc, Hn1, Hn2.
  rewrite chain_app, chain_cons in Hc. destruct Hc as (H1 & _ & H2).
  assert (Hmf : forall p, p ∈ m -> p ∉ xs ++ a :: b :: ys).
  { intros p Hp Hin. rewrite <- Heq in Hin. apply (Hdisj p); set_solver. }
  assert (Hxa : a ∉ xs).
  { rewrite removelast_app_cons in Hn1. apply list.NoDup_app in Hn1 as (_ & Hn1 & _).
    intros Hin. apply (Hn1 _ Hin). cbn [removelast]. apply list_elem_of_here. }
  assert (Hby : b ∉ ys /\ b ∉ tail (xs ++ [a]) /\ a ∉ removelast (b :: ys)).
  { split_and!.
    - destruct xs as [|z xs]; simpl in Hn2; [by apply list.NoDup_cons in Hn2 as [? _]|].
      apply list.NoDup_app in Hn2 as (_ & _ & Hn2). apply list.NoDup_cons in Hn2 as [_ Hn2].
      by apply list.NoDup_cons in Hn2 as [? _].
    - destruct xs as [|z xs]; simpl in Hn2 |- *; [set_solver|].
      replace (xs ++ a :: b :: ys) with ((xs ++ [a]) ++ b :: ys) in Hn2
        by (rewrite <- app_assoc; reflexivity).
      apply list.NoDup_app in Hn2 as (_ & Hd & _).
      intros Hin. apply (Hd _ Hin). apply list_elem_of_here.
    - rewrite removelast_app_cons in Hn1. apply list.NoDup_app in Hn1 as (_ & _ & Hn1).
      change (removelast (a :: b :: ys)) with (a :: removelast (b :: ys)) in Hn1.
      by apply list.NoDup_cons in Hn1 as [? _]. }
  destruct Hby as (Hby & Hbx & Hay).
  assert (Hrl : forall p, p ∈ removelast (b :: ys) -> p ∈ b :: ys).
  { intros p Hp. rewrite (app_removelast_last p (l := b :: ys)) by done. set_solver. }
  split.
  - change (head :: l1 ++ m ++ l2) with ((head :: l1) ++ m ++ l2).
    rewrite (Permutation_app_swap_app (head :: l1)). apply list.NoDup_app.
    split_and!; [done| |done]. intros p Hp. apply Hdisj. set_solver.
  - replace (head :: (l1 ++ m ++ l2) ++ [head]) with ((xs ++ [a]) ++ m ++ b :: ys).
    2:{ rewrite <- Hxs, <- Hys. simpl. by rewrite <- !app_assoc. }
    rewrite <- app_assoc. rewrite Hf. simpl.
    apply chain_join; [|by split|].
    + eapply chain_frame; [exact H1|..].
      * intros p. rewrite removelast_snoc_list. intros Hp. apply Hnx; [set_solver|].
        intros ->. apply (Hmf e); rewrite ?He; set_solver.
      * intros p Hp. apply Hpv; [intros ->; tauto|]. intros ->.
        apply (Hmf f); [rewrite Hf; apply list_elem_of_here|].
        destruct xs; simpl in *; set_solver.
    + change (f :: m1 ++ b :: ys) with ((f :: m1) ++ b :: ys). rewrite <- Hf, He, <- app_assoc.
      simpl. apply chain_join; [|by split|].
      * rewrite <- He. assert (Hcm' : chain (nx h) (pv h) m).
        { rewrite He in Hcm |- *.
          change (list :: (m2 ++ [e]) ++ [list]) with ((list :: m2 ++ [e]) ++ [list]) in Hcm.
          replace ((list :: m2 ++ [e]) ++ [list]) with ((list :: m2) ++ e :: [list]) in Hcm
            by (simpl; rewrite <- app_assoc; reflexivity).
          apply chain_app in Hcm as [Hcm _].
          destruct m2; simpl in Hcm |- *; tauto. }
        eapply chain_frame; [exact Hcm'|..]; intros p Hp.
        -- assert (p ∈ m) by (rewrite He in Hp; rewrite removelast_snoc_list in Hp;
             rewrite He; set_solver).
           apply Hnx; [intros ->; apply (Hmf a); set_solver|].
           intros ->. rewrite He in Hnm, Hp. rewrite removelast_snoc_list in Hp.
           apply list.NoDup_app in Hnm as (_ & Hd & _). apply (Hd e Hp). set_solver.
        -- assert (p ∈ m) by (rewrite Hf in Hp; rewrite Hf; simpl in Hp; set_solver).
           apply Hpv; [intros ->; apply (Hmf b); set_solver|].
           intros ->. rewrite Hf in Hnm, Hp. simpl in Hp.
           apply list.NoDup_cons in Hnm as [? _]. done.
      * eapply chain_frame; [exact H2|..]; intros p Hp.
        -- apply Hnx; [intros ->; tauto|]. intros ->. apply (Hmf e); [rewrite He; set_solver|].
           specialize (Hrl _ Hp). set_solver.
        -- simpl in Hp. apply Hpv; [intros ->; tauto|]. intros ->.
           apply (Hmf f); [rewrite Hf; apply list_elem_of_here|]. set_solver.
Qed.

Lemma ring_ends (h : heap) list m :
  dll h list m -> m <> [] ->
  exists f m1 e m2, m = f :: m1 /\ m = m2 ++ [e] /\
    nx h list = Some f /\ pv h list = Some e /\ f <> list /\
    is_Some (pv h f) /\ is_Some (nx h e).
Proof.
  intros [Hn Hc] Hm.
  destruct m as [|f m1]; [done|]. destruct (cons_snoc m1 f) as (m2 & e & He & _).
  exists f, m1, e, m2. rewrite He in Hc |- *.
  assert (Hc1 : chain (nx h) (pv h) ([] ++ list :: f :: m1 ++ [list])).
  { change ([] ++ list :: f :: m1 ++ [list]) with (list :: (f :: m1) ++ [list]). by rewrite He. }
  assert (Hc2 : chain (nx h) (pv h) ((list :: m2) ++ e :: list :: [])).
  { by rewrite <- app_assoc in Hc. }
  rewrite <- He in *. split_and!; [done|done|..].
  - by apply chain_nx in Hc1.
  - by apply chain_pv in Hc2.
  - apply list.NoDup_cons in Hn as [Hn _]. intros ->. apply Hn, list_elem_of_here.
  - apply chain_pv in Hc1. by eexists.
  - apply chain_nx in Hc2. by eexists.
Qed.

Lemma dll_ends (h : heap) hd l :
  dll h hd l -> exists n p, nx h hd = Some n /\ pv h hd = Some p /\ (n = hd <-> l = []).
Proof.
  intros Hd. destruct (decide (l = [])) as [->|Hl].
  - destruct Hd as [_ [[? ?] _]]. exists hd, hd. split_and!; done.
  - destruct (ring_ends _ _ _ Hd Hl) as (f & m1 & e & m2 & _ & _ & ? & ? & ? & _).
    exists f, e. naive_solver.
Qed.

Lemma dll_same (h h' : heap) hd l :
  dll h hd l -> (forall p, p ∈ hd :: l -> h' !! p = h !! p) -> dll h' hd l.
Proof.
  intros [Hn Hc] Hs. split; [done|].
  eapply chain_frame; [exact Hc|..]; intros p Hp; unfold nx, pv; rewrite Hs; try done.
  - change (hd :: l ++ [hd]) with ((hd :: l) ++ [hd]) in Hp.
    by rewrite removelast_snoc_list in Hp.
  - simpl in Hp. set_solver.
Qed.

Lemma init_list_head_run (h : heap) p :
  is_Some (h !! p) ->
  exists h', INIT_LIST_HEAD p h = Ret tt h' /\ dll h' p [] /\ same_except [p] h h'.
Proof.
  intros Hp. unfold INIT_LIST_HEAD. do 2 run_store. eexists. split; [reflexivity|]. split.
  - split; [apply NoDup_singleton|]. split; [|done]. split; fields.
  - frames.
Qed.

Lemma list_splice_run (h : heap) list head m l :
  dll h list m -> dll h head l -> (forall p, p ∈ list :: m -> p ∉ head :: l) ->
  exists h', list_splice list head h = Ret tt h' /\ dll h' head (m ++ l) /\
    same_except (m ++ head :: l) h h'.
Proof.
  intros Hm Hl Hdisj. unfold list_splice, list_empty.
  destruct (dll_ends _ _ _ Hm) as (f & e & Hf & He & Hfe).
  destruct (dll_ends _ _ _ Hl) as (hn & hp & Hhn & Hhp & _).
  rewrite (bind_eq _ _ _ _ _ (load_next_run _ _ _ Hhn)).
  rewrite (bind_eq _ _ _ _ _ (load_next_run _ _ _ Hf)).
  rewrite (bind_eq _ _ _ _ _ (load_prev_run _ _ _ He)), bind_assoc.
  rewrite (bind_eq _ _ _ _ _ (load_next_run _ _ _ Hf)).
  unfold bind at 1, ret. destruct (f =? list) eqn:Efl; zbool.
  { destruct Hfe as [-> _]; [|done]. by exists h. }
  destruct (ring_ends _ _ _ Hm) as (f' & m1 & e' & m2 & Hm1 & Hm2 & Hf' & He' & Hne & [? Hpf] & [? Hnf]);
    [naive_solver|].
  assert (f' = f) as -> by congruence. assert (e' = e) as -> by congruence.
  destruct (snoc_cons l head) as (b & ys & Hys & Hb).
  assert (Hlc := Hl). destruct Hlc as [_ Hc]. rewrite Hys in Hc.
  pose proof (chain_nx _ _ [] _ _ _ Hc) as Hnx. pose proof (chain_pv _ _ [] _ _ _ Hc) as Hpv.
  assert (hn = b) as -> by congruence. pose proof (nx_in _ _ _ Hnx). pose proof (pv_in _ _ _ Hpv).
  pose proof (pv_in _ _ _ Hpf). pose proof (nx_in _ _ _ Hnf).
  assert (f ∈ m) by (rewrite Hm1; apply list_elem_of_here).
  assert (e ∈ m) by (rewrite Hm2; set_solver).
  assert (f ∉ head :: l /\ e ∉ head :: l) as [? ?] by (split; apply Hdisj; set_solver).
  do 4 run_store. eexists. split; [reflexivity|]. split.
  - eapply (splice_between h _ list head m [] l head b [] ys f e m1 m2);
      try done; intros; fields; set_solver.
  - frames.
Qed.

Lemma list_splice_tail_run (h : heap) list head m l :
  dll h list m -> dll h head l -> (forall p, p ∈ list :: m -> p ∉ head :: l) ->
  exists h', list_splice_tail list head h = Ret tt h' /\ dll h' head (l ++ m) /\
    same_except (m ++ head :: l) h h'.
Proof.
  intros Hm Hl Hdisj. unfold list_splice_tail, list_empty.
  destruct (dll_ends _ _ _ Hm) as (f & e & Hf & He & Hfe).
  destruct (dll_ends _ _ _ Hl) as (hn & hp & Hhn & Hhp & _).
  rewrite (bind_eq _ _ _ _ _ (load_prev_run _ _ _ Hhp)).
  rewrite (bind_eq _ _ _ _ _ (load_next_run _ _ _ Hf)).
  rewrite (bind_eq _ _ _ _ _ (load_prev_run _ _ _ He)), bind_assoc.
  rewrite (bind_eq _ _ _ _ _ (load_next_run _ _ _ Hf)).
  unfold bind at 1, ret. destruct (f =? list) eqn:Efl; zbool.
  { destruct Hfe as [-> _]; [|done]. rewrite app_nil_r. by exists h. }
  destruct (ring_ends _ _ _ Hm) as (f' & m1 & e' & m2 & Hm1 & Hm2 & Hf' & He' & Hne & [? Hpf] & [? Hnf]);
    [naive_solver|].
  assert (f' = f) as -> by congruence. assert (e' = e) as -> by congruence.
  destruct (cons_snoc l head) as (xs & a & Hxs & Ha).
  assert (Hlc := Hl). destruct Hlc as [_ Hc].
  change (head :: l ++ [head]) with ((head :: l) ++ [head]) in Hc.
  rewrite Hxs, <- app_assoc in Hc. simpl in Hc.
  pose proof (chain_nx _ _ _ _ _ _ Hc) as Hnx. pose proof (chain_pv _ _ _ _ _ _ Hc) as Hpv.
  assert (hp = a) as -> by congruence. pose proof (nx_in _ _ _ Hnx). pose proof (pv_in _ _ _ Hpv).
  pose proof (pv_in _ _ _ Hpf). pose proof (nx_in _ _ _ Hnf).
  assert (f ∈ m) by (rewrite Hm1; apply list_elem_of_here).
  assert (e ∈ m) by (rewrite Hm2; set_solver).
  assert (f ∉ head :: l /\ e ∉ head :: l) as [? ?] by (split; apply Hdisj; set_solver).
  do 4 run_store. eexists. split; [reflexivity|]. split.
  - replace (l ++ m) with (l ++ m ++ []) by (by rewrite app_nil_r).
    eapply (splice_between h _ list head m l [] a head xs [] f e m1 m2); rewrite ?app_nil_r;
      try done; intros; fields; set_solver.
  - frames.
Qed.

(** [list_splice_init] and [list_splice_tail_init] move all nodes of one
    list, in order, to the front and to the back of another and leave the
    first list empty. *)
Theorem list_splice_spec (h : heap) list head m l :
  dll h list m -> dll h head l -> (forall p, p ∈ list :: m -> p ∉ head :: l) ->
  (exists h', list_splice_init list head h = Ret tt h' /\
     dll h' head (m ++ l) /\ dll h' list [] /\ same_except (list :: m ++ head :: l) h h') /\
  (exists h', list_splice_tail_init list head h = Ret tt h' /\
     dll h' head (l ++ m) /\ dll h' list [] /\ same_except (list :: m ++ head :: l) h h').
Proof.
  intros Hm Hl Hdisj.
  assert (Hin : is_Some (h !! list)).
  { destruct (dll_ends _ _ _ Hm) as (n & p & Hn & _). by eapply nx_in. }
  assert (Hnm : list ∉ m) by (destruct Hm as [Hn _]; by apply list.NoDup_cons in Hn as [? _]).
  assert (Hnl : list ∉ head :: l) by (apply Hdisj; apply list_elem_of_here).
  unfold list_splice_init, list_splice_tail_init. split.
  - destruct (list_splice_run h list head m l Hm Hl Hdisj) as (h1 & Hrun & Hd1 & Hs1).
    destruct (init_list_head_run h1 list) as (h2 & Hrun2 & Hd2 & Hs2).
    { rewrite Hs1 by set_solver. done. }
    exists h2. rewrite (bind_eq _ _ _ _ _ Hrun). split_and!; [done| |done|frames].
    apply (dll_same h1); [done|]. intros p Hp. apply Hs2. set_solver.
  - destruct (list_splice_tail_run h list head m l Hm Hl Hdisj) as (h1 & Hrun & Hd1 & Hs1).
    destruct (init_list_head_run h1 list) as (h2 & Hrun2 & Hd2 & Hs2).
    { rewrite Hs1 by set_solver. done. }
    exists h2. rewrite (bind_eq _ _ _ _ _ Hrun). split_and!; [done| |done|frames].
    apply (dll_same h1); [done|]. intros p Hp. apply Hs2. set_solver.
Qed.

(** ** Witnesses: the lists [100: 1 2] and [200: 7] and the lone node 9 *)

Definition w_heap : heap := list_to_map
  [(100, Build_list_head 2 1); (1, Build_list_head 100 2); (2, Build_list_head 1 100);
   (200, Build_list_head 7 7); (7, Build_list_head 200 200); (9, Build_list_head 9 9)].

Lemma w_heap_100 : dll w_heap 100 [1; 2].
Proof.
  split; [|repeat split]. apply NoDup_ListNoDup. repeat constructor; simpl; intuition discriminate.
Defined.

Lemma w_heap_200 : dll w_heap 200 [7].
Proof.
  split; [|repeat split]. apply NoDup_ListNoDup. repeat constructor; simpl; intuition discriminate.
Defined.

Lemma list_add_spec_witness :
  (exists h', list_add 9 100 w_heap = Ret tt h' /\ dll h' 100 [9; 1; 2]) /\
  (exists h', list_add_tail 9 100 w_heap = Ret tt h' /\ dll h' 100 [1; 2; 9]).
Proof.
  destruct (list_add_spec w_heap 9 100 [1; 2] w_heap_100)
    as [(h1 & H1 & D1 & _) (h2 & H2 & D2 & _)].
  - rewrite list_elem_of_In. simpl. intuition discriminate.
  - eexists. reflexivity.
  - split; [exists h1|exists h2]; split; assumption.
Defined.

Lemma list_del_spec_witness :
  exists h', list_del_init 1 w_heap = Ret tt h' /\ dll h' 100 [2] /\ dll h' 1 [].
Proof.
  destruct (list_del_spec w_heap 1 100 [] [2] w_heap_100) as [_ (h' & H1 & H2 & H3 & _)].
  exists h'. split; [exact H1|]. split; [exact H2|exact H3].
Defined.

Lemma list_move_tail_refines_witness :
  exists h', list_move_tail 1 100 w_heap = Ret tt h' /\ dll h' 100 (move_tail 1 [1; 2]).
Proof.
  destruct (list_move_tail_refines w_heap 1 100 [1; 2] w_heap_100) as [(h' & H1 & H2 & _) _].
  - apply list_elem_of_here.
  - exists h'. split; [exact H1|exact H2].
Defined.

Lemma list_for_each_visits_witness : list_for_each 2 100 w_heap = Ret [1; 2] w_heap.
Proof. apply (list_for_each_visits w_heap 100 [1; 2] 2); [exact w_heap_100|simpl; lia]. Defined.

Lemma list_splice_spec_witness :
  exists h', list_splice_init 200 100 w_heap = Ret tt h' /\ dll h' 100 [7; 1; 2] /\ dll h' 200 [].
Proof.
  destruct (list_splice_spec w_heap 200 100 [7] [1; 2] w_heap_200 w_heap_100)
    as [(h' & H1 & H2 & H3 & _) _].
  - intros p. rewrite !list_elem_of_In. simpl. intuition (subst; discriminate).
  - exists h'. split; [exact H1|]. split; [exact H2|exact H3].
Defined.
