(* ===== verification/Sched.v ===== *)
(** The scheduling policies of the user-level threading library,
    Threading-Scheduler/threads_sched.c.

    [struct thread] and [struct release_queue_entry] are declared in
    user/threads.h, which the repository does not hold: the records below have
    the fields the schedulers read and write, all of them C [int]s.  A pointer
    to a thread is a [tptr]; the threads live in a store, and the two queues
    hold pointers (the circular lists of list.h, whose traversal order is
    proved in ListH.v).  Every policy is one function of the scheduler's
    arguments; the policies that write to threads or queues also return the
    new state.  [int] arithmetic is written with its 32-bit wrap-around. *)
From S2P Require Import Prelude.
From S2P Require Import ListH.

Abbreviation tptr := Z (only parsing).

Record cbs_params := {
  budget : Z;
  remaining_budget : Z;
  is_hard_rt : Z;
  is_throttled : Z;
  throttled_arrived_time : Z
}.

Record thread := {
  ID : Z;
  arrival_time : Z;
  processing_time : Z;
  remaining_time : Z;
  priority : Z;
  deadline : Z;
  period : Z;
  current_deadline : Z;
  cbs : cbs_params
}.

Record release_queue_entry := { thrd : tptr; release_time : Z }.

Record threads_sched_args := {
  current_time : Z;
  run_queue : list tptr;
  release_queue : list release_queue_entry
}.

(** [scheduled_thread_list_member = None] is the head of the run queue
    itself ([args.run_queue]): the dispatcher idles. *)
Record threads_sched_result := {
  scheduled_thread_list_member : option tptr;
  allocated_time : Z
}.

Abbreviation store := (gmap tptr thread) (only parsing).

Definition null_cbs : cbs_params := Build_cbs_params 0 0 0 0 0.
#[global] Instance thread_inhabited : Inhabited thread :=
  populate (Build_thread 0 0 0 0 0 0 0 0 null_cbs).

(** Field updates. *)
Definition set_current_deadline (d : Z) (t : thread) : thread :=
  Build_thread (ID t) (arrival_time t) (processing_time t) (remaining_time t)
    (priority t) (deadline t) (period t) d (cbs t).
Definition set_cbs (c : cbs_params) (t : thread) : thread :=
  Build_thread (ID t) (arrival_time t) (processing_time t) (remaining_time t)
    (priority t) (deadline t) (period t) (current_deadline t) c.
Definition set_remaining_budget (b : Z) (t : thread) : thread :=
  set_cbs (Build_cbs_params (budget (cbs t)) b (is_hard_rt (cbs t))
    (is_throttled (cbs t)) (throttled_arrived_time (cbs t))) t.
Definition set_is_throttled (b : Z) (t : thread) : thread :=
  set_cbs (Build_cbs_params (budget (cbs t)) (remaining_budget (cbs t))
    (is_hard_rt (cbs t)) b (throttled_arrived_time (cbs t))) t.
Definition set_throttled_arrived_time (b : Z) (t : thread) : thread :=
  set_cbs (Build_cbs_params (budget (cbs t)) (remaining_budget (cbs t))
    (is_hard_rt (cbs t)) (is_throttled (cbs t)) b) t.

(** C truth value of an [int] field. *)
Definition truth (x : Z) : bool := negb (x =? 0).

(** ** The default policy and the non-real-time policies *)

Definition schedule_default (st : store) (args : threads_sched_args) : threads_sched_result :=
  let thread_with_smallest_id :=
    pick (fun th best => ID (st !!! th) <? ID (st !!! best)) None (run_queue args) in
  match thread_with_smallest_id with
  | Some th => {| scheduled_thread_list_member := Some th;
                  allocated_time := remaining_time (st !!! th) |}
  | None => {| scheduled_thread_list_member := None; allocated_time := 1 |}
  end.

(** The loop of [schedule_hrrn] with its three local variables
    [selected_thread], [highest_ratio_numerator], [highest_ratio_denominator]. *)
Fixpoint hrrn_loop (st : store) (now : Z) (sel : option tptr) (hn hd : Z) (q : list tptr)
  : option tptr :=
  match q with
  | [] => sel
  | th :: q' =>
      let waiting_time := s32 (now - arrival_time (st !!! th)) in
      let ratio_numerator := s32 (waiting_time + processing_time (st !!! th)) in
      let ratio_denominator := processing_time (st !!! th) in
      let lhs := s32 (ratio_numerator * hd) in
      let rhs := s32 (hn * ratio_denominator) in
      let take_it :=
        match sel with
        | None => true
        | Some s => (rhs <? lhs) || ((lhs =? rhs) && (ID (st !!! th) <? ID (st !!! s)))
        end in
      if take_it
      then hrrn_loop st now (Some th) ratio_numerator ratio_denominator q'
      else hrrn_loop st now sel hn hd q'
  end.

Definition schedule_hrrn (st : store) (args : threads_sched_args) : threads_sched_result :=
  let selected_thread := hrrn_loop st (current_time args) None 0 1 (run_queue args) in
  match selected_thread with
  | Some th => {| scheduled_thread_list_member := Some th;
                  allocated_time := remaining_time (st !!! th) |}
  | None => {| scheduled_thread_list_member := None; allocated_time := 1 |}
  end.

(** Returns the decision and the new run queue; [None] stands for the
    dereference of a NULL [chosen], which no queue of [int] priorities
    reaches. *)
Definition schedule_priority_rr (st : store) (args : threads_sched_args)
  : option (threads_sched_result * list tptr) :=
  match run_queue args with
  | [] => Some ({| scheduled_thread_list_member := None; allocated_time := 1 |}, [])
  | _ =>
      let best_pri :=
        fold_left (fun best th => if priority (st !!! th) <? best
                                  then priority (st !!! th) else best)
          (run_queue args) INT_MAX in
      let in_group th := priority (st !!! th) =? best_pri in
      match List.find in_group (run_queue args) with
      | None => None
      | Some chosen =>
          let group_cnt := Z.of_nat (length (List.filter in_group (run_queue args))) in
          let queue :=
            if 1 <? group_cnt then move_tail chosen (run_queue args) else run_queue args in
          let quantum := 2 in
          let r := remaining_time (st !!! chosen) in
          let allocated :=
            if group_cnt =? 1 then r else if r <? quantum then r else quantum in
          Some ({| scheduled_thread_list_member := Some chosen;
                   allocated_time := allocated |}, queue)
      end
  end.

(** ** Real-time policies *)

(** The thread with the smallest [ID] among those whose deadline has passed. *)
Definition __check_deadline_miss (st : store) (q : list tptr) (now : Z) : option tptr :=
  fold_left
    (fun missing th =>
       if current_deadline (st !!! th) <=? now then
         match missing with
         | None => Some th
         | Some m => if ID (st !!! th) <? ID (st !!! m) then Some th else Some m
         end
       else missing) q None.

Definition __dm_thread_cmp (a b : thread) : Z :=
  if deadline a <? deadline b then 1
  else if deadline b <? deadline a then -1
  else if ID a <? ID b then 1 else -1.

(** [INT_MAX] when no entry has an earlier release time. *)
Definition earliest_release (l : list release_queue_entry) : Z :=
  fold_left (fun e x => if release_time x <? e then release_time x else e) l INT_MAX.

(** The earliest entry with its release time, [None] for NULL. *)
Definition next_arrival (l : list release_queue_entry) : option release_queue_entry * Z :=
  fold_left
    (fun '(e, t) x => if release_time x <? t then (Some x, release_time x) else (e, t))
    l (None, INT_MAX).

(** The branch both real-time policies take when the run queue is empty. *)
Definition idle_until_release (args : threads_sched_args) : threads_sched_result :=
  let earliest_arrival := earliest_release (release_queue args) in
  {| scheduled_thread_list_member := None;
     allocated_time :=
       if negb (earliest_arrival =? INT_MAX) then
         let sleep_time := s32 (earliest_arrival - current_time args) in
         if 0 <? sleep_time then sleep_time else 1
       else 1 |}.

Definition schedule_dm (st : store) (args : threads_sched_args) : threads_sched_result :=
  let now := current_time args in
  match __check_deadline_miss st (run_queue args) now with
  | Some th => {| scheduled_thread_list_member := Some th; allocated_time := 0 |}
  | None =>
    (* [best_thread] is NULL exactly when the run queue is empty *)
    match pick (fun th best => 0 <? __dm_thread_cmp (st !!! th) (st !!! best)) None
            (run_queue args) with
    | None => idle_until_release args
    | Some best =>
      let bt := st !!! best in
      let '(next_arrival_entry, next_arrival_time) := next_arrival (release_queue args) in
      let give t := {| scheduled_thread_list_member := Some best; allocated_time := t |} in
      match next_arrival_entry with
      | Some e =>
          if next_arrival_time <=? now then give 1
          else if next_arrival_time <? s32 (now + remaining_time bt) then
            let next_thread := st !!! thrd e in
            if (deadline next_thread <? deadline bt) ||
               ((deadline next_thread =? deadline bt) && (ID next_thread <? ID bt))
            then
              let time_until_preemption := s32 (next_arrival_time - now) in
              give (if 0 <? time_until_preemption then time_until_preemption else 1)
            else give (remaining_time bt)
          else give (remaining_time bt)
      | None => give (remaining_time bt)
      end
    end
  end.

Definition __edf_thread_cmp (a b : thread) : Z :=
  if current_deadline a <? current_deadline b then 1
  else if current_deadline b <? current_deadline a then -1
  else if ID a <? ID b then 1 else -1.

Definition is_soft (t : thread) : bool := negb (truth (is_hard_rt (cbs t))).
Definition throttled (t : thread) : bool := is_soft t && truth (is_throttled (cbs t)).

(** Step 1: a throttled soft thread whose deadline has come gets a new budget
    and its next deadline. *)
Definition edf_replenish (now : Z) (st : store) (th : tptr) : store :=
  let t := st !!! th in
  if throttled t && (current_deadline t <=? now) then
    <[th := set_is_throttled 0
              (set_current_deadline (s32 (current_deadline t + period t))
                 (set_remaining_budget (budget (cbs t)) t))]> st
  else st.

(** Before step 4: a soft thread without budget is throttled. *)
Definition edf_throttle (now : Z) (st : store) (th : tptr) : store :=
  let t := st !!! th in
  if is_soft t && negb (truth (is_throttled (cbs t))) && (remaining_budget (cbs t) <=? 0) then
    <[th := set_throttled_arrived_time now (set_is_throttled 1 t)]> st
  else st.

(** The thread with the earliest deadline among those not throttled. *)
Definition edf_best (st : store) (q : list tptr) : option tptr :=
  fold_left
    (fun best th =>
       if throttled (st !!! th) then best
       else match best with
            | None => Some th
            | Some b => if 0 <? __edf_thread_cmp (st !!! th) (st !!! b) then Some th else Some b
            end) q None.

(** A soft thread with budget left whose budget could exceed its bandwidth
    before its deadline. *)
Definition edf_violates (now : Z) (t : thread) : bool :=
  is_soft t && (0 <? remaining_budget (cbs t)) &&
  (let time_until_deadline := s32 (current_deadline t - now) in
   (time_until_deadline <=? 0) ||
   (s32 (budget (cbs t) * time_until_deadline) <? s32 (remaining_budget (cbs t) * period t))).

(** The deadline extension of step 5. *)
Definition edf_extend (now : Z) (t : thread) : thread :=
  set_remaining_budget (budget (cbs t)) (set_current_deadline (s32 (now + period t)) t).

(** The [do ... while (changes_made)] loop; [None] when [fuel] iterations do
    not suffice.  The result is [best_thread] (NULL when every thread is
    throttled) and the store. *)
Fixpoint edf_loop (fuel : nat) (now : Z) (q : list tptr) (st : store)
  : option (option tptr * store) :=
  match fuel with
  | O => None
  | S n =>
      match edf_best st q with
      | None => Some (None, st)
      | Some b =>
          if edf_violates now (st !!! b)
          then edf_loop n now q (<[b := edf_extend now (st !!! b)]> st)
          else Some (Some b, st)
      end
  end.

(** Step 8.1 for one entry: the arriving thread's deadline is set for the
    comparison and then restored. *)
Definition edf_arrival (now : Z) (best : tptr) (acc : Z * store) (e : release_queue_entry)
  : Z * store :=
  let '(min_preemption_time, st) := acc in
  if (now <=? release_time e) && (release_time e <? s32 (now + min_preemption_time)) then
    let a := st !!! thrd e in
    let original_deadline := current_deadline a in
    let st1 := <[thrd e := set_current_deadline (s32 (release_time e + period a)) a]> st in
    let m :=
      if 0 <? __edf_thread_cmp (st1 !!! thrd e) (st1 !!! best) then
        let time_until_arrival := s32 (release_time e - now) in
        if time_until_arrival <? min_preemption_time
        then (if 0 <? time_until_arrival then time_until_arrival else 1)
        else min_preemption_time
      else min_preemption_time in
    (m, <[thrd e := set_current_deadline original_deadline (st1 !!! thrd e)]> st1)
  else acc.

(** Step 8.2 for one thread of the run queue: its replenishment is simulated
    and then undone. *)
Definition edf_refill (now : Z) (best : tptr) (acc : Z * store) (th : tptr) : Z * store :=
  let '(min_preemption_time, st) := acc in
  let t := st !!! th in
  if throttled t then
    if (now <=? current_deadline t) && (current_deadline t <? s32 (now + min_preemption_time))
    then
      let original_throttled := is_throttled (cbs t) in
      let original_budget := remaining_budget (cbs t) in
      let original_deadline := current_deadline t in
      let st1 := <[th := set_current_deadline (s32 (current_deadline t + period t))
                           (set_remaining_budget (budget (cbs t)) (set_is_throttled 0 t))]> st in
      let m :=
        if (0 <? __edf_thread_cmp (st1 !!! th) (st1 !!! best)) && negb (th =? best) then
          let time_until_replenish := s32 (original_deadline - now) in
          if time_until_replenish <? min_preemption_time
          then (if 0 <? time_until_replenish then time_until_replenish else 1)
          else min_preemption_time
        else min_preemption_time in
      (m, <[th := set_current_deadline original_deadline
                    (set_remaining_budget original_budget
                       (set_is_throttled original_throttled (st1 !!! th)))]> st1)
    else acc
  else acc.

(** Steps 6 to 8: the time given to the chosen thread. *)
Definition edf_allocate (now : Z) (best : tptr) (args : threads_sched_args) (st : store)
  : Z * store :=
  let bt := st !!! best in
  let allocated :=
    if is_soft bt then
      if remaining_time bt <? remaining_budget (cbs bt)
      then remaining_time bt else remaining_budget (cbs bt)
    else remaining_time bt in
  let acc := fold_left (edf_arrival now best) (release_queue args) (allocated, st) in
  let '(m, st') := fold_left (edf_refill now best) (run_queue args) acc in
  (if 0 <? m then m else 1, st').

(** The whole scheduler: the decision and the store it leaves. *)
Definition schedule_edf_cbs (fuel : nat) (st : store) (args : threads_sched_args)
  : option (threads_sched_result * store) :=
  let now := current_time args in
  let q := run_queue args in
  let st1 := fold_left (edf_replenish now) q st in
  match __check_deadline_miss st1 q now with
  | Some th => Some ({| scheduled_thread_list_member := Some th; allocated_time := 0 |}, st1)
  | None =>
    match q with
    | [] => Some (idle_until_release args, st1)
    | _ =>
      let st2 := fold_left (edf_throttle now) q st1 in
      match edf_loop fuel now q st2 with
      | None => None
      | Some (None, st3) =>
          Some ({| scheduled_thread_list_member := None; allocated_time := 1 |}, st3)
      | Some (Some best, st3) =>
          let '(t, st4) := edf_allocate now best args st3 in
          Some ({| scheduled_thread_list_member := Some best; allocated_time := t |}, st4)
      end
    end
  end.

(** ** Shared lemmas *)

Lemma lookup_total_insert_store (st : store) p q t :
  <[p := t]> st !!! q = if decide (p = q) then t else st !!! q.
Proof. rewrite !lookup_total_alt, lookup_insert. by case_decide. Qed.

(** Lexicographic preferences "smaller [key], then smaller [ID]". *)
Definition by_key (key : thread -> Z) (a b : thread) : bool :=
  (key a <? key b) || ((key a =? key b) && (ID a <? ID b)).

Lemma by_key_spec key a b :
  by_key key a b = true <-> key a < key b \/ (key a = key b /\ ID a < ID b).
Proof. unfold by_key. rewrite orb_true_iff, andb_true_iff, Z.eqb_eq, !Z.ltb_lt. lia. Qed.

Lemma by_key_false key a b :
  by_key key a b = false <-> key b < key a \/ (key a = key b /\ ID b <= ID a).
Proof.
  rewrite <- not_true_iff_false, by_key_spec. lia.
Qed.

Lemma __dm_thread_cmp_by_key a b : (0 <? __dm_thread_cmp a b) = by_key deadline a b.
Proof. unfold __dm_thread_cmp, by_key. repeat case_match; zbool; lia. Qed.

Lemma __edf_thread_cmp_by_key a b : (0 <? __edf_thread_cmp a b) = by_key current_deadline a b.
Proof. unfold __edf_thread_cmp, by_key. repeat case_match; zbool; lia. Qed.

Lemma pick_by_key (st : store) key q m :
  pick (fun x y => by_key key (st !!! x) (st !!! y)) None q = Some m ->
  m ∈ q /\ forall th, th ∈ q -> by_key key (st !!! th) (st !!! m) = false.
Proof.
  intros Hp.
  apply (pick_none_best (fun x y : Z => by_key key (st !!! x) (st !!! y)) (fun _ => True)) in Hp;
    [done|..|by apply Forall_true]; intros; cbv beta in *; rewrite ?by_key_spec, ?by_key_false in *; lia.
Qed.

Lemma pick_by_id (st : store) q m :
  pick (fun x y => ID (st !!! x) <? ID (st !!! y)) None q = Some m ->
  m ∈ q /\ forall th, th ∈ q -> ID (st !!! m) <= ID (st !!! th).
Proof.
  intros Hp.
  apply (pick_none_best (fun x y : Z => ID (st !!! x) <? ID (st !!! y)) (fun _ => True))
    in Hp as [Hm Hbest]; [|lia..|by apply Forall_true].
  split; [done|]. intros th Hth%Hbest. zbool. lia.
Qed.

(** [fold_left] over a filtered pick: the loops that skip some elements. *)
Lemma fold_pick_filter (skip : tptr -> bool) (better : tptr -> tptr -> bool) (q : list tptr) best :
  fold_left (fun best th => if skip th then best
                            else match best with
                                 | None => Some th
                                 | Some b => if better th b then Some th else Some b
                                 end) q best
  = pick better best (filter (fun th : Z => skip th = false) q).
Proof.
  revert best. induction q as [|x q IH]; intros best; [done|].
  cbn [fold_left]. rewrite IH, filter_cons. by destruct (skip x).
Qed.

Lemma fold_left_ext {A B} (f g : A -> B -> A) l a :
  (forall a b, f a b = g a b) -> fold_left f l a = fold_left g l a.
Proof. intros H. revert a. induction l as [|b l IH]; intros a; simpl; [done|]. by rewrite H, IH. Qed.

Lemma __check_deadline_miss_pick (st : store) (q : list tptr) now :
  __check_deadline_miss st q now
  = pick (fun x y => ID (st !!! x) <? ID (st !!! y)) None
         (filter (fun th : Z => negb (current_deadline (st !!! th) <=? now) = false) q).
Proof.
  rewrite <- fold_pick_filter. apply fold_left_ext. intros a b.
  by destruct (current_deadline (st !!! b) <=? now).
Qed.

Lemma edf_best_pick (st : store) (q : list tptr) :
  edf_best st q
  = pick (fun x y => by_key current_deadline (st !!! x) (st !!! y)) None
         (filter (fun th : Z => throttled (st !!! th) = false) q).
Proof.
  rewrite <- fold_pick_filter. apply fold_left_ext. intros a b.
  destruct (throttled _), a; try done. by rewrite __edf_thread_cmp_by_key.
Qed.

(** The thread that missed its deadline: a member, late, of least [ID]. *)
Lemma __check_deadline_miss_some (st : store) (q : list tptr) now m :
  __check_deadline_miss st q now = Some m ->
  m ∈ q /\ current_deadline (st !!! m) <= now /\
  forall th, th ∈ q -> current_deadline (st !!! th) <= now -> ID (st !!! m) <= ID (st !!! th).
Proof.
  rewrite __check_deadline_miss_pick. intros Hp.
  apply pick_by_id in Hp as [Hin Hmin].
  apply list_elem_of_filter in Hin as [Hlate Hin]. zbool.
  split_and!; [done..|]. intros th Hth Hl. apply Hmin, list_elem_of_filter.
  split; [|done]. apply negb_false_iff. lia.
Qed.

Lemma __check_deadline_miss_none (st : store) (q : list tptr) now :
  __check_deadline_miss st q now = None <->
  forall th, th ∈ q -> now < current_deadline (st !!! th).
Proof.
  rewrite __check_deadline_miss_pick, pick_none. split.
  - intros [_ H] th Hth. apply Z.nle_gt. intros Hle.
    apply (filter_nil_not_elem_of _ _ th H); [|done]. apply negb_false_iff. lia.
  - intros H. split; [done|]. destruct (filter _ q) as [|th l] eqn:E; [done|].
    assert (th ∈ th :: l) as Hin by apply list_elem_of_here. rewrite <- E in Hin.
    apply list_elem_of_filter in Hin as [Hf Hth]. specialize (H th Hth). zbool. lia.
Qed.

(** *** The default policy *)

(** [schedule_default] idles for one tick exactly on an empty run queue;
    otherwise it schedules a thread of the run queue whose [ID] is least, for
    its whole remaining time. *)
Theorem schedule_default_correct (st : store) (args : threads_sched_args) :
  match scheduled_thread_list_member (schedule_default st args) with
  | None => run_queue args = [] /\ allocated_time (schedule_default st args) = 1
  | Some m =>
      m ∈ run_queue args /\
      (forall th, th ∈ run_queue args -> ID (st !!! m) <= ID (st !!! th)) /\
      allocated_time (schedule_default st args) = remaining_time (st !!! m)
  end.
Proof.
  unfold schedule_default. destruct (pick _ _ _) as [m|] eqn:Hp; simpl.
  - apply pick_by_id in Hp. naive_solver.
  - by apply pick_none in Hp as [_ ->].
Qed.

(** *** HRRN *)

(** Response ratio as an exact fraction. *)
Definition ratio_num (now : Z) (t : thread) : Z := now - arrival_time t + processing_time t.

(** [a] is preferred to [b]: greater response ratio, then smaller [ID]. *)
Definition hrrn_better (now : Z) (a b : thread) : bool :=
  (ratio_num now b * processing_time a <? ratio_num now a * processing_time b) ||
  ((ratio_num now a * processing_time b =? ratio_num now b * processing_time a) &&
   (ID a <? ID b)).

(** Values for which no product of the loop overflows an [int]
    (46340 is the integer square root of [INT_MAX]). *)
Definition hrrn_fits (now : Z) (t : thread) : Prop :=
  is_int (now - arrival_time t) /\ -46340 <= ratio_num now t <= 46340 /\
  0 < processing_time t <= 46340.

Lemma hrrn_better_asym now a b : hrrn_better now a b = true -> hrrn_better now b a = false.
Proof.
  unfold hrrn_better. rewrite orb_true_iff, andb_true_iff, orb_false_iff, andb_false_iff.
  rewrite !Z.ltb_lt, !Z.ltb_ge, Z.eqb_eq, Z.eqb_neq. lia.
Qed.

Lemma frac_le_trans a b c x y z :
  0 < x -> 0 < y -> 0 < z -> a * y <= b * x -> b * z <= c * y -> a * z <= c * x.
Proof.
  intros. apply Z.mul_le_mono_pos_r with (p := y); [done|]. nia.
Qed.

Lemma frac_eq_trans a b c x y z :
  0 < x -> 0 < y -> 0 < z -> a * y <= b * x -> b * z <= c * y -> a * z = c * x ->
  a * y = b * x /\ b * z = c * y.
Proof.
  intros Hx Hy Hz H1 H2 H3. split; apply Z.le_antisymm; try done.
  - apply Z.mul_le_mono_pos_r with (p := z); [done|].
    assert (b * z * x <= c * y * x) by (by apply Z.mul_le_mono_nonneg_r; lia). nia.
  - apply Z.mul_le_mono_pos_r with (p := x); [done|].
    assert (a * y * z <= b * x * z) by (by apply Z.mul_le_mono_nonneg_r; lia). nia.
Qed.

Lemma hrrn_better_false now a b :
  hrrn_better now a b = false <->
  ratio_num now a * processing_time b <= ratio_num now b * processing_time a /\
  (ratio_num now a * processing_time b = ratio_num now b * processing_time a -> ID b <= ID a).
Proof.
  unfold hrrn_better. rewrite orb_false_iff, andb_false_iff, !Z.ltb_ge, Z.eqb_neq. lia.
Qed.

Lemma hrrn_better_trans now x y z :
  0 < processing_time x -> 0 < processing_time y -> 0 < processing_time z ->
  hrrn_better now y x = false -> hrrn_better now z y = false -> hrrn_better now z x = false.
Proof.
  rewrite !hrrn_better_false. intros Hx Hy Hz [H1 H1'] [H2 H2'].
  pose proof (frac_le_trans _ _ _ _ _ _ Hz Hy Hx H2 H1). split; [done|].
  intros He. destruct (frac_eq_trans _ _ _ _ _ _ Hz Hy Hx H2 H1 He). lia.
Qed.

(** The loop with its cached ratio, when nothing overflows. *)
Lemma hrrn_loop_pick (st : store) now (q : list tptr) sel hn hd :
  Forall (fun th => hrrn_fits now (st !!! th)) q ->
  (forall s, sel = Some s -> hrrn_fits now (st !!! s) /\
     hn = ratio_num now (st !!! s) /\ hd = processing_time (st !!! s)) ->
  hrrn_loop st now sel hn hd q
  = pick (fun x y => hrrn_better now (st !!! x) (st !!! y)) sel q.
Proof.
  revert sel hn hd. induction q as [|th q IH]; intros sel hn hd Hq Hsel; [done|].
  inversion_clear Hq as [|? ? Hth Hq'].
  assert (Hth' := Hth). destruct Hth' as (Hw & Hr & Hp).
  cbn [hrrn_loop pick]. rewrite (s32_small (now - _)) by done.
  change (now - arrival_time (st !!! th) + processing_time (st !!! th))
    with (ratio_num now (st !!! th)).
  rewrite (s32_small (ratio_num _ _)) by (unfold is_int, INT_MIN, INT_MAX; lia).
  destruct sel as [s|]; [|by apply IH; [|intros ? [= <-]]].
  destruct (Hsel s eq_refl) as ((_ & Hr' & Hp') & -> & ->).
  rewrite !s32_small by (unfold is_int, INT_MIN, INT_MAX; nia).
  fold (hrrn_better now (st !!! th) (st !!! s)).
  change (_ || _) with (hrrn_better now (st !!! th) (st !!! s)).
  destruct (hrrn_better now (st !!! th) (st !!! s)); apply IH; try done.
  intros ? [= <-]. done.
Qed.

(** when no intermediate product overflows, [schedule_hrrn] schedules a
    thread of the run queue whose response ratio
    [(waiting + burst) / burst] is maximal, the one with the least [ID] among
    equal ratios, for its remaining time; it idles exactly on an empty queue. *)
Theorem schedule_hrrn_correct (st : store) (args : threads_sched_args) :
  Forall (fun th => hrrn_fits (current_time args) (st !!! th)) (run_queue args) ->
  match scheduled_thread_list_member (schedule_hrrn st args) with
  | None => run_queue args = [] /\ allocated_time (schedule_hrrn st args) = 1
  | Some m =>
      m ∈ run_queue args /\
      allocated_time (schedule_hrrn st args) = remaining_time (st !!! m) /\
      forall th, th ∈ run_queue args ->
        let num t := current_time args - arrival_time t + processing_time t in
        num (st !!! th) * processing_time (st !!! m)
          <= num (st !!! m) * processing_time (st !!! th) /\
        (num (st !!! th) * processing_time (st !!! m)
           = num (st !!! m) * processing_time (st !!! th) ->
         ID (st !!! m) <= ID (st !!! th))
  end.
Proof.
  intros Hfits. unfold schedule_hrrn. rewrite hrrn_loop_pick by done.
  destruct (pick _ _ _) as [m|] eqn:Hp; simpl; [|by apply pick_none in Hp as [_ ->]].
  apply (pick_none_best _ (fun th => hrrn_fits (current_time args) (st !!! th))) in Hp
    as [Hm Hbest]; [|..|done].
  - split_and!; [done..|]. intros th Hth%Hbest. by apply hrrn_better_false.
  - intros x _. apply hrrn_better_false. lia.
  - intros x y _ _. apply hrrn_better_asym.
  - intros x y z (_ & _ & ?) (_ & _ & ?) (_ & _ & ?). apply hrrn_better_trans; lia.
Qed.

(** *** Priority round-robin *)

Definition best_pri (st : store) (q : list tptr) : Z :=
  fold_left (fun best th => if priority (st !!! th) <? best
                            then priority (st !!! th) else best) q INT_MAX.

Definition group (st : store) (q : list tptr) : list tptr :=
  List.filter (fun th => priority (st !!! th) =? best_pri st q) q.

Lemma fold_min_spec {A} (f : A -> Z) (l : list A) b :
  let m := fold_left (fun b x => if f x <? b then f x else b) l b in
  m <= b /\ (forall x, x ∈ l -> m <= f x) /\ (m = b \/ exists x, x ∈ l /\ m = f x).
Proof.
  revert b. induction l as [|x l IH]; intros b; simpl.
  { split_and!; [lia|set_solver|auto]. }
  specialize (IH (if f x <? b then f x else b)) as (H1 & H2 & H3).
  destruct (f x <? b) eqn:E; zbool; split_and!; try lia.
  - intros y [->|Hy]%elem_of_cons; auto.
  - destruct H3 as [H3|(y & Hy & H3)]; right; [|exists y; set_solver].
    exists x. split; [apply list_elem_of_here|done].
  - intros y [->|Hy]%elem_of_cons; [lia|auto].
  - destruct H3 as [H3|(y & Hy & H3)]; [by left|right]. exists y. set_solver.
Qed.

Lemma best_pri_min st q th : th ∈ q -> best_pri st q <= priority (st !!! th).
Proof. apply (fold_min_spec (fun th => priority (st !!! th)) q INT_MAX). Qed.

Lemma best_pri_attained (st : store) (q : list tptr) :
  q <> [] -> Forall (fun th => priority (st !!! th) <= INT_MAX) q ->
  exists th, th ∈ q /\ priority (st !!! th) = best_pri st q.
Proof.
  intros Hq Hmax.
  destruct (fold_min_spec (fun th => priority (st !!! th)) q INT_MAX) as (H1 & H2 & H3).
  fold (best_pri st q) in *. destruct H3 as [H3|(x & ? & ?)]; [|by eauto].
  destruct q as [|x q]; [done|]. exists x. split; [apply list_elem_of_here|].
  inversion_clear Hmax. specialize (H2 x (list_elem_of_here _ _)). lia.
Qed.

(** The minimum does not depend on the order of the queue. *)
Lemma best_pri_perm st q q' : q ≡ₚ q' -> best_pri st q = best_pri st q'.
Proof.
  assert (forall q q', q ≡ₚ q' -> best_pri st q <= best_pri st q') as Hle.
  { intros q1 q2 Hp.
    destruct (fold_min_spec (fun th => priority (st !!! th)) q1 INT_MAX) as (Ha & Hb & _).
    destruct (fold_min_spec (fun th => priority (st !!! th)) q2 INT_MAX) as (_ & _ & Hc).
    fold (best_pri st q1) (best_pri st q2) in *.
    destruct Hc as [->|(x & Hx & ->)]; [done|]. apply Hb. by rewrite Hp. }
  intros Hp. apply Z.le_antisymm; by apply Hle.
Qed.

Lemma find_split {A} (f : A -> bool) l c :
  List.find f l = Some c ->
  exists l1 l2, l = l1 ++ c :: l2 /\ f c = true /\ List.filter f l1 = [] /\
    (forall x, x ∈ l1 -> f x = false).
Proof.
  induction l as [|x l IH]; simpl; [done|]. destruct (f x) eqn:E.
  - intros [= <-]. exists [], l. split_and!; [done..|set_solver].
  - intros (l1 & l2 & -> & ? & Hf & Hn)%IH. exists (x :: l1), l2. simpl. rewrite E.
    split_and!; [done..|]. intros y [->|Hy]%elem_of_cons; auto.
Qed.

(** One call on a queue of [int] priorities: the first thread [c] of the best
    priority is chosen; what is before it has a worse priority. *)
Lemma schedule_priority_rr_first (st : store) now (q : list tptr) rel :
  q <> [] -> Forall (fun th => priority (st !!! th) <= INT_MAX) q ->
  exists c l1 l2, q = l1 ++ c :: l2 /\ priority (st !!! c) = best_pri st q /\
    (forall x, x ∈ l1 -> priority (st !!! x) <> best_pri st q) /\
    group st q = c :: List.filter (fun th => priority (st !!! th) =? best_pri st q) l2 /\
    schedule_priority_rr st (Build_threads_sched_args now q rel) = Some
      (if decide (group st q = [c])
       then (Build_threads_sched_result (Some c) (remaining_time (st !!! c)), q)
       else (Build_threads_sched_result (Some c) (Z.min 2 (remaining_time (st !!! c))), l1 ++ l2 ++ [c])).
Proof.
  intros Hq Hmax. destruct (best_pri_attained st q Hq Hmax) as (x & Hx & Hpx).
  unfold schedule_priority_rr. cbn [run_queue]. fold (best_pri st q).
  destruct (List.find _ q) as [c|] eqn:Hfind.
  2:{ apply list_elem_of_In in Hx. eapply List.find_none in Hfind; [|done]. zbool. lia. }
  destruct (find_split _ _ _ Hfind) as (l1 & l2 & Hql & Hc & Hl1 & Hn).
  fold (group st q). exists c, l1, l2. split; [done|]. split; [zbool; lia|].
  split. { intros y Hy. apply Hn in Hy. by apply Z.eqb_neq. }
  assert (Hg : group st q = c :: List.filter (fun th => priority (st !!! th) =? best_pri st q) l2).
  { unfold group. transitivity
      (List.filter (fun th => priority (st !!! th) =? best_pri st q) (l1 ++ c :: l2));
      [by rewrite <- Hql|]. rewrite List.filter_app, Hl1. simpl. by rewrite Hc. }
  split; [exact Hg|]. assert (Hcl1 : c ∉ l1) by (intros Hin%Hn; congruence).
  assert (Hmt : move_tail c q = l1 ++ l2 ++ [c]) by (rewrite Hql; by apply move_tail_app).
  rewrite Hg. set (g := List.filter _ l2) in *. cbn [length].
  destruct q as [|q0 q1]; [done|]. clear Hq. set (q := q0 :: q1) in *.
  destruct g as [|g0 g1] eqn:Eg; [by rewrite decide_True|]. rewrite decide_False by done.
  replace (1 <? _) with true by (symmetry; apply Z.ltb_lt; simpl; lia).
  replace (Z.of_nat _ =? 1) with false by (symmetry; apply Z.eqb_neq; simpl; lia).
  rewrite Hmt. do 3 f_equal. destruct (_ <? 2) eqn:E; zbool; lia.
Qed.

(** The group after one call, when it has other threads. *)
Lemma schedule_priority_rr_step (st : store) now (q : list tptr) rel :
  q <> [] -> Forall (fun th => priority (st !!! th) <= INT_MAX) q ->
  exists c r q', schedule_priority_rr st (Build_threads_sched_args now q rel) = Some (r, q') /\
    scheduled_thread_list_member r = Some c /\ hd_error (group st q) = Some c /\
    q' ≡ₚ q /\ best_pri st q' = best_pri st q /\
    (group st q = [c] \/ group st q' = tail (group st q) ++ [c]).
Proof.
  intros Hq Hmax.
  destruct (schedule_priority_rr_first st now q rel Hq Hmax) as (c & l1 & l2 & Hql & Hc & Hl1 & Hg & E).
  rewrite E. case_decide as Hd; do 3 eexists; (split; [done|]); cbn [scheduled_thread_list_member];
    (split; [done|]); rewrite Hg; cbn [hd_error tail]; (split; [done|]).
  - split; [done|]. split; [done|]. left. by rewrite <- Hg.
  - assert (Hperm : l1 ++ l2 ++ [c] ≡ₚ q) by (rewrite Hql; solve_Permutation). split; [done|].
    pose proof (best_pri_perm st _ _ Hperm) as Hbp. split; [done|]. right. unfold group. rewrite Hbp.
    rewrite !List.filter_app. simpl. rewrite (proj2 (Z.eqb_eq _ _) Hc).
    assert (Hn : List.filter (fun th => priority (st !!! th) =? best_pri st q) l1 = []); [|by rewrite Hn].
    clear -Hl1. revert Hl1. generalize (best_pri st q). intros b. induction l1 as [|y l1 IH]; intros Hl; [done|].
    simpl. rewrite (proj2 (Z.eqb_neq _ _)) by (apply Hl, list_elem_of_here).
    apply IH. intros z Hz. by apply Hl, list_elem_of_further.
Qed.

(** C30: on a non-empty queue, [schedule_priority_rr] schedules the first thread
    [c] of minimal priority value.  A thread that is alone at its priority gets its
    whole remaining time and the queue stays as it is; otherwise it gets at most
    the quantum of 2, and exactly [c] moves, to the end of the queue. *)
Theorem schedule_priority_rr_correct (st : store) (args : threads_sched_args) :
  run_queue args <> [] ->
  Forall (fun th => is_int (priority (st !!! th))) (run_queue args) ->
  exists l1 c l2 r q', run_queue args = l1 ++ c :: l2 /\
    (forall th, th ∈ l1 -> priority (st !!! c) < priority (st !!! th)) /\
    (forall th, th ∈ l2 -> priority (st !!! c) <= priority (st !!! th)) /\
    schedule_priority_rr st args = Some (r, q') /\ scheduled_thread_list_member r = Some c /\
    ((forall th, th ∈ l2 -> priority (st !!! th) <> priority (st !!! c)) ->
     q' = run_queue args /\ allocated_time r = remaining_time (st !!! c)) /\
    ((exists th, th ∈ l2 /\ priority (st !!! th) = priority (st !!! c)) ->
     q' = l1 ++ l2 ++ [c] /\ allocated_time r = Z.min 2 (remaining_time (st !!! c))).
Proof.
  destruct args as [now q rel]. cbn [run_queue]. intros Hq Hint.
  assert (Forall (fun th => priority (st !!! th) <= INT_MAX) q) as Hmax.
  { eapply list.Forall_impl; [done|]. intros ? [_ ?]. done. }
  destruct (schedule_priority_rr_first st now q rel Hq Hmax) as (c & l1 & l2 & Hql & Hc & Hl1 & Hg & E).
  assert (Hin : forall th, th ∈ l2 -> priority (st !!! th) = priority (st !!! c) -> group st q <> [c]).
  { intros th Hth Hp. rewrite Hg. intros [= Hnil]. assert (Hi : In th (List.filter
      (fun th => priority (st !!! th) =? best_pri st q) l2)).
    { apply List.filter_In. split; [by apply list_elem_of_In|]. apply Z.eqb_eq. lia. }
    by rewrite Hnil in Hi. }
  assert (Hout : (forall th, th ∈ l2 -> priority (st !!! th) <> priority (st !!! c)) -> group st q = [c]).
  { intros Hne. rewrite Hg. f_equal. destruct (List.filter _ l2) as [|y l] eqn:Ef; [done|]. exfalso.
    assert (Hi : In y (List.filter (fun th => priority (st !!! th) =? best_pri st q) l2))
      by (rewrite Ef; by left).
    apply List.filter_In in Hi as [Hi Hp]. apply (Hne y); [by apply list_elem_of_In|zbool; lia]. }
  rewrite E. exists l1, c, l2. case_decide as Hd; do 2 eexists; (split; [exact Hql|]).
  all: split; [intros th Hth; pose proof (best_pri_min st q th) as Hm; pose proof (Hl1 th Hth);
    rewrite Hql in Hm at 1; specialize (Hm ltac:(set_solver)); lia|].
  all: split; [intros th Hth; pose proof (best_pri_min st q th) as Hm;
    rewrite Hql in Hm at 1; specialize (Hm ltac:(set_solver)); lia|].
  all: split; [done|]; split; [done|]; split; [intros Hne|intros (th & Hth & Hp)]; try done.
  - by destruct (Hin th Hth Hp).
  - by destruct Hd; apply Hout.
Qed.

(** [n] successive calls on the same threads. *)
Fixpoint rr_rounds (n : nat) (st : store) (now : Z) (q : list tptr)
  (rel : list release_queue_entry) : option (list tptr) :=
  match n with
  | O => Some []
  | S n' =>
      match schedule_priority_rr st (Build_threads_sched_args now q rel) with
      | Some (r, q') =>
          match scheduled_thread_list_member r with
          | Some c => cons c <$> rr_rounds n' st now q' rel
          | None => None
          end
      | None => None
      end
  end.

Lemma rr_rounds_group (st : store) now rel n (q : list tptr) :
  q <> [] -> Forall (fun th => priority (st !!! th) <= INT_MAX) q ->
  (n <= length (group st q))%nat ->
  rr_rounds n st now q rel = Some (take n (group st q)).
Proof.
  revert q. induction n as [|n IH]; intros q Hq Hmax Hn; [done|]. cbn [rr_rounds].
  destruct (schedule_priority_rr_step st now q rel Hq Hmax)
    as (c & r & q' & -> & -> & Hhd & Hperm & Hbp & Hcase).
  destruct (group st q) as [|c' g] eqn:Eg; [done|]. simpl in Hhd. simplify_eq/=.
  assert (q' <> []) by (intros ->; by apply Permutation_nil_l in Hperm).
  assert (Forall (fun th => priority (st !!! th) <= INT_MAX) q') by (by rewrite Hperm).
  destruct Hcase as [Hd|Hg']; [simplify_eq; by destruct n; [|simpl in *; lia]|].
  rewrite IH by (try done; rewrite Hg', length_app; simpl; lia).
  simpl. rewrite Hg'. by rewrite take_app_le by lia.
Qed.

(** C31: round-robin is fair within the best priority group: with the threads
    unchanged, as many calls as the group has threads schedule every thread of
    the group exactly once, in queue order. *)
Theorem schedule_priority_rr_fair (st : store) now (q : list tptr) rel :
  q <> [] -> Forall (fun th => is_int (priority (st !!! th))) q ->
  let g := List.filter (fun th => forallb (fun th' => priority (st !!! th) <=?
                                              priority (st !!! th')) q) q in
  g <> [] /\ rr_rounds (length g) st now q rel = Some g.
Proof.
  intros Hq Hint g.
  assert (Forall (fun th => priority (st !!! th) <= INT_MAX) q) as Hmax.
  { eapply list.Forall_impl; [done|]. intros ? [_ ?]. done. }
  destruct (best_pri_attained st q Hq Hmax) as (x & Hx & Hpx).
  assert (g = group st q) as ->.
  { apply List.filter_ext_in. intros th Hth%list_elem_of_In.
    apply eq_true_iff_eq. rewrite List.forallb_forall, Z.eqb_eq. split.
    - intros Hall. apply Z.le_antisymm; [|by apply best_pri_min].
      rewrite <- Hpx. apply Z.leb_le, Hall. by apply list_elem_of_In.
    - intros -> th' Hth'%list_elem_of_In. apply Z.leb_le. by apply best_pri_min. }
  split.
  - intros Hg. assert (In x (group st q)) as Hin; [|by rewrite Hg in Hin].
    apply List.filter_In. split; [by apply list_elem_of_In|]. by apply Z.eqb_eq.
  - rewrite rr_rounds_group by done. by rewrite firstn_all.
Qed.

(** *** Deadline-monotonic scheduling *)

Lemma pick_dm (st : store) (q : list tptr) :
  pick (fun th best => 0 <? __dm_thread_cmp (st !!! th) (st !!! best)) None q
  = pick (fun th best => by_key deadline (st !!! th) (st !!! best)) None q.
Proof.
  generalize (@None Z). induction q as [|x q IH]; intros best; [done|]. simpl.
  destruct best; [|apply IH]. rewrite __dm_thread_cmp_by_key. apply IH.
Qed.

(** Whatever time it is given, the chosen thread is the deadline-monotonic
    choice. *)
Lemma schedule_dm_member (st : store) (args : threads_sched_args) m :
  __check_deadline_miss st (run_queue args) (current_time args) = None ->
  scheduled_thread_list_member (schedule_dm st args) = Some m ->
  m ∈ run_queue args /\
  forall th, th ∈ run_queue args -> by_key deadline (st !!! th) (st !!! m) = false.
Proof.
  intros Hmiss. unfold schedule_dm. rewrite Hmiss, pick_dm.
  destruct (pick _ _ _) as [b|] eqn:Hp; [|done].
  destruct (next_arrival _) as [[e|] t]; repeat case_match; intros; simplify_eq/=;
    by apply pick_by_key.
Qed.

(** [schedule_dm] reports, with time 0, the least-[ID] thread among those
    past their deadline when there is one; otherwise it idles exactly on an
    empty queue and else schedules the thread of the run queue with the
    shortest relative deadline, the least [ID] among equals. *)
Theorem schedule_dm_correct (st : store) (args : threads_sched_args) :
  let r := schedule_dm st args in
  let late th := current_deadline (st !!! th) <= current_time args in
  match scheduled_thread_list_member r with
  | None => run_queue args = []
  | Some m =>
      m ∈ run_queue args /\
      ((late m /\ allocated_time r = 0 /\
        forall th, th ∈ run_queue args -> late th -> ID (st !!! m) <= ID (st !!! th)) \/
       (forall th, th ∈ run_queue args ->
          ~ late th /\
          (deadline (st !!! m) < deadline (st !!! th) \/
           (deadline (st !!! m) = deadline (st !!! th) /\ ID (st !!! m) <= ID (st !!! th)))))
  end.
Proof.
  cbv zeta. destruct (__check_deadline_miss st (run_queue args) (current_time args))
    as [m|] eqn:Hmiss.
  - unfold schedule_dm. rewrite Hmiss. simpl.
    destruct (__check_deadline_miss_some _ _ _ _ Hmiss) as (? & ? & ?). naive_solver.
  - destruct (scheduled_thread_list_member _) as [m|] eqn:Hm.
    + destruct (schedule_dm_member _ _ _ Hmiss Hm) as [Hin Hbest]. split; [done|]. right.
      rewrite __check_deadline_miss_none in Hmiss. intros th Hth. split.
      * specialize (Hmiss th Hth). lia.
      * specialize (Hbest th Hth). apply by_key_false in Hbest. lia.
    + unfold schedule_dm in Hm. rewrite Hmiss in Hm.
      destruct (pick _ _ _) as [b|] eqn:Hp; [|by apply pick_none in Hp as [_ ->]].
      destruct (next_arrival _) as [[e|] t]; repeat case_match; simplify_eq/=.
Qed.

(** The loop that looks for the next arrival finds an entry of minimal release
    time. *)
Definition arrival_ok (l : list release_queue_entry) (a : option release_queue_entry * Z) : Prop :=
  (forall x, x ∈ l -> a.2 <= release_time x) /\
  match a.1 with
  | None => a.2 = INT_MAX
  | Some e => e ∈ l /\ a.2 = release_time e /\ a.2 < INT_MAX
  end.

Lemma next_arrival_spec l : arrival_ok l (next_arrival l).
Proof.
  unfold next_arrival. set (f := fun '(e, t) x => _).
  assert (Hgen : forall r d a, arrival_ok d a -> a.2 <= INT_MAX ->
    arrival_ok (d ++ r) (fold_left f r a)).
  { induction r as [|x r IH]; intros d a Ha Hm; [by rewrite app_nil_r|].
    cbn [fold_left]. change (x :: r) with ([x] ++ r). rewrite app_assoc.
    destruct a as [o t], Ha as [Hmin Ho]. cbn [fst snd] in *. unfold f at 2.
    destruct (release_time x <? t) eqn:E; zbool; (apply IH; [split|]; cbn [fst snd]).
    - intros y [Hy| ->%list_elem_of_singleton]%elem_of_app; [|lia].
      specialize (Hmin y Hy). lia.
    - split_and!; [set_solver|done|lia].
    - lia.
    - intros y [Hy| ->%list_elem_of_singleton]%elem_of_app; [auto|lia].
    - destruct o; [|done]. set_solver.
    - lia. }
  apply (Hgen l []); [|done]. split; [|done]. intros x Hx. by apply not_elem_of_nil in Hx.
Qed.

(** the time [schedule_dm] gives to the thread it runs ([remaining_time]
    positive, no overflow) is between one tick and the remaining time, and when
    the next arrival is in the future and belongs to a thread that precedes the
    chosen one, it ends no later than that arrival. *)
Theorem schedule_dm_time (st : store) (args : threads_sched_args) m :
  let r := schedule_dm st args in
  let now := current_time args in
  scheduled_thread_list_member r = Some m -> allocated_time r <> 0 ->
  0 < remaining_time (st !!! m) -> 0 <= now -> now + remaining_time (st !!! m) <= INT_MAX ->
  1 <= allocated_time r <= remaining_time (st !!! m) /\
  forall e, next_arrival (release_queue args) = (Some e, release_time e) ->
    now < release_time e ->
    deadline (st !!! thrd e) < deadline (st !!! m) \/
    (deadline (st !!! thrd e) = deadline (st !!! m) /\ ID (st !!! thrd e) < ID (st !!! m)) ->
    now + allocated_time r <= release_time e.
Proof.
  cbv zeta. unfold schedule_dm.
  destruct (__check_deadline_miss _ _ _) as [m'|]; [done|].
  destruct (pick _ _ _) as [b|]; [|done].
  destruct (next_arrival _) as [e t] eqn:Hna.
  pose proof (next_arrival_spec (release_queue args)) as Hspec. rewrite Hna in Hspec.
  destruct Hspec as [_ Hspec]. cbn [fst snd] in Hspec.
  destruct e as [e|]; [destruct Hspec as (_ & -> & Ht)|].
  2:{ simpl. intros [= ->] _ Hr Hn Hmax. split; [lia|]. naive_solver. }
  destruct (release_time e <=? current_time args) eqn:E1; zbool.
  { simpl. intros [= ->] _ Hr Hn Hmax. split; [lia|]. intros e' [= <-] Hlt. lia. }
  destruct (release_time e <? s32 _) eqn:E2.
  2:{ simpl. intros [= ->] _ Hr Hn Hmax. split; [lia|]. intros e' [= <-] _ _.
      rewrite s32_small in E2 by (unfold is_int, INT_MIN; lia). zbool. lia. }
  destruct (_ || _) eqn:E3; simpl; intros [= ->] _ Hr Hn Hmax.
  - rewrite s32_small in E2 by (unfold is_int, INT_MIN; lia).
    rewrite s32_small by (unfold is_int, INT_MIN; lia). zbool.
    replace (0 <? release_time e - current_time args) with true by lia.
    split; [lia|]. intros e' [= <-] _ _. lia.
  - split; [lia|]. intros e' [= <-] _ Hprec.
    apply orb_false_iff in E3 as [E3 E4]. apply andb_false_iff in E4. zbool.
    rewrite Z.eqb_neq in E4. rewrite Z.ltb_ge in E4. lia.
Qed.

Definition mk_thread (id arr proc rem pri dl per cdl : Z) : thread :=
  Build_thread id arr proc rem pri dl per cdl null_cbs.

(** [schedule_dm] looks at the next arrival only, so a later arrival of
    higher priority inside the allocated time is not preempted for: here a
    thread of deadline 10 is given 5 ticks although a thread of deadline 4
    arrives after 2. *)
Theorem schedule_dm_ignores_later_arrival :
  let st : store := list_to_map
    [(1, mk_thread 1 0 5 5 0 10 20 20); (2, mk_thread 2 1 3 3 0 30 40 31);
     (3, mk_thread 3 2 2 2 0 4 40 6)] in
  let args := Build_threads_sched_args 0 [1]
    [Build_release_queue_entry 2 1; Build_release_queue_entry 3 2] in
  schedule_dm st args = Build_threads_sched_result (Some 1) 5 /\
  exists e, e ∈ release_queue args /\
    current_time args < release_time e < current_time args + 5 /\
    __dm_thread_cmp (st !!! thrd e) (st !!! 1) = 1.
Proof.
  split; [reflexivity|]. exists (Build_release_queue_entry 3 2).
  split; [set_solver|]. split; [simpl; lia|reflexivity].
Qed.

(** *** EDF with constant-bandwidth servers *)

(** The fields the scheduler never writes. *)
Definition static_eq (t t' : thread) : Prop :=
  ID t = ID t' /\ remaining_time t = remaining_time t' /\ period t = period t' /\
  budget (cbs t) = budget (cbs t') /\ is_hard_rt (cbs t) = is_hard_rt (cbs t').

#[export] Instance static_eq_preorder : PreOrder static_eq.
Proof. split; unfold static_eq; intros ?; naive_solver congruence. Qed.

(** Threads whose parameters keep every product of the bandwidth test within
    an [int]. *)
Definition edf_ok (now : Z) (t : thread) : Prop :=
  0 < remaining_time t <= 2 ^ 28 /\ 0 < period t <= 2 ^ 14 /\
  0 < budget (cbs t) <= 2 ^ 14 /\ remaining_budget (cbs t) <= 2 ^ 14 /\
  0 <= current_deadline t <= now + 2 ^ 14.

(** What each update of the store by the scheduler preserves. *)
Section edf_steps.
Context (now : Z) (q : list tptr) (Hnow : 0 <= now <= 2 ^ 28).

(** [st'] comes from [st] by scheduler updates. *)
Definition edf_rel (st st' : store) : Prop :=
  dom st' = dom st /\ (forall p, static_eq (st !!! p) (st' !!! p)) /\
  ((forall p, p ∈ q -> edf_ok now (st !!! p)) -> forall p, p ∈ q -> edf_ok now (st' !!! p)).

#[local] Instance edf_rel_preorder : PreOrder edf_rel.
Proof.
  split.
  - intros st. split_and!; [done|intros; reflexivity|auto].
  - intros s1 s2 s3 (D1 & S1 & O1) (D2 & S2 & O2). split_and!; [congruence| |auto].
    intros p. etrans; [apply S1|apply S2].
Qed.

Lemma edf_rel_insert (st : store) p t :
  is_Some (st !! p) -> static_eq (st !!! p) t ->
  (edf_ok now (st !!! p) -> edf_ok now t) -> edf_rel st (<[p := t]> st).
Proof.
  intros Hp Hs Hok. split_and!.
  - rewrite dom_insert_L. apply elem_of_dom in Hp. set_solver.
  - intros p'. rewrite lookup_total_insert_store. case_decide; [by subst|reflexivity].
  - intros Hall p' Hp'. rewrite lookup_total_insert_store. case_decide; [|auto].
    subst. auto.
Qed.

Lemma edf_replenish_rel (st : store) p : is_Some (st !! p) -> edf_rel st (edf_replenish now st p).
Proof.
  intros Hp. unfold edf_replenish. case_match eqn:E; [|reflexivity]. zbool.
  apply edf_rel_insert; [done|done|]. unfold edf_ok. simpl.
  intros (? & ? & ? & ? & ?). rewrite s32_small by (unfold is_int, INT_MIN, INT_MAX; lia). lia.
Qed.

Lemma edf_throttle_rel (st : store) p : is_Some (st !! p) -> edf_rel st (edf_throttle now st p).
Proof.
  intros Hp. unfold edf_throttle. case_match eqn:E; [|reflexivity].
  by apply edf_rel_insert.
Qed.

Lemma edf_extend_rel (st : store) p :
  is_Some (st !! p) -> edf_rel st (<[p := edf_extend now (st !!! p)]> st).
Proof.
  intros Hp. apply edf_rel_insert; [done|done|]. unfold edf_ok. simpl.
  intros (? & ? & ? & ? & ?). rewrite s32_small by (unfold is_int, INT_MIN, INT_MAX; lia). lia.
Qed.

Lemma edf_fold_rel (f : store -> tptr -> store) l (st : store) :
  (forall st p, is_Some (st !! p) -> edf_rel st (f st p)) ->
  (forall p, p ∈ l -> is_Some (st !! p)) -> edf_rel st (fold_left f l st).
Proof.
  intros Hf. revert st. induction l as [|p l IH]; intros st Hl; simpl; [reflexivity|].
  assert (edf_rel st (f st p)) as Hp by (apply Hf, Hl, list_elem_of_here).
  etrans; [exact Hp|]. apply IH. intros p' Hp'. apply elem_of_dom.
  rewrite (proj1 Hp). apply elem_of_dom, Hl. by apply list_elem_of_further.
Qed.
End edf_steps.

Lemma s32_add_sub a b : is_int b -> s32 (s32 (a + b) - a) = b.
Proof.
  intros Hb. rewrite <- (s32_small b) at 2 by done. unfold s32.
  replace ((a + b + 2 ^ 31) `mod` 2 ^ 32 - 2 ^ 31 - a + 2 ^ 31)
    with ((a + b + 2 ^ 31) `mod` 2 ^ 32 - a) by lia.
  rewrite Zminus_mod_idemp_l. f_equal. f_equal. lia.
Qed.

(** A deadline extension restores the bandwidth constraint at once. *)
Lemma edf_extend_ok now t :
  0 < period t -> is_int (period t) -> edf_violates now (edf_extend now t) = false.
Proof.
  intros Hp Hi. unfold edf_violates, edf_extend. simpl. rewrite s32_add_sub by done.
  rewrite Z.ltb_irrefl, orb_false_r. replace (period t <=? 0) with false by lia.
  apply andb_false_r.
Qed.

Lemma filter_length_lt {A} (f g : A -> bool) (l : list A) b :
  (forall x, x ∈ l -> g x = true -> f x = true) -> b ∈ l -> f b = true -> g b = false ->
  (length (List.filter g l) < length (List.filter f l))%nat.
Proof.
  intros Hgf Hb Hf Hg. induction l as [|x l IH]; [by apply not_elem_of_nil in Hb|].
  assert (Hle : (length (List.filter g l) <= length (List.filter f l))%nat).
  { clear IH Hb. assert (Hl : forall x, x ∈ l -> g x = true -> f x = true).
    { intros y Hy. apply Hgf. by apply list_elem_of_further. }
    clear Hgf. induction l as [|y l IHl]; simpl; [lia|].
    specialize (Hl y (list_elem_of_here _ _)) as Hy.
    assert (length (List.filter g l) <= length (List.filter f l))%nat.
    { apply IHl. intros z Hz. apply Hl. by apply list_elem_of_further. }
    destruct (g y); [rewrite Hy by done; simpl; lia|]. destruct (f y); simpl; lia. }
  apply elem_of_cons in Hb as [->|Hb]; simpl.
  - rewrite Hf, Hg. simpl. lia.
  - assert (length (List.filter g l) < length (List.filter f l))%nat.
    { apply IH; [|done]. intros y Hy. apply Hgf. by apply list_elem_of_further. }
    pose proof (Hgf x (list_elem_of_here _ _)) as Hx.
    destruct (g x); [rewrite Hx by done; simpl; lia|]. destruct (f x); simpl; lia.
Qed.

Lemma edf_best_some st (q : list tptr) b :
  edf_best st q = Some b ->
  b ∈ q /\ throttled (st !!! b) = false /\
  forall th, th ∈ q -> throttled (st !!! th) = false ->
    by_key current_deadline (st !!! th) (st !!! b) = false.
Proof.
  rewrite edf_best_pick. intros [Hb Hbest]%pick_by_key.
  apply list_elem_of_filter in Hb as [? ?]. split_and!; [done..|].
  intros th Hth Ht. by apply Hbest, list_elem_of_filter.
Qed.

Lemma edf_loop_some fuel now (q : list tptr) (st : store) :
  (forall p, p ∈ q -> 0 < period (st !!! p) /\ is_int (period (st !!! p))) ->
  (length (List.filter (fun p => edf_violates now (st !!! p)) q) < fuel)%nat ->
  is_Some (edf_loop fuel now q st).
Proof.
  revert st. induction fuel as [|fuel IH]; intros st Hper Hlen; [lia|]. simpl.
  destruct (edf_best st q) as [b|] eqn:Hb; [|by eexists].
  destruct (edf_best_some _ _ _ Hb) as (Hbq & _).
  destruct (edf_violates now (st !!! b)) eqn:Hv; [|by eexists].
  destruct (Hper b Hbq) as [Hp Hi]. apply IH.
  - intros p Hpq. rewrite lookup_total_insert_store. case_decide; [by subst|auto].
  - eapply Nat.lt_le_trans; [|apply Nat.lt_succ_r, Hlen].
    apply (filter_length_lt _ _ _ b); [|done|done|].
    + intros p Hpq. rewrite lookup_total_insert_store. case_decide; [|done].
      by rewrite edf_extend_ok.
    + rewrite lookup_total_insert_store, decide_True by done. by apply edf_extend_ok.
Qed.

(** C32: the deadline-extension loop terminates: when the periods are positive,
    [schedule_edf_cbs] returns within as many iterations as the run queue has
    threads, plus one. *)
Theorem schedule_edf_cbs_terminates fuel (st : store) (args : threads_sched_args) :
  (forall p, p ∈ run_queue args ->
     is_Some (st !! p) /\ 0 < period (st !!! p) <= INT_MAX) ->
  (length (run_queue args) < fuel)%nat ->
  is_Some (schedule_edf_cbs fuel st args).
Proof.
  intros Hwf Hfuel. unfold schedule_edf_cbs.
  set (now := current_time args). set (q := run_queue args).
  assert (forall f, (forall st p, static_eq (st !!! p) (f st p !!! p) /\
      (forall p', p <> p' -> f st p !!! p' = st !!! p')) ->
    forall l (st : store) p, static_eq (st !!! p) (fold_left f l st !!! p)) as Hst.
  { intros f Hf l. induction l as [|x l IH]; intros st' p; simpl; [reflexivity|].
    etrans; [|apply IH]. destruct (Hf st' x) as [H1 H2].
    destruct (decide (x = p)) as [->|]; [done|]. by rewrite H2. }
  destruct (__check_deadline_miss _ _ _); [by eexists|].
  destruct q as [|p0 q'] eqn:Eq; [by eexists|]. rewrite <- Eq in *.
  set (st1 := fold_left (edf_replenish now) q st).
  set (st2 := fold_left (edf_throttle now) q st1).
  assert (Hs : forall p, static_eq (st !!! p) (st2 !!! p)).
  { intros p. etrans; [apply (Hst (edf_replenish now))|apply (Hst (edf_throttle now))];
      clear; intros st p; unfold edf_replenish, edf_throttle; case_match;
      (split; [|intros p' ?]); rewrite ?lookup_total_insert_store, ?decide_True,
      ?decide_False by done; done. }
  destruct (edf_loop_some fuel now q st2) as [[best st3] ->].
  - intros p Hp. destruct (Hwf p Hp) as [_ Hper]. destruct (Hs p) as (_ & _ & <- & _).
    split; [lia|]. unfold is_int, INT_MIN. lia.
  - eapply Nat.le_lt_trans; [apply List.filter_length_le|done].
  - destruct best as [best|]; [|by eexists]. destruct (edf_allocate _ _ _ _). by eexists.
Qed.

(** The preemption scans leave the store as it was and only lower the time. *)
Lemma insert_total_id (st : store) p : is_Some (st !! p) -> <[p := st !!! p]> st = st.
Proof. intros [t Ht]. apply insert_id. by rewrite lookup_total_alt, Ht. Qed.

Lemma edf_arrival_spec now best (st : store) m e :
  is_Some (st !! thrd e) -> 0 <= now -> 1 <= m -> now + m <= INT_MAX ->
  exists m', edf_arrival now best (m, st) e = (m', st) /\ 1 <= m' <= m /\
    (thrd e <> best -> now < release_time e < now + m' ->
     (0 <? __edf_thread_cmp (set_current_deadline (s32 (release_time e + period (st !!! thrd e)))
                              (st !!! thrd e)) (st !!! best)) = false).
Proof.
  intros Hin Hnow Hm Hmax. unfold edf_arrival.
  rewrite s32_small by (unfold is_int, INT_MIN; lia).
  destruct (_ && _) eqn:E1.
  2:{ exists m. split_and!; [done|lia..|]. intros _ Hr.
      apply andb_false_iff in E1 as [E1|E1]; zbool; lia. }
  zbool. rewrite insert_insert_eq, !lookup_total_insert_store, decide_True by done.
  set (a := st !!! thrd e).
  replace (set_current_deadline (current_deadline a) _) with a by (by destruct a).
  subst a. rewrite insert_total_id by done. eexists. split; [reflexivity|].
  set (a := st !!! thrd e) in *.
  rewrite (s32_small (release_time e - now)) by (unfold is_int, INT_MIN; lia).
  destruct (decide (thrd e = best)) as [->|Hne].
  - split; [|done]. repeat case_match; zbool; lia.
  - split; [repeat case_match; zbool; lia|]. intros _ Hr. fold a.
    destruct (0 <? __edf_thread_cmp _ _); [|done]. exfalso.
    repeat case_match; zbool; lia.
Qed.

Lemma edf_refill_spec now best (st : store) m p :
  is_Some (st !! p) -> 0 <= now -> 1 <= m -> now + m <= INT_MAX ->
  exists m', edf_refill now best (m, st) p = (m', st) /\ 1 <= m' <= m /\
    (p <> best -> throttled (st !!! p) = true -> now < current_deadline (st !!! p) < now + m' ->
     (0 <? __edf_thread_cmp
            (set_current_deadline (s32 (current_deadline (st !!! p) + period (st !!! p)))
               (st !!! p)) (st !!! best)) = false).
Proof.
  intros Hin Hnow Hm Hmax. unfold edf_refill.
  rewrite s32_small by (unfold is_int, INT_MIN; lia).
  destruct (throttled _) eqn:Et; [|exists m; split_and!; [done|lia..|done]].
  destruct (_ && _) eqn:E1.
  2:{ exists m. split_and!; [done|lia..|]. intros _ _ Hr.
      apply andb_false_iff in E1 as [E1|E1]; zbool; lia. }
  zbool. rewrite insert_insert_eq, !lookup_total_insert_store, decide_True by done.
  set (t := st !!! p).
  replace (set_current_deadline (current_deadline t) _) with t
    by (by destruct t as [? ? ? ? ? ? ? ? []]).
  subst t. rewrite insert_total_id by done. eexists. split; [reflexivity|].
  set (t := st !!! p) in *.
  rewrite (s32_small (current_deadline t - now)) by (unfold is_int, INT_MIN; lia).
  destruct (decide (p = best)) as [->|Hne].
  - rewrite Z.eqb_refl, andb_false_r. split; [lia|done].
  - replace (p =? best) with false by lia. rewrite andb_true_r.
    split; [repeat case_match; zbool; lia|]. intros _ _ Hr. fold t.
    assert (Hc : forall u, __edf_thread_cmp (set_current_deadline u
        (set_remaining_budget (budget (cbs t)) (set_is_throttled 0 t))) (st !!! best)
      = __edf_thread_cmp (set_current_deadline u t) (st !!! best)) by done.
    rewrite Hc in *. destruct (0 <? __edf_thread_cmp _ _); [|done]. exfalso.
    repeat case_match; zbool; lia.
Qed.

(** A scan with a monotone time bound: what each step guarantees of its own
    bound holds of the final one. *)
Lemma scan_fold {B} (f : Z * store -> B -> Z * store) (ok : store -> B -> Z -> Prop)
  (lo hi : Z) (l : list B) (st : store) :
  (forall m b, b ∈ l -> lo <= m <= hi ->
     exists m', f (m, st) b = (m', st) /\ lo <= m' <= m /\ ok st b m') ->
  (forall b m m', m' <= m -> ok st b m -> ok st b m') ->
  forall m, lo <= m <= hi ->
  exists m', fold_left f l (m, st) = (m', st) /\ lo <= m' <= m /\
    forall b, b ∈ l -> ok st b m'.
Proof.
  intros Hstep Hmono. induction l as [|b l IH]; intros m Hm; simpl.
  { exists m. split_and!; [done|lia..|]. intros b Hb. by apply not_elem_of_nil in Hb. }
  destruct (Hstep m b (list_elem_of_here _ _) Hm) as (m1 & -> & Hm1 & Hok).
  destruct (IH) with (m := m1) as (m' & -> & Hm' & Hall); [|lia|].
  { intros m2 b2 Hb2. apply Hstep. by apply list_elem_of_further. }
  exists m'. split_and!; [done|lia..|]. intros b' [->|Hb']%elem_of_cons; [|auto].
  eapply Hmono; [|exact Hok]. lia.
Qed.

(** Some other thread would become the EDF choice inside the first [m] ticks:
    by arriving, or by having its budget replenished. *)
Definition arrival_quiet (now : Z) (best : tptr) (st : store) (e : release_queue_entry) (m : Z) :=
  thrd e <> best -> now < release_time e < now + m ->
  (0 <? __edf_thread_cmp (set_current_deadline (s32 (release_time e + period (st !!! thrd e)))
                           (st !!! thrd e)) (st !!! best)) = false.
Definition refill_quiet (now : Z) (best : tptr) (st : store) (p : tptr) (m : Z) :=
  p <> best -> throttled (st !!! p) = true -> now < current_deadline (st !!! p) < now + m ->
  (0 <? __edf_thread_cmp
         (set_current_deadline (s32 (current_deadline (st !!! p) + period (st !!! p)))
            (st !!! p)) (st !!! best)) = false.

Lemma edf_allocate_spec now best (args : threads_sched_args) (st : store) :
  (forall e, e ∈ release_queue args -> is_Some (st !! thrd e)) ->
  (forall p, p ∈ run_queue args -> is_Some (st !! p)) ->
  0 <= now -> 0 < remaining_time (st !!! best) ->
  (is_soft (st !!! best) = true -> 0 < remaining_budget (cbs (st !!! best))) ->
  now + remaining_time (st !!! best) <= INT_MAX ->
  exists t, edf_allocate now best args st = (t, st) /\
    1 <= t <= remaining_time (st !!! best) /\
    (is_soft (st !!! best) = true -> t <= remaining_budget (cbs (st !!! best))) /\
    (forall e, e ∈ release_queue args -> arrival_quiet now best st e t) /\
    (forall p, p ∈ run_queue args -> refill_quiet now best st p t).
Proof.
  intros Hrel Hq Hnow Hr Hb Hmax. unfold edf_allocate.
  set (a := if is_soft (st !!! best) then _ else _).
  assert (Ha : 1 <= a <= remaining_time (st !!! best) /\
    (is_soft (st !!! best) = true -> a <= remaining_budget (cbs (st !!! best)))).
  { subst a. destruct (is_soft _); [specialize (Hb eq_refl)|]; repeat case_match; zbool; lia. }
  destruct (scan_fold (edf_arrival now best) (fun st e m => arrival_quiet now best st e m)
    1 (remaining_time (st !!! best)) (release_queue args) st) with (m := a)
    as (m1 & -> & Hm1 & H1); [..|lia|].
  { intros m e He Hm. apply edf_arrival_spec; auto; lia. }
  { intros e m m' Hle Hok Hne Hlt. apply Hok; [done|lia]. }
  destruct (scan_fold (edf_refill now best) (fun st p m => refill_quiet now best st p m)
    1 (remaining_time (st !!! best)) (run_queue args) st) with (m := m1)
    as (m2 & -> & Hm2 & H2); [..|lia|].
  { intros m p Hp Hm. apply edf_refill_spec; auto; lia. }
  { intros p m m' Hle Hok Hne Ht Hlt. apply Hok; [done|done|lia]. }
  replace (0 <? m2) with true by lia. exists m2. split_and!; try done; try lia.
  - intros Hs. destruct Ha as [_ Ha]. specialize (Ha Hs). lia.
  - intros e He Hne Hlt. apply (H1 e He Hne). lia.
Qed.

(** The loop's result: an EDF choice that respects its bandwidth. *)
Lemma edf_loop_result fuel now (q : list tptr) (st : store) b st' :
  (forall p, p ∈ q -> is_Some (st !! p)) -> 0 <= now <= 2 ^ 28 ->
  edf_loop fuel now q st = Some (Some b, st') ->
  edf_rel now q st st' /\ edf_best st' q = Some b /\ edf_violates now (st' !!! b) = false /\
  ((forall p, p ∈ q -> throttled (st !!! p) = false -> is_soft (st !!! p) = true ->
     0 < remaining_budget (cbs (st !!! p)) /\ 0 < budget (cbs (st !!! p))) ->
   forall p, p ∈ q -> throttled (st' !!! p) = false -> is_soft (st' !!! p) = true ->
     0 < remaining_budget (cbs (st' !!! p))).
Proof.
  revert st. induction fuel as [|fuel IH]; intros st Hq Hnow; simpl; [done|].
  destruct (edf_best st q) as [b0|] eqn:Hb; [|done].
  destruct (edf_violates now (st !!! b0)) eqn:Hv.
  2:{ intros [= <- <-]. split_and!; [apply edf_rel_preorder|done|done|].
      intros Hpre p Hp Ht Hs. by apply Hpre. }
  destruct (edf_best_some _ _ _ Hb) as (Hbq & _).
  pose proof (edf_extend_rel now q Hnow st b0 (Hq b0 Hbq)) as Hrel.
  intros Hloop. apply IH in Hloop as (Hrel' & ? & ? & Hbud); [|..|done].
  - split_and!; [|done..|].
    { eapply (edf_rel_preorder now q); [exact Hrel|exact Hrel']. }
    intros Hpre. apply Hbud. intros p Hp. rewrite lookup_total_insert_store.
    case_decide; [|auto]. subst p. unfold throttled, is_soft. simpl.
    intros Ht Hs. destruct (Hpre b0 Hp Ht Hs). done.
  - intros p Hp. apply elem_of_dom. rewrite (proj1 Hrel). by apply elem_of_dom, Hq.
Qed.

(** After the throttling pass a soft thread that may run has budget. *)
Lemma edf_throttle_fold now (q : list tptr) (st : store) p :
  p ∈ q -> let t := fold_left (edf_throttle now) q st !!! p in
  throttled t = false -> is_soft t = true -> 0 < remaining_budget (cbs t).
Proof.
  set (good := fun t => throttled t = false -> is_soft t = true -> 0 < remaining_budget (cbs t)).
  assert (Hkeep : forall (st : store) x y, good (st !!! y) -> good (edf_throttle now st x !!! y)).
  { intros st' x y Hg. unfold edf_throttle. case_match eqn:E; [|done].
    rewrite lookup_total_insert_store. case_decide; [|done]. subst.
    intros Ht Hs. unfold throttled in Ht. by rewrite Hs in Ht. }
  assert (Hmake : forall (st : store) x, good (edf_throttle now st x !!! x)).
  { intros st' x. unfold edf_throttle. destruct (_ && _) eqn:E.
    - rewrite lookup_total_insert_store, decide_True by done.
      intros Ht Hs. unfold throttled in Ht. by rewrite Hs in Ht.
    - unfold good, throttled. intros Ht Hs. rewrite Hs in *. simpl in *.
      rewrite Ht in E. simpl in E. zbool. lia. }
  assert (Hfold : forall l st y, good (st !!! y) -> good (fold_left (edf_throttle now) l st !!! y)).
  { induction l as [|x l IH]; intros st' y Hg; simpl; [done|]. by apply IH, Hkeep. }
  intros Hp. cbv zeta. change (good (fold_left (edf_throttle now) q st !!! p)).
  revert st. induction q as [|x q IH]; intros st; [by apply not_elem_of_nil in Hp|]. simpl.
  apply elem_of_cons in Hp as [->|Hp]; [by apply Hfold|by apply IH].
Qed.

(** The task sets the theorems below are about. *)
Definition edf_tasks (st : store) (args : threads_sched_args) : Prop :=
  0 <= current_time args <= 2 ^ 28 /\
  (forall p, p ∈ run_queue args -> is_Some (st !! p) /\ edf_ok (current_time args) (st !!! p)) /\
  (forall e, e ∈ release_queue args -> is_Some (st !! thrd e)).

(** Everything known when the scheduler runs a thread for a positive time. *)
Lemma schedule_edf_cbs_run fuel (st : store) (args : threads_sched_args) r st' m :
  edf_tasks st args -> schedule_edf_cbs fuel st args = Some (r, st') ->
  scheduled_thread_list_member r = Some m -> allocated_time r <> 0 ->
  let now := current_time args in
  edf_rel now (run_queue args) st st' /\ edf_best st' (run_queue args) = Some m /\
  edf_violates now (st' !!! m) = false /\
  1 <= allocated_time r <= remaining_time (st' !!! m) /\
  (is_soft (st' !!! m) = true -> allocated_time r <= remaining_budget (cbs (st' !!! m))) /\
  (forall e, e ∈ release_queue args -> arrival_quiet now m st' e (allocated_time r)) /\
  (forall p, p ∈ run_queue args -> refill_quiet now m st' p (allocated_time r)).
Proof.
  intros (Hnow & Hq & Hrel). unfold schedule_edf_cbs. cbv zeta.
  set (now := current_time args) in *. remember (run_queue args) as q eqn:Hqdef.
  remember (fold_left (edf_replenish now) q st) as st1 eqn:E1.
  remember (fold_left (edf_throttle now) q st1) as st2 eqn:E2.
  assert (R1 : edf_rel now q st st1).
  { subst st1. apply edf_fold_rel; [by apply edf_replenish_rel|]. intros p Hp. by apply Hq. }
  assert (D1 : forall p, is_Some (st !! p) -> is_Some (st1 !! p)).
  { intros p. rewrite <- !elem_of_dom. by rewrite (proj1 R1). }
  assert (R2 : edf_rel now q st1 st2).
  { subst st2. apply edf_fold_rel; [by apply edf_throttle_rel|]. intros p Hp. by apply D1, Hq. }
  assert (R12 : edf_rel now q st st2) by (eapply edf_rel_preorder; [exact R1|exact R2]).
  destruct (__check_deadline_miss st1 q now) as [m0|]; [intros; by simplify_eq/=|].
  destruct q as [|p0 q'] eqn:Eq; [intros; by simplify_eq/=|]. rewrite <- Eq in *.
  destruct (edf_loop fuel now q st2) as [[[b|] st3]|] eqn:Hloop;
    [|intros; by simplify_eq/=..].
  assert (D2 : forall p, is_Some (st !! p) -> is_Some (st2 !! p)).
  { intros p. rewrite <- !elem_of_dom. by rewrite (proj1 R12). }
  apply edf_loop_result in Hloop as (R3 & Hbest & Hviol & Hbud); [|intros p Hp; by apply D2, Hq|done].
  assert (R : edf_rel now q st st3) by (eapply edf_rel_preorder; [exact R12|exact R3]).
  assert (D3 : forall p, is_Some (st !! p) -> is_Some (st3 !! p)).
  { intros p. rewrite <- !elem_of_dom. by rewrite (proj1 R). }
  destruct (edf_best_some _ _ _ Hbest) as (Hbq & Hbt & _).
  assert (Hok : edf_ok now (st3 !!! b)).
  { apply (proj2 (proj2 R)); [|done]. intros p Hp. by apply Hq. }
  destruct Hok as (Hr & _).
  destruct (edf_allocate_spec now b args st3) as (t & Ha & Ht & Hs & He & Hp);
    [auto|rewrite <- Hqdef; intros p Hp; by apply D3, Hq|lia|lia|..].
  { intros Hsoft. apply Hbud; [|done..]. intros p Hp Ht Hs. split.
    - subst st2. exact (edf_throttle_fold now q st1 p Hp Ht Hs).
    - assert (edf_ok now (st2 !!! p)) as (_ & _ & Hbp & _); [|lia].
      apply (proj2 (proj2 R12)); [|done]. intros p' Hp'. by apply Hq. }
  { unfold INT_MAX. lia. }
  rewrite Ha. intros [= <- <-] Hm _. simpl in *. rewrite <- Hqdef in Hp. by simplify_eq.
Qed.

(** C33: earliest deadline first with bandwidth enforcement: a thread that
    [schedule_edf_cbs] runs for a positive time is not throttled, has the
    earliest deadline (least [ID] among equals) of the threads that are not,
    and a soft one gets no more than its remaining budget, which fits its
    bandwidth [budget / period] up to its deadline. *)
Theorem schedule_edf_cbs_choice fuel (st : store) (args : threads_sched_args) r st' m :
  edf_tasks st args -> schedule_edf_cbs fuel st args = Some (r, st') ->
  scheduled_thread_list_member r = Some m -> allocated_time r <> 0 ->
  let t := st' !!! m in
  m ∈ run_queue args /\ throttled t = false /\
  (forall th, th ∈ run_queue args -> throttled (st' !!! th) = false ->
     current_deadline t < current_deadline (st' !!! th) \/
     (current_deadline t = current_deadline (st' !!! th) /\ ID t <= ID (st' !!! th))) /\
  1 <= allocated_time r <= remaining_time (st !!! m) /\
  (is_soft t = true ->
     allocated_time r <= remaining_budget (cbs t) /\
     remaining_budget (cbs t) * period t
       <= budget (cbs t) * (current_deadline t - current_time args)).
Proof.
  intros Htasks Hs Hm Ha.
  destruct (schedule_edf_cbs_run _ _ _ _ _ _ Htasks Hs Hm Ha)
    as (R & Hbest & Hviol & Ht & Hsoft & _).
  destruct Htasks as (Hnow & Hq & _).
  destruct (edf_best_some _ _ _ Hbest) as (Hbq & Hbt & Hmin). cbv zeta.
  assert (Hok : edf_ok (current_time args) (st' !!! m)).
  { apply (proj2 (proj2 R)); [|done]. intros p Hp. by apply Hq. }
  split_and!; try done; try lia.
  - intros th Hth Htt. specialize (Hmin th Hth Htt). apply by_key_false in Hmin. lia.
  - destruct (proj1 (proj2 R) m) as (_ & -> & _). lia.
  - intros Hso. specialize (Hsoft Hso). split; [lia|].
    unfold edf_violates in Hviol. rewrite Hso in Hviol.
    destruct Hok as (? & ? & ? & ? & ?).
    replace (0 <? _) with true in Hviol by lia. cbn [andb] in Hviol.
    rewrite s32_small in Hviol by (unfold is_int, INT_MIN, INT_MAX; lia).
    apply orb_false_iff in Hviol as [Hv1 Hv2]. zbool.
    rewrite !s32_small in Hv2 by (unfold is_int, INT_MIN, INT_MAX; nia). lia.
Qed.

(** No preemption is missed: inside the time [schedule_edf_cbs] gives to
    a thread, no other thread arrives, and no throttled thread is replenished,
    that the EDF order would then prefer to it. *)
Theorem schedule_edf_cbs_preemption fuel (st : store) (args : threads_sched_args) r st' m :
  edf_tasks st args -> schedule_edf_cbs fuel st args = Some (r, st') ->
  scheduled_thread_list_member r = Some m -> allocated_time r <> 0 ->
  let now := current_time args in
  let prefers th d := __edf_thread_cmp (set_current_deadline d (st' !!! th)) (st' !!! m) = 1 in
  (forall e, e ∈ release_queue args -> thrd e <> m ->
     prefers (thrd e) (s32 (release_time e + period (st' !!! thrd e))) ->
     now < release_time e -> now + allocated_time r <= release_time e) /\
  (forall th, th ∈ run_queue args -> th <> m -> throttled (st' !!! th) = true ->
     prefers th (s32 (current_deadline (st' !!! th) + period (st' !!! th))) ->
     now < current_deadline (st' !!! th) ->
     now + allocated_time r <= current_deadline (st' !!! th)).
Proof.
  intros Htasks Hs Hm Ha.
  destruct (schedule_edf_cbs_run _ _ _ _ _ _ Htasks Hs Hm Ha)
    as (_ & _ & _ & _ & _ & Harr & Href). cbv zeta. split.
  - intros e He Hne Hp Hr. apply Z.nlt_ge. intros Hlt.
    specialize (Harr e He Hne). rewrite Hp in Harr.
    by discriminate (Harr (conj Hr Hlt)).
  - intros th Hth Hne Ht Hp Hr. apply Z.nlt_ge. intros Hlt.
    specialize (Href th Hth Hne Ht). rewrite Hp in Href.
    by discriminate (Href (conj Hr Hlt)).
Qed.

(** ** Witnesses on concrete task sets *)

Definition w_store : store := list_to_map
  [(1, mk_thread 1 0 5 5 2 10 20 20); (2, mk_thread 2 1 3 3 1 30 40 31);
   (3, mk_thread 3 2 2 2 1 4 40 6)].
Definition w_args : threads_sched_args :=
  Build_threads_sched_args 3 [1; 2; 3] [Build_release_queue_entry 2 9].

(** A hard thread 1, a soft thread 2 with budget, a throttled soft thread 3. *)
Definition w_cbs : store := list_to_map
  [(1, set_cbs (Build_cbs_params 1 0 1 0 0) (mk_thread 1 0 5 9 0 20 20 20));
   (2, set_cbs (Build_cbs_params 2 2 0 0 0) (mk_thread 2 0 6 6 0 12 12 15));
   (3, set_cbs (Build_cbs_params 1 0 0 1 2) (mk_thread 3 0 4 4 0 6 6 7))].
Definition w_cbs_args : threads_sched_args :=
  Build_threads_sched_args 3 [1; 2; 3] [Build_release_queue_entry 3 4].

Lemma schedule_hrrn_correct_witness :
  scheduled_thread_list_member (schedule_hrrn w_store w_args) = Some 2 /\
  2 ∈ run_queue w_args /\ allocated_time (schedule_hrrn w_store w_args) = 3.
Proof.
  assert (Forall (fun th => hrrn_fits (current_time w_args) (w_store !!! th)) (run_queue w_args))
    as Hfits.
  { repeat constructor; vm_compute; congruence. }
  destruct (schedule_hrrn_correct w_store w_args Hfits) as (Hin & Ht & _).
  split; [reflexivity|]. split; [exact Hin|exact Ht].
Defined.

Lemma schedule_priority_rr_correct_witness :
  exists l1 c l2 r q', run_queue w_args = l1 ++ c :: l2 /\
    schedule_priority_rr w_store w_args = Some (r, q') /\ scheduled_thread_list_member r = Some c /\
    ((exists th, th ∈ l2 /\ priority (w_store !!! th) = priority (w_store !!! c)) ->
     q' = l1 ++ l2 ++ [c] /\ allocated_time r = Z.min 2 (remaining_time (w_store !!! c))).
Proof.
  destruct (schedule_priority_rr_correct w_store w_args)
    as (l1 & c & l2 & r & q' & H1 & _ & _ & H2 & H3 & _ & H4).
  - discriminate.
  - repeat constructor; vm_compute; congruence.
  - exists l1, c, l2, r, q'. split; [exact H1|]. split; [exact H2|]. split; [exact H3|exact H4].
Defined.

Lemma schedule_priority_rr_fair_witness :
  rr_rounds 2 w_store 3 [1; 2; 3] [] = Some [2; 3].
Proof.
  destruct (schedule_priority_rr_fair w_store 3 [1; 2; 3] []) as [_ H].
  - discriminate.
  - repeat constructor; vm_compute; congruence.
  - exact H.
Defined.

(** Thread 3 of deadline 4 arrives at 9; thread 1 of deadline 10 runs from 3. *)
Definition w_dm_args : threads_sched_args :=
  Build_threads_sched_args 3 [1] [Build_release_queue_entry 3 7].

Lemma schedule_dm_time_witness :
  scheduled_thread_list_member (schedule_dm w_store w_dm_args) = Some 1 /\
  1 <= allocated_time (schedule_dm w_store w_dm_args) <= 5 /\
  3 + allocated_time (schedule_dm w_store w_dm_args) <= 7.
Proof.
  destruct (schedule_dm_time w_store w_dm_args 1) as [H1 H2];
    [reflexivity|vm_compute; congruence|vm_compute; congruence|vm_compute; congruence
    |vm_compute; congruence|].
  split; [reflexivity|]. split; [exact H1|].
  apply (H2 (Build_release_queue_entry 3 7)); [reflexivity|vm_compute; congruence|].
  left. vm_compute. congruence.
Defined.

Lemma schedule_edf_cbs_terminates_witness :
  is_Some (schedule_edf_cbs 4 w_cbs w_cbs_args).
Proof.
  apply schedule_edf_cbs_terminates; [|simpl; lia].
  intros p Hp. simpl in Hp. apply list_elem_of_In in Hp.
  destruct Hp as [<-|[<-|[<-|[]]]]; (split; [eexists; reflexivity|vm_compute; split; congruence]).
Defined.

Lemma w_cbs_tasks : edf_tasks w_cbs w_cbs_args.
Proof.
  split; [vm_compute; split; congruence|]. split.
  - intros p Hp. apply list_elem_of_In in Hp.
    destruct Hp as [<-|[<-|[<-|[]]]]; (split; [eexists; reflexivity|]);
      repeat split; vm_compute; congruence.
  - intros e He. apply list_elem_of_In in He. destruct He as [<-|[]]. eexists. reflexivity.
Defined.

(** What the scheduler answers on [w_cbs]: thread 2, extended to deadline 15. *)
Definition w_cbs_run : threads_sched_result * store :=
  default (Build_threads_sched_result None 0, ∅) (schedule_edf_cbs 4 w_cbs w_cbs_args).

Lemma schedule_edf_cbs_choice_witness :
  2 ∈ run_queue w_cbs_args /\ throttled (w_cbs_run.2 !!! 2) = false /\
  1 <= allocated_time (w_cbs_run.1) <= 6.
Proof.
  destruct (schedule_edf_cbs_choice 4 w_cbs w_cbs_args (w_cbs_run.1) (w_cbs_run.2) 2 w_cbs_tasks)
    as (H1 & H2 & _ & H4 & _);
    [vm_compute; reflexivity|vm_compute; reflexivity|vm_compute; congruence|].
  split; [exact H1|]. split; [exact H2|exact H4].
Defined.

Lemma schedule_edf_cbs_preemption_witness :
  3 + allocated_time (w_cbs_run.1) <= 7.
Proof.
  destruct (schedule_edf_cbs_preemption 4 w_cbs w_cbs_args (w_cbs_run.1) (w_cbs_run.2) 2
    w_cbs_tasks) as [_ H];
    [vm_compute; reflexivity|vm_compute; reflexivity|vm_compute; congruence|].
  apply (H 3); [right; right; left|discriminate|reflexivity|vm_compute; reflexivity
    |vm_compute; reflexivity].
Defined.
