(* ===== verification/CString.v ===== *)
(** The string and memory routines of FileSystem-RAID/kernel/string.c.

    Memory maps an address to the byte stored there; an access outside it is a
    fault.  The routines are the pointer loops of the source.  Each has a
    list-level counterpart ([l_strncmp], [l_strncpy], ...), which the file
    system model applies to its local arrays, and a theorem that the pointer
    loop computes it.  A list stands for a C string with an implicit NUL after
    its last element. *)
From S2P Require Import Prelude.

Abbreviation mem := (gmap Z Z) (only parsing).
Abbreviation CM := (M (gmap Z Z)) (only parsing).

Definition load (p : Z) : CM Z :=
  fun m => match m !! p with Some b => Ret b m | None => Panic "fault" end.
Definition store (p b : Z) : CM unit :=
  fun m => match m !! p with Some _ => Ret tt (<[p := u8 b]> m) | None => Panic "fault" end.

(** ** The routines *)

Fixpoint memset_loop (n : nat) (p c : Z) : CM unit :=
  match n with
  | O => ret tt
  | S n' => store p c ;;; memset_loop n' (p + 1) c
  end.
Definition memset (dst c n : Z) : CM Z :=
  memset_loop (Z.to_nat n) dst c ;;; ret dst.

Fixpoint memcmp_loop (n : nat) (s1 s2 : Z) : CM Z :=
  match n with
  | O => ret 0
  | S n' =>
      let! a := load s1 in
      let! b := load s2 in
      if negb (a =? b) then ret (a - b) else memcmp_loop n' (s1 + 1) (s2 + 1)
  end.
Definition memcmp (v1 v2 n : Z) : CM Z := memcmp_loop (Z.to_nat n) v1 v2.

(** [while (n-- > 0) *--d = *--s;] *)
Fixpoint copy_down (n : nat) (d s : Z) : CM unit :=
  match n with
  | O => ret tt
  | S n' =>
      let! b := load (s - 1) in
      store (d - 1) b ;;; copy_down n' (d - 1) (s - 1)
  end.
(** [while (n-- > 0) *d++ = *s++;] *)
Fixpoint copy_up (n : nat) (d s : Z) : CM unit :=
  match n with
  | O => ret tt
  | S n' =>
      let! b := load s in
      store d b ;;; copy_up n' (d + 1) (s + 1)
  end.
Definition memmove (dst src n : Z) : CM Z :=
  (if (src <? dst) && (dst <? src + n)
   then copy_down (Z.to_nat n) (dst + n) (src + n)
   else copy_up (Z.to_nat n) dst src) ;;;
  ret dst.
Definition memcpy (dst src n : Z) : CM Z := memmove dst src n.

Fixpoint strncmp_loop (n : nat) (p q : Z) : CM Z :=
  match n with
  | O => ret 0
  | S n' =>
      let! a := load p in
      let! b := load q in
      if negb (a =? 0) && (a =? b) then strncmp_loop n' (p + 1) (q + 1)
      else ret (a - b)
  end.
Definition strncmp (p q n : Z) : CM Z := strncmp_loop (Z.to_nat n) p q.

Fixpoint strncpy_loop (n : nat) (s t : Z) : CM unit :=
  match n with
  | O => ret tt
  | S n' =>
      let! c := load t in
      store s c ;;;
      if negb (c =? 0) then strncpy_loop n' (s + 1) (t + 1)
      else memset_loop n' (s + 1) 0
  end.
Definition strncpy (s t n : Z) : CM Z := strncpy_loop (Z.to_nat n) s t ;;; ret s.

(** Returns the final [s]. *)
Fixpoint safestrcpy_loop (n : nat) (s t : Z) : CM Z :=
  match n with
  | O => ret s
  | S n' =>
      let! c := load t in
      store s c ;;;
      if negb (c =? 0) then safestrcpy_loop n' (s + 1) (t + 1) else ret (s + 1)
  end.
Definition safestrcpy (s t n : Z) : CM Z :=
  if n <=? 0 then ret s else
  let! e := safestrcpy_loop (Z.to_nat (n - 1)) s t in
  store e 0 ;;; ret s.

(** [fuel] bounds the length of the string. *)
Fixpoint strlen_loop (fuel : nat) (s n : Z) : CM Z :=
  match fuel with
  | O => fun _ => Fuel
  | S f =>
      let! c := load (s + n) in
      if c =? 0 then ret n else strlen_loop f s (n + 1)
  end.
Definition strlen (fuel : nat) (s : Z) : CM Z := strlen_loop fuel s 0.

(** ** Their meaning on lists *)

Definition ch (l : list Z) : Z := hd 0 l.

Fixpoint l_strncmp (n : nat) (p q : list Z) : Z :=
  match n with
  | O => 0
  | S n' =>
      if negb (ch p =? 0) && (ch p =? ch q) then l_strncmp n' (tl p) (tl q)
      else ch p - ch q
  end.

(** The [n] bytes that [strncpy] writes. *)
Fixpoint l_strncpy (n : nat) (t : list Z) : list Z :=
  match n with
  | O => []
  | S n' => ch t :: (if negb (ch t =? 0) then l_strncpy n' (tl t) else replicate n' 0)
  end.

(** The string up to its NUL. *)
Fixpoint c_str (l : list Z) : list Z :=
  match l with
  | [] => []
  | c :: l' => if c =? 0 then [] else c :: c_str l'
  end.

Definition l_strlen (l : list Z) : Z := Z.of_nat (length (c_str l)).

(** The string that [safestrcpy] leaves in a buffer of [n] bytes. *)
Definition l_safestrcpy (n : nat) (t : list Z) : list Z := take (n - 1) (c_str t).

(** ** Memory as arrays of bytes *)

(** [arr m p l]: the bytes [l] are stored from [p]. *)
Definition arr (m : mem) (p : Z) (l : list Z) : Prop :=
  forall i b, l !! i = Some b -> m !! (p + Z.of_nat i) = Some b.

Definition bytes (l : list Z) : Prop := Forall (fun b => 0 <= b < 256) l.

Lemma arr_cons m p b l : arr m p (b :: l) <-> m !! p = Some b /\ arr m (p + 1) l.
Proof.
  split.
  - intros H. split; [by rewrite <- (Z.add_0_r p); apply (H 0%nat)|].
    intros i c Hi. specialize (H (S i) c Hi). by rewrite <- H; f_equal; lia.
  - intros [Hb Hl] [|i] c Hi; simpl in Hi; [simplify_eq; by rewrite Z.add_0_r|].
    rewrite <- (Hl i c Hi). f_equal. lia.
Qed.

Lemma arr_app m p l1 l2 : arr m p (l1 ++ l2) <-> arr m p l1 /\ arr m (p + Z.of_nat (length l1)) l2.
Proof.
  revert p. induction l1 as [|b l1 IH]; intros p; simpl.
  { rewrite Z.add_0_r. split; [intros ?; split; [by intros i c|done]|tauto]. }
  rewrite !arr_cons, IH. replace (p + 1 + _) with (p + Z.pos (Pos.of_succ_nat (length l1))) by lia.
  tauto.
Qed.

(** [m'] differs from [m] only by holding [l] at [p]. *)
Definition writes (m m' : mem) (p : Z) (l : list Z) : Prop :=
  arr m' p l /\ forall a, ~ (p <= a < p + Z.of_nat (length l)) -> m' !! a = m !! a.

Lemma load_run (m : mem) p b : m !! p = Some b -> load p m = Ret b m.
Proof. unfold load. by intros ->. Qed.

Lemma store_run (m : mem) p b :
  is_Some (m !! p) -> 0 <= b < 256 -> store p b m = Ret tt (<[p := b]> m).
Proof. unfold store. intros [c ->] Hb. by rewrite u8_small. Qed.

Lemma writes_nil m p : writes m m p [].
Proof. split; [by intros i c|done]. Qed.

Lemma writes_cons (m m' : mem) p b l :
  writes (<[p := b]> m) m' (p + 1) l -> writes m m' p (b :: l).
Proof.
  intros [Ha Hs]. split.
  - apply arr_cons. split; [|done]. rewrite Hs by lia. by apply lookup_insert_eq.
  - simpl. intros a Hout. rewrite Hs by lia. apply lookup_insert_ne. lia.
Qed.

Lemma writes_snoc (m m' : mem) p b l :
  writes (<[p + Z.of_nat (length l) := b]> m) m' p l -> writes m m' p (l ++ [b]).
Proof.
  intros [Ha Hs]. split.
  - apply arr_app. split; [done|]. apply arr_cons. split; [|by intros i c].
    rewrite Hs by lia. by apply lookup_insert_eq.
  - rewrite length_app. simpl. intros a Hout. rewrite Hs by lia. apply lookup_insert_ne. lia.
Qed.

Definition mapped (m : mem) (p : Z) (n : nat) : Prop :=
  forall i, (i < n)%nat -> is_Some (m !! (p + Z.of_nat i)).

Lemma mapped_S m p n : mapped m p (S n) <-> is_Some (m !! p) /\ mapped m (p + 1) n.
Proof.
  split.
  - intros H. split; [rewrite <- (Z.add_0_r p); apply (H 0%nat); lia|].
    intros i Hi. replace (p + 1 + Z.of_nat i) with (p + Z.of_nat (S i)) by lia. apply H. lia.
  - intros [Hp H] [|i] Hi; [by rewrite Z.add_0_r|].
    replace (p + Z.of_nat (S i)) with (p + 1 + Z.of_nat i) by lia. apply H. lia.
Qed.

Lemma mapped_insert m p n a b : mapped m p n -> mapped (<[a := b]> m) p n.
Proof. intros H i Hi. rewrite lookup_insert. case_decide; [by eexists|by apply H]. Qed.

Lemma memset_loop_run n (m : mem) p c :
  mapped m p n -> 0 <= c < 256 ->
  exists m', memset_loop n p c m = Ret tt m' /\ writes m m' p (replicate n c).
Proof.
  revert m p. induction n as [|n IH]; intros m p Hm Hc; simpl.
  { exists m. split; [done|apply writes_nil]. }
  apply mapped_S in Hm as [Hp Hm].
  rewrite (bind_eq _ _ _ _ _ (store_run _ _ _ Hp Hc)).
  destruct (IH (<[p := c]> m) (p + 1)) as (m' & Hrun & Hw); [by apply mapped_insert|done|].
  exists m'. split; [done|]. by apply writes_cons.
Qed.

(** Copying upwards from an array that starts at or after the destination, or
    far from it. *)
Lemma copy_up_run (l : list Z) (m : mem) d s :
  arr m s l -> bytes l -> mapped m d (length l) -> d <= s \/ s + Z.of_nat (length l) <= d ->
  exists m', copy_up (length l) d s m = Ret tt m' /\ writes m m' d l.
Proof.
  revert m d s. induction l as [|b l IH]; intros m d s Ha Hb Hm Hds; simpl.
  { exists m. split; [done|apply writes_nil]. }
  apply arr_cons in Ha as [Hsb Ha]. inversion_clear Hb. apply mapped_S in Hm as [Hp Hm].
  rewrite (bind_eq _ _ _ _ _ (load_run _ _ _ Hsb)), (bind_eq _ _ _ _ _ (store_run _ _ _ Hp H)).
  destruct (IH (<[d := b]> m) (d + 1) (s + 1)) as (m' & Hrun & Hw); try done.
  - intros i c Hi. rewrite lookup_insert_ne; [by apply Ha|].
    apply lookup_lt_Some in Hi. simpl in Hds. lia.
  - by apply mapped_insert.
  - simpl in Hds. lia.
  - exists m'. split; [done|]. by apply writes_cons.
Qed.

Lemma copy_down_run (l : list Z) (m : mem) d s :
  arr m s l -> bytes l -> mapped m d (length l) -> s <= d ->
  exists m', copy_down (length l) (d + Z.of_nat (length l)) (s + Z.of_nat (length l)) m
             = Ret tt m' /\ writes m m' d l.
Proof.
  revert m. induction l as [|b l IH] using rev_ind; intros m Ha Hb Hm Hds.
  { exists m. split; [done|apply writes_nil]. }
  rewrite length_app in *. simpl in *. rewrite Nat.add_1_r in *. cbn [copy_down].
  apply arr_app in Ha as [Ha Hsb]. apply arr_cons in Hsb as [Hsb _].
  apply Forall_app in Hb as [Hb Hb']. inversion_clear Hb'.
  replace (s + Z.of_nat (S (length l)) - 1) with (s + Z.of_nat (length l)) by lia.
  replace (d + Z.of_nat (S (length l)) - 1) with (d + Z.of_nat (length l)) by lia.
  assert (is_Some (m !! (d + Z.of_nat (length l)))) as Hp by (apply Hm; lia).
  rewrite (bind_eq _ _ _ _ _ (load_run _ _ _ Hsb)), (bind_eq _ _ _ _ _ (store_run _ _ _ Hp H)).
  destruct (IH (<[d + Z.of_nat (length l) := b]> m)) as (m' & Hrun & Hw); try done.
  - intros i c Hi. rewrite lookup_insert_ne; [by apply Ha|]. apply lookup_lt_Some in Hi. lia.
  - apply mapped_insert. intros i Hi. apply Hm. lia.
  - exists m'. split; [done|]. by apply writes_snoc.
Qed.

(** [memmove] copies correctly for every overlap of the two areas:
    afterwards the destination holds what the source held before, and no other
    byte of memory has changed. *)
Theorem memmove_correct (m : mem) dst src (l : list Z) :
  arr m src l -> bytes l -> mapped m dst (length l) ->
  exists m', memmove dst src (Z.of_nat (length l)) m = Ret dst m' /\ writes m m' dst l.
Proof.
  intros Ha Hb Hm. unfold memmove. rewrite Nat2Z.id. destruct (_ && _) eqn:E.
  - zbool. destruct (copy_down_run l m dst src) as (m' & Hrun & Hw); [done..|lia|].
    rewrite (bind_eq _ _ _ _ _ Hrun). eauto.
  - destruct (copy_up_run l m dst src) as (m' & Hrun & Hw); [done..| |].
    + apply andb_false_iff in E as [E|E]; zbool; lia.
    + rewrite (bind_eq _ _ _ _ _ Hrun). eauto.
Qed.

Lemma arr_ch (m : mem) p l : arr m p (l ++ [0]) -> m !! p = Some (ch l).
Proof. destruct l as [|b l]; simpl; by intros [? _]%arr_cons. Qed.

Lemma arr_tl (m : mem) p l : arr m p (l ++ [0]) -> ch l <> 0 -> arr m (p + 1) (tl l ++ [0]).
Proof. destruct l as [|b l]; simpl; [done|]. by intros [_ ?]%arr_cons. Qed.

Lemma c_str_nonzero (t : list Z) : Forall (fun b => b <> 0) t -> c_str t = t.
Proof.
  induction 1 as [|b t Hb Ht IH]; [done|]. simpl. by rewrite IH, (proj2 (Z.eqb_neq b 0) Hb).
Qed.

Lemma c_str_app (s t : list Z) : Forall (fun c => c <> 0) s -> c_str (s ++ t) = s ++ c_str t.
Proof. induction 1 as [|c s Hc Hs IH]; simpl; [done|]. rewrite (proj2 (Z.eqb_neq c 0)) by done. by rewrite IH. Qed.

Lemma c_str_text t l : Forall (fun b => b <> 0) t -> c_str (t ++ 0 :: l) = t.
Proof. intros H. rewrite c_str_app by done. simpl. apply app_nil_r. Qed.

Lemma arr_insert_ne (m : mem) q l d b :
  arr m q l -> d < q \/ q + Z.of_nat (length l) <= d -> arr (<[d := b]> m) q l.
Proof.
  intros Ha Hd i c Hi. rewrite lookup_insert_ne; [by apply Ha|].
  apply lookup_lt_Some in Hi. lia.
Qed.

Lemma strncmp_loop_run n (m : mem) p q s t :
  arr m p (s ++ [0]) -> arr m q (t ++ [0]) ->
  strncmp_loop n p q m = Ret (l_strncmp n s t) m.
Proof.
  revert p q s t. induction n as [|n IH]; intros p q s t Hs Ht; [done|]. simpl.
  rewrite (bind_eq _ _ _ _ _ (load_run _ _ _ (arr_ch _ _ _ Hs))).
  rewrite (bind_eq _ _ _ _ _ (load_run _ _ _ (arr_ch _ _ _ Ht))).
  destruct (_ && _) eqn:E; [|done]. zbool. apply IH; apply arr_tl; congruence || done.
Qed.

(** The destination of [n] bytes does not meet the source string. *)
Definition apart (d : Z) (n : nat) (q : Z) (t : list Z) : Prop :=
  d + Z.of_nat n <= q \/ q + Z.of_nat (length t) < d.

Lemma strncpy_loop_run n (m : mem) d q t :
  arr m q (t ++ [0]) -> bytes t -> mapped m d n -> apart d n q t ->
  exists m', strncpy_loop n d q m = Ret tt m' /\ writes m m' d (l_strncpy n t).
Proof.
  revert m d q t. induction n as [|n IH]; intros m d q t Ht Hb Hm Hd; simpl.
  { exists m. split; [done|apply writes_nil]. }
  apply mapped_S in Hm as [Hp Hm].
  rewrite (bind_eq _ _ _ _ _ (load_run _ _ _ (arr_ch _ _ _ Ht))).
  assert (0 <= ch t < 256) as Hc by (destruct Hb; simpl; lia).
  rewrite (bind_eq _ _ _ _ _ (store_run _ _ _ Hp Hc)).
  destruct (ch t =? 0) eqn:E; simpl; zbool.
  - destruct (memset_loop_run n (<[d := ch t]> m) (d + 1) 0) as (m' & Hrun & Hw);
      [by apply mapped_insert|lia|]. exists m'. split; [done|]. by apply writes_cons.
  - destruct t as [|c t]; [done|]. inversion_clear Hb. unfold apart in *. simpl in *.
    apply arr_cons in Ht as [_ Ht].
    destruct (IH (<[d := c]> m) (d + 1) (q + 1) t) as (m' & Hrun & Hw);
      [apply arr_insert_ne; [done|rewrite length_app; simpl; lia]|done
      |by apply mapped_insert|lia|].
    exists m'. split; [done|]. by apply writes_cons.
Qed.

Lemma safestrcpy_loop_run k (m : mem) d q t :
  arr m q (t ++ [0]) -> bytes t -> Forall (fun b => b <> 0) t ->
  mapped m d k -> apart d k q t ->
  exists m', safestrcpy_loop k d q m
             = Ret (d + Z.of_nat (length (take k (t ++ [0])))) m' /\
             writes m m' d (take k (t ++ [0])).
Proof.
  revert m d q t. induction k as [|k IH]; intros m d q t Ht Hb Hnz Hm Hd; simpl.
  { exists m. rewrite Z.add_0_r. split; [done|apply writes_nil]. }
  apply mapped_S in Hm as [Hp Hm].
  rewrite (bind_eq _ _ _ _ _ (load_run _ _ _ (arr_ch _ _ _ Ht))).
  assert (0 <= ch t < 256) as Hc by (destruct Hb; simpl; lia).
  rewrite (bind_eq _ _ _ _ _ (store_run _ _ _ Hp Hc)).
  destruct t as [|c t]; simpl.
  - exists (<[d := 0]> m). rewrite take_nil. simpl. split; [done|].
    apply writes_cons, writes_nil.
  - inversion_clear Hb. inversion_clear Hnz. unfold apart in *. simpl in *.
    replace (c =? 0) with false by lia. simpl. apply arr_cons in Ht as [_ Ht].
    destruct (IH (<[d := c]> m) (d + 1) (q + 1) t) as (m' & Hrun & Hw);
      [apply arr_insert_ne; [done|rewrite length_app; simpl; lia]|done|done
      |by apply mapped_insert|lia|].
    exists m'. rewrite Hrun. split; [f_equal; lia|]. by apply writes_cons.
Qed.

Lemma safestrcpy_run n (m : mem) d q t :
  arr m q (t ++ [0]) -> bytes t -> Forall (fun b => b <> 0) t ->
  mapped m d n -> apart d n q t -> (0 < n)%nat ->
  exists m', safestrcpy d q (Z.of_nat n) m = Ret d m' /\
    arr m' d (l_safestrcpy n t ++ [0]).
Proof.
  intros Ht Hb Hnz Hm Hd Hn. unfold safestrcpy, l_safestrcpy.
  replace (Z.of_nat n <=? 0) with false by lia.
  replace (Z.to_nat (Z.of_nat n - 1)) with (n - 1)%nat by lia.
  destruct (safestrcpy_loop_run (n - 1) m d q t) as (m' & Hrun & [Ha Hs]); try done.
  { intros i Hi. apply Hm. lia. }
  { unfold apart in *. lia. }
  rewrite (bind_eq _ _ _ _ _ Hrun), c_str_nonzero by done.
  set (k := length (take (n - 1) (t ++ [0]))) in *.
  assert (Hk : (k <= n - 1)%nat) by (unfold k; rewrite length_take; lia).
  assert (is_Some (m' !! (d + Z.of_nat k))) as Hp.
  { rewrite Hs by lia. apply Hm. lia. }
  rewrite (bind_eq _ _ _ _ _ (store_run _ _ _ Hp (conj (Z.le_refl 0) eq_refl))).
  eexists. split; [reflexivity|]. destruct (decide (n - 1 <= length t)%nat).
  - rewrite take_app_le in Ha by lia.
    assert (k = length (take (n - 1) t)) as Hkt.
    { unfold k. by rewrite take_app_le by lia. }
    apply arr_app. split; [apply arr_insert_ne; [done|lia]|].
    apply arr_cons. split; [rewrite Hkt; by apply lookup_insert_eq|by intros i c].
  - rewrite take_ge in Ha by (rewrite length_app; simpl; lia).
    rewrite (take_ge t) by lia. apply arr_insert_ne; [done|].
    unfold k. rewrite take_ge by (rewrite length_app; simpl; lia). lia.
Qed.

(** [strncmp], [strncpy] and [safestrcpy] on NUL-terminated strings
    compute their list counterparts; in particular [strncpy] writes exactly
    [n] bytes, padding with NUL, and [safestrcpy] always leaves a
    NUL-terminated prefix of its source. *)
Theorem string_routines_refine (m : mem) (p q d : Z) (s t : list Z) (n : nat) :
  arr m p (s ++ [0]) -> arr m q (t ++ [0]) -> bytes t -> Forall (fun b => b <> 0) t ->
  mapped m d n -> apart d n q t -> (0 < n)%nat ->
  strncmp p q (Z.of_nat n) m = Ret (l_strncmp n s t) m /\
  (exists m', strncpy d q (Z.of_nat n) m = Ret d m' /\ writes m m' d (l_strncpy n t)) /\
  (exists m', safestrcpy d q (Z.of_nat n) m = Ret d m' /\
     arr m' d (l_safestrcpy n t ++ [0])).
Proof.
  intros Hs Ht Hb Hnz Hm Hd Hn. split_and!.
  - unfold strncmp. rewrite Nat2Z.id. by apply strncmp_loop_run.
  - unfold strncpy. rewrite Nat2Z.id.
    destruct (strncpy_loop_run n m d q t) as (m' & Hrun & Hw); [done..|].
    rewrite (bind_eq _ _ _ _ _ Hrun). by exists m'.
  - by apply safestrcpy_run.
Qed.

(** The list counterpart of [strncmp] decides equality of the first [n]
    characters. *)
Lemma l_strncmp_eq n s t :
  l_strncmp n s t = 0 <-> take n (c_str s ++ [0]) = take n (c_str t ++ [0]).
Proof.
  revert s t. induction n as [|n IH]; intros s t; [done|].
  assert (Hnil : forall l : list Z, take n ([] ++ l) = take n l) by done.
  destruct s as [|a s], t as [|b t]; simpl.
  - done.
  - destruct (b =? 0) eqn:E; zbool; simpl; split; intros; simplify_eq; lia || done.
  - destruct (a =? 0) eqn:E; zbool; simpl; split; intros; simplify_eq; try lia; done || idtac.
    all: destruct (a =? 0); simpl in *; lia.
  - destruct (a =? 0) eqn:E; zbool; simpl; unfold ch; simpl.
    + subst. destruct (b =? 0) eqn:E; zbool; simpl; split; intros; simplify_eq; lia || done.
    + destruct (a =? b) eqn:E2; zbool; simpl.
      * subst. rewrite (proj2 (Z.eqb_neq b 0)) by done. simpl. rewrite IH.
        split; [by intros ->|]. by intros [= ->].
      * destruct (b =? 0) eqn:E3; zbool; simpl; split; intros; simplify_eq; lia.
Qed.

(** ** Witnesses *)

(** "abc" at 10, "abd" at 20, eight bytes of room at 30. *)
Definition w_mem : mem := list_to_map
  ([(10, 97); (11, 98); (12, 99); (13, 0); (20, 97); (21, 98); (22, 100); (23, 0)] ++
   map (fun i => (30 + Z.of_nat i, 7)) (seq 0 8)).

Ltac arr_tac :=
  let i := fresh in let b := fresh in let H := fresh in
  intros i b H; repeat (destruct i as [|i]; [vm_compute in H; vm_compute; exact H|]);
  vm_compute in H; discriminate H.

Lemma memmove_correct_witness :
  exists m', memmove 11 10 3 w_mem = Ret 11 m' /\ writes w_mem m' 11 [97; 98; 99].
Proof.
  apply (memmove_correct w_mem 11 10 [97; 98; 99]).
  - arr_tac.
  - repeat constructor; vm_compute; congruence.
  - intros i Hi. simpl in Hi.
    destruct i as [|[|[|i]]]; [eexists; reflexivity..|exfalso; lia].
Defined.

Lemma string_routines_refine_witness :
  strncmp 10 20 8 w_mem = Ret (-1) w_mem /\
  (exists m', strncpy 30 20 8 w_mem = Ret 30 m' /\
     writes w_mem m' 30 [97; 98; 100; 0; 0; 0; 0; 0]) /\
  (exists m', safestrcpy 30 20 8 w_mem = Ret 30 m' /\ arr m' 30 [97; 98; 100; 0]).
Proof.
  apply (string_routines_refine w_mem 10 20 30 [97; 98; 99] [97; 98; 100] 8).
  - arr_tac.
  - arr_tac.
  - repeat constructor; vm_compute; congruence.
  - repeat constructor; vm_compute; congruence.
  - intros i Hi. do 8 (destruct i as [|i]; [eexists; reflexivity|]). exfalso. lia.
  - right. reflexivity.
  - lia.
Defined.
