(* ===== verification/Kalloc.v ===== *)
(** The physical page allocator, FileSystem-RAID/kernel/kalloc.c.

    RAM is a map from the index of a 64-bit word (its address divided by 8) to
    its value; an access to a word outside the map is a fault.  The free list
    is threaded through the first word of each free page, as in the source.
    The addresses that the linker script provides are parameters.  The last
    section shows that the free list and the pages handed out always
    partition the RAM between [end] and [PHYSTOP]. *)
From S2P Require Import Prelude.

(** Symbols defined by kernel.ld ([end] is a Rocq keyword). *)
Class Linker := { kend : Z; etext : Z; trampoline : Z }.

Definition PGSIZE : Z := 4096.
Definition PGSHIFT : Z := 12.
Definition KERNBASE : Z := 2147483648.
Definition PHYSTOP : Z := KERNBASE + 128 * 1024 * 1024.
Definition PGROUNDUP (sz : Z) : Z := Z.land (u64 (sz + PGSIZE - 1)) (Z.lnot (PGSIZE - 1)).
Definition PGROUNDDOWN (a : Z) : Z := Z.land a (Z.lnot (PGSIZE - 1)).

Record phys := Phys {
  words : gmap Z Z;
  freelist : Z;              (** [kmem.freelist], 0 for a null pointer *)
  kmem_locked : bool;        (** [kmem.lock] *)
  kernel_pagetable : Z
}.

Definition set_words (w : gmap Z Z) (s : phys) : phys :=
  Phys w (freelist s) (kmem_locked s) (kernel_pagetable s).
Definition set_freelist (f : Z) (s : phys) : phys :=
  Phys (words s) f (kmem_locked s) (kernel_pagetable s).
Definition set_kmem_locked (b : bool) (s : phys) : phys :=
  Phys (words s) (freelist s) b (kernel_pagetable s).
Definition set_kernel_pagetable (p : Z) (s : phys) : phys :=
  Phys (words s) (freelist s) (kmem_locked s) p.

Abbreviation PM := (M phys) (only parsing).

(** ** Access to RAM *)

Definition load64 (a : Z) : PM Z :=
  fun s =>
    if a mod 8 =? 0
    then match words s !! (a / 8) with Some w => Ret w s | None => Panic "fault" end
    else Panic "fault".
Definition store64 (a w : Z) : PM unit :=
  fun s =>
    if a mod 8 =? 0
    then match words s !! (a / 8) with
         | Some _ => Ret tt (set_words (<[a / 8 := u64 w]> (words s)) s)
         | None => Panic "fault"
         end
    else Panic "fault".

(** [memset] of [n] words at the aligned address [a]: every byte becomes
    [c], so every word becomes [c] repeated eight times. *)
Definition rep8 (c : Z) : Z := u8 c * 72340172838076673.
Fixpoint fill (n : nat) (a w : Z) : PM unit :=
  match n with
  | O => ret tt
  | S n' => store64 a w ;;; fill n' (a + 8) w
  end.
Definition memset_page (a c : Z) : PM unit := fill 512 a (rep8 c).

(** ** Operations *)

Definition acquire_kmem : PM unit :=
  let! l := gets kmem_locked in
  if l then panic "acquire" else modify (set_kmem_locked true).
Definition release_kmem : PM unit :=
  let! l := gets kmem_locked in
  if l then modify (set_kmem_locked false) else panic "release".

Section operations.
Context `{Linker}.

Definition kfree (pa : Z) : PM unit :=
  if negb (pa mod PGSIZE =? 0) || (pa <? kend) || (PHYSTOP <=? pa) then panic "kfree" else
  memset_page pa 1 ;;;
  let r := pa in
  acquire_kmem ;;;
  let! f := gets freelist in
  store64 r f ;;;
  modify (set_freelist r) ;;;
  release_kmem.

Definition freerange (pa_start pa_end : Z) : PM unit :=
  loop (PGROUNDUP pa_start) (fun p =>
    if p + PGSIZE <=? pa_end
    then kfree p ;;; ret (inl (p + PGSIZE))
    else ret (inr tt)).

Definition kinit : PM unit :=
  modify (set_kmem_locked false) ;;;
  freerange kend PHYSTOP.

Definition kalloc : PM Z :=
  acquire_kmem ;;;
  let! r := gets freelist in
  (if negb (r =? 0)
   then (let! nx := load64 r in modify (set_freelist nx))
   else ret tt) ;;;
  release_kmem ;;;
  when (negb (r =? 0)) (memset_page r 5) ;;;
  ret r.

End operations.

(** ** RAM *)

Definition page_aligned (pa : Z) : Prop := pa mod PGSIZE = 0.

(** Word [i] belongs to the page at [pa]. *)
Definition in_page (pa i : Z) : Prop := pa / 8 <= i < pa / 8 + 512.

Definition page_mapped (w : gmap Z Z) (pa : Z) : Prop :=
  forall i, in_page pa i -> is_Some (w !! i).

(** [w'] is [w] with the page at [pa] filled with the word [v]. *)
Definition filled (w w' : gmap Z Z) (pa v : Z) : Prop :=
  forall i, (in_page pa i -> w' !! i = Some v) /\ (~ in_page pa i -> w' !! i = w !! i).

Lemma page_div pa : page_aligned pa -> pa = 8 * (pa / 8) /\ pa / 8 = 512 * (pa / PGSIZE).
Proof.
  unfold page_aligned, PGSIZE. intros Hpa.
  assert (pa = 4096 * (pa / 4096)) as Heq.
  { pose proof (Z.div_mod pa 4096). lia. }
  assert (pa / 8 = 512 * (pa / 4096)) as H8.
  { rewrite Heq at 1. replace (4096 * (pa / 4096)) with (512 * (pa / 4096) * 8) by lia.
    apply Z.div_mul. lia. }
  lia.
Qed.

Lemma in_page_disjoint p q i :
  page_aligned p -> page_aligned q -> in_page p i -> in_page q i -> p = q.
Proof.
  unfold in_page. intros [? ?]%page_div [? ?]%page_div. lia.
Qed.

Lemma in_page_word pa k : page_aligned pa -> 0 <= k < 512 -> in_page pa ((pa + 8 * k) / 8).
Proof.
  intros [Hp _]%page_div Hk. unfold in_page. rewrite Hp at 2 3.
  replace (8 * (pa / 8) + 8 * k) with ((pa / 8 + k) * 8) by lia. rewrite Z.div_mul; lia.
Qed.

Lemma word_mod8 pa k : page_aligned pa -> (pa + 8 * k) mod 8 = 0.
Proof.
  intros [Hp _]%page_div. rewrite Hp.
  replace (8 * (pa / 8) + 8 * k) with ((pa / 8 + k) * 8) by lia. apply Z.mod_mul. lia.
Qed.

Lemma word_div8 pa k : page_aligned pa -> (pa + 8 * k) / 8 = pa / 8 + k.
Proof.
  intros [Hp _]%page_div. rewrite Hp at 1.
  replace (8 * (pa / 8) + 8 * k) with ((pa / 8 + k) * 8) by lia. apply Z.div_mul. lia.
Qed.

Lemma filled_mapped w w' pa v q : filled w w' pa v -> page_mapped w q -> page_mapped w' q.
Proof.
  intros Hf Hm i Hi. destruct (Hf i) as [H1 H2].
  destruct (decide (pa / 8 <= i < pa / 8 + 512)) as [Hin|Hout].
  - rewrite H1 by done. eauto.
  - rewrite H2 by done. by apply Hm.
Qed.

Lemma filled_other w w' pa v q :
  filled w w' pa v -> page_aligned pa -> page_aligned q -> pa <> q ->
  w' !! (q / 8) = w !! (q / 8).
Proof.
  intros Hf Hp Hq Hne. apply Hf. intros Hin. apply Hne.
  apply (in_page_disjoint _ _ (q / 8)); [done..|]. unfold in_page. lia.
Qed.

Lemma set_words_id s : set_words (words s) s = s.
Proof. by destruct s. Qed.

Lemma fill_eq n k (s : phys) pa v :
  page_aligned pa -> 0 <= k -> k + Z.of_nat n <= 512 -> 0 <= v < 2 ^ 64 ->
  page_mapped (words s) pa ->
  exists w', fill n (pa + 8 * k) v s = Ret tt (set_words w' s) /\
    forall i, (pa / 8 + k <= i < pa / 8 + k + Z.of_nat n -> w' !! i = Some v) /\
              (~ (pa / 8 + k <= i < pa / 8 + k + Z.of_nat n) -> w' !! i = words s !! i).
Proof.
  intros Hpa. revert k s. induction n as [|n IH]; intros k s Hk Hn Hv Hm; cbn [fill].
  { exists (words s). rewrite set_words_id. split; [done|]. intros i. split; [lia|done]. }
  destruct (Hm ((pa + 8 * k) / 8)) as [old Hold].
  { apply in_page_word; [done|lia]. }
  set (s1 := set_words (<[pa / 8 + k := v]> (words s)) s).
  destruct (IH (k + 1) s1) as (w' & Hw' & Hspec); [lia|lia|done| |].
  { intros i Hi. simpl. rewrite lookup_insert_is_Some.
    destruct (decide (pa / 8 + k = i)); [auto|right; auto]. }
  exists w'. split.
  - unfold bind, store64. rewrite word_mod8 by done. rewrite Hold. simpl.
    rewrite word_div8 by done. unfold u64. rewrite Z.mod_small by lia.
    fold s1. replace (pa + 8 * k + 8) with (pa + 8 * (k + 1)) by lia. by rewrite Hw'.
  - intros i. destruct (Hspec i) as [H1 H2]. split.
    + intros Hi. destruct (decide (i = pa / 8 + k)) as [->|Hne].
      * rewrite H2 by lia. simpl. by rewrite lookup_insert_eq.
      * apply H1. lia.
    + intros Hi. rewrite H2 by lia. simpl. rewrite lookup_insert_ne by lia. done.
Qed.

Lemma rep8_range c : 0 <= rep8 c < 2 ^ 64.
Proof. unfold rep8. pose proof (u8_range c). lia. Qed.

Lemma memset_page_eq (s : phys) pa c :
  page_aligned pa -> page_mapped (words s) pa ->
  exists w', memset_page pa c s = Ret tt (set_words w' s) /\ filled (words s) w' pa (rep8 c).
Proof.
  intros Hpa Hm. unfold memset_page.
  destruct (fill_eq 512 0 s pa (rep8 c)) as (w' & Hw' & Hspec);
    [done|lia|lia|apply rep8_range|done|].
  exists w'. rewrite Z.mul_0_r, Z.add_0_r in Hw'. split; [done|].
  intros i. destruct (Hspec i) as [H1 H2]. unfold in_page.
  split; intros Hi; [apply H1|apply H2]; lia.
Qed.

Lemma PGROUNDDOWN_eq a : PGROUNDDOWN a = PGSIZE * (a / PGSIZE).
Proof.
  unfold PGROUNDDOWN, PGSIZE. change (4096 - 1) with (Z.ones 12).
  rewrite <- Z.ldiff_land, Z.ldiff_ones_r by lia.
  rewrite Z.shiftl_mul_pow2, Z.shiftr_div_pow2 by lia. change (2 ^ 12) with 4096. lia.
Qed.

Lemma PGROUNDUP_eq a : 0 <= a < 2 ^ 63 -> PGROUNDUP a = PGSIZE * ((a + 4095) / PGSIZE).
Proof.
  intros Ha. unfold PGROUNDUP.
  change (Z.land ?x (Z.lnot (PGSIZE - 1))) with (PGROUNDDOWN x).
  rewrite PGROUNDDOWN_eq. unfold u64. rewrite Z.mod_small; [|unfold PGSIZE; lia].
  do 2 f_equal. unfold PGSIZE. lia.
Qed.

Lemma PGROUNDUP_bounds a : 0 <= a < 2 ^ 63 ->
  page_aligned (PGROUNDUP a) /\ a <= PGROUNDUP a < a + PGSIZE.
Proof.
  intros Ha. rewrite PGROUNDUP_eq by done. unfold page_aligned, PGSIZE. split.
  - rewrite Z.mul_comm. apply Z.mod_mul. lia.
  - pose proof (Z.div_mod (a + 4095) 4096). pose proof (Z.mod_pos_bound (a + 4095) 4096). lia.
Qed.

(** ** The free list *)

Fixpoint free_chain (w : gmap Z Z) (f : Z) (l : list Z) : Prop :=
  match l with
  | [] => f = 0
  | p :: l' => f = p /\ exists nx, w !! (p / 8) = Some nx /\ free_chain w nx l'
  end.

Section invariant.
Context `{Linker}.
Context (Hkend : KERNBASE <= kend <= PHYSTOP).

(** The pages of RAM above the kernel image, lowest first. *)
Definition page_count : Z := (PHYSTOP - PGROUNDUP kend) / PGSIZE.
Definition page_at (i : Z) : Z := PGROUNDUP kend + PGSIZE * i.
Definition all_pages : list Z := page_at <$> seqZ 0 page_count.

Definition ram_page (pa : Z) : Prop := page_aligned pa /\ kend <= pa < PHYSTOP.

(** The state of the allocator when [l] are the free pages, first to be
    handed out first. *)
Record kmem_inv (s : phys) (l : list Z) : Prop := {
  inv_chain : free_chain (words s) (freelist s) l;
  inv_nodup : NoDup l;
  inv_free : forall pa, pa ∈ l -> ram_page pa;
  inv_ram : forall pa, ram_page pa -> page_mapped (words s) pa;
  inv_unlocked : kmem_locked s = false
}.

Lemma ram_page_bounds pa : ram_page pa -> 0 < pa < 2 ^ 63.
Proof. unfold ram_page, PHYSTOP, KERNBASE in *. lia. Qed.

Lemma elem_of_all_pages pa : pa ∈ all_pages <-> ram_page pa.
Proof.
  unfold all_pages, page_at, page_count, ram_page. rewrite list_elem_of_fmap.
  destruct (PGROUNDUP_bounds kend) as [Hal Hb]; [unfold PHYSTOP, KERNBASE in *; lia|].
  unfold page_aligned in *. remember (PGROUNDUP kend) as b.
  assert (PHYSTOP mod PGSIZE = 0) as HP by done. revert Hal Hb HP. unfold PGSIZE. intros.
  pose proof (Z.div_mod b 4096). pose proof (Z.div_mod PHYSTOP 4096).
  assert ((PHYSTOP - b) / 4096 = PHYSTOP / 4096 - b / 4096) as Hdiv.
  { replace (PHYSTOP - b) with ((PHYSTOP / 4096 - b / 4096) * 4096) by lia.
    apply Z.div_mul. lia. }
  rewrite Hdiv. split.
  - intros (i & -> & Hi%elem_of_seqZ).
    replace (b + 4096 * i) with ((b / 4096 + i) * 4096) by lia.
    split; [apply Z.mod_mul; lia|]. lia.
  - intros [Hm Hr]. pose proof (Z.div_mod pa 4096). exists (pa / 4096 - b / 4096).
    split; [lia|]. apply elem_of_seqZ. lia.
Qed.

Lemma NoDup_all_pages : NoDup all_pages.
Proof.
  unfold all_pages, page_at, PGSIZE. apply NoDup_fmap_2; [|apply NoDup_seqZ].
  intros i j Hij. lia.
Qed.

Lemma free_chain_frame w w' f l :
  (forall p, p ∈ l -> w' !! (p / 8) = w !! (p / 8)) ->
  free_chain w f l -> free_chain w' f l.
Proof.
  revert f. induction l as [|p l IH]; intros f Heq; simpl; [done|].
  intros [-> (nx & Hnx & Hc)]. split; [done|]. exists nx. split.
  - rewrite Heq; [done|]. apply elem_of_cons. by left.
  - apply IH; [|done]. intros q Hq. apply Heq. apply elem_of_cons. by right.
Qed.

Lemma free_chain_head w f l : (forall pa, pa ∈ l -> ram_page pa) -> free_chain w f l ->
  (f = 0 <-> l = []).
Proof.
  destruct l as [|p l]; simpl; [naive_solver|]. intros Hram [-> _].
  pose proof (ram_page_bounds p (Hram p (list_elem_of_here _ _))). split; [lia|done].
Qed.

(** Writes that leave the free pages alone keep the invariant. *)
Lemma kmem_inv_write s w' l :
  kmem_inv s l ->
  (forall i, is_Some (words s !! i) -> is_Some (w' !! i)) ->
  (forall p, p ∈ l -> w' !! (p / 8) = words s !! (p / 8)) ->
  kmem_inv (set_words w' s) l.
Proof.
  intros [Hc Hn Hf Hr Hu] Hdom Heq. constructor; simpl; try done.
  - by apply (free_chain_frame (words s)).
  - intros pa Hpa i Hi. by apply Hdom, (Hr pa).
Qed.

Lemma kfree_eq s l pa :
  kmem_inv s l -> ram_page pa -> pa ∉ l ->
  exists s', kfree pa s = Ret tt s' /\ kmem_inv s' (pa :: l) /\
    (forall i, ~ in_page pa i -> words s' !! i = words s !! i) /\
    kernel_pagetable s' = kernel_pagetable s.
Proof.
  intros Hinv Hpa Hni. pose proof (ram_page_bounds pa Hpa) as Hb.
  destruct Hinv as [Hc Hn Hf Hr Hu]. destruct Hpa as [Hal Hrange].
  destruct (memset_page_eq s pa 1) as (w' & Hms & Hfill); [done|by apply Hr|].
  assert (Hword : w' !! (pa / 8) = Some (rep8 1)).
  { apply Hfill. unfold in_page. lia. }
  unfold kfree. unfold page_aligned in Hal. rewrite Hal. simpl.
  rewrite (proj2 (Z.ltb_ge pa kend)) by lia. rewrite (proj2 (Z.leb_gt PHYSTOP pa)) by lia. simpl.
  rewrite (bind_eq _ _ _ _ _ Hms). unfold acquire_kmem, bind, gets, modify, store64. simpl.
  rewrite Hu. simpl.
  assert (pa mod 8 = 0) as Hm8.
  { rewrite <- (Z.add_0_r pa). apply (word_mod8 pa 0). done. }
  rewrite Hm8, Hword. simpl. unfold release_kmem, bind, gets, modify. simpl.
  eexists. split; [done|]. simpl. split; [|split].
  - constructor; simpl.
    + split; [done|]. exists (u64 (freelist s)). rewrite lookup_insert_eq. split; [done|].
      assert (u64 (freelist s) = freelist s) as ->.
      { unfold u64. apply Z.mod_small. destruct l as [|q l]; simpl in Hc; [lia|].
        destruct Hc as [-> _]. pose proof (ram_page_bounds q (Hf q (list_elem_of_here _ _))). lia. }
      apply (free_chain_frame (words s)); [|done]. intros q Hq.
      assert (pa <> q) by (by intros ->).
      destruct (Hf q Hq) as [Hq1 Hq2].
      pose proof (page_div pa Hal). pose proof (page_div q Hq1).
      rewrite lookup_insert_ne by lia. by eapply filled_other.
    + apply list.NoDup_cons. done.
    + intros q [->|Hq]%elem_of_cons; [done|]. by apply Hf.
    + intros q Hq i Hi. rewrite lookup_insert_is_Some.
      destruct (decide (pa / 8 = i)); [by left|right]. split; [done|].
      eapply filled_mapped; eauto.
    + done.
  - intros i Hi. rewrite lookup_insert_ne by (unfold in_page in Hi; lia). by apply Hfill.
  - done.
Qed.

Lemma kalloc_eq s l :
  kmem_inv s l ->
  exists r s', kalloc s = Ret r s' /\ kernel_pagetable s' = kernel_pagetable s /\
    match l with
    | [] => r = 0 /\ words s' = words s /\ kmem_inv s' []
    | pa :: l' => r = pa /\ kmem_inv s' l' /\ filled (words s) (words s') pa (rep8 5)
    end.
Proof.
  intros Hinv. pose proof Hinv as [Hc Hn Hf Hr Hu].
  unfold kalloc, acquire_kmem, bind, gets, modify. rewrite Hu. simpl.
  destruct l as [|pa l]; simpl in Hc.
  - rewrite Hc. simpl. unfold release_kmem, bind, gets, modify. simpl.
    exists 0. eexists. split; [done|]. split; [done|]. split; [done|]. split; [done|].
    constructor; done.
  - destruct Hc as [Heq (nx & Hnx & Hc)]. rewrite Heq.
    pose proof (Hf pa (list_elem_of_here _ _)) as Hpa.
    pose proof (ram_page_bounds pa Hpa) as Hb. destruct Hpa as [Hal Hrange].
    rewrite (proj2 (Z.eqb_neq pa 0)) by lia. simpl. unfold load64. simpl.
    assert (pa mod 8 = 0) as Hm8.
    { rewrite <- (Z.add_0_r pa). apply (word_mod8 pa 0). done. }
    rewrite Hm8, Hnx. simpl. unfold release_kmem, bind, gets, modify. simpl.
    destruct (memset_page_eq (set_freelist nx s) pa 5) as (w' & Hms & Hfill);
      [done|by apply Hr|].
    exists pa, (set_words w' (set_freelist nx s)).
    unfold set_freelist at 1, set_kmem_locked. simpl. rewrite <- Hu.
    change (Phys _ _ _ _) with (set_freelist nx s).
    rewrite Hms. split; [done|]. split; [done|]. split; [done|]. split; [|done].
    apply list.NoDup_cons in Hn as [Hni Hnl].
    constructor; simpl; [|done| | |done].
    + apply (free_chain_frame (words s)); [|done]. intros q Hq.
      assert (pa <> q) by (by intros ->).
      eapply filled_other; [done|done| |done]. apply Hf. apply elem_of_cons. by right.
    + intros q Hq. apply Hf. apply elem_of_cons. by right.
    + intros q Hq i Hi. eapply filled_mapped; [done| |done]. by apply Hr.
Qed.

(** The machine at boot: all RAM backed by memory, an empty free list. *)
Definition boot_ram (s : phys) : Prop :=
  freelist s = 0 /\ forall pa, ram_page pa -> page_mapped (words s) pa.

Lemma page_count_nonneg : 0 <= page_count.
Proof.
  unfold page_count. destruct (PGROUNDUP_bounds kend) as [Hal Hb];
    [unfold PHYSTOP, KERNBASE in *; lia|].
  apply Z.div_pos; [|done]. unfold page_aligned, PHYSTOP, KERNBASE, PGSIZE in *.
  pose proof (Z.div_mod (PGROUNDUP kend) 4096). lia.
Qed.

Lemma page_at_fits k : 0 <= k -> (page_at k + PGSIZE <= PHYSTOP <-> k < page_count).
Proof.
  intros Hk. unfold page_at, page_count.
  destruct (PGROUNDUP_bounds kend) as [Hal Hb]; [unfold PHYSTOP, KERNBASE in *; lia|].
  unfold page_aligned, PHYSTOP, KERNBASE, PGSIZE in *.
  pose proof (Z.div_mod (PGROUNDUP kend) 4096).
  replace (2147483648 + 128 * 1024 * 1024 - PGROUNDUP kend)
    with ((557056 - PGROUNDUP kend / 4096) * 4096) by lia.
  rewrite Z.div_mul by lia. lia.
Qed.

(** [kinit] makes every page between [end] and [PHYSTOP] free, highest
    address first, and leaves the lock released. *)
Lemma kinit_eq s :
  boot_ram s -> wp kinit s (fun _ s' => kmem_inv s' (reverse all_pages)).
Proof.
  intros [Hfl Hram]. unfold kinit. apply wp_bind, wp_modify. unfold freerange.
  pose proof page_count_nonneg as Hcnt.
  set (I := fun p s => exists k, 0 <= k <= page_count /\ p = page_at k /\
     kmem_inv s (reverse (page_at <$> seqZ 0 k))).
  apply (wp_loop I (fun p => PHYSTOP - p + PGSIZE)).
  - exists 0. split; [lia|]. split; [unfold page_at; lia|]. constructor; simpl; try done.
    + apply NoDup_nil_2.
    + intros pa Hpa%not_elem_of_nil. done.
  - destruct (PGROUNDUP_bounds kend); unfold PHYSTOP, KERNBASE, PGSIZE in *; lia.
  - intros p s1 (k & Hk & -> & _). destruct (decide (k = 0)) as [->|Hne].
    + pose proof (page_at_fits 0). unfold page_at, PGSIZE.
      destruct (PGROUNDUP_bounds kend); unfold PHYSTOP, KERNBASE, PGSIZE in *; lia.
    + pose proof (page_at_fits (k - 1)). unfold page_at, PGSIZE in *. lia.
  - intros p s1 (k & Hk & -> & Hinv). destruct (page_at k + PGSIZE <=? PHYSTOP) eqn:Hle; zbool.
    + apply page_at_fits in Hle; [|lia].
      assert (Hin : page_at k ∈ all_pages).
      { unfold all_pages. apply list_elem_of_fmap. exists k. split; [done|].
        apply elem_of_seqZ. lia. }
      destruct (kfree_eq s1 _ (page_at k) Hinv) as (s2 & Heq & Hinv2 & _).
      { by apply elem_of_all_pages. }
      { rewrite elem_of_reverse, list_elem_of_fmap. intros (j & Hj & Hjs%elem_of_seqZ).
        unfold page_at, PGSIZE in Hj. lia. }
      apply wp_bind. eapply wp_eq; [done|]. apply wp_ret. split; [|unfold PGSIZE; lia].
      exists (k + 1). split; [lia|]. split; [unfold page_at; lia|].
      rewrite seqZ_app, fmap_app, reverse_app by lia. done.
    + apply wp_ret. assert (k = page_count) as ->; [|done].
      pose proof (page_at_fits k). lia.
Qed.

(** ** Clients *)

(** What the kernel may do with the allocator: allocate, free a page it was
    given, write to a page it was given.  [own] are the pages handed out and
    not freed since. *)
Inductive kstep : phys * list Z -> phys * list Z -> Prop :=
| kstep_alloc s own r s' :
    kalloc s = Ret r s' -> kstep (s, own) (s', if r =? 0 then own else r :: own)
| kstep_free s own1 pa own2 s' :
    kfree pa s = Ret tt s' -> kstep (s, own1 ++ pa :: own2) (s', own1 ++ own2)
| kstep_write s own w' :
    (forall i, is_Some (words s !! i) -> is_Some (w' !! i)) ->
    (forall i, w' !! i <> words s !! i -> exists pa, pa ∈ own /\ in_page pa i) ->
    kstep (s, own) (set_words w' s, own).

(** The free pages and the pages in use partition the RAM. *)
Definition partition (s : phys) (own : list Z) : Prop :=
  exists l, kmem_inv s l /\ own ++ l ≡ₚ all_pages.

Lemma partition_ram s own pa : partition s own -> pa ∈ own -> ram_page pa.
Proof.
  intros (l & _ & Hp) Hin. apply elem_of_all_pages. rewrite <- Hp, elem_of_app. by left.
Qed.

Lemma partition_step s own s' own' :
  partition s own -> kstep (s, own) (s', own') -> partition s' own'.
Proof.
  intros (l & Hinv & Hp) Hstep.
  assert (Hnd : NoDup (own ++ l)) by (rewrite Hp; apply NoDup_all_pages).
  inversion Hstep as [? ? r ? Heq|? own1 pa own2 ? Heq|? ? w' Hdom Heq]; subst.
  - destruct (kalloc_eq s l Hinv) as (r' & s1 & Heq' & _ & Hl).
    rewrite Heq in Heq'. simplify_eq. destruct l as [|pa l].
    + destruct Hl as (-> & _ & Hinv'). by exists [].
    + destruct Hl as (-> & Hinv' & _). exists l. split; [done|].
      pose proof (ram_page_bounds pa (inv_free _ _ Hinv pa (list_elem_of_here _ _))).
      rewrite (proj2 (Z.eqb_neq pa 0)) by lia. rewrite <- Hp. simpl.
      by rewrite Permutation_middle.
  - destruct (kfree_eq s l pa Hinv) as (s1 & Heq' & Hinv' & _).
    { apply elem_of_all_pages. rewrite <- Hp, !elem_of_app, elem_of_cons. auto. }
    { intros Hin. apply list.NoDup_app in Hnd as (_ & Hdis & _). apply (Hdis pa); [|done].
      rewrite elem_of_app, elem_of_cons. auto. }
    rewrite Heq in Heq'. simplify_eq. exists (pa :: l). split; [done|].
    rewrite <- Hp, <- !app_assoc. apply Permutation_app_head.
    by rewrite <- Permutation_middle.
  - exists l. split; [|done]. apply kmem_inv_write; [done..|].
    intros p Hin. apply dec_stable. intros Hne. destruct (Heq _ Hne) as (pa & Hpa & Hpg).
    assert (pa = p) as ->.
    { apply (in_page_disjoint _ _ (p / 8)); [| |done|unfold in_page; lia].
      - eapply partition_ram; [by exists l|done].
      - by apply (inv_free _ _ Hinv). }
    apply list.NoDup_app in Hnd as (_ & Hdis & _). by apply (Hdis p).
Qed.

Lemma partition_steps s own s' own' :
  partition s own -> rtc kstep (s, own) (s', own') -> partition s' own'.
Proof.
  intros Hp Hs. remember (s, own) as a eqn:Ha. remember (s', own') as b eqn:Hb.
  revert s own s' own' Hp Ha Hb.
  induction Hs as [a|a [s1 own1] c Hstep _ IH]; intros; simplify_eq; [done|].
  eapply IH; [|done..]. by eapply partition_step.
Qed.

(** C39: From [kinit] on, whatever the kernel allocates, frees and writes
    within the pages it holds: [kalloc] never blocks, panics or faults; it
    returns a page of RAM that nobody holds, filled with 5s, or 0 exactly when
    every page is held; and every held page can be freed. *)
Theorem kmem_partition s0 s own :
  boot_ram s0 ->
  (exists s1, kinit s0 = Ret tt s1 /\ rtc kstep (s1, []) (s, own)) ->
  own ⊆ all_pages /\ NoDup own /\
  (exists r s', kalloc s = Ret r s' /\ (r = 0 <-> own ≡ₚ all_pages) /\
     (r <> 0 -> r ∈ all_pages /\ r ∉ own /\
        forall i, in_page r i -> words s' !! i = Some (rep8 5))) /\
  (forall pa, pa ∈ own -> exists s', kfree pa s = Ret tt s').
Proof.
  intros Hboot (s1 & Hk & Hsteps).
  destruct (wp_inv _ _ _ (kinit_eq s0 Hboot)) as ([] & s1' & Hk' & Hinv1).
  rewrite Hk in Hk'. simplify_eq.
  destruct (partition_steps s1' [] s own) as (l & Hinv & Hp); [|done|].
  { eexists. split; [done|]. simpl. apply reverse_Permutation. }
  assert (Hnd : NoDup (own ++ l)) by (rewrite Hp; apply NoDup_all_pages).
  pose proof Hnd as (Hown & Hdis & _)%list.NoDup_app.
  split; [|split; [done|split]].
  - intros pa Hpa. rewrite <- Hp, elem_of_app. by left.
  - destruct (kalloc_eq s l Hinv) as (r & s' & Heq & _ & Hl). exists r, s'.
    split; [done|]. destruct l as [|pa l].
    + destruct Hl as (-> & _). rewrite app_nil_r in Hp. split; [done|]. done.
    + destruct Hl as (-> & _ & Hfill).
      assert (Hpa : ram_page pa) by (apply (inv_free _ _ Hinv), list_elem_of_here).
      pose proof (ram_page_bounds pa Hpa) as Hb. split; [split|].
      * intros ->. lia.
      * intros Heq2. rewrite Heq2 in Hp. apply Permutation_length in Hp.
        rewrite length_app in Hp. simpl in Hp. lia.
      * intros _. split; [by apply elem_of_all_pages|]. split.
        -- intros Hin. apply (Hdis pa); [done|]. apply list_elem_of_here.
        -- intros i Hi. by apply Hfill.
  - intros pa Hpa. destruct (kfree_eq s l pa Hinv) as (s' & Heq & _); [| |by exists s'].
    + apply elem_of_all_pages. rewrite <- Hp, elem_of_app. by left.
    + by apply Hdis.
Qed.

End invariant.

(** ** A machine with five pages of RAM above the kernel *)

Definition words_from (a n : Z) : gmap Z Z :=
  list_to_map ((fun i => (i, 0)) <$> seqZ (a / 8) n).

Lemma words_from_some a n i : a / 8 <= i < a / 8 + n -> is_Some (words_from a n !! i).
Proof.
  intros Hi. unfold words_from. exists 0. apply elem_of_list_to_map_1.
  - rewrite <- list_fmap_compose. apply NoDup_fmap_2; [|apply NoDup_seqZ]. by intros ? ? ?.
  - apply list_elem_of_fmap. exists i. split; [done|]. apply elem_of_seqZ. lia.
Qed.

#[export] Instance small_linker : Linker :=
  {| kend := PHYSTOP - 5 * PGSIZE - 100; etext := KERNBASE + 16 * PGSIZE;
     trampoline := KERNBASE + 15 * PGSIZE |}.
Definition small_boot : phys := Phys (words_from (PHYSTOP - 6 * PGSIZE) 3072) 0 false 0.

Lemma small_boot_ram : boot_ram small_boot.
Proof.
  split; [done|]. intros pa [Hal Hr] i Hi. apply words_from_some.
  destruct (page_div _ Hal) as [Hp1 Hp2].
  change kend with (PHYSTOP - 5 * PGSIZE - 100) in Hr. change PHYSTOP with 2281701376 in *.
  unfold in_page, PGSIZE in *. zlia.
Qed.

Lemma kmem_partition_witness :
  exists s own, own = [PHYSTOP - PGSIZE] /\
  (exists r s', kalloc s = Ret r s' /\ (r = 0 <-> own ≡ₚ all_pages) /\
     (r <> 0 -> r ∈ all_pages /\ r ∉ own /\
        forall i, in_page r i -> words s' !! i = Some (rep8 5))).
Proof.
  exists (final small_boot (kalloc (final small_boot (kinit small_boot)))), [PHYSTOP - PGSIZE].
  split; [done|].
  apply (kmem_partition ltac:(split; vm_compute; congruence) small_boot _
    [PHYSTOP - PGSIZE] small_boot_ram).
  exists (final small_boot (kinit small_boot)). split; [apply run_eq; by vm_compute|].
  eapply rtc_l; [|apply rtc_refl].
  apply (kstep_alloc _ [] (PHYSTOP - PGSIZE)).
  apply run_eq. by vm_compute.
Defined.
