(* ===== verification/Vm.v ===== *)
(** Page tables, FileSystem-RAID/kernel/vm.c.

    Page-table pages live in the RAM of [Kalloc]: a [pagetable_t] is the
    address of a page of 512 entries, and [walk], [mappages] and the rest read
    and write those words.  Bytes of user memory are bytes of those words.
    The kernel side of [copyout], [copyin] and [copyinstr] is a list of bytes:
    the source object, or the bytes that the call has written to its
    destination, in order.  [copyin_ret] and the like return the [int] result
    of the C function next to those bytes. *)
From S2P Require Import Prelude Kalloc.

Definition PTE_V : Z := Z.shiftl 1 0.
Definition PTE_R : Z := Z.shiftl 1 1.
Definition PTE_W : Z := Z.shiftl 1 2.
Definition PTE_X : Z := Z.shiftl 1 3.
Definition PTE_U : Z := Z.shiftl 1 4.
Definition PA2PTE (pa : Z) : Z := u64 (Z.shiftl (Z.shiftr pa 12) 10).
Definition PTE2PA (pte : Z) : Z := u64 (Z.shiftl (Z.shiftr pte 10) 12).
Definition PTE_FLAGS (pte : Z) : Z := Z.land pte 1023.
Definition PXSHIFT (level : Z) : Z := PGSHIFT + 9 * level.
Definition PX (level va : Z) : Z := Z.land (Z.shiftr va (PXSHIFT level)) 511.
Definition MAXVA : Z := Z.shiftl 1 (9 + 9 + 9 + 12 - 1).

Definition UART0 : Z := 268435456.
Definition VIRTIO0 : Z := 268439552.
Definition CLINT : Z := 33554432.
Definition PLIC : Z := 201326592.
Definition TRAMPOLINE : Z := MAXVA - PGSIZE.
Definition TRAPFRAME : Z := TRAMPOLINE - PGSIZE.
Definition KSTACK (p : Z) : Z := TRAMPOLINE - (p + 1) * 2 * PGSIZE.

(** [p & m], as a condition. *)
Definition flag (p m : Z) : bool := negb (Z.land p m =? 0).

(** ** Bytes of RAM *)

Definition get_byte (w k : Z) : Z := Z.land (Z.shiftr w (8 * k)) 255.
Definition put_byte (w k b : Z) : Z :=
  Z.lor (Z.ldiff w (Z.shiftl 255 (8 * k))) (Z.shiftl (u8 b) (8 * k)).
Definition load8 (a : Z) : PM Z :=
  let! w := load64 (a - a mod 8) in ret (get_byte w (a mod 8)).
Definition store8 (a b : Z) : PM unit :=
  let! w := load64 (a - a mod 8) in store64 (a - a mod 8) (put_byte w (a mod 8) b).

(** [memmove] between RAM and a kernel object. *)
Fixpoint write_bytes (a : Z) (l : list Z) : PM unit :=
  match l with
  | [] => ret tt
  | b :: l' => store8 a b ;;; write_bytes (a + 1) l'
  end.
Fixpoint read_bytes (a : Z) (n : nat) : PM (list Z) :=
  match n with
  | O => ret []
  | S n' => let! b := load8 a in let! l := read_bytes (a + 1) n' in ret (b :: l)
  end.

(** [memmove(dst, src, PGSIZE)] of two pages. *)
Fixpoint copy_words (n : nat) (dst src : Z) : PM unit :=
  match n with
  | O => ret tt
  | S n' =>
      let! w := load64 src in
      store64 dst w ;;; copy_words n' (dst + 8) (src + 8)
  end.
Definition copy_page (dst src : Z) : PM unit := copy_words 512 dst src.

(** ** Operations *)

Section operations.
Context `{Linker}.

(** The loop of [walk] over the levels above 0. *)
Fixpoint walk_level (levels : list Z) (pagetable va : Z) (alloc : bool) : PM Z :=
  match levels with
  | [] => ret (pagetable + 8 * PX 0 va)
  | level :: levels' =>
      let pte := pagetable + 8 * PX level va in
      let! w := load64 pte in
      if flag w PTE_V then walk_level levels' (PTE2PA w) va alloc
      else if negb alloc then ret 0
      else
        let! pg := kalloc in
        if pg =? 0 then ret 0
        else
          memset_page pg 0 ;;;
          store64 pte (Z.lor (PA2PTE pg) PTE_V) ;;;
          walk_level levels' pg va alloc
  end.
Definition walk (pagetable va : Z) (alloc : bool) : PM Z :=
  if MAXVA <=? va then panic "walk" else walk_level [2; 1] pagetable va alloc.

Definition walkaddr (pagetable va : Z) : PM Z :=
  if MAXVA <=? va then ret 0 else
  let! pte := walk pagetable va false in
  if pte =? 0 then ret 0 else
  let! w := load64 pte in
  if negb (flag w PTE_V) then ret 0 else
  if negb (flag w PTE_U) then ret 0 else
  ret (PTE2PA w).

Definition mappages (pagetable va size pa perm : Z) : PM Z :=
  let last := PGROUNDDOWN (u64 (va + size - 1)) in
  loop (PGROUNDDOWN va, pa) (fun '(a, pa) =>
    let! pte := walk pagetable a true in
    if pte =? 0 then ret (inr (-1)) else
    let! w := load64 pte in
    if flag w PTE_V then panic "remap" else
    store64 pte (Z.lor (Z.lor (PA2PTE pa) perm) PTE_V) ;;;
    if a =? last then ret (inr 0)
    else ret (inl (u64 (a + PGSIZE), u64 (pa + PGSIZE)))).

Definition kvmmap (va pa sz perm : Z) : PM unit :=
  let! kpt := gets kernel_pagetable in
  let! r := mappages kpt va sz pa perm in
  if negb (r =? 0) then panic "kvmmap" else ret tt.

Definition kvminit : PM unit :=
  let! pg := kalloc in
  modify (set_kernel_pagetable pg) ;;;
  memset_page pg 0 ;;;
  kvmmap UART0 UART0 PGSIZE (Z.lor PTE_R PTE_W) ;;;
  kvmmap VIRTIO0 VIRTIO0 PGSIZE (Z.lor PTE_R PTE_W) ;;;
  kvmmap CLINT CLINT 65536 (Z.lor PTE_R PTE_W) ;;;
  kvmmap PLIC PLIC 4194304 (Z.lor PTE_R PTE_W) ;;;
  kvmmap KERNBASE KERNBASE (u64 (etext - KERNBASE)) (Z.lor PTE_R PTE_X) ;;;
  kvmmap etext etext (u64 (PHYSTOP - etext)) (Z.lor PTE_R PTE_W) ;;;
  kvmmap TRAMPOLINE trampoline PGSIZE (Z.lor PTE_R PTE_X).

Definition kvmpa (va : Z) : PM Z :=
  let off := va mod PGSIZE in
  let! kpt := gets kernel_pagetable in
  let! pte := walk kpt va false in
  if pte =? 0 then panic "kvmpa" else
  let! w := load64 pte in
  if negb (flag w PTE_V) then panic "kvmpa" else
  ret (u64 (PTE2PA w + off)).

Definition uvmunmap (pagetable va npages : Z) (do_free : bool) : PM unit :=
  if negb (va mod PGSIZE =? 0) then panic "uvmunmap: not aligned" else
  loop va (fun a =>
    if a <? u64 (va + npages * PGSIZE) then
      let! pte := walk pagetable a false in
      if pte =? 0 then panic "uvmunmap: walk" else
      let! w := load64 pte in
      if negb (flag w PTE_V) then panic "uvmunmap: not mapped" else
      if PTE_FLAGS w =? PTE_V then panic "uvmunmap: not a leaf" else
      when do_free (kfree (PTE2PA w)) ;;;
      store64 pte 0 ;;;
      ret (inl (u64 (a + PGSIZE)))
    else ret (inr tt)).

Definition uvmcreate : PM Z :=
  let! pagetable := kalloc in
  if pagetable =? 0 then ret 0 else
  memset_page pagetable 0 ;;; ret pagetable.

Definition uvminit (pagetable : Z) (src : list Z) (sz : Z) : PM unit :=
  if PGSIZE <=? sz then panic "inituvm: more than a page" else
  let! mem := kalloc in
  memset_page mem 0 ;;;
  mappages pagetable 0 PGSIZE mem (Z.lor (Z.lor (Z.lor PTE_W PTE_R) PTE_X) PTE_U) ;;;
  write_bytes mem (take (Z.to_nat sz) src).

Definition uvmdealloc (pagetable oldsz newsz : Z) : PM Z :=
  if oldsz <=? newsz then ret oldsz else
  when (PGROUNDUP newsz <? PGROUNDUP oldsz)
    (let npages := s32 ((PGROUNDUP oldsz - PGROUNDUP newsz) / PGSIZE) in
     uvmunmap pagetable (PGROUNDUP newsz) (u64 npages) true) ;;;
  ret newsz.

Definition uvmalloc (pagetable oldsz newsz : Z) : PM Z :=
  if newsz <? oldsz then ret oldsz else
  let oldsz := PGROUNDUP oldsz in
  loop oldsz (fun a =>
    if a <? newsz then
      let! mem := kalloc in
      if mem =? 0 then uvmdealloc pagetable a oldsz ;;; ret (inr 0)
      else
        memset_page mem 0 ;;;
        let! r := mappages pagetable a PGSIZE mem
                    (Z.lor (Z.lor (Z.lor PTE_W PTE_X) PTE_R) PTE_U) in
        if negb (r =? 0) then
          kfree mem ;;; uvmdealloc pagetable a oldsz ;;; ret (inr 0)
        else ret (inl (u64 (a + PGSIZE)))
    else ret (inr newsz)).

(** [depth] bounds the depth of the recursion; an Sv39 table has three
    levels, so 3 is enough for a table whose leaves were removed. *)
Fixpoint freewalk (depth : nat) (pagetable : Z) : PM unit :=
  match depth with
  | O => fun _ => Fuel
  | S depth' =>
      for_all (seqZ 0 512) (fun i =>
        let! pte := load64 (pagetable + 8 * i) in
        if flag pte PTE_V && negb (flag pte (Z.lor (Z.lor PTE_R PTE_W) PTE_X)) then
          freewalk depth' (PTE2PA pte) ;;;
          store64 (pagetable + 8 * i) 0
        else if flag pte PTE_V then panic "freewalk: leaf"
        else ret tt) ;;;
      kfree pagetable
  end.

Definition uvmfree (pagetable sz : Z) : PM unit :=
  when (0 <? sz) (uvmunmap pagetable 0 (PGROUNDUP sz / PGSIZE) true) ;;;
  freewalk 3 pagetable.

(** The loop of [uvmcopy] ends with [None] at its end and with [Some i] at
    the [goto err]. *)
Definition uvmcopy (old new sz : Z) : PM Z :=
  let! r := loop 0 (fun i =>
    if i <? sz then
      let! pte := walk old i false in
      if pte =? 0 then panic "uvmcopy: pte should exist" else
      let! w := load64 pte in
      if negb (flag w PTE_V) then panic "uvmcopy: page not present" else
      let pa := PTE2PA w in
      let flags := PTE_FLAGS w in
      let! mem := kalloc in
      if mem =? 0 then ret (inr (Some i)) else
      copy_page mem pa ;;;
      let! e := mappages new i PGSIZE mem flags in
      if negb (e =? 0) then kfree mem ;;; ret (inr (Some i))
      else ret (inl (u64 (i + PGSIZE)))
    else ret (inr None)) in
  match r with
  | None => ret 0
  | Some i => uvmunmap new 0 (i / PGSIZE) true ;;; ret (-1)
  end.

Definition uvmclear (pagetable va : Z) : PM unit :=
  let! pte := walk pagetable va false in
  if pte =? 0 then panic "uvmclear" else
  let! w := load64 pte in
  store64 pte (Z.ldiff w PTE_U).

Definition copyout (pagetable dstva : Z) (src : list Z) (len : Z) : PM Z :=
  loop (dstva, src, len) (fun '(dstva, src, len) =>
    if 0 <? len then
      let va0 := PGROUNDDOWN dstva in
      let! pa0 := walkaddr pagetable va0 in
      if pa0 =? 0 then ret (inr (-1)) else
      let n := PGSIZE - (dstva - va0) in
      let n := if len <? n then len else n in
      write_bytes (pa0 + (dstva - va0)) (take (Z.to_nat n) src) ;;;
      ret (inl (u64 (va0 + PGSIZE), drop (Z.to_nat n) src, len - n))
    else ret (inr 0)).

Definition copyin (pagetable srcva len : Z) : PM (Z * list Z) :=
  loop (srcva, len, []) (fun '(srcva, len, dst) =>
    if 0 <? len then
      let va0 := PGROUNDDOWN srcva in
      let! pa0 := walkaddr pagetable va0 in
      if pa0 =? 0 then ret (inr (-1, dst)) else
      let n := PGSIZE - (srcva - va0) in
      let n := if len <? n then len else n in
      let! bytes := read_bytes (pa0 + (srcva - va0)) (Z.to_nat n) in
      ret (inl (u64 (va0 + PGSIZE), len - n, dst ++ bytes))
    else ret (inr (0, dst))).

(** The inner loop of [copyinstr]: the bytes it stores, whether it met the
    NUL (then stored too), and what is left of [max]. *)
Fixpoint copyinstr_page (n : nat) (p max : Z) : PM (bool * list Z * Z) :=
  match n with
  | O => ret (false, [], max)
  | S n' =>
      let! c := load8 p in
      if c =? 0 then ret (true, [0], max)
      else
        let! '(got_null, l, max') := copyinstr_page n' (p + 1) (max - 1) in
        ret (got_null, c :: l, max')
  end.
Definition copyinstr (pagetable srcva max : Z) : PM (Z * list Z) :=
  loop (srcva, max, false, []) (fun '(srcva, max, got_null, dst) =>
    if negb got_null && (0 <? max) then
      let va0 := PGROUNDDOWN srcva in
      let! pa0 := walkaddr pagetable va0 in
      if pa0 =? 0 then ret (inr (-1, dst)) else
      let n := PGSIZE - (srcva - va0) in
      let n := if max <? n then max else n in
      let! '(got_null, l, max) := copyinstr_page (Z.to_nat n) (pa0 + (srcva - va0)) max in
      ret (inl (u64 (va0 + PGSIZE), max, got_null, dst ++ l))
    else if got_null then ret (inr (0, dst)) else ret (inr (-1, dst))).

End operations.

(** ** Entries *)

(** The entry for the physical page [pa] with flag bits [perm]. *)
Definition leaf_pte (pa perm : Z) : Z := Z.lor (Z.lor (PA2PTE pa) perm) PTE_V.

Lemma shiftr_small x n : 0 <= n -> 0 <= x < 2 ^ n -> Z.shiftr x n = 0.
Proof. intros Hn Hx. rewrite Z.shiftr_div_pow2 by done. by apply Z.div_small. Qed.

Lemma lor_range x y n : 0 <= n -> 0 <= x < 2 ^ n -> 0 <= y < 2 ^ n -> 0 <= Z.lor x y < 2 ^ n.
Proof.
  intros Hn Hx Hy. split; [apply Z.lor_nonneg; lia|].
  apply Z.nle_gt. intros Hle.
  assert (Z.shiftr (Z.lor x y) n = 0) as H0.
  { rewrite Z.shiftr_lor, (shiftr_small x), (shiftr_small y) by done. done. }
  rewrite Z.shiftr_div_pow2 in H0 by done.
  pose proof (Z.div_str_pos (Z.lor x y) (2 ^ n)). pose proof (Z.pow_pos_nonneg 2 n). lia.
Qed.

Lemma flag_spec p k : 0 <= k -> flag p (Z.shiftl 1 k) = Z.testbit p k.
Proof.
  intros Hk. unfold flag. rewrite Z.shiftl_1_l. destruct (Z.testbit p k) eqn:Ht.
  - apply negb_true_iff, Z.eqb_neq. intros H0.
    assert (Z.testbit (Z.land p (2 ^ k)) k = false) as Hf by (by rewrite H0, Z.bits_0).
    rewrite Z.land_spec, Ht, Z.pow2_bits_true in Hf by done. done.
  - apply negb_false_iff, Z.eqb_eq. apply Z.bits_inj'. intros i Hi.
    rewrite Z.land_spec, Z.bits_0, Z.pow2_bits_eqb by done.
    destruct (Z.eqb_spec k i) as [->|]; [by rewrite Ht|by rewrite andb_false_r].
Qed.

Lemma PA2PTE_eq pa : 0 <= pa < 2 ^ 56 -> PA2PTE pa = Z.shiftl (pa / 4096) 10.
Proof.
  intros Hpa. unfold PA2PTE, u64. rewrite Z.shiftr_div_pow2 by lia. change (2 ^ 12) with 4096.
  apply Z.mod_small. rewrite Z.shiftl_mul_pow2 by lia.
  change (2 ^ 10) with 1024. zlia.
Qed.

Lemma PTE2PA_leaf pa perm :
  page_aligned pa -> 0 <= pa < 2 ^ 56 -> 0 <= perm < 1024 -> PTE2PA (leaf_pte pa perm) = pa.
Proof.
  intros Hal Hpa Hperm. unfold leaf_pte, PTE2PA. rewrite PA2PTE_eq by done.
  rewrite !Z.shiftr_lor, Z.shiftr_shiftl_l by lia.
  rewrite (shiftr_small perm), (shiftr_small PTE_V) by (change PTE_V with 1; lia).
  rewrite !Z.lor_0_r. change (10 - 10) with 0. rewrite Z.shiftl_0_r, Z.shiftl_mul_pow2 by lia.
  unfold page_aligned, PGSIZE in Hal. change (2 ^ 12) with 4096.
  replace (pa / 4096 * 4096) with pa by (pose proof (Z.div_mod pa 4096); lia).
  unfold u64. apply Z.mod_small. lia.
Qed.

Lemma leaf_pte_range pa perm :
  0 <= pa < 2 ^ 56 -> 0 <= perm < 1024 -> 0 <= leaf_pte pa perm < 2 ^ 64.
Proof.
  intros Hpa Hperm. unfold leaf_pte. rewrite PA2PTE_eq by done.
  apply lor_range; [lia| |change PTE_V with 1; lia]. apply lor_range; [lia| |lia].
  rewrite Z.shiftl_mul_pow2 by lia. change (2 ^ 10) with 1024. zlia.
Qed.

Lemma leaf_pte_testbit pa perm k :
  0 <= pa < 2 ^ 56 -> 0 < k < 10 -> Z.testbit (leaf_pte pa perm) k = Z.testbit perm k.
Proof.
  intros Hpa Hk. unfold leaf_pte. rewrite PA2PTE_eq by done.
  rewrite !Z.lor_spec, Z.shiftl_spec_low by lia. unfold PTE_V. rewrite Z.shiftl_1_l.
  rewrite Z.pow2_bits_false by lia. by rewrite orb_false_r.
Qed.

Lemma flag_lor p a b : flag p (Z.lor a b) = flag p a || flag p b.
Proof.
  unfold flag. rewrite Z.land_lor_distr_r, <- negb_andb. f_equal. apply eq_bool_prop_intro.
  rewrite !Is_true_true, andb_true_iff, !Z.eqb_eq. apply Z.lor_eq_0_iff.
Qed.

Lemma leaf_pte_pointer pa : 0 <= pa < 2 ^ 56 ->
  flag (leaf_pte pa 0) (Z.lor (Z.lor PTE_R PTE_W) PTE_X) = false.
Proof.
  intros Hpa. unfold PTE_R, PTE_W, PTE_X. rewrite !flag_lor, !flag_spec, !leaf_pte_testbit by lia. done.
Qed.

Lemma leaf_pte_valid pa perm : flag (leaf_pte pa perm) PTE_V = true.
Proof.
  unfold PTE_V at 1. rewrite flag_spec by lia. unfold leaf_pte.
  rewrite Z.lor_spec. by rewrite orb_true_r.
Qed.

Lemma PX_range level va : 0 <= PX level va < 512.
Proof.
  unfold PX. change 511 with (Z.ones 9). rewrite Z.land_ones by lia.
  apply Z.mod_pos_bound. lia.
Qed.

(** The three indices determine the page number. *)
Lemma PX_inj va va' :
  0 <= va < MAXVA -> 0 <= va' < MAXVA ->
  PX 2 va = PX 2 va' -> PX 1 va = PX 1 va' -> PX 0 va = PX 0 va' ->
  va / PGSIZE = va' / PGSIZE.
Proof.
  unfold PX, PXSHIFT, PGSHIFT, MAXVA, PGSIZE. change (Z.shiftl 1 _) with (2 ^ 38).
  change 511 with (Z.ones 9). rewrite !Z.land_ones, !Z.shiftr_div_pow2 by lia.
  change (2 ^ (12 + 9 * 2)) with (4096 * 262144). change (2 ^ (12 + 9 * 1)) with (4096 * 512).
  change (2 ^ (12 + 9 * 0)) with 4096. change (2 ^ 9) with 512. intros Hva Hva'.
  rewrite <- !Z.div_div by lia. change (2 ^ 38) with (4096 * 67108864) in *. zlia.
Qed.

(** ** The tree of page-table pages *)

Definition entry (w : gmap Z Z) (a i : Z) : option Z := w !! (a / 8 + i).

(** The table that a valid entry points to. *)
Definition child (w : gmap Z Z) (a i : Z) : option Z :=
  match entry w a i with
  | Some e => if flag e PTE_V then Some (PTE2PA e) else None
  | None => None
  end.

(** The table reached from [root] by the indices [path]. *)
Definition tab (w : gmap Z Z) (root : Z) (path : list Z) : option Z :=
  fold_left (fun o i => o ≫= fun a => child w a i) path (Some root).

(** The leaf entry that translates [va], when it is valid. *)
Definition xlate (w : gmap Z Z) (root va : Z) : option Z :=
  match tab w root [PX 2 va; PX 1 va] with
  | Some a =>
      match entry w a (PX 0 va) with
      | Some e => if flag e PTE_V then Some e else None
      | None => None
      end
  | None => None
  end.

(** A path to a page-table page: at most two indices. *)
Definition table_path (p : list Z) : Prop :=
  (length p <= 2)%nat /\ Forall (fun i => 0 <= i < 512) p.

Lemma tab_snoc w r p i : tab w r (p ++ [i]) = tab w r p ≫= fun a => child w a i.
Proof. unfold tab. by rewrite fold_left_app. Qed.

Lemma table_path_prefix p q : p `prefix_of` q -> table_path q -> table_path p.
Proof.
  intros [k ->] [Hl Hf]. rewrite length_app in Hl. apply Forall_app in Hf as [Hf _].
  split; [lia|done].
Qed.

(** Tables whose path only reads entries that did not change did not move. *)
Lemma tab_frame w w' r q :
  (forall q' j b, q' ++ [j] `prefix_of` q -> tab w r q' = Some b ->
     child w' b j = child w b j) ->
  tab w' r q = tab w r q.
Proof.
  induction q as [|j q IH] using rev_ind; intros Heq; [done|].
  rewrite !tab_snoc, IH.
  - destruct (tab w r q) as [b|] eqn:Hb; [|done]. simpl. by apply (Heq q).
  - intros q' j' b Hpre. apply Heq. by apply prefix_app_r.
Qed.

Section tables.
Context `{Linker}.
Context (Hkend : KERNBASE <= kend <= PHYSTOP).

(** The page table at [r] is well formed and [l] are the free pages: its
    tables are pages of RAM that are not free, no two paths share a table, and
    the entries above the last level point to tables, and the root's entries
    from [MAXVA] on are empty. *)
Record pt_inv (s : phys) (r : Z) (l : list Z) : Prop := {
  pi_kmem : kmem_inv s l;
  pi_ram : forall p a, table_path p -> tab (words s) r p = Some a -> ram_page a /\ a ∉ l;
  pi_inj : forall p q a, table_path p -> table_path q ->
    tab (words s) r p = Some a -> tab (words s) r q = Some a -> p = q;
  pi_ptr : forall p a i e, table_path p -> length p <> 2%nat -> tab (words s) r p = Some a ->
    0 <= i < 512 -> entry (words s) a i = Some e -> flag e PTE_V = true -> flag e (Z.lor (Z.lor PTE_R PTE_W) PTE_X) = false;
  pi_low : forall i, 256 <= i < 512 -> child (words s) r i = None
}.

Lemma ram_page_high pa : ram_page pa -> page_aligned pa /\ 0 < pa < 2 ^ 56.
Proof. intros [Hal Hr]. split; [done|]. unfold PHYSTOP, KERNBASE in *. lia. Qed.

Lemma load64_entry s a i e :
  page_aligned a -> entry (words s) a i = Some e -> load64 (a + 8 * i) s = Ret e s.
Proof.
  intros Ha He. unfold load64. rewrite word_mod8, word_div8 by done. simpl.
  unfold entry in He. by rewrite He.
Qed.

Lemma store64_entry s a i e v :
  page_aligned a -> entry (words s) a i = Some e -> 0 <= v < 2 ^ 64 ->
  store64 (a + 8 * i) v s = Ret tt (set_words (<[a / 8 + i := v]> (words s)) s).
Proof.
  intros Ha He Hv. unfold store64. rewrite word_mod8, word_div8 by done. simpl.
  unfold entry in He. rewrite He. unfold u64. by rewrite Z.mod_small by done.
Qed.

Lemma pt_entry s r l p a i :
  pt_inv s r l -> table_path p -> tab (words s) r p = Some a -> 0 <= i < 512 ->
  exists e, entry (words s) a i = Some e.
Proof.
  intros Hpt Hp Ha Hi. destruct (pi_ram _ _ _ Hpt p a Hp Ha) as [Hram _].
  destruct (inv_ram _ _ (pi_kmem _ _ _ Hpt) a Hram (a / 8 + i)) as [e He]; [|by exists e].
  unfold in_page. lia.
Qed.

(** Entries of different tables, or different entries, are different words. *)
Lemma entry_word s r l p a i q b j :
  pt_inv s r l -> table_path p -> table_path q ->
  tab (words s) r p = Some a -> tab (words s) r q = Some b ->
  0 <= i < 512 -> 0 <= j < 512 -> a / 8 + i = b / 8 + j -> p = q /\ i = j.
Proof.
  intros Hpt Hp Hq Ha Hb Hi Hj Heq.
  destruct (pi_ram _ _ _ Hpt p a Hp Ha) as [[Hala _] _].
  destruct (pi_ram _ _ _ Hpt q b Hq Hb) as [[Halb _] _].
  assert (a = b) as ->.
  { apply (in_page_disjoint _ _ (a / 8 + i)); [done..| |]; unfold in_page; lia. }
  split; [by apply (pi_inj _ _ _ Hpt p q b)|lia].
Qed.

(** *** Storing a leaf entry *)

Lemma tab_leaf_store s r l p a i v q :
  pt_inv s r l -> table_path p -> length p = 2%nat -> tab (words s) r p = Some a ->
  0 <= i < 512 -> table_path q ->
  tab (<[a / 8 + i := v]> (words s)) r q = tab (words s) r q.
Proof.
  intros Hpt Hp Hlen Ha Hi Hq. apply tab_frame. intros q' j b Hpre Hb.
  pose proof (table_path_prefix _ _ Hpre Hq) as [Hl Hf].
  rewrite length_app in Hl. apply Forall_app in Hf as [Hf Hj].
  inversion Hj; subst. simpl in Hl.
  unfold child, entry. rewrite lookup_insert_ne; [done|]. intros Heq.
  destruct (entry_word s r l p a i q' b j) as [-> _]; try done; [|lia].
  split; [lia|done].
Qed.

Lemma pt_inv_leaf_store s r l p a i v :
  pt_inv s r l -> table_path p -> length p = 2%nat -> tab (words s) r p = Some a ->
  0 <= i < 512 ->
  pt_inv (set_words (<[a / 8 + i := v]> (words s)) s) r l.
Proof.
  intros Hpt Hp Hlen Ha Hi. destruct (pi_ram _ _ _ Hpt p a Hp Ha) as [[Hal Hr] Hnl].
  constructor.
  - apply kmem_inv_write; [by apply (pi_kmem _ _ _ Hpt)| |].
    + intros k Hk. rewrite lookup_insert_is_Some. destruct (decide (a / 8 + i = k)); auto.
    + intros q Hq. rewrite lookup_insert_ne; [done|]. intros Heq.
      destruct (inv_free _ _ (pi_kmem _ _ _ Hpt) q Hq) as [Halq _].
      apply Hnl. assert (a = q) as ->; [|done].
      apply (in_page_disjoint _ _ (q / 8)); [done..| |]; unfold in_page; lia.
  - intros q b Hq. simpl. rewrite (tab_leaf_store s r l p a) by done. by apply (pi_ram _ _ _ Hpt).
  - intros q1 q2 b Hq1 Hq2. simpl. rewrite !(tab_leaf_store s r l p a) by done.
    by apply (pi_inj _ _ _ Hpt).
  - intros q b j e Hq Hlq. simpl. rewrite (tab_leaf_store s r l p a) by done. intros Hb Hj.
    unfold entry. rewrite lookup_insert_ne; [by apply (pi_ptr _ _ _ Hpt q)|]. intros Heq.
    by destruct (entry_word s r l p a i q b j) as [-> _].
  - intros j Hj. simpl. pose proof (pi_low _ _ _ Hpt j Hj) as Hlow.
    pose proof (tab_leaf_store s r l p a i v [j] Hpt Hp Hlen Ha Hi) as Htl. cbn in Htl, Hlow.
    rewrite Htl; [done|]. split; [simpl; lia|]. constructor; [lia|done].
Qed.

(** *** Adding a table *)

(** The memory after a fresh page [pg] was cleared and entry [i] of the table
    [a] pointed to it. *)
Definition linked (w w' : gmap Z Z) (a i pg : Z) : Prop :=
  forall k,
    (in_page pg k -> w' !! k = Some 0) /\
    (k = a / 8 + i -> w' !! k = Some (leaf_pte pg 0)) /\
    (~ in_page pg k -> k <> a / 8 + i -> w' !! k = w !! k).

Lemma linked_child w w' a i pg :
  linked w w' a i pg -> page_aligned pg -> 0 <= pg < 2 ^ 56 -> child w' a i = Some pg.
Proof.
  intros Hl Hal Hpg. unfold child, entry.
  rewrite (proj1 (proj2 (Hl (a / 8 + i))) eq_refl), leaf_pte_valid, PTE2PA_leaf by first [done|lia].
  done.
Qed.

Lemma linked_fresh w w' a i pg j :
  linked w w' a i pg -> 0 <= j < 512 -> entry w' pg j = Some 0.
Proof. intros Hl Hj. apply Hl. unfold in_page. lia. Qed.

Lemma tab_linked s w' r l p a i pg q :
  pt_inv s r (pg :: l) -> linked (words s) w' a i pg ->
  table_path p -> length p <> 2%nat -> tab (words s) r p = Some a -> 0 <= i < 512 ->
  child (words s) a i = None -> table_path q ->
  tab w' r q = if decide (q = p ++ [i]) then Some pg else tab (words s) r q.
Proof.
  intros Hpt Hl Hp Hlen Ha Hi Hnone Hq.
  assert (Hram : ram_page pg) by (apply (inv_free _ _ (pi_kmem _ _ _ Hpt)), list_elem_of_here).
  destruct (ram_page_high pg Hram) as [Halg Hbg].
  assert (Hsame : forall q' j b, table_path (q' ++ [j]) -> q' ++ [j] <> p ++ [i] ->
    tab (words s) r q' = Some b -> child w' b j = child (words s) b j).
  { intros q' j b [Hlq Hfq] Hne Hb. rewrite length_app in Hlq.
    apply Forall_app in Hfq as [Hfq Hj]. inversion Hj; subst. simpl in Hlq.
    assert (table_path q') by (split; [lia|done]).
    unfold child, entry. destruct (Hl (b / 8 + j)) as (_ & _ & ->); [done| |].
    - intros Hin. destruct (pi_ram _ _ _ Hpt q' b) as [[Halb _] Hnb]; [done..|].
      apply Hnb. assert (b = pg) as ->; [|apply list_elem_of_here].
      apply (in_page_disjoint _ _ (b / 8 + j)); [done..| |done]. unfold in_page. lia.
    - intros Heq. destruct (entry_word s r (pg :: l) q' b j p a i) as [-> ->]; done. }
  assert (Hbefore : forall q0, table_path q0 -> (forall k, q0 <> p ++ [i] ++ k) ->
    tab w' r q0 = tab (words s) r q0).
  { intros q0 Hq0 Hnp. apply tab_frame. intros q' j b Hpre Hb. apply (Hsame q'); [| |done].
    - by apply (table_path_prefix _ q0).
    - intros Heq. rewrite Heq in Hpre. destruct Hpre as [k ->]. apply (Hnp k).
      by rewrite <- app_assoc. }
  assert (Hnew : tab w' r (p ++ [i]) = Some pg).
  { rewrite tab_snoc, Hbefore; [|done|].
    - rewrite Ha. simpl. by eapply linked_child; [done..|lia].
    - intros k Heq. apply (f_equal length) in Heq. rewrite !length_app in Heq. simpl in Heq. lia. }
  destruct (decide (q = p ++ [i])) as [->|Hne]; [done|].
  destruct (decide (p ++ [i] `prefix_of` q)) as [[k Hk]|Hnpre].
  - destruct Hq as [Hlq Hfq]. subst q.
    destruct k as [|j k]; [by rewrite app_nil_r in Hne|].
    assert (p = [] /\ k = []) as [-> ->].
    { rewrite !length_app in Hlq. simpl in Hlq.
      destruct p, k; simpl in *; try done; lia. }
    change (([] ++ [i]) ++ [j]) with ([i] ++ [j]). rewrite !tab_snoc.
    change [i] with ([] ++ [i]) at 1. rewrite Hnew. simpl.
    replace (tab (words s) r [i]) with (@None Z) by (assert (Some r = Some a) as [= ->] by exact Ha; symmetry; exact Hnone). simpl. unfold child. rewrite (linked_fresh _ _ _ _ _ j Hl); [done|].
    simpl in Hfq. inversion Hfq as [|? ? _ Hfj]; subst. by inversion Hfj.
  - apply Hbefore; [done|]. intros k ->. apply Hnpre. exists k. by rewrite <- app_assoc.
Qed.

Lemma pt_inv_linked s s' r l p a i pg :
  pt_inv s r (pg :: l) -> linked (words s) (words s') a i pg -> kmem_inv s' l ->
  table_path p -> length p <> 2%nat -> tab (words s) r p = Some a -> 0 <= i < 512 ->
  child (words s) a i = None -> (p = [] -> i < 256) ->
  pt_inv s' r l.
Proof.
  intros Hpt Hl Hk Hp Hlen Ha Hi Hnone Hlo.
  assert (Hram : ram_page pg) by (apply (inv_free _ _ (pi_kmem _ _ _ Hpt)), list_elem_of_here).
  pose proof (inv_nodup _ _ (pi_kmem _ _ _ Hpt)) as [Hnpg _]%list.NoDup_cons.
  assert (Hold : forall q b, table_path q -> tab (words s) r q = Some b ->
    ram_page b /\ b ∉ l /\ b <> pg).
  { intros q b Hq Hb. destruct (pi_ram _ _ _ Hpt q b Hq Hb) as [Hr Hn].
    apply not_elem_of_cons in Hn as [? ?]. done. }
  constructor; [done| | | |].
  - intros q b Hq. rewrite (tab_linked s (words s') r l p a i pg) by done. case_decide as Hd.
    + intros [= <-]. done.
    + intros Hb. destruct (Hold q b Hq Hb) as (? & ? & _). done.
  - intros q1 q2 b Hq1 Hq2. rewrite !(tab_linked s (words s') r l p a i pg) by done. repeat case_decide; subst; try done.
    + intros [= <-] Hb. by destruct (Hold _ _ Hq2 Hb) as (_ & _ & []).
    + intros Hb [= <-]. by destruct (Hold _ _ Hq1 Hb) as (_ & _ & []).
    + by apply (pi_inj _ _ _ Hpt).
  - intros q b j e Hq Hlq. rewrite (tab_linked s (words s') r l p a i pg) by done. case_decide as Hd.
    { intros [= <-] Hj. rewrite (linked_fresh _ _ _ _ _ j Hl) by done. by intros [= <-]. }
    intros Hb Hj. destruct (decide (b / 8 + j = a / 8 + i)) as [Heq|Hne].
    + destruct (entry_word s r (pg :: l) q b j p a i) as [-> ->]; try done.
      unfold entry. rewrite Heq, (proj1 (proj2 (Hl _)) eq_refl). intros [= <-] _. apply leaf_pte_pointer. by apply ram_page_high in Hram as [_ ?]; lia.
    + unfold entry. rewrite (proj2 (proj2 (Hl _))); [by apply (pi_ptr _ _ _ Hpt q)| |done].
      intros Hin. destruct (Hold q b Hq Hb) as ([Halb _] & _ & Hnb). apply Hnb.
      apply (in_page_disjoint _ _ (b / 8 + j)); [done|apply Hram| |done]. unfold in_page. lia.
  - intros j Hj. pose proof (tab_linked s (words s') r l p a i pg [j] Hpt Hl Hp Hlen Ha Hi Hnone) as Htl.
    cbn in Htl. rewrite Htl; [|split; [simpl; lia|constructor; [lia|done]]].
    rewrite decide_False; [by apply (pi_low _ _ _ Hpt)|]. intros E. destruct p as [|k p].
    + injection E as ->. specialize (Hlo eq_refl). lia.
    + apply (f_equal length) in E. rewrite length_app in E. simpl in E. lia.
Qed.

(** A new table translates nothing. *)
Lemma xlate_linked s w' r l p a i pg va :
  pt_inv s r (pg :: l) -> linked (words s) w' a i pg ->
  table_path p -> length p <> 2%nat -> tab (words s) r p = Some a -> 0 <= i < 512 ->
  child (words s) a i = None ->
  xlate w' r va = xlate (words s) r va.
Proof.
  intros Hpt Hl Hp Hlen Ha Hi Hnone. unfold xlate.
  pose proof (PX_range 0 va) as Hr0.
  assert (Hpath : table_path [PX 2 va; PX 1 va]).
  { split; [simpl; lia|]. repeat constructor; apply PX_range. }
  rewrite (tab_linked s w' r l p a i pg) by done. case_decide as Hd.
  - rewrite (linked_fresh _ _ _ _ _ _ Hl) by done. simpl.
    rewrite Hd, tab_snoc, Ha. simpl. by rewrite Hnone.
  - destruct (tab (words s) r [PX 2 va; PX 1 va]) as [b|] eqn:Hb; [|done].
    unfold entry. destruct (Hl (b / 8 + PX 0 va)) as (_ & _ & ->); [done| |].
    + intros Hin. destruct (pi_ram _ _ _ Hpt _ _ Hpath Hb) as [[Halb _] Hnb].
      apply Hnb. assert (b = pg) as ->; [|apply list_elem_of_here].
      destruct (inv_free _ _ (pi_kmem _ _ _ Hpt) pg) as [Halg _]; [apply list_elem_of_here|].
      apply (in_page_disjoint _ _ (b / 8 + PX 0 va)); [done..| |done]. unfold in_page. lia.
    + intros Heq.
      destruct (entry_word s r (pg :: l) _ b (PX 0 va) p a i Hpt Hpath Hp Hb Ha Hr0 Hi Heq)
        as [<- _]. done.
Qed.

(** *** [walk] *)

Lemma child_cases s r l p a i :
  pt_inv s r l -> table_path p -> tab (words s) r p = Some a -> 0 <= i < 512 ->
  exists e, load64 (a + 8 * i) s = Ret e s /\ entry (words s) a i = Some e /\
    child (words s) a i = if flag e PTE_V then Some (PTE2PA e) else None.
Proof.
  intros Hpt Hp Ha Hi. destruct (pt_entry s r l p a i) as [e He]; [done..|].
  destruct (pi_ram _ _ _ Hpt p a Hp Ha) as [[Hal _] _].
  exists e. split; [by apply load64_entry|]. split; [done|]. unfold child. by rewrite He.
Qed.

Lemma fold_left_none {A B} (f : A -> B -> option A) (q : list B) :
  fold_left (fun o i => o ≫= fun a => f a i) q None = None.
Proof. induction q; simpl; auto. Qed.

Lemma tab_cons_child w r p a i q :
  tab w r p = Some a ->
  tab w r (p ++ i :: q) =
    match child w a i with
    | Some c => tab w r ((p ++ [i]) ++ q)
    | None => None
    end.
Proof.
  intros Ha. replace (p ++ i :: q) with ((p ++ [i]) ++ q) by (by rewrite <- app_assoc).
  destruct (child w a i) eqn:Hc; [done|].
  unfold tab. rewrite fold_left_app. fold (tab w r (p ++ [i])).
  rewrite tab_snoc, Ha. simpl. rewrite Hc. apply fold_left_none.
Qed.

Lemma walk_level_lookup s r l va levels p a :
  pt_inv s r l -> table_path p -> (length p + length levels <= 2)%nat ->
  tab (words s) r p = Some a ->
  walk_level levels a va false s =
    Ret (match tab (words s) r (p ++ ((fun lv => PX lv va) <$> levels)) with
         | Some b => b + 8 * PX 0 va
         | None => 0
         end) s.
Proof.
  intros Hpt. revert p a. induction levels as [|lv levels IH]; intros p a Hp Hlen Ha; simpl.
  { by rewrite app_nil_r, Ha. }
  destruct (child_cases s r l p a (PX lv va)) as (e & Hld & He & Hc);
    [done..|apply PX_range|].
  rewrite (bind_eq _ _ _ _ _ Hld). rewrite (tab_cons_child _ _ _ a) by done. rewrite Hc.
  destruct (flag e PTE_V) eqn:Hf; [|done].
  simpl in Hlen. apply IH.
  - destruct Hp as [_ Hfp]. split; [rewrite length_app; simpl; lia|].
    apply Forall_app. split; [done|]. constructor; [apply PX_range|done].
  - rewrite length_app. simpl. lia.
  - rewrite tab_snoc, Ha. done.
Qed.

(** Entry [i] of the table [a] is empty: what allocating the table does. *)
Lemma table_alloc s r l p a i :
  pt_inv s r l -> table_path p -> length p <> 2%nat -> tab (words s) r p = Some a ->
  0 <= i < 512 -> child (words s) a i = None ->
  exists r0 s1, kalloc s = Ret r0 s1 /\
    match l with
    | [] => r0 = 0 /\ words s1 = words s /\ pt_inv s1 r []
    | pg :: l' =>
        r0 = pg /\ pg <> 0 /\
        exists s2,
          (memset_page pg 0 ;;; store64 (a + 8 * i) (Z.lor (PA2PTE pg) PTE_V)) s1 = Ret tt s2 /\
          linked (words s) (words s2) a i pg /\ kmem_inv s2 l'
    end.
Proof.
  intros Hpt Hp Hlen Ha Hi Hnone. pose proof (pi_kmem _ _ _ Hpt) as Hk.
  destruct (kalloc_eq Hkend s l Hk) as (r0 & s1 & Heq & _ & Hl).
  exists r0, s1. split; [done|]. destruct l as [|pg l'].
  { destruct Hl as (-> & Hw & Hk1). split; [done|]. split; [done|].
    constructor; [done| | | |]; rewrite Hw; apply Hpt. }
  destruct Hl as (-> & Hk1 & Hfill).
  assert (Hram : ram_page pg) by (apply (inv_free _ _ Hk), list_elem_of_here).
  destruct (ram_page_high pg Hram) as [Halg Hbg].
  destruct (pi_ram _ _ _ Hpt p a Hp Ha) as [[Hala Hra] Hna].
  pose proof (inv_nodup _ _ Hk) as [Hnpg _]%list.NoDup_cons.
  split; [done|]. split; [lia|].
  destruct (memset_page_eq s1 pg 0) as (w2 & Hms & Hfill2);
    [done|by apply (inv_ram _ _ Hk1)|].
  assert (Hnin : ~ in_page pg (a / 8 + i)).
  { intros Hin. apply Hna. assert (a = pg) as ->; [|apply list_elem_of_here].
    apply (in_page_disjoint _ _ (a / 8 + i)); [done..| |done]. unfold in_page. lia. }
  destruct (pt_entry s r (pg :: l') p a i) as [e He]; [done..|].
  assert (He2 : entry w2 a i = Some e).
  { unfold entry in *. rewrite (proj2 (Hfill2 _)), (proj2 (Hfill _)) by done. done. }
  rewrite (bind_eq _ _ _ _ _ Hms).
  replace (Z.lor (PA2PTE pg) PTE_V) with (leaf_pte pg 0)
    by (unfold leaf_pte; by rewrite Z.lor_0_r).
  rewrite (store64_entry (set_words w2 s1) a i e) by first [done|apply leaf_pte_range; lia].
  eexists. split; [done|]. simpl.
  assert (Hkeep : forall q, q ∈ l' -> w2 !! (q / 8) = words s1 !! (q / 8)).
  { intros q Hq. destruct (inv_free _ _ Hk1 q Hq) as [Halq _].
    apply (filled_other _ _ pg (rep8 0)); try done. by intros ->. }
  split.
  - intros k. split; [|split].
    + intros Hin. rewrite lookup_insert_ne by (by intros <-). by apply Hfill2.
    + intros ->. by rewrite lookup_insert_eq.
    + intros Hout Hne. rewrite lookup_insert_ne by done.
      rewrite (proj2 (Hfill2 _)), (proj2 (Hfill _)) by done. done.
  - change (set_words (<[a / 8 + i := leaf_pte pg 0]> w2) (set_words w2 s1))
      with (set_words (<[a / 8 + i := leaf_pte pg 0]> w2) s1).
    apply kmem_inv_write; [done| |].
    + intros k Hks. rewrite lookup_insert_is_Some.
      destruct (decide (a / 8 + i = k)); [by left|right]. split; [done|].
      destruct (Hfill2 k) as [H1 H2]. destruct (decide (pg / 8 <= k < pg / 8 + 512)).
      * rewrite H1 by done. eauto.
      * by rewrite H2.
    + intros q Hq. rewrite lookup_insert_ne; [by apply Hkeep|]. intros Heq2.
      destruct (inv_free _ _ Hk1 q Hq) as [Halq _].
      apply Hna. assert (a = q) as ->; [|apply elem_of_cons; by right].
      apply (in_page_disjoint _ _ (q / 8)); [done..| |]; unfold in_page; lia.
Qed.

(** New tables come from the free pages, all the pages taken are tables now, no
    table goes, and only words of tables and of pages that were free change. *)
Record walk_frame (s : phys) (r : Z) (l : list Z) (s' : phys) (l' : list Z) : Prop := {
  wf_free : forall pa, pa ∈ l' -> pa ∈ l;
  wf_tab : forall q b, table_path q -> tab (words s') r q = Some b -> tab (words s) r q = Some b \/ b ∈ l;
  wf_kept : forall q b, table_path q -> tab (words s) r q = Some b -> tab (words s') r q = Some b;
  wf_used : forall pa, pa ∈ l -> pa ∈ l' \/ exists q, table_path q /\ tab (words s') r q = Some pa;
  wf_words : forall i, (forall pa, pa ∈ l -> ~ in_page pa i) ->
    (forall q b, table_path q -> tab (words s) r q = Some b -> ~ in_page b i) ->
    words s' !! i = words s !! i
}.

Lemma walk_frame_same s s' r l : words s' = words s -> walk_frame s r l s' l.
Proof. intros Hw. constructor; [done|rewrite Hw; auto..]. Qed.

Lemma walk_frame_trans s1 s2 s3 r l1 l2 l3 :
  walk_frame s1 r l1 s2 l2 -> walk_frame s2 r l2 s3 l3 -> walk_frame s1 r l1 s3 l3.
Proof.
  intros [F1 T1 K1 U1 W1] [F2 T2 K2 U2 W2]. constructor.
  - auto.
  - intros q b Hq Hb. destruct (T2 q b Hq Hb) as [Ht|Ht]; auto.
  - auto.
  - intros q Hq. destruct (U1 q Hq) as [Hl|(p & Hp & Hb)]; [by apply U2|right; eauto].
  - intros i Hl Ht. rewrite W2; [by apply W1|auto|].
    intros q b Hq Hb. destruct (T1 q b Hq Hb) as [Hs|Hs]; eauto.
Qed.

Lemma walk_frame_linked s s' r l p a i pg :
  pt_inv s r (pg :: l) -> linked (words s) (words s') a i pg ->
  table_path p -> length p <> 2%nat -> tab (words s) r p = Some a -> 0 <= i < 512 ->
  child (words s) a i = None -> walk_frame s r (pg :: l) s' l.
Proof.
  intros Hpt Hl Hp Hlen Ha Hi Hnone. constructor.
  - intros q Hq. by apply list_elem_of_further.
  - intros q b Hq. rewrite (tab_linked s (words s') r l p a i pg) by done.
    destruct (decide (q = p ++ [i])); [|auto]. intros [= <-]. right. apply list_elem_of_here.
  - intros q b Hq Hb. rewrite (tab_linked s (words s') r l p a i pg) by done.
    destruct (decide (q = p ++ [i])) as [->|]; [|done].
    rewrite tab_snoc, Ha in Hb. simpl in Hb. by rewrite Hnone in Hb.
  - intros q [->|Hq]%elem_of_cons; [right|by left]. exists (p ++ [i]).
    assert (Hpi : table_path (p ++ [i])).
    { destruct Hp as [Hl2 Hf]. split; [rewrite length_app; simpl; lia|]. apply Forall_app. split; [done|by constructor]. }
    split; [done|]. rewrite (tab_linked s (words s') r l p a i pg) by done. by rewrite decide_True.
  - intros j Hfree Htab. destruct (Hl j) as (_ & _ & Hj). apply Hj; [apply Hfree, list_elem_of_here|].
    intros ->. apply (Htab p a Hp Ha). unfold in_page. lia.
Qed.

Lemma walk_frame_leaf s r l p a i v :
  pt_inv s r l -> table_path p -> length p = 2%nat -> tab (words s) r p = Some a -> 0 <= i < 512 ->
  walk_frame s r l (set_words (<[a / 8 + i := v]> (words s)) s) l.
Proof.
  intros Hpt Hp Hlen Ha Hi. constructor; cbn [words set_words]; [done| | |by left|].
  - intros q b Hq. rewrite (tab_leaf_store s r l p a) by done. auto.
  - intros q b Hq. by rewrite (tab_leaf_store s r l p a).
  - intros j _ Htab. rewrite lookup_insert_ne; [done|]. intros <-.
    apply (Htab p a Hp Ha). unfold in_page. lia.
Qed.

(** What the loop of [walk] guarantees when it may allocate: it translates
    nothing new; it fails only when no page is free. *)
Definition walked (s : phys) (r : Z) (l : list Z) (va : Z) (path : list Z) (pte : Z) (s' : phys) : Prop :=
  exists l', pt_inv s' r l' /\ walk_frame s r l s' l' /\
    (forall v, xlate (words s') r v = xlate (words s) r v) /\
    ((pte = 0 /\ l' = []) \/
     exists b, tab (words s') r path = Some b /\ pte = b + 8 * PX 0 va).

Lemma walk_level_alloc va levels s r l p a :
  pt_inv s r l -> table_path p -> (length p + length levels <= 2)%nat ->
  tab (words s) r p = Some a -> (p = [] -> forall lv, head levels = Some lv -> PX lv va < 256) ->
  wp (walk_level levels a va true) s
    (walked s r l va (p ++ ((fun lv => PX lv va) <$> levels))).
Proof.
  revert s l p a. induction levels as [|lv levels IH]; intros s l p a Hpt Hp Hlen Ha Hlo;
    cbn [walk_level fmap list_fmap].
  { apply wp_ret. exists l. split; [done|]. split; [by apply walk_frame_same|]. split; [done|].
    right. exists a. by rewrite app_nil_r. }
  simpl in Hlen. pose proof (PX_range lv va) as Hi.
  assert (Hp1 : table_path (p ++ [PX lv va])).
  { destruct Hp as [_ Hfp]. split; [rewrite length_app; simpl; lia|].
    apply Forall_app. split; [done|]. by constructor. }
  assert (Hp0 : p ++ [PX lv va] <> []) by (by destruct p).
  destruct (child_cases s r l p a (PX lv va)) as (e & Hld & He & Hc); [done..|].
  apply wp_bind. eapply wp_eq; [done|]. cbv beta.
  change (list_fmap Z Z (fun lv => PX lv va) levels) with ((fun lv => PX lv va) <$> levels).
  rewrite cons_middle, app_assoc.
  destruct (flag e PTE_V) eqn:Hf.
  { apply (IH s l); [try done; rewrite ?length_app; simpl; lia..| |done].
    rewrite tab_snoc, Ha. done. }
  simpl.
  destruct (table_alloc s r l p a (PX lv va)) as (r0 & s1 & Hka & Hl); [first [done|lia]..|].
  apply wp_bind. eapply wp_eq; [done|]. cbv beta. destruct l as [|pg l'].
  { destruct Hl as (-> & Hw & Hpt1). simpl. apply wp_ret. exists []. split; [done|].
    split; [by apply walk_frame_same|]. split; [by rewrite Hw|]. by left. }
  destruct Hl as (-> & Hne & s2 & Hst & Hlk & Hk2).
  rewrite (proj2 (Z.eqb_neq pg 0)) by done.
  assert (Hpt2 : pt_inv s2 r l').
  { apply (pt_inv_linked s s2 r l' p a (PX lv va) pg); try done; [lia|]. intros E. by apply (Hlo E). }
  assert (Hrw : forall k, (memset_page pg 0 ;;; store64 (a + 8 * PX lv va)
      (Z.lor (PA2PTE pg) PTE_V) ;;; k) s1 = k s2 :> outcome phys Z).
  { intros k. rewrite <- (bind_assoc _ _ (fun _ => k)). by rewrite (bind_eq _ _ _ _ _ Hst). }
  unfold wp. rewrite Hrw. fold (wp (walk_level levels pg va true) s2
    (walked s r (pg :: l') va ((p ++ [PX lv va]) ++ ((fun lv => PX lv va) <$> levels)))).
  eapply wp_mono.
  { apply (IH s2 l' (p ++ [PX lv va]) pg); [try done; rewrite ?length_app; simpl; lia..| |done].
    rewrite (tab_linked s (words s2) r l' p a (PX lv va) pg) by first [done|lia].
    by rewrite decide_True. }
  intros pte s3 (l3 & Hpt3 & Hfr & Hx & Hres). exists l3. split; [done|]. split; [|split; [|done]].
  { eapply walk_frame_trans; [|exact Hfr].
    apply (walk_frame_linked s s2 r l' p a (PX lv va) pg); first [done|lia]. }
  intros v. rewrite Hx. apply (xlate_linked s (words s2) r l' p a (PX lv va) pg); first [done|lia].
Qed.

Lemma tab_root w r : tab w r [] = Some r.
Proof. done. Qed.

Lemma root_path : table_path [].
Proof. split; [simpl; lia|done]. Qed.

Lemma walk_lookup s r l va :
  pt_inv s r l -> va < MAXVA ->
  walk r va false s =
    Ret (match tab (words s) r [PX 2 va; PX 1 va] with
         | Some b => b + 8 * PX 0 va
         | None => 0
         end) s.
Proof.
  intros Hpt Hva. unfold walk. rewrite (proj2 (Z.leb_gt _ _)) by done.
  apply (walk_level_lookup s r l va [2; 1] [] r); [done|apply root_path|simpl; lia|done].
Qed.

Lemma PX_low va : 0 <= va < MAXVA -> PX 2 va < 256.
Proof.
  unfold PX, PXSHIFT, PGSHIFT, MAXVA. change (Z.shiftl 1 _) with (2 ^ 38). change 511 with (Z.ones 9).
  rewrite Z.land_ones, Z.shiftr_div_pow2 by lia. change (2 ^ (12 + 9 * 2)) with 1073741824.
  change (2 ^ 38) with (256 * 1073741824). change (2 ^ 9) with 512. intros Hva. zlia.
Qed.

Lemma walk_alloc s r l va :
  pt_inv s r l -> 0 <= va < MAXVA ->
  wp (walk r va true) s (walked s r l va [PX 2 va; PX 1 va]).
Proof.
  intros Hpt Hva. unfold walk. rewrite (proj2 (Z.leb_gt _ _)) by lia.
  apply (walk_level_alloc va [2; 1] s r l [] r); [done|apply root_path|simpl; lia|done|].
  intros _ lv [= <-]. by apply PX_low.
Qed.

(** *** [mappages] *)

Lemma va_path va : table_path [PX 2 va; PX 1 va].
Proof. split; [simpl; lia|]. repeat constructor; apply PX_range. Qed.

Lemma xlate_store s r l va b e v :
  pt_inv s r l -> tab (words s) r [PX 2 va; PX 1 va] = Some b ->
  0 <= va < MAXVA -> 0 <= v < MAXVA ->
  xlate (<[b / 8 + PX 0 va := e]> (words s)) r v =
    if decide (v / PGSIZE = va / PGSIZE) then (if flag e PTE_V then Some e else None)
    else xlate (words s) r v.
Proof.
  intros Hpt Hb Hva Hv. unfold xlate.
  rewrite (tab_leaf_store s r l [PX 2 va; PX 1 va] b) by
    first [done | apply va_path | apply PX_range].
  case_decide as Hd.
  - assert (forall lv, 0 <= lv -> PX lv v = PX lv va) as Hpx.
    { intros lv Hlv. unfold PX, PXSHIFT, PGSHIFT. f_equal.
      rewrite !Z.shiftr_div_pow2 by lia. rewrite Z.pow_add_r by lia. change (2 ^ 12) with PGSIZE.
      rewrite <- !Z.div_div by first [done|pose proof (Z.pow_pos_nonneg 2 (9 * lv)); lia].
      by rewrite Hd. }
    rewrite !Hpx by lia. rewrite Hb. unfold entry. by rewrite lookup_insert_eq.
  - destruct (tab (words s) r [PX 2 v; PX 1 v]) as [c|] eqn:Hc; [|done].
    unfold entry. rewrite lookup_insert_ne; [done|]. intros Heq.
    destruct (entry_word s r l [PX 2 va; PX 1 va] b (PX 0 va) [PX 2 v; PX 1 v] c (PX 0 v))
      as [[= H2 H1] H0]; try done; try apply va_path; try apply PX_range.
    apply Hd, PX_inj; done.
Qed.

(** The address that [walkaddr] reads off the translation. *)
Definition user_addr (w : gmap Z Z) (r v : Z) : Z :=
  if v <? MAXVA then
    match xlate w r v with
    | Some e => if flag e PTE_U then PTE2PA e else 0
    | None => 0
    end
  else 0.

Lemma walkaddr_eq s r l v :
  pt_inv s r l -> walkaddr r v s = Ret (user_addr (words s) r v) s.
Proof.
  intros Hpt. unfold walkaddr, user_addr.
  destruct (v <? MAXVA) eqn:Hv; zbool.
  2:{ by rewrite (proj2 (Z.leb_le _ _)). }
  rewrite (proj2 (Z.leb_gt _ _)) by done.
  rewrite (bind_eq _ _ _ _ _ (walk_lookup s r l v Hpt Hv)). unfold xlate.
  destruct (tab (words s) r [PX 2 v; PX 1 v]) as [b|] eqn:Hb; [|done].
  destruct (child_cases s r l [PX 2 v; PX 1 v] b (PX 0 v)) as (e & Hld & He & _);
    [done|apply va_path|done|apply PX_range|].
  destruct (pi_ram _ _ _ Hpt _ _ (va_path v) Hb) as [Hram _].
  pose proof (ram_page_high b Hram). pose proof (PX_range 0 v).
  rewrite (proj2 (Z.eqb_neq _ 0)) by lia. rewrite (bind_eq _ _ _ _ _ Hld), He.
  destruct (flag e PTE_V); [|done]. simpl. by destruct (flag e PTE_U).
Qed.

(** The translation [f], with the pages from [va] to [va + sz] mapped to the
    physical pages from [pa]. *)
Definition map_range (va sz pa perm : Z) (f : Z -> option Z) (v : Z) : option Z :=
  if decide (va <= v < va + sz) then Some (leaf_pte (pa + (PGROUNDDOWN v - va)) perm) else f v.

Lemma page_range_snoc va k v :
  page_aligned va ->
  (va <= v < va + (k + 1) * PGSIZE <->
   va <= v < va + k * PGSIZE \/ v / PGSIZE = (va + k * PGSIZE) / PGSIZE) \/ k < 0.
Proof.
  unfold page_aligned, PGSIZE. intros Hal. destruct (decide (k < 0)); [by right|left].
  zlia.
Qed.

Lemma map_range_snoc va k pa perm f v :
  page_aligned va -> 0 <= k ->
  map_range va ((k + 1) * PGSIZE) pa perm f v =
  if decide (v / PGSIZE = (va + k * PGSIZE) / PGSIZE)
  then Some (leaf_pte (pa + k * PGSIZE) perm)
  else map_range va (k * PGSIZE) pa perm f v.
Proof.
  intros Hal Hk. unfold map_range.
  destruct (page_range_snoc va k v Hal) as [Hiff|]; [|lia].
  destruct (decide (v / PGSIZE = (va + k * PGSIZE) / PGSIZE)) as [Heq|Hne].
  - rewrite decide_True by (apply Hiff; by right). do 2 f_equal.
    rewrite PGROUNDDOWN_eq, Heq. unfold page_aligned, PGSIZE in *. zlia.
  - destruct (decide (va <= v < va + k * PGSIZE)) as [Hin|Hout].
    + rewrite decide_True by (apply Hiff; by left). done.
    + rewrite decide_False; [done|]. intros [?|?]%Hiff; done.
Qed.

(** One iteration of the loop of [mappages]. *)
Lemma map_one s r l va pa perm :
  pt_inv s r l -> page_aligned va -> 0 <= va < MAXVA -> page_aligned pa ->
  0 <= pa < 2 ^ 56 -> 0 <= perm < 1024 -> xlate (words s) r va = None ->
  wp (walk r va true) s (fun pte s1 => exists l1, pt_inv s1 r l1 /\ walk_frame s r l s1 l1 /\
    (forall v, xlate (words s1) r v = xlate (words s) r v) /\
    ((pte = 0 /\ l1 = []) \/
     pte <> 0 /\ exists e, load64 pte s1 = Ret e s1 /\ flag e PTE_V = false /\
       exists s2, store64 pte (leaf_pte pa perm) s1 = Ret tt s2 /\ pt_inv s2 r l1 /\
         walk_frame s r l s2 l1 /\
         forall v, 0 <= v < MAXVA -> xlate (words s2) r v =
           if decide (v / PGSIZE = va / PGSIZE) then Some (leaf_pte pa perm)
           else xlate (words s) r v)).
Proof.
  intros Hpt Hal Hva Halp Hpa Hperm Hnone.
  eapply wp_mono; [apply (walk_alloc s r l va Hpt); lia|].
  intros pte s1 (l1 & Hpt1 & Hfr & Hx & Hres). exists l1. split; [done|]. split; [done|]. split; [done|].
  destruct Hres as [[-> ->]|(b & Hb & ->)]; [by left|right].
  destruct (pi_ram _ _ _ Hpt1 _ _ (va_path va) Hb) as [Hram _].
  pose proof (ram_page_high b Hram) as [Halb Hbb]. pose proof (PX_range 0 va) as Hpx.
  split; [lia|].
  destruct (child_cases s1 r l1 [PX 2 va; PX 1 va] b (PX 0 va)) as (e & Hld & He & _);
    [done|apply va_path|done|done|].
  exists e. split; [done|]. split.
  { specialize (Hx va). rewrite Hnone in Hx. unfold xlate in Hx. rewrite Hb, He in Hx.
    by destruct (flag e PTE_V). }
  rewrite (store64_entry s1 b _ e) by first [done|by apply leaf_pte_range].
  eexists. split; [done|]. split; [|split].
  - apply pt_inv_leaf_store with (p := [PX 2 va; PX 1 va]); try done. apply va_path.
  - eapply walk_frame_trans; [exact Hfr|]. apply walk_frame_leaf with (p := [PX 2 va; PX 1 va]); try done. apply va_path.
  - intros v Hv. simpl. rewrite (xlate_store s1 r l1 va b) by done. by rewrite Hx, leaf_pte_valid.
Qed.

Lemma walkaddr_same s s' r l l' v :
  pt_inv s r l -> pt_inv s' r l' ->
  (v < MAXVA -> xlate (words s') r v = xlate (words s) r v) ->
  result (walkaddr r v s') = result (walkaddr r v s).
Proof.
  intros Hpt Hpt' Hx. rewrite (walkaddr_eq s' r l' v), (walkaddr_eq s r l v) by done. simpl.
  unfold user_addr. destruct (v <? MAXVA) eqn:Hvm; [|done]. zbool. by rewrite Hx.
Qed.

Lemma walkaddr_mapped s r l va n pa perm f v :
  pt_inv s r l -> page_aligned va -> page_aligned pa -> 0 <= va ->
  va + n * PGSIZE <= MAXVA -> 0 <= pa -> pa + n * PGSIZE <= 2 ^ 56 -> 0 <= perm < 1024 ->
  va <= v < va + n * PGSIZE -> xlate (words s) r v = map_range va (n * PGSIZE) pa perm f v ->
  walkaddr r v s = Ret (if flag perm PTE_U then pa + (PGROUNDDOWN v - va) else 0) s.
Proof.
  intros Hpt Hal Halp Hva Hmax Hpa Hpamax Hperm Hv Hx.
  rewrite (walkaddr_eq s r l) by done. f_equal. unfold user_addr.
  rewrite (proj2 (Z.ltb_lt _ _)) by lia. rewrite Hx. unfold map_range.
  rewrite decide_True by done.
  assert (page_aligned (pa + (PGROUNDDOWN v - va)) /\
          0 <= pa + (PGROUNDDOWN v - va) < 2 ^ 56) as [Hq1 Hq2].
  { rewrite PGROUNDDOWN_eq. unfold page_aligned, PGSIZE in *. zlia. }
  rewrite PTE2PA_leaf by done. unfold PTE_U.
  rewrite !flag_spec, leaf_pte_testbit by first [done|lia]. done.
Qed.

(** [uvmcreate] makes a page table that translates nothing. *)
Lemma uvmcreate_eq s pg l :
  kmem_inv s (pg :: l) ->
  exists s', uvmcreate s = Ret pg s' /\ pt_inv s' pg l /\
    (forall v, xlate (words s') pg v = None) /\
    forall p a, table_path p -> tab (words s') pg p = Some a -> a = pg.
Proof.
  intros Hk. destruct (kalloc_eq Hkend s _ Hk) as (r & s1 & Heq & _ & -> & Hk1 & Hfill).
  assert (Hram : ram_page pg) by (apply (inv_free _ _ Hk), list_elem_of_here).
  destruct (ram_page_high pg Hram) as [Hal Hb].
  pose proof (inv_nodup _ _ Hk) as [Hnpg _]%list.NoDup_cons.
  destruct (memset_page_eq s1 pg 0) as (w2 & Hms & Hfill2); [done|by apply (inv_ram _ _ Hk1)|].
  assert (Hnone : forall p i, table_path p -> 0 <= i < 512 -> child w2 pg i = None).
  { intros p i Hp Hi. unfold child, entry. rewrite (proj1 (Hfill2 _)); [done|].
    unfold in_page. lia. }
  assert (Htab : forall p a, table_path p -> tab w2 pg p = Some a -> p = [] /\ a = pg).
  { intros [|i p] a Hp Ha; [by injection Ha|]. destruct Hp as [_ Hf]. inversion Hf; subst.
    change (i :: p) with ([] ++ i :: p) in Ha. rewrite (tab_cons_child _ _ _ pg) in Ha by done.
    by rewrite (Hnone []) in Ha by first [done|apply root_path]. }
  exists (set_words w2 s1). split; [|split; [|split]].
  - unfold uvmcreate. rewrite (bind_eq _ _ _ _ _ Heq).
    rewrite (proj2 (Z.eqb_neq pg 0)) by lia. by rewrite (bind_eq _ _ _ _ _ Hms).
  - constructor; simpl.
    + apply kmem_inv_write; [done| |].
      * intros i Hi. destruct (Hfill2 i) as [H1 H2].
        destruct (decide (pg / 8 <= i < pg / 8 + 512)); [rewrite H1 by done; eauto|].
        by rewrite H2.
      * intros q Hq. destruct (inv_free _ _ Hk1 q Hq) as [Halq _].
        apply (filled_other _ _ pg (rep8 0)); try done. by intros ->.
    + intros p a Hp Ha. by destruct (Htab p a Hp Ha) as [-> ->].
    + intros p q a Hp Hq Ha Ha'. destruct (Htab p a Hp Ha) as [-> _].
      by destruct (Htab q a Hq Ha') as [-> _].
    + intros p a i e Hp _ Ha Hi. destruct (Htab p a Hp Ha) as [-> ->].
      unfold entry. rewrite (proj1 (Hfill2 _)) by (unfold in_page; lia). by intros [= <-].
    + intros i Hi. apply (Hnone []); [apply root_path|lia].
  - intros v. unfold xlate. simpl.
    destruct (tab w2 pg [PX 2 v; PX 1 v]) as [a|] eqn:Ha; [|done].
    destruct (Htab _ _ (va_path v) Ha) as [? _]. done.
  - intros p a Hp Ha. by destruct (Htab p a Hp Ha).
Qed.

(** Mapping [n] unmapped pages at [va] to the physical pages at [pa]
    never panics and keeps the page table and the free list well formed.  If
    it returns 0, [walkaddr] translates every address of the range to its
    page exactly when [perm] allows user access, and every other address as
    before.  It returns -1 only when no page is free, and then too no address
    outside the range changed. *)
Theorem mappages_walkaddr s r l va n pa perm :
  pt_inv s r l -> page_aligned va -> page_aligned pa -> 0 <= va -> 0 < n ->
  va + n * PGSIZE <= MAXVA -> 0 <= pa -> pa + n * PGSIZE <= 2 ^ 56 -> 0 <= perm < 1024 ->
  (forall v, va <= v < va + n * PGSIZE -> xlate (words s) r v = None) ->
  wp (mappages r va (n * PGSIZE) pa perm) s (fun res s' => exists l',
    pt_inv s' r l' /\
    (forall v, 0 <= v -> ~ va <= v < va + n * PGSIZE ->
       result (walkaddr r v s') = result (walkaddr r v s)) /\
    (res = 0 /\ (forall v, va <= v < va + n * PGSIZE ->
       walkaddr r v s' = Ret (if flag perm PTE_U then pa + (PGROUNDDOWN v - va) else 0) s') \/
     res = -1 /\ l' = [])).
Proof.
  intros Hpt Hal Halp Hva Hn Hmax Hpa Hpamax Hperm Hfree. unfold mappages.
  assert (HM : MAXVA = 2 ^ 38) by done.
  assert (HPG : PGSIZE = 4096) by done.
  assert (Hdown : PGROUNDDOWN va = va).
  { rewrite PGROUNDDOWN_eq. unfold page_aligned in Hal. rewrite HPG in *. zlia. }
  assert (Hlast : PGROUNDDOWN (u64 (va + n * PGSIZE - 1)) = va + (n - 1) * PGSIZE).
  { unfold u64. rewrite Z.mod_small by lia. rewrite PGROUNDDOWN_eq.
    unfold page_aligned in Hal. rewrite HPG in *. zlia. }
  rewrite Hdown, Hlast.
  set (I := fun (x : Z * Z) (s' : phys) => exists k l', 0 <= k < n /\
    x = (va + k * PGSIZE, pa + k * PGSIZE) /\ pt_inv s' r l' /\
    forall v, 0 <= v < MAXVA ->
      xlate (words s') r v = map_range va (k * PGSIZE) pa perm (xlate (words s) r) v).
  apply (wp_loop I (fun x => MAXVA - x.1)).
  - exists 0, l. rewrite !Z.mul_0_l, !Z.add_0_r. split; [lia|]. split; [done|]. split; [done|].
    intros v Hv. unfold map_range. rewrite decide_False by lia. done.
  - simpl. lia.
  - intros x s1 (k & l1 & Hk & -> & _). simpl. nia.
  - intros x s1 (k & l1 & Hk & -> & Hpt1 & Hx1). cbv beta iota.
    assert (Hin : 0 <= va + k * PGSIZE < MAXVA) by nia.
    assert (Hak : forall b, page_aligned b -> page_aligned (b + k * PGSIZE)).
    { intros b Hb. unfold page_aligned in *. by rewrite Z_mod_plus_full. }
    apply wp_bind. eapply wp_mono.
    { apply (map_one s1 r l1 (va + k * PGSIZE) (pa + k * PGSIZE) perm); try done;
        [by apply Hak|by apply Hak|nia|].
      rewrite Hx1 by done. unfold map_range. rewrite decide_False by lia.
      apply Hfree. nia. }
    intros pte s2 (l2 & Hpt2 & _ & Hx2 & Hres).
    destruct Hres as [[-> ->]|(Hnz & e & Hld & Hfl & s3 & Hst & Hpt3 & _ & Hx3)].
    { simpl. apply wp_ret. exists []. split; [done|]. split; [|by right].
      intros v Hv Hni. apply (walkaddr_same s s2 r l []); [done..|]. intros Hvm.
      rewrite Hx2, Hx1 by done. unfold map_range. rewrite decide_False; [done|]. nia. }
    rewrite (proj2 (Z.eqb_neq pte 0)) by done.
    apply wp_bind. eapply wp_eq; [done|]. cbv beta. rewrite Hfl.
    apply wp_bind. eapply wp_eq; [done|]. cbv beta.
    assert (Hx4 : forall v, 0 <= v < MAXVA -> xlate (words s3) r v =
      map_range va ((k + 1) * PGSIZE) pa perm (xlate (words s) r) v).
    { intros v Hv. rewrite Hx3, Hx1, map_range_snoc by first [done|lia]. done. }
    destruct (Z.eqb_spec (va + k * PGSIZE) (va + (n - 1) * PGSIZE)) as [Heq|Hne].
    + assert (k = n - 1) as -> by lia. replace (n - 1 + 1) with n in Hx4 by lia.
      apply wp_ret. exists l2. split; [done|]. split.
      * intros v Hv Hni. apply (walkaddr_same s s3 r l l2); [done..|]. intros Hvm.
        rewrite Hx4 by done. unfold map_range. by rewrite decide_False.
      * left. split; [done|]. intros v Hv.
        apply (walkaddr_mapped s3 r l2 va n pa perm (xlate (words s) r)); try done.
        apply Hx4. lia.
    + apply wp_ret. split.
      * exists (k + 1), l2. split; [lia|]. split; [|done].
        unfold u64. rewrite !Z.mod_small by nia. f_equal; lia.
      * simpl. unfold u64. rewrite Z.mod_small by nia. lia.
Qed.

End tables.

Lemma mappages_walkaddr_witness :
  exists s r l, pt_inv s r l /\
  wp (mappages r PGSIZE (2 * PGSIZE) (PHYSTOP - 3 * PGSIZE) PTE_U) s (fun res s' =>
    exists l', pt_inv s' r l' /\
    (forall v, 0 <= v -> ~ PGSIZE <= v < PGSIZE + 2 * PGSIZE ->
       result (walkaddr r v s') = result (walkaddr r v s)) /\
    (res = 0 /\ (forall v, PGSIZE <= v < PGSIZE + 2 * PGSIZE ->
       walkaddr r v s' = Ret (if flag PTE_U PTE_U
         then PHYSTOP - 3 * PGSIZE + (PGROUNDDOWN v - PGSIZE) else 0) s') \/
     res = -1 /\ l' = [])).
Proof.
  assert (Hk : KERNBASE <= kend <= PHYSTOP) by (split; vm_compute; congruence).
  destruct (wp_inv _ _ _ (kinit_eq Hk small_boot small_boot_ram)) as ([] & s0 & _ & Hinv).
  assert (exists pg l, reverse all_pages = pg :: l) as (pg & l & Hl).
  { do 2 eexists. vm_compute. reflexivity. }
  rewrite Hl in Hinv. destruct (uvmcreate_eq Hk s0 pg l Hinv) as (s & _ & Hpt & Hx & _).
  exists s, pg, l. split; [done|].
  apply (mappages_walkaddr Hk s pg l PGSIZE 2); try done.
Defined.
