(* ===== verification/Umem.v ===== *)
(** The memory of processes: proofs about vm.c, on the bytes that a process sees
    at its virtual addresses.

    [umem] is that view.  [user_ok] says that the process maps its pages once and
    that they are neither free nor page tables; [own_step] that a step moves
    pages between the process and the free list and writes to no other page, so
    that it loses none and another process ([apart]) does not notice it
    ([isolated]).  The functions of vm.c are specified with these: [copyout_eq],
    [copyin_correct], [uvmunmap_eq], [uvmdealloc_eq], [uvmalloc_eq],
    [uvmcopy_correct], [uvmcreate_user].  The last section runs them on a machine
    with sixteen pages. *)
From S2P Require Import Prelude Kalloc Vm.

(** ** Bytes of words *)

Lemma get_byte_testbit w k i : 0 <= k -> 0 <= i ->
  Z.testbit (get_byte w k) i = Z.testbit w (8 * k + i) && (i <? 8).
Proof.
  intros Hk Hi. unfold get_byte. rewrite Z.land_spec, Z.shiftr_spec by lia.
  rewrite (Z.add_comm i). f_equal. change 255 with (Z.ones 8). rewrite Z.testbit_ones by lia.
  destruct (Z.ltb_spec i 8); [|by rewrite andb_false_r]. by rewrite (proj2 (Z.leb_le _ _)).
Qed.

Lemma get_byte_u64 w k : 0 <= k < 8 -> get_byte (u64 w) k = get_byte w k.
Proof.
  intros Hk. apply Z.bits_inj'. intros i Hi. rewrite !get_byte_testbit by lia.
  destruct (Z.ltb_spec i 8); [|by rewrite !andb_false_r]. f_equal.
  unfold u64. rewrite <- Z.land_ones, Z.land_spec, Z.testbit_ones by lia.
  rewrite (proj2 (Z.leb_le _ _)), (proj2 (Z.ltb_lt _ _)) by lia. by rewrite andb_true_r.
Qed.

Lemma get_put_byte w k b k' : 0 <= k < 8 -> 0 <= k' < 8 ->
  get_byte (put_byte w k b) k' = if decide (k' = k) then u8 b else get_byte w k'.
Proof.
  intros Hk Hk'. apply Z.bits_inj'. intros i Hi. rewrite get_byte_testbit by lia. unfold put_byte.
  rewrite Z.lor_spec, Z.ldiff_spec, !Z.shiftl_spec by lia.
  assert (Hu : forall j, Z.testbit (u8 b) j = Z.testbit b j && (0 <=? j) && (j <? 8)).
  { intros j. unfold u8. rewrite <- Z.land_ones, Z.land_spec by lia. rewrite Z.testbit_ones by lia.
    by rewrite andb_assoc. }
  assert (H255 : forall j, Z.testbit 255 j = (0 <=? j) && (j <? 8)).
  { intros j. change 255 with (Z.ones 8). by rewrite Z.testbit_ones by lia. }
  rewrite !Hu, !H255. destruct (decide (k' = k)) as [->|Hne].
  - replace (8 * k + i - 8 * k) with i by lia. rewrite Hu.
    destruct (Z.ltb_spec i 8); [|by rewrite !andb_false_r].
    rewrite (proj2 (Z.leb_le 0 i)) by lia. simpl. by rewrite andb_false_r, !andb_true_r.
  - rewrite get_byte_testbit by lia. destruct (Z.ltb_spec i 8); [|by rewrite !andb_false_r].
    rewrite !andb_true_r. destruct (Z.leb_spec 0 (8 * k' + i - 8 * k)); simpl.
    + rewrite (proj2 (Z.ltb_ge (8 * k' + i - 8 * k) 8)) by lia. by rewrite !andb_false_r, orb_false_r, andb_true_r.
    + by rewrite !andb_false_r, orb_false_r, andb_true_r.
Qed.

(** The byte at a physical address. *)
Definition byte_of (w : gmap Z Z) (a : Z) : option Z := (fun x => get_byte x (a mod 8)) <$> w !! (a / 8).

Lemma byte_range w a b : byte_of w a = Some b -> 0 <= b < 256.
Proof.
  unfold byte_of. destruct (w !! (a / 8)) as [x|]; [|done]. simpl. intros [= <-].
  unfold get_byte. change 255 with (Z.ones 8). rewrite Z.land_ones by lia. apply Z.mod_pos_bound. lia.
Qed.

Lemma word_base a : (a - a mod 8) mod 8 = 0 /\ (a - a mod 8) / 8 = a / 8.
Proof. zlia. Qed.

Lemma load8_eq s a b : byte_of (words s) a = Some b -> load8 a s = Ret b s.
Proof.
  unfold byte_of. destruct (words s !! (a / 8)) as [x|] eqn:E; [|done]. simpl. intros [= <-].
  destruct (word_base a) as [H1 H2]. unfold load8, load64, bind. rewrite H1, H2, Z.eqb_refl, E. done.
Qed.

Lemma store8_eq s a b : is_Some (words s !! (a / 8)) -> exists w',
  store8 a b s = Ret tt (set_words w' s) /\
  (forall x, byte_of w' x = if decide (x = a) then Some (u8 b) else byte_of (words s) x) /\
  (forall i, i <> a / 8 -> w' !! i = words s !! i) /\ (forall i, is_Some (words s !! i) -> is_Some (w' !! i)).
Proof.
  intros [x Ex]. destruct (word_base a) as [H1 H2].
  exists (<[a / 8 := u64 (put_byte x (a mod 8) b)]> (words s)). split; [|split; [|split]].
  - unfold store8. rewrite (bind_eq _ _ s x s).
    + unfold store64. rewrite H1, H2, Z.eqb_refl, Ex. done.
    + unfold load64. rewrite H1, H2, Z.eqb_refl, Ex. done.
  - intros y. unfold byte_of. pose proof (Z.mod_pos_bound a 8). pose proof (Z.mod_pos_bound y 8).
    destruct (decide (y / 8 = a / 8)) as [E|E].
    + rewrite E, lookup_insert_eq, Ex. simpl. rewrite get_byte_u64, get_put_byte by lia.
      pose proof (Z.div_mod y 8). pose proof (Z.div_mod a 8).
      destruct (decide (y = a)) as [->|Hne]; [by rewrite decide_True|]. rewrite decide_False by lia. done.
    + rewrite lookup_insert_ne by done. rewrite decide_False; [done|]. congruence.
  - intros i Hi. by rewrite lookup_insert_ne.
  - intros i Hi. destruct (decide (i = a / 8)) as [->|]; [rewrite lookup_insert_eq; eauto|by rewrite lookup_insert_ne].
Qed.

(** [write_bytes] and [read_bytes] where the words exist. *)
Lemma write_bytes_eq l a s : (forall j, 0 <= j < Z.of_nat (length l) -> is_Some (words s !! ((a + j) / 8))) ->
  exists w', write_bytes a l s = Ret tt (set_words w' s) /\
    (forall x, byte_of w' x = if decide (a <= x < a + Z.of_nat (length l))
       then u8 <$> l !! Z.to_nat (x - a) else byte_of (words s) x) /\
    (forall i, (forall j, 0 <= j < Z.of_nat (length l) -> i <> (a + j) / 8) -> w' !! i = words s !! i) /\
    (forall i, is_Some (words s !! i) -> is_Some (w' !! i)).
Proof.
  revert a s. induction l as [|b l IH]; intros a s Hw.
  - exists (words s). split; [by rewrite set_words_id|]. split; [|done].
    intros x. rewrite decide_False by (simpl; lia). done.
  - simpl length in *. destruct (store8_eq s a b) as (w1 & E1 & B1 & O1 & D1).
    { specialize (Hw 0). rewrite Z.add_0_r in Hw. apply Hw. lia. }
    destruct (IH (a + 1) (set_words w1 s)) as (w2 & E2 & B2 & O2 & D2).
    { intros j Hj. cbn [words set_words]. apply D1. replace (a + 1 + j) with (a + (1 + j)) by lia. apply Hw. lia. }
    exists w2. cbn [words set_words] in *. split; [|split; [|split]].
    + cbn [write_bytes]. rewrite (bind_eq _ _ _ _ _ E1). exact E2.
    + intros x. rewrite B2, B1. destruct (decide (x = a)) as [->|Hne].
      * rewrite decide_False, decide_True by lia. by rewrite Z.sub_diag.
      * destruct (decide (a + 1 <= x < a + 1 + Z.of_nat (length l))) as [Hin|Hout].
        -- rewrite decide_True by lia. replace (Z.to_nat (x - a)) with (S (Z.to_nat (x - (a + 1)))) by lia. done.
        -- by rewrite decide_False by lia.
    + intros i Hi. rewrite O2.
      * apply O1. specialize (Hi 0). rewrite Z.add_0_r in Hi. apply Hi. lia.
      * intros j Hj. replace (a + 1 + j) with (a + (1 + j)) by lia. apply Hi. lia.
    + intros i Hi. by apply D2, D1.
Qed.

Lemma read_bytes_eq n a s l : length l = n ->
  (forall j, 0 <= j < Z.of_nat n -> byte_of (words s) (a + j) = l !! Z.to_nat j) ->
  read_bytes a n s = Ret l s.
Proof.
  revert a l. induction n as [|n IH]; intros a l Hl H.
  - by destruct l.
  - destruct l as [|b l]; [done|]. injection Hl as Hl.
    cbn [read_bytes]. rewrite (bind_eq _ _ s b s).
    + rewrite (bind_eq _ _ s l s); [done|]. apply IH; [done|]. intros j Hj.
      replace (a + 1 + j) with (a + (1 + j)) by lia. rewrite H by lia.
      by replace (Z.to_nat (1 + j)) with (S (Z.to_nat j)) by lia.
    + apply load8_eq. specialize (H 0). rewrite Z.add_0_r in H. apply H. lia.
Qed.

(** ** The memory of a process *)

Section user.
Context `{Linker}.
Context (Hkend : KERNBASE <= kend <= PHYSTOP).

(** The byte at the virtual address [v], if the page is mapped for the user. *)
Definition umem (s : phys) (r v : Z) : option Z :=
  if user_addr (words s) r v =? 0 then None else byte_of (words s) (user_addr (words s) r v + v mod PGSIZE).

(** The physical page that a valid entry maps [v] to, whoever may use it. *)
Definition frame (w : gmap Z Z) (r v : Z) : Z :=
  match xlate w r v with Some e => PTE2PA e | None => 0 end.

(** What the process maps for the user is RAM, and a page of RAM that it maps is
    not free, is not a page table, and is mapped once. *)
Record user_ok (s : phys) (r : Z) (l : list Z) : Prop := {
  uo_pt : pt_inv s r l;
  uo_user : forall v e, 0 <= v < MAXVA -> xlate (words s) r v = Some e -> flag e PTE_U = true -> ram_page (PTE2PA e);
  uo_free : forall v, 0 <= v < MAXVA -> frame (words s) r v ∉ l;
  uo_table : forall v p, 0 <= v < MAXVA -> ram_page (frame (words s) r v) -> table_path p ->
    tab (words s) r p <> Some (frame (words s) r v);
  uo_once : forall v v', 0 <= v < MAXVA -> 0 <= v' < MAXVA -> ram_page (frame (words s) r v) ->
    frame (words s) r v' = frame (words s) r v -> v' / PGSIZE = v / PGSIZE
}.

(** A page that the process does not use. *)
Definition unused (s : phys) (r q : Z) : Prop :=
  (forall p, table_path p -> tab (words s) r p <> Some q) /\
  (forall v, 0 <= v < MAXVA -> frame (words s) r v <> q).

(** A page of RAM that the process uses, as a table or as memory. *)
Definition owned (s : phys) (r q : Z) : Prop :=
  (exists p, table_path p /\ tab (words s) r p = Some q) \/
  (exists v, 0 <= v < MAXVA /\ ram_page (frame (words s) r v) /\ frame (words s) r v = q).

(** The step moves pages between the process and the free list, loses none and
    writes to no other. *)
Definition own_step (s : phys) (r : Z) (l : list Z) (s' : phys) (l' : list Z) : Prop :=
  (forall q, q ∈ l' \/ owned s' r q <-> q ∈ l \/ owned s r q) /\
  (forall i, (forall q, q ∈ l \/ owned s r q -> ~ in_page q i) -> words s' !! i = words s !! i).

Lemma own_step_refl s r l : own_step s r l s l.
Proof. done. Qed.

Lemma own_step_trans s1 s2 s3 r l1 l2 l3 :
  own_step s1 r l1 s2 l2 -> own_step s2 r l2 s3 l3 -> own_step s1 r l1 s3 l3.
Proof.
  intros [H1 W1] [H2 W2]. split; [intros q; by rewrite H2|].
  intros i Hi. rewrite W2; [by apply W1|]. intros q. rewrite H1. apply Hi.
Qed.

Lemma shiftr_page v k : 0 <= k -> Z.shiftr v (12 + k) = Z.shiftr (v / PGSIZE) k.
Proof. intros Hk. rewrite <- Z.shiftr_shiftr by lia. f_equal. rewrite Z.shiftr_div_pow2 by lia. done. Qed.

Lemma user_addr_page w r v v' : 0 <= v -> 0 <= v' -> v / PGSIZE = v' / PGSIZE -> user_addr w r v = user_addr w r v'.
Proof.
  intros Hv Hv' E. unfold user_addr, xlate, PX, PXSHIFT, PGSHIFT.
  rewrite !shiftr_page, E by lia. assert (v <? MAXVA = (v' <? MAXVA)) as ->; [|done].
  apply eq_bool_prop_intro. rewrite !Is_true_true, !Z.ltb_lt. change MAXVA with (67108864 * 4096).
  unfold PGSIZE in E. zlia.
Qed.

Lemma frame_page w r v v' : 0 <= v -> 0 <= v' -> v / PGSIZE = v' / PGSIZE -> frame w r v = frame w r v'.
Proof.
  intros Hv Hv' E. unfold frame, xlate, PX, PXSHIFT, PGSHIFT. by rewrite !shiftr_page, E by lia.
Qed.

Lemma page_of v : 0 <= v -> 0 <= PGROUNDDOWN v /\ PGROUNDDOWN v / PGSIZE = v / PGSIZE /\
  v - PGROUNDDOWN v = v mod PGSIZE.
Proof. intros Hv. rewrite PGROUNDDOWN_eq. unfold PGSIZE. zlia. Qed.

Lemma user_addr_top w r v : MAXVA <= v -> user_addr w r v = 0.
Proof. intros Hv. unfold user_addr. by rewrite (proj2 (Z.ltb_ge _ _)). Qed.

(** The words of a page. *)
Lemma page_word pa o : page_aligned pa -> 0 <= o < PGSIZE -> in_page pa ((pa + o) / 8).
Proof. unfold page_aligned, in_page, PGSIZE. intros Ha Ho. zlia. Qed.

Lemma page_word_other pa pb o i : page_aligned pa -> page_aligned pb -> pa <> pb -> in_page pb i ->
  0 <= o < PGSIZE -> i <> (pa + o) / 8.
Proof.
  intros Ha Hb Hne Hi Ho ->. apply Hne. apply (in_page_disjoint _ _ ((pa + o) / 8)); try done.
  by apply page_word.
Qed.

(** Memory that changes outside the tables translates as before. *)
Lemma pt_same s s' r l l' : pt_inv s r l -> kmem_inv s' l' ->
  (forall p a, table_path p -> tab (words s) r p = Some a -> a ∉ l') ->
  (forall p a i, table_path p -> tab (words s) r p = Some a -> in_page a i -> words s' !! i = words s !! i) ->
  pt_inv s' r l' /\ (forall p, table_path p -> tab (words s') r p = tab (words s) r p) /\
  forall v, xlate (words s') r v = xlate (words s) r v.
Proof.
  intros Hpt Hk Hfree Hsame.
  assert (Htw : forall p a i, table_path p -> tab (words s) r p = Some a -> 0 <= i < 512 ->
    words s' !! (a / 8 + i) = words s !! (a / 8 + i)).
  { intros p a i Hp Ha Hi. apply (Hsame p a); [done|done|]. unfold in_page. lia. }
  assert (Htabs : forall p, table_path p -> tab (words s') r p = tab (words s) r p).
  { intros p Hp. apply tab_frame. intros q j b Hq Hb.
    pose proof (table_path_prefix _ _ Hq Hp) as [Hl Hf]. rewrite length_app in Hl.
    apply Forall_app in Hf as [Hf Hj]. apply list.Forall_cons in Hj as [Hj _].
    unfold child, entry. rewrite (Htw q b j); [done| |done|done]. split; [simpl in Hl; lia|done]. }
  split; [|split; [done|]].
  - constructor; [done| | | |].
    + intros p a Hp. rewrite Htabs by done. intros Ha. split; [by apply (pi_ram _ _ _ Hpt p a)|by apply (Hfree p)].
    + intros p q a Hp Hq. rewrite !Htabs by done. by apply (pi_inj _ _ _ Hpt).
    + intros p a i e Hp Hlp. rewrite Htabs by done. intros Ha Hi. unfold entry. rewrite (Htw p) by done.
      by apply (pi_ptr _ _ _ Hpt p).
    + intros i Hi. pose proof (Htabs [i]) as Htl. cbn in Htl.
      rewrite Htl; [by apply (pi_low _ _ _ Hpt)|]. split; [simpl; lia|constructor; [lia|done]].
  - intros v. unfold xlate. rewrite Htabs by apply va_path.
    destruct (tab (words s) r [PX 2 v; PX 1 v]) as [a|] eqn:Ha; [|done].
    unfold entry. rewrite (Htw _ a (PX 0 v) (va_path v) Ha (PX_range 0 v)). done.
Qed.

Lemma frame_same w w' r v : xlate w' r v = xlate w r v -> frame w' r v = frame w r v.
Proof. unfold frame. by intros ->. Qed.

Lemma user_addr_same w w' r v : xlate w' r v = xlate w r v -> user_addr w' r v = user_addr w r v.
Proof. unfold user_addr. by intros ->. Qed.

(** What holds of the pages that are mapped for the user. *)
Lemma user_frame s r l v : user_ok s r l -> 0 <= v -> user_addr (words s) r v <> 0 ->
  v < MAXVA /\ user_addr (words s) r v = frame (words s) r v /\ ram_page (frame (words s) r v).
Proof.
  intros Hok Hv. unfold user_addr, frame. destruct (Z.ltb_spec v MAXVA); [|done].
  destruct (xlate (words s) r v) as [e|] eqn:E; [|done]. destruct (flag e PTE_U) eqn:Hf; [|done].
  intros _. split_and!; [done..|]. by apply (uo_user _ _ _ Hok v e).
Qed.

Lemma uo_ram s r l v : user_ok s r l -> 0 <= v -> user_addr (words s) r v <> 0 ->
  ram_page (user_addr (words s) r v) /\ user_addr (words s) r v ∉ l.
Proof.
  intros Hok Hv Hnz. destruct (user_frame s r l v Hok Hv Hnz) as (Hm & E & Hr). rewrite E.
  split; [done|]. by apply (uo_free _ _ _ Hok).
Qed.

Lemma uo_inj s r l v v' : user_ok s r l -> 0 <= v -> 0 <= v' -> user_addr (words s) r v <> 0 ->
  user_addr (words s) r v = user_addr (words s) r v' -> v / PGSIZE = v' / PGSIZE.
Proof.
  intros Hok Hv Hv' Hnz E. destruct (user_frame s r l v Hok Hv Hnz) as (Hm & E1 & Hr).
  destruct (user_frame s r l v' Hok Hv') as (Hm' & E2 & _); [congruence|].
  symmetry. by apply (uo_once _ _ _ Hok v v'); [lia|lia| |congruence].
Qed.

Lemma owned_same s s' r q : (forall p, table_path p -> tab (words s') r p = tab (words s) r p) ->
  (forall v, xlate (words s') r v = xlate (words s) r v) -> owned s' r q <-> owned s r q.
Proof.
  intros Ht Hx. unfold owned.
  assert (Hf : forall v, frame (words s') r v = frame (words s) r v) by (intros v; by apply frame_same).
  split; (intros [(p & Hp & Hq)|(v & Hv & Hr & Hq)]; [left|right]).
  - exists p. by rewrite <- Ht.
  - exists v. by rewrite <- Hf.
  - exists p. by rewrite Ht.
  - exists v. by rewrite Hf.
Qed.

(** The same translation, other free pages. *)
Lemma user_ok_same s s' r l l' : user_ok s r l -> pt_inv s' r l' ->
  (forall p, table_path p -> tab (words s') r p = tab (words s) r p) ->
  (forall v, xlate (words s') r v = xlate (words s) r v) ->
  (forall v, 0 <= v < MAXVA -> frame (words s) r v ∉ l') -> user_ok s' r l'.
Proof.
  intros [Hpt Hu Hf Ht Ho] Hpt' Htab Hx Hl'.
  assert (Hfr : forall v, frame (words s') r v = frame (words s) r v).
  { intros v. by apply frame_same. }
  constructor; [done|..].
  - intros v e Hv. rewrite Hx. by apply Hu.
  - intros v Hv. rewrite Hfr. by apply Hl'.
  - intros v p Hv. rewrite Hfr. intros Hr Hp. rewrite Htab by done. by apply Ht.
  - intros v v' Hv Hv'. rewrite !Hfr. by apply Ho.
Qed.

(** Writing into a page of the process changes nothing but its bytes. *)
Lemma page_write s r l v w' : user_ok s r l -> 0 <= v < MAXVA -> ram_page (frame (words s) r v) ->
  (forall i, ~ in_page (frame (words s) r v) i -> w' !! i = words s !! i) ->
  (forall i, is_Some (words s !! i) -> is_Some (w' !! i)) ->
  user_ok (set_words w' s) r l /\ (forall v', xlate w' r v' = xlate (words s) r v') /\
  own_step s r l (set_words w' s) l.
Proof.
  intros Hok Hv Hr Hsame Hdom. pose proof (uo_pt _ _ _ Hok) as Hpt.
  set (pa := frame (words s) r v) in *. destruct Hr as [Hal Hpa].
  assert (Hother : forall q i, page_aligned q -> q <> pa -> in_page q i -> w' !! i = words s !! i).
  { intros q i Hq Hne Hi. apply Hsame. intros Hin. by apply Hne, (in_page_disjoint _ _ i). }
  destruct (pt_same s (set_words w' s) r l l) as (Hpt' & Htab & Hx); [done| | | |].
  - apply kmem_inv_write; [apply Hpt|done|]. intros p Hp.
    destruct (inv_free _ _ (pi_kmem _ _ _ Hpt) p Hp) as [Halp _].
    apply (Hother p); [done| |unfold in_page; lia]. intros ->. by apply (uo_free _ _ _ Hok v Hv).
  - intros p a Hp Ha. by apply (pi_ram _ _ _ Hpt p a).
  - intros p a i Hp Ha Hi. destruct (pi_ram _ _ _ Hpt p a Hp Ha) as [[Hala _] _].
    apply (Hother a); [done| |done]. intros ->. by apply (uo_table _ _ _ Hok v p).
  - split; [apply (user_ok_same s _ r l l); try done; apply Hok|]. split; [done|]. split.
    + intros q. by rewrite (owned_same s (set_words w' s) r q Htab Hx).
    + intros i Hi. apply Hsame, Hi. right. right. by exists v.
Qed.

(** [write_bytes] into the page of [v], and what the process sees. *)
Lemma user_write s r l v bs : user_ok s r l -> 0 <= v -> user_addr (words s) r v <> 0 ->
  v mod PGSIZE + Z.of_nat (length bs) <= PGSIZE ->
  exists s', write_bytes (user_addr (words s) r v + v mod PGSIZE) bs s = Ret tt s' /\ user_ok s' r l /\
    (forall v', xlate (words s') r v' = xlate (words s) r v') /\ own_step s r l s' l /\
    forall v', 0 <= v' -> umem s' r v' =
      if decide (v <= v' < v + Z.of_nat (length bs)) then u8 <$> bs !! Z.to_nat (v' - v) else umem s r v'.
Proof.
  intros Hok Hv Hnz Hfit. destruct (uo_ram _ _ _ v Hok Hv Hnz) as [[Hal Hb] Hnl].
  set (pa := user_addr (words s) r v) in *. pose proof (Z.mod_pos_bound v PGSIZE ltac:(done)) as Ho.
  pose proof (inv_ram _ _ (pi_kmem _ _ _ (uo_pt _ _ _ Hok)) pa (conj Hal Hb)) as Hmap.
  destruct (write_bytes_eq bs (pa + v mod PGSIZE) s) as (w' & E & B & O & D).
  { intros j Hj. apply Hmap. rewrite <- Z.add_assoc. apply page_word; [done|lia]. }
  destruct (user_frame s r l v Hok Hv Hnz) as (Htop & Hfr & Hfram). fold pa in Hfr.
  destruct (page_write s r l v w' Hok (conj Hv Htop) Hfram) as (Hok' & Hx & Hown).
  { rewrite <- Hfr. intros i Hi. apply O. intros j Hj ->. apply Hi. rewrite <- Z.add_assoc. apply page_word; [done|lia]. }
  { done. }
  exists (set_words w' s). split; [done|]. split; [done|]. split; [done|]. split; [done|].
  intros v' Hv'. unfold umem. cbn [words set_words].
  rewrite (user_addr_same (words s)), B by done. pose proof (Z.mod_pos_bound v' PGSIZE ltac:(done)) as Ho'.
  pose proof (Z.div_mod v PGSIZE ltac:(done)) as Dv. pose proof (Z.div_mod v' PGSIZE ltac:(done)) as Dv'.
  destruct (decide (v' / PGSIZE = v / PGSIZE)) as [Ep|Ep].
  - rewrite (user_addr_page _ _ v' v) by done. fold pa. rewrite (proj2 (Z.eqb_neq pa 0)) by done.
    rewrite Ep in Dv'. destruct (decide (v <= v' < v + Z.of_nat (length bs))) as [Hin|Hout].
    + rewrite decide_True by lia. do 2 f_equal. lia.
    + rewrite decide_False by lia. done.
  - rewrite (decide_False (P := v <= v' < v + Z.of_nat (length bs)))
      by (unfold PGSIZE in *; clear -Dv Dv' Ho Ho' Hfit Ep; lia).
    destruct (Z.eqb_spec (user_addr (words s) r v') 0) as [|Hn']; [done|].
    rewrite decide_False; [done|]. intros Hin. apply Ep, (uo_inj _ _ _ v' v Hok); try done. fold pa.
    destruct (uo_ram _ _ _ v' Hok Hv' Hn') as [[Hal' _] _]. unfold page_aligned, PGSIZE in *.
    clear -Hal Hal' Hin Ho Ho' Hfit. zlia.
Qed.

Lemma umem_none s r v : user_addr (words s) r v = 0 -> umem s r v = None.
Proof. intros E. unfold umem. by rewrite E. Qed.

Lemma umem_some s r l v : user_ok s r l -> 0 <= v -> user_addr (words s) r v <> 0 ->
  exists b, umem s r v = Some b /\ 0 <= b < 256.
Proof.
  intros Hok Hv Hnz. destruct (uo_ram _ _ _ v Hok Hv Hnz) as [Hp _].
  pose proof (inv_ram _ _ (pi_kmem _ _ _ (uo_pt _ _ _ Hok)) _ Hp) as Hmap.
  unfold umem. rewrite (proj2 (Z.eqb_neq _ _)) by done.
  destruct (Hmap ((user_addr (words s) r v + v mod PGSIZE) / 8)) as [w Ew].
  { apply page_word; [apply Hp|]. by apply Z.mod_pos_bound. }
  destruct (byte_of (words s) (user_addr (words s) r v + v mod PGSIZE)) as [b|] eqn:E.
  - exists b. split; [done|]. by eapply byte_range.
  - unfold byte_of in E. by rewrite Ew in E.
Qed.

(** The bytes of a part of a page. *)
Lemma user_read s r l v m : user_ok s r l -> 0 <= v -> user_addr (words s) r v <> 0 -> 0 <= m ->
  v mod PGSIZE + m <= PGSIZE -> exists bs, length bs = Z.to_nat m /\
    forall j, 0 <= j < m -> umem s r (v + j) = bs !! Z.to_nat j /\
      byte_of (words s) (user_addr (words s) r v + v mod PGSIZE + j) = bs !! Z.to_nat j.
Proof.
  intros Hok Hv Hnz Hm Hfit. exists ((fun j => default 0 (umem s r (v + j))) <$> seqZ 0 m).
  split; [by rewrite length_fmap, length_seqZ|]. intros j Hj.
  assert (Epage : (v + j) / PGSIZE = v / PGSIZE /\ (v + j) mod PGSIZE = v mod PGSIZE + j).
  { pose proof (Z.mod_pos_bound v PGSIZE ltac:(done)). unfold PGSIZE in *. clear -Hj Hfit. zlia. }
  destruct Epage as [E1 E2].
  assert (Eu : user_addr (words s) r (v + j) = user_addr (words s) r v) by (apply user_addr_page; [lia|lia|done]).
  destruct (umem_some s r l (v + j)) as (b & Eb & _); [done|lia|by rewrite Eu|].
  assert (El : ((fun j => default 0 (umem s r (v + j))) <$> seqZ 0 m) !! Z.to_nat j = Some b).
  { rewrite list_lookup_fmap, lookup_seqZ_lt by lia. simpl. replace (0 + Z.of_nat (Z.to_nat j)) with j by lia.
    by rewrite Eb. }
  rewrite El, Eb. split; [done|]. unfold umem in Eb. rewrite Eu, E2, (proj2 (Z.eqb_neq _ _)) in Eb by done.
  by rewrite <- Z.add_assoc.
Qed.

(** The part of a copy that one page takes. *)
Lemma page_step va len : 0 <= va < MAXVA -> 0 < len ->
  let n := PGSIZE - (va - PGROUNDDOWN va) in
  let m := if len <? n then len else n in
  0 < m <= len /\ va mod PGSIZE + m <= PGSIZE /\
  (len - m = 0 \/ u64 (PGROUNDDOWN va + PGSIZE) = va + m).
Proof.
  intros Hva Hlen. destruct (page_of va) as (H1 & _ & H2); [lia|]. rewrite H2.
  pose proof (Z.mod_pos_bound va PGSIZE ltac:(done)) as Ho. cbv zeta.
  change MAXVA with (2 ^ 38) in Hva. unfold PGSIZE in *.
  destruct (Z.ltb_spec len (4096 - va mod 4096)); (split; [lia|split; [lia|]]); [by left; lia|].
  right. unfold u64. rewrite Z.mod_small by lia. lia.
Qed.

Lemma copyout_eq s r l dstva src :
  user_ok s r l -> 0 <= dstva -> Z.of_nat (length src) < 2 ^ 63 -> Forall (fun b => 0 <= b < 256) src ->
  exists res s' k, copyout r dstva src (Z.of_nat (length src)) s = Ret res s' /\ user_ok s' r l /\
    (forall v, xlate (words s') r v = xlate (words s) r v) /\ own_step s r l s' l /\
    0 <= k <= Z.of_nat (length src) /\
    (forall v, 0 <= v -> umem s' r v =
       if decide (dstva <= v < dstva + k) then src !! Z.to_nat (v - dstva) else umem s r v) /\
    (res = 0 /\ k = Z.of_nat (length src) \/
     res = -1 /\ k < Z.of_nat (length src) /\ umem s r (dstva + k) = None).
Proof.
  intros Hok Hva Hlen Hb. set (len := Z.of_nat (length src)) in *.
  set (seen := fun s' k => forall v, 0 <= v -> umem s' r v =
    if decide (dstva <= v < dstva + k) then src !! Z.to_nat (v - dstva) else umem s r v).
  enough (Hw : wp (copyout r dstva src len) s (fun res s' => user_ok s' r l /\
    (forall v, xlate (words s') r v = xlate (words s) r v) /\ own_step s r l s' l /\ exists k, 0 <= k <= len /\
    seen s' k /\ (res = 0 /\ k = len \/ res = -1 /\ k < len /\ umem s r (dstva + k) = None))).
  { destruct (wp_inv _ _ _ Hw) as (res & s' & E & Hok' & Hx & Ho & k & Hk). exists res, s', k. tauto. }
  apply (wp_loop_idx (fun k' '(va, sr, ln) s' => exists k, k' = len - k /\ 0 <= k <= len /\ ln = len - k /\
    sr = drop (Z.to_nat k) src /\ (ln = 0 \/ va = dstva + k) /\ user_ok s' r l /\
    (forall v, xlate (words s') r v = xlate (words s) r v) /\ own_step s r l s' l /\ seen s' k) _ _ len).
  - exists 0. split_and!; try done; try lia. intros v Hv. by rewrite decide_False by lia.
  - lia.
  - intros k' [[va sr] ln] s' (k & -> & Hk & _). lia.
  - intros k' [[va sr] ln] s1 (k & -> & Hk & -> & -> & Hat & Hok1 & Hx1 & Ho1 & Hseen).
    destruct (Z.ltb_spec 0 (len - k)) as [Hmore|Hend].
    2:{ apply wp_ret. split; [done|]. split; [done|]. split; [done|]. exists k. split; [done|]. split; [done|]. left. split; [done|lia]. }
    destruct Hat as [|Eva]; [lia|]. rewrite Eva. clear Eva. destruct (page_of (dstva + k)) as (P1 & P2 & P3); [lia|].
    apply wp_bind. eapply wp_eq; [by apply (walkaddr_eq Hkend s1 r l), (uo_pt _ _ _ Hok1)|].
    rewrite (user_addr_page _ _ (PGROUNDDOWN (dstva + k)) (dstva + k)) by (done || lia).
    destruct (Z.eqb_spec (user_addr (words s1) r (dstva + k)) 0) as [Hz|Hnz].
    { apply wp_ret. split; [done|]. split; [done|]. split; [done|]. exists k. split; [done|]. split; [done|]. right.
      split; [done|]. split; [lia|]. rewrite <- (umem_none s1 r (dstva + k) Hz), Hseen by lia.
      by rewrite decide_False by lia. }
    assert (Htop : dstva + k < MAXVA).
    { destruct (decide (dstva + k < MAXVA)); [done|]. exfalso. apply Hnz, user_addr_top. lia. }
    destruct (page_step (dstva + k) (len - k)) as (M1 & M2 & M3); [lia|lia|].
    set (m := if len - k <? _ then _ else _) in *. cbv zeta. fold m. rewrite P3.
    assert (Hlt : Z.of_nat (length (take (Z.to_nat m) (drop (Z.to_nat k) src))) = m).
    { rewrite length_take, length_drop. lia. }
    destruct (user_write s1 r l (dstva + k) (take (Z.to_nat m) (drop (Z.to_nat k) src)))
      as (s2 & E & Hok2 & Hx2 & Ho2 & Hu); [done|lia|done|by rewrite Hlt|].
    apply wp_bind. eapply wp_eq; [exact E|]. apply wp_ret. exists (len - (k + m)). split; [|lia].
    exists (k + m). rewrite Hlt in Hu. split; [done|]. split; [lia|]. split; [lia|].
    split; [rewrite drop_drop; f_equal; lia|]. split; [lia|]. split; [done|].
    split; [intros v; by rewrite Hx2|]. split; [by eapply own_step_trans|]. intros v Hv. rewrite Hu by done.
    destruct (decide (dstva + k <= v < dstva + k + m)) as [Hin|Hout].
    + rewrite decide_True by lia. rewrite lookup_take_lt, lookup_drop by lia.
      replace (Z.to_nat k + Z.to_nat (v - (dstva + k)))%nat with (Z.to_nat (v - dstva)) by lia.
      destruct (src !! Z.to_nat (v - dstva)) as [b|] eqn:Eb; [|done]. simpl. f_equal. apply u8_small.
      rewrite Forall_lookup in Hb. by apply (Hb _ _ Eb).
    + rewrite Hseen by done. destruct (decide (dstva <= v < dstva + k)); [by rewrite decide_True by lia|].
      by rewrite decide_False by lia.
Qed.

(** [copyin] returns the bytes at the virtual addresses from [srcva] on and
    changes nothing; it returns -1 exactly when one of their pages is not
    mapped for the user. *)
Theorem copyin_correct s r l srcva len :
  user_ok s r l -> 0 <= srcva -> 0 <= len < 2 ^ 63 ->
  exists res bytes, copyin r srcva len s = Ret (res, bytes) s /\
    (forall i, 0 <= i < Z.of_nat (length bytes) -> umem s r (srcva + i) = bytes !! Z.to_nat i) /\
    (res = 0 /\ Z.of_nat (length bytes) = len \/
     res = -1 /\ Z.of_nat (length bytes) < len /\ umem s r (srcva + Z.of_nat (length bytes)) = None).
Proof.
  intros Hok Hva Hlen.
  set (seen := fun bytes => forall i, 0 <= i < Z.of_nat (length bytes) -> umem s r (srcva + i) = bytes !! Z.to_nat i).
  enough (Hw : wp (copyin r srcva len) s (fun '(res, bytes) s' => s' = s /\ seen bytes /\
    (res = 0 /\ Z.of_nat (length bytes) = len \/
     res = -1 /\ Z.of_nat (length bytes) < len /\ umem s r (srcva + Z.of_nat (length bytes)) = None))).
  { destruct (wp_inv _ _ _ Hw) as ([res bytes] & s' & E & -> & H1 & H2). by exists res, bytes. }
  apply (wp_loop_idx (fun k' '(va, ln, bytes) s' => k' = ln /\ 0 <= ln /\ ln = len - Z.of_nat (length bytes) /\
    (ln = 0 \/ va = srcva + Z.of_nat (length bytes)) /\ s' = s /\ seen bytes) _ _ len).
  - split_and!; try done; try (simpl; lia). intros i Hi. simpl in Hi. lia.
  - lia.
  - intros k' [[va ln] bytes] s' (-> & Hk & _). lia.
  - intros k' [[va ln] bytes] s1 (-> & Hln & Hl & Hat & -> & Hseen).
    destruct (Z.ltb_spec 0 ln) as [Hmore|Hend].
    2:{ apply wp_ret. split; [done|]. split; [done|]. left. split; [done|lia]. }
    destruct Hat as [|Eva]; [lia|]. rewrite Eva. clear Eva. set (k := Z.of_nat (length bytes)) in *.
    destruct (page_of (srcva + k)) as (P1 & P2 & P3); [lia|].
    apply wp_bind. eapply wp_eq; [by apply (walkaddr_eq Hkend s r l), (uo_pt _ _ _ Hok)|].
    rewrite (user_addr_page _ _ (PGROUNDDOWN (srcva + k)) (srcva + k)) by (done || lia).
    destruct (Z.eqb_spec (user_addr (words s) r (srcva + k)) 0) as [Hz|Hnz].
    { apply wp_ret. split; [done|]. split; [done|]. right. split; [done|]. split; [lia|].
      by apply umem_none. }
    assert (Htop : srcva + k < MAXVA).
    { destruct (decide (srcva + k < MAXVA)); [done|]. exfalso. apply Hnz, user_addr_top. lia. }
    destruct (page_step (srcva + k) ln) as (M1 & M2 & M3); [lia|lia|].
    set (m := if ln <? _ then _ else _) in *. cbv zeta. fold m. rewrite P3.
    destruct (user_read s r l (srcva + k) m) as (bs & Hbs & Hread); [done|lia|done|lia|done|].
    apply wp_bind. eapply wp_eq.
    { apply (read_bytes_eq _ _ s bs Hbs). intros j Hj. apply Hread. lia. }
    apply wp_ret. exists (ln - m). split; [|lia]. split; [done|]. split; [lia|].
    split; [rewrite length_app; lia|]. split; [rewrite length_app; lia|]. split; [done|].
    intros i Hi. rewrite length_app in Hi. destruct (decide (i < k)) as [Hik|Hik].
    + rewrite lookup_app_l by lia. apply Hseen. lia.
    + rewrite lookup_app_r by lia. replace (srcva + i) with (srcva + k + (i - k)) by lia.
      replace (Z.to_nat i - length bytes)%nat with (Z.to_nat (i - k)) by lia. apply Hread. lia.
Qed.
(** ** Mapping and unmapping *)

Lemma unused_free s r l q : user_ok s r l -> q ∈ l -> unused s r q.
Proof.
  intros Hok Hq. split.
  - intros p Hp Hq'. by destruct (pi_ram _ _ _ (uo_pt _ _ _ Hok) p q Hp Hq').
  - intros v Hv <-. by apply (uo_free _ _ _ Hok v Hv).
Qed.

Lemma umem_same s s' r l v : user_ok s r l -> 0 <= v -> (v < MAXVA -> xlate (words s') r v = xlate (words s) r v) ->
  (forall i, v < MAXVA -> ram_page (frame (words s) r v) -> in_page (frame (words s) r v) i ->
    words s' !! i = words s !! i) -> umem s' r v = umem s r v.
Proof.
  intros Hok Hv Hx Hw. unfold umem.
  destruct (decide (v < MAXVA)); [|by rewrite !user_addr_top by lia].
  rewrite (user_addr_same (words s)) by auto.
  destruct (Z.eqb_spec (user_addr (words s) r v) 0) as [|Hnz]; [done|].
  destruct (user_frame s r l v Hok Hv Hnz) as (_ & E & Hr). rewrite E in *.
  unfold byte_of. rewrite Hw; [done|done|done|]. apply page_word; [apply Hr|by apply Z.mod_pos_bound].
Qed.

(** What changes in pages that the process does not use is nothing to it. *)
Definition same_user (s s' : phys) (r : Z) : Prop :=
  (forall p, table_path p -> tab (words s') r p = tab (words s) r p) /\
  (forall v, xlate (words s') r v = xlate (words s) r v) /\
  (forall v, 0 <= v -> umem s' r v = umem s r v).

Lemma user_same s s' r l l' : user_ok s r l -> kmem_inv s' l' -> (forall q, q ∈ l' -> unused s r q) ->
  (forall i, (forall q, page_aligned q -> unused s r q -> ~ in_page q i) -> words s' !! i = words s !! i) ->
  user_ok s' r l' /\ same_user s s' r.
Proof.
  intros Hok Hk Hl' Hw. pose proof (uo_pt _ _ _ Hok) as Hpt.
  destruct (pt_same s s' r l l') as (Hpt' & Htab & Hx); [done|done| | |].
  - intros p a Hp Ha Hin. by apply (proj1 (Hl' a Hin) p).
  - intros p a i Hp Ha Hi. destruct (pi_ram _ _ _ Hpt p a Hp Ha) as [[Hal _] _].
    apply Hw. intros q Hq [Hun _] Hqi. apply (Hun p Hp). rewrite Ha. f_equal. by apply (in_page_disjoint _ _ i).
  - assert (Hok' : user_ok s' r l').
    { apply (user_ok_same s s' r l l'); try done. intros v Hv Hin. by apply (proj2 (Hl' _ Hin) v). }
    split; [done|]. split_and!; [done..|]. intros v Hv.
    destruct (decide (v < MAXVA)) as [Hm|]; [|unfold umem; by rewrite !user_addr_top by lia].
    apply (umem_same s s' r l); [done..|]. intros i _ Hr Hi. apply Hw. intros q Hq [_ Hun] Hqi.
    apply (Hun v (conj Hv Hm)). apply (in_page_disjoint _ _ i); try done. apply Hr.
Qed.

(** After a page was mapped at [va]. *)
Definition mapped_at (s s' : phys) (r va pa perm : Z) : Prop :=
  (forall v, 0 <= v < MAXVA -> xlate (words s') r v =
     if decide (v / PGSIZE = va / PGSIZE) then Some (leaf_pte pa perm) else xlate (words s) r v) /\
  (forall v, 0 <= v -> umem s' r v =
     if decide (v / PGSIZE = va / PGSIZE) then
       (if flag perm PTE_U then byte_of (words s) (pa + v mod PGSIZE) else None)
     else umem s r v).

Lemma flag_leaf_U pa perm : page_aligned pa -> 0 <= pa < 2 ^ 56 -> 0 <= perm < 1024 ->
  flag (leaf_pte pa perm) PTE_U = flag perm PTE_U.
Proof. intros. unfold PTE_U. by rewrite !flag_spec, leaf_pte_testbit by first [done|lia]. Qed.

Lemma page_top v va : 0 <= va < MAXVA -> v / PGSIZE = va / PGSIZE -> v < MAXVA.
Proof. change MAXVA with (67108864 * 4096). unfold PGSIZE. intros. zlia. Qed.

(** [walk] leaves the pages alone that are neither free nor tables. *)
Lemma walk_frame_page s r l s' l' q i : pt_inv s r l -> walk_frame s r l s' l' -> ram_page q -> q ∉ l ->
  (forall p, table_path p -> tab (words s) r p <> Some q) -> in_page q i -> words s' !! i = words s !! i.
Proof.
  intros Hpt Hwf Hq Hql Hqt Hi. apply (wf_words _ _ _ _ _ Hwf).
  - intros a Ha Hai. apply Hql. replace q with a; [done|]. apply (in_page_disjoint _ _ i); try done; [|apply Hq].
    by apply (inv_free _ _ (pi_kmem _ _ _ Hpt)).
  - intros p a Hp Ha Hai. apply (Hqt p Hp). rewrite Ha. f_equal. apply (in_page_disjoint _ _ i); try done; [|apply Hq].
    by destruct (pi_ram _ _ _ Hpt p a Hp Ha) as [[? _] _].
Qed.

(** [walk] that maps nothing. *)
Lemma walk_user s r l s' l' : user_ok s r l -> pt_inv s' r l' -> walk_frame s r l s' l' ->
  (forall v, xlate (words s') r v = xlate (words s) r v) ->
  user_ok s' r l' /\ (forall v, 0 <= v -> umem s' r v = umem s r v) /\
  forall q, unused s r q -> q ∉ l -> unused s' r q.
Proof.
  intros Hok Hpt' Hwf Hx. pose proof (uo_pt _ _ _ Hok) as Hpt.
  assert (Hfr : forall v, frame (words s') r v = frame (words s) r v) by (intros v; by apply frame_same).
  split; [|split].
  - constructor; [done|..].
    + intros v e Hv. rewrite Hx. by apply (uo_user _ _ _ Hok).
    + intros v Hv Hin. apply (wf_free _ _ _ _ _ Hwf) in Hin. rewrite Hfr in Hin. by apply (uo_free _ _ _ Hok) in Hin.
    + intros v p Hv. rewrite Hfr. intros Hr Hp Ht. destruct (wf_tab _ _ _ _ _ Hwf p _ Hp Ht) as [Ht'|Hin].
      * by apply (uo_table _ _ _ Hok v p).
      * by apply (uo_free _ _ _ Hok) in Hin.
    + intros v v' Hv Hv'. rewrite !Hfr. by apply (uo_once _ _ _ Hok v v').
  - intros v Hv. apply (umem_same s s' r l); [done|done|done|]. intros i Hm Hr Hi.
    apply (walk_frame_page s r l s' l' (frame (words s) r v) i); try done; [by apply (uo_free _ _ _ Hok)|].
    intros p Hp. by apply (uo_table _ _ _ Hok v p).
  - intros q [Hut Huf] Hql. split.
    + intros p Hp Ht. destruct (wf_tab _ _ _ _ _ Hwf p _ Hp Ht) as [Ht'|]; [|done]. by apply (Hut p).
    + intros v Hv. rewrite Hfr. by apply Huf.
Qed.

(** A page that may be mapped: of RAM and in no other use, or of the kernel, and
    then not for the user. *)
Definition mappable (s : phys) (r : Z) (l : list Z) (pa perm : Z) : Prop :=
  page_aligned pa /\ 0 <= pa < 2 ^ 56 /\ pa ∉ l /\ (ram_page pa -> unused s r pa) /\
  (flag perm PTE_U = true -> ram_page pa).

Lemma mappable_ram s r l pa perm : ram_page pa -> pa ∉ l -> unused s r pa -> mappable s r l pa perm.
Proof. intros Hr Hnl Hun. destruct (ram_page_high Hkend pa Hr) as [Hal Hb]. split_and!; try done; lia. Qed.

Lemma map_any s r l va pa perm s' l' : user_ok s r l -> 0 <= va < MAXVA -> mappable s r l pa perm ->
  0 <= perm < 1024 -> pt_inv s' r l' -> walk_frame s r l s' l' ->
  (forall v, 0 <= v < MAXVA -> xlate (words s') r v =
     if decide (v / PGSIZE = va / PGSIZE) then Some (leaf_pte pa perm) else xlate (words s) r v) ->
  user_ok s' r l' /\ mapped_at s s' r va pa perm.
Proof.
  intros Hok Hva (Hal & Hb & Hnl & Hun & HU) Hperm Hpt' Hwf Hx.
  pose proof (uo_pt _ _ _ Hok) as Hpt.
  assert (Hfr : forall v, 0 <= v < MAXVA -> frame (words s') r v =
    if decide (v / PGSIZE = va / PGSIZE) then pa else frame (words s) r v).
  { intros v Hv. unfold frame. rewrite Hx by done. case_decide; [by apply PTE2PA_leaf|done]. }
  pose proof (walk_frame_page s r l s' l') as Hpage.
  split; [|split; [done|]].
  - constructor; [done|..].
    + intros v e Hv. rewrite Hx by done. case_decide; [|by apply (uo_user _ _ _ Hok)].
      intros [= <-]. rewrite PTE2PA_leaf, flag_leaf_U by done. exact HU.
    + intros v Hv Hin. apply (wf_free _ _ _ _ _ Hwf) in Hin. rewrite Hfr in Hin by done.
      revert Hin. case_decide; [done|]. by apply (uo_free _ _ _ Hok).
    + intros v p Hv. rewrite Hfr by done. intros Hr Hp Ht.
      destruct (wf_tab _ _ _ _ _ Hwf p _ Hp Ht) as [Ht'|Hin]; revert Hr.
      * case_decide; [intros Hr; by apply (Hun Hr) in Ht'|]. intros Hr. by apply (uo_table _ _ _ Hok v p).
      * case_decide; [done|]. by apply (uo_free _ _ _ Hok) in Hin.
    + intros v v' Hv Hv'. rewrite !Hfr by done. do 2 case_decide; intros Hr E; [congruence|..].
      * by apply (Hun Hr) in E.
      * symmetry in E. rewrite E in Hr. by apply (Hun Hr) in E.
      * by apply (uo_once _ _ _ Hok v v').
  - intros v Hv. case_decide as Hp.
    + pose proof (page_top v va Hva Hp) as Hm. unfold umem, user_addr. rewrite (proj2 (Z.ltb_lt _ _)), Hx by lia.
      rewrite decide_True by done. rewrite flag_leaf_U, PTE2PA_leaf by done.
      destruct (flag perm PTE_U); [|done]. specialize (HU eq_refl). destruct (ram_page_high Hkend pa HU) as [_ Hpos].
      rewrite (proj2 (Z.eqb_neq _ _)) by lia. unfold byte_of. rewrite (Hpage pa); [done..| |].
      * apply (Hun HU).
      * apply page_word; [done|by apply Z.mod_pos_bound].
    + apply (umem_same s s' r l); [done|done| |].
      * intros Hm. rewrite Hx by done. by rewrite decide_False.
      * intros i Hm Hr Hi. apply (Hpage _ i Hpt Hwf Hr); [by apply (uo_free _ _ _ Hok)| |done].
        intros p Hp'. by apply (uo_table _ _ _ Hok v p).
Qed.

(** [mappages] of one page, in a process. *)
Lemma map_any_page s r l va pa perm : user_ok s r l -> page_aligned va -> 0 <= va < MAXVA ->
  mappable s r l pa perm -> 0 <= perm < 1024 -> xlate (words s) r va = None ->
  wp (mappages r va PGSIZE pa perm) s (fun res s' => exists l', user_ok s' r l' /\ walk_frame s r l s' l' /\
    (res = 0 /\ mapped_at s s' r va pa perm \/
     res = -1 /\ l' = [] /\ (forall v, 0 <= v < MAXVA -> xlate (words s') r v = xlate (words s) r v) /\
     (forall v, 0 <= v -> umem s' r v = umem s r v) /\ (ram_page pa -> unused s' r pa))).
Proof.
  intros Hok Hal Hva Hm Hperm Hnone. pose proof Hm as (Halp & Hb & Hnl & Hun & _).
  assert (Hlast : PGROUNDDOWN (u64 (va + PGSIZE - 1)) = PGROUNDDOWN va).
  { change MAXVA with (2 ^ 38) in Hva. unfold u64. rewrite Z.mod_small by (unfold PGSIZE; lia).
    rewrite !PGROUNDDOWN_eq. unfold page_aligned, PGSIZE in *. clear -Hal. zlia. }
  assert (Hdown : PGROUNDDOWN va = va).
  { rewrite PGROUNDDOWN_eq. unfold page_aligned, PGSIZE in *. clear -Hal. zlia. }
  unfold mappages. rewrite Hlast, Hdown.
  apply (wp_loop_idx (fun k x s' => k = 0 /\ x = (va, pa) /\ s' = s) _ _ 0); [done|lia|by intros k x s' [-> _]|].
  intros k x s' (-> & -> & ->). cbv beta iota. apply wp_bind.
  eapply wp_mono; [apply (map_one Hkend s r l va pa perm (uo_pt _ _ _ Hok)); done || lia|].
  intros pte s1 (l1 & Hpt1 & Hwf1 & Hx1 & [[-> ->]|(Hnz & e & Hld & Hf & s2 & Hst & Hpt2 & Hwf2 & Hx2)]).
  - destruct (walk_user s r l s1 [] Hok Hpt1 Hwf1 Hx1) as (Hok1 & Hu1 & Hun1).
    apply wp_ret. exists []. split; [done|]. split; [done|]. right. split_and!; auto.
  - rewrite (proj2 (Z.eqb_neq pte 0)) by done. apply wp_bind. eapply wp_eq; [exact Hld|]. cbv beta. rewrite Hf.
    apply wp_bind. eapply wp_eq; [exact Hst|]. cbv beta. rewrite Z.eqb_refl. apply wp_ret.
    exists l1. destruct (map_any s r l va pa perm s2 l1) as [Hok2 Hm2]; try done. split; [done|]. split; [done|]. by left.
Qed.

Lemma map_page s r l va pa perm : user_ok s r l -> page_aligned va -> 0 <= va < MAXVA ->
  ram_page pa -> pa ∉ l -> unused s r pa -> 0 <= perm < 1024 -> xlate (words s) r va = None ->
  wp (mappages r va PGSIZE pa perm) s (fun res s' => exists l', user_ok s' r l' /\ walk_frame s r l s' l' /\
    (res = 0 /\ mapped_at s s' r va pa perm \/
     res = -1 /\ l' = [] /\ (forall v, 0 <= v < MAXVA -> xlate (words s') r v = xlate (words s) r v) /\
     (forall v, 0 <= v -> umem s' r v = umem s r v) /\ unused s' r pa)).
Proof.
  intros Hok Hal Hva Hram Hnl Hun Hperm Hnone.
  eapply wp_mono; [apply (map_any_page s r l va pa perm); try done; by apply mappable_ram|].
  intros res s' (l' & Hok' & Hwf & H'). exists l'. split; [done|]. split; [done|].
  destruct H' as [H'|(? & ? & ? & ? & ?)]; [by left|right]. split_and!; auto.
Qed.

(** *** [uvmunmap] *)

(** Freeing the page that is mapped at [va]. *)
Lemma free_page s r l va (do_free : bool) : user_ok s r l -> 0 <= va < MAXVA ->
  (do_free = true -> ram_page (frame (words s) r va)) ->
  exists s' l', when do_free (kfree (frame (words s) r va)) s = Ret tt s' /\ pt_inv s' r l' /\
    l' = (if do_free then frame (words s) r va :: l else l) /\
    (forall p, table_path p -> tab (words s') r p = tab (words s) r p) /\
    (forall v, xlate (words s') r v = xlate (words s) r v) /\
    (forall i, ~ in_page (frame (words s) r va) i -> words s' !! i = words s !! i).
Proof.
  intros Hok Hva Hr. pose proof (uo_pt _ _ _ Hok) as Hpt. set (pa := frame (words s) r va) in *.
  destruct do_free; [|by exists s, l]. specialize (Hr eq_refl).
  destruct (kfree_eq Hkend s l pa (pi_kmem _ _ _ Hpt) Hr) as (s' & E & Hk & Hw & _); [by apply (uo_free _ _ _ Hok)|].
  destruct (pt_same s s' r l (pa :: l)) as (Hpt' & Htab & Hx); [done|done| | |by exists s', (pa :: l)].
  - intros p a Hp Ha [->|Hin]%elem_of_cons; [by apply (uo_table _ _ _ Hok va p)|].
    by destruct (pi_ram _ _ _ Hpt p a Hp Ha).
  - intros p a i Hp Ha Hi. destruct (pi_ram _ _ _ Hpt p a Hp Ha) as [[Hal _] _]. apply Hw. intros Hin.
    apply (uo_table _ _ _ Hok va p Hva Hr Hp). fold pa. rewrite Ha. f_equal.
    apply (in_page_disjoint _ _ i); try done. apply Hr.
Qed.

(** Clearing the entry of [va]. *)
Lemma clear_entry s r l va b : pt_inv s r l -> 0 <= va < MAXVA -> tab (words s) r [PX 2 va; PX 1 va] = Some b ->
  exists s', store64 (b + 8 * PX 0 va) 0 s = Ret tt s' /\ pt_inv s' r l /\
    (forall p, table_path p -> tab (words s') r p = tab (words s) r p) /\
    (forall v, 0 <= v < MAXVA -> xlate (words s') r v =
      if decide (v / PGSIZE = va / PGSIZE) then None else xlate (words s) r v) /\
    (forall i, ~ in_page b i -> words s' !! i = words s !! i).
Proof.
  intros Hpt Hva Hb. pose proof (PX_range 0 va) as Hpx. pose proof (va_path va) as Hp.
  destruct (pi_ram _ _ _ Hpt _ _ Hp Hb) as [[Hal _] _]. destruct (pt_entry s r l _ b (PX 0 va) Hpt Hp Hb Hpx) as [e He].
  eexists. split; [apply (store64_entry s b (PX 0 va) e 0); done|]. cbn [words set_words]. split_and!.
  - by apply (pt_inv_leaf_store s r l [PX 2 va; PX 1 va]).
  - intros p Hp'. by apply (tab_leaf_store s r l [PX 2 va; PX 1 va]).
  - intros v Hv. by rewrite (xlate_store s r l va b).
  - intros i Hi. rewrite lookup_insert_ne; [done|]. intros <-. apply Hi. unfold in_page. lia.
Qed.

Lemma frame_aligned w r v : page_aligned (frame w r v).
Proof.
  unfold frame, page_aligned, PTE2PA, u64, PGSIZE. destruct (xlate w r v) as [e|]; [|done].
  rewrite (Z.shiftl_mul_pow2 _ 12) by lia. change (2 ^ 64) with (2 ^ 52 * 2 ^ 12).
  rewrite Z.mul_mod_distr_r by lia. by apply Z_mod_mult.
Qed.

(** The process after the page at [va] was unmapped, and freed or not. *)
Lemma unmapped_user s r l va s' l' : user_ok s r l -> 0 <= va < MAXVA -> pt_inv s' r l' ->
  (forall p, table_path p -> tab (words s') r p = tab (words s) r p) ->
  (forall v, 0 <= v < MAXVA -> xlate (words s') r v =
    if decide (v / PGSIZE = va / PGSIZE) then None else xlate (words s) r v) ->
  (forall q, q ∈ l' -> q ∈ l \/ q = frame (words s) r va /\ ram_page q) ->
  (forall i, (forall q, q = frame (words s) r va \/ (exists p, table_path p /\ tab (words s) r p = Some q) ->
    ~ in_page q i) -> words s' !! i = words s !! i) ->
  user_ok s' r l' /\ (forall v, 0 <= v -> umem s' r v =
    if decide (v / PGSIZE = va / PGSIZE) then None else umem s r v).
Proof.
  intros Hok Hva Hpt' Ht Hx Hl' Hw. pose proof (uo_pt _ _ _ Hok) as Hpt.
  assert (H0 : ~ ram_page 0) by (intros [_ Hr]; clear -Hkend Hr; unfold KERNBASE in *; lia).
  assert (Hf : forall v, 0 <= v < MAXVA -> frame (words s') r v =
    if decide (v / PGSIZE = va / PGSIZE) then 0 else frame (words s) r v).
  { intros v Hv. unfold frame. rewrite Hx by done. by case_decide. }
  assert (Hother : forall v, 0 <= v < MAXVA -> v / PGSIZE <> va / PGSIZE -> ram_page (frame (words s) r v) ->
    frame (words s) r va <> frame (words s) r v).
  { intros v Hv Hne Hr E. apply Hne. symmetry. by apply (uo_once _ _ _ Hok v va). }
  split; [constructor; [done|..]|].
  - intros v e Hv. rewrite Hx by done. case_decide; [done|]. by apply (uo_user _ _ _ Hok).
  - intros v Hv. rewrite Hf by done. case_decide as Hp.
    + intros Hin. by apply (inv_free _ _ (pi_kmem _ _ _ Hpt')) in Hin.
    + intros [Hin|[E Hr]]%Hl'; [by apply (uo_free _ _ _ Hok) in Hin|]. by apply (Hother v).
  - intros v p Hv. rewrite Hf by done. case_decide; [done|]. intros Hr Hp. rewrite Ht by done.
    by apply (uo_table _ _ _ Hok).
  - intros v v' Hv Hv'. rewrite !Hf by done. do 2 case_decide; intros Hr E; [done|done|by rewrite <- E in Hr|].
    by apply (uo_once _ _ _ Hok v v').
  - intros v Hv. case_decide as Hp.
    + apply umem_none. unfold user_addr. rewrite (proj2 (Z.ltb_lt _ _)), Hx by (try split; try done; by eapply page_top).
      by rewrite decide_True.
    + apply (umem_same s s' r l); [done|done| |].
      * intros Hm. rewrite Hx by done. by rewrite decide_False.
      * intros i Hm Hr Hi. apply Hw. intros q [->|(p & Hp' & Hq)] Hqi.
        -- apply (Hother v (conj Hv Hm) Hp Hr). apply (in_page_disjoint _ _ i); try done; [apply frame_aligned|apply Hr].
        -- apply (uo_table _ _ _ Hok v p (conj Hv Hm) Hr Hp'). rewrite Hq. f_equal.
           destruct (pi_ram _ _ _ Hpt p q Hp' Hq) as [[Hal _] _]. apply (in_page_disjoint _ _ i); try done. apply Hr.
Qed.

Lemma unmapped_own s r l va s' : user_ok s r l -> 0 <= va < MAXVA -> ram_page (frame (words s) r va) ->
  (forall p, table_path p -> tab (words s') r p = tab (words s) r p) ->
  (forall v, 0 <= v < MAXVA -> xlate (words s') r v =
    if decide (v / PGSIZE = va / PGSIZE) then None else xlate (words s) r v) ->
  (forall i, (forall q, q = frame (words s) r va \/ (exists p, table_path p /\ tab (words s) r p = Some q) ->
    ~ in_page q i) -> words s' !! i = words s !! i) ->
  own_step s r l s' (frame (words s) r va :: l).
Proof.
  intros Hok Hva Hr Ht Hx Hw.
  assert (H0 : ~ ram_page 0) by (intros [_ Hr0]; clear -Hkend Hr0; unfold KERNBASE in *; lia).
  assert (Hf : forall v, 0 <= v < MAXVA -> frame (words s') r v =
    if decide (v / PGSIZE = va / PGSIZE) then 0 else frame (words s) r v).
  { intros v Hv. unfold frame. rewrite Hx by done. by case_decide. }
  split.
  - intros q. rewrite elem_of_cons. unfold owned. split.
    + intros [[->|Hq]|[(p & Hp & Hq)|(v & Hv & Hrv & Hq)]]; [right; right; eauto|by left| |].
      * rewrite Ht in Hq by done. right. left. eauto.
      * rewrite Hf in Hrv, Hq by done. case_decide; [done|]. right. right. eauto.
    + intros [Hq|[(p & Hp & Hq)|(v & Hv & Hrv & Hq)]]; [left; by right| |].
      * right. left. exists p. by rewrite Ht.
      * destruct (decide (v / PGSIZE = va / PGSIZE)) as [Hp|Hp].
        -- left. left. rewrite <- Hq. apply frame_page; [lia..|done].
        -- right. right. exists v. rewrite Hf by done. by rewrite decide_False.
  - intros i Hi. apply Hw. intros q [->|Hq]; apply Hi; right; [right; eauto|by left].
Qed.

(** One page of the loop of [uvmunmap]. *)
Lemma unmap_page s r l va e (do_free : bool) : user_ok s r l -> page_aligned va -> 0 <= va < MAXVA ->
  xlate (words s) r va = Some e -> (do_free = true -> ram_page (PTE2PA e)) ->
  exists pte s', walk r va false s = Ret pte s /\ pte <> 0 /\ load64 pte s = Ret e s /\ flag e PTE_V = true /\
    (when do_free (kfree (PTE2PA e)) ;;; store64 pte 0) s = Ret tt s' /\
    user_ok s' r (if do_free then PTE2PA e :: l else l) /\
    (forall v, 0 <= v < MAXVA -> xlate (words s') r v =
      if decide (v / PGSIZE = va / PGSIZE) then None else xlate (words s) r v) /\
    (forall v, 0 <= v -> umem s' r v =
      if decide (v / PGSIZE = va / PGSIZE) then None else umem s r v) /\
    (do_free = true -> own_step s r l s' (PTE2PA e :: l)).
Proof.
  intros Hok Hal Hva Hx Hram. pose proof (uo_pt _ _ _ Hok) as Hpt.
  assert (Hfr : frame (words s) r va = PTE2PA e) by (unfold frame; by rewrite Hx).
  assert (Hxx := Hx). unfold xlate in Hxx. destruct (tab (words s) r [PX 2 va; PX 1 va]) as [b|] eqn:Hb; [|done].
  destruct (entry (words s) b (PX 0 va)) as [e'|] eqn:He; [|done].
  destruct (flag e' PTE_V) eqn:Hf; [|done]. injection Hxx as ->.
  destruct (pi_ram _ _ _ Hpt _ _ (va_path va) Hb) as [[Halb Hbb] _]. pose proof (PX_range 0 va) as Hpx.
  rewrite <- Hfr in Hram |- *.
  destruct (free_page s r l va do_free Hok Hva Hram) as (s1 & l1 & E1 & Hpt1 & El1 & Ht1 & Hx1 & Hw1).
  destruct (clear_entry s1 r l1 va b Hpt1 Hva) as (s2 & E2 & Hpt2 & Ht2 & Hx2 & Hw2); [by rewrite Ht1 by apply va_path|].
  assert (Hts : forall p, table_path p -> tab (words s2) r p = tab (words s) r p).
  { intros p Hp. by rewrite Ht2, Ht1. }
  assert (Hxs : forall v, 0 <= v < MAXVA -> xlate (words s2) r v =
    if decide (v / PGSIZE = va / PGSIZE) then None else xlate (words s) r v).
  { intros v Hv. by rewrite Hx2, Hx1. }
  assert (Hws : forall i, (forall q, q = frame (words s) r va \/
      (exists p, table_path p /\ tab (words s) r p = Some q) -> ~ in_page q i) -> words s2 !! i = words s !! i).
  { intros i Hi. rewrite Hw2, Hw1; [done|apply Hi; by left|apply Hi; right]. exists [PX 2 va; PX 1 va].
    split; [apply va_path|done]. }
  destruct (unmapped_user s r l va s2 l1) as [Hok2 Hu2]; try done.
  { intros q Hq. rewrite El1 in Hq. destruct do_free; [|by left].
    apply elem_of_cons in Hq as [->|]; [right; auto|by left]. }
  exists (b + 8 * PX 0 va), s2. rewrite <- El1. split_and!; try done.
  - rewrite (walk_lookup s r l va Hpt) by lia. by rewrite Hb.
  - unfold KERNBASE in Hkend. lia.
  - by apply load64_entry.
  - rewrite (bind_eq _ _ _ _ _ E1). exact E2.
  - intros ->. by apply unmapped_own; auto.
Qed.
Lemma seq_eq {A} (m1 m2 : PM unit) (k : PM A) s s' : (m1 ;;; m2) s = Ret tt s' -> (m1 ;;; m2 ;;; k) s = k s'.
Proof. intros E. rewrite <- (bind_assoc m1 (fun _ => m2) (fun _ => k)). by rewrite (bind_eq _ _ _ _ _ E). Qed.

(** The pages that [uvmunmap] frees, last first. *)
Definition unmapped (w : gmap Z Z) (r va n : Z) (do_free : bool) : list Z :=
  if do_free then reverse ((fun k => frame w r (va + k * PGSIZE)) <$> seqZ 0 n) else [].

(** The addresses from [va] on for [n] pages are gone. *)
Definition without (s s' : phys) (r va n : Z) : Prop :=
  (forall v, 0 <= v < MAXVA -> xlate (words s') r v =
    if decide (va <= v < va + n * PGSIZE) then None else xlate (words s) r v) /\
  (forall v, 0 <= v -> umem s' r v = if decide (va <= v < va + n * PGSIZE) then None else umem s r v).

Lemma without_snoc {A} va k v (x y : A) : page_aligned va -> 0 <= k ->
  (if decide (v / PGSIZE = (va + k * PGSIZE) / PGSIZE) then x else
   if decide (va <= v < va + k * PGSIZE) then x else y) =
  if decide (va <= v < va + (k + 1) * PGSIZE) then x else y.
Proof.
  intros Hal Hk. destruct (page_range_snoc va k v Hal) as [Hiff|]; [|lia].
  destruct (decide (v / PGSIZE = (va + k * PGSIZE) / PGSIZE)) as [E|E].
  - rewrite decide_True; [done|]. apply Hiff. by right.
  - destruct (decide (va <= v < va + k * PGSIZE)) as [E'|E'].
    + rewrite decide_True; [done|]. apply Hiff. by left.
    + rewrite decide_False; [done|]. rewrite Hiff. tauto.
Qed.

(** [uvmunmap] over mapped pages. *)
Lemma uvmunmap_eq s r l va n do_free : user_ok s r l -> page_aligned va -> 0 <= va -> 0 <= n ->
  va + n * PGSIZE <= MAXVA ->
  (forall k, 0 <= k < n -> exists e, xlate (words s) r (va + k * PGSIZE) = Some e /\ PTE_FLAGS e <> PTE_V /\
    (do_free = true -> ram_page (PTE2PA e))) ->
  wp (uvmunmap r va n do_free) s (fun _ s' => let l' := unmapped (words s) r va n do_free ++ l in
    user_ok s' r l' /\ without s s' r va n /\ (do_free = true -> own_step s r l s' l')).
Proof.
  intros Hok Hal Hva Hn Htop Hmap. assert (HM : MAXVA = 2 ^ 38) by done. assert (HPG : PGSIZE = 4096) by done.
  unfold uvmunmap. unfold page_aligned in Hal. rewrite Hal. cbn [Z.eqb negb].
  assert (Hsum : u64 (va + n * PGSIZE) = va + n * PGSIZE).
  { unfold u64. rewrite Z.mod_small; [done|]. rewrite HPG, HM in *. lia. }
  rewrite Hsum.
  apply (wp_loop_idx (fun k' a s' => exists k, k' = n - k /\ 0 <= k <= n /\ a = va + k * PGSIZE /\
    let l' := unmapped (words s) r va k do_free ++ l in
    user_ok s' r l' /\ without s s' r va k /\ (do_free = true -> own_step s r l s' l')) _ _ n).
  - exists 0. split; [lia|]. split; [lia|]. split; [lia|].
    assert (unmapped (words s) r va 0 do_free = []) as -> by by destruct do_free.
    split; [done|]. split; [|intros _; apply own_step_refl].
    split; intros v Hv; by rewrite decide_False by lia.
  - rewrite HPG, HM in *. lia.
  - intros k' a s' (k & -> & Hk & _). lia.
  - intros k' a s1 (k & -> & Hk & -> & Hok1 & [Hx1 Hu1] & Hown1).
    destruct (Z.ltb_spec (va + k * PGSIZE) (va + n * PGSIZE)) as [Hlt|Hge].
    2:{ apply wp_ret. assert (k = n) as -> by (rewrite HPG in *; lia). done. }
    assert (Hkn : k < n) by (rewrite HPG in *; lia). destruct (Hmap k) as (e & He & Hfl & Hr); [lia|].
    assert (Hin : 0 <= va + k * PGSIZE < MAXVA) by (rewrite HPG in *; lia).
    assert (Ha : page_aligned (va + k * PGSIZE)) by (unfold page_aligned; by rewrite Z_mod_plus_full).
    assert (He1 : xlate (words s1) r (va + k * PGSIZE) = Some e).
    { rewrite Hx1 by done. by rewrite decide_False by lia. }
    destruct (unmap_page s1 r _ (va + k * PGSIZE) e do_free Hok1 Ha Hin He1 Hr)
      as (pte & s2 & E1 & Hnz & E2 & Hv & E3 & Hok2 & Hx2 & Hu2 & Hown2).
    apply wp_bind. eapply wp_eq; [exact E1|]. cbv beta. rewrite (proj2 (Z.eqb_neq pte 0)) by done.
    apply wp_bind. eapply wp_eq; [exact E2|]. cbv beta. rewrite Hv, (proj2 (Z.eqb_neq _ _) Hfl). cbn [negb].
    eapply wp_eq; [rewrite (seq_eq _ _ _ _ _ E3); done|].
    exists (n - (k + 1)). split; [|lia]. exists (k + 1). split; [done|]. split; [lia|].
    split; [unfold u64; rewrite Z.mod_small; rewrite HPG, HM in *; lia|]. 
    assert (El : (if do_free then PTE2PA e :: unmapped (words s) r va k do_free ++ l
        else unmapped (words s) r va k do_free ++ l) = unmapped (words s) r va (k + 1) do_free ++ l).
    { destruct do_free; [|done]. unfold unmapped. rewrite seqZ_app, fmap_app, reverse_app by lia.
      rewrite <- app_assoc. simpl. f_equal.
      replace (Z.of_nat 0 + (0 + k)) with k by lia. unfold frame. by rewrite He. }
    cbv zeta. rewrite El in Hok2. split; [done|]. split; [split; intros v Hvr|].
    + rewrite Hx2, Hx1 by done. by apply without_snoc; [|lia].
    + rewrite Hu2, Hu1 by done. by apply without_snoc; [|lia].
    + intros Hf. eapply own_step_trans; [by apply Hown1|]. rewrite <- El, Hf. rewrite Hf in Hown2. by apply Hown2.
Qed.
(** *** Allocating pages *)

Lemma same_user_refl s r : same_user s s r.
Proof. done. Qed.

Lemma same_user_trans s1 s2 s3 r : same_user s1 s2 r -> same_user s2 s3 r -> same_user s1 s3 r.
Proof.
  intros (T1 & X1 & U1) (T2 & X2 & U2). split_and!.
  - intros p Hp. by rewrite T2, T1.
  - intros v. by rewrite X2, X1.
  - intros v Hv. by rewrite U2, U1.
Qed.

Lemma same_user_owned s s' r q : same_user s s' r -> owned s' r q <-> owned s r q.
Proof. intros (Ht & Hx & _). by apply owned_same. Qed.

Lemma same_user_unused s s' r q : same_user s s' r -> unused s r q -> unused s' r q.
Proof.
  intros (Ht & Hx & _) [Hu1 Hu2]. split.
  - intros p Hp. rewrite Ht by done. by apply Hu1.
  - intros v Hv. rewrite (frame_same (words s)) by done. by apply Hu2.
Qed.

Lemma own_step_extra s r l s' l' q : own_step s r l s' l' -> own_step s r (q :: l) s' (q :: l').
Proof.
  intros [H1 W]. split.
  - intros q'. rewrite !elem_of_cons. specialize (H1 q'). tauto.
  - intros i Hi. apply W. intros q' Hq'. apply Hi. destruct Hq' as [Hq'|]; [left; by right|by right].
Qed.

(** A change in a page that the process does not use. *)
Lemma touch_unused s s' r l l' q : user_ok s r l -> kmem_inv s' l' -> page_aligned q -> unused s r q ->
  (forall q', q' ∈ l' -> unused s r q') ->
  (forall i, ~ in_page q i -> words s' !! i = words s !! i) ->
  user_ok s' r l' /\ same_user s s' r /\ own_step s r (q :: l) s' (q :: l).
Proof.
  intros Hok Hk Hal Hun Hl' Hw. destruct (user_same s s' r l l' Hok Hk Hl') as [Hok' Hs].
  { intros i Hi. by apply Hw, Hi. }
  split; [done|]. split; [done|]. split.
  - intros q'. by rewrite (same_user_owned _ _ _ _ Hs).
  - intros i Hi. apply Hw, Hi. left. apply list_elem_of_here.
Qed.

Lemma kalloc_user s r pa l : user_ok s r (pa :: l) -> exists s1, kalloc s = Ret pa s1 /\ user_ok s1 r l /\
  ram_page pa /\ pa ∉ l /\ unused s1 r pa /\ same_user s s1 r /\ own_step s r (pa :: l) s1 (pa :: l).
Proof.
  intros Hok. pose proof (pi_kmem _ _ _ (uo_pt _ _ _ Hok)) as Hk.
  destruct (kalloc_eq Hkend s _ Hk) as (x & s1 & E & _ & -> & Hk1 & Hf).
  assert (Hram : ram_page pa) by (apply (inv_free _ _ Hk), list_elem_of_here).
  pose proof (inv_nodup _ _ Hk) as [Hnl _]%list.NoDup_cons.
  assert (Hun : unused s r pa) by (eapply unused_free; [done|apply list_elem_of_here]).
  destruct (touch_unused s s1 r (pa :: l) l pa) as (Hok1 & Hs1 & Ho1); try done.
  { apply Hram. } { intros q Hq. eapply unused_free; [done|by right]. } { intros i Hi. by apply Hf. }
  exists s1. split_and!; try done; [by eapply same_user_unused|].
  split; [intros q; by rewrite (same_user_owned _ _ _ _ Hs1)|].
  intros i Hi. apply Ho1. intros q Hq. apply Hi. destruct Hq as [Hq|]; [|by right]. left.
  apply elem_of_cons in Hq as [->|]; [apply list_elem_of_here|done].
Qed.

Lemma kalloc_none s r : user_ok s r [] -> exists s1, kalloc s = Ret 0 s1 /\ user_ok s1 r [] /\
  same_user s s1 r /\ own_step s r [] s1 [].
Proof.
  intros Hok. destruct (kalloc_eq Hkend s _ (pi_kmem _ _ _ (uo_pt _ _ _ Hok))) as (x & s1 & E & _ & -> & Hw & Hk1).
  destruct (user_same s s1 r [] [] Hok Hk1) as [Hok1 Hs1]; [by intros q Hq%not_elem_of_nil|by rewrite Hw|].
  exists s1. split_and!; try done. split; [intros q; by rewrite (same_user_owned _ _ _ _ Hs1)|by rewrite Hw].
Qed.

Lemma kfree_user s r l pa : user_ok s r l -> ram_page pa -> pa ∉ l -> unused s r pa ->
  exists s1, kfree pa s = Ret tt s1 /\ user_ok s1 r (pa :: l) /\ same_user s s1 r /\
    own_step s r (pa :: l) s1 (pa :: l).
Proof.
  intros Hok Hram Hnl Hun.
  destruct (kfree_eq Hkend s l pa (pi_kmem _ _ _ (uo_pt _ _ _ Hok)) Hram Hnl) as (s1 & E & Hk & Hw & _).
  destruct (touch_unused s s1 r l (pa :: l) pa) as (Hok1 & Hs1 & Ho1); try done; [apply Hram| |by exists s1].
  intros q [->|Hq]%elem_of_cons; [done|by eapply unused_free].
Qed.

(** Writing a page before it is mapped. *)
Lemma fresh_write s r l pa w : user_ok s r l -> ram_page pa -> pa ∉ l -> unused s r pa ->
  (forall i, is_Some (words s !! i) -> is_Some (w !! i)) -> (forall i, ~ in_page pa i -> w !! i = words s !! i) ->
  let s1 := set_words w s in user_ok s1 r l /\ same_user s s1 r /\ own_step s r (pa :: l) s1 (pa :: l).
Proof.
  intros Hok Hram Hnl Hun Hdom Hw. pose proof (pi_kmem _ _ _ (uo_pt _ _ _ Hok)) as Hk.
  apply (touch_unused s (set_words w s) r l l pa); try done; [|apply Hram|intros q Hq; by eapply unused_free].
  apply kmem_inv_write; [done..|]. intros q Hq. destruct (inv_free _ _ Hk q Hq) as [Hq1 _]. apply Hw. intros Hin.
  apply Hnl. replace pa with q; [done|]. apply (in_page_disjoint _ _ (q / 8)); try done; [apply Hram|unfold in_page; lia].
Qed.

Lemma clear_page s r l pa : user_ok s r l -> ram_page pa -> pa ∉ l -> unused s r pa ->
  exists s1, memset_page pa 0 s = Ret tt s1 /\ user_ok s1 r l /\ same_user s s1 r /\
    own_step s r (pa :: l) s1 (pa :: l) /\ forall o, 0 <= o < PGSIZE -> byte_of (words s1) (pa + o) = Some 0.
Proof.
  intros Hok Hram Hnl Hun. pose proof (pi_kmem _ _ _ (uo_pt _ _ _ Hok)) as Hk.
  destruct (memset_page_eq s pa 0) as (w & E & Hf); [apply Hram|by apply (inv_ram _ _ Hk)|].
  destruct (fresh_write s r l pa w) as (Hok1 & Hs1 & Ho1); try done.
  - intros i Hi. destruct (Hf i) as [F1 F2].
    destruct (decide (pa / 8 <= i < pa / 8 + 512)); [rewrite F1 by done; eauto|by rewrite F2].
  - intros i Hi. by apply Hf.
  - exists (set_words w s). split_and!; try done. intros o Ho. unfold byte_of. cbn [words set_words].
    rewrite (proj1 (Hf _)); [|by apply page_word; [apply Hram|]]. cbn [fmap option_fmap option_map].
    unfold get_byte, rep8. by rewrite Z.mul_0_l, Z.shiftr_0_l.
Qed.

(** [walk] moves pages from the free list to the tables only. *)
Lemma walk_frame_pages s r l s' l' : walk_frame s r l s' l' -> forall q,
  q ∈ l' \/ (exists p, table_path p /\ tab (words s') r p = Some q) <->
  q ∈ l \/ (exists p, table_path p /\ tab (words s) r p = Some q).
Proof.
  intros [F T K U W] q. split.
  - intros [Hq|(p & Hp & Hq)]; [left; by apply F|]. destruct (T p q Hp Hq) as [Hq'|]; [right|by left]. by exists p.
  - intros [Hq|(p & Hp & Hq)]; [by apply U|right]. exists p. auto.
Qed.

Lemma walk_frame_words s r l s' l' i : walk_frame s r l s' l' ->
  (forall q, q ∈ l \/ owned s r q -> ~ in_page q i) -> words s' !! i = words s !! i.
Proof.
  intros Hwf Hi. apply (wf_words _ _ _ _ _ Hwf).
  - intros q Hq. apply Hi. by left.
  - intros p q Hp Hq. apply Hi. right. left. by exists p.
Qed.

Lemma walk_own s r l s' l' : walk_frame s r l s' l' ->
  (forall v, 0 <= v < MAXVA -> xlate (words s') r v = xlate (words s) r v) -> own_step s r l s' l'.
Proof.
  intros Hwf Hx. split; [|intros i; by apply (walk_frame_words s r l s' l')]. intros q. unfold owned.
  pose proof (walk_frame_pages s r l s' l' Hwf q) as Hq.
  assert (Hf : (exists v, 0 <= v < MAXVA /\ ram_page (frame (words s') r v) /\ frame (words s') r v = q) <->
    (exists v, 0 <= v < MAXVA /\ ram_page (frame (words s) r v) /\ frame (words s) r v = q)).
  { split; intros (v & Hv & Hvq); exists v; (split; [done|]); revert Hvq; by rewrite (frame_same (words s) (words s')) by (by apply Hx). }
  tauto.
Qed.

Lemma map_own s r l va pa perm s' l' : walk_frame s r l s' l' -> 0 <= va < MAXVA -> ram_page pa ->
  0 <= perm < 1024 -> xlate (words s) r va = None -> mapped_at s s' r va pa perm -> own_step s r (pa :: l) s' l'.
Proof.
  intros Hwf Hva Hr Hperm Hnone [Hx _]. destruct (ram_page_high Hkend pa Hr) as [Hal Hb].
  assert (Hf : forall v, 0 <= v < MAXVA -> frame (words s') r v =
    if decide (v / PGSIZE = va / PGSIZE) then pa else frame (words s) r v).
  { intros v Hv. unfold frame. rewrite Hx by done. case_decide; [by apply PTE2PA_leaf; [|lia|]|done]. }
  split.
  - intros q. pose proof (walk_frame_pages s r l s' l' Hwf q) as Hq. rewrite elem_of_cons. unfold owned.
    assert (Hfr : (exists v, 0 <= v < MAXVA /\ ram_page (frame (words s') r v) /\ frame (words s') r v = q) <->
      q = pa \/ (exists v, 0 <= v < MAXVA /\ ram_page (frame (words s) r v) /\ frame (words s) r v = q)).
    { split.
      - intros (v & Hv & Hrv & E). rewrite Hf in Hrv, E by done. case_decide; [by left|right]. by exists v.
      - intros [->|(v & Hv & Hrv & E)]; [exists va|exists v]; rewrite Hf by done; [by rewrite decide_True|].
        rewrite decide_False; [done|]. intros Hp. revert Hrv. rewrite (frame_page _ _ v va) by (done || lia).
        unfold frame. rewrite Hnone. intros [_ H0]. clear -Hkend H0. unfold KERNBASE in *. lia. }
    tauto.
  - intros i Hi. apply (walk_frame_words s r l s' l' i Hwf). intros q Hq. apply Hi.
    destruct Hq; [left; by right|by right].
Qed.

(** Pages of the process that [uvmdealloc] may free. *)
Definition backed (w : gmap Z Z) (r va n : Z) : Prop :=
  forall k, 0 <= k < n -> exists e, xlate w r (va + k * PGSIZE) = Some e /\ PTE_FLAGS e <> PTE_V /\ ram_page (PTE2PA e).

(** The number of pages between two sizes. *)
Definition page_diff (oldsz newsz : Z) : Z := Z.max 0 ((PGROUNDUP oldsz - PGROUNDUP newsz) / PGSIZE).

Lemma PGROUNDUP_mono a b : 0 <= a <= b -> b < 2 ^ 63 -> PGROUNDUP a <= PGROUNDUP b.
Proof. intros Hab Hb. rewrite !PGROUNDUP_eq by lia. unfold PGSIZE. clear -Hab. zlia. Qed.

Lemma PGROUNDUP_top a : 0 <= a <= MAXVA -> 0 <= PGROUNDUP a <= MAXVA.
Proof.
  change MAXVA with (67108864 * 4096). intros Ha. rewrite PGROUNDUP_eq by lia. unfold PGSIZE. clear -Ha. zlia.
Qed.

Lemma length_unmapped w r va n : 0 <= n -> Z.of_nat (length (unmapped w r va n true)) = n.
Proof. intros Hn. unfold unmapped. rewrite length_reverse, length_fmap, length_seqZ. lia. Qed.

Lemma uvmdealloc_eq s r l oldsz newsz : user_ok s r l -> 0 <= newsz <= MAXVA -> 0 <= oldsz <= MAXVA ->
  backed (words s) r (PGROUNDUP newsz) (page_diff oldsz newsz) ->
  wp (uvmdealloc r oldsz newsz) s (fun res s' => res = Z.min oldsz newsz /\ exists l', user_ok s' r l' /\
    without s s' r (PGROUNDUP newsz) (page_diff oldsz newsz) /\ own_step s r l s' l' /\
    Z.of_nat (length l') = Z.of_nat (length l) + page_diff oldsz newsz).
Proof.
  intros Hok Hnew Hold Hb. unfold uvmdealloc.
  assert (Hsame : PGROUNDUP oldsz <= PGROUNDUP newsz -> page_diff oldsz newsz = 0).
  { intros Hle. unfold page_diff, PGSIZE. clear -Hle. zlia. }
  assert (Hno : page_diff oldsz newsz = 0 -> exists l', user_ok s r l' /\
    without s s r (PGROUNDUP newsz) (page_diff oldsz newsz) /\ own_step s r l s l' /\
    Z.of_nat (length l') = Z.of_nat (length l) + page_diff oldsz newsz).
  { intros ->. exists l. split_and!; [done| |done|lia]. split; intros v Hv; by rewrite decide_False by lia. }
  assert (HM : MAXVA = 2 ^ 38) by done.
  destruct (Z.leb_spec oldsz newsz) as [Hle|Hlt].
  { apply wp_ret. split; [lia|]. apply Hno, Hsame, PGROUNDUP_mono; lia. }
  pose proof (PGROUNDUP_mono newsz oldsz) as Hmono.
  destruct (Z.ltb_spec (PGROUNDUP newsz) (PGROUNDUP oldsz)) as [Hup|Hup].
  2:{ apply wp_bind, wp_ret, wp_ret. split; [lia|]. by apply Hno, Hsame. }
  destruct (PGROUNDUP_top newsz) as [T1 T2]; [done|]. destruct (PGROUNDUP_top oldsz) as [T3 T4]; [done|].
  destruct (PGROUNDUP_bounds newsz) as [A1 _]; [lia|]. destruct (PGROUNDUP_bounds oldsz) as [A2 _]; [lia|].
  set (n := page_diff oldsz newsz) in *.
  assert (Hn : (PGROUNDUP oldsz - PGROUNDUP newsz) / PGSIZE = n /\ PGROUNDUP newsz + n * PGSIZE = PGROUNDUP oldsz /\ 0 <= n).
  { subst n. unfold page_diff, page_aligned, PGSIZE in *. clear -A1 A2 Hup. zlia. }
  destruct Hn as (Hn & Hsum & Hn0). rewrite Hn.
  assert (Hu : u64 (s32 n) = n).
  { assert (n < 2 ^ 31) by (unfold PGSIZE in Hsum; lia). rewrite s32_small by (unfold is_int, INT_MIN, INT_MAX; lia).
    unfold u64. rewrite Z.mod_small by lia. done. }
  cbn [when]. rewrite Hu. apply wp_bind. eapply wp_mono; [apply (uvmunmap_eq s r l (PGROUNDUP newsz) n true); try done; [lia|]|].
  { intros k Hk. destruct (Hb k Hk) as (e & He & Hfl & Hr). exists e. auto. }
  cbv zeta. intros _ s' (Hok' & Hw & Ho). apply wp_ret. split; [lia|].
  eexists. split; [exact Hok'|]. split; [done|]. split; [by apply Ho|].
  rewrite length_app, Nat2Z.inj_add, length_unmapped by done. lia.
Qed.
Lemma PGROUNDUP_aligned a : page_aligned a -> 0 <= a < 2 ^ 63 -> PGROUNDUP a = a.
Proof. intros Hal Ha. rewrite PGROUNDUP_eq by done. unfold page_aligned, PGSIZE in *. clear -Hal Ha. zlia. Qed.

(** The process with [k] more pages from [old] on, with the bytes [f]. *)
Definition grown (f : Z -> option Z) (s s' : phys) (r old k : Z) : Prop :=
  backed (words s') r old k /\
  (forall v, 0 <= v < MAXVA -> ~ old <= v < old + k * PGSIZE -> xlate (words s') r v = xlate (words s) r v) /\
  (forall v, 0 <= v -> umem s' r v = if decide (old <= v < old + k * PGSIZE) then f v else umem s r v).

(** Every address translates to the same page with the same bytes. *)
Definition same_mem (s s' : phys) (r : Z) : Prop :=
  (forall v, 0 <= v < MAXVA -> xlate (words s') r v = xlate (words s) r v) /\
  (forall v, 0 <= v -> umem s' r v = umem s r v).

Lemma unmapped_none s r v : (v < MAXVA -> xlate (words s) r v = None) -> umem s r v = None.
Proof.
  intros Hx. apply umem_none. unfold user_addr. destruct (Z.ltb_spec v MAXVA); [|done]. by rewrite Hx.
Qed.

(** Giving the new pages back. *)
Lemma grown_without f s s1 s' r old k : grown f s s1 r old k -> without s1 s' r old k ->
  (forall v, old <= v < old + k * PGSIZE -> xlate (words s) r v = None) -> same_mem s s' r.
Proof.
  intros (Hb & Hx & Hu) [Hx' Hu'] Hnone. split; intros v Hv.
  - rewrite Hx' by done. case_decide; [by rewrite Hnone|by apply Hx].
  - rewrite Hu', Hu by done. case_decide; [|done]. symmetry. apply unmapped_none. auto.
Qed.

Lemma grown_undo f s s1 r l1 old k : user_ok s1 r l1 -> grown f s s1 r old k -> page_aligned old -> 0 <= old -> 0 <= k ->
  old + k * PGSIZE <= MAXVA -> (forall v, old <= v < old + k * PGSIZE -> xlate (words s) r v = None) ->
  wp (uvmdealloc r (old + k * PGSIZE) old) s1 (fun _ s' => exists l', user_ok s' r l' /\ same_mem s s' r /\
    own_step s1 r l1 s' l' /\ Z.of_nat (length l') = Z.of_nat (length l1) + k).
Proof.
  intros Hok Hg Hal Hold Hk Htop Hnone. assert (HM : MAXVA = 2 ^ 38) by done.
  assert (HP : PGSIZE = 4096) by done.
  assert (Hsum : page_aligned (old + k * PGSIZE)) by (unfold page_aligned; by rewrite Z_mod_plus_full).
  assert (E1 : PGROUNDUP old = old) by (apply PGROUNDUP_aligned; [done|lia]).
  assert (E2 : page_diff (old + k * PGSIZE) old = k).
  { unfold page_diff. rewrite E1, PGROUNDUP_aligned by (done || lia).
    rewrite Z.add_simpl_l, Z.div_mul by done. lia. }
  eapply wp_mono; [apply (uvmdealloc_eq s1 r l1 (old + k * PGSIZE) old); try done; [lia|lia|rewrite E1, E2; apply Hg]|].
  rewrite E1, E2. intros res s' (_ & l' & Hok' & Hw & Ho & Hl). exists l'. split; [done|]. split; [|done].
  by apply (grown_without f s s1 s' r old k).
Qed.

Definition UPERM : Z := Z.lor (Z.lor (Z.lor PTE_W PTE_X) PTE_R) PTE_U.

Lemma leaf_flags pa perm : page_aligned pa -> 0 <= pa < 2 ^ 56 -> 0 <= perm < 1024 -> flag perm PTE_U = true ->
  PTE_FLAGS (leaf_pte pa perm) <> PTE_V.
Proof.
  intros Hal Hpa Hp HU E. assert (Hb : Z.testbit (PTE_FLAGS (leaf_pte pa perm)) 4 = false) by by rewrite E.
  unfold PTE_FLAGS in Hb. rewrite Z.land_spec, andb_true_r in Hb.
  rewrite <- (flag_leaf_U pa perm) in HU by done. unfold PTE_U in HU. rewrite flag_spec in HU by lia. congruence.
Qed.

(** One more page. *)
Lemma grown_page f s s1 s2 r old k pa perm : grown f s s1 r old k -> mapped_at s1 s2 r (old + k * PGSIZE) pa perm ->
  page_aligned old -> 0 <= old -> 0 <= k -> old + (k + 1) * PGSIZE <= MAXVA -> ram_page pa -> 0 <= perm < 1024 ->
  PTE_FLAGS (leaf_pte pa perm) <> PTE_V ->
  (forall v, old + k * PGSIZE <= v < old + (k + 1) * PGSIZE ->
    (if flag perm PTE_U then byte_of (words s1) (pa + v mod PGSIZE) else None) = f v) -> grown f s s2 r old (k + 1).
Proof.
  intros (Hb & Hx & Hu) [Mx Mu] Hal Hold Hk Htop Hr Hperm Hfl Hf. destruct (ram_page_high Hkend pa Hr) as [Halp Hpa].
  assert (HP : PGSIZE = 4096) by done.
  assert (Hpg : forall j, 0 <= j <= k -> 0 <= old + j * PGSIZE < MAXVA) by (intros j Hj; rewrite HP in *; lia).
  split; [|split].
  - intros j Hj. destruct (decide (j = k)) as [->|Hne].
    + exists (leaf_pte pa perm). rewrite Mx by (apply Hpg; lia). rewrite decide_True by done.
      split; [done|]. by rewrite PTE2PA_leaf by (done || lia).
    + destruct (Hb j) as (e & He & Hfe & Hre); [lia|]. exists e. rewrite Mx by (apply Hpg; lia).
      rewrite decide_False; [done|]. unfold page_aligned in Hal. rewrite HP in *. clear -Hne Hal. zlia.
  - intros v Hv Hout. rewrite Mx by done. rewrite decide_False.
    + apply Hx; [done|]. rewrite HP in *. lia.
    + destruct (page_range_snoc old k v Hal) as [Hiff|]; [|lia]. intros E. apply Hout, Hiff. by right.
  - intros v Hv. rewrite Mu, Hu by done. rewrite <- without_snoc by done. case_decide as Hpv; [|done].
    apply Hf. unfold page_aligned in Hal. rewrite HP in *. clear -Hpv Hal. zlia.
Qed.
Lemma grown_same f s s1 s2 r old k : grown f s s1 r old k -> same_mem s1 s2 r -> 0 <= old -> old + k * PGSIZE <= MAXVA ->
  grown f s s2 r old k.
Proof.
  intros (Hb & Hx & Hu) [Hx' Hu'] Hold Htop. split; [|split].
  - intros j Hj. rewrite Hx'; [by apply Hb|]. unfold PGSIZE in *. clear -Hj Hold Htop. lia.
  - intros v Hv Hout. rewrite Hx' by done. by apply Hx.
  - intros v Hv. by rewrite Hu', Hu.
Qed.

Lemma same_user_mem s s' r : same_user s s' r -> same_mem s s' r.
Proof. intros (_ & Hx & Hu). by split. Qed.

Definition zeroes : Z -> option Z := fun _ => Some 0.

(** The result of one round of the loop of [uvmalloc], which runs with [k] of
    the [n] pages allocated. *)
Definition alloc_round (s : phys) (r : Z) (l : list Z) (old n k : Z) (x : Z + Z) (s' : phys) : Prop :=
  match x with
  | inl a => a = old + (k + 1) * PGSIZE /\ exists l', user_ok s' r l' /\ grown zeroes s s' r old (k + 1) /\ own_step s r l s' l'
  | inr res => res = 0 /\ exists l', user_ok s' r l' /\ same_mem s s' r /\ own_step s r l s' l' /\ Z.of_nat (length l') <= n
  end.

Lemma uvmalloc_round s s1 r l l1 old n k : user_ok s1 r l1 -> grown zeroes s s1 r old k -> own_step s r l s1 l1 ->
  page_aligned old -> 0 <= old -> 0 <= k < n -> old + n * PGSIZE <= MAXVA ->
  (forall v, old <= v < old + n * PGSIZE -> xlate (words s) r v = None) ->
  wp (let! mem := kalloc in
      if mem =? 0 then uvmdealloc r (old + k * PGSIZE) old ;;; ret (inr 0)
      else
        memset_page mem 0 ;;;
        let! e := mappages r (old + k * PGSIZE) PGSIZE mem UPERM in
        if negb (e =? 0) then kfree mem ;;; uvmdealloc r (old + k * PGSIZE) old ;;; ret (inr 0)
        else ret (inl (u64 (old + k * PGSIZE + PGSIZE)))) s1 (alloc_round s r l old n k).
Proof.
  intros Hok1 Hg1 Ho1 Hal Hold Hk Htop Hnone. assert (HM : MAXVA = 2 ^ 38) by done. assert (HP : PGSIZE = 4096) by done.
  assert (Hin : 0 <= old + k * PGSIZE < MAXVA /\ old + (k + 1) * PGSIZE <= MAXVA /\ old + k * PGSIZE <= MAXVA) by (rewrite HP in *; lia).
  destruct Hin as (Hin & Hin1 & Hin2).
  assert (Hundo : forall s2 l2, user_ok s2 r l2 -> grown zeroes s s2 r old k -> own_step s r l s2 l2 ->
    Z.of_nat (length l2) <= 1 ->
    wp (uvmdealloc r (old + k * PGSIZE) old ;;; ret (inr 0)) s2 (alloc_round s r l old n k)).
  { intros s2 l2 Hok2 Hg2 Ho2 Hl2. apply wp_bind. eapply wp_mono; [apply (grown_undo zeroes s s2 r l2 old k); try done; [lia|]|].
    - intros v Hv. apply Hnone. rewrite HP in *. lia.
    - intros x s3 (l3 & Hok3 & Hm3 & Ho3 & Hl3). apply wp_ret. split; [done|]. exists l3.
      split_and!; [done|done|by eapply own_step_trans|lia]. }
  apply wp_bind. destruct l1 as [|pa l1].
  { destruct (kalloc_none s1 r Hok1) as (s2 & E & Hok2 & Hs2 & Ho2). eapply wp_eq; [exact E|]. cbv beta.
    rewrite Z.eqb_refl. apply (Hundo s2 []); [done| |by eapply own_step_trans|done].
    by apply (grown_same zeroes s s1 s2); [|by apply same_user_mem|lia|lia]. }
  destruct (kalloc_user s1 r pa l1 Hok1) as (s2 & E & Hok2 & Hr & Hnl & Hun & Hs2 & Ho2).
  eapply wp_eq; [exact E|]. cbv beta. pose proof (ram_page_bounds Hkend pa Hr) as Hpb.
  rewrite (proj2 (Z.eqb_neq pa 0)) by lia.
  destruct (clear_page s2 r l1 pa Hok2 Hr Hnl Hun) as (s3 & E3 & Hok3 & Hs3 & Ho3 & Hz).
  apply wp_bind. eapply wp_eq; [exact E3|]. cbv beta. pose proof (same_user_trans _ _ _ _ Hs2 Hs3) as Hs.
  assert (Hg3 : grown zeroes s s3 r old k) by (by apply (grown_same zeroes s s1 s3); [|by apply same_user_mem|lia|lia]).
  assert (Ho : own_step s r l s3 (pa :: l1)) by (do 2 (eapply own_step_trans; [done|]); done).
  apply wp_bind. eapply wp_mono; [apply (map_page s3 r l1 (old + k * PGSIZE) pa UPERM); try done|].
  - unfold page_aligned. by rewrite Z_mod_plus_full.
  - by apply (same_user_unused s2 s3).
  - destruct Hg3 as (_ & Hx & _). rewrite Hx; [|done|lia]. apply Hnone. rewrite HP in *. lia.
  - intros e s4 (l4 & Hok4 & Hwf & [[-> Hmap]|(-> & -> & Hx4 & Hu4 & Hun4)]); cbn [Z.eqb negb].
    + apply wp_ret. split; [unfold u64; rewrite Z.mod_small; rewrite HP, HM in *; lia|]. exists l4.
      split; [done|]. split.
      { apply (grown_page zeroes s s3 s4 r old k pa UPERM); try done; [lia| |].
        - destruct (ram_page_high Hkend pa Hr). by apply leaf_flags; [done|lia|..].
        - intros v _. apply Hz. by apply Z.mod_pos_bound. }
      eapply own_step_trans; [exact Ho|].
      apply (map_own s3 r l1 (old + k * PGSIZE) pa UPERM); try done. destruct Hg3 as (_ & Hx & _). rewrite Hx; [|done|lia]. apply Hnone. rewrite HP in *. lia.
    + destruct (kfree_user s4 r [] pa Hok4 Hr) as (s5 & E5 & Hok5 & Hs5 & Ho5); [by apply not_elem_of_nil|done|].
      apply wp_bind. eapply wp_eq; [exact E5|]. apply (Hundo s5 [pa]); [done| | |done].
      * apply (grown_same zeroes s s4 s5); [|by apply same_user_mem|lia|lia]. by apply (grown_same zeroes s s3 s4); [| |lia|lia].
      * eapply own_step_trans; [exact Ho|]. eapply own_step_trans; [|exact Ho5]. apply own_step_extra. by eapply walk_own.
Qed.

Lemma uvmalloc_eq s r l oldsz newsz :
  user_ok s r l -> 0 <= oldsz <= MAXVA -> 0 <= newsz <= MAXVA ->
  (forall v, PGROUNDUP oldsz <= v < PGROUNDUP newsz -> xlate (words s) r v = None) ->
  exists res s' l', uvmalloc r oldsz newsz s = Ret res s' /\ user_ok s' r l' /\ own_step s r l s' l' /\
    ((res = Z.max oldsz newsz /\
      (forall v, 0 <= v < MAXVA -> ~ PGROUNDUP oldsz <= v < PGROUNDUP newsz -> xlate (words s') r v = xlate (words s) r v) /\
      (forall v, 0 <= v -> umem s' r v =
         if decide (PGROUNDUP oldsz <= v < PGROUNDUP newsz) then Some 0 else umem s r v)) \/
     (res = 0 /\ Z.of_nat (length l') <= page_diff newsz oldsz /\ same_mem s s' r)).
Proof.
  intros Hok Hold Hnew Hnone. assert (HM : MAXVA = 2 ^ 38) by done. assert (HP : PGSIZE = 4096) by done.
  unfold uvmalloc. destruct (Z.ltb_spec newsz oldsz) as [Hlt|Hle].
  { exists oldsz, s, l. split; [done|]. split; [done|]. split; [apply own_step_refl|]. left. split; [lia|].
    split; [done|]. intros v Hv. rewrite decide_False; [done|]. pose proof (PGROUNDUP_mono newsz oldsz). lia. }
  destruct (PGROUNDUP_bounds oldsz) as [A1 B1]; [lia|]. destruct (PGROUNDUP_bounds newsz) as [A2 B2]; [lia|].
  destruct (PGROUNDUP_top newsz Hnew) as [_ T2]. set (old := PGROUNDUP oldsz) in *. set (n := page_diff newsz oldsz).
  assert (Hn : old + n * PGSIZE = PGROUNDUP newsz /\ 0 <= n).
  { subst n. unfold page_diff. fold old. assert (Hmono : old <= PGROUNDUP newsz) by (apply PGROUNDUP_mono; lia).
    unfold page_aligned in *. rewrite HP in *. clear -A1 A2 Hmono. zlia. }
  destruct Hn as [Hn Hn0]. rewrite <- Hn in *.
  set (P := fun res s' => exists l', user_ok s' r l' /\ own_step s r l s' l' /\
    ((res = newsz /\ grown zeroes s s' r old n) \/ (res = 0 /\ Z.of_nat (length l') <= n /\ same_mem s s' r))).
  match goal with |- context [loop old ?body] => enough (Hw : wp (loop old body) s P) end.
  { destruct (wp_inv _ _ _ Hw) as (res & s' & E & l' & Hok' & Ho & Hres). exists res, s', l'.
    split; [done|]. split; [done|]. split; [done|]. destruct Hres as [(-> & _ & Hx & Hu)|Hf]; [left|by right].
    split; [lia|]. done. }
  apply (wp_loop_idx (fun k' a s' => exists k l', k' = n - k /\ 0 <= k <= n /\ a = old + k * PGSIZE /\ user_ok s' r l' /\
    grown zeroes s s' r old k /\ own_step s r l s' l') _ _ n); [|rewrite HP, HM in *; lia|intros ??? (k & l' & -> & ?); lia|].
  - exists 0, l. split; [lia|]. split; [lia|]. split; [lia|]. split; [done|]. split; [|apply own_step_refl].
    split; [intros j Hj; lia|]. split; [done|]. intros v Hv. by rewrite decide_False by lia.
  - intros k' a s1 (k & l1 & -> & Hk & -> & Hok1 & Hg1 & Ho1).
    destruct (Z.ltb_spec (old + k * PGSIZE) newsz) as [Hmore|Hend].
    2:{ apply wp_ret. exists l1. split; [done|]. split; [done|]. left. split; [done|].
        assert (k = n) as -> by (rewrite HP in *; lia). done. }
    eapply wp_mono; [apply (uvmalloc_round s s1 r l l1 old n k); try done; rewrite HP in *; lia|].
    intros [a'|res] s2; cbn [alloc_round].
    + intros (-> & l2 & ?). exists (n - (k + 1)). split; [|lia]. exists (k + 1), l2. split_and!; try tauto; rewrite HP in *; lia.
    + intros (-> & l2 & Hok2 & Hm & Ho2 & Hl). exists l2. split; [done|]. split; [done|]. by right.
Qed.
(** ** Several processes *)

(** The process [r1] uses no page that is free or that [r2] uses. *)
Definition apart (s : phys) (r1 r2 : Z) (l : list Z) : Prop :=
  forall q, q ∈ l \/ owned s r2 q -> unused s r1 q.

Lemma owned_aligned s r l q : user_ok s r l -> q ∈ l \/ owned s r q -> page_aligned q.
Proof.
  intros Hok [Hq|[(p & Hp & Hq)|(v & _ & Hr & <-)]]; [| |apply Hr].
  - by apply (inv_free _ _ (pi_kmem _ _ _ (uo_pt _ _ _ Hok))).
  - by destruct (pi_ram _ _ _ (uo_pt _ _ _ Hok) p q Hp Hq) as [[? _] _].
Qed.

(** What one process does to its pages and the free ones is nothing to another. *)
Lemma isolated s s' r1 r2 l l' l1 : user_ok s r1 l -> user_ok s r2 l -> apart s r1 r2 l ->
  own_step s r2 l s' l' -> kmem_inv s' l1 -> (forall q, q ∈ l1 -> q ∈ l') ->
  user_ok s' r1 l1 /\ same_user s s' r1 /\ apart s' r1 r2 l'.
Proof.
  intros Hok1 Hok2 Hap [Hown Hw] Hk Hsub.
  assert (Hl' : forall q, q ∈ l' \/ owned s' r2 q -> unused s r1 q) by (intros q Hq; by apply Hap, Hown).
  destruct (user_same s s' r1 l l1 Hok1 Hk) as [Hok' Hs]; [auto| |].
  { intros i Hi. apply Hw. intros q Hq. apply Hi; [by eapply owned_aligned|by apply Hap]. }
  split; [done|]. split; [done|]. intros q Hq. apply (same_user_unused s s'); auto.
Qed.

(** *** Copying a page *)

Lemma copy_words_eq n k s dst src : page_aligned dst -> page_aligned src -> dst <> src -> 0 <= k -> k + Z.of_nat n <= 512 ->
  page_mapped (words s) dst -> page_mapped (words s) src ->
  exists w', copy_words n (dst + 8 * k) (src + 8 * k) s = Ret tt (set_words w' s) /\
    (forall i, ~ dst / 8 + k <= i < dst / 8 + k + Z.of_nat n -> w' !! i = words s !! i) /\
    (forall i, is_Some (words s !! i) -> is_Some (w' !! i)) /\
    (forall j, k <= j < k + Z.of_nat n -> w' !! (dst / 8 + j) = u64 <$> words s !! (src / 8 + j)).
Proof.
  intros Hd Hs Hne. revert k s. induction n as [|n IH]; intros k s Hk Hn Hmd Hms; cbn [copy_words].
  { exists (words s). rewrite set_words_id. split_and!; try done. lia. }
  destruct (Hms (src / 8 + k)) as [w Ew]; [unfold in_page; lia|].
  destruct (Hmd (dst / 8 + k)) as [w0 Ew0]; [unfold in_page; lia|].
  set (s1 := set_words (<[dst / 8 + k := u64 w]> (words s)) s).
  assert (Hdom : forall i, is_Some (words s !! i) -> is_Some (words s1 !! i)).
  { intros i Hi. cbn. rewrite lookup_insert_is_Some. destruct (decide (dst / 8 + k = i)); auto. }
  destruct (IH (k + 1) s1) as (w' & E & H1 & H2 & H3); [lia|lia|..].
  { intros i Hi. by apply Hdom, Hmd. } { intros i Hi. by apply Hdom, Hms. }
  exists w'. split; [|split; [|split]].
  - rewrite (bind_eq _ _ s w s) by by apply (load64_entry s src k w).
    rewrite (bind_eq _ _ s tt s1).
    + replace (dst + 8 * k + 8) with (dst + 8 * (k + 1)) by lia. by replace (src + 8 * k + 8) with (src + 8 * (k + 1)) by lia.
    + unfold store64. rewrite word_mod8, word_div8 by done. by rewrite Ew0.
  - intros i Hi. rewrite H1 by lia. cbn. apply lookup_insert_ne. lia.
  - auto.
  - intros j Hj. destruct (decide (j = k)) as [->|Hjk].
    + rewrite H1 by lia. cbn. by rewrite lookup_insert_eq, Ew.
    + rewrite H3 by lia. cbn. rewrite lookup_insert_ne; [done|]. intros E'. apply Hne.
      apply (in_page_disjoint _ _ (dst / 8 + k)); try done; unfold in_page; lia.
Qed.

Lemma copy_page_eq s dst src : page_aligned dst -> page_aligned src -> dst <> src ->
  page_mapped (words s) dst -> page_mapped (words s) src ->
  exists w', copy_page dst src s = Ret tt (set_words w' s) /\ (forall i, ~ in_page dst i -> w' !! i = words s !! i) /\
    (forall i, is_Some (words s !! i) -> is_Some (w' !! i)) /\
    (forall o, 0 <= o < PGSIZE -> byte_of w' (dst + o) = byte_of (words s) (src + o)).
Proof.
  intros Hd Hs Hne Hmd Hms. destruct (copy_words_eq 512 0 s dst src) as (w' & E & H1 & H2 & H3); try done.
  exists w'. rewrite Z.mul_0_r, !Z.add_0_r in E. split; [done|]. split; [|split; [done|]].
  - intros i Hi. apply H1. unfold in_page in Hi. lia.
  - intros o Ho. pose proof (page_div dst Hd) as [Hd8 _]. pose proof (page_div src Hs) as [Hs8 _].
    assert (Ediv : forall q, q = 8 * (q / 8) -> (q + o) / 8 = q / 8 + o / 8 /\ (q + o) mod 8 = o mod 8).
    { intros q Hq. clear -Hq. zlia. }
    destruct (Ediv dst Hd8) as [D1 D2]. destruct (Ediv src Hs8) as [S1 S2].
    unfold byte_of. rewrite D1, D2, S1, S2, H3 by (unfold PGSIZE in Ho; clear -Ho; zlia).
    destruct (words s !! (src / 8 + o / 8)) as [w|]; [|done]. simpl. f_equal. apply get_byte_u64. by apply Z.mod_pos_bound.
Qed.
Lemma copy_fresh s r l pa src : user_ok s r l -> ram_page pa -> pa ∉ l -> unused s r pa -> ram_page src -> pa <> src ->
  exists s1, copy_page pa src s = Ret tt s1 /\ user_ok s1 r l /\ same_user s s1 r /\
    own_step s r (pa :: l) s1 (pa :: l) /\
    forall o, 0 <= o < PGSIZE -> byte_of (words s1) (pa + o) = byte_of (words s) (src + o).
Proof.
  intros Hok Hram Hnl Hun Hsrc Hne. pose proof (pi_kmem _ _ _ (uo_pt _ _ _ Hok)) as Hk.
  destruct (copy_page_eq s pa src) as (w & E & Hw & Hdom & Hb);
    [apply Hram|apply Hsrc|done|by apply (inv_ram _ _ Hk)|by apply (inv_ram _ _ Hk)|].
  destruct (fresh_write s r l pa w) as (Hok1 & Hs1 & Ho1); try done. by exists (set_words w s).
Qed.

(** *** [uvmcopy] *)

Lemma PTE_FLAGS_spec e k : 0 <= k -> Z.testbit (PTE_FLAGS e) k = Z.testbit e k && (k <? 10).
Proof.
  intros Hk. unfold PTE_FLAGS. rewrite Z.land_spec. f_equal. change 1023 with (Z.ones 10).
  rewrite Z.testbit_ones by lia. by rewrite (proj2 (Z.leb_le 0 k)).
Qed.

Lemma PTE_FLAGS_range e : 0 <= PTE_FLAGS e < 1024.
Proof. unfold PTE_FLAGS. change 1023 with (Z.ones 10). rewrite Z.land_ones by lia. by apply Z.mod_pos_bound. Qed.

Lemma PTE_FLAGS_U e : flag (PTE_FLAGS e) PTE_U = flag e PTE_U.
Proof. unfold PTE_U. rewrite !flag_spec, PTE_FLAGS_spec by lia. by rewrite andb_true_r. Qed.

Lemma copied_flags e pa : 0 <= pa < 2 ^ 56 -> flag e PTE_V = true -> PTE_FLAGS e <> PTE_V ->
  PTE_FLAGS (leaf_pte pa (PTE_FLAGS e)) <> PTE_V.
Proof.
  intros Hpa Hv Hne E. apply Hne. apply Z.bits_inj'. intros i Hi. rewrite PTE_FLAGS_spec by done.
  destruct (decide (i = 0)) as [->|Hi0].
  { unfold PTE_V in Hv. rewrite flag_spec in Hv by lia. by rewrite Hv. }
  destruct (Z.ltb_spec i 10) as [Hlt|Hge].
  - rewrite <- E, PTE_FLAGS_spec, leaf_pte_testbit, PTE_FLAGS_spec by lia. rewrite (proj2 (Z.ltb_lt _ _)) by done. by rewrite !andb_true_r.
  - rewrite andb_false_r. change PTE_V with (2 ^ 0). by rewrite Z.pow2_bits_false by lia.
Qed.

Lemma xlate_valid w r v e : xlate w r v = Some e -> flag e PTE_V = true.
Proof.
  unfold xlate. destruct (tab w r [PX 2 v; PX 1 v]) as [a|]; [|done].
  destruct (entry w a (PX 0 v)) as [e'|]; [|done]. destruct (flag e' PTE_V) eqn:E; [|done]. by intros [= <-].
Qed.

Lemma walk_entry s r l va e : pt_inv s r l -> 0 <= va < MAXVA -> xlate (words s) r va = Some e ->
  exists pte, walk r va false s = Ret pte s /\ pte <> 0 /\ load64 pte s = Ret e s.
Proof.
  intros Hpt Hva Hx. unfold xlate in Hx. destruct (tab (words s) r [PX 2 va; PX 1 va]) as [b|] eqn:Hb; [|done].
  destruct (entry (words s) b (PX 0 va)) as [e'|] eqn:He; [|done]. destruct (flag e' PTE_V); [|done].
  injection Hx as ->. destruct (pi_ram _ _ _ Hpt _ _ (va_path va) Hb) as [[Hal Hr] _]. pose proof (PX_range 0 va) as Hp.
  exists (b + 8 * PX 0 va). split; [|split].
  - rewrite (walk_lookup s r l va Hpt) by lia. by rewrite Hb.
  - unfold KERNBASE in Hkend. lia.
  - by apply load64_entry.
Qed.

(** What the process sees in a page is the page. *)
Lemma umem_page s r v a e : 0 <= v < MAXVA -> 0 <= a -> v / PGSIZE = a / PGSIZE -> xlate (words s) r a = Some e ->
  ram_page (PTE2PA e) ->
  umem s r v = if flag e PTE_U then byte_of (words s) (PTE2PA e + v mod PGSIZE) else None.
Proof.
  intros Hv Ha Hp He Hr. unfold umem. rewrite (user_addr_page _ _ v a) by (done || lia).
  pose proof (page_top a v Hv (eq_sym Hp)) as Htop. unfold user_addr. rewrite (proj2 (Z.ltb_lt _ _)), He by done.
  pose proof (ram_page_bounds Hkend _ Hr). destruct (flag e PTE_U); [|done].
  by rewrite (proj2 (Z.eqb_neq _ _)) by lia.
Qed.

(** The loop of [uvmcopy] after [k] pages. *)
Definition copied (s : phys) (old new : Z) (l : list Z) (k : Z) (s1 : phys) (l1 : list Z) : Prop :=
  user_ok s1 new l1 /\ grown (umem s old) s s1 new 0 k /\ own_step s new l s1 l1.

(** One round of it: the child has the page of the parent. *)
Lemma uvmcopy_round s s1 old new l l1 k e : user_ok s old l -> user_ok s new l -> apart s old new l ->
  copied s old new l k s1 l1 -> 0 <= k -> (k + 1) * PGSIZE <= MAXVA ->
  xlate (words s) old (k * PGSIZE) = Some e -> PTE_FLAGS e <> PTE_V -> ram_page (PTE2PA e) ->
  xlate (words s) new (k * PGSIZE) = None ->
  wp (let! mem := kalloc in
      if mem =? 0 then ret (inr (Some (k * PGSIZE))) else
      copy_page mem (PTE2PA e) ;;;
      let! x := mappages new (k * PGSIZE) PGSIZE mem (PTE_FLAGS e) in
      if negb (x =? 0) then kfree mem ;;; ret (inr (Some (k * PGSIZE)))
      else ret (inl (u64 (k * PGSIZE + PGSIZE)))) s1 (fun x s' =>
    match x with
    | inl i => i = (k + 1) * PGSIZE /\ exists l', copied s old new l (k + 1) s' l'
    | inr y => y = Some (k * PGSIZE) /\ exists l', copied s old new l k s' l' /\ (length l' <= 1)%nat
    end).
Proof.
  intros Hold Hnew Hap (Hok1 & Hg1 & Ho1) Hk Htop He Hfl Hpa Hnone.
  assert (HM : MAXVA = 2 ^ 38) by done. assert (HP : PGSIZE = 4096) by done.
  assert (Hin : 0 <= k * PGSIZE < MAXVA /\ 0 + k * PGSIZE <= MAXVA) by (rewrite HP in *; lia). destruct Hin as [Hin Hin'].
  apply wp_bind. destruct l1 as [|mem l1].
  { destruct (kalloc_none s1 new Hok1) as (s2 & E & Hok2 & Hs2 & Ho2). eapply wp_eq; [exact E|]. cbv beta.
    rewrite Z.eqb_refl. apply wp_ret. split; [done|]. exists []. split; [|simpl; lia]. split; [done|].
    split; [apply (grown_same (umem s old) s s1 s2); [done|by apply same_user_mem|lia|lia]|by eapply own_step_trans]. }
  destruct (kalloc_user s1 new mem l1 Hok1) as (s2 & E & Hok2 & Hr & Hnl & Hun & Hs2 & Ho2).
  eapply wp_eq; [exact E|]. cbv beta. pose proof (ram_page_bounds Hkend mem Hr) as Hpb.
  rewrite (proj2 (Z.eqb_neq mem 0)) by lia.
  assert (Ho12 : own_step s new l s2 (mem :: l1)) by by eapply own_step_trans.
  pose proof (pi_kmem _ _ _ (uo_pt _ _ _ Hok2)) as Hk2.
  destruct (isolated s s2 old new l (mem :: l1) l1 Hold Hnew Hap Ho12 Hk2) as (Hold2 & Hso & Hap2); [by right|].
  assert (He2 : xlate (words s2) old (k * PGSIZE) = Some e) by (destruct Hso as (_ & -> & _); done).
  assert (Hne : mem <> PTE2PA e).
  { intros ->. apply (proj2 (Hap2 (PTE2PA e) (or_introl (list_elem_of_here _ _))) (k * PGSIZE) Hin).
    unfold frame. by rewrite He2. }
  destruct (copy_fresh s2 new l1 mem (PTE2PA e) Hok2 Hr Hnl Hun Hpa Hne) as (s3 & E3 & Hok3 & Hs3 & Ho3 & Hb).
  apply wp_bind. eapply wp_eq; [exact E3|]. cbv beta. pose proof (same_user_trans _ _ _ _ Hs2 Hs3) as Hs.
  assert (Hg3 : grown (umem s old) s s3 new 0 k).
  { apply (grown_same (umem s old) s s1 s3); [done|by apply same_user_mem|lia|lia]. }
  assert (Hn3 : xlate (words s3) new (k * PGSIZE) = None).
  { destruct Hg3 as (_ & Hx & _). rewrite Hx; [done|done|lia]. }
  assert (Ho : own_step s new l s3 (mem :: l1)) by by eapply own_step_trans.
  pose proof (PTE_FLAGS_range e) as Hperm.
  apply wp_bind. eapply wp_mono; [apply (map_page s3 new l1 (k * PGSIZE) mem (PTE_FLAGS e)); try done|].
  { apply Z_mod_mult. } { by apply (same_user_unused s2 s3). }
  intros x s4 (l4 & Hok4 & Hwf & [[-> Hmap]|(-> & -> & Hx4 & Hu4 & Hun4)]); cbn [Z.eqb negb].
  - apply wp_ret. split; [unfold u64; rewrite Z.mod_small; rewrite HP, HM in *; lia|]. exists l4. split; [done|]. split.
    + apply (grown_page (umem s old) s s3 s4 new 0 k mem (PTE_FLAGS e)); try done.
      * destruct (ram_page_high Hkend mem Hr). apply copied_flags; [lia|by eapply xlate_valid|done].
      * intros v Hv. rewrite PTE_FLAGS_U.
        rewrite <- (proj2 (proj2 Hso)) by lia. rewrite (umem_page s2 old v (k * PGSIZE) e); try done; try lia.
        -- by rewrite Hb by by apply Z.mod_pos_bound.
        -- rewrite HP in *. clear -Hv. zlia.
    + eapply own_step_trans; [exact Ho|]. by apply (map_own s3 new l1 (k * PGSIZE) mem (PTE_FLAGS e)).
  - destruct (kfree_user s4 new [] mem Hok4 Hr) as (s5 & E5 & Hok5 & Hs5 & Ho5); [by apply not_elem_of_nil|done|].
    apply wp_bind. eapply wp_eq; [exact E5|]. apply wp_ret. split; [done|]. exists [mem]. split; [|simpl; lia]. split; [done|].
    split.
    + apply (grown_same (umem s old) s s4 s5); [|by apply same_user_mem|lia|lia].
      by apply (grown_same (umem s old) s s3 s4); [| |lia|lia].
    + eapply own_step_trans; [exact Ho|]. eapply own_step_trans; [|exact Ho5]. apply own_step_extra. by eapply walk_own.
Qed.

(** The loop: it stops at the end, or at the page for which no memory is left. *)
Lemma uvmcopy_loop s old new l sz n : user_ok s old l -> user_ok s new l -> apart s old new l ->
  n * PGSIZE = PGROUNDUP sz -> 0 <= n -> 0 <= sz -> PGROUNDUP sz <= MAXVA -> PGROUNDUP sz < sz + PGSIZE ->
  sz <= PGROUNDUP sz -> backed (words s) old 0 n -> (forall v, 0 <= v < n * PGSIZE -> xlate (words s) new v = None) ->
  wp (loop 0 (fun i =>
    if i <? sz then
      let! pte := walk old i false in
      if pte =? 0 then panic "uvmcopy: pte should exist" else
      let! w := load64 pte in
      if negb (flag w PTE_V) then panic "uvmcopy: page not present" else
      let pa := PTE2PA w in
      let flags := PTE_FLAGS w in
      let! mem := kalloc in
      if mem =? 0 then ret (inr (Some i)) else
      copy_page mem pa ;;;
      let! e := mappages new i PGSIZE mem flags in
      if negb (e =? 0) then kfree mem ;;; ret (inr (Some i))
      else ret (inl (u64 (i + PGSIZE)))
    else ret (inr None))) s (fun y s' => exists k l', 0 <= k <= n /\ copied s old new l k s' l' /\
    (y = None /\ k = n \/ y = Some (k * PGSIZE) /\ k < n /\ (length l' <= 1)%nat)).
Proof.
  intros Hold Hnew Hap Hn Hn0 Hsz T B1 B2 Hb Hnone. rewrite <- Hn in *.
  assert (HM : MAXVA = 2 ^ 38) by done. assert (HP : PGSIZE = 4096) by done.
  apply (wp_loop_idx (fun k' i s1 => exists k l1, k' = n - k /\ 0 <= k <= n /\ i = k * PGSIZE /\ copied s old new l k s1 l1) _ _ n);
    [|rewrite HP, HM in *; lia|intros ??? (k & l' & -> & ?); lia|].
  - exists 0, l. split; [lia|]. split; [lia|]. split; [lia|]. split; [done|]. split; [|apply own_step_refl].
    split; [intros j Hj; lia|]. split; [done|]. intros v Hv. by rewrite decide_False by lia.
  - intros k' i s1 (k & l1 & -> & Hk & -> & Hc).
    destruct (Z.ltb_spec (k * PGSIZE) sz) as [Hlt|Hge].
    2:{ apply wp_ret. exists k, l1. split; [done|]. split; [done|]. left. split; [done|rewrite HP in *; lia]. }
    assert (Hkn : k < n) by (rewrite HP in *; lia). destruct (Hb k) as (e & He & Hfl & Hr); [lia|]. rewrite Z.add_0_l in He.
    pose proof Hc as (Hok1 & _ & Ho1).
    destruct (isolated s s1 old new l l1 l1 Hold Hnew Hap Ho1) as (Hold1 & Hs1 & _); [apply (uo_pt _ _ _ Hok1)|done|].
    destruct (walk_entry s1 old l1 (k * PGSIZE) e (uo_pt _ _ _ Hold1)) as (pte & E1 & Hnz & E2);
      [rewrite HP in *; lia|by rewrite (proj1 (proj2 Hs1))|].
    apply wp_bind. eapply wp_eq; [exact E1|]. cbv beta. rewrite (proj2 (Z.eqb_neq pte 0)) by done.
    apply wp_bind. eapply wp_eq; [exact E2|]. cbv beta zeta. rewrite (xlate_valid _ _ _ _ He). cbn [negb].
    eapply wp_mono; [apply (uvmcopy_round s s1 old new l l1 k e); try done; [lia|rewrite HP in *; lia|apply Hnone; rewrite HP in *; lia]|].
    intros [i|y] s2.
    + intros (-> & l2 & Hc2). exists (n - (k + 1)). split; [|lia]. exists (k + 1), l2. split; [done|]. split; [lia|]. done.
    + intros (-> & l2 & Hc2 & Hl2). exists k, l2. split; [done|]. split; [done|]. right. done.
Qed.

(** C17: [uvmcopy], the heart of [fork], gives the child [new] a copy of the
    memory of the parent [old] up to [sz], with the same permissions, in pages
    of its own, and leaves the parent's memory as it was.  When the free pages
    run out it gives back what it took, leaves both as they were and returns
    -1. *)
Theorem uvmcopy_correct s old new l sz : user_ok s old l -> user_ok s new l -> apart s old new l ->
  0 <= sz <= MAXVA -> backed (words s) old 0 (page_diff sz 0) ->
  (forall v, 0 <= v < PGROUNDUP sz -> xlate (words s) new v = None) ->
  exists res s' l', uvmcopy old new sz s = Ret res s' /\
    user_ok s' old l' /\ user_ok s' new l' /\ apart s' old new l' /\ own_step s new l s' l' /\ same_user s s' old /\
    ((res = 0 /\ (forall v, 0 <= v -> umem s' new v =
        if decide (v < PGROUNDUP sz) then umem s old v else umem s new v)) \/
     (res = -1 /\ Z.of_nat (length l') <= page_diff sz 0 /\ same_mem s s' new)).
Proof.
  intros Hold Hnew Hap Hsz Hb Hnone. assert (HM : MAXVA = 2 ^ 38) by done. assert (HP : PGSIZE = 4096) by done.
  destruct (PGROUNDUP_bounds sz) as [A B]; [lia|]. destruct (PGROUNDUP_top sz Hsz) as [_ T].
  set (n := page_diff sz 0) in *. assert (Hn : n * PGSIZE = PGROUNDUP sz /\ 0 <= n).
  { subst n. unfold page_diff. change (PGROUNDUP 0) with 0. unfold page_aligned in *. rewrite HP in *. clear -A B Hsz. zlia. }
  destruct Hn as [Hn Hn0]. rewrite <- Hn in Hnone.
  set (R := fun res s' => exists l', user_ok s' new l' /\ own_step s new l s' l' /\
    (res = 0 /\ grown (umem s old) s s' new 0 n \/ res = -1 /\ Z.of_nat (length l') <= n /\ same_mem s s' new)).
  enough (Hw : wp (uvmcopy old new sz) s R).
  { destruct (wp_inv _ _ _ Hw) as (res & s' & E & l' & Hok' & Ho & Hres). exists res, s', l'.
    destruct (isolated s s' old new l l' l' Hold Hnew Hap Ho) as (Hold' & Hs & Hap'); [apply (uo_pt _ _ _ Hok')|done|].
    split_and!; try done. destruct Hres as [(-> & _ & _ & Hu)|Hf]; [left; split; [done|]|by right].
    intros v Hv. rewrite Hu, <- Hn by done. do 2 case_decide; lia || done. }
  unfold uvmcopy. apply wp_bind. apply (wp_mono _ _ (fun y s' => exists k l', 0 <= k <= n /\ copied s old new l k s' l' /\
    (y = None /\ k = n \/ y = Some (k * PGSIZE) /\ k < n /\ (length l' <= 1)%nat))).
  2:{ intros y s1 (k & l1 & Hk & (Hok1 & Hg1 & Ho1) & [[-> ->]|(-> & Hkn & Hl1)]).
      { apply wp_ret. exists l1. split; [done|]. split; [done|]. by left. }
      rewrite Z.div_mul by done. apply wp_bind. eapply wp_mono; [apply (uvmunmap_eq s1 new l1 0 k true); try done; [lia|rewrite HP in *; lia|]|].
      { intros j Hj. destruct (proj1 Hg1 j Hj) as (e & He & Hf & Hr). by exists e. }
      cbv zeta. intros _ s2 (Hok2 & Hw2 & Ho2). apply wp_ret. eexists. split; [exact Hok2|].
      split; [eapply own_step_trans; [exact Ho1|by apply Ho2]|]. right. split; [done|]. split.
      - rewrite length_app, Nat2Z.inj_add, length_unmapped by lia. lia.
      - apply (grown_without _ s s1 s2 new 0 k Hg1 Hw2). intros v Hv. apply Hnone. rewrite HP in *. lia. }
  by apply (uvmcopy_loop s old new l sz n); lia || done.
Qed.

(** *** Isolation *)

Lemma fresh_user s r l : pt_inv s r l -> (forall v, xlate (words s) r v = None) -> user_ok s r l.
Proof.
  intros Hpt Hx. assert (H0 : ~ ram_page 0) by (intros [_ Hr]; clear -Hkend Hr; unfold KERNBASE in *; lia).
  assert (Hf : forall v, frame (words s) r v = 0) by (intros v; unfold frame; by rewrite Hx).
  constructor; [done|..].
  - intros v e _. by rewrite Hx.
  - intros v _. rewrite Hf. intros Hin. by apply (inv_free _ _ (pi_kmem _ _ _ Hpt)) in Hin.
  - intros v p _. by rewrite Hf.
  - intros v v' _ _. by rewrite Hf.
Qed.

Lemma owned_ram s r l q : user_ok s r l -> owned s r q -> ram_page q.
Proof.
  intros Hok [(p & Hp & Hq)|(v & _ & Hr & <-)]; [|done]. by apply (pi_ram _ _ _ (uo_pt _ _ _ Hok) p q).
Qed.

Lemma unused_owned s r q : unused s r q -> ~ owned s r q.
Proof. intros [H1 H2] [(p & Hp & Hq)|(v & Hv & _ & Hq)]; [by apply (H1 p)|by apply (H2 v)]. Qed.

(** Being apart is mutual. *)
Lemma apart_sym s r1 r2 l : user_ok s r1 l -> user_ok s r2 l -> apart s r1 r2 l -> apart s r2 r1 l.
Proof.
  intros Hok1 Hok2 Hap q [Hq|Hq]; [by eapply unused_free|]. pose proof (owned_ram s r1 l q Hok1 Hq) as Hr.
  assert (Hno : ~ owned s r2 q) by (intros Hq2; by apply (unused_owned s r1 q (Hap q (or_intror Hq2)))).
  split.
  - intros p Hp Hpq. apply Hno. left. by exists p.
  - intros v Hv <-. apply Hno. right. by exists v.
Qed.

(** The free pages are known from the memory. *)
Lemma free_chain_inj w f l l' : (forall q, q ∈ l -> ram_page q) -> (forall q, q ∈ l' -> ram_page q) ->
  free_chain w f l -> free_chain w f l' -> l = l'.
Proof.
  revert f l'. induction l as [|p l IH]; intros f l' Hr Hr' Hc Hc'.
  - symmetry. apply (free_chain_head Hkend w f l' Hr' Hc'). done.
  - destruct l' as [|p' l']; [by apply (free_chain_head Hkend w f (p :: l) Hr Hc)|].
    destruct Hc as [-> (nx & Hnx & Hc)]. destruct Hc' as [<- (nx' & Hnx' & Hc')].
    rewrite Hnx in Hnx'. injection Hnx' as <-. f_equal. apply (IH nx); [|..|done|done].
    + intros q Hq. apply Hr. by right.
    + intros q Hq. apply Hr'. by right.
Qed.

(** What the kernel does to the memory of the process [r] on its behalf. *)
Inductive mem_op (r : Z) : phys -> phys -> Prop :=
| op_copyout s dstva src res s' : 0 <= dstva -> Z.of_nat (length src) < 2 ^ 63 -> Forall (fun b => 0 <= b < 256) src ->
    copyout r dstva src (Z.of_nat (length src)) s = Ret res s' -> mem_op r s s'
| op_grow s oldsz newsz res s' : 0 <= oldsz <= MAXVA -> 0 <= newsz <= MAXVA ->
    (forall v, PGROUNDUP oldsz <= v < PGROUNDUP newsz -> xlate (words s) r v = None) ->
    uvmalloc r oldsz newsz s = Ret res s' -> mem_op r s s'
| op_shrink s oldsz newsz res s' : 0 <= newsz <= MAXVA -> 0 <= oldsz <= MAXVA ->
    backed (words s) r (PGROUNDUP newsz) (page_diff oldsz newsz) ->
    uvmdealloc r oldsz newsz s = Ret res s' -> mem_op r s s'.

Lemma mem_op_own r s s' l : mem_op r s s' -> user_ok s r l -> exists l', user_ok s' r l' /\ own_step s r l s' l'.
Proof.
  intros Hop Hok. destruct Hop as [s va src res s' Hva Hlen Hb E|s o n res s' Ho Hn Hx E|s o n res s' Hn Ho Hb E].
  - destruct (copyout_eq s r l va src Hok Hva Hlen Hb) as (res1 & s1 & k & E1 & Hok1 & _ & Ho1 & _).
    rewrite E in E1. injection E1 as <- <-. by exists l.
  - destruct (uvmalloc_eq s r l o n Hok Ho Hn Hx) as (res1 & s1 & l1 & E1 & Hok1 & Ho1 & _).
    rewrite E in E1. injection E1 as <- <-. by exists l1.
  - destruct (wp_inv _ _ _ (uvmdealloc_eq s r l o n Hok Hn Ho Hb)) as (res1 & s1 & E1 & _ & l1 & Hok1 & _ & Ho1 & _).
    rewrite E in E1. injection E1 as <- <-. by exists l1.
Qed.

(** C18: However the kernel writes to, grows and shrinks the memory of the
    process [r2], the process [r1] sees the same bytes at the same addresses,
    and the two still share no page with each other nor with the free list. *)
Theorem memory_isolation s s' r1 r2 l :
  user_ok s r1 l -> user_ok s r2 l -> apart s r1 r2 l -> rtc (mem_op r2) s s' ->
  (forall v, 0 <= v -> umem s' r1 v = umem s r1 v) /\
  exists l', user_ok s' r1 l' /\ user_ok s' r2 l' /\ apart s' r1 r2 l' /\ apart s' r2 r1 l'.
Proof.
  intros Hok1 Hok2 Hap Hs. revert l Hok1 Hok2 Hap. induction Hs as [s|s s1 s2 Hop _ IH]; intros l Hok1 Hok2 Hap.
  { split; [done|]. exists l. split_and!; try done. by apply apart_sym. }
  destruct (mem_op_own r2 s s1 l Hop Hok2) as (l1 & Hok2' & Ho).
  destruct (isolated s s1 r1 r2 l l1 l1 Hok1 Hok2 Hap Ho) as (Hok1' & (_ & _ & Hu) & Hap'); [apply Hok2'|done|].
  destruct (IH l1 Hok1' Hok2' Hap') as [Hu' Hex]. split; [|done]. intros v Hv. by rewrite Hu', Hu.
Qed.

Lemma uvmcreate_none s r : user_ok s r [] -> exists s', uvmcreate s = Ret 0 s'.
Proof.
  intros Hok. destruct (kalloc_none s r Hok) as (s1 & E1 & _). exists s1. unfold uvmcreate.
  by rewrite (bind_eq _ _ _ _ _ E1).
Qed.

(** A new page table, beside a process. *)
Lemma uvmcreate_user s r pg l : user_ok s r (pg :: l) -> exists s', uvmcreate s = Ret pg s' /\
  user_ok s' r l /\ user_ok s' pg l /\ apart s' r pg l /\ same_user s s' r /\ forall v, xlate (words s') pg v = None.
Proof.
  intros Hok. destruct (uvmcreate_eq Hkend s pg l (pi_kmem _ _ _ (uo_pt _ _ _ Hok))) as (s' & E & Hpt' & Hx & Htab).
  destruct (kalloc_user s r pg l Hok) as (s1 & E1 & Hok1 & Hr & Hnl & Hun & Hs1 & _).
  destruct (clear_page s1 r l pg Hok1 Hr Hnl Hun) as (s2 & E2 & Hok2 & Hs2 & _).
  assert (s2 = s') as ->.
  { unfold uvmcreate in E. rewrite (bind_eq _ _ _ _ _ E1) in E. pose proof (ram_page_bounds Hkend pg Hr).
    rewrite (proj2 (Z.eqb_neq pg 0)) in E by lia. rewrite (bind_eq _ _ _ _ _ E2) in E. by injection E. }
  exists s'. split_and!; [done|done|by apply fresh_user| |by eapply same_user_trans|done].
  intros q [Hq|Hq]; [by eapply unused_free|]. replace q with pg; [by eapply same_user_unused|].
  destruct Hq as [(p & Hp & Hq)|(v & _ & [_ Hr0] & _)].
  - symmetry. by apply (Htab p).
  - unfold frame in Hr0. rewrite Hx in Hr0. unfold KERNBASE in *. lia.
Qed.

(** C19: [copyout] writes [src] to the virtual addresses from [dstva] on, and
    changes no other byte that the process sees, nor what its page table
    translates, nor the free pages.  It returns -1 exactly when it meets a page that is not mapped
    for the user; then the bytes before that page have been written. *)
Theorem copyout_correct s r l dstva src :
  user_ok s r l -> 0 <= dstva -> Z.of_nat (length src) < 2 ^ 63 -> Forall (fun b => 0 <= b < 256) src ->
  exists res s' k, copyout r dstva src (Z.of_nat (length src)) s = Ret res s' /\ user_ok s' r l /\
    (forall v, xlate (words s') r v = xlate (words s) r v) /\ own_step s r l s' l /\
    0 <= k <= Z.of_nat (length src) /\
    (forall v, 0 <= v -> umem s' r v =
       if decide (dstva <= v < dstva + k) then src !! Z.to_nat (v - dstva) else umem s r v) /\
    (res = 0 /\ k = Z.of_nat (length src) \/
     res = -1 /\ k < Z.of_nat (length src) /\ umem s r (dstva + k) = None).
Proof. apply copyout_eq. Qed.

(** [uvmalloc] gives the process zeroed pages up to [newsz] and changes no
    other byte that it sees, or, when the free pages run out, gives back what it
    took, leaves every byte as it was and returns 0.  Either way no page is
    lost: what is free or used by the process afterwards was so before. *)
Theorem uvmalloc_correct s r l oldsz newsz :
  user_ok s r l -> 0 <= oldsz <= MAXVA -> 0 <= newsz <= MAXVA ->
  (forall v, PGROUNDUP oldsz <= v < PGROUNDUP newsz -> xlate (words s) r v = None) ->
  exists res s' l', uvmalloc r oldsz newsz s = Ret res s' /\ user_ok s' r l' /\ own_step s r l s' l' /\
    ((res = Z.max oldsz newsz /\
      (forall v, 0 <= v < MAXVA -> ~ PGROUNDUP oldsz <= v < PGROUNDUP newsz -> xlate (words s') r v = xlate (words s) r v) /\
      (forall v, 0 <= v -> umem s' r v =
         if decide (PGROUNDUP oldsz <= v < PGROUNDUP newsz) then Some 0 else umem s r v)) \/
     (res = 0 /\ Z.of_nat (length l') <= page_diff newsz oldsz /\ same_mem s s' r)).
Proof. apply uvmalloc_eq. Qed.
(** The pages that the process may use can be freed. *)
Lemma backed_user s r l va n : user_ok s r l -> 0 <= va ->
  (forall k, 0 <= k < n -> umem s r (va + k * PGSIZE) <> None) -> backed (words s) r va n.
Proof.
  intros Hok Hva Hu k Hk. specialize (Hu k Hk). unfold umem in Hu.
  destruct (Z.eqb_spec (user_addr (words s) r (va + k * PGSIZE)) 0) as [|Hnz]; [done|].
  assert (Hv : 0 <= va + k * PGSIZE) by (unfold PGSIZE; lia).
  destruct (user_frame s r l _ Hok Hv Hnz) as (Htop & _ & _). clear Hu.
  unfold user_addr in Hnz. rewrite (proj2 (Z.ltb_lt _ _)) in Hnz by done.
  destruct (xlate (words s) r (va + k * PGSIZE)) as [e|] eqn:He; [|done].
  destruct (flag e PTE_U) eqn:Hf; [|done]. exists e. split; [done|]. split.
  - intros E. rewrite <- PTE_FLAGS_U, E in Hf. done.
  - by apply (uo_user _ _ _ Hok (va + k * PGSIZE) e).
Qed.

End user.

(** ** A machine with sixteen pages of RAM above the kernel *)

#[local] Instance fork_linker : Linker :=
  {| kend := PHYSTOP - 16 * PGSIZE - 100; etext := KERNBASE + 16 * PGSIZE; trampoline := KERNBASE + 15 * PGSIZE |}.

Lemma fork_kend : KERNBASE <= kend <= PHYSTOP.
Proof. split; vm_compute; congruence. Qed.

Definition fork_boot : phys := Phys (words_from (PHYSTOP - 17 * PGSIZE) 8704) 0 false 0.

Lemma fork_boot_ram : boot_ram fork_boot.
Proof.
  split; [done|]. intros pa [Hal Hr] i Hi. apply words_from_some. destruct (page_div _ Hal) as [Hp1 Hp2].
  change kend with (PHYSTOP - 16 * PGSIZE - 100) in Hr. change PHYSTOP with 2281701376 in *.
  unfold in_page, PGSIZE in *. zlia.
Qed.

(** A process with an empty page table. *)
Definition parent_table : Z := PHYSTOP - PGSIZE.
Definition child_table : Z := PHYSTOP - 6 * PGSIZE.
Definition after_boot : phys := final fork_boot (kinit fork_boot).
Definition empty_process : phys := final after_boot (uvmcreate after_boot).
(** It grows to two pages. *)
Definition two_pages : phys := final empty_process (uvmalloc parent_table 0 5000 empty_process).
(** The bytes 72 and 105 are stored across the page boundary. *)
Definition greeting : list Z := [72; 105].
Definition with_text : phys := final two_pages (copyout parent_table 4095 greeting 2 two_pages).
Definition with_child : phys := final with_text (uvmcreate with_text).

Lemma empty_process_ok : exists l, user_ok empty_process parent_table l /\
  forall v, xlate (words empty_process) parent_table v = None.
Proof.
  destruct (wp_inv _ _ _ (kinit_eq fork_kend fork_boot fork_boot_ram)) as ([] & s0 & E0 & Hinv).
  assert (exists l, reverse all_pages = parent_table :: l) as (l & Hl) by (eexists; vm_compute; reflexivity).
  rewrite Hl in Hinv. destruct (uvmcreate_eq fork_kend s0 parent_table l Hinv) as (s & E & Hpt & Hx & _).
  assert (after_boot = s0) as E1 by (unfold after_boot; by rewrite E0).
  exists l. unfold empty_process. rewrite E1, E. cbn [final]. split; [|done]. by apply (fresh_user fork_kend).
Qed.

Lemma two_pages_run : result (uvmalloc parent_table 0 5000 empty_process) = Some 5000.
Proof. vm_compute. reflexivity. Qed.

Lemma two_pages_ok : exists l, user_ok two_pages parent_table l /\
  (forall v, 0 <= v -> umem two_pages parent_table v = if decide (0 <= v < 8192) then Some 0 else None) /\
  forall v, 8192 <= v < MAXVA -> xlate (words two_pages) parent_table v = None.
Proof.
  destruct empty_process_ok as (l & Hok & Hx).
  destruct (uvmalloc_eq fork_kend empty_process parent_table l 0 5000 Hok) as (res & s' & l' & E & Hok' & _ & Hres);
    [split; vm_compute; congruence|split; vm_compute; congruence|auto|].
  pose proof two_pages_run as Hr. rewrite E in Hr. injection Hr as ->. unfold two_pages. rewrite E. exists l'. cbn [final].
  split; [done|]. destruct Hres as [(_ & Hx' & Hu)|[? _]]; [|done].
  change (PGROUNDUP 0) with 0 in *. change (PGROUNDUP 5000) with 8192 in *. split.
  - intros v Hv. rewrite Hu by exact Hv. case_decide; [reflexivity|]. apply unmapped_none. intros _. exact (Hx v).
  - intros v Hv. rewrite Hx' by lia. exact (Hx v).
Qed.

Lemma greeting_bytes : Forall (fun b => 0 <= b < 256) greeting.
Proof. repeat constructor; lia. Qed.

Lemma with_text_run : result (copyout parent_table 4095 greeting 2 two_pages) = Some 0.
Proof. vm_compute. reflexivity. Qed.

Lemma with_text_ok : exists l, user_ok with_text parent_table l /\
  forall v, 0 <= v -> umem with_text parent_table v =
    if decide (4095 <= v < 4097) then greeting !! Z.to_nat (v - 4095) else if decide (0 <= v < 8192) then Some 0 else None.
Proof.
  destruct two_pages_ok as (l & Hok & Hu & _).
  destruct (copyout_eq fork_kend two_pages parent_table l 4095 greeting Hok) as
    (res & s' & k & E & Hok' & _ & _ & Hk & Hu' & Hres); [lia|reflexivity|exact greeting_bytes|].
  change (Z.of_nat (length greeting)) with 2 in *. pose proof with_text_run as Hr. rewrite E in Hr. injection Hr as ->.
  destruct Hres as [[_ ->]|[Hf _]]; [|discriminate Hf].
  unfold with_text. rewrite E. exists l. split; [exact Hok'|]. intros v Hv. cbn [final]. rewrite Hu' by exact Hv.
  change (4095 + 2) with 4097. case_decide; [reflexivity|]. by apply Hu.
Qed.

Lemma with_text_child : result (uvmcreate with_text) = Some child_table.
Proof. vm_compute. reflexivity. Qed.

Lemma Ret_inj {A} (a b : A) (s t : phys) : Ret a s = Ret b t -> a = b /\ s = t.
Proof. by intros [= -> ->]. Qed.

Lemma with_child_run : uvmcreate with_text = Ret child_table with_child.
Proof. exact (run_eq with_text _ _ with_text_child). Qed.

Lemma with_child_ok : exists l, user_ok with_child parent_table l /\ user_ok with_child child_table l /\
  apart with_child parent_table child_table l /\ backed (words with_child) parent_table 0 2 /\
  umem with_child parent_table 4095 = Some 72 /\
  forall v, xlate (words with_child) child_table v = None.
Proof.
  destruct with_text_ok as (l & Hok & Hu). destruct l as [|pg l].
  { destruct (uvmcreate_none fork_kend with_text parent_table Hok) as [s1 E1].
    pose proof with_text_child as E. rewrite E1 in E. discriminate E. }
  pose proof with_child_run as E.
  destruct (uvmcreate_user fork_kend with_text parent_table pg l Hok) as (s' & E' & Hp & Hc & Hap & Hs & Hx).
  destruct (Ret_inj _ _ _ _ (eq_trans (eq_sym E') E)) as [-> ->]. exists l.
  split; [exact Hp|]. split; [exact Hc|]. split; [exact Hap|]. split; [|split; [|exact Hx]].
  - apply (backed_user with_child parent_table l 0 2 Hp); [lia|]. intros k Hk.
    destruct Hs as (_ & _ & ->); [|unfold PGSIZE; lia]. rewrite Hu by (unfold PGSIZE; lia).
    assert (k = 0 \/ k = 1) as [-> | ->] by lia; vm_compute; discriminate.
  - destruct Hs as (_ & _ & ->); [|lia]. by rewrite Hu.
Qed.

Lemma uvmalloc_correct_witness : exists l, user_ok empty_process parent_table l /\
  exists res s' l', uvmalloc parent_table 0 5000 empty_process = Ret res s' /\ user_ok s' parent_table l' /\
    own_step empty_process parent_table l s' l' /\
    ((res = Z.max 0 5000 /\
      (forall v, 0 <= v < MAXVA -> ~ PGROUNDUP 0 <= v < PGROUNDUP 5000 ->
         xlate (words s') parent_table v = xlate (words empty_process) parent_table v) /\
      (forall v, 0 <= v -> umem s' parent_table v =
         if decide (PGROUNDUP 0 <= v < PGROUNDUP 5000) then Some 0 else umem empty_process parent_table v)) \/
     (res = 0 /\ Z.of_nat (length l') <= page_diff 5000 0 /\ same_mem empty_process s' parent_table)).
Proof.
  destruct empty_process_ok as (l & Hok & Hx). exists l. split; [exact Hok|].
  apply (uvmalloc_correct fork_kend empty_process parent_table l 0 5000 Hok);
    [split; vm_compute; congruence|split; vm_compute; congruence|intros v _; exact (Hx v)].
Defined.

Lemma copyout_correct_witness : exists l, user_ok two_pages parent_table l /\
  umem two_pages parent_table 4095 = Some 0 /\
  exists res s' k, copyout parent_table 4095 greeting 2 two_pages = Ret res s' /\ user_ok s' parent_table l /\
    (forall v, xlate (words s') parent_table v = xlate (words two_pages) parent_table v) /\
    own_step two_pages parent_table l s' l /\ 0 <= k <= 2 /\
    (forall v, 0 <= v -> umem s' parent_table v =
       if decide (4095 <= v < 4095 + k) then greeting !! Z.to_nat (v - 4095) else umem two_pages parent_table v) /\
    (res = 0 /\ k = 2 \/ res = -1 /\ k < 2 /\ umem two_pages parent_table (4095 + k) = None).
Proof.
  destruct two_pages_ok as (l & Hok & Hu & _). exists l. split; [exact Hok|]. split; [exact (Hu 4095 ltac:(lia))|].
  apply (copyout_correct fork_kend two_pages parent_table l 4095 greeting Hok); [lia|reflexivity|exact greeting_bytes].
Defined.

Lemma copyin_correct_witness : exists l, user_ok with_text parent_table l /\
  umem with_text parent_table 4096 = Some 105 /\
  exists res bytes, copyin parent_table 4094 4 with_text = Ret (res, bytes) with_text /\
    (forall i, 0 <= i < Z.of_nat (length bytes) -> umem with_text parent_table (4094 + i) = bytes !! Z.to_nat i) /\
    (res = 0 /\ Z.of_nat (length bytes) = 4 \/
     res = -1 /\ Z.of_nat (length bytes) < 4 /\ umem with_text parent_table (4094 + Z.of_nat (length bytes)) = None).
Proof.
  destruct with_text_ok as (l & Hok & Hu). exists l. split; [exact Hok|]. split; [exact (Hu 4096 ltac:(lia))|].
  apply (copyin_correct fork_kend with_text parent_table l 4094 4 Hok); lia.
Defined.

Lemma uvmcopy_correct_witness : exists l, umem with_child parent_table 4095 = Some 72 /\
  exists res s' l', uvmcopy parent_table child_table 8192 with_child = Ret res s' /\
    user_ok s' parent_table l' /\ user_ok s' child_table l' /\ apart s' parent_table child_table l' /\
    own_step with_child child_table l s' l' /\ same_user with_child s' parent_table /\
    ((res = 0 /\ (forall v, 0 <= v -> umem s' child_table v =
        if decide (v < PGROUNDUP 8192) then umem with_child parent_table v else umem with_child child_table v)) \/
     (res = -1 /\ Z.of_nat (length l') <= page_diff 8192 0 /\ same_mem with_child s' child_table)).
Proof.
  destruct with_child_ok as (l & Hp & Hc & Hap & Hb & Hu & Hx). exists l. split; [exact Hu|].
  apply (uvmcopy_correct fork_kend with_child parent_table child_table l 8192 Hp Hc Hap);
    [split; vm_compute; congruence|exact Hb|intros v _; exact (Hx v)].
Defined.

Lemma child_page : result (uvmalloc child_table 0 4096 with_child) = Some 4096.
Proof. vm_compute. reflexivity. Qed.

Lemma memory_isolation_witness :
  exists s', uvmalloc child_table 0 4096 with_child = Ret 4096 s' /\
  (forall v, 0 <= v -> umem s' parent_table v = umem with_child parent_table v) /\
  exists l', user_ok s' parent_table l' /\ user_ok s' child_table l' /\ apart s' parent_table child_table l' /\
    apart s' child_table parent_table l'.
Proof.
  destruct with_child_ok as (l & Hp & Hc & Hap & _ & _ & Hx).
  pose proof (run_eq with_child _ _ child_page) as E.
  eexists. split; [exact E|]. apply (memory_isolation fork_kend with_child _ parent_table child_table l Hp Hc Hap).
  eapply rtc_l; [|apply rtc_refl]. eapply (op_grow child_table with_child 0 4096); [split; vm_compute; congruence..| |exact E].
  intros v _. exact (Hx v).
Defined.
