(* ===== verification/Reap.v ===== *)
(** The life of a page table: [freewalk] and [uvmfree] of vm.c free exactly the
    pages that the table of a process refers to ([given_back]), with the trap frame
    and the trampoline that proc.c maps beside its memory ([proc_mem]), and what the
    steps that map these do. *)
From S2P Require Import Prelude Kalloc Vm Umem.

(** ** [freewalk] *)

(** The pages of the tables that are reached from the table at [a], which is [d]
    levels high, in the order in which [freewalk] frees them. *)
Fixpoint table_pages (w : gmap Z Z) (d : nat) (a : Z) : list Z :=
  match d with
  | O => []
  | S d' =>
      concat (map (fun i => match child w a i with Some b => table_pages w d' b | None => [] end)
                (seqZ 0 512)) ++ [a]
  end.

(** The entries of these tables are in memory, and the valid ones point to
    tables: nothing is mapped. *)
Fixpoint empty_tree (w : gmap Z Z) (d : nat) (a : Z) : Prop :=
  match d with
  | O => False
  | S d' => forall i, 0 <= i < 512 -> exists e, entry w a i = Some e /\
      (flag e PTE_V = true ->
       flag e (Z.lor (Z.lor PTE_R PTE_W) PTE_X) = false /\ empty_tree w d' (PTE2PA e))
  end.

Lemma map_seqZ_ext {A} (f g : Z -> A) n : (forall i, 0 <= i < n -> f i = g i) -> map f (seqZ 0 n) = map g (seqZ 0 n).
Proof. intros H. apply List.map_ext_in. intros i Hi. apply H. apply list_elem_of_In, elem_of_seqZ in Hi. lia. Qed.

Section reap.
Context `{Linker}.
Context (Hkend : KERNBASE <= kend <= PHYSTOP).

Lemma table_pages_root w d a : a ∈ table_pages w (S d) a.
Proof. cbn. apply elem_of_app. right. apply list_elem_of_here. Qed.

Lemma elem_of_concat_map {A} (f : Z -> list A) n q :
  q ∈ concat (map f (seqZ 0 n)) <-> exists i, 0 <= i < n /\ q ∈ f i.
Proof.
  rewrite list_elem_of_In, List.in_concat. split.
  - intros (x & Hx & Hq). apply List.in_map_iff in Hx as (i & <- & Hi).
    apply list_elem_of_In, elem_of_seqZ in Hi. exists i. split; [lia|by apply list_elem_of_In].
  - intros (i & Hi & Hq). exists (f i). split; [|by apply list_elem_of_In].
    apply List.in_map_iff. exists i. split; [done|]. apply list_elem_of_In, elem_of_seqZ. lia.
Qed.

(** The tables depend on their own pages only. *)
Lemma tree_same w w' d a : (forall q i, q ∈ table_pages w d a -> in_page q i -> w' !! i = w !! i) ->
  table_pages w' d a = table_pages w d a /\ (empty_tree w d a -> empty_tree w' d a).
Proof.
  revert a. induction d as [|d IH]; intros a Hw; [done|].
  assert (He : forall i, 0 <= i < 512 -> entry w' a i = entry w a i).
  { intros i Hi. unfold entry. apply (Hw a); [apply table_pages_root|unfold in_page; lia]. }
  assert (Hc : forall i b, 0 <= i < 512 -> child w a i = Some b ->
    forall q j, q ∈ table_pages w d b -> in_page q j -> w' !! j = w !! j).
  { intros i b Hi Hb q j Hq. apply Hw. cbn. apply elem_of_app. left. apply elem_of_concat_map.
    exists i. by rewrite Hb. }
  split.
  - cbn. f_equal. f_equal. apply map_seqZ_ext. intros i Hi. unfold child at 1. rewrite He by done.
    fold (child w a i). destruct (child w a i) as [b|] eqn:Hb; [|done]. apply IH. by eapply Hc.
  - intros Ht i Hi. destruct (Ht i Hi) as (e & E & Hv). exists e. rewrite He by done. split; [done|].
    intros Hf. destruct (Hv Hf) as [H1 H2]. split; [done|]. apply IH; [|done]. eapply Hc; [done|].
    unfold child. by rewrite E, Hf.
Qed.

(** The entries before the [k]-th are done. *)
Definition freed_below (w : gmap Z Z) (d : nat) (a k : Z) : list Z :=
  concat (map (fun i => match child w a i with Some b => table_pages w d b | None => [] end) (seqZ 0 k)).

Lemma freed_below_S w d a k : 0 <= k -> freed_below w d a (k + 1) =
  freed_below w d a k ++ (match child w a k with Some b => table_pages w d b | None => [] end).
Proof.
  intros Hk. unfold freed_below. rewrite seqZ_app, List.map_app, List.concat_app by lia.
  assert (seqZ (0 + k) 1 = [k]) as -> by (rewrite seqZ_cons, seqZ_nil by lia; done).
  cbn. by rewrite app_nil_r.
Qed.

Lemma freed_below_split w d a k : 0 <= k < 512 -> exists rest, freed_below w d a 512 =
  freed_below w d a k ++ (match child w a k with Some b => table_pages w d b | None => [] end) ++ rest.
Proof.
  intros Hk. exists (concat (map (fun i => match child w a i with Some b => table_pages w d b | None => [] end)
    (seqZ (k + 1) (512 - (k + 1))))).
  rewrite (assoc_L (++)), <- freed_below_S by lia. unfold freed_below.
  rewrite <- List.concat_app, <- List.map_app. do 2 f_equal.
  replace 512 with ((k + 1) + (512 - (k + 1))) at 1 by lia. by rewrite seqZ_app by lia.
Qed.

(** One entry of the loop: [B] was freed before it, [F] are the tables below it. *)
Lemma freewalk_entry d a k s w l B F :
  (forall a s l, kmem_inv s l -> empty_tree (words s) d a ->
    (forall q, q ∈ table_pages (words s) d a -> ram_page q) -> NoDup (table_pages (words s) d a ++ l) ->
    wp (freewalk d a) s (fun _ s' => exists l', l' ≡ₚ table_pages (words s) d a ++ l /\ kmem_inv s' l' /\
      forall i, (forall q, q ∈ table_pages (words s) d a -> ~ in_page q i) -> words s' !! i = words s !! i)) ->
  0 <= k < 512 -> ram_page a -> kmem_inv s l -> empty_tree w (S d) a ->
  F = match child w a k with Some b => table_pages w d b | None => [] end ->
  (forall q, q ∈ F -> ram_page q) -> NoDup (F ++ l) -> a ∉ l ->
  (forall q i, q ∈ F ++ B -> in_page q i -> ~ in_page a i) ->
  (forall q q' i, q ∈ F -> q' ∈ B -> in_page q i -> ~ in_page q' i) ->
  (forall i, (forall q, q ∈ B -> ~ in_page q i) -> ~ (a / 8 <= i < a / 8 + k) -> words s !! i = w !! i) ->
  wp (let! pte := load64 (a + 8 * k) in
      if flag pte PTE_V && negb (flag pte (Z.lor (Z.lor PTE_R PTE_W) PTE_X)) then
        freewalk d (PTE2PA pte) ;;; store64 (a + 8 * k) 0
      else if flag pte PTE_V then panic "freewalk: leaf" else ret tt) s
    (fun _ s' => exists l', l' ≡ₚ F ++ l /\ kmem_inv s' l' /\
      forall i, (forall q, q ∈ F -> ~ in_page q i) -> i <> a / 8 + k -> words s' !! i = words s !! i).
Proof.
  intros IH Hkr Ha Hk Ht HF Hram Hnd Hna Hother Hdis Hw.
  destruct (Ht k Hkr) as (e & He & Hv).
  assert (Hak : in_page a (a / 8 + k)) by (unfold in_page; lia).
  assert (He1 : entry (words s) a k = Some e).
  { unfold entry in *. rewrite Hw; [done| |lia]. intros q Hq Hin. apply (Hother q _ ltac:(set_solver) Hin Hak). }
  apply wp_bind. eapply wp_eq; [apply load64_entry; [apply Ha|exact He1]|]. cbv beta.
  unfold child in HF. rewrite He in HF. destruct (flag e PTE_V) eqn:Hf; cbn [andb].
  2:{ apply wp_ret. exists l. subst F. done. }
  destruct (Hv eq_refl) as [-> Hsub]. cbn [negb].
  destruct (tree_same w (words s) d (PTE2PA e)) as [Hp Ht'].
  { rewrite <- HF. intros q i Hq Hi. apply Hw.
    - intros q' Hq' Hi'. by apply (Hdis q q' i).
    - intros Hai. apply (Hother q i); [set_solver|done|]. unfold in_page. lia. }
  rewrite <- HF in Hp. eapply wp_bind_mono; [apply (IH (PTE2PA e) s l); rewrite ?Hp; auto|].
  rewrite Hp. intros [] s1 (l1 & Hl1 & Hk1 & Hw1).
  assert (He2 : entry (words s1) a k = Some e).
  { unfold entry in *. rewrite Hw1; [done|]. intros q Hq Hin. apply (Hother q _ ltac:(set_solver) Hin Hak). }
  eapply wp_eq; [by apply (store64_entry s1 a k e 0 ltac:(apply Ha))|]. exists l1. split; [done|]. split.
  - apply kmem_inv_write; [done| |].
    + intros i Hi. rewrite lookup_insert_is_Some. destruct (decide (a / 8 + k = i)); auto.
    + intros p Hp'. rewrite lookup_insert_ne; [done|]. intros E. rewrite Hl1 in Hp'.
      assert (Hip : in_page p (a / 8 + k)) by (unfold in_page; lia).
      apply elem_of_app in Hp' as [Hin|Hin]; [by apply (Hother p _ ltac:(set_solver) Hip Hak)|].
      apply Hna. assert (a = p) as ->; [|done]. apply (in_page_disjoint _ _ (a / 8 + k)); [apply Ha| |done|done].
      by apply (inv_free _ _ Hk).
  - intros i Hi Hne. cbn [words set_words]. rewrite lookup_insert_ne by done. by apply Hw1.
Qed.

(** [freewalk] of a table: every page of the tables below is free, and nothing
    else is written. *)
Lemma freewalk_eq d a s l : kmem_inv s l -> empty_tree (words s) d a ->
  (forall q, q ∈ table_pages (words s) d a -> ram_page q) -> NoDup (table_pages (words s) d a ++ l) ->
  wp (freewalk d a) s (fun _ s' => exists l', l' ≡ₚ table_pages (words s) d a ++ l /\ kmem_inv s' l' /\
    forall i, (forall q, q ∈ table_pages (words s) d a -> ~ in_page q i) -> words s' !! i = words s !! i).
Proof.
  revert a s l. induction d as [|d IH]; intros a s l Hk Ht Hram Hnd; [done|].
  set (w := words s) in *. cbn [table_pages] in *. fold (freed_below w d a 512) in *.
  assert (Ha : ram_page a) by (apply Hram, elem_of_app; right; apply list_elem_of_here).
  cbn [freewalk]. apply wp_bind. eapply wp_mono.
  { apply (wp_for_seq (fun k s' => exists l', l' ≡ₚ freed_below w d a k ++ l /\ kmem_inv s' l' /\
      forall i, (forall q, q ∈ freed_below w d a k -> ~ in_page q i) -> ~ (a / 8 <= i < a / 8 + k) ->
        words s' !! i = w !! i)); [by exists l|lia|].
    intros k s1 Hkr (l1 & Hl1 & Hk1 & Hw1). rewrite freed_below_S by lia.
    destruct (freed_below_split w d a k Hkr) as [rest Hsplit]. rewrite Hsplit in Hnd, Hram.
    set (B := freed_below w d a k) in *.
    set (F := match child w a k with Some b => table_pages w d b | None => [] end) in *.
    assert (Hnd' : NoDup (a :: (F ++ B ++ l) ++ rest)).
    { eapply NoDup_Permutation_proper; [|exact Hnd]. solve_Permutation. }
    apply list.NoDup_cons in Hnd' as [Hna Hnd']. apply list.NoDup_app in Hnd' as [Hnd' _].
    assert (Hother : forall q i, q ∈ F ++ B -> in_page q i -> ~ in_page a i).
    { intros q i Hq Hqi Hai. apply Hna. assert (a = q) as ->; [|set_solver].
      apply (in_page_disjoint _ _ i); [apply Ha| |done|done].
      apply (Hram q). set_solver. }
    assert (Hdis : forall q q' i, q ∈ F -> q' ∈ B -> in_page q i -> ~ in_page q' i).
    { intros q q' i Hq Hq' Hi Hi'. assert (q = q') as <-.
      - apply (in_page_disjoint _ _ i); [| |done|done]; apply Hram; set_solver.
      - apply list.NoDup_app in Hnd' as (_ & Hd & _). apply (Hd q Hq). set_solver. }
    eapply wp_mono.
    { apply (freewalk_entry d a k s1 w l1 B F); try done.
      - intros q Hq. apply Hram. set_solver.
      - rewrite Hl1. done.
      - rewrite Hl1. set_solver. }
    cbn beta. intros _ s2 (l2 & Hl2 & Hk2 & Hw2). exists l2.
    split; [rewrite Hl2, Hl1; solve_Permutation|]. split; [done|].
    intros i Hi Hai. rewrite Hw2; [apply Hw1|..].
    - intros q Hq. apply Hi. set_solver.
    - lia.
    - intros q Hq. apply Hi. set_solver.
    - lia. }
  intros [] s1 (l1 & Hl1 & Hk1 & Hw1).
  destruct (kfree_eq Hkend s1 l1 a Hk1 Ha) as (s2 & E & Hk2 & Hw2 & _).
  { rewrite Hl1. apply list.NoDup_app in Hnd as (Hnd & Hdis & _). apply list.NoDup_app in Hnd as (_ & Hd & _).
    intros [Hin|Hin]%elem_of_app; [exact (Hd a Hin (list_elem_of_here _ _))|]. refine (Hdis a _ Hin).
    apply elem_of_app. right. apply list_elem_of_here. }
  eapply wp_eq; [exact E|]. exists (a :: l1). split.
  { rewrite Hl1, <- (assoc_L (++)). apply Permutation_middle. }
  split; [done|]. intros i Hi. assert (Hai : ~ in_page a i) by (apply Hi, elem_of_app; right; apply list_elem_of_here).
  rewrite Hw2, Hw1; try done. intros q Hq. apply Hi, elem_of_app. by left.
Qed.

(** ** The tables of a process *)

(** The address with the indices [i], [j] and [k]. *)
Definition va_of (i j k : Z) : Z := ((i * 512 + j) * 512 + k) * PGSIZE.
Lemma va_of_PX i j k : 0 <= i < 256 -> 0 <= j < 512 -> 0 <= k < 512 ->
  0 <= va_of i j k < MAXVA /\ PX 2 (va_of i j k) = i /\ PX 1 (va_of i j k) = j /\ PX 0 (va_of i j k) = k.
Proof.
  intros Hi Hj Hk. unfold va_of, PX, PXSHIFT, PGSHIFT, MAXVA, PGSIZE. change (Z.shiftl 1 _) with (2 ^ 38).
  change 511 with (Z.ones 9). rewrite !Z.land_ones, !Z.shiftr_div_pow2 by lia.
  change (2 ^ (12 + 9 * 2)) with (4096 * 262144). change (2 ^ (12 + 9 * 1)) with (4096 * 512).
  change (2 ^ (12 + 9 * 0)) with 4096. change (2 ^ 9) with 512. change (2 ^ 38) with (4096 * 67108864).
  split; [lia|]. rewrite <- !Z.div_div, Z.div_mul by lia. split; [|split]; zlia.
Qed.

Lemma NoDup_concat_map {A B} (f : A -> list B) l : NoDup l -> (forall i, i ∈ l -> NoDup (f i)) ->
  (forall i j q, i ∈ l -> j ∈ l -> q ∈ f i -> q ∈ f j -> i = j) -> NoDup (concat (map f l)).
Proof.
  induction l as [|x l IH]; intros Hl Hf Hd; [constructor|]. apply list.NoDup_cons in Hl as [Hx Hl].
  cbn. apply list.NoDup_app. split; [apply Hf, list_elem_of_here|]. split.
  - intros q Hq Hin. apply list_elem_of_In, List.in_concat in Hin as (y & Hy & Hqy).
    apply List.in_map_iff in Hy as (j & <- & Hj). apply list_elem_of_In in Hj, Hqy.
    apply Hx. rewrite (Hd x j q); [done|apply list_elem_of_here|by apply list_elem_of_further|done|done].
  - apply IH; [done| |]; intros; [apply Hf|eapply Hd]; try done; by apply list_elem_of_further.
Qed.

(** With nothing mapped, what [freewalk] finds at a table are the tables below it. *)
Lemma tables_of s r l : pt_inv s r l -> (forall v, 0 <= v < MAXVA -> xlate (words s) r v = None) ->
  forall d p a, (length p + S d = 3)%nat -> table_path p -> tab (words s) r p = Some a ->
  empty_tree (words s) (S d) a /\ NoDup (table_pages (words s) (S d) a) /\
  forall q, q ∈ table_pages (words s) (S d) a <-> exists k, table_path (p ++ k) /\ tab (words s) r (p ++ k) = Some q.
Proof.
  intros Hpt Hx. induction d as [|d IH]; intros p a Hlen Hp Ha.
  - assert (Hinv : forall i, 0 <= i < 512 -> exists e, entry (words s) a i = Some e /\ flag e PTE_V = false).
    { intros i Hi. destruct (pt_entry s r l p a i) as [e He]; [done..|]. exists e. split; [done|].
      destruct (flag e PTE_V) eqn:Hf; [|done]. exfalso.
      destruct p as [|i0 [|i1 [|]]]; simpl in Hlen; try lia.
      destruct Hp as [_ Hr]. inversion Hr as [|? ? Hi0 Hr']; subst. inversion Hr' as [|? ? Hi1 _]; subst.
      assert (i0 < 256).
      { destruct (decide (i0 < 256)); [done|]. exfalso.
        pose proof (tab_cons_child (words s) r [] r i0 [i1] eq_refl) as E.
        rewrite (pi_low _ _ _ Hpt) in E by lia. cbn [app] in E. congruence. }
      destruct (va_of_PX i0 i1 i) as (Hva & E2 & E1 & E0); [lia..|].
      specialize (Hx _ Hva). unfold xlate in Hx. by rewrite E2, E1, E0, Ha, He, Hf in Hx. }
    assert (Hc : forall i, 0 <= i < 512 -> child (words s) a i = None).
    { intros i Hi. destruct (Hinv i Hi) as (e & He & Hf). unfold child. by rewrite He, Hf. }
    split; [|].
    { intros i Hi. destruct (Hinv i Hi) as (e & He & Hf). exists e. split; [done|]. by rewrite Hf. }
    assert (E : table_pages (words s) 1 a = [a]).
    { cbn [table_pages]. rewrite (map_seqZ_ext _ (fun _ => [])) by (intros i Hi; by rewrite Hc).
      clear. induction (seqZ 0 512) as [|x m IH]; [done|]. exact IH. }
    rewrite E. split; [repeat constructor; intros Hin; by apply not_elem_of_nil in Hin|].
    intros q. rewrite list_elem_of_singleton. split.
    + intros ->. exists []. by rewrite app_nil_r.
    + intros ([|i k] & [Hl _] & Hq); [rewrite app_nil_r in Hq; congruence|].
      rewrite length_app in Hl. simpl in Hl. lia.
  - assert (Hlp : length p <> 2%nat) by lia.
    assert (Hpi : forall i, 0 <= i < 512 -> table_path (p ++ [i])).
    { intros i Hi. split; [rewrite length_app; simpl; lia|]. apply Forall_app. split; [apply Hp|constructor; [lia|constructor]]. }
    assert (Hsub : forall i b, 0 <= i < 512 -> child (words s) a i = Some b ->
      empty_tree (words s) (S d) b /\ NoDup (table_pages (words s) (S d) b) /\
      forall q, q ∈ table_pages (words s) (S d) b <->
        exists k, table_path (p ++ i :: k) /\ tab (words s) r (p ++ i :: k) = Some q).
    { intros i b Hi Hb. destruct (IH (p ++ [i]) b) as (H1 & H2 & H3);
        [rewrite length_app; simpl; lia|by apply Hpi|by rewrite tab_snoc, Ha|].
      split; [done|]. split; [done|]. intros q. rewrite H3.
      by setoid_rewrite <- (assoc_L (++) p [i]). }
    assert (Hcase : forall i q, 0 <= i < 512 ->
      q ∈ (match child (words s) a i with Some b => table_pages (words s) (S d) b | None => [] end) <->
      exists k, table_path (p ++ i :: k) /\ tab (words s) r (p ++ i :: k) = Some q).
    { intros i q Hi. destruct (child (words s) a i) as [b|] eqn:Hb.
      - by apply (Hsub i b).
      - split; [by intros Hq%not_elem_of_nil|]. intros (k & _ & Hq).
        rewrite (tab_cons_child _ _ _ a) in Hq by done. by rewrite Hb in Hq. }
    split; [|split].
    + intros i Hi. destruct (pt_entry s r l p a i) as [e He]; [done..|]. exists e. split; [done|].
      intros Hf. split; [by apply (pi_ptr _ _ _ Hpt p a i)|]. apply (Hsub i); [done|].
      unfold child. by rewrite He, Hf.
    + change (NoDup (concat (map (fun i => match child (words s) a i with
        Some b => table_pages (words s) (S d) b | None => [] end) (seqZ 0 512)) ++ [a])).
      apply list.NoDup_app. split; [|split].
      * apply NoDup_concat_map; [apply NoDup_seqZ| |].
        -- intros i Hi%elem_of_seqZ. destruct (child (words s) a i) as [b|] eqn:Hb; [|constructor].
           apply (Hsub i b); [lia|done].
        -- intros i j q Hi%elem_of_seqZ Hj%elem_of_seqZ (k & Hk & Hq)%Hcase (k' & Hk' & Hq')%Hcase; [|lia..].
           pose proof (pi_inj _ _ _ Hpt _ _ q Hk Hk' Hq Hq') as E. apply app_inv_head in E. by injection E.
      * intros q Hq ->%list_elem_of_singleton. apply elem_of_concat_map in Hq as (i & Hi & (k & Hk & Hq)%Hcase); [|done].
        pose proof (pi_inj _ _ _ Hpt _ _ a Hk Hp Hq Ha) as E. apply (f_equal length) in E.
        rewrite length_app in E. simpl in E. lia.
      * repeat constructor. by intros Hin%not_elem_of_nil.
    + intros q. change (q ∈ concat (map (fun i => match child (words s) a i with
        Some b => table_pages (words s) (S d) b | None => [] end) (seqZ 0 512)) ++ [a] <->
        exists k, table_path (p ++ k) /\ tab (words s) r (p ++ k) = Some q).
      rewrite elem_of_app, elem_of_concat_map, list_elem_of_singleton. split.
      * intros [(i & Hi & (k & Hk & Hq)%Hcase)| ->]; [by exists (i :: k)|done|]. exists []. by rewrite app_nil_r.
      * intros ([|i k] & Hk & Hq); [rewrite app_nil_r in Hq; right; congruence|]. left.
        assert (Hi : 0 <= i < 512).
        { destruct Hk as [_ [_ Hk]%Forall_app]. by inversion Hk. }
        exists i. split; [done|]. apply Hcase; [done|]. by exists k.
Qed.
(** The pages that a process uses when nothing is mapped are its tables. *)
Lemma owned_tables s r l q : user_ok s r l -> (forall v, 0 <= v < MAXVA -> xlate (words s) r v = None) ->
  owned s r q <-> exists p, table_path p /\ tab (words s) r p = Some q.
Proof.
  intros Hok Hx. split; [|by left]. intros [|(v & Hv & Hr & _)]; [done|]. exfalso.
  unfold frame in Hr. rewrite Hx in Hr by done. destruct Hr as [_ Hr]. clear -Hkend Hr. unfold KERNBASE in *. lia.
Qed.

Lemma freewalk_user s r l : user_ok s r l -> (forall v, 0 <= v < MAXVA -> xlate (words s) r v = None) ->
  wp (freewalk 3 r) s (fun _ s' => exists l', kmem_inv s' l' /\ (forall q, q ∈ l' <-> q ∈ l \/ owned s r q) /\
    forall i, (forall q, owned s r q -> ~ in_page q i) -> words s' !! i = words s !! i).
Proof.
  intros Hok Hx. pose proof (uo_pt _ _ _ Hok) as Hpt.
  destruct (tables_of s r l Hpt Hx 2 [] r) as (Ht & Hnd & Hin); [done|apply root_path|done|].
  assert (Hq : forall q, q ∈ table_pages (words s) 3 r <-> owned s r q).
  { intros q. by rewrite Hin, (owned_tables s r l). }
  eapply wp_mono.
  { apply (freewalk_eq 3 r s l); [apply Hpt|exact Ht| |].
    - intros q (k & Hk & E)%Hin. by apply (pi_ram _ _ _ Hpt k q).
    - apply list.NoDup_app. split; [exact Hnd|]. split; [|apply Hpt].
      intros q (k & Hk & E)%Hin. by apply (pi_ram _ _ _ Hpt k q). }
  intros _ s' (l' & Hl' & Hk' & Hw). exists l'. split; [done|]. split.
  - intros q. rewrite Hl', elem_of_app, Hq. tauto.
  - intros i Hi. apply Hw. intros q Hqi. by apply Hi, Hq.
Qed.

(** Everything that the process at [r] used is free, and nothing else is written. *)
Definition given_back (s : phys) (r : Z) (l : list Z) (s' : phys) (l' : list Z) : Prop :=
  kmem_inv s' l' /\ (forall q, q ∈ l' <-> q ∈ l \/ owned s r q) /\
  forall i, (forall q, q ∈ l \/ owned s r q -> ~ in_page q i) -> words s' !! i = words s !! i.

Lemma uvmfree_eq s r l sz : user_ok s r l -> 0 <= sz <= MAXVA ->
  backed (words s) r 0 (PGROUNDUP sz / PGSIZE) ->
  (forall v, PGROUNDUP sz <= v < MAXVA -> xlate (words s) r v = None) ->
  wp (uvmfree r sz) s (fun _ s' => exists l', given_back s r l s' l').
Proof.
  intros Hok Hsz Hb Htop. unfold uvmfree. destruct (PGROUNDUP_top sz Hsz) as [T1 T2].
  destruct (PGROUNDUP_bounds sz) as [Hal Hup]; [change MAXVA with (2 ^ 38) in Hsz; lia|].
  set (n := PGROUNDUP sz / PGSIZE) in *.
  assert (Hn : 0 + n * PGSIZE = PGROUNDUP sz /\ 0 <= n).
  { unfold n, page_aligned, PGSIZE in *. clear -Hal T1. zlia. }
  destruct Hn as [Hn Hn0]. apply wp_bind. eapply wp_mono with (Q1 := fun _ s1 => exists l1, user_ok s1 r l1 /\
    (forall v, 0 <= v < MAXVA -> xlate (words s1) r v = None) /\ own_step s r l s1 l1).
  - apply wp_when; intros Hpos.
    + eapply wp_mono; [apply (uvmunmap_eq Hkend s r l 0 n true); try done; [lia|]|].
      { intros k Hk. destruct (Hb k Hk) as (e & He & Hfl & Hr). by exists e. }
      cbv zeta. intros _ s1 (Hok1 & [Hx1 _] & Ho1). eexists. split; [exact Hok1|]. split; [|by apply Ho1].
      intros v Hv. rewrite Hx1 by done. case_decide; [done|]. apply Htop. lia.
    + apply Z.ltb_ge in Hpos. assert (sz = 0) as -> by lia. exists l. split; [done|].
      split; [|apply own_step_refl]. intros v Hv. apply Htop. by change (PGROUNDUP 0) with 0.
  - intros _ s1 (l1 & Hok1 & Hx1 & [Ho1 Hw1]). eapply wp_mono; [by apply (freewalk_user s1 r l1)|].
    intros _ s2 (l2 & Hk2 & Hl2 & Hw2). exists l2. split; [done|]. split.
    + intros q. by rewrite Hl2, Ho1.
    + intros i Hi. rewrite Hw2; [by apply Hw1|]. intros q Hq. apply Hi, Ho1. by right.
Qed.
(** ** The trampoline and the trap frame *)

(** Unmapping one page that is not freed, while it may be free already. *)
Lemma unmap_entry s r l va e : pt_inv s r l -> page_aligned va -> 0 <= va < MAXVA ->
  xlate (words s) r va = Some e -> PTE_FLAGS e <> PTE_V ->
  wp (uvmunmap r va 1 false) s (fun _ s' => pt_inv s' r l /\
    (forall p, table_path p -> tab (words s') r p = tab (words s) r p) /\
    (forall v, 0 <= v < MAXVA -> xlate (words s') r v =
      if decide (v / PGSIZE = va / PGSIZE) then None else xlate (words s) r v) /\
    (forall i, (forall p q, table_path p -> tab (words s) r p = Some q -> ~ in_page q i) ->
      words s' !! i = words s !! i)).
Proof.
  intros Hpt Hal Hva Hx Hfl. assert (HM : MAXVA = 2 ^ 38) by done.
  assert (Hxx := Hx). unfold xlate in Hxx. destruct (tab (words s) r [PX 2 va; PX 1 va]) as [b|] eqn:Hb; [|done].
  destruct (entry (words s) b (PX 0 va)) as [e'|] eqn:He; [|done].
  destruct (flag e' PTE_V) eqn:Hf; [|done]. injection Hxx as ->.
  destruct (pi_ram _ _ _ Hpt _ _ (va_path va) Hb) as [[Halb Hbb] _]. pose proof (PX_range 0 va) as Hpx.
  destruct (clear_entry s r l va b Hpt Hva Hb) as (s1 & E & Hpt1 & Ht1 & Hx1 & Hw1).
  unfold uvmunmap. unfold page_aligned in Hal. rewrite Hal. cbn [Z.eqb negb].
  assert (Hsum : u64 (va + 1 * PGSIZE) = va + PGSIZE).
  { unfold u64, PGSIZE. rewrite Z.mod_small by lia. lia. }
  rewrite Hsum. apply (wp_loop_idx (fun k' a s' => (k' = 1 /\ a = va /\ s' = s) \/ (k' = 0 /\ a = va + PGSIZE /\ s' = s1))
    _ _ 1); [by left|lia|by intros k' a s' [(-> & _)|(-> & _)]|].
  intros k' a s' [(-> & -> & ->)|(-> & -> & ->)].
  - rewrite (proj2 (Z.ltb_lt va (va + PGSIZE))) by (unfold PGSIZE; lia).
    apply wp_bind. eapply wp_eq; [rewrite (walk_lookup s r l va Hpt) by lia; by rewrite Hb|]. cbv beta.
    rewrite (proj2 (Z.eqb_neq _ 0)) by (unfold KERNBASE in Hkend; lia).
    apply wp_bind. eapply wp_eq; [by apply load64_entry|]. cbv beta. rewrite Hf, (proj2 (Z.eqb_neq _ _) Hfl).
    cbn [negb when]. apply wp_bind, wp_ret. apply wp_bind. eapply wp_eq; [exact E|]. apply wp_ret.
    exists 0. split; [|lia]. right. split; [done|]. split; [|done]. unfold u64, PGSIZE. rewrite Z.mod_small; lia.
  - rewrite Z.ltb_irrefl. apply wp_ret. split_and!; try done. intros i Hi. apply Hw1.
    by apply (Hi [PX 2 va; PX 1 va]), Hb; apply va_path.
Qed.
(** The memory of a process of proc.c, whose page table is at [r]: the trampoline,
    which belongs to the kernel, the trap frame [tf], and [sz] bytes. *)
Record proc_mem (s : phys) (l : list Z) (r sz tf : Z) : Prop := {
  pm_ok : user_ok s r l;
  pm_trampoline : exists e, xlate (words s) r TRAMPOLINE = Some e /\ PTE_FLAGS e <> PTE_V /\ ~ ram_page (PTE2PA e);
  pm_trapframe : exists e, xlate (words s) r TRAPFRAME = Some e /\ PTE_FLAGS e <> PTE_V /\ PTE2PA e = tf;
  pm_ram : ram_page tf;
  pm_size : 0 <= sz <= TRAPFRAME;
  pm_user : backed (words s) r 0 (PGROUNDUP sz / PGSIZE);
  pm_top : forall v, PGROUNDUP sz <= v < TRAPFRAME -> xlate (words s) r v = None
}.

Lemma top_pages v : 0 <= v < MAXVA ->
  (v / PGSIZE = TRAPFRAME / PGSIZE <-> TRAPFRAME <= v < TRAMPOLINE) /\
  (v / PGSIZE = TRAMPOLINE / PGSIZE <-> TRAMPOLINE <= v).
Proof. change TRAPFRAME with (67108862 * 4096). change TRAMPOLINE with (67108863 * 4096). change MAXVA with (67108864 * 4096). unfold PGSIZE. intros Hv. split; zlia. Qed.

(** After [kfree] of the trap frame and with both pages unmapped. *)
Lemma traps_unmapped s l r sz tf s3 : proc_mem s l r sz tf -> pt_inv s3 r (tf :: l) ->
  (forall p, table_path p -> tab (words s3) r p = tab (words s) r p) ->
  (forall v, 0 <= v < MAXVA -> xlate (words s3) r v = if decide (TRAPFRAME <= v) then None else xlate (words s) r v) ->
  user_ok s3 r (tf :: l) /\ (forall q, owned s r q <-> q = tf \/ owned s3 r q).
Proof.
  intros [Hok (e1 & Hx1 & _ & Hn1) (e2 & Hx2 & _ & He2) Hram _ _ _] Hpt3 Ht Hx.
  assert (Htf : frame (words s) r TRAPFRAME = tf) by (unfold frame; by rewrite Hx2).
  assert (H0 : ~ ram_page 0) by (intros [_ Hr0]; clear -Hkend Hr0; unfold KERNBASE in *; lia).
  assert (Hf : forall v, 0 <= v < MAXVA -> frame (words s3) r v =
    if decide (TRAPFRAME <= v) then 0 else frame (words s) r v).
  { intros v Hv. unfold frame. rewrite Hx by done. by case_decide. }
  assert (HT : 0 <= TRAPFRAME < MAXVA) by done.
  assert (Hlow : forall v, 0 <= v < MAXVA -> ~ TRAPFRAME <= v -> frame (words s) r v <> tf).
  { intros v Hv Hlt E. assert (Hp : v / PGSIZE = TRAPFRAME / PGSIZE).
    { apply (uo_once _ _ _ Hok TRAPFRAME v); rewrite ?Htf; done. }
    apply (top_pages v Hv) in Hp. lia. }
  split; [constructor; [done|..]|].
  - intros v e Hv. rewrite Hx by done. case_decide; [done|]. by apply (uo_user _ _ _ Hok).
  - intros v Hv. rewrite Hf by done. case_decide as Hp.
    + intros Hin. by apply (inv_free _ _ (pi_kmem _ _ _ Hpt3)) in Hin.
    + intros [E|Hin]%elem_of_cons; [by apply (Hlow v)|]. by apply (uo_free _ _ _ Hok) in Hin.
  - intros v p Hv. rewrite Hf by done. case_decide; [done|]. intros Hr Hp. rewrite Ht by done.
    by apply (uo_table _ _ _ Hok).
  - intros v v' Hv Hv'. rewrite !Hf by done. do 2 case_decide; intros Hr E; [done|done|by rewrite <- E in Hr|].
    by apply (uo_once _ _ _ Hok v v').
  - intros q. split.
    + intros [(p & Hp & Hq)|(v & Hv & Hrv & Hq)]; [right; left; exists p; by rewrite Ht|].
      destruct (decide (TRAPFRAME <= v)) as [Hle|Hlt].
      * left. destruct (decide (v < TRAMPOLINE)) as [Hlt|Hge].
        -- rewrite <- Hq, <- Htf. apply frame_page; [lia..|]. by apply (top_pages v Hv).
        -- exfalso. assert (E : frame (words s) r v = frame (words s) r TRAMPOLINE).
           { apply frame_page; [lia|done|]. apply (top_pages v Hv). lia. }
           rewrite E in Hrv. unfold frame in Hrv. by rewrite Hx1 in Hrv.
      * right. right. exists v. rewrite Hf by done. by rewrite decide_False.
    + intros [->|[(p & Hp & Hq)|(v & Hv & Hrv & Hq)]]; [|left; exists p; by rewrite <- Ht|].
      * right. exists TRAPFRAME. by rewrite Htf.
      * rewrite Hf in Hrv, Hq by done. case_decide; [done|]. right. by exists v.
Qed.

(** [kfree] of the trap frame of a process. *)
Definition tf_freed (s : phys) (l : list Z) (r tf : Z) (s1 : phys) : Prop :=
  pt_inv s1 r (tf :: l) /\ (forall p, table_path p -> tab (words s1) r p = tab (words s) r p) /\
  (forall v, xlate (words s1) r v = xlate (words s) r v) /\
  (forall i, ~ in_page tf i -> words s1 !! i = words s !! i).

Lemma kfree_trapframe s l r sz tf : proc_mem s l r sz tf -> wp (kfree tf) s (fun _ s1 => tf_freed s l r tf s1).
Proof.
  intros Hpm. destruct (pm_trapframe _ _ _ _ _ Hpm) as (e & Hx & _ & He).
  assert (Htf : frame (words s) r TRAPFRAME = tf) by (unfold frame; by rewrite Hx).
  destruct (free_page Hkend s r l TRAPFRAME true) as (s1 & l1 & E & Hpt & -> & Ht & Hx1 & Hw);
    [apply Hpm|done|intros _; rewrite Htf; apply (pm_ram _ _ _ _ _ Hpm)|].
  rewrite Htf in *. eapply wp_eq; [exact E|]. done.
Qed.

Lemma free_process s l r sz tf s1 : proc_mem s l r sz tf -> tf_freed s l r tf s1 ->
  wp (uvmunmap r TRAMPOLINE 1 false ;;; uvmunmap r TRAPFRAME 1 false ;;; uvmfree r sz) s1
    (fun _ s' => exists l', given_back s r l s' l').
Proof.
  intros Hpm (Hpt1 & Ht1 & Hx1 & Hw1). destruct (pm_trampoline _ _ _ _ _ Hpm) as (e & Hxe & Hfe & _).
  destruct (pm_trapframe _ _ _ _ _ Hpm) as (e' & Hxe' & Hfe' & He').
  eapply wp_bind_mono; [apply (unmap_entry s1 r (tf :: l) TRAMPOLINE e); try done; by rewrite Hx1|].
  intros _ s2 (Hpt2 & Ht2 & Hx2 & Hw2). rewrite <- Hx1 in Hxe'.
  eapply wp_bind_mono; [apply (unmap_entry s2 r (tf :: l) TRAPFRAME e'); try done|].
  { rewrite Hx2 by done. by rewrite decide_False. }
  intros _ s3 (Hpt3 & Ht3 & Hx3 & Hw3).
  assert (Hx : forall v, 0 <= v < MAXVA -> xlate (words s3) r v =
    if decide (TRAPFRAME <= v) then None else xlate (words s) r v).
  { intros v Hv. rewrite Hx3, Hx2, Hx1 by done. destruct (top_pages v Hv) as [H1 H2].
    assert (TRAPFRAME < TRAMPOLINE) by done. destruct (decide (TRAPFRAME <= v)) as [Hle|Hlt].
    - destruct (decide (v < TRAMPOLINE)); [rewrite decide_True by (apply H1; lia); done|].
      case_decide; [done|]. rewrite decide_True by (apply H2; lia). done.
    - rewrite decide_False by (rewrite H1; lia). by rewrite decide_False by (rewrite H2; lia). }
  assert (Ht : forall p, table_path p -> tab (words s3) r p = tab (words s) r p).
  { intros p Hp. by rewrite Ht3, Ht2, Ht1. }
  destruct (traps_unmapped s l r sz tf s3 Hpm Hpt3 Ht Hx) as [Hok3 Ho].
  pose proof (pm_size _ _ _ _ _ Hpm) as Hsz. assert (HTM : TRAPFRAME < MAXVA) by done.
  assert (Hup : PGROUNDUP sz <= TRAPFRAME).
  { change TRAPFRAME with (67108862 * 4096) in *. rewrite PGROUNDUP_eq by lia. unfold PGSIZE. clear -Hsz. zlia. }
  eapply wp_mono; [apply (uvmfree_eq s3 r (tf :: l) sz Hok3); [lia| |]|].
  - intros k Hk. destruct (pm_user _ _ _ _ _ Hpm k Hk) as (e0 & E0 & H0). exists e0. split; [|done].
    assert (0 + k * PGSIZE < PGROUNDUP sz) by (unfold PGSIZE in *; clear -Hk; zlia).
    rewrite Hx by (unfold PGSIZE in *; lia). by rewrite decide_False by lia.
  - intros v Hv. destruct (PGROUNDUP_top sz); [lia|]. rewrite Hx by lia. case_decide; [done|].
    apply (pm_top _ _ _ _ _ Hpm). lia.
  - intros _ s4 (l4 & Hk4 & Hl4 & Hw4). exists l4. split; [done|]. split.
    + intros q. rewrite Hl4, Ho, elem_of_cons. tauto.
    + intros i Hi. assert (Htab : forall p q, table_path p -> tab (words s) r p = Some q -> ~ in_page q i).
      { intros p q Hp Hq. apply Hi. right. left. by exists p. }
      rewrite Hw4, Hw3, Hw2, Hw1; [done|..].
      * apply Hi. right. apply Ho. by left.
      * intros p q Hp. rewrite Ht1 by done. by apply Htab.
      * intros p q Hp. rewrite Ht2, Ht1 by done. by apply Htab.
      * intros q [[->|Hq]%elem_of_cons|Hq]; apply Hi; [right; apply Ho; by left|by left|right; apply Ho; by right].
Qed.
(** ** A new address space *)

Section space.
Context (Htr : page_aligned trampoline) (Htb : KERNBASE <= trampoline < kend).

Definition no_map (s : phys) (r : Z) : Prop := forall v, 0 <= v < MAXVA -> xlate (words s) r v = None.
(** Only the trampoline is mapped. *)
Definition tramp_map (s : phys) (r : Z) : Prop := forall v, 0 <= v < MAXVA -> xlate (words s) r v =
  if decide (v / PGSIZE = TRAMPOLINE / PGSIZE) then Some (leaf_pte trampoline (Z.lor PTE_R PTE_X)) else None.

Lemma uvmcreate_fresh s l : kmem_inv s l -> wp uvmcreate s (fun pg s1 =>
  (pg = 0 /\ l = [] /\ words s1 = words s /\ kmem_inv s1 []) \/
  (pg <> 0 /\ exists l0, l = pg :: l0 /\ user_ok s1 pg l0 /\ no_map s1 pg /\
    (forall q, owned s1 pg q <-> q = pg) /\ forall i, ~ in_page pg i -> words s1 !! i = words s !! i)).
Proof.
  intros Hk. destruct l as [|pg l0].
  - destruct (kalloc_eq Hkend s [] Hk) as (r & s1 & E & _ & -> & Hw & Hk1). unfold uvmcreate.
    apply wp_bind. eapply wp_eq; [exact E|]. apply wp_ret. by left.
  - destruct (uvmcreate_eq Hkend s pg l0 Hk) as (s2 & E2 & Hpt & Hx & Ht).
    destruct (pi_ram _ _ _ Hpt [] pg root_path eq_refl) as [Hr _]. destruct (ram_page_high Hkend pg Hr) as [Hal Hb].
    pose proof (fresh_user Hkend s2 pg l0 Hpt Hx) as Hok.
    assert (Hw : forall i, ~ in_page pg i -> words s2 !! i = words s !! i).
    { intros i Hi. unfold uvmcreate in E2. destruct (kalloc_eq Hkend s _ Hk) as (r & s1 & E & _ & -> & Hk1 & Hf).
      rewrite (bind_eq _ _ _ _ _ E) in E2. rewrite (proj2 (Z.eqb_neq pg 0)) in E2 by lia.
      destruct (memset_page_eq s1 pg 0) as (w' & Hms & Hf'); [done|by apply (inv_ram _ _ Hk1)|].
      rewrite (bind_eq _ _ _ _ _ Hms) in E2. injection E2 as <-. cbn. by rewrite (proj2 (Hf' i)), (proj2 (Hf i)). }
    eapply wp_eq; [exact E2|]. right. split; [lia|]. exists l0. split; [done|]. split; [done|].
    split; [by intros v _|]. split; [|done]. intros q. rewrite (owned_tables s2 pg l0 q Hok) by (intros v _; apply Hx).
    split; [intros (p & Hp & Hq); by apply (Ht p)|]. intros ->. exists []. split; [apply root_path|done].
Qed.

Lemma flags_R pa perm : page_aligned pa -> 0 <= pa < 2 ^ 56 -> Z.testbit perm 1 = true -> 0 <= perm < 1024 ->
  PTE_FLAGS (leaf_pte pa perm) <> PTE_V.
Proof.
  intros Hal Hb Hr Hp E. assert (Ht : Z.testbit (PTE_FLAGS (leaf_pte pa perm)) 1 = false) by by rewrite E.
  rewrite PTE_FLAGS_spec in Ht by lia. rewrite leaf_pte_testbit, Hr in Ht by (done || lia). done.
Qed.

Lemma trampoline_page : 0 <= trampoline < 2 ^ 56 /\ ~ ram_page trampoline.
Proof. unfold PHYSTOP, KERNBASE in *. split; [lia|]. intros [_ Hr]. lia. Qed.

(** Mapping a page of the kernel moves no page but those that become tables. *)
Lemma map_own_kernel s r l va pa perm s' l' : walk_frame s r l s' l' -> 0 <= va < MAXVA -> page_aligned pa ->
  0 <= pa < 2 ^ 56 -> ~ ram_page pa -> 0 <= perm < 1024 -> xlate (words s) r va = None -> mapped_at s s' r va pa perm ->
  own_step s r l s' l'.
Proof.
  intros Hwf Hva Hal Hb Hr Hperm Hnone [Hx _].
  assert (Hf : forall v, 0 <= v < MAXVA -> frame (words s') r v =
    if decide (v / PGSIZE = va / PGSIZE) then pa else frame (words s) r v).
  { intros v Hv. unfold frame. rewrite Hx by done. case_decide; [by apply PTE2PA_leaf|done]. }
  split; [|intros i; by apply (walk_frame_words s r l s' l')].
  intros q. pose proof (walk_frame_pages s r l s' l' Hwf q) as Hq. unfold owned.
  assert (Hfr : (exists v, 0 <= v < MAXVA /\ ram_page (frame (words s') r v) /\ frame (words s') r v = q) <->
    (exists v, 0 <= v < MAXVA /\ ram_page (frame (words s) r v) /\ frame (words s) r v = q)).
  { split; intros (v & Hv & Hrv & E); exists v.
    - rewrite Hf in Hrv, E by done. case_decide; [done|]. done.
    - rewrite Hf by done. rewrite decide_False; [done|]. intros Hp. revert Hrv.
      rewrite (frame_page _ _ v va) by (done || lia). unfold frame. rewrite Hnone. intros [_ Hlow].
      clear -Hkend Hlow. unfold KERNBASE in *. lia. }
  tauto.
Qed.

Lemma map_trampoline s r l : user_ok s r l -> no_map s r ->
  wp (mappages r TRAMPOLINE PGSIZE trampoline (Z.lor PTE_R PTE_X)) s (fun res s' => exists l',
    user_ok s' r l' /\ own_step s r l s' l' /\ if res <? 0 then no_map s' r else tramp_map s' r).
Proof.
  intros Hok Hno. destruct trampoline_page as [Hb Hnr].
  assert (Hm : mappable s r l trampoline (Z.lor PTE_R PTE_X)).
  { split_and!; try done; try lia. intros Hin. by apply (inv_free _ _ (pi_kmem _ _ _ (uo_pt _ _ _ Hok))) in Hin. }
  eapply wp_mono; [apply (map_any_page Hkend s r l TRAMPOLINE trampoline _ Hok); try done; by apply Hno|].
  intros res s' (l' & Hok' & Hwf & [[-> Hm']|(-> & -> & Hx & _)]); exists l' || exists []; (split; [done|]); cbn.
  - split; [by eapply map_own_kernel; [| | | |exact Hnr| |apply Hno|exact Hm']|].
    intros v Hv. rewrite (proj1 Hm') by done. case_decide; [done|]. by apply Hno.
  - split; [by apply walk_own|]. intros v Hv. rewrite Hx by done. by apply Hno.
Qed.

Lemma tramp_frame s r v : tramp_map s r -> 0 <= v < MAXVA ->
  frame (words s) r v = if decide (v / PGSIZE = TRAMPOLINE / PGSIZE) then trampoline else 0.
Proof.
  intros Hm Hv. unfold frame. rewrite Hm by done. case_decide; [|done].
  apply PTE2PA_leaf; [done|apply trampoline_page|done].
Qed.

Lemma map_trapframe s r l tf : user_ok s r l -> tramp_map s r -> ram_page tf -> tf ∉ l ->
  (forall p, table_path p -> tab (words s) r p <> Some tf) ->
  wp (mappages r TRAPFRAME PGSIZE tf (Z.lor PTE_R PTE_W)) s (fun res s' => exists l',
    if res <? 0 then user_ok s' r l' /\ own_step s r l s' l' /\ tramp_map s' r
    else proc_mem s' l' r 0 tf /\ own_step s r (tf :: l) s' l').
Proof.
  intros Hok Hm Hr Hnl Hnt. destruct (ram_page_high Hkend tf Hr) as [Hal Hb]. destruct trampoline_page as [Htr0 Hnr].
  assert (Hun : unused s r tf).
  { split; [done|]. intros v Hv. rewrite (tramp_frame s r v Hm Hv). case_decide; [by intros <-|lia]. }
  assert (Hne : TRAPFRAME / PGSIZE <> TRAMPOLINE / PGSIZE) by done.
  assert (Hnone : xlate (words s) r TRAPFRAME = None) by (rewrite Hm by done; by rewrite decide_False).
  eapply wp_mono; [apply (map_any_page Hkend s r l TRAPFRAME tf _ Hok); try done; by apply mappable_ram|].
  intros res s' (l' & Hok' & Hwf & [[-> Hm']|(-> & -> & Hx & _)]).
  - exists l'. cbn. pose proof (proj1 Hm') as Hx. split; [|apply (map_own Hkend s r l TRAPFRAME tf (Z.lor PTE_R PTE_W) s' l' Hwf); done].
    constructor; [done|..|done|done|intros k Hk; change (PGROUNDUP 0 / PGSIZE) with 0 in Hk; lia|].
    + exists (leaf_pte trampoline (Z.lor PTE_R PTE_X)). rewrite Hx, Hm by done. rewrite decide_False, decide_True by done.
      split; [done|]. split; [by apply flags_R|]. by rewrite PTE2PA_leaf.
    + exists (leaf_pte tf (Z.lor PTE_R PTE_W)). rewrite Hx by done. rewrite decide_True by done.
      split; [done|]. split; [apply flags_R; done || lia|]. apply PTE2PA_leaf; done || lia.
    + intros v Hv. change (PGROUNDUP 0) with 0 in Hv. assert (HT : TRAPFRAME < TRAMPOLINE < MAXVA) by done.
      destruct (top_pages v) as [H1 H2]; [lia|]. rewrite Hx, Hm by lia.
      rewrite decide_False by (rewrite H1; lia). by rewrite decide_False by (rewrite H2; lia).
  - exists []. cbn. split; [done|]. split; [by apply walk_own|]. intros v Hv. rewrite Hx by done. by apply Hm.
Qed.

(** Giving a space back that only maps the trampoline. *)
Lemma free_tramp s r l : user_ok s r l -> tramp_map s r ->
  wp (uvmunmap r TRAMPOLINE 1 false ;;; uvmfree r 0) s (fun _ s' => exists l', given_back s r l s' l').
Proof.
  intros Hok Hm. destruct trampoline_page as [Htr0 Hnr].
  set (e := leaf_pte trampoline (Z.lor PTE_R PTE_X)).
  assert (He : xlate (words s) r TRAMPOLINE = Some e) by (rewrite Hm by done; by rewrite decide_True).
  assert (Hfl : PTE_FLAGS e <> PTE_V) by (by apply flags_R).
  apply wp_bind. eapply wp_mono; [apply wp_and; [apply (uvmunmap_eq Hkend s r l TRAMPOLINE 1 false Hok); try done|
    by apply (unmap_entry s r l TRAMPOLINE e (uo_pt _ _ _ Hok))]|].
  { intros k Hk. assert (k = 0) as -> by lia. exists e. by split. }
  cbv beta zeta. intros _ s1 ((Hok1 & _ & _) & (_ & Ht1 & Hx1 & Hw1)). cbn [unmapped app] in Hok1.
  assert (Hno : no_map s1 r). { intros v Hv. rewrite Hx1, Hm by done. by case_decide. }
  assert (Ho : forall q, owned s1 r q <-> owned s r q).
  { intros q. rewrite (owned_tables s1 r l q Hok1 Hno). split.
    - intros (p & Hp & Hq). left. exists p. by rewrite <- Ht1.
    - intros [(p & Hp & Hq)|(v & Hv & Hrv & _)]; [exists p; by rewrite Ht1|]. exfalso.
      rewrite (tramp_frame s r v Hm Hv) in Hrv. case_decide; [done|]. destruct Hrv as [_ Hlow].
      clear -Hkend Hlow. unfold KERNBASE in *. lia. }
  eapply wp_mono; [apply (uvmfree_eq s1 r l 0 Hok1); [done|intros k Hk; change (PGROUNDUP 0 / PGSIZE) with 0 in Hk; lia|]|].
  { intros v Hv. apply Hno. by change (PGROUNDUP 0) with 0 in Hv. }
  intros _ s2 (l2 & Hk2 & Hl2 & Hw2). exists l2. split; [done|]. split.
  - intros q. by rewrite Hl2, Ho.
  - intros i Hi. rewrite Hw2, Hw1; [done| |].
    + intros p q Hp Hq. apply Hi. right. left. by exists p.
    + intros q Hq. apply Hi. by rewrite <- Ho.
Qed.
End space.
End reap.
