(* ===== verification/Locks.v ===== *)
(** Spin locks and sleep locks, FileSystem-RAID/kernel/spinlock.c and
    sleeplock.c.

    The first part models spinlock.c in full for one CPU: the interrupt
    nesting of [push_off] and [pop_off], and [acquire] and [release] on a lock
    with its owner.  The second part interleaves the instructions of several
    CPUs and shows mutual exclusion.  The third part is what the other
    components use: a spin lock that is a flag of the component's state
    ([spin_acquire], [spin_release]; [acquire_uncontended] relates them to the
    detailed model) and the sleep locks, in any state with a current process
    and a [wakeup]. *)
From S2P Require Import Prelude.

(** ** spinlock.c on one CPU *)

Record cpu := Cpu {
  noff : Z;         (** depth of [push_off] nesting *)
  intena : bool;    (** were interrupts enabled before [push_off]? *)
  intr : bool       (** the interrupt-enable bit of the CPU *)
}.
Record spinlock := Spinlock { lk_locked : bool; lk_cpu : option Z }.
Record cpu_state := CpuState { mycpu : cpu; lk : spinlock }.

Definition set_noff (n : Z) (c : cpu) : cpu := Cpu n (intena c) (intr c).
Definition set_intena (b : bool) (c : cpu) : cpu := Cpu (noff c) b (intr c).
Definition set_intr (b : bool) (c : cpu) : cpu := Cpu (noff c) (intena c) b.
Definition set_mycpu (c : cpu) (s : cpu_state) : cpu_state := CpuState c (lk s).
Definition set_lk (l : spinlock) (s : cpu_state) : cpu_state := CpuState (mycpu s) l.

Definition push_off : M cpu unit :=
  let! old := gets intr in
  modify (set_intr false) ;;;
  let! c := get in
  when (noff c =? 0) (modify (set_intena old)) ;;;
  modify (fun c => set_noff (s32 (noff c + 1)) c).

Definition pop_off : M cpu unit :=
  let! c := get in
  if intr c then panic "pop_off - interruptible" else
  if noff c <? 1 then panic "pop_off" else
  modify (fun c => set_noff (s32 (noff c - 1)) c) ;;;
  let! c := get in
  when ((noff c =? 0) && intena c) (modify (set_intr true)).

Lemma push_off_eq c :
  push_off c =
    Ret tt (Cpu (s32 (noff c + 1)) (if noff c =? 0 then intr c else intena c) false).
Proof.
  destruct c as [n ie i]. unfold push_off, bind, gets, modify, get, when. simpl.
  by destruct (n =? 0).
Qed.

Section one_cpu.
(** The identity of this CPU. *)
Variable me : Z.

Definition initlock : M spinlock unit := fun _ => Ret tt (Spinlock false None).

Definition holding (l : spinlock) : bool :=
  lk_locked l && bool_decide (lk_cpu l = Some me).

(** The spinning loop is left only when the lock is free; while another CPU
    holds it, this CPU makes no progress ([Sleep]). *)
Definition acquire : M cpu_state unit :=
  zoom mycpu set_mycpu push_off ;;;
  let! l := gets lk in
  if holding l then panic "acquire" else
  if lk_locked l then (fun s => Sleep s) else
  modify (set_lk (Spinlock true (lk_cpu l))) ;;;
  modify (fun s => set_lk (Spinlock (lk_locked (lk s)) (Some me)) s).

Definition release : M cpu_state unit :=
  let! l := gets lk in
  if negb (holding l) then panic "release" else
  modify (fun s => set_lk (Spinlock (lk_locked (lk s)) None) s) ;;;
  modify (fun s => set_lk (Spinlock false (lk_cpu (lk s))) s) ;;;
  zoom mycpu set_mycpu pop_off.

Lemma acquire_uncontended s :
  lk_locked (lk s) = false -> is_int (noff (mycpu s) + 1) ->
  exists c, acquire s = Ret tt (CpuState c (Spinlock true (Some me))) /\
    noff c = noff (mycpu s) + 1 /\ intr c = false.
Proof.
  intros Hl Hn. destruct s as [c [lo lc]]. simpl in *. subst.
  unfold acquire, zoom, bind at 1. simpl. rewrite push_off_eq. eexists.
  split; [reflexivity|]. simpl. rewrite s32_small by done. done.
Qed.

Lemma acquire_again s : holding (lk s) = true -> exists msg, acquire s = Panic msg.
Proof.
  intros H. unfold acquire, zoom, bind at 1. rewrite push_off_eq.
  unfold bind, gets. simpl. rewrite H. by eexists.
Qed.

End one_cpu.

(** *** Nesting *)

Inductive nest_op := Push | Pop.
Definition run_nest_op (o : nest_op) : M cpu unit :=
  match o with Push => push_off | Pop => pop_off end.
Definition depth_after (d : Z) (o : nest_op) : Z :=
  match o with Push => d + 1 | Pop => d - 1 end.

(** Every prefix of [ops], from depth [d], pops no more than was pushed. *)
Fixpoint nested (d : Z) (ops : list nest_op) : Prop :=
  match ops with
  | [] => True
  | o :: ops' => 0 <= depth_after d o < INT_MAX /\ nested (depth_after d o) ops'
  end.

Lemma nest_step d o b c :
  0 <= d < INT_MAX -> 0 <= depth_after d o < INT_MAX ->
  noff c = d -> intr c = (d =? 0) && b -> (d <> 0 -> intena c = b) ->
  exists c', run_nest_op o c = Ret tt c' /\ noff c' = depth_after d o /\
    intr c' = (depth_after d o =? 0) && b /\ (depth_after d o <> 0 -> intena c' = b).
Proof.
  intros Hd Hd' Hn Hi He. unfold INT_MAX in *. destruct c as [n ie i]. simpl in *. subst.
  destruct o; simpl in *.
  - rewrite push_off_eq. simpl. eexists. split; [done|]. simpl.
    rewrite s32_small by (unfold is_int, INT_MIN, INT_MAX; lia).
    rewrite (proj2 (Z.eqb_neq (d + 1) 0)) by lia. split; [done|]. split; [done|]. intros _.
    destruct (Z.eqb_spec d 0) as [->|Hne]; [done|auto].
  - unfold pop_off, bind, get, modify, when. simpl.
    rewrite (proj2 (Z.eqb_neq d 0)) by lia. simpl.
    rewrite (proj2 (Z.ltb_ge d 1)) by lia. unfold set_noff, set_intr. simpl.
    rewrite s32_small by (unfold is_int, INT_MIN, INT_MAX; lia).
    destruct (Z.eqb_spec (d - 1) 0) as [H0|Hne]; simpl.
    + destruct ie eqn:Hie; simpl; eexists; (split; [done|]); simpl; rewrite <- He; auto with lia.
    + eexists; split; [done|]; simpl. auto with lia.
Qed.

(** Whatever the order in which code nests [push_off] and [pop_off], as
    long as it never pops more than it pushed: neither panics, interrupts are
    enabled exactly at depth 0 of an execution that started with them
    enabled, and [noff] is the depth. *)
Theorem push_pop_nesting ops b ie :
  nested 0 ops ->
  exists c, for_all ops run_nest_op (Cpu 0 ie b) = Ret tt c /\
    noff c = fold_left depth_after ops 0 /\
    intr c = (fold_left depth_after ops 0 =? 0) && b.
Proof.
  assert (forall ops d c, 0 <= d < INT_MAX -> nested d ops -> noff c = d ->
    intr c = (d =? 0) && b -> (d <> 0 -> intena c = b) ->
    exists c', for_all ops run_nest_op c = Ret tt c' /\ noff c' = fold_left depth_after ops d /\
      intr c' = (fold_left depth_after ops d =? 0) && b) as Hgen.
  { clear ops. induction ops as [|o ops IH]; intros d c Hd Hnest Hn Hi He; simpl.
    { exists c. done. }
    destruct Hnest as [Hd' Hnest].
    destruct (nest_step d o b c) as (c1 & Heq & Hn1 & Hi1 & He1); [done..|].
    rewrite (bind_eq _ _ _ _ _ Heq). by apply IH. }
  intros Hnest. apply Hgen; try done.
Qed.

Lemma push_pop_nesting_witness :
  exists c, for_all [Push; Push; Pop; Push; Pop; Pop] run_nest_op (Cpu 0 false true) = Ret tt c /\
    noff c = 0 /\ intr c = true.
Proof.
  apply (push_pop_nesting [Push; Push; Pop; Push; Pop; Pop] true false).
  unfold nested, depth_after, INT_MAX. lia.
Defined.

(** ** Several CPUs *)

(** Where a CPU is in [acquire] and [release]: outside, spinning on the atomic
    swap, past the swap and about to record itself as owner, in the critical
    section, past the clearing of the owner and about to clear [locked]. *)
Inductive pc := Out | Spin | Swapped | Crit | Cleared.

#[export] Instance pc_eq_dec : EqDecision pc.
Proof. solve_decision. Defined.

Record smp := Smp { sl : spinlock; pcs : Z -> pc }.

Definition at_pc (i : Z) (p : pc) (f : Z -> pc) : Z -> pc :=
  fun j => if decide (j = i) then p else f j.

(** One instruction of one CPU.  The swap stores 1 and spins again when the old
    value was 1. *)
Inductive smp_step : smp -> smp -> Prop :=
| step_enter i s :
    pcs s i = Out -> holding i (sl s) = false ->
    smp_step s (Smp (sl s) (at_pc i Spin (pcs s)))
| step_swap i s :
    pcs s i = Spin ->
    smp_step s (Smp (Spinlock true (lk_cpu (sl s)))
      (at_pc i (if lk_locked (sl s) then Spin else Swapped) (pcs s)))
| step_own i s :
    pcs s i = Swapped ->
    smp_step s (Smp (Spinlock (lk_locked (sl s)) (Some i)) (at_pc i Crit (pcs s)))
| step_clear i s :
    pcs s i = Crit -> holding i (sl s) = true ->
    smp_step s (Smp (Spinlock (lk_locked (sl s)) None) (at_pc i Cleared (pcs s)))
| step_release i s :
    pcs s i = Cleared ->
    smp_step s (Smp (Spinlock false (lk_cpu (sl s))) (at_pc i Out (pcs s))).

Definition inside (p : pc) : bool :=
  match p with Swapped | Crit | Cleared => true | _ => false end.

(** The lock is free and nobody is inside, or exactly one CPU is inside and
    the owner field follows its program counter. *)
Definition smp_inv (s : smp) : Prop :=
  (lk_locked (sl s) = false /\ lk_cpu (sl s) = None /\ forall i, inside (pcs s i) = false) \/
  (lk_locked (sl s) = true /\ exists i, inside (pcs s i) = true /\
     lk_cpu (sl s) = (if decide (pcs s i = Crit) then Some i else None) /\
     forall j, j <> i -> inside (pcs s j) = false).

Lemma at_pc_eq i p f : at_pc i p f i = p.
Proof. unfold at_pc. by rewrite decide_True. Qed.
Lemma at_pc_ne i j p f : j <> i -> at_pc i p f j = f j.
Proof. intros. unfold at_pc. by rewrite decide_False. Qed.

Lemma inside_at_pc i p f j :
  inside (at_pc i p f j) = if decide (j = i) then inside p else inside (f j).
Proof. unfold at_pc. by case_decide. Qed.

Lemma smp_step_inv s s' : smp_inv s -> smp_step s s' -> smp_inv s'.
Proof.
  intros Hinv Hstep.
  destruct Hinv as [(Hl & Hc & Hout)|(Hl & i & Hi & Hc & Hout)].
  - inversion Hstep as [i ? Hpc _|i ? Hpc|i ? Hpc|i ? Hpc _|i ? Hpc]; subst;
      try (specialize (Hout i); by rewrite Hpc in Hout).
    + left. simpl. split; [done|]. split; [done|]. intros j. rewrite inside_at_pc. case_decide; auto.
    + rewrite Hl. right. simpl. split; [done|]. exists i. rewrite at_pc_eq. simpl.
      split; [done|]. split; [done|]. intros j Hj. by rewrite at_pc_ne.
  - assert (Huniq : forall j, inside (pcs s j) = true -> j = i).
    { intros j Hj. destruct (decide (j = i)) as [|Hne]; [done|]. by rewrite (Hout j Hne) in Hj. }
    inversion Hstep as [j ? Hpc _|j ? Hpc|j ? Hpc|j ? Hpc _|j ? Hpc]; subst.
    + right. simpl. split; [done|]. exists i.
      assert (i <> j) by (intros ->; by rewrite Hpc in Hi). rewrite at_pc_ne by done.
      split; [done|]. split; [done|]. intros k Hk. rewrite inside_at_pc. destruct (decide (k = j)); auto.
    + right. simpl. split; [done|]. exists i.
      assert (i <> j) by (intros ->; by rewrite Hpc in Hi). rewrite at_pc_ne, Hl by done.
      split; [done|]. split; [done|]. intros k Hk. rewrite inside_at_pc. destruct (decide (k = j)); auto.
    + assert (j = i) as -> by (apply Huniq; by rewrite Hpc).
      right. simpl. split; [done|]. exists i. rewrite at_pc_eq. split; [done|].
      split; [by rewrite decide_True|]. intros k Hk. by rewrite at_pc_ne by done; apply Hout.
    + assert (j = i) as -> by (apply Huniq; by rewrite Hpc).
      right. simpl. split; [done|]. exists i. rewrite at_pc_eq. split; [done|].
      split; [done|]. intros k Hk. by rewrite at_pc_ne by done; apply Hout.
    + assert (j = i) as -> by (apply Huniq; by rewrite Hpc).
      left. simpl. rewrite Hc, Hpc. split; [done|]. split; [done|]. intros k.
      rewrite inside_at_pc. destruct (decide (k = i)); auto.
Qed.

(** C29: Starting from a free lock with every CPU outside, under every
    interleaving of the instructions of [acquire] and [release], at most one
    CPU is past the swap and not yet past the release, and [holding] is true
    on exactly the CPU in the critical section, so [release] never panics
    there and [acquire] never panics outside. *)
Theorem spinlock_mutual_exclusion l f s :
  l = Spinlock false None -> (forall i, f i = Out) ->
  rtc smp_step (Smp l f) s ->
  (forall i j, inside (pcs s i) = true -> inside (pcs s j) = true -> i = j) /\
  (forall i, holding i (sl s) = true <-> pcs s i = Crit).
Proof.
  intros -> Hf Hsteps.
  assert (Hinv : smp_inv s).
  { remember (Smp (Spinlock false None) f) as s0 eqn:Hs0.
    assert (smp_inv s0) as H0.
    { subst. left. simpl. split; [done|]. split; [done|]. intros i. by rewrite Hf. }
    clear Hs0. induction Hsteps as [|s1 s2 s3 Hst _ IH]; [done|].
    apply IH. by eapply smp_step_inv. }
  unfold holding. destruct Hinv as [(Hl & Hc & Hout)|(Hl & i & Hi & Hc & Hout)].
  - split; [intros i j H; by rewrite Hout in H|]. intros i. rewrite Hl. simpl.
    split; [done|]. intros H. specialize (Hout i). by rewrite H in Hout.
  - assert (Huniq : forall j, inside (pcs s j) = true -> j = i).
    { intros j Hj. destruct (decide (j = i)) as [|Hne]; [done|]. by rewrite (Hout j Hne) in Hj. }
    split; [intros j k Hj Hk; by rewrite (Huniq j Hj), (Huniq k Hk)|].
    intros j. rewrite Hl, Hc. simpl. rewrite bool_decide_eq_true. split.
    + case_decide as Hd; [|done]. by intros [= <-].
    + intros Hj. assert (j = i) as -> by (apply Huniq; by rewrite Hj). by rewrite decide_True.
Qed.

Lemma spinlock_mutual_exclusion_witness :
  exists s, pcs s 0 = Crit /\ pcs s 1 = Spin /\
  (forall i j, inside (pcs s i) = true -> inside (pcs s j) = true -> i = j) /\
  (forall i, holding i (sl s) = true <-> pcs s i = Crit).
Proof.
  eexists. split; [|split].
  3:{ apply (spinlock_mutual_exclusion (Spinlock false None) (fun _ => Out)); [done|done|].
      eapply rtc_l; [by apply (step_enter 0)|]. eapply rtc_l; [by apply (step_enter 1)|].
      eapply rtc_l; [by apply (step_swap 0)|]. eapply rtc_l; [by apply (step_swap 1)|].
      eapply rtc_l; [by apply (step_own 0)|]. apply rtc_refl. }
  - reflexivity.
  - reflexivity.
Defined.

(** ** Locks of a component *)

(** A part of a state. *)
Record lens (S T : Type) := Lens { lget : S -> T; lset : T -> S -> S }.
Arguments Lens {S T} _ _.
Arguments lget {S T} _ _.
Arguments lset {S T} _ _ _.

(** A spin lock of a component, as the flag [lk->locked].  One kernel thread
    runs at a time, so a lock that is taken is taken by the caller and
    [acquire] panics. *)
Definition spin_acquire {S} (l : lens S bool) : M S unit :=
  let! h := gets (lget l) in
  if h then panic "acquire" else modify (lset l true).
Definition spin_release {S} (l : lens S bool) : M S unit :=
  let! h := gets (lget l) in
  if h then modify (lset l false) else panic "release".

Record sleeplock := Sleeplock {
  sl_locked : bool;
  sl_lk : bool;      (** the spin lock [lk->lk] *)
  sl_pid : Z
}.

(** What a sleep lock needs from its environment: the current process and
    [wakeup] on the address of a lock. *)
Class SleepEnv (S : Type) := {
  myproc_pid : S -> Z;
  wakeup_on : Z -> M S unit
}.

Section sleeplock.
Context {S : Type} `{SleepEnv S}.
(** The lock, and the channel that its address is. *)
Variable (l : lens S sleeplock) (chan : Z).

Definition lk_lens : lens S bool :=
  Lens (fun s => sl_lk (lget l s))
    (fun b s => lset l (Sleeplock (sl_locked (lget l s)) b (sl_pid (lget l s))) s).

Definition initsleeplock : M S unit := modify (lset l (Sleeplock false false 0)).

(** The loop around [sleep] is left only when the lock is free. *)
Definition acquiresleep : M S unit :=
  spin_acquire lk_lens ;;;
  let! k := gets (lget l) in
  if sl_locked k then spin_release lk_lens ;;; (fun s => Sleep s) else
  let! pid := gets myproc_pid in
  modify (lset l (Sleeplock true (sl_lk k) pid)) ;;;
  spin_release lk_lens.

Definition releasesleep : M S unit :=
  spin_acquire lk_lens ;;;
  let! k := gets (lget l) in
  modify (lset l (Sleeplock false (sl_lk k) 0)) ;;;
  wakeup_on chan ;;;
  spin_release lk_lens.

Definition holdingsleep : M S bool :=
  spin_acquire lk_lens ;;;
  let! k := gets (lget l) in
  let! pid := gets myproc_pid in
  let r := sl_locked k && (sl_pid k =? pid) in
  spin_release lk_lens ;;;
  ret r.

(** Acquiring a free sleep lock: the lens reads back what it writes, and
    leaves the current process alone. *)
Lemma acquiresleep_free s :
  (forall k, lget l (lset l k s) = k) -> (forall j k, lset l j (lset l k s) = lset l j s) ->
  (forall k, myproc_pid (lset l k s) = myproc_pid s) ->
  sl_lk (lget l s) = false -> sl_locked (lget l s) = false ->
  acquiresleep s = Ret tt (lset l (Sleeplock true false (myproc_pid s)) s).
Proof.
  intros Hgs Hss Hp Hk Hl.
  unfold acquiresleep, spin_acquire, spin_release, lk_lens, bind, gets, modify. cbn [lget lset].
  rewrite Hk, Hgs. cbn [sl_locked sl_lk sl_pid]. rewrite Hl, Hp, Hss, Hgs. cbn [sl_locked sl_lk sl_pid].
  by rewrite Hss, Hgs.
Qed.

Lemma holdingsleep_free s :
  (forall k, lget l (lset l k s) = k) -> (forall j k, lset l j (lset l k s) = lset l j s) ->
  (forall k, myproc_pid (lset l k s) = myproc_pid s) -> lset l (lget l s) s = s ->
  sl_lk (lget l s) = false ->
  holdingsleep s = Ret (sl_locked (lget l s) && (sl_pid (lget l s) =? myproc_pid s)) s.
Proof.
  intros Hgs Hss Hp Hid Hk.
  unfold holdingsleep, spin_acquire, spin_release, lk_lens, bind, gets, modify, ret.
  cbn [lget lset]. rewrite Hk, Hgs. cbn [sl_locked sl_lk sl_pid]. rewrite Hp, Hss, ?Hgs.
  f_equal. transitivity (lset l (lget l s) s); [|exact Hid]. f_equal.
  destruct (lget l s) as [a b c]. cbn [sl_locked sl_lk sl_pid] in *. by subst.
Qed.

End sleeplock.
