(* ===== verification/Bytes.v ===== *)
(** Little-endian integers in byte arrays: how the kernel reads and writes the
    fields of the structures that it overlays on disk blocks. *)
From S2P Require Import Prelude.

Fixpoint le_bytes (n : nat) (x : Z) : list Z :=
  match n with
  | O => []
  | S n' => x mod 256 :: le_bytes n' (x / 256)
  end.

Fixpoint le_val (l : list Z) : Z :=
  match l with
  | [] => 0
  | b :: l' => b + 256 * le_val l'
  end.

(** The [n]-byte unsigned integer at offset [off]. *)
Definition get_le (n : nat) (l : list Z) (off : nat) : Z := le_val (take n (drop off l)).
Definition put_le (n : nat) (l : list Z) (off : nat) (v : Z) : list Z :=
  splice l off (le_bytes n v).

Definition get16 := get_le 2.
Definition get32 := get_le 4.
Definition put16 := put_le 2.
Definition put32 := put_le 4.

Definition is_byte (b : Z) : Prop := 0 <= b < 256.
Definition is_bytes (l : list Z) : Prop := Forall is_byte l.

Lemma length_le_bytes n x : length (le_bytes n x) = n.
Proof. revert x. induction n as [|n IH]; intros x; simpl; auto. Qed.

Lemma le_bytes_is_bytes n x : is_bytes (le_bytes n x).
Proof.
  revert x. induction n as [|n IH]; intros x; simpl; constructor; [|apply IH].
  unfold is_byte. apply Z.mod_pos_bound. lia.
Qed.

Lemma le_val_le_bytes n x : le_val (le_bytes n x) = x mod 256 ^ Z.of_nat n.
Proof.
  revert x. induction n as [|n IH]; intros x.
  - simpl. by rewrite Z.mod_1_r.
  - cbn [le_bytes le_val]. rewrite IH, Nat2Z.inj_succ, Z.pow_succ_r by lia.
    rewrite Z.rem_mul_r; lia.
Qed.

Lemma le_val_range l : is_bytes l -> 0 <= le_val l < 256 ^ Z.of_nat (length l).
Proof.
  induction l as [|b l IH]; intros Hl; cbn [le_val length]; [lia|].
  inversion Hl as [|? ? Hb Hl']; subst. specialize (IH Hl'). unfold is_byte in Hb.
  rewrite Nat2Z.inj_succ, Z.pow_succ_r by lia. lia.
Qed.

Lemma le_bytes_le_val l : is_bytes l -> le_bytes (length l) (le_val l) = l.
Proof.
  induction l as [|b l IH]; intros Hl; [done|]. inversion Hl as [|? ? Hb Hl']; subst.
  unfold is_byte in Hb. cbn [length le_bytes le_val]. f_equal.
  - rewrite Z.mul_comm, Z.mod_add by lia. by apply Z.mod_small.
  - rewrite Z.mul_comm, Z.div_add, Z.div_small by lia. by apply IH.
Qed.

Lemma length_put_le n l off v :
  (off + n <= length l)%nat -> length (put_le n l off v) = length l.
Proof. intros. unfold put_le. apply length_splice. by rewrite length_le_bytes. Qed.

Lemma get_put_le n l off v :
  (off + n <= length l)%nat -> get_le n (put_le n l off v) off = v mod 256 ^ Z.of_nat n.
Proof.
  intros H. unfold get_le, put_le.
  replace n with (length (le_bytes n v)) at 1 by apply length_le_bytes.
  rewrite splice_read by (by rewrite length_le_bytes). apply le_val_le_bytes.
Qed.

(** A write elsewhere leaves a field alone. *)
Lemma take_drop_splice {A} n (l l' : list A) off off' :
  (off' + length l' <= length l)%nat ->
  (off + n <= off')%nat \/ (off' + length l' <= off)%nat ->
  take n (drop off (splice l off' l')) = take n (drop off l).
Proof.
  intros Hlen Hdis. apply list_eq. intros i.
  destruct (decide (i < n)%nat) as [Hi|Hi].
  - rewrite !lookup_take_lt, !lookup_drop by done. destruct Hdis as [H|H].
    + rewrite splice_lookup_lt; [done|lia|lia].
    + rewrite splice_lookup_ge; [done|lia|lia].
  - rewrite !lookup_take_ge by lia. done.
Qed.

Lemma get_put_le_ne n m l off off' v :
  (off' + m <= length l)%nat -> (off + n <= off')%nat \/ (off' + m <= off)%nat ->
  get_le n (put_le m l off' v) off = get_le n l off.
Proof.
  intros Hl Hd. unfold get_le, put_le. f_equal.
  apply take_drop_splice; by rewrite length_le_bytes.
Qed.

Lemma get32_put32 l off v :
  (off + 4 <= length l)%nat -> get32 (put32 l off v) off = u32 v.
Proof. intros H. unfold get32, put32, u32. by rewrite get_put_le. Qed.

Lemma get16_put16 l off v :
  (off + 2 <= length l)%nat -> get16 (put16 l off v) off = u16 v.
Proof. intros H. unfold get16, put16, u16. by rewrite get_put_le. Qed.

Lemma is_bytes_splice l n l' : is_bytes l -> is_bytes l' -> is_bytes (splice l n l').
Proof.
  intros H H'. unfold splice. apply Forall_app. split; [by apply Forall_take|].
  apply Forall_app. split; [done|by apply Forall_drop].
Qed.
