(* ===== verification/Bio.v ===== *)
(** The buffer cache with RAID-1 mirroring, FileSystem-RAID/kernel/bio.c.

    [bstate] is the buffer cache, the disk and the fault-injection flags.
    The buffers are linked through their [prev]/[next] fields as in the
    source; buffer [NBUF] is [bcache.head].  The disk driver is abstracted to
    its effect when the device answers: [virtio_disk_rw] moves one block
    between the buffer and the disk and records the transfer in a trace, which
    is what the crash arguments of [Log] range over. *)
From S2P Require Import Prelude ListH Locks.

Definition BSIZE : Z := 1024.
Definition NBUF : Z := 30.
Definition FSSIZE : Z := 4096.
Definition LOGICAL_DISK_SIZE : Z := FSSIZE / 2.
Definition DISK1_START_BLOCK : Z := FSSIZE / 2.

(** A disk block or the contents of a buffer: [BSIZE] bytes. *)
Definition block := list Z.

Record buf := Buf {
  b_valid : bool;
  b_dev : Z;
  b_blockno : Z;
  b_lock : sleeplock;
  b_refcnt : Z;
  b_prev : Z;
  b_next : Z;
  b_data : block
}.

(** What the kernel does that is visible outside: transfers of blocks, lines
    printed by [bwrite], and [wakeup] on a channel. *)
Inductive event :=
| EvRead (bno : Z)
| EvWrite (bno : Z) (data : block)
| BW_DIAG (pbn0 pbn1 sim_disk_fail sim_pbn0_block_fail : Z)
| SKIP_PBN0_disk (pbn0 : Z)
| SKIP_PBN0_block (pbn0 : Z)
| ATTEMPT_PBN0 (pbn0 : Z)
| SKIP_PBN1_disk (pbn1 : Z)
| ATTEMPT_PBN1 (pbn1 : Z)
| EvWakeup (chan : Z).

Record bstate := BState {
  disk : gmap Z block;       (** the device, by block number *)
  bufs : gmap Z buf;
  bc_lock : bool;            (** [bcache.lock] *)
  force_read_error_pbn : Z;
  force_disk_fail_id : Z;
  cur_pid : Z;               (** [myproc()->pid] *)
  trace : list event         (** latest first *)
}.

Abbreviation BM := (M bstate) (only parsing).

Definition set_valid (v : bool) (b : buf) : buf :=
  Buf v (b_dev b) (b_blockno b) (b_lock b) (b_refcnt b) (b_prev b) (b_next b) (b_data b).
Definition set_dev (v : Z) (b : buf) : buf :=
  Buf (b_valid b) v (b_blockno b) (b_lock b) (b_refcnt b) (b_prev b) (b_next b) (b_data b).
Definition set_blockno (v : Z) (b : buf) : buf :=
  Buf (b_valid b) (b_dev b) v (b_lock b) (b_refcnt b) (b_prev b) (b_next b) (b_data b).
Definition set_block_lock (v : sleeplock) (b : buf) : buf :=
  Buf (b_valid b) (b_dev b) (b_blockno b) v (b_refcnt b) (b_prev b) (b_next b) (b_data b).
Definition set_refcnt (v : Z) (b : buf) : buf :=
  Buf (b_valid b) (b_dev b) (b_blockno b) (b_lock b) v (b_prev b) (b_next b) (b_data b).
Definition set_prev (v : Z) (b : buf) : buf :=
  Buf (b_valid b) (b_dev b) (b_blockno b) (b_lock b) (b_refcnt b) v (b_next b) (b_data b).
Definition set_next (v : Z) (b : buf) : buf :=
  Buf (b_valid b) (b_dev b) (b_blockno b) (b_lock b) (b_refcnt b) (b_prev b) v (b_data b).
Definition set_data (v : block) (b : buf) : buf :=
  Buf (b_valid b) (b_dev b) (b_blockno b) (b_lock b) (b_refcnt b) (b_prev b) (b_next b) v.

Definition set_disk (d : gmap Z block) (s : bstate) : bstate :=
  BState d (bufs s) (bc_lock s) (force_read_error_pbn s) (force_disk_fail_id s) (cur_pid s) (trace s).
Definition set_bufs (m : gmap Z buf) (s : bstate) : bstate :=
  BState (disk s) m (bc_lock s) (force_read_error_pbn s) (force_disk_fail_id s) (cur_pid s) (trace s).
Definition set_bc_lock (b : bool) (s : bstate) : bstate :=
  BState (disk s) (bufs s) b (force_read_error_pbn s) (force_disk_fail_id s) (cur_pid s) (trace s).
Definition set_read_error (v : Z) (s : bstate) : bstate :=
  BState (disk s) (bufs s) (bc_lock s) v (force_disk_fail_id s) (cur_pid s) (trace s).
Definition set_disk_fail (v : Z) (s : bstate) : bstate :=
  BState (disk s) (bufs s) (bc_lock s) (force_read_error_pbn s) v (cur_pid s) (trace s).
Definition set_cur_pid (v : Z) (s : bstate) : bstate :=
  BState (disk s) (bufs s) (bc_lock s) (force_read_error_pbn s) (force_disk_fail_id s) v (trace s).
Definition emit (e : event) (s : bstate) : bstate :=
  BState (disk s) (bufs s) (bc_lock s) (force_read_error_pbn s) (force_disk_fail_id s) (cur_pid s)
    (e :: trace s).

(** ** Access to the buffers *)

Definition head : Z := NBUF.

Definition getb (i : Z) : BM buf :=
  let! m := gets bufs in of_option "fault" (m !! i).
Definition updb (i : Z) (f : buf -> buf) : BM unit :=
  let! b := getb i in modify (fun s => set_bufs (<[i := f b]> (bufs s)) s).

Definition bcache_lock : lens bstate bool := Lens bc_lock set_bc_lock.
Definition no_lock : sleeplock := Sleeplock false false 0.
Definition buf_lock (i : Z) : lens bstate sleeplock :=
  Lens (fun s => from_option b_lock no_lock (bufs s !! i))
    (fun l s => set_bufs (alter (set_block_lock l) i (bufs s)) s).
#[global] Arguments buf_lock _ : simpl never.

#[export] Instance bio_sleep_env : SleepEnv bstate :=
  {| myproc_pid := cur_pid; wakeup_on := fun c => modify (emit (EvWakeup c)) |}.

(** ** Operations *)

(** The block that the request of [virtio_disk_rw] addresses: the sector
    number is computed in 32 bits. *)
Definition dev_block (blockno : Z) : Z := u32 (blockno * (BSIZE / 512)) / 2.

Definition virtio_disk_rw (i : Z) (write : bool) : BM unit :=
  let! b := getb i in
  let bno := dev_block (b_blockno b) in
  let! d := gets disk in
  match d !! bno with
  | None => panic "virtio_disk_intr status"
  | Some data =>
      if write then
        modify (fun s => set_disk (<[bno := b_data b]> (disk s)) s) ;;;
        modify (emit (EvWrite bno (b_data b)))
      else
        updb i (set_data data) ;;;
        modify (emit (EvRead bno))
  end.

Definition binit : BM unit :=
  modify (set_bc_lock false) ;;;
  updb head (set_prev head) ;;;
  updb head (set_next head) ;;;
  for_all (seqZ 0 NBUF) (fun b =>
    let! h := getb head in
    updb b (set_next (b_next h)) ;;;
    updb b (set_prev head) ;;;
    initsleeplock (buf_lock b) ;;;
    updb (b_next h) (set_prev b) ;;;
    updb head (set_next b)).

Definition bget (dev blockno : Z) : BM Z :=
  spin_acquire bcache_lock ;;;
  let! h := getb head in
  let! hit := loop (b_next h) (fun b =>
    if b =? head then ret (inr None) else
    let! x := getb b in
    if (b_dev x =? dev) && (b_blockno x =? blockno) then ret (inr (Some b))
    else ret (inl (b_next x))) in
  match hit with
  | Some b =>
      updb b (fun x => set_refcnt (u32 (b_refcnt x + 1)) x) ;;;
      spin_release bcache_lock ;;;
      acquiresleep (buf_lock b) ;;;
      ret b
  | None =>
      let! h := getb head in
      let! free := loop (b_prev h) (fun b =>
        if b =? head then ret (inr None) else
        let! x := getb b in
        if b_refcnt x =? 0 then ret (inr (Some b)) else ret (inl (b_prev x))) in
      match free with
      | Some b =>
          updb b (set_dev dev) ;;;
          updb b (set_blockno blockno) ;;;
          updb b (set_valid false) ;;;
          updb b (set_refcnt 1) ;;;
          spin_release bcache_lock ;;;
          acquiresleep (buf_lock b) ;;;
          ret b
      | None => panic "bget: no buffers"
      end
  end.

(** Block [pbn0] is simulated as unreadable and unwritable on disk 0. *)
Definition block_failed (err pbn0 : Z) : bool := negb (err =? -1) && (u32 err =? pbn0).

Definition use_mirror (fail err blockno : Z) : bool :=
  (blockno <? LOGICAL_DISK_SIZE) && ((fail =? 0) || block_failed err blockno).

Definition bread (dev blockno : Z) : BM Z :=
  let! b := bget dev blockno in
  let! x := getb b in
  when (negb (b_valid x))
    (let! fail := gets force_disk_fail_id in
     let! err := gets force_read_error_pbn in
     let should_use_mirror := use_mirror fail err blockno in
     let original_blockno := b_blockno x in
     (if should_use_mirror
      then updb b (set_blockno (u32 (blockno + DISK1_START_BLOCK)))
      else updb b (set_blockno blockno)) ;;;
     virtio_disk_rw b false ;;;
     updb b (set_blockno original_blockno) ;;;
     updb b (set_valid true)) ;;;
  ret b.

Definition bwrite (b : Z) : BM unit :=
  let! h := holdingsleep (buf_lock b) in
  if negb h then panic "bwrite" else
  let! x := getb b in
  if LOGICAL_DISK_SIZE <=? b_blockno x then virtio_disk_rw b true else
  let pbn0 := b_blockno x in
  let pbn1 := u32 (pbn0 + DISK1_START_BLOCK) in
  let! fail_disk := gets force_disk_fail_id in
  let! err := gets force_read_error_pbn in
  let pbn0_fail := block_failed err pbn0 in
  modify (emit (BW_DIAG pbn0 pbn1 fail_disk (if pbn0_fail then 1 else 0))) ;;;
  let original_blockno := b_blockno x in
  (if fail_disk =? 0 then modify (emit (SKIP_PBN0_disk pbn0))
   else if pbn0_fail then modify (emit (SKIP_PBN0_block pbn0))
   else
     modify (emit (ATTEMPT_PBN0 pbn0)) ;;;
     updb b (set_blockno pbn0) ;;;
     virtio_disk_rw b true) ;;;
  (if fail_disk =? 1 then modify (emit (SKIP_PBN1_disk pbn1))
   else
     modify (emit (ATTEMPT_PBN1 pbn1)) ;;;
     updb b (set_blockno pbn1) ;;;
     virtio_disk_rw b true) ;;;
  updb b (set_blockno original_blockno).

(** Unlink [b] and insert it behind the head. *)
Definition bmove_to_head (b : Z) : BM unit :=
  let! x := getb b in
  updb (b_next x) (set_prev (b_prev x)) ;;;
  (let! x := getb b in updb (b_prev x) (set_next (b_next x))) ;;;
  (let! h := getb head in updb b (set_next (b_next h))) ;;;
  updb b (set_prev head) ;;;
  (let! h := getb head in updb (b_next h) (set_prev b)) ;;;
  updb head (set_next b).

Definition brelse (b : Z) : BM unit :=
  let! h := holdingsleep (buf_lock b) in
  if negb h then panic "brelse" else
  releasesleep (buf_lock b) b ;;;
  spin_acquire bcache_lock ;;;
  updb b (fun x => set_refcnt (u32 (b_refcnt x - 1)) x) ;;;
  let! x := getb b in
  when (b_refcnt x =? 0) (bmove_to_head b) ;;;
  spin_release bcache_lock.

Definition bpin (b : Z) : BM unit :=
  spin_acquire bcache_lock ;;;
  updb b (fun x => set_refcnt (u32 (b_refcnt x + 1)) x) ;;;
  spin_release bcache_lock.

Definition bunpin (b : Z) : BM unit :=
  spin_acquire bcache_lock ;;;
  updb b (fun x => set_refcnt (u32 (b_refcnt x - 1)) x) ;;;
  spin_release bcache_lock.

(** ** Running the operations *)

Definition put (i : Z) (x : buf) (s : bstate) : bstate := set_bufs (<[i := x]> (bufs s)) s.

Definition held (pid : Z) : sleeplock := Sleeplock true false pid.

Lemma put_put i x y s : put i x (put i y s) = put i x s.
Proof. unfold put, set_bufs. simpl. by rewrite insert_insert_eq. Qed.

Lemma put_same i x s : bufs s !! i = Some x -> put i x s = s.
Proof. intros H. unfold put, set_bufs. rewrite insert_id by done. by destruct s. Qed.

Lemma lookup_put i j x s : bufs (put i x s) !! j = if decide (j = i) then Some x else bufs s !! j.
Proof.
  simpl. case_decide as H; [subst; by rewrite lookup_insert_eq|by rewrite lookup_insert_ne].
Qed.

Lemma lookup_put_eq i x s : bufs (put i x s) !! i = Some x.
Proof. by rewrite lookup_put, decide_True. Qed.

Lemma getb_eq i x s : bufs s !! i = Some x -> getb i s = Ret x s.
Proof. intros H. unfold getb, bind, gets. by rewrite H. Qed.

Lemma updb_eq i f x s : bufs s !! i = Some x -> updb i f s = Ret tt (put i (f x) s).
Proof. intros H. unfold updb. by rewrite (bind_eq _ _ _ _ _ (getb_eq _ _ _ H)). Qed.

Lemma lget_buf i x s : bufs s !! i = Some x -> lget (buf_lock i) s = b_lock x.
Proof. intros H. unfold buf_lock. simpl. by rewrite H. Qed.

Lemma lset_buf i x k s :
  bufs s !! i = Some x -> lset (buf_lock i) k s = put i (set_block_lock k x) s.
Proof.
  intros H. unfold buf_lock, put, set_bufs. simpl. f_equal. apply map_eq. intros j.
  destruct (decide (i = j)) as [->|Hne].
  - by rewrite lookup_alter_eq, H, lookup_insert_eq.
  - by rewrite lookup_alter_ne, lookup_insert_ne.
Qed.

Lemma set_block_lock_twice k1 k2 x :
  set_block_lock k1 (set_block_lock k2 x) = set_block_lock k1 x.
Proof. done. Qed.

Lemma bcache_acquire s :
  bc_lock s = false -> spin_acquire bcache_lock s = Ret tt (set_bc_lock true s).
Proof. intros H. unfold spin_acquire, bind, gets. simpl. by rewrite H. Qed.

Lemma bcache_release s :
  bc_lock s = true -> spin_release bcache_lock s = Ret tt (set_bc_lock false s).
Proof. intros H. unfold spin_release, bind, gets. simpl. by rewrite H. Qed.

(** A spin lock of a buffer's sleep lock. *)
Lemma buf_spin_acquire i x s :
  bufs s !! i = Some x -> sl_lk (b_lock x) = false ->
  spin_acquire (lk_lens (buf_lock i)) s =
    Ret tt (put i (set_block_lock (Sleeplock (sl_locked (b_lock x)) true (sl_pid (b_lock x))) x) s).
Proof.
  intros H Hl. unfold spin_acquire, bind, gets, modify, lk_lens. cbn [lget lset].
  rewrite (lget_buf i x) by done. rewrite Hl. cbv beta iota.
  by rewrite (lget_buf i x), (lset_buf i x).
Qed.

Lemma buf_spin_release i x s :
  bufs s !! i = Some x -> sl_lk (b_lock x) = true ->
  spin_release (lk_lens (buf_lock i)) s =
    Ret tt (put i (set_block_lock (Sleeplock (sl_locked (b_lock x)) false (sl_pid (b_lock x))) x) s).
Proof.
  intros H Hl. unfold spin_release, bind, gets, modify, lk_lens. cbn [lget lset].
  rewrite (lget_buf i x) by done. rewrite Hl. cbv beta iota.
  by rewrite (lget_buf i x), (lset_buf i x).
Qed.

Ltac sl_simpl := cbn [b_lock set_block_lock sl_locked sl_lk sl_pid held no_lock].

(** The sleep lock of buffer [i], on each branch. *)
Lemma acquiresleep_eq i x s :
  bufs s !! i = Some x -> sl_lk (b_lock x) = false -> sl_locked (b_lock x) = false ->
  acquiresleep (buf_lock i) s = Ret tt (put i (set_block_lock (held (cur_pid s)) x) s).
Proof.
  intros H Hk Hl. unfold acquiresleep.
  rewrite (bind_eq _ _ _ _ _ (buf_spin_acquire i x s H Hk)).
  unfold bind at 1, gets at 1. rewrite (lget_buf i _ _ (lookup_put_eq _ _ _)). sl_simpl. rewrite Hl.
  unfold bind at 1, gets at 1. unfold bind at 1, modify at 1.
  rewrite (lset_buf i _ _ _ (lookup_put_eq _ _ _)), put_put.
  rewrite (buf_spin_release i _ _ (lookup_put_eq _ _ _)) by done. by rewrite put_put.
Qed.

Lemma acquiresleep_blocks i x s :
  bufs s !! i = Some x -> sl_lk (b_lock x) = false -> sl_locked (b_lock x) = true ->
  acquiresleep (buf_lock i) s = Sleep s.
Proof.
  intros H Hk Hl. unfold acquiresleep.
  rewrite (bind_eq _ _ _ _ _ (buf_spin_acquire i x s H Hk)).
  unfold bind at 1, gets at 1. rewrite (lget_buf i _ _ (lookup_put_eq _ _ _)). sl_simpl. rewrite Hl.
  erewrite bind_eq; [|apply buf_spin_release; [apply lookup_put_eq|done]]. rewrite put_put.
  f_equal. cbn. apply put_same. rewrite H. destruct x as [v d b [l k p] r pr n da]. simpl in *.
  by subst.
Qed.

Lemma holdingsleep_eq i x s :
  bufs s !! i = Some x -> sl_lk (b_lock x) = false ->
  holdingsleep (buf_lock i) s =
    Ret (sl_locked (b_lock x) && (sl_pid (b_lock x) =? cur_pid s)) s.
Proof.
  intros H Hk. unfold holdingsleep.
  rewrite (bind_eq _ _ _ _ _ (buf_spin_acquire i x s H Hk)).
  unfold bind at 1, gets at 1. rewrite (lget_buf i _ _ (lookup_put_eq _ _ _)). sl_simpl.
  unfold bind at 1, gets at 1.
  erewrite bind_eq; [|apply buf_spin_release; [apply lookup_put_eq|done]]. rewrite put_put.
  unfold ret. f_equal. cbn. apply put_same. rewrite H.
  destruct x as [v d b [l k p] r pr n da]. simpl in *. by subst.
Qed.

Lemma releasesleep_eq i x s :
  bufs s !! i = Some x -> sl_lk (b_lock x) = false ->
  releasesleep (buf_lock i) i s = Ret tt (emit (EvWakeup i) (put i (set_block_lock no_lock x) s)).
Proof.
  intros H Hk. unfold releasesleep.
  rewrite (bind_eq _ _ _ _ _ (buf_spin_acquire i x s H Hk)).
  unfold bind at 1, gets at 1. rewrite (lget_buf i _ _ (lookup_put_eq _ _ _)). sl_simpl.
  unfold bind at 1, modify at 1. rewrite (lset_buf i _ _ _ (lookup_put_eq _ _ _)), put_put.
  cbn [wakeup_on bio_sleep_env]. unfold bind at 1, modify at 1.
  set (s1 := put i (set_block_lock (Sleeplock false true 0) x) s).
  change (set_block_lock _ (set_block_lock _ x)) with (set_block_lock (Sleeplock false true 0) x).
  fold s1. assert (H1 : bufs (emit (EvWakeup i) s1) !! i =
    Some (set_block_lock (Sleeplock false true 0) x)) by apply lookup_put_eq.
  rewrite (buf_spin_release i _ _ H1) by done. f_equal. unfold s1, put, emit, set_bufs. simpl.
  by rewrite insert_insert_eq.
Qed.

(** ** The invariant of the cache *)

Definition nxt (s : bstate) (i : Z) : option Z := b_next <$> bufs s !! i.
Definition prv (s : bstate) (i : Z) : option Z := b_prev <$> bufs s !! i.

(** [l] is the list of buffers, most recently used first.  A block of a real
    device ([dev] is 0 only in a buffer that was never used) is in at most
    one buffer. *)
Record bc_ok (s : bstate) (l : list Z) : Prop := {
  ok_dom : forall i, is_Some (bufs s !! i) <-> 0 <= i <= head;
  ok_ring : ring (nxt s) (prv s) head l;
  ok_perm : l ≡ₚ seqZ 0 NBUF;
  ok_unlocked : bc_lock s = false;
  ok_sl_lk : forall i x, bufs s !! i = Some x -> sl_lk (b_lock x) = false;
  ok_uniq : forall i j x y, i <> head -> j <> head ->
    bufs s !! i = Some x -> bufs s !! j = Some y ->
    b_dev x <> 0 -> b_dev x = b_dev y -> b_blockno x = b_blockno y -> i = j
}.

Lemma bc_elem s l i : bc_ok s l -> i ∈ l <-> 0 <= i < head.
Proof. intros H. rewrite (ok_perm _ _ H), elem_of_seqZ. done. Qed.

Lemma bc_lookup s l i : bc_ok s l -> i ∈ l -> exists x, bufs s !! i = Some x.
Proof. intros H Hi. apply (bc_elem s l i H) in Hi. apply (ok_dom _ _ H). lia. Qed.

Lemma bc_head s l : bc_ok s l -> exists h, bufs s !! head = Some h.
Proof. intros H. apply (ok_dom _ _ H). done. Qed.

(** Changing a buffer but for its links. *)
Lemma bc_ok_put s l i x y :
  bc_ok s l -> bufs s !! i = Some x -> b_next y = b_next x -> b_prev y = b_prev x ->
  sl_lk (b_lock y) = false ->
  (i <> head -> b_dev y <> 0 -> forall j z, j <> head -> j <> i -> bufs s !! j = Some z ->
     b_dev z = b_dev y -> b_blockno z = b_blockno y -> False) ->
  bc_ok (put i y s) l.
Proof.
  intros [Hd Hr Hp Hl Hs Hu] Hi Hn Hpv Hk Huy. constructor; try done.
  - intros j. rewrite lookup_put. case_decide as Hj; [subst|apply Hd].
    rewrite <- Hd. split; intros _; by eexists.
  - destruct Hr as [Hnd Hc]. split; [done|].
    eapply chain_frame; [exact Hc|..]; intros j _; unfold nxt, prv; rewrite lookup_put;
      (case_decide; [subst; by rewrite Hi; simpl; f_equal|done]).
  - intros j z. rewrite lookup_put. case_decide; [by intros [= <-]|apply Hs].
  - intros j1 j2 z1 z2 H1 H2. rewrite !lookup_put.
    destruct (decide (j1 = i)) as [->|Hn1], (decide (j2 = i)) as [->|Hn2]; [done|..].
    + intros [= <-] Hz2 Hdv He1 He2. exfalso. by apply (Huy H1 Hdv j2 z2).
    + intros Hz1 [= <-] Hdv He1 He2. exfalso. apply (Huy H2) with (j := j1) (z := z1);
        [congruence|done..].
    + by apply Hu.
Qed.

(** *** The two scans of [bget] *)

Definition matches (s : bstate) (dev blockno i : Z) : bool :=
  match bufs s !! i with
  | Some x => (b_dev x =? dev) && (b_blockno x =? blockno)
  | None => false
  end.
Definition unused (s : bstate) (i : Z) : bool :=
  match bufs s !! i with Some x => b_refcnt x =? 0 | None => false end.

Lemma ring_next s l l1 a l2 :
  bc_ok s l -> head :: l = l1 ++ a :: l2 -> nxt s a = Some (hd head l2).
Proof.
  intros H Heq. destruct (ok_ring _ _ H) as [_ Hc].
  change (head :: l ++ [head]) with ((head :: l) ++ [head]) in Hc. rewrite Heq in Hc.
  rewrite <- app_assoc in Hc. simpl in Hc. destruct l2; simpl in *; by eapply chain_nx.
Qed.

Lemma ring_prev s l l1 a l2 :
  bc_ok s l -> l ++ [head] = l1 ++ a :: l2 -> prv s a = Some (List.last l1 head).
Proof.
  intros H Heq. destruct (ok_ring _ _ H) as [_ Hc]. rewrite Heq in Hc.
  destruct l1 as [|b l1 _] using rev_ind; simpl.
  - exact (chain_pv _ _ [] head a l2 Hc).
  - rewrite List.last_last. rewrite <- app_assoc in Hc. exact (chain_pv _ _ (head :: l1) b a l2 Hc).
Qed.

Lemma scan_hit s l dev blockno :
  bc_ok s l ->
  exists h, bufs s !! head = Some h /\
  forall lk, loop (b_next h) (fun b =>
    if b =? head then ret (inr None) else
    let! x := getb b in
    if (b_dev x =? dev) && (b_blockno x =? blockno) then ret (inr (Some b))
    else ret (inl (b_next x))) (set_bc_lock lk s)
  = Ret (List.find (matches s dev blockno) l) (set_bc_lock lk s).
Proof.
  intros H. destruct (bc_head s l H) as [h Hh]. exists h. split; [done|]. intros lk.
  assert (Hnh : head ∉ l) by (rewrite (bc_elem s l) by done; unfold head, NBUF; lia).
  set (s1 := set_bc_lock lk s).
  pose proof (ring_next s l [] head l H eq_refl) as Hfst. unfold nxt in Hfst.
  rewrite Hh in Hfst. injection Hfst as Hfst. rewrite Hfst.
  match goal with |- loop _ ?body s1 = _ => set (body0 := body) end.
  edestruct (wp_inv (loop (hd head l) body0) s1
    (fun r s' => s' = s1 /\ r = List.find (matches s dev blockno) l)) as (r & s' & Heq & -> & ->);
    [|done].
  apply (wp_loop_idx (fun k b s' => s' = s1 /\ exists l1 l2, l = l1 ++ l2 /\ b = hd head l2 /\
     k = Z.of_nat (length l2) /\
     List.find (matches s dev blockno) l = List.find (matches s dev blockno) l2)
     body0 _ (Z.of_nat (length l))).
  - split; [done|]. by exists [], l.
  - rewrite (ok_perm _ _ H). done.
  - intros k b s' (_ & l1 & l2 & _ & _ & -> & _). lia.
  - intros k b s' (-> & l1 & l2 & Hl & -> & -> & Hfind). rewrite Hfind.
    destruct l2 as [|a l2]; simpl; [by apply wp_ret|].
    assert (Ha : a ∈ l) by (rewrite Hl; set_solver).
    unfold body0. rewrite (proj2 (Z.eqb_neq a head)) by (by intros ->).
    destruct (bc_lookup s l a H Ha) as [x Hx].
    assert (Hma : matches s dev blockno a = (b_dev x =? dev) && (b_blockno x =? blockno))
      by (unfold matches; by rewrite Hx).
    apply wp_bind. eapply wp_eq; [by apply getb_eq|]. cbv beta. rewrite Hma.
    destruct ((b_dev x =? dev) && (b_blockno x =? blockno)) eqn:Hm; apply wp_ret; [done|].
    exists (Z.of_nat (length l2)). split; [|lia]. split; [done|].
    exists (l1 ++ [a]), l2. rewrite <- app_assoc. split; [done|]. split; [|split; [done|]].
    + assert (Hn : head :: l = (head :: l1) ++ a :: l2) by (by rewrite Hl).
      pose proof (ring_next s l _ a l2 H Hn) as Hnx. unfold nxt in Hnx. rewrite Hx in Hnx.
      by injection Hnx.
    + done.
Qed.

Lemma scan_free s l :
  bc_ok s l ->
  exists h, bufs s !! head = Some h /\
  forall lk, loop (b_prev h) (fun b =>
    if b =? head then ret (inr None) else
    let! x := getb b in
    if b_refcnt x =? 0 then ret (inr (Some b)) else ret (inl (b_prev x))) (set_bc_lock lk s)
  = Ret (List.find (unused s) (reverse l)) (set_bc_lock lk s).
Proof.
  intros H. destruct (bc_head s l H) as [h Hh]. exists h. split; [done|]. intros lk.
  assert (Hnh : head ∉ l) by (rewrite (bc_elem s l) by done; unfold head, NBUF; lia).
  set (s1 := set_bc_lock lk s).
  pose proof (ring_prev s l l head [] H eq_refl) as Hfst. unfold prv in Hfst.
  rewrite Hh in Hfst. injection Hfst as Hfst. rewrite Hfst.
  match goal with |- loop _ ?body s1 = _ => set (body0 := body) end.
  edestruct (wp_inv (loop (List.last l head) body0) s1
    (fun r s' => s' = s1 /\ r = List.find (unused s) (reverse l))) as (r & s' & Heq & -> & ->);
    [|done].
  apply (wp_loop_idx (fun k b s' => s' = s1 /\ exists l1 l2, l = l1 ++ l2 /\
     b = List.last l1 head /\ k = Z.of_nat (length l1) /\
     List.find (unused s) (reverse l) = List.find (unused s) (reverse l1))
     body0 _ (Z.of_nat (length l))).
  - split; [done|]. exists l, []. by rewrite app_nil_r.
  - rewrite (ok_perm _ _ H). done.
  - intros k b s' (_ & l1 & l2 & _ & _ & -> & _). lia.
  - intros k b s' (-> & l1 & l2 & Hl & -> & -> & Hfind). rewrite Hfind.
    destruct l1 as [|a l1 _] using rev_ind; simpl; [by apply wp_ret|].
    rewrite List.last_last, reverse_snoc.
    assert (Ha : a ∈ l) by (rewrite Hl; set_solver).
    unfold body0. rewrite (proj2 (Z.eqb_neq a head)) by (by intros ->).
    destruct (bc_lookup s l a H Ha) as [x Hx].
    assert (Hma : unused s a = (b_refcnt x =? 0)) by (unfold unused; by rewrite Hx).
    apply wp_bind. eapply wp_eq; [by apply getb_eq|]. cbv beta. simpl. rewrite Hma.
    destruct (b_refcnt x =? 0) eqn:Hm; apply wp_ret; [done|].
    exists (Z.of_nat (length l1)). split; [|rewrite length_app; simpl; lia]. split; [done|].
    exists l1, (a :: l2). split; [by rewrite Hl, <- app_assoc|]. split; [|split; [done|]].
    + assert (Hn : l ++ [head] = l1 ++ a :: (l2 ++ [head])) by (rewrite Hl, <- !app_assoc; done).
      pose proof (ring_prev s l _ a _ H Hn) as Hnx. unfold prv in Hnx. rewrite Hx in Hnx.
      by injection Hnx.
    + done.
Qed.

(** ** What each operation does to the cache *)

Lemma unlock_put i y s :
  bc_lock s = false -> set_bc_lock false (put i y (set_bc_lock true s)) = put i y s.
Proof. destruct s. simpl. by intros ->. Qed.

Lemma bget_hit s l dev blockno b x :
  bc_ok s l -> List.find (matches s dev blockno) l = Some b -> bufs s !! b = Some x ->
  sl_locked (b_lock x) = false ->
  bget dev blockno s =
    Ret b (put b (set_block_lock (held (cur_pid s)) (set_refcnt (u32 (b_refcnt x + 1)) x)) s).
Proof.
  intros H Hf Hb Hl. destruct (scan_hit s l dev blockno H) as (h & Hh & Hscan).
  pose proof (ok_unlocked _ _ H) as Hlk. unfold bget.
  rewrite (bind_eq _ _ _ _ _ (bcache_acquire s Hlk)).
  rewrite (bind_eq _ _ _ _ _ (getb_eq head h (set_bc_lock true s) Hh)).
  rewrite (bind_eq _ _ _ _ _ (Hscan true)), Hf.
  rewrite (bind_eq _ _ _ _ _ (updb_eq b _ x (set_bc_lock true s) Hb)).
  erewrite bind_eq; [|by apply bcache_release]. rewrite unlock_put by done.
  erewrite bind_eq; [|apply acquiresleep_eq; [apply lookup_put_eq| |done]].
  2:{ cbn. by apply (ok_sl_lk _ _ H b). }
  by rewrite put_put.
Qed.

Lemma bget_locked s l dev blockno b x :
  bc_ok s l -> List.find (matches s dev blockno) l = Some b -> bufs s !! b = Some x ->
  sl_locked (b_lock x) = true ->
  bget dev blockno s = Sleep (put b (set_refcnt (u32 (b_refcnt x + 1)) x) s).
Proof.
  intros H Hf Hb Hl. destruct (scan_hit s l dev blockno H) as (h & Hh & Hscan).
  pose proof (ok_unlocked _ _ H) as Hlk. unfold bget.
  rewrite (bind_eq _ _ _ _ _ (bcache_acquire s Hlk)).
  rewrite (bind_eq _ _ _ _ _ (getb_eq head h (set_bc_lock true s) Hh)).
  rewrite (bind_eq _ _ _ _ _ (Hscan true)), Hf.
  rewrite (bind_eq _ _ _ _ _ (updb_eq b _ x (set_bc_lock true s) Hb)).
  erewrite bind_eq; [|by apply bcache_release]. rewrite unlock_put by done.
  unfold bind at 1. erewrite acquiresleep_blocks; [done|apply lookup_put_eq| |done].
  cbn. by apply (ok_sl_lk _ _ H b).
Qed.

(** The recycled buffer. *)
Definition recycled (pid dev blockno : Z) (x : buf) : buf :=
  Buf false dev blockno (held pid) 1 (b_prev x) (b_next x) (b_data x).

Lemma bget_miss s l dev blockno b x :
  bc_ok s l -> List.find (matches s dev blockno) l = None ->
  List.find (unused s) (reverse l) = Some b -> bufs s !! b = Some x ->
  sl_locked (b_lock x) = false ->
  bget dev blockno s = Ret b (put b (recycled (cur_pid s) dev blockno x) s).
Proof.
  intros H Hf Hr Hb Hl. destruct (scan_hit s l dev blockno H) as (h & Hh & Hscan).
  destruct (scan_free s l H) as (h' & Hh' & Hscan'). simplify_eq.
  pose proof (ok_unlocked _ _ H) as Hlk. unfold bget.
  rewrite (bind_eq _ _ _ _ _ (bcache_acquire s Hlk)).
  rewrite (bind_eq _ _ _ _ _ (getb_eq head h (set_bc_lock true s) Hh)).
  rewrite (bind_eq _ _ _ _ _ (Hscan true)), Hf.
  rewrite (bind_eq _ _ _ _ _ (getb_eq head h (set_bc_lock true s) Hh)).
  rewrite (bind_eq _ _ _ _ _ (Hscan' true)), Hr.
  rewrite (bind_eq _ _ _ _ _ (updb_eq b _ x (set_bc_lock true s) Hb)).
  do 3 (erewrite bind_eq; [|apply updb_eq, lookup_put_eq]; rewrite put_put).
  erewrite bind_eq; [|by apply bcache_release]. rewrite unlock_put by done.
  erewrite bind_eq; [|apply acquiresleep_eq; [apply lookup_put_eq| |done]].
  2:{ cbn. by apply (ok_sl_lk _ _ H b). }
  by rewrite put_put.
Qed.

Lemma bget_full s l dev blockno :
  bc_ok s l -> List.find (matches s dev blockno) l = None ->
  List.find (unused s) (reverse l) = None ->
  bget dev blockno s = Panic "bget: no buffers".
Proof.
  intros H Hf Hr. destruct (scan_hit s l dev blockno H) as (h & Hh & Hscan).
  destruct (scan_free s l H) as (h' & Hh' & Hscan'). simplify_eq.
  pose proof (ok_unlocked _ _ H) as Hlk. unfold bget.
  rewrite (bind_eq _ _ _ _ _ (bcache_acquire s Hlk)).
  rewrite (bind_eq _ _ _ _ _ (getb_eq head h (set_bc_lock true s) Hh)).
  rewrite (bind_eq _ _ _ _ _ (Hscan true)), Hf.
  rewrite (bind_eq _ _ _ _ _ (getb_eq head h (set_bc_lock true s) Hh)).
  by rewrite (bind_eq _ _ _ _ _ (Hscan' true)), Hr.
Qed.

(** *** Reading *)

(** The physical block that a read of [bno] goes to, and its contents. *)
Definition read_block (fail err bno : Z) : Z :=
  if use_mirror fail err bno then bno + DISK1_START_BLOCK else bno.
Definition disk_read (s : bstate) (bno : Z) : option block :=
  disk s !! read_block (force_disk_fail_id s) (force_read_error_pbn s) bno.

Lemma dev_block_eq bno : 0 <= bno < 2 ^ 31 -> dev_block bno = bno.
Proof.
  intros H. unfold dev_block. rewrite u32_small by (change (BSIZE / 512) with 2; lia).
  change (BSIZE / 512) with 2. apply Z.div_mul. lia.
Qed.

Lemma read_block_range fail err bno :
  0 <= bno < 2 ^ 30 -> bno <= read_block fail err bno < 2 ^ 31.
Proof.
  intros H. unfold read_block. destruct (use_mirror fail err bno); [|lia].
  unfold DISK1_START_BLOCK, FSSIZE. change (4096 / 2) with 2048. lia.
Qed.

Lemma virtio_read s i x d :
  bufs s !! i = Some x -> 0 <= b_blockno x < 2 ^ 31 -> disk s !! b_blockno x = Some d ->
  virtio_disk_rw i false s = Ret tt (emit (EvRead (b_blockno x)) (put i (set_data d x) s)).
Proof.
  intros Hx Hr Hd. unfold virtio_disk_rw. rewrite (bind_eq _ _ _ _ _ (getb_eq i x s Hx)).
  rewrite dev_block_eq by done. unfold bind at 1, gets. rewrite Hd.
  by rewrite (bind_eq _ _ _ _ _ (updb_eq i _ x s Hx)).
Qed.

Lemma virtio_write s i x d :
  bufs s !! i = Some x -> 0 <= b_blockno x < 2 ^ 31 -> disk s !! b_blockno x = Some d ->
  virtio_disk_rw i true s =
    Ret tt (emit (EvWrite (b_blockno x) (b_data x))
      (set_disk (<[b_blockno x := b_data x]> (disk s)) s)).
Proof.
  intros Hx Hr Hd. unfold virtio_disk_rw. rewrite (bind_eq _ _ _ _ _ (getb_eq i x s Hx)).
  rewrite dev_block_eq by done. unfold bind at 1, gets. by rewrite Hd.
Qed.

(** [bread] after [bget] returned a buffer that holds no data. *)
Lemma bread_fill s s1 dev bno b x d :
  bget dev bno s = Ret b s1 -> bufs s1 !! b = Some x -> b_valid x = false ->
  b_blockno x = bno -> 0 <= bno < 2 ^ 30 -> disk_read s1 bno = Some d ->
  bread dev bno s =
    Ret b (emit (EvRead (read_block (force_disk_fail_id s1) (force_read_error_pbn s1) bno))
      (put b (set_valid true (set_data d x)) s1)).
Proof.
  intros Hg Hx Hv Hbn Hr Hd. unfold bread. rewrite (bind_eq _ _ _ _ _ Hg).
  rewrite (bind_eq _ _ _ _ _ (getb_eq b x s1 Hx)). unfold when. rewrite Hv. cbn [negb].
  set (fl := force_disk_fail_id s1) in *. set (er := force_read_error_pbn s1) in *.
  pose proof (read_block_range fl er bno Hr) as Hrb.
  assert (Hsel : (if use_mirror fl er bno
     then updb b (set_blockno (u32 (bno + DISK1_START_BLOCK))) else updb b (set_blockno bno)) s1
     = Ret tt (put b (set_blockno (read_block fl er bno) x) s1)).
  { unfold read_block in *. destruct (use_mirror fl er bno).
    - rewrite u32_small by lia. by apply updb_eq.
    - by apply updb_eq. }
  erewrite bind_eq; [unfold ret; reflexivity|].
  unfold bind at 1, gets at 1. unfold bind at 1, gets at 1. fold fl er.
  rewrite (bind_eq _ _ _ _ _ Hsel).
  erewrite bind_eq;
    [|eapply (virtio_read _ b _ d); [apply lookup_put_eq|cbn; lia|exact Hd]].
  rewrite put_put. cbn [b_blockno set_blockno].
  set (s2 := emit _ _).
  assert (H2 : bufs s2 !! b = Some (set_data d (set_blockno (read_block fl er bno) x)))
    by apply lookup_put_eq.
  rewrite (bind_eq _ _ _ _ _ (updb_eq b _ _ s2 H2)).
  rewrite (updb_eq b _ _ _ (lookup_put_eq _ _ _)), put_put. f_equal.
  unfold s2, put, emit, set_bufs. simpl. rewrite insert_insert_eq. subst bno. by destruct x.
Qed.

Lemma bread_valid s s1 dev bno b x :
  bget dev bno s = Ret b s1 -> bufs s1 !! b = Some x -> b_valid x = true ->
  bread dev bno s = Ret b s1.
Proof.
  intros Hg Hx Hv. unfold bread. rewrite (bind_eq _ _ _ _ _ Hg).
  rewrite (bind_eq _ _ _ _ _ (getb_eq b x s1 Hx)). unfold when. by rewrite Hv.
Qed.

(** *** Writing *)

(** Which replicas a write goes to, under the fault-injection flags. *)
Definition writes_primary (fail err bno : Z) : bool :=
  negb (fail =? 0) && negb (block_failed err bno).
Definition writes_mirror (fail : Z) : bool := negb (fail =? 1).

(** The disk after a mirrored write of [d] to the logical block [bno]. *)
Definition raid_write (fail err bno : Z) (d : block) (dk : gmap Z block) : gmap Z block :=
  let dk := if writes_primary fail err bno then <[bno := d]> dk else dk in
  if writes_mirror fail then <[bno + DISK1_START_BLOCK := d]> dk else dk.

(** What it adds to the trace, first event first. *)
Definition raid_events (fail err bno : Z) (d : block) : list event :=
  [BW_DIAG bno (bno + DISK1_START_BLOCK) fail (if block_failed err bno then 1 else 0)] ++
  (if fail =? 0 then [SKIP_PBN0_disk bno]
   else if block_failed err bno then [SKIP_PBN0_block bno]
   else [ATTEMPT_PBN0 bno; EvWrite bno d]) ++
  (if fail =? 1 then [SKIP_PBN1_disk (bno + DISK1_START_BLOCK)]
   else [ATTEMPT_PBN1 (bno + DISK1_START_BLOCK); EvWrite (bno + DISK1_START_BLOCK) d]).

(** Both replicas of [bno] are on the device. *)
Definition on_disk (s : bstate) (bno : Z) : Prop :=
  is_Some (disk s !! bno) /\ (bno < LOGICAL_DISK_SIZE -> is_Some (disk s !! (bno + DISK1_START_BLOCK))).

Definition add_events (es : list event) (s : bstate) : bstate :=
  BState (disk s) (bufs s) (bc_lock s) (force_read_error_pbn s) (force_disk_fail_id s) (cur_pid s)
    (reverse es ++ trace s).

Lemma LOGICAL_eq : LOGICAL_DISK_SIZE = 2048.
Proof. done. Qed.
Lemma DISK1_eq : DISK1_START_BLOCK = 2048.
Proof. done. Qed.

Lemma bwrite_mirrored s b x :
  bufs s !! b = Some x -> b_lock x = held (cur_pid s) ->
  0 <= b_blockno x < LOGICAL_DISK_SIZE -> on_disk s (b_blockno x) ->
  bwrite b s =
    Ret tt (add_events
      (raid_events (force_disk_fail_id s) (force_read_error_pbn s) (b_blockno x) (b_data x))
      (set_disk (raid_write (force_disk_fail_id s) (force_read_error_pbn s) (b_blockno x)
        (b_data x) (disk s)) s)).
Proof.
  intros Hx Hl Hr [[d0 Hd0] Hd1]. destruct Hd1 as [d1 Hd1]; [lia|].
  unfold bwrite. rewrite (bind_eq _ _ _ _ _ (holdingsleep_eq b x s Hx ltac:(by rewrite Hl))).
  rewrite Hl. cbn [sl_locked sl_pid held]. rewrite Z.eqb_refl. cbn [andb negb].
  rewrite (bind_eq _ _ _ _ _ (getb_eq b x s Hx)).
  rewrite (proj2 (Z.leb_gt _ _)) by lia. rewrite LOGICAL_eq in Hr.
  rewrite DISK1_eq in *. rewrite u32_small by lia.
  unfold bind at 1, gets at 1. unfold bind at 1, gets at 1. unfold bind at 1, modify at 1.
  destruct s as [dk bf lk er fl pid tr]. destruct x as [v dv bn k rc pr nx da].
  simpl in *. subst k. set (x := Buf v dv bn (held pid) rc pr nx da).
  unfold raid_write, raid_events, writes_primary, writes_mirror. rewrite DISK1_eq.
  match goal with |- bind ?m _ ?s0 = _ => assert (Hp : m s0 = Ret tt (add_events
    ((if fl =? 0 then [SKIP_PBN0_disk bn] else if block_failed er bn then [SKIP_PBN0_block bn]
      else [ATTEMPT_PBN0 bn; EvWrite bn da]))
    (set_disk (if negb (fl =? 0) && negb (block_failed er bn) then <[bn:=da]> dk else dk) s0)))
  end.
  { destruct (fl =? 0); [done|]. destruct (block_failed er bn); [done|]. simpl.
    unfold bind at 1, modify at 1.
    erewrite bind_eq; [|apply (updb_eq b _ x); exact Hx].
    erewrite virtio_write; [|apply lookup_put_eq|simpl; lia|exact Hd0].
    unfold add_events, emit, set_disk, put, set_bufs. simpl. change (set_blockno bn x) with x. by rewrite (insert_id bf). }
  rewrite (bind_eq _ _ _ _ _ Hp). clear Hp.
  set (dk1 := if negb (fl =? 0) && negb (block_failed er bn) then <[bn:=da]> dk else dk).
  assert (Hdk1 : exists d, dk1 !! (bn + 2048) = Some d).
  { unfold dk1. destruct (_ && _); [|by eexists]. rewrite lookup_insert_ne by lia. by eexists. }
  destruct Hdk1 as [d2 Hd2].
  match goal with |- bind ?m _ ?s0 = _ => assert (Hp : exists nb, m s0 = Ret tt (add_events
    (if fl =? 1 then [SKIP_PBN1_disk (bn + 2048)]
      else [ATTEMPT_PBN1 (bn + 2048); EvWrite (bn + 2048) da])
    (set_disk (if negb (fl =? 1) then <[bn + 2048:=da]> dk1 else dk1)
       (put b (set_blockno nb x) s0))))
  end.
  { destruct (fl =? 1).
    - exists bn. unfold modify. f_equal. unfold add_events, emit, set_disk, put, set_bufs. simpl.
      change (set_blockno bn x) with x. by rewrite (insert_id bf).
    - exists (bn + 2048). unfold bind at 1, modify at 1.
      erewrite bind_eq; [|apply (updb_eq b _ x); exact Hx].
      erewrite virtio_write; [|apply lookup_put_eq|simpl; lia|exact Hd2].
      done. }
  destruct Hp as [nb Hp]. rewrite (bind_eq _ _ _ _ _ Hp).
  erewrite updb_eq; [|apply lookup_put_eq]. f_equal.
  unfold put, add_events, set_bufs, set_disk. simpl. rewrite insert_insert_eq, (insert_id bf) by exact Hx.
  rewrite reverse_cons, reverse_app, <- !app_assoc. done.
Qed.

(** *** Releasing *)

Definition strip (x : buf) : buf := set_prev 0 (set_next 0 x).

Definition nxm (m : gmap Z buf) (i : Z) : option Z := b_next <$> m !! i.
Definition pvm (m : gmap Z buf) (i : Z) : option Z := b_prev <$> m !! i.

Section links.
Variable (m : gmap Z buf).

Lemma nxm_alter_prev i v j : nxm (alter (set_prev v) i m) j = nxm m j.
Proof.
  unfold nxm. destruct (decide (i = j)) as [->|]; [|by rewrite lookup_alter_ne].
  rewrite lookup_alter_eq. by destruct (m !! j).
Qed.
Lemma pvm_alter_next i v j : pvm (alter (set_next v) i m) j = pvm m j.
Proof.
  unfold pvm. destruct (decide (i = j)) as [->|]; [|by rewrite lookup_alter_ne].
  rewrite lookup_alter_eq. by destruct (m !! j).
Qed.
Lemma nxm_alter_next i v : is_Some (m !! i) -> nxm (alter (set_next v) i m) i = Some v.
Proof. intros [x Hx]. unfold nxm. by rewrite lookup_alter_eq, Hx. Qed.
Lemma pvm_alter_prev i v : is_Some (m !! i) -> pvm (alter (set_prev v) i m) i = Some v.
Proof. intros [x Hx]. unfold pvm. by rewrite lookup_alter_eq, Hx. Qed.
Lemma nxm_alter_next_ne i v j : i <> j -> nxm (alter (set_next v) i m) j = nxm m j.
Proof. intros. unfold nxm. by rewrite lookup_alter_ne. Qed.
Lemma pvm_alter_prev_ne i v j : i <> j -> pvm (alter (set_prev v) i m) j = pvm m j.
Proof. intros. unfold pvm. by rewrite lookup_alter_ne. Qed.
Lemma strip_alter_prev i v j : strip <$> alter (set_prev v) i m !! j = strip <$> m !! j.
Proof.
  destruct (decide (i = j)) as [->|]; [|by rewrite lookup_alter_ne].
  rewrite lookup_alter_eq. by destruct (m !! j).
Qed.
Lemma strip_alter_next i v j : strip <$> alter (set_next v) i m !! j = strip <$> m !! j.
Proof.
  destruct (decide (i = j)) as [->|]; [|by rewrite lookup_alter_ne].
  rewrite lookup_alter_eq. by destruct (m !! j).
Qed.
End links.

Lemma strip_some (m m' : gmap Z buf) i :
  strip <$> m' !! i = strip <$> m !! i -> is_Some (m !! i) -> is_Some (m' !! i).
Proof. intros H [x Hx]. rewrite Hx in H. destruct (m' !! i); [by eexists|done]. Qed.

Lemma updb_alter i f s :
  is_Some (bufs s !! i) -> updb i f s = Ret tt (set_bufs (alter f i (bufs s)) s).
Proof.
  intros [x Hx]. rewrite (updb_eq i f x s Hx). unfold put. do 2 f_equal.
  apply map_eq. intros j. destruct (decide (i = j)) as [->|Hne].
  - by rewrite lookup_alter_eq, Hx, lookup_insert_eq.
  - by rewrite lookup_alter_ne, lookup_insert_ne.
Qed.

(** The buffers after [brelse] moved [b] behind the head; [a], [c] were its
    neighbours and [f] follows the head without [b]. *)
Definition moved (a b c f : Z) (m : gmap Z buf) : gmap Z buf :=
  alter (set_next b) head (alter (set_prev b) f (alter (set_prev head) b (alter (set_next f) b
    (alter (set_next c) a (alter (set_prev a) c m))))).

Lemma moved_strip a b c f m i : strip <$> moved a b c f m !! i = strip <$> m !! i.
Proof. unfold moved. by rewrite !strip_alter_next, !strip_alter_prev, strip_alter_next, !strip_alter_next, strip_alter_prev. Qed.

Lemma moved_ring m l1 b l2 :
  let a := List.last l1 head in let c := hd head l2 in let f := hd head (l1 ++ l2) in
  ring (nxm m) (pvm m) head (l1 ++ b :: l2) ->
  (forall i, i ∈ head :: l1 ++ b :: l2 -> is_Some (m !! i)) ->
  ring (nxm (moved a b c f m)) (pvm (moved a b c f m)) head (b :: l1 ++ l2).
Proof.
  intros a c f [Hn Hc] Hdom.
  assert (Hab : head :: l1 = removelast (head :: l1) ++ [a]).
  { unfold a. rewrite (app_removelast_last head (l := head :: l1)) at 1 by done.
    f_equal. f_equal. clear. destruct l1 as [|x l1] using rev_ind; [done|].
    change (head :: l1 ++ [x]) with ((head :: l1) ++ [x]). by rewrite !List.last_last. }
  destruct (snoc_cons l2 head) as (c' & ys & Hys & _).
  assert (c' = c) as -> by (unfold c; destruct l2; simpl in *; congruence).
  destruct (snoc_cons (l1 ++ l2) head) as (f' & zs & Hzs & _).
  assert (f' = f) as -> by (unfold f; destruct (l1 ++ l2); simpl in *; congruence).
  set (xs := removelast (head :: l1)) in *.
  assert (Heq : head :: (l1 ++ b :: l2) ++ [head] = xs ++ a :: b :: c :: ys).
  { change (head :: (l1 ++ b :: l2) ++ [head]) with (((head :: l1) ++ b :: l2) ++ [head]).
    rewrite Hab, <- !app_assoc. simpl. by rewrite Hys. }
  assert (Heq' : head :: (l1 ++ l2) ++ [head] = xs ++ a :: c :: ys).
  { change (head :: (l1 ++ l2) ++ [head]) with (((head :: l1) ++ l2) ++ [head]).
    rewrite Hab, <- !app_assoc. by rewrite Hys. }
  destruct (ring_nodups _ _ Hn) as [Hn1 Hn2]. rewrite Heq in Hc, Hn1, Hn2.
  assert (Hn' : NoDup (head :: l1 ++ l2) /\ b ∉ head :: l1 ++ l2).
  { change (head :: l1 ++ b :: l2) with ((head :: l1) ++ b :: l2) in Hn.
    rewrite <- Permutation_middle in Hn. by apply list.NoDup_cons in Hn as [? ?]. }
  destruct Hn' as [Hn' Hb].
  assert (Hin : forall i, i ∈ head :: l1 ++ l2 -> is_Some (m !! i)).
  { intros i Hi. apply Hdom. set_solver. }
  assert (Ha : a ∈ head :: l1 ++ l2).
  { change (a ∈ (head :: l1) ++ l2). rewrite Hab. set_solver. }
  assert (Hcin : c ∈ head :: l1 ++ l2).
  { unfold c. destruct l2; simpl; set_solver. }
  assert (Hf : f ∈ head :: l1 ++ l2).
  { unfold f. destruct (l1 ++ l2); simpl; set_solver. }
  assert (Hmb : is_Some (m !! b)) by (apply Hdom; set_solver).
  set (m2 := alter (set_next c) a (alter (set_prev a) c m)).
  assert (Hd2 : forall i, is_Some (m !! i) -> is_Some (m2 !! i)).
  { intros i. apply strip_some. unfold m2. by rewrite strip_alter_next, strip_alter_prev. }
  assert (Hc2 : chain (nxm m2) (pvm m2) (head :: f :: zs)).
  { rewrite <- Hzs, Heq'. eapply (chain_remove (nxm m) (pvm m)); [exact Hc|done|done|..]; unfold m2.
    - apply nxm_alter_next. eapply strip_some; [apply strip_alter_prev|]. by apply Hin.
    - rewrite pvm_alter_next. apply pvm_alter_prev. by apply Hin.
    - intros p Hp. rewrite nxm_alter_next_ne by congruence. apply nxm_alter_prev.
    - intros p Hp. rewrite pvm_alter_next. apply pvm_alter_prev_ne. congruence. }
  unfold moved. fold m2. split.
  { apply list.NoDup_cons in Hn' as [Hh Hn']. apply list.NoDup_cons. split; [set_solver|].
    apply list.NoDup_cons. split; [set_solver|done]. }
  assert (Hfb : f <> b) by (intros Hfb; apply Hb; by rewrite <- Hfb).
  assert (Hhb : head <> b) by (intros Hhb; apply Hb; rewrite <- Hhb; set_solver).
  destruct (ring_nodups _ _ Hn') as [Hz1 Hz2].
  change (head :: (b :: l1 ++ l2) ++ [head]) with (head :: b :: ((l1 ++ l2) ++ [head])).
  rewrite Hzs. rewrite Hzs in Hz1, Hz2.
  apply (chain_insert (nxm m2) (pvm m2) _ _ [] head f zs b); try done.
  - simpl. rewrite <- Hzs. set_solver.
  - apply nxm_alter_next. eapply strip_some; [apply strip_alter_prev|].
    eapply strip_some; [apply strip_alter_prev|].
    eapply strip_some; [apply strip_alter_next|]. apply Hd2, Hin. set_solver.
  - rewrite nxm_alter_next_ne by done. rewrite !nxm_alter_prev. apply nxm_alter_next. by apply Hd2.
  - rewrite pvm_alter_next. apply pvm_alter_prev.
    eapply strip_some; [apply strip_alter_prev|].
    eapply strip_some; [apply strip_alter_next|]. apply Hd2, Hin. done.
  - rewrite pvm_alter_next. rewrite pvm_alter_prev_ne by done. apply pvm_alter_prev.
    eapply strip_some; [apply strip_alter_next|]. by apply Hd2.
  - intros p Hp1 Hp2. rewrite nxm_alter_next_ne by congruence. rewrite !nxm_alter_prev.
    apply nxm_alter_next_ne. congruence.
  - intros p Hp1 Hp2. rewrite pvm_alter_next. rewrite pvm_alter_prev_ne by congruence.
    rewrite pvm_alter_prev_ne by congruence. apply pvm_alter_next.
Qed.

(** The six assignments of [brelse]. *)
Lemma move_run s l1 b l2 x :
  bc_ok s (l1 ++ b :: l2) -> bufs s !! b = Some x ->
  forall lk, bmove_to_head b (set_bc_lock lk s) =
  Ret tt (set_bufs (moved (List.last l1 head) b (hd head l2) (hd head (l1 ++ l2)) (bufs s))
    (set_bc_lock lk s)).
Proof.
  intros H Hx lk. set (a := List.last l1 head). set (c := hd head l2).
  set (f := hd head (l1 ++ l2)).
  assert (Hdom : forall i, i ∈ head :: l1 ++ b :: l2 -> is_Some (bufs s !! i)).
  { intros i [->|Hi]%elem_of_cons; [apply (ok_dom _ _ H); done|].
    apply (ok_dom _ _ H). apply (bc_elem s _ i H) in Hi. lia. }
  assert (Hb : b ∉ head :: l1 ++ l2).
  { destruct (ok_ring _ _ H) as [Hn _].
    change (head :: l1 ++ b :: l2) with ((head :: l1) ++ b :: l2) in Hn.
    rewrite <- Permutation_middle in Hn. by apply list.NoDup_cons in Hn as [? ?]. }
  assert (Ha : a ∈ head :: l1 ++ l2).
  { unfold a. destruct l1 as [|y l1 _] using rev_ind; [set_solver|].
    rewrite List.last_last. set_solver. }
  assert (Hc : c ∈ head :: l1 ++ l2) by (unfold c; destruct l2; simpl; set_solver).
  assert (Hf : f ∈ head :: l1 ++ l2) by (unfold f; destruct (l1 ++ l2); simpl; set_solver).
  assert (Hsub : forall i, i ∈ head :: l1 ++ l2 -> is_Some (bufs s !! i)).
  { intros i Hi. apply Hdom. set_solver. }
  assert (Hnx : b_next x = c).
  { pose proof (ring_next s _ (head :: l1) b l2 H eq_refl) as Hr. unfold nxt in Hr.
    rewrite Hx in Hr. by injection Hr. }
  assert (Hpv : b_prev x = a).
  { pose proof (ring_prev s _ l1 b (l2 ++ [head]) H) as Hr. rewrite <- app_assoc in Hr.
    specialize (Hr eq_refl). unfold prv in Hr. rewrite Hx in Hr. by injection Hr. }
  unfold bmove_to_head. rewrite (bind_eq _ _ _ _ _ (getb_eq b x (set_bc_lock lk s) Hx)), Hnx, Hpv.
  rewrite (bind_eq _ _ _ _ _ (updb_alter c _ (set_bc_lock lk s) (Hsub c Hc))).
  set (m1 := alter (set_prev a) c (bufs s)). set (s1 := set_bufs _ _).
  assert (H1 : bufs s1 !! b = Some x).
  { simpl. rewrite lookup_alter_ne; [done|]. intros ->. done. }
  rewrite bind_assoc, (bind_eq _ _ _ _ _ (getb_eq b x s1 H1)), Hnx, Hpv.
  assert (D1 : forall i, is_Some (bufs s !! i) -> is_Some (m1 !! i))
    by (intros i; apply strip_some, strip_alter_prev).
  rewrite (bind_eq _ _ _ _ _ (updb_alter a _ s1 (D1 a (Hsub a Ha)))).
  set (m2 := alter (set_next c) a (bufs s1)). set (s2 := set_bufs m2 s1).
  assert (D2 : forall i, is_Some (bufs s !! i) -> is_Some (m2 !! i)).
  { intros i Hi. eapply strip_some; [apply strip_alter_next|]. by apply D1. }
  assert (Hhd : exists h, bufs s2 !! head = Some h /\ b_next h = f).
  { destruct (D2 head) as [h Hh]; [apply Hsub; set_solver|]. exists h. split; [done|].
    assert (nxm m2 head = Some f) as Hnm; [|unfold nxm in Hnm; rewrite Hh in Hnm; by injection Hnm].
    unfold m2. destruct l1 as [|y l1].
    - simpl in a. unfold a, f. simpl. apply nxm_alter_next, D1, Hsub. set_solver.
    - rewrite nxm_alter_next_ne.
      + unfold s1, m1. cbn [bufs set_bufs]. rewrite nxm_alter_prev.
        apply (ring_next s _ [] head _ H eq_refl).
      + unfold a. destruct l1 as [|z l1 _] using rev_ind; simpl.
        * intros ->. destruct (ok_ring _ _ H) as [Hn _]. apply list.NoDup_cons in Hn as [Hn _].
          set_solver.
        * intros Heq. destruct (ok_ring _ _ H) as [Hn _]. apply list.NoDup_cons in Hn as [Hn _].
          apply Hn. rewrite <- Heq.
          assert (List.last (y :: l1 ++ [z]) head = z) as Hz.
          { change (y :: l1 ++ [z]) with ((y :: l1) ++ [z]). apply List.last_last. }
          simpl in Hz. rewrite Hz. set_solver. }
  destruct Hhd as (h & Hh & Hhf).
  rewrite bind_assoc, (bind_eq _ _ _ _ _ (getb_eq head h s2 Hh)), Hhf.
  assert (Hbs : is_Some (bufs s !! b)) by (by eexists).
  rewrite (bind_eq _ _ _ _ _ (updb_alter b _ s2 (D2 b Hbs))).
  set (m3 := alter (set_next f) b (bufs s2)). set (s3 := set_bufs m3 s2).
  assert (D3 : forall i, is_Some (bufs s !! i) -> is_Some (m3 !! i)).
  { intros i Hi. eapply strip_some; [apply strip_alter_next|]. by apply D2. }
  rewrite (bind_eq _ _ _ _ _ (updb_alter b _ s3 (D3 b Hbs))).
  set (m4 := alter (set_prev head) b (bufs s3)). set (s4 := set_bufs m4 s3).
  assert (D4 : forall i, is_Some (bufs s !! i) -> is_Some (m4 !! i)).
  { intros i Hi. eapply strip_some; [apply strip_alter_prev|]. by apply D3. }
  assert (Hh4 : bufs s4 !! head = Some h).
  { simpl. unfold m4. rewrite lookup_alter_ne by set_solver. simpl. unfold m3.
    by rewrite lookup_alter_ne by set_solver. }
  rewrite bind_assoc, (bind_eq _ _ _ _ _ (getb_eq head h s4 Hh4)), Hhf.
  rewrite (bind_eq _ _ _ _ _ (updb_alter f _ s4 (D4 f (Hsub f Hf)))).
  set (m5 := alter (set_prev b) f (bufs s4)). set (s5 := set_bufs m5 s4).
  assert (D5 : is_Some (m5 !! head)).
  { eapply strip_some; [apply strip_alter_prev|]. apply D4, Hsub. set_solver. }
  by rewrite (updb_alter head _ s5 D5).
Qed.

(** The buffers of two states agree but for the list links. *)
Definition same_slots (s s' : bstate) : Prop :=
  forall i, strip <$> bufs s' !! i = strip <$> bufs s !! i.

Lemma strip_eq x y : strip x = strip y ->
  b_valid x = b_valid y /\ b_dev x = b_dev y /\ b_blockno x = b_blockno y /\
  b_lock x = b_lock y /\ b_refcnt x = b_refcnt y /\ b_data x = b_data y.
Proof. destruct x, y. by intros [= -> -> -> -> -> ->]. Qed.

Lemma same_slots_lookup s s' i x :
  same_slots s s' -> bufs s !! i = Some x -> exists y, bufs s' !! i = Some y /\ strip y = strip x.
Proof.
  intros H Hx. specialize (H i). rewrite Hx in H. destruct (bufs s' !! i) as [y|] eqn:Hy; [|done].
  exists y. split; [done|]. by apply (inj Some).
Qed.

Lemma same_slots_sym s s' : same_slots s s' -> same_slots s' s.
Proof. intros H i. by rewrite H. Qed.

(** The invariant speaks about the links only through the ring. *)
Lemma bc_ok_slots s s' l l' :
  bc_ok s l -> same_slots s s' -> bc_lock s' = false -> l' ≡ₚ l ->
  ring (nxt s') (prv s') head l' -> bc_ok s' l'.
Proof.
  intros [Hd Hr Hp Hl Hs Hu] Hsl Hlk Hpl Hring. constructor; try done.
  - intros i. rewrite <- Hd. split; apply strip_some; [by rewrite Hsl|done].
  - by rewrite Hpl.
  - intros i y Hy. destruct (same_slots_lookup _ _ i y (same_slots_sym _ _ Hsl) Hy)
      as (x & Hx & He). apply strip_eq in He as (_ & _ & _ & <- & _). by apply (Hs i).
  - intros i j y1 y2 Hi Hj Hy1 Hy2 Hdv He1 He2.
    destruct (same_slots_lookup _ _ i y1 (same_slots_sym _ _ Hsl) Hy1) as (x1 & Hx1 & E1).
    destruct (same_slots_lookup _ _ j y2 (same_slots_sym _ _ Hsl) Hy2) as (x2 & Hx2 & E2).
    apply strip_eq in E1 as (_ & D1 & B1 & _). apply strip_eq in E2 as (_ & D2 & B2 & _).
    apply (Hu i j x1 x2); congruence.
Qed.

Definition released (x : buf) : buf := set_block_lock no_lock (set_refcnt (u32 (b_refcnt x - 1)) x).

(** The list after [brelse] of [b]. *)
Definition released_order (b refcnt : Z) (l : list Z) : list Z :=
  if refcnt =? 0 then b :: List.filter (fun i => negb (i =? b)) l else l.

Lemma filter_not_in b l : b ∉ l -> List.filter (fun i => negb (i =? b)) l = l.
Proof.
  induction l as [|i l IH]; [done|]. intros [Hne Hni]%not_elem_of_cons. simpl.
  rewrite (proj2 (Z.eqb_neq i b)) by congruence. simpl. by rewrite IH.
Qed.

Lemma filter_split b l1 l2 : b ∉ l1 -> b ∉ l2 ->
  List.filter (fun i => negb (i =? b)) (l1 ++ b :: l2) = l1 ++ l2.
Proof.
  intros H1 H2. rewrite List.filter_app. simpl. rewrite Z.eqb_refl. simpl.
  by rewrite !filter_not_in.
Qed.

Lemma brelse_run s l b x :
  bc_ok s l -> b ∈ l -> bufs s !! b = Some x -> b_lock x = held (cur_pid s) ->
  exists s', brelse b s = Ret tt s' /\
    bc_ok s' (released_order b (b_refcnt (released x)) l) /\
    same_slots (put b (released x) s) s' /\
    disk s' = disk s /\ force_disk_fail_id s' = force_disk_fail_id s /\
    force_read_error_pbn s' = force_read_error_pbn s /\ cur_pid s' = cur_pid s /\
    trace s' = EvWakeup b :: trace s.
Proof.
  intros H Hb Hx Hl. pose proof (ok_unlocked _ _ H) as Hlk.
  assert (Hk : sl_lk (b_lock x) = false) by (by rewrite Hl).
  unfold brelse. rewrite (bind_eq _ _ _ _ _ (holdingsleep_eq b x s Hx Hk)).
  rewrite Hl. cbn [sl_locked sl_pid held]. rewrite Z.eqb_refl. cbn [andb negb].
  rewrite (bind_eq _ _ _ _ _ (releasesleep_eq b x s Hx Hk)).
  rewrite (bind_eq _ _ _ _ _ (bcache_acquire (emit _ (put b _ s)) Hlk)).
  erewrite bind_eq; [|apply updb_eq, lookup_put_eq].
  set (s1 := put b (released x) (emit (EvWakeup b) s)).
  assert (Hs1 : put b (set_refcnt (u32 (b_refcnt (set_block_lock no_lock x) - 1))
      (set_block_lock no_lock x)) (set_bc_lock true (emit (EvWakeup b)
      (put b (set_block_lock no_lock x) s))) = set_bc_lock true s1).
  { unfold s1, put, emit, set_bufs, set_bc_lock. simpl. by rewrite insert_insert_eq. }
  cbv beta. rewrite Hs1. clear Hs1.
  assert (H1 : bc_ok s1 l).
  { unfold s1. apply (bc_ok_put _ l b x); try done.
    - destruct H. by constructor.
    - intros Hbh Hdv j z Hj Hjb Hz He1 He2. apply Hjb.
      by apply (ok_uniq _ _ H j b z x); try done; rewrite He1. }
  assert (Hx1 : bufs s1 !! b = Some (released x)) by apply lookup_put_eq.
  rewrite (bind_eq _ _ _ _ _ (getb_eq b _ (set_bc_lock true s1) Hx1)).
  assert (Hfl : bc_lock s1 = false) by done.
  unfold released_order. destruct (b_refcnt (released x) =? 0) eqn:Hr0; cbn [when].
  - destruct (list_elem_of_split l b Hb) as (l1 & l2 & ->).
    assert (Hni : b ∉ l1 /\ b ∉ l2).
    { destruct (ok_ring _ _ H) as [Hn _]. apply list.NoDup_cons in Hn as [_ Hn].
      rewrite <- Permutation_middle in Hn. apply list.NoDup_cons in Hn as [Hn _]. set_solver. }
    rewrite filter_split by tauto.
    pose proof (move_run s1 l1 b l2 _ H1 Hx1 true) as Hmv.
    rewrite (bind_eq _ _ _ _ _ Hmv).
    set (m' := moved _ b _ _ (bufs s1)).
    exists (set_bufs m' s1). split.
    { rewrite bcache_release by done. unfold set_bc_lock, set_bufs. simpl.
      by rewrite Hlk. }
    assert (Hsl : same_slots s1 (set_bufs m' s1)) by (intros i; apply moved_strip).
    split.
    { apply (bc_ok_slots s1 _ (l1 ++ b :: l2)); try done.
      - apply Permutation_middle.
      - apply moved_ring; [apply H1|]. intros i Hi. apply (ok_dom _ _ H1).
        apply elem_of_cons in Hi as [->|Hi]; [done|]. apply (bc_elem s1 _ i H1) in Hi. lia. }
    done.
  - exists s1. split.
    { rewrite bind_ret, bcache_release by done. unfold set_bc_lock, s1, put, set_bufs. simpl.
      by rewrite Hlk. }
    done.
Qed.

(** ** The contract of the buffer cache

    [refs] counts the references to each block, [hs] are the blocks that the
    current process has locked.  A count is an integer, of which the [refcnt]
    field holds the residue modulo 2^32: recovery drives counts below zero
    (see [Log]), and a block whose count is not zero is never evicted.  [view s bno] is what a reader of the logical
    block [bno] gets: the cached data, or the block on the replica that reads
    select.  A block that nobody references may be evicted at any time, so
    its cached copy must agree with the disk. *)

Definition ROOTDEV : Z := 1.

Definition slot (s : bstate) (i : Z) (x : buf) : Prop := i <> head /\ bufs s !! i = Some x.

(** Buffer [i] holds the data [d] of block [bno]. *)
Definition handle (s : bstate) (i bno : Z) (d : block) : Prop :=
  exists x, slot s i x /\ b_dev x = ROOTDEV /\ b_blockno x = bno /\ b_valid x = true /\
    b_data x = d.

Definition view (s : bstate) (bno : Z) : option block :=
  match List.find (matches s ROOTDEV bno) (seqZ 0 NBUF) with
  | Some i =>
      match bufs s !! i with
      | Some x => if b_valid x then Some (b_data x) else disk_read s bno
      | None => None
      end
  | None => disk_read s bno
  end.

Definition refs_of (refs : gmap Z Z) (bno : Z) : Z := default 0 (refs !! bno).

Record slots_ok (refs : gmap Z Z) (hs : gset Z) (s : bstate) : Prop := {
  so_slot : forall i x, slot s i x ->
    (b_dev x = 0 /\ b_refcnt x = 0 /\ b_lock x = no_lock) \/
    (b_dev x = ROOTDEV /\ b_refcnt x = u32 (refs_of refs (b_blockno x)) /\
     b_lock x = (if decide (b_blockno x ∈ hs) then held (cur_pid s) else no_lock) /\
     (is_Some (refs !! b_blockno x) -> b_valid x = true) /\ 0 <= b_blockno x < LOGICAL_DISK_SIZE);
  so_refs : forall bno n, refs !! bno = Some n ->
    is_int n /\ exists i x, slot s i x /\ b_dev x = ROOTDEV /\ b_blockno x = bno;
  so_held : forall bno, bno ∈ hs -> is_Some (refs !! bno);
  so_clean : forall i x, slot s i x -> b_dev x = ROOTDEV -> b_valid x = true ->
    refs !! b_blockno x = None -> disk_read s (b_blockno x) = Some (b_data x)
}.

Definition cache_rel (refs : gmap Z Z) (hs : gset Z) (s : bstate) : Prop :=
  (exists l, bc_ok s l) /\ slots_ok refs hs s.

(** The transfers to the disk, latest first. *)
Definition write_event (e : event) : option (Z * block) :=
  match e with EvWrite bno d => Some (bno, d) | _ => None end.
Definition writes (s : bstate) : list (Z * block) := omap write_event (trace s).

(** An operation that only changes the cache. *)
Definition cache_only (s s' : bstate) : Prop :=
  disk s' = disk s /\ force_disk_fail_id s' = force_disk_fail_id s /\
  force_read_error_pbn s' = force_read_error_pbn s /\ cur_pid s' = cur_pid s /\
  writes s' = writes s.

Definition keeps_handles (hs : gset Z) (s s' : bstate) : Prop :=
  forall i bno d, bno ∈ hs -> handle s i bno d -> handle s' i bno d.

Definition same_view (s s' : bstate) : Prop :=
  forall bno, 0 <= bno < LOGICAL_DISK_SIZE -> view s' bno = view s bno.

(** *** Lookup of a block *)

Lemma matches_slot s l dev bno i :
  bc_ok s l -> matches s dev bno i = true -> i ∈ l ->
  exists x, slot s i x /\ b_dev x = dev /\ b_blockno x = bno.
Proof.
  intros H Hm Hi. unfold matches in Hm. destruct (bufs s !! i) as [x|] eqn:Hx; [|done].
  zbool. exists x. split; [|done]. split; [|done].
  apply (bc_elem s l i H) in Hi. lia.
Qed.

Lemma slot_elem s l i x : bc_ok s l -> slot s i x -> i ∈ l.
Proof.
  intros H [Hne Hx]. apply (bc_elem s l i H).
  assert (0 <= i <= head) by (apply (ok_dom _ _ H); by eexists). lia.
Qed.

Lemma find_slot s l dev i x ls :
  bc_ok s l -> slot s i x -> b_dev x = dev -> dev <> 0 -> ls ≡ₚ l ->
  List.find (matches s dev (b_blockno x)) ls = Some i.
Proof.
  intros H Hs Hd Hd0 Hp. destruct (List.find _ ls) as [j|] eqn:Hf.
  - apply List.find_some in Hf as [Hj Hm]. rewrite <- list_elem_of_In in Hj.
    rewrite Hp in Hj. destruct (matches_slot s l _ _ j H Hm Hj) as (y & [Hj0 Hy] & Hdy & Hby).
    destruct Hs as [Hi0 Hx]. f_equal. apply (ok_uniq _ _ H j i y x); congruence.
  - exfalso. assert (i ∈ ls) as Hi by (rewrite Hp; by apply (slot_elem s l i x)).
    rewrite list_elem_of_In in Hi. eapply List.find_none in Hf; [|done].
    destruct Hs as [_ Hx]. unfold matches in Hf. rewrite Hx, Hd, !Z.eqb_refl in Hf. done.
Qed.

Lemma find_no_slot s l dev bno ls :
  bc_ok s l -> (forall i x, slot s i x -> b_dev x = dev -> b_blockno x = bno -> False) ->
  ls ≡ₚ l -> List.find (matches s dev bno) ls = None.
Proof.
  intros H Hno Hp. destruct (List.find _ ls) as [j|] eqn:Hf; [|done].
  apply List.find_some in Hf as [Hj Hm]. rewrite <- list_elem_of_In in Hj. rewrite Hp in Hj.
  destruct (matches_slot s l _ _ j H Hm Hj) as (y & Hy & Hdy & Hby). by destruct (Hno j y).
Qed.

Lemma view_slot s l i x :
  bc_ok s l -> slot s i x -> b_dev x = ROOTDEV ->
  view s (b_blockno x) = if b_valid x then Some (b_data x) else disk_read s (b_blockno x).
Proof.
  intros H Hs Hd. unfold view.
  rewrite (find_slot s l ROOTDEV i x) by first [done | by rewrite (ok_perm _ _ H)].
  destruct Hs as [_ Hx]. by rewrite Hx.
Qed.

Lemma view_no_slot s l bno :
  bc_ok s l -> (forall i x, slot s i x -> b_dev x = ROOTDEV -> b_blockno x = bno -> False) ->
  view s bno = disk_read s bno.
Proof.
  intros H Hno. unfold view.
  by rewrite (find_no_slot s l ROOTDEV bno) by first [done | by rewrite (ok_perm _ _ H)].
Qed.

Lemma slot_dec s l dev bno : bc_ok s l -> 
  (exists i x, slot s i x /\ b_dev x = dev /\ b_blockno x = bno) \/
  (forall i x, slot s i x -> b_dev x = dev -> b_blockno x = bno -> False).
Proof.
  intros H. destruct (List.find (matches s dev bno) l) as [j|] eqn:Hf.
  - left. apply List.find_some in Hf as [Hj Hm]. rewrite <- list_elem_of_In in Hj.
    destruct (matches_slot s l _ _ j H Hm Hj) as (y & Hy). by exists j, y.
  - right. intros i x Hs Hd Hb. eapply List.find_none in Hf.
    2:{ rewrite <- list_elem_of_In. by apply (slot_elem s l i x). }
    destruct Hs as [_ Hx]. unfold matches in Hf.
    by rewrite Hx, Hd, Hb, !Z.eqb_refl in Hf.
Qed.

(** The view depends on the slots, the disk and the flags. *)
Lemma view_same_slots s s' l l' :
  bc_ok s l -> bc_ok s' l' -> same_slots s s' -> disk_read s' = disk_read s ->
  forall bno, view s' bno = view s bno.
Proof.
  intros H H' Hsl Hdr bno.
  destruct (slot_dec s l ROOTDEV bno H) as [(i & x & Hs & Hd & <-)|Hno].
  - rewrite (view_slot s l i x) by done. destruct Hs as [Hi Hx].
    destruct (same_slots_lookup _ _ i x Hsl Hx) as (y & Hy & He).
    apply strip_eq in He as (Hv & Hdv & Hbn & _ & _ & Hda).
    rewrite <- Hbn, (view_slot s' l' i y) by first [done | congruence | by split].
    by rewrite Hv, Hda, Hdr.
  - rewrite (view_no_slot s l) by done. rewrite (view_no_slot s' l'); [by rewrite Hdr|done|].
    intros i y [Hi Hy] Hd Hb.
    destruct (same_slots_lookup _ _ i y (same_slots_sym _ _ Hsl) Hy) as (x & Hx & He).
    apply strip_eq in He as (_ & Hdv & Hbn & _). apply (Hno i x); [by split|congruence..].
Qed.

Lemma slots_ok_same refs hs s s' :
  slots_ok refs hs s -> same_slots s s' -> disk_read s' = disk_read s ->
  cur_pid s' = cur_pid s -> slots_ok refs hs s'.
Proof.
  intros [H1 H2 H3 H4] Hsl Hdr Hpid.
  assert (Hback : forall i y, slot s' i y -> exists x, slot s i x /\ strip x = strip y).
  { intros i y [Hi Hy]. destruct (same_slots_lookup _ _ i y (same_slots_sym _ _ Hsl) Hy)
      as (x & Hx & He). exists x. split; [by split|done]. }
  constructor.
  - intros i y Hy. destruct (Hback i y Hy) as (x & Hx & He).
    apply strip_eq in He as (E1 & E2 & E3 & E4 & E5 & _). specialize (H1 i x Hx).
    by rewrite E1, E2, E3, E4, E5, <- Hpid in H1.
  - intros bno n Hn. destruct (H2 bno n Hn) as (Hr & i & x & [Hi Hx] & Hd & Hb).
    split; [done|]. destruct (same_slots_lookup _ _ i x Hsl Hx) as (y & Hy & He).
    apply strip_eq in He as (_ & E2 & E3 & _). exists i, y. split; [by split|]. split; congruence.
  - done.
  - intros i y Hy Hd Hv Hn. destruct (Hback i y Hy) as (x & Hx & He).
    apply strip_eq in He as (E1 & E2 & E3 & _ & _ & E6). rewrite <- E3, <- E6, Hdr.
    apply (H4 i x); congruence.
Qed.

(** *** Changing one slot *)

(** Slot [i], which holds block [bno] already or is free to be recycled for it,
    becomes [x']. *)
Definition reusable (refs : gmap Z Z) (s : bstate) (x : buf) (bno : Z) : Prop :=
  (b_dev x = ROOTDEV /\ b_blockno x = bno) \/
  ((b_dev x = ROOTDEV -> refs !! b_blockno x = None) /\
   forall j y, slot s j y -> b_dev y = ROOTDEV -> b_blockno y = bno -> False).

Lemma slot_put s i x' j y : i <> head ->
  slot (put i x' s) j y <-> (j = i /\ y = x') \/ (j <> i /\ slot s j y).
Proof.
  intros Hi. unfold slot. rewrite lookup_put. destruct (decide (j = i)) as [->|Hne].
  - split; [intros [_ [= <-]]; by left|]. intros [[_ ->]|[[] _]]; done.
  - split; [intros H; by right|]. intros [[? _]|[_ H]]; done.
Qed.

(** No other slot holds [bno]. *)
Lemma reusable_unique refs s l i x bno j y :
  bc_ok s l -> slot s i x -> reusable refs s x bno -> slot s j y ->
  b_dev y = ROOTDEV -> b_blockno y = bno -> j = i.
Proof.
  intros H Hi [[Hd Hb]|[_ Hno]] Hj Hdy Hby; [|by destruct (Hno j y)].
  destruct Hi as [Hi0 Hx], Hj as [Hj0 Hy]. apply (ok_uniq _ _ H j i y x); try congruence.
  by rewrite Hdy.
Qed.

Lemma u32_eq_0 n : is_int n -> u32 n = 0 -> n = 0.
Proof. unfold is_int, INT_MIN, INT_MAX, u32. intros Hn H. zlia. Qed.

(** A buffer whose count is 0 holds a block without an entry, unless some entry
    is 0 (a count that was decremented once too often; see [Log]). *)
Lemma free_slot_refs refs hs s i x :
  slots_ok refs hs s -> (forall b, refs !! b <> Some 0) ->
  slot s i x -> b_refcnt x = 0 -> b_dev x = ROOTDEV -> refs !! b_blockno x = None.
Proof.
  intros H Hnz Hs Hr Hd.
  destruct (so_slot _ _ _ H i x Hs) as [(H0 & _)|(_ & He & _)]; [by rewrite Hd in H0|].
  destruct (refs !! b_blockno x) as [n|] eqn:Hn; [|done].
  destruct (so_refs _ _ _ H _ _ Hn) as [Hint _]. unfold refs_of in He. rewrite Hn in He.
  simpl in He. rewrite Hr in He. symmetry in He. apply u32_eq_0 in He; [|done]. subst.
  by destruct (Hnz (b_blockno x)).
Qed.

Lemma bc_ok_slot_put refs s l i x x' bno :
  bc_ok s l -> slot s i x -> reusable refs s x bno -> b_dev x' = ROOTDEV -> b_blockno x' = bno ->
  b_next x' = b_next x -> b_prev x' = b_prev x -> sl_lk (b_lock x') = false ->
  bc_ok (put i x' s) l.
Proof.
  intros H Hi Hr Hd Hb Hn Hp Hk. destruct Hi as [Hi0 Hx].
  apply (bc_ok_put s l i x x'); try done.
  intros _ _ j z Hj Hji Hz Hdz Hbz. apply Hji.
  apply (reusable_unique refs s l i x bno j z); try congruence; by split.
Qed.

Lemma slots_ok_update refs hs s l refs' hs' i x x' bno :
  bc_ok s l -> slots_ok refs hs s -> slot s i x -> reusable refs s x bno ->
  b_dev x' = ROOTDEV -> b_blockno x' = bno -> 0 <= bno < LOGICAL_DISK_SIZE ->
  (forall b, b <> bno -> refs' !! b = refs !! b) ->
  (forall b, b <> bno -> (b ∈ hs' <-> b ∈ hs)) ->
  b_refcnt x' = u32 (refs_of refs' bno) ->
  b_lock x' = (if decide (bno ∈ hs') then held (cur_pid s) else no_lock) ->
  (is_Some (refs' !! bno) -> b_valid x' = true) ->
  (forall n, refs' !! bno = Some n -> is_int n) ->
  (bno ∈ hs' -> is_Some (refs' !! bno)) ->
  (b_valid x' = true -> refs' !! bno = None -> disk_read s bno = Some (b_data x')) ->
  slots_ok refs' hs' (put i x' s).
Proof.
  intros Hbc H Hi Hr Hd Hb Hlog Hrefs Hhs Hrc Hlk Hval Hpos Hheld Hclean.
  pose proof (proj1 Hi) as Hi0.
  assert (Hother : forall j y, j <> i -> slot s j y -> b_dev y = ROOTDEV -> b_blockno y <> bno).
  { intros j y Hji Hj Hdy Hby. apply Hji. by eapply (reusable_unique refs s l i x bno j y). }
  constructor.
  - intros j y [[-> ->]|[Hji Hj]]%slot_put; [| |done].
    + right. rewrite Hb. done.
    + destruct (so_slot _ _ _ H j y Hj) as [Ho|(Hdy & Hry & Hly & Hvy & Hby)]; [by left|right].
      pose proof (Hother j y Hji Hj Hdy) as Hne.
      split; [done|]. split; [unfold refs_of; by rewrite Hrefs|].
      split; [|by rewrite Hrefs].
      cbn [put set_bufs cur_pid]. rewrite Hly. by rewrite (decide_ext _ _ _ _ (Hhs _ Hne)).
  - intros b n Hn. destruct (decide (b = bno)) as [->|Hne].
    { split; [by apply Hpos|]. exists i, x'. split; [apply slot_put; [done|by left]|done]. }
    rewrite Hrefs in Hn by done. destruct (so_refs _ _ _ H b n Hn) as (Hr1 & j & y & Hj & Hdy & Hby).
    split; [done|]. exists j, y. split; [|done]. apply slot_put; [done|]. right.
    split; [|done]. intros ->. destruct Hi as [_ Hx], Hj as [_ Hy]. simplify_eq.
    destruct Hr as [[_ Hbx]|[Hr0 _]]; [done|]. by rewrite Hr0 in Hn.
  - intros b Hbh. destruct (decide (b = bno)) as [->|Hne]; [by apply Hheld|].
    rewrite Hrefs by done. apply (so_held _ _ _ H). by apply Hhs.
  - intros j y [[-> ->]|[Hji Hj]]%slot_put Hdy Hvy Hn; [| |done].
    + rewrite Hb in *. by apply Hclean.
    + rewrite Hrefs in Hn by by apply (Hother j y).
      by apply (so_clean _ _ _ H j y).
Qed.

Lemma view_put refs hs s l i x x' bno b :
  bc_ok s l -> slots_ok refs hs s -> slot s i x -> reusable refs s x bno ->
  b_dev x' = ROOTDEV -> b_blockno x' = bno -> bc_ok (put i x' s) l ->
  view (put i x' s) b =
    if decide (b = bno) then (if b_valid x' then Some (b_data x') else disk_read s bno)
    else view s b.
Proof.
  intros Hbc H Hi Hr Hd Hb Hbc'. pose proof (proj1 Hi) as Hi0.
  destruct (decide (b = bno)) as [->|Hne].
  { rewrite <- Hb. rewrite (view_slot _ l i x'); [done|done| |done]. apply slot_put; [done|by left]. }
  destruct (slot_dec s l ROOTDEV b Hbc) as [(j & y & Hj & Hdy & <-)|Hno].
  - rewrite (view_slot s l j y) by done. destruct (decide (j = i)) as [->|Hji].
    + destruct Hi as [_ Hx], Hj as [_ Hy]. simplify_eq.
      destruct Hr as [[_ Hbx]|[Hr0 _]]; [done|].
      rewrite (view_no_slot _ l).
      * destruct (b_valid x) eqn:Hv; [|done]. symmetry.
        rewrite <- (so_clean _ _ _ H i x) by first [done | by apply Hr0]. done.
      * done.
      * intros k z [[-> ->]|[Hki Hk]]%slot_put Hdz Hbz; [congruence| |done].
        apply Hki. destruct Hk as [Hk0 Hz].
        apply (ok_uniq _ _ Hbc k i z x); try congruence. by rewrite Hdz.
    + rewrite (view_slot _ l j y); [done|done| |done]. apply slot_put; [done|by right].
  - rewrite (view_no_slot s l b) by done. rewrite (view_no_slot _ l b Hbc'); [done|].
    intros k z [[-> ->]|[Hki Hk]]%slot_put Hdz Hbz; [congruence| |done]. by apply (Hno k z).
Qed.

Lemma handle_put s i x' j bno d :
  i <> head -> j <> i -> handle s j bno d -> handle (put i x' s) j bno d.
Proof.
  intros Hi Hji (y & Hy & Hrest). exists y. split; [|done]. apply slot_put; [done|by right].
Qed.

Lemma handle_same_slots s s' i bno d :
  same_slots s s' -> handle s i bno d -> handle s' i bno d.
Proof.
  intros Hsl (x & [Hi Hx] & Hd & Hb & Hv & Hda).
  destruct (same_slots_lookup _ _ i x Hsl Hx) as (y & Hy & He).
  apply strip_eq in He as (E1 & E2 & E3 & _ & _ & E6).
  exists y. split; [by split|]. repeat split; congruence.
Qed.

Lemma handle_bno s l i b1 d1 b2 d2 :
  bc_ok s l -> handle s i b1 d1 -> handle s i b2 d2 -> b1 = b2 /\ d1 = d2.
Proof. intros _ (x & [_ Hx] & _ & <- & _ & <-) (y & [_ Hy] & _ & <- & _ & <-). by simplify_eq. Qed.

Lemma handle_idx s l i j b d1 d2 :
  bc_ok s l -> handle s i b d1 -> handle s j b d2 -> i = j.
Proof.
  intros H (x & [Hi Hx] & Hd & Hb & _) (y & [Hj Hy] & Hd' & Hb' & _).
  apply (ok_uniq _ _ H i j x y); try congruence. by rewrite Hd.
Qed.

Lemma handle_view s l i bno d : bc_ok s l -> handle s i bno d -> view s bno = Some d.
Proof.
  intros H (x & Hs & Hd & <- & Hv & <-). by rewrite (view_slot s l i x), Hv.
Qed.

(** A free buffer exists while fewer than [NBUF] blocks are referenced. *)
Lemma free_exists refs hs s l :
  bc_ok s l -> slots_ok refs hs s -> Z.of_nat (size refs) < NBUF ->
  exists b x, List.find (unused s) (reverse l) = Some b /\ slot s b x /\ b_refcnt x = 0.
Proof.
  intros Hbc H Hsz. destruct (List.find (unused s) (reverse l)) as [b|] eqn:Hf.
  - apply List.find_some in Hf as [Hin Hu]. rewrite <- list_elem_of_In, elem_of_reverse in Hin.
    unfold unused in Hu. destruct (bufs s !! b) as [x|] eqn:Hx; [|done]. zbool.
    exists b, x. split; [done|]. split; [|done]. split; [|done].
    apply (bc_elem s l b Hbc) in Hin. lia.
  - exfalso.
    assert (Hall : forall i, i ∈ l -> exists x n, slot s i x /\ b_dev x = ROOTDEV /\
      refs !! b_blockno x = Some n).
    { intros i Hi. destruct (bc_lookup s l i Hbc Hi) as [x Hx].
      assert (Hs : slot s i x) by (split; [apply (bc_elem s l i Hbc) in Hi; lia|done]).
      eapply List.find_none in Hf; [|rewrite <- list_elem_of_In, elem_of_reverse; exact Hi].
      unfold unused in Hf. rewrite Hx in Hf. zbool.
      destruct (so_slot _ _ _ H i x Hs) as [(_ & ? & _)|(Hd & Hr & _)]; [done|].
      unfold refs_of in Hr. destruct (refs !! b_blockno x) as [n|] eqn:Hn; [|done].
      by exists x, n. }
    set (key := fun i => from_option b_blockno 0 (bufs s !! i)).
    assert (Hnd : NoDup (key <$> l)).
    { apply NoDup_fmap_2_strong; [|destruct (ok_ring _ _ Hbc) as [Hn _];
        by apply list.NoDup_cons in Hn as [_ Hn]].
      intros i j Hi Hj Heq. destruct (Hall i Hi) as (x & _ & [Hi0 Hx] & Hdx & _).
      destruct (Hall j Hj) as (y & _ & [Hj0 Hy] & Hdy & _).
      unfold key in Heq. rewrite Hx, Hy in Heq. simpl in Heq.
      apply (ok_uniq _ _ Hbc i j x y); try congruence. by rewrite Hdx. }
    assert (Hsub : list_to_set (key <$> l) ⊆ dom refs).
    { intros b. rewrite elem_of_list_to_set, list_elem_of_fmap. intros (i & -> & Hi).
      destruct (Hall i Hi) as (x & n & [_ Hx] & _ & Hn). unfold key. rewrite Hx.
      by apply elem_of_dom_2 in Hn. }
    apply subseteq_size in Hsub. rewrite size_list_to_set, size_dom, length_fmap in Hsub by done.
    rewrite (ok_perm _ _ Hbc) in Hsub. unfold NBUF in *. rewrite length_seqZ in Hsub. lia.
Qed.

(** *** The laws *)

Lemma disk_read_put s i x : disk_read (put i x s) = disk_read s.
Proof. done. Qed.

Lemma bread_fresh_ok refs hs s l bno :
  bc_ok s l -> slots_ok refs hs s -> bno ∉ hs -> 0 <= bno < LOGICAL_DISK_SIZE ->
  (is_Some (refs !! bno) \/ Z.of_nat (size refs) < NBUF) ->
  (forall b, refs !! b <> Some 0) -> refs_of refs bno < INT_MAX ->
  exists b x, bget ROOTDEV bno s = Ret b (put b x s) /\ slot s b (from_option id x (bufs s !! b)) /\
    reusable refs s (from_option id x (bufs s !! b)) bno /\
    b_dev x = ROOTDEV /\ b_blockno x = bno /\ b_lock x = held (cur_pid s) /\
    b_refcnt x = u32 (refs_of refs bno + 1) /\
    b_next x = b_next (from_option id x (bufs s !! b)) /\
    b_prev x = b_prev (from_option id x (bufs s !! b)) /\
    (b_valid x = true -> view s bno = Some (b_data x)) /\
    (b_valid x = false -> view s bno = disk_read s bno).
Proof.
  intros Hbc H Hni Hlog Hfree Hnz Hcnt.
  destruct (slot_dec s l ROOTDEV bno Hbc) as [(i & x & Hs & Hd & <-)|Hno].
  - pose proof (find_slot s l ROOTDEV i x l Hbc Hs Hd ltac:(done) ltac:(done)) as Hf.
    destruct (so_slot _ _ _ H i x Hs) as [(Hd0 & _)|(_ & Hr & Hl & Hv & _)]; [by rewrite Hd in Hd0|].
    rewrite decide_False in Hl by done. destruct Hs as [Hi0 Hx].
    eexists i, _. split; [apply (bget_hit s l _ _ i x); [done|done|done|by rewrite Hl]|].
    rewrite Hx. simpl. split_and!; try done.
    + by left.
    + rewrite Hr. apply u32_add_u32.
    + intros Hvx. by rewrite (view_slot s l i x), Hvx by done.
    + intros Hvx. by rewrite (view_slot s l i x), Hvx by done.
  - assert (Hn : refs !! bno = None).
    { destruct (refs !! bno) as [n|] eqn:Hn; [|done].
      destruct (so_refs _ _ _ H _ _ Hn) as (_ & i & x & Hs & Hd & Hb). by destruct (Hno i x). }
    destruct Hfree as [[n Hn']|Hsz]; [congruence|].
    destruct (free_exists refs hs s l Hbc H Hsz) as (b & x & Hf & Hs & Hr0).
    pose proof (find_no_slot s l ROOTDEV bno l Hbc Hno ltac:(done)) as Hfn.
    assert (Hlk : b_lock x = no_lock).
    { destruct (so_slot _ _ _ H b x Hs) as [(_ & _ & ?)|(Hd & Hr & Hl & _)]; [done|].
      rewrite Hl. rewrite decide_False; [done|]. intros Hin.
      destruct (so_held _ _ _ H _ Hin) as [n Hn'].
      by rewrite (free_slot_refs refs hs s b x) in Hn' by done. }
    pose proof (free_slot_refs refs hs s b x H Hnz Hs Hr0) as Hnone.
    destruct Hs as [Hi0 Hx].
    eexists b, _. split; [apply (bget_miss s l _ _ b x); [done|done|done|done|by rewrite Hlk]|].
    rewrite Hx. simpl. split_and!; try done.
    + by right.
    + unfold refs_of. by rewrite Hn.
    + intros _. by apply (view_no_slot s l).
Qed.

(** What [bread] promises. *)
Definition bread_post (refs : gmap Z Z) (hs : gset Z) (s : bstate) (bno : Z) (d : block)
    (b : Z) (s' : bstate) : Prop :=
  cache_rel (<[bno := refs_of refs bno + 1]> refs) ({[bno]} ∪ hs) s' /\ handle s' b bno d /\
  same_view s s' /\ cache_only s s' /\ keeps_handles hs s s'.

Lemma cache_only_refl s : cache_only s s.
Proof. done. Qed.

Lemma same_view_refl s : same_view s s.
Proof. done. Qed.

Lemma bread_spec refs hs s bno d :
  cache_rel refs hs s -> bno ∉ hs -> 0 <= bno < LOGICAL_DISK_SIZE ->
  (is_Some (refs !! bno) \/ Z.of_nat (size refs) < NBUF) ->
  (forall b, refs !! b <> Some 0) -> refs_of refs bno < INT_MAX -> view s bno = Some d ->
  wp (bread ROOTDEV bno) s (bread_post refs hs s bno d).
Proof.
  intros [[l Hbc] H] Hni Hlog Hfree Hnz Hcnt Hd.
  destruct (bread_fresh_ok refs hs s l bno) as
    (b & x & Hg & Hs & Hre & Hdx & Hbx & Hlx & Hrx & Hnx & Hpx & Hval & Hinv); try done.
  set (x0 := from_option id x (bufs s !! b)) in *.
  assert (Hint : is_int (refs_of refs bno)).
  { unfold refs_of. destruct (refs !! bno) as [n|] eqn:Hn; [|done].
    by destruct (so_refs _ _ _ H _ _ Hn). }
  (* the slot once it holds valid data *)
  assert (Hgen : forall x1, b_dev x1 = ROOTDEV -> b_blockno x1 = bno -> b_valid x1 = true ->
    b_data x1 = d -> b_lock x1 = b_lock x -> b_refcnt x1 = b_refcnt x ->
    b_next x1 = b_next x -> b_prev x1 = b_prev x ->
    bread_post refs hs s bno d b (put b x1 s)).
  { intros x1 E1 E2 E3 E4 E5 E6 E7 E8.
    assert (Hbc1 : bc_ok (put b x1 s) l).
    { apply (bc_ok_slot_put refs s l b x0 x1 bno); try congruence. by rewrite E5, Hlx. }
    split; [split; [by exists l|]|split; [|split; [|split]]].
    - apply (slots_ok_update refs hs s l _ _ b x0 x1 bno); try done.
      + intros b' Hb'. by rewrite lookup_insert_ne.
      + intros b' Hb'. set_solver.
      + unfold refs_of at 1. rewrite lookup_insert_eq. simpl. congruence.
      + rewrite decide_True by set_solver. congruence.
      + intros n. rewrite lookup_insert_eq. intros [= <-]. unfold is_int in *. lia.
      + intros _. rewrite lookup_insert_eq. by eexists.
      + intros _. by rewrite lookup_insert_eq.
    - exists x1. split; [|done]. apply slot_put; [apply Hs|by left].
    - intros b' _. rewrite (view_put refs hs s l b x0 x1 bno) by done.
      case_decide; [subst b'|done]. by rewrite E3, Hd, E4.
    - done.
    - intros j bno' d' Hin Hh. apply handle_put; [apply Hs| |done].
      intros ->. destruct Hh as (y & Hy & Hdy & Hby & _).
      assert (y = x0) as -> by (destruct Hy as [_ Hy], Hs as [_ Hs]; congruence).
      destruct Hre as [[_ Hbe]|[Hr0 _]]; [set_solver|].
      destruct (so_held _ _ _ H bno' Hin) as [n Hn]. rewrite <- Hby in Hn.
      by rewrite (Hr0 Hdy) in Hn. }
  destruct (b_valid x) eqn:Hv.
  - rewrite Hval in Hd by done. injection Hd as Hd.
    eapply wp_eq; [apply (bread_valid s _ _ _ b x Hg); [apply lookup_put_eq|done]|].
    apply Hgen; done.
  - rewrite Hinv in Hd by done.
    eapply wp_eq.
    { apply (bread_fill s _ _ bno b x d Hg); [apply lookup_put_eq|done|done| |done].
      rewrite LOGICAL_eq in Hlog. lia. }
    rewrite put_put.
    set (e := EvRead _). set (x1 := set_valid true (set_data d x)).
    destruct (Hgen x1) as (Hrel & Hh & Hvw & Hco & Hkeep); try done.
    set (s1 := put b x1 s) in *.
    assert (Hsl : same_slots s1 (emit e s1)) by done.
    destruct Hrel as [[l1 Hb1] Hso].
    assert (Hb2 : bc_ok (emit e s1) l1) by (apply (bc_ok_slots s1 _ l1 l1); try done; apply Hb1).
    split; [|split; [|split; [|split]]].
    + split; [by exists l1|]. by apply (slots_ok_same _ _ s1).
    + by apply (handle_same_slots s1).
    + intros b' Hb'. rewrite (view_same_slots s1 (emit e s1) l1 l1) by done. by apply Hvw.
    + done.
    + intros i b' d' Hin Hh'. apply (handle_same_slots s1); [done|]. by apply Hkeep.
Qed.

(** Writing the data of a held buffer: [memmove] into [b->data]. *)
Lemma set_data_spec refs hs s b bno d d' :
  cache_rel refs hs s -> bno ∈ hs -> handle s b bno d ->
  wp (updb b (set_data d')) s (fun _ s' =>
    cache_rel refs hs s' /\ handle s' b bno d' /\ cache_only s s' /\
    (forall b', view s' b' = if decide (b' = bno) then Some d' else view s b') /\
    keeps_handles (hs ∖ {[bno]}) s s').
Proof.
  intros [[l Hbc] H] Hin (x & Hs & Hd & Hb & Hv & Hda).
  eapply wp_eq; [apply updb_eq, Hs|]. set (x1 := set_data d' x).
  destruct (so_slot _ _ _ H b x Hs) as [(Hd0 & _)|(_ & Hr & Hl & Hvx & Hlog)]; [by rewrite Hd in Hd0|].
  assert (Hre : reusable refs s x bno) by by left.
  rewrite Hb in *. rewrite decide_True in Hl by done.
  assert (Hbc1 : bc_ok (put b x1 s) l).
  { apply (bc_ok_slot_put refs s l b x x1 bno); try done. simpl. by rewrite Hl. }
  destruct (so_held _ _ _ H bno Hin) as [n Hn].
  split; [split; [by exists l|]|split; [|split; [|split]]].
  - apply (slots_ok_update refs hs s l _ _ b x x1 bno); try done.
    + simpl. by rewrite decide_True.
    + intros n' Hn'. by destruct (so_refs _ _ _ H _ _ Hn').
    + intros _ Hn'. congruence.
  - exists x1. split; [|done]. apply slot_put; [apply Hs|by left].
  - done.
  - intros b'. rewrite (view_put refs hs s l b x x1 bno) by done. case_decide; [|done].
    simpl. by rewrite Hv.
  - intros j bno' d'' Hin' Hh. apply handle_put; [apply Hs| |done]. intros ->.
    assert (Hh0 : handle s b bno d) by by exists x.
    destruct (handle_bno s l b bno d bno' d'' Hbc Hh0 Hh) as [-> _]. set_solver.
Qed.

Lemma brelse_spec refs hs s b bno d n :
  cache_rel refs hs s -> bno ∈ hs -> handle s b bno d -> refs !! bno = Some n ->
  INT_MIN < n -> (n = 1 -> disk_read s bno = Some d) ->
  wp (brelse b) s (fun _ s' =>
    cache_rel (if n =? 1 then delete bno refs else <[bno := n - 1]> refs) (hs ∖ {[bno]}) s' /\
    cache_only s s' /\ same_view s s' /\ keeps_handles (hs ∖ {[bno]}) s s').
Proof.
  intros [[l Hbc] H] Hin Hh Hn Hmin Hcl. pose proof Hh as (x & Hs & Hd & Hb & Hv & Hda).
  destruct (so_slot _ _ _ H b x Hs) as [(Hd0 & _)|(_ & Hr & Hl & Hvx & Hlog)]; [by rewrite Hd in Hd0|].
  rewrite Hb in *. rewrite decide_True in Hl by done.
  destruct (so_refs _ _ _ H _ _ Hn) as [Hnr _]. unfold refs_of in Hr. rewrite Hn in Hr. simpl in Hr.
  destruct (brelse_run s l b x Hbc (slot_elem s l b x Hbc Hs) (proj2 Hs) Hl)
    as (s' & Hrun & Hbc' & Hsl & E1 & E2 & E3 & E4 & E5).
  eapply wp_eq; [done|]. set (x1 := released x) in *. set (s1 := put b x1 s) in *.
  set (refs' := if n =? 1 then delete bno refs else <[bno := n - 1]> refs).
  assert (Hrc : b_refcnt x1 = u32 (n - 1)) by (simpl; rewrite Hr; apply u32_sub_u32).
  assert (Hrefs' : refs' !! bno = if n =? 1 then None else Some (n - 1)).
  { unfold refs'. destruct (n =? 1); [by rewrite lookup_delete_eq|by rewrite lookup_insert_eq]. }
  assert (Hre : reusable refs s x bno) by by left.
  assert (Hbc1 : bc_ok s1 l) by by apply (bc_ok_slot_put refs s l b x x1 bno).
  assert (H1 : slots_ok refs' (hs ∖ {[bno]}) s1).
  { apply (slots_ok_update refs hs s l _ _ b x x1 bno); try done.
    - intros b' Hb'. unfold refs'. destruct (n =? 1);
        [by rewrite lookup_delete_ne|by rewrite lookup_insert_ne].
    - intros b' Hb'. set_solver.
    - rewrite Hrc. unfold refs_of. rewrite Hrefs'. destruct (Z.eqb_spec n 1); [by subst|done].
    - rewrite decide_False by set_solver. done.
    - intros n'. rewrite Hrefs'. destruct (Z.eqb_spec n 1); [done|]. intros [= <-].
      unfold is_int in *. lia.
    - set_solver.
    - intros _. rewrite Hrefs'. destruct (Z.eqb_spec n 1); [|done]. intros _. simpl.
      rewrite Hda. by apply Hcl. }
  assert (Hdr : disk_read s' = disk_read s1) by (unfold disk_read; by rewrite E1, E2, E3).
  split; [split; [by eexists|]|split; [|split]].
  - by apply (slots_ok_same _ _ s1).
  - unfold cache_only, writes. by rewrite E1, E2, E3, E4, E5.
  - intros b' _. rewrite (view_same_slots s1 s' l _ Hbc1 Hbc' Hsl Hdr b').
    rewrite (view_put refs hs s l b x x1 bno) by done. case_decide; [subst b'|done].
    simpl. rewrite Hv, Hda. symmetry. by apply (handle_view s l b).
  - intros j bno' d'' Hin' Hh'. apply (handle_same_slots s1); [done|].
    apply handle_put; [apply Hs| |done]. intros ->.
    destruct (handle_bno s l b bno d bno' d'' Hbc Hh Hh') as [-> _]. set_solver.
Qed.

(** Changing the reference count of a block that stays referenced. *)
Lemma recount_spec refs hs s b bno d n n' (f : buf -> buf) :
  cache_rel refs hs s -> handle s b bno d -> refs !! bno = Some n ->
  is_int n' -> (forall x, b_refcnt x = u32 n -> f x = set_refcnt (u32 n') x) ->
  wp (spin_acquire bcache_lock ;;; updb b f ;;; spin_release bcache_lock) s (fun _ s' =>
    cache_rel (<[bno := n']> refs) hs s' /\ cache_only s s' /\ same_view s s' /\
    keeps_handles hs s s').
Proof.
  intros [[l Hbc] H] Hh Hn Hn' Hf. pose proof Hh as (x & Hs & Hd & Hb & Hv & Hda).
  destruct (so_slot _ _ _ H b x Hs) as [(Hd0 & _)|(_ & Hr & Hl & Hvx & Hlog)]; [by rewrite Hd in Hd0|].
  rewrite Hb in *. unfold refs_of in Hr. rewrite Hn in Hr. simpl in Hr.
  set (x1 := set_refcnt (u32 n') x).
  assert (Hrun : (spin_acquire bcache_lock ;;; updb b f ;;; spin_release bcache_lock) s =
    Ret tt (put b x1 s)).
  { pose proof (ok_unlocked _ _ Hbc) as Hlk. rewrite (bind_eq _ _ _ _ _ (bcache_acquire s Hlk)).
    rewrite (bind_eq _ _ _ _ _ (updb_eq b f x (set_bc_lock true s) (proj2 Hs))).
    rewrite bcache_release by done. rewrite unlock_put, Hf by done. done. }
  eapply wp_eq; [done|]. assert (Hre : reusable refs s x bno) by by left.
  assert (Hsl : sl_lk (b_lock x1) = false) by (simpl; rewrite Hl; by case_decide).
  assert (Hbc1 : bc_ok (put b x1 s) l) by by apply (bc_ok_slot_put refs s l b x x1 bno).
  split; [split; [by exists l|]|split; [done|split]].
  - apply (slots_ok_update refs hs s l _ _ b x x1 bno); try done.
    + intros b' Hb'. by rewrite lookup_insert_ne.
    + unfold refs_of. by rewrite lookup_insert_eq.
    + intros m. rewrite lookup_insert_eq. by intros [= <-].
    + intros _. rewrite lookup_insert_eq. by eexists.
    + intros _. by rewrite lookup_insert_eq.
  - intros b' _. rewrite (view_put refs hs s l b x x1 bno) by done.
    destruct (decide (b' = bno)) as [->|]; [|done].
    simpl. rewrite Hv, Hda. symmetry. by apply (handle_view s l b).
  - intros j bno' d'' Hin' Hh'. destruct (decide (j = b)) as [->|Hne].
    + destruct (handle_bno s l b bno d bno' d'' Hbc Hh Hh') as [-> ->].
      exists x1. split; [|done]. apply slot_put; [apply Hs|by left].
    + apply handle_put; [apply Hs|done|done].
Qed.

Lemma bpin_spec refs hs s b bno d n :
  cache_rel refs hs s -> handle s b bno d -> refs !! bno = Some n -> n < INT_MAX ->
  wp (bpin b) s (fun _ s' =>
    cache_rel (<[bno := n + 1]> refs) hs s' /\ cache_only s s' /\ same_view s s' /\
    keeps_handles hs s s').
Proof.
  intros Hrel Hh Hn Hmax. destruct (so_refs _ _ _ (proj2 Hrel) _ _ Hn) as [Hr _].
  apply (recount_spec refs hs s b bno d n); try done; [unfold is_int in *; lia|].
  intros x Hx. by rewrite Hx, u32_add_u32.
Qed.

Lemma bunpin_spec refs hs s b bno d n :
  cache_rel refs hs s -> handle s b bno d -> refs !! bno = Some n -> INT_MIN < n ->
  wp (bunpin b) s (fun _ s' =>
    cache_rel (<[bno := n - 1]> refs) hs s' /\ cache_only s s' /\ same_view s s' /\
    keeps_handles hs s s').
Proof.
  intros Hrel Hh Hn Hmin. destruct (so_refs _ _ _ (proj2 Hrel) _ _ Hn) as [Hr _].
  apply (recount_spec refs hs s b bno d n); try done; [unfold is_int in *; lia|].
  intros x Hx. by rewrite Hx, u32_sub_u32.
Qed.

(** The replica writes of one [bwrite], first one first. *)
Definition replica_writes (fail err bno : Z) (d : block) : list (Z * block) :=
  (if writes_primary fail err bno then [(bno, d)] else []) ++
  (if writes_mirror fail then [(bno + DISK1_START_BLOCK, d)] else []).

Lemma raid_events_writes fail err bno d :
  omap write_event (raid_events fail err bno d) = replica_writes fail err bno d.
Proof.
  unfold raid_events, replica_writes, writes_primary, writes_mirror.
  destruct (fail =? 0), (block_failed err bno), (fail =? 1); done.
Qed.

Lemma omap_reverse {A B} (f : A -> option B) l : omap f (reverse l) = reverse (omap f l).
Proof.
  induction l as [|a l IH]; [done|]. rewrite reverse_cons, omap_app, IH. simpl.
  destruct (f a); [by rewrite reverse_cons|by rewrite app_nil_r].
Qed.

Lemma raid_write_other fail err bno d dk b :
  b <> bno -> b <> bno + DISK1_START_BLOCK -> raid_write fail err bno d dk !! b = dk !! b.
Proof.
  intros H1 H2. unfold raid_write.
  destruct (writes_primary _ _ _), (writes_mirror _); by rewrite ?lookup_insert_ne.
Qed.

Definition disk_after (s s' : bstate) (bno : Z) (d : block) : Prop :=
  disk s' = raid_write (force_disk_fail_id s) (force_read_error_pbn s) bno d (disk s) /\
  writes s' = reverse (replica_writes (force_disk_fail_id s) (force_read_error_pbn s) bno d)
    ++ writes s /\
  force_disk_fail_id s' = force_disk_fail_id s /\
  force_read_error_pbn s' = force_read_error_pbn s /\ cur_pid s' = cur_pid s.

Lemma bwrite_spec refs hs s b bno d :
  cache_rel refs hs s -> bno ∈ hs -> handle s b bno d -> on_disk s bno ->
  wp (bwrite b) s (fun _ s' =>
    cache_rel refs hs s' /\ disk_after s s' bno d /\ same_view s s' /\ keeps_handles hs s s').
Proof.
  intros [[l Hbc] H] Hin Hh Hon. pose proof Hh as (x & Hs & Hd & Hb & Hv & Hda).
  destruct (so_slot _ _ _ H b x Hs) as [(Hd0 & _)|(_ & Hr & Hl & Hvx & Hlog)]; [by rewrite Hd in Hd0|].
  rewrite Hb in *. rewrite decide_True in Hl by done.
  eapply wp_eq.
  { apply (bwrite_mirrored s b x (proj2 Hs) Hl); by rewrite Hb. }
  rewrite Hb, Hda. set (s' := add_events _ _).
  assert (Hsl : same_slots s s') by done.
  assert (Hbc' : bc_ok s' l) by (apply (bc_ok_slots s s' l l); try done; apply Hbc).
  destruct (so_held _ _ _ H bno Hin) as [n Hn].
  assert (Hdr : forall b', 0 <= b' < LOGICAL_DISK_SIZE -> b' <> bno ->
    disk_read s' b' = disk_read s b').
  { intros b' Hb' Hne. unfold disk_read, s'. cbn [add_events set_disk disk force_disk_fail_id
      force_read_error_pbn]. unfold read_block. rewrite LOGICAL_eq in *.
    apply raid_write_other; rewrite DISK1_eq; destruct (use_mirror _ _ b'); lia. }
  split; [split; [by exists l|]|split; [|split]].
  - destruct H as [H1 H2 H3 H4]. constructor; try done.
    intros i y Hy Hdy Hvy Hny. rewrite Hdr; [by apply (H4 i y)| |congruence].
    destruct (H1 i y Hy) as [(Hd0 & _)|(_ & _ & _ & _ & ?)]; [by rewrite Hdy in Hd0|done].
  - unfold disk_after. split; [done|]. split; [|done]. unfold writes, s'. cbn [add_events trace].
    by rewrite omap_app, omap_reverse, raid_events_writes.
  - intros b' Hlb. destruct (slot_dec s l ROOTDEV b' Hbc) as [(i & y & Hy & Hdy & <-)|Hno].
    + rewrite (view_slot s l i y), (view_slot s' l i y) by done. destruct (b_valid y) eqn:Hvy; [done|].
      apply Hdr; [done|].
      * intros Heq. assert (i = b) as ->.
        { destruct Hy as [Hi0 Hy], Hs as [Hb0 Hx]. apply (ok_uniq _ _ Hbc i b y x); try congruence.
          by rewrite Hdy. }
        destruct Hy as [_ Hy], Hs as [_ Hx]. congruence.
    + rewrite (view_no_slot s l), (view_no_slot s' l) by done. apply Hdr; [done|].
      intros ->. by apply (Hno b x).
  - intros i b' d' _ Hh'. by apply (handle_same_slots s s').
Qed.

Lemma view_unreferenced refs hs s bno :
  cache_rel refs hs s -> refs !! bno = None -> view s bno = disk_read s bno.
Proof.
  intros [[l Hbc] H] Hn.
  destruct (slot_dec s l ROOTDEV bno Hbc) as [(i & x & Hs & Hd & <-)|Hno];
    [|by apply (view_no_slot s l)].
  rewrite (view_slot s l i x) by done. destruct (b_valid x) eqn:Hv; [|done].
  symmetry. by apply (so_clean _ _ _ H i x).
Qed.

(** ** The cache at boot *)

Definition zero_block : block := replicate 1024 0.
Definition bss_buf : buf := Buf false 0 0 no_lock 0 0 0 zero_block.
Definition bss_bufs : gmap Z buf := list_to_map ((fun i => (i, bss_buf)) <$> seqZ 0 (NBUF + 1)).

(** The machine when the kernel starts: zeroed buffers, no failure simulated. *)
Definition bio_boot (dk : gmap Z block) (pid : Z) : bstate :=
  BState dk bss_bufs false (-1) (-1) pid [].

Definition booted_bufs : gmap Z buf :=
  bufs (final (bio_boot ∅ 0) (binit (bio_boot ∅ 0))).

Lemma binit_run dk pid :
  binit (bio_boot dk pid) = Ret tt (BState dk booted_bufs false (-1) (-1) pid []).
Proof. vm_compute. reflexivity. Qed.

(** What the proofs need of a buffer after [binit]. *)
Definition boot_check (p : Z * buf) : bool :=
  (0 <=? p.1) && (p.1 <=? head) && negb (b_valid p.2) && (b_dev p.2 =? 0) &&
  (b_refcnt p.2 =? 0) && negb (sl_locked (b_lock p.2)) && negb (sl_lk (b_lock p.2)) &&
  (sl_pid (b_lock p.2) =? 0).

Lemma boot_check_spec p : boot_check p = true ->
  0 <= p.1 <= head /\ b_valid p.2 = false /\ b_dev p.2 = 0 /\ b_refcnt p.2 = 0 /\
  b_lock p.2 = no_lock.
Proof.
  unfold boot_check. intros H. zbool. destruct (b_lock p.2) as [k1 k2 k3]. simpl in *. subst.
  done.
Qed.

Lemma booted_check : forallb boot_check (map_to_list booted_bufs) = true.
Proof. vm_compute. reflexivity. Qed.

Lemma booted_lookup i x : booted_bufs !! i = Some x ->
  0 <= i <= head /\ b_valid x = false /\ b_dev x = 0 /\ b_refcnt x = 0 /\ b_lock x = no_lock.
Proof.
  intros Hx. apply (boot_check_spec (i, x)).
  pose proof booted_check as Hall. rewrite List.forallb_forall in Hall.
  apply Hall, list_elem_of_In, elem_of_map_to_list. exact Hx.
Qed.

Lemma booted_dom i : is_Some (booted_bufs !! i) <-> 0 <= i <= head.
Proof.
  split; [intros [x Hx]; by apply booted_lookup in Hx as [? _]|].
  intros Hi. assert (i ∈ seqZ 0 31) as Hin by (apply elem_of_seqZ; unfold head, NBUF in *; lia).
  assert (forallb (fun i => bool_decide (is_Some (booted_bufs !! i))) (seqZ 0 31) = true) as Hall
    by (vm_compute; reflexivity).
  rewrite List.forallb_forall in Hall. apply list_elem_of_In in Hin.
  specialize (Hall _ Hin). by apply bool_decide_eq_true in Hall.
Qed.

Lemma booted_ring : ring (nxm booted_bufs) (pvm booted_bufs) head (reverse (seqZ 0 NBUF)).
Proof.
  split.
  - apply list.NoDup_cons. rewrite reverse_Permutation. split; [|apply NoDup_seqZ].
    rewrite elem_of_seqZ. unfold head, NBUF. lia.
  - vm_compute. repeat split.
Qed.

Definition fresh_buf (i : Z) (x : buf) : Prop :=
  0 <= i <= head /\ b_valid x = false /\ b_dev x = 0 /\ b_refcnt x = 0 /\ b_lock x = no_lock.

Lemma fresh_ok m dk err fail pid l :
  (forall i x, m !! i = Some x -> fresh_buf i x) ->
  (forall i, is_Some (m !! i) <-> 0 <= i <= head) -> ring (nxm m) (pvm m) head l ->
  l ≡ₚ seqZ 0 NBUF -> cache_rel ∅ ∅ (BState dk m false err fail pid []).
Proof.
  intros Hm Hdom Hring Hperm. split; [exists l|]; constructor; cbn [bufs bc_lock]; try done.
  - intros i x Hx. apply Hm in Hx as (_ & _ & _ & _ & ->). reflexivity.
  - intros i j x y _ _ Hx _ Hd. exfalso. apply Hm in Hx as (_ & _ & Hd' & _). done.
  - intros i x [_ Hx]. apply Hm in Hx as (_ & _ & Hd & Hr & Hl). left. done.
  - intros i x [_ Hx] Hd. apply Hm in Hx as (_ & _ & Hd' & _). by rewrite Hd in Hd'.
Qed.

(** [binit] establishes the contract, with no reference held. *)
Lemma binit_spec dk pid :
  wp binit (bio_boot dk pid) (fun _ s' => cache_rel ∅ ∅ s' /\
    disk s' = dk /\ force_disk_fail_id s' = -1 /\ force_read_error_pbn s' = -1 /\
    cur_pid s' = pid /\ writes s' = []).
Proof.
  apply (wp_eq binit (bio_boot dk pid) _ tt _ (binit_run dk pid)).
  refine (conj (fresh_ok booted_bufs dk (-1) (-1) pid (reverse (seqZ 0 NBUF)) booted_lookup booted_dom
    booted_ring (reverse_Permutation _)) _).
  exact (conj eq_refl (conj eq_refl (conj eq_refl (conj eq_refl eq_refl)))).
Qed.

(** The interface of the cache: [rel refs hs s] says that the kernel holds
    [refs] references and the locks of [hs]; the laws are what [Log] and [Fs]
    rely on. *)
Class BlockCache (rel : gmap Z Z -> gset Z -> bstate -> Prop) := {
  law_binit : forall dk pid s, s = bio_boot dk pid -> wp binit s (fun _ s' => rel ∅ ∅ s' /\
    disk s' = dk /\ force_disk_fail_id s' = -1 /\ force_read_error_pbn s' = -1 /\
    cur_pid s' = pid /\ writes s' = []);
  law_view : forall refs hs s bno, rel refs hs s -> 0 <= bno < LOGICAL_DISK_SIZE ->
    refs !! bno = None -> view s bno = disk_read s bno;
  law_handle : forall refs hs s i bno d, rel refs hs s -> handle s i bno d -> view s bno = Some d;
  law_distinct : forall refs hs s i b1 d1 b2 d2, rel refs hs s ->
    handle s i b1 d1 -> handle s i b2 d2 -> b1 = b2 /\ d1 = d2;
  law_refs : forall refs hs s bno n, rel refs hs s -> refs !! bno = Some n ->
    is_int n /\ 0 <= bno < LOGICAL_DISK_SIZE;
  law_held : forall refs hs s bno, rel refs hs s -> bno ∈ hs -> is_Some (refs !! bno);
  law_bread : forall refs hs s bno d, rel refs hs s -> bno ∉ hs ->
    0 <= bno < LOGICAL_DISK_SIZE -> (is_Some (refs !! bno) \/ Z.of_nat (size refs) < NBUF) ->
    (forall b, refs !! b <> Some 0) -> refs_of refs bno < INT_MAX -> view s bno = Some d ->
    wp (bread ROOTDEV bno) s (fun b s' =>
      rel (<[bno := refs_of refs bno + 1]> refs) ({[bno]} ∪ hs) s' /\ handle s' b bno d /\
      same_view s s' /\ cache_only s s' /\ keeps_handles hs s s');
  law_set_data : forall refs hs s b bno d d', rel refs hs s -> bno ∈ hs -> handle s b bno d ->
    wp (updb b (set_data d')) s (fun _ s' =>
      rel refs hs s' /\ handle s' b bno d' /\ cache_only s s' /\
      (forall b', view s' b' = if decide (b' = bno) then Some d' else view s b') /\
      keeps_handles (hs ∖ {[bno]}) s s');
  law_bwrite : forall refs hs s b bno d, rel refs hs s -> bno ∈ hs -> handle s b bno d ->
    on_disk s bno ->
    wp (bwrite b) s (fun _ s' =>
      rel refs hs s' /\ disk_after s s' bno d /\ same_view s s' /\ keeps_handles hs s s');
  law_brelse : forall refs hs s b bno d n, rel refs hs s -> bno ∈ hs -> handle s b bno d ->
    refs !! bno = Some n -> INT_MIN < n -> (n = 1 -> disk_read s bno = Some d) ->
    wp (brelse b) s (fun _ s' =>
      rel (if n =? 1 then delete bno refs else <[bno := n - 1]> refs) (hs ∖ {[bno]}) s' /\
      cache_only s s' /\ same_view s s' /\ keeps_handles (hs ∖ {[bno]}) s s');
  law_bpin : forall refs hs s b bno d n, rel refs hs s -> handle s b bno d ->
    refs !! bno = Some n -> n < INT_MAX ->
    wp (bpin b) s (fun _ s' =>
      rel (<[bno := n + 1]> refs) hs s' /\ cache_only s s' /\ same_view s s' /\
      keeps_handles hs s s');
  law_bunpin : forall refs hs s b bno d n, rel refs hs s -> handle s b bno d ->
    refs !! bno = Some n -> INT_MIN < n ->
    wp (bunpin b) s (fun _ s' =>
      rel (<[bno := n - 1]> refs) hs s' /\ cache_only s s' /\ same_view s s' /\
      keeps_handles hs s s')
}.

#[export] Instance bio_block_cache : BlockCache cache_rel.
Proof.
  constructor.
  - intros dk pid s ->. exact (binit_spec dk pid).
  - intros refs hs s bno H _. by apply (view_unreferenced refs hs).
  - intros refs hs s i bno d [[l Hbc] _]. by apply handle_view with l.
  - intros refs hs s i b1 d1 b2 d2 [[l Hbc] _]. by apply handle_bno with l.
  - intros refs hs s bno n [[l Hbc] H] Hn.
    destruct (so_refs _ _ _ H _ _ Hn) as (Hr & i & x & Hs & Hd & <-). split; [done|].
    destruct (so_slot _ _ _ H i x Hs) as [(Hd0 & _)|(_ & _ & _ & _ & ?)];
      [by rewrite Hd in Hd0|done].
  - intros refs hs s bno [_ H]. apply (so_held _ _ _ H).
  - apply bread_spec.
  - apply set_data_spec.
  - apply bwrite_spec.
  - apply brelse_spec.
  - apply bpin_spec.
  - apply bunpin_spec.
Qed.

(** ** Correctness *)

(** What a write under the flags [fail], [err] leaves on the replica that a
    read under [fail'], [err'] selects. *)
Definition survives (fail err fail' err' bno : Z) : bool :=
  if use_mirror fail' err' bno then writes_mirror fail else writes_primary fail err bno.

Lemma raid_write_read fail err fail' err' bno d dk :
  0 <= bno < LOGICAL_DISK_SIZE ->
  raid_write fail err bno d dk !! read_block fail' err' bno =
    if survives fail err fail' err' bno then Some d else dk !! read_block fail' err' bno.
Proof.
  rewrite LOGICAL_eq. intros Hb. unfold raid_write, read_block, survives. rewrite DISK1_eq.
  destruct (use_mirror fail' err' bno), (writes_mirror fail), (writes_primary fail err bno);
    rewrite ?lookup_insert_eq; try done;
    rewrite ?lookup_insert_ne by lia; rewrite ?lookup_insert_eq; done.
Qed.

(** A block that is not referenced is read from the disk. *)
Lemma bread_uncached refs hs s bno d :
  cache_rel refs hs s -> refs !! bno = None -> Z.of_nat (size refs) < NBUF ->
  (forall b, refs !! b <> Some 0) -> 0 <= bno < LOGICAL_DISK_SIZE -> disk_read s bno = Some d ->
  wp (bread ROOTDEV bno) s (fun b s' => handle s' b bno d).
Proof.
  intros Hrel Hn Hsz Hnz Hb Hd. eapply wp_mono.
  - apply (bread_spec refs hs s bno d); try done.
    + intros Hin. destruct (so_held _ _ _ (proj2 Hrel) bno Hin) as [n ?]. congruence.
    + by right.
    + unfold refs_of. by rewrite Hn.
    + by rewrite (view_unreferenced refs hs).
  - intros b s' (_ & Hh & _). done.
Qed.

Lemma handle_logical refs hs s i bno d :
  cache_rel refs hs s -> handle s i bno d -> 0 <= bno < LOGICAL_DISK_SIZE.
Proof.
  intros [_ H] (x & Hs & Hd & <- & _).
  destruct (so_slot _ _ _ H i x Hs) as [(Hd0 & _)|(_ & _ & _ & _ & ?)]; [by rewrite Hd in Hd0|done].
Qed.

(** C4: RAID-1.  Write a logical block, and later read it from the disk
    (after its buffer was evicted, or in a cache that never held it), possibly
    under other simulated failures than the write: the read returns the data
    written exactly when the write reached the replica that the read selects,
    and otherwise what that replica held before the write. *)
Theorem raid_read_after_write refs hs s b bno d :
  cache_rel refs hs s -> bno ∈ hs -> handle s b bno d -> on_disk s bno ->
  wp (bwrite b) s (fun _ s1 => forall refs2 hs2 s2,
    disk s2 = disk s1 -> cache_rel refs2 hs2 s2 -> refs2 !! bno = None ->
    Z.of_nat (size refs2) < NBUF -> (forall b, refs2 !! b <> Some 0) ->
    wp (bread ROOTDEV bno) s2 (fun b2 s3 => exists d',
      handle s3 b2 bno d' /\
      if survives (force_disk_fail_id s) (force_read_error_pbn s)
                  (force_disk_fail_id s2) (force_read_error_pbn s2) bno
      then d' = d
      else disk_read (set_disk (disk s) s2) bno = Some d')).
Proof.
  intros Hrel Hin Hh Hon. pose proof (handle_logical _ _ _ _ _ _ Hrel Hh) as Hlog.
  eapply wp_mono; [by apply (bwrite_spec refs hs s b bno d)|].
  intros [] s1 (_ & (Hdk & _) & _) refs2 hs2 s2 Hd2 Hrel2 Hn Hsz Hnz.
  assert (Hrd : disk_read s2 bno =
    if survives (force_disk_fail_id s) (force_read_error_pbn s)
                (force_disk_fail_id s2) (force_read_error_pbn s2) bno
    then Some d else disk_read (set_disk (disk s) s2) bno).
  { unfold disk_read at 1. rewrite Hd2, Hdk. by apply raid_write_read. }
  assert (Hex : exists d', disk_read s2 bno = Some d').
  { rewrite Hrd. destruct (survives _ _ _ _ _); [by eexists|].
    destruct Hon as [[d0 H0] H1]. destruct H1 as [d1 H1]; [lia|].
    unfold disk_read. cbn. unfold read_block. destruct (use_mirror _ _ bno); by eexists. }
  destruct Hex as [d' Hd']. eapply wp_mono; [by apply (bread_uncached refs2 hs2 s2 bno d')|].
  intros b2 s3 Hh3. exists d'. split; [done|]. rewrite Hd' in Hrd.
  destruct (survives _ _ _ _ _); [by injection Hrd|done].
Qed.

(** Which part of the array works, as the simulated failures say. *)
Definition disk0_works (s : bstate) (bno : Z) : Prop :=
  force_disk_fail_id s <> 0 /\ ~ (force_read_error_pbn s <> -1 /\ u32 (force_read_error_pbn s) = bno).
Definition disk1_works (s : bstate) : Prop := force_disk_fail_id s <> 1.
(** No logical block has lost both replicas. *)
Definition one_works (s : bstate) : Prop :=
  forall bno, 0 <= bno < LOGICAL_DISK_SIZE -> disk0_works s bno \/ disk1_works s.

(** The life of the array, with the contents of the blocks written so far: a
    write; or anything that leaves the disks alone, during which parts may
    fail, but none is repaired and no block loses both replicas. *)
Inductive raid_step : gmap Z block * bstate -> gmap Z block * bstate -> Prop :=
| raid_step_write L refs hs s b bno d s' :
    cache_rel refs hs s -> bno ∈ hs -> handle s b bno d -> on_disk s bno ->
    bwrite b s = Ret tt s' -> raid_step (L, s) (<[bno := d]> L, s')
| raid_step_other L s s' :
    disk s' = disk s -> (forall bno, disk0_works s' bno -> disk0_works s bno) ->
    (disk1_works s' -> disk1_works s) -> one_works s' -> raid_step (L, s) (L, s').

(** The replicas that work hold what was written. *)
Definition replicas_hold (L : gmap Z block) (s : bstate) : Prop :=
  one_works s /\ forall bno d, L !! bno = Some d -> 0 <= bno < LOGICAL_DISK_SIZE /\
    (disk0_works s bno -> disk s !! bno = Some d) /\
    (disk1_works s -> disk s !! (bno + DISK1_START_BLOCK) = Some d).

Lemma disk0_works_flags s bno : disk0_works s bno <->
  writes_primary (force_disk_fail_id s) (force_read_error_pbn s) bno = true.
Proof.
  unfold disk0_works, writes_primary, block_failed.
  destruct (Z.eqb_spec (force_disk_fail_id s) 0), (Z.eqb_spec (force_read_error_pbn s) (-1)),
    (Z.eqb_spec (u32 (force_read_error_pbn s)) bno); cbn; naive_solver.
Qed.
Lemma disk1_works_flags s : disk1_works s <-> writes_mirror (force_disk_fail_id s) = true.
Proof. unfold disk1_works, writes_mirror. by rewrite negb_true_iff, Z.eqb_neq. Qed.

Lemma raid_write_primary fail err bno d dk : bno < LOGICAL_DISK_SIZE ->
  writes_primary fail err bno = true -> raid_write fail err bno d dk !! bno = Some d.
Proof.
  intros Hb Hw. unfold raid_write. rewrite Hw. rewrite LOGICAL_eq in Hb. destruct (writes_mirror fail).
  - rewrite lookup_insert_ne by (rewrite DISK1_eq; lia). apply lookup_insert_eq.
  - apply lookup_insert_eq.
Qed.

Lemma replicas_hold_step st st' :
  raid_step st st' -> replicas_hold st.1 st.2 -> replicas_hold st'.1 st'.2.
Proof.
  intros Hst [H1 H2]. destruct Hst as [L refs hs s b bno d s' Hrel Hin Hh Hon E|L s s' Hd F0 F1 Hone]; cbn [fst snd] in *.
  - pose proof (handle_logical _ _ _ _ _ _ Hrel Hh) as Hlog.
    destruct (wp_inv _ _ _ (bwrite_spec _ _ _ _ _ _ Hrel Hin Hh Hon)) as ([] & s2 & E2 & _ & (Hdk & _ & Hf & He & _) & _).
    rewrite E in E2. injection E2 as <-.
    assert (W0 : forall n, disk0_works s' n <-> disk0_works s n) by (intros n; unfold disk0_works; by rewrite Hf, He).
    assert (W1 : disk1_works s' <-> disk1_works s) by (unfold disk1_works; by rewrite Hf).
    split; [intros n Hn; rewrite W0, W1; by apply H1|]. intros n d'. rewrite W0, W1, Hdk.
    destruct (decide (n = bno)) as [->|Hne].
    + rewrite lookup_insert_eq. intros [= <-]. split; [done|]. rewrite disk0_works_flags, disk1_works_flags.
      split; [intros Hw; apply raid_write_primary; [lia|exact Hw]|]. intros Hw. unfold raid_write. rewrite Hw. apply lookup_insert_eq.
    + rewrite lookup_insert_ne by done. intros Hn. destruct (H2 n d' Hn) as (Hl & P0 & P1). split; [done|].
      rewrite !raid_write_other by (rewrite LOGICAL_eq, DISK1_eq in *; lia). done.
  - split; [done|]. intros n d Hn. destruct (H2 n d Hn) as (Hl & P0 & P1). rewrite Hd. auto.
Qed.

Lemma replicas_hold_run st st' :
  rtc raid_step st st' -> replicas_hold st.1 st.2 -> replicas_hold st'.1 st'.2.
Proof. induction 1 as [|x y z Hxy _ IH]; [done|]. intros H. by eapply IH, replicas_hold_step. Qed.

(** C3: RAID-1 tolerates the failure of either disk, or of a block of disk 0, at
    any time.  Start with any contents of the disks and no block without a
    working replica.  However writes, failures and other activity of the cache
    follow each other, as long as nothing is repaired and no block loses both
    replicas: a block that was written is read from the disk as it was last
    written, and a write does not fail. *)
Theorem raid_tolerates_one_failure s0 L s :
  one_works s0 -> rtc raid_step (∅, s0) (L, s) ->
  (forall bno d refs hs, L !! bno = Some d ->
     cache_rel refs hs s -> refs !! bno = None -> Z.of_nat (size refs) < NBUF -> (forall b, refs !! b <> Some 0) ->
     wp (bread ROOTDEV bno) s (fun b s' => handle s' b bno d)) /\
  (forall refs hs b bno d, cache_rel refs hs s -> bno ∈ hs -> handle s b bno d -> on_disk s bno ->
     exists s', bwrite b s = Ret tt s').
Proof.
  intros H0 Hr. apply replicas_hold_run in Hr as H; [cbn [fst snd] in H|by split; [|intros ?? [=]]].
  split.
  - intros bno d refs hs Hd Hrel Hn Hsz Hnz. destruct H as [Hone H]. destruct (H bno d Hd) as (Hlog & P0 & P1).
    apply (bread_uncached refs hs); try done. unfold disk_read, read_block, use_mirror.
    rewrite (proj2 (Z.ltb_lt _ _)) by lia. cbn [andb]. specialize (Hone bno Hlog).
    rewrite disk0_works_flags in P0, Hone. unfold writes_primary in P0, Hone.
    destruct ((_ =? 0) || _) eqn:E.
    + apply P1. destruct Hone as [Hw|]; [|done]. apply andb_true_iff in Hw as [W1%negb_true_iff W2%negb_true_iff].
      by rewrite W1, W2 in E.
    + apply orb_false_iff in E as [W1 W2]. apply P0. by rewrite W1, W2.
  - intros refs hs b bno d Hrel Hin Hh Hon.
    destruct (wp_inv _ _ _ (bwrite_spec _ _ _ _ _ _ Hrel Hin Hh Hon)) as ([] & s' & E & _). by exists s'.
Qed.

(** C5: A failing disk is not resynchronised.  Write a block while disk 0 is
    failed, clear the flag, and read the block from the disk: the read
    succeeds and returns what disk 0 held before the write. *)
Theorem raid_stale_after_repair refs hs s b bno d :
  cache_rel refs hs s -> bno ∈ hs -> handle s b bno d -> on_disk s bno ->
  force_disk_fail_id s = 0 ->
  wp (bwrite b) s (fun _ s1 => forall refs2 hs2 s2,
    disk s2 = disk s1 -> force_disk_fail_id s2 = -1 -> force_read_error_pbn s2 = -1 ->
    cache_rel refs2 hs2 s2 -> refs2 !! bno = None -> Z.of_nat (size refs2) < NBUF -> (forall b, refs2 !! b <> Some 0) ->
    wp (bread ROOTDEV bno) s2 (fun b2 s3 => exists d0,
      disk s !! bno = Some d0 /\ handle s3 b2 bno d0)).
Proof.
  intros Hrel Hin Hh Hon Hf. pose proof (handle_logical _ _ _ _ _ _ Hrel Hh) as Hlog.
  eapply wp_mono; [by apply (bwrite_spec refs hs s b bno d)|].
  intros [] s1 (_ & (Hdk & _) & _) refs2 hs2 s2 Hd2 Hf2 He2 Hrel2 Hn Hsz Hnz.
  destruct Hon as [[d0 Hd0] _]. eapply wp_mono.
  - apply (bread_uncached refs2 hs2 s2 bno d0); try done.
    unfold disk_read. rewrite Hd2, Hdk, Hf2, He2, raid_write_read, Hf by done.
    unfold survives, use_mirror, writes_primary, block_failed, read_block. simpl.
    rewrite andb_false_r. simpl. unfold use_mirror, block_failed. simpl. by rewrite andb_false_r.
  - intros b2 s3 Hh3. by exists d0.
Qed.

(** Eviction.  For a block that is in no buffer, [bget] takes the least
    recently used buffer with no reference: every buffer used less recently
    is referenced, and only that buffer changes.  Otherwise every buffer is
    referenced, and [bget] panics. *)
Theorem bget_recycles_lru s l dev bno :
  bc_ok s l ->
  (forall i x, slot s i x -> b_dev x = dev -> b_blockno x = bno -> False) ->
  (forall i x, slot s i x -> b_refcnt x = 0 -> sl_locked (b_lock x) = false) ->
  (exists l1 b l2 x, l = l1 ++ b :: l2 /\ slot s b x /\ b_refcnt x = 0 /\
    (forall i y, i ∈ l2 -> slot s i y -> b_refcnt y <> 0) /\
    bget dev bno s = Ret b (put b (recycled (cur_pid s) dev bno x) s)) \/
  ((forall i y, slot s i y -> b_refcnt y <> 0) /\ bget dev bno s = Panic "bget: no buffers").
Proof.
  intros Hbc Hno Hun. pose proof (find_no_slot s l dev bno l Hbc Hno ltac:(done)) as Hfn.
  assert (Hused : forall i y, unused s i = false -> slot s i y -> b_refcnt y <> 0).
  { intros i y Hu [_ Hy]. unfold unused in Hu. rewrite Hy in Hu. by zbool. }
  destruct (List.find (unused s) (reverse l)) as [b|] eqn:Hf.
  - left. pose proof Hf as Hf'. apply find_first in Hf' as (l1 & l2 & Hl & Hb & Hl1).
    assert (Hl' : l = reverse l2 ++ b :: reverse l1).
    { rewrite <- (reverse_involutive l), Hl, reverse_app, reverse_cons, <- app_assoc. done. }
    unfold unused in Hb. destruct (bufs s !! b) as [x|] eqn:Hx; [|done]. zbool.
    assert (Hbl : b ∈ l) by (rewrite Hl'; set_solver).
    assert (Hs : slot s b x) by (split; [apply (bc_elem s l b Hbc) in Hbl; lia|done]).
    exists (reverse l2), b, (reverse l1), x. split_and!; try done.
    + intros i y Hi Hy. rewrite elem_of_reverse in Hi. exact (Hused i y (Hl1 i Hi) Hy).
    + apply (bget_miss s l); try done. by apply (Hun b).
  - right. split; [|by apply (bget_full s l)].
    intros i y Hy. apply (Hused i); [|done].
    eapply List.find_none in Hf; [done|].
    rewrite <- list_elem_of_In, elem_of_reverse. by apply (slot_elem s l i y).
Qed.

(** C6: [bread] of a logical block that the process has not locked, with a
    buffer to spare, returns a locked buffer that holds the block's current
    contents.  It writes nothing to the disk, changes no block's contents and
    no other locked buffer, and takes one more reference on the block. *)
Theorem bread_correct refs hs s bno d :
  cache_rel refs hs s -> bno ∉ hs -> 0 <= bno < LOGICAL_DISK_SIZE ->
  (is_Some (refs !! bno) \/ Z.of_nat (size refs) < NBUF) ->
  (forall b, refs !! b <> Some 0) -> refs_of refs bno < INT_MAX -> view s bno = Some d ->
  wp (bread ROOTDEV bno) s (fun b s' =>
    handle s' b bno d /\ lget (buf_lock b) s' = held (cur_pid s) /\
    cache_rel (<[bno := refs_of refs bno + 1]> refs) ({[bno]} ∪ hs) s' /\
    same_view s s' /\ disk s' = disk s /\ keeps_handles hs s s').
Proof.
  intros Hrel Hni Hlog Hfree Hnz Hcnt Hd.
  eapply wp_mono; [by apply (bread_spec refs hs s bno d)|].
  intros b s' (Hrel' & Hh & Hv & (Hdk & _ & _ & Hpid & _) & Hk). split; [done|].
  split; [|done]. destruct Hh as (x & Hs & Hd' & Hb & _).
  destruct (so_slot _ _ _ (proj2 Hrel') b x Hs) as [(Hd0 & _)|(_ & _ & Hl & _)];
    [by rewrite Hd' in Hd0|].
  rewrite decide_True in Hl by set_solver. rewrite (lget_buf b x) by apply Hs.
  by rewrite Hl, Hpid.
Qed.

(** *** A concrete cache *)

Definition w_block (c : Z) : block := replicate 1024 c.
Definition w_disk : gmap Z block :=
  list_to_map [(7, w_block 1); (7 + DISK1_START_BLOCK, w_block 1)].

Lemma w_on_disk s : disk s = w_disk -> on_disk s 7.
Proof. intros Hd. unfold on_disk. rewrite Hd. split; [by eexists|intros _; by eexists]. Qed.

Lemma w_cache_from s0 : cache_rel ∅ ∅ s0 -> disk s0 = w_disk -> exists s b,
  cache_rel {[7 := 1]} {[7]} s /\ handle s b 7 (w_block 2) /\ disk s = w_disk /\
  force_disk_fail_id s = force_disk_fail_id s0 /\
  force_read_error_pbn s = force_read_error_pbn s0.
Proof.
  intros Hrel Hdk.
  assert (Hd : view s0 7 = Some (w_block 1)).
  { rewrite (view_unreferenced ∅ ∅) by done. unfold disk_read, read_block. rewrite Hdk.
    by destruct (use_mirror _ _ 7). }
  destruct (wp_inv _ _ _ (bread_spec ∅ ∅ s0 7 _ Hrel ltac:(set_solver) ltac:(done)
    ltac:(by right) ltac:(done) ltac:(done) Hd)) as (b & s1 & _ & Hrel1 & Hh & _ & (E1 & E2 & E3 & _) & _).
  destruct (wp_inv _ _ _ (set_data_spec _ _ s1 b 7 _ (w_block 2) Hrel1 ltac:(set_solver) Hh))
    as ([] & s2 & _ & Hrel2 & Hh2 & (F1 & F2 & F3 & _) & _).
  exists s2, b. split; [by rewrite union_empty_r_L in Hrel2|]. split; [done|].
  by rewrite F1, F2, F3, E1, E2, E3.
Qed.

(** A cache in which the only process holds block 7 and has changed it. *)
Lemma w_cache fail err : exists s b,
  cache_rel {[7 := 1]} {[7]} s /\ handle s b 7 (w_block 2) /\ disk s = w_disk /\
  force_disk_fail_id s = fail /\ force_read_error_pbn s = err.
Proof.
  exact (w_cache_from (BState w_disk booted_bufs false err fail 5 [])
    (fresh_ok booted_bufs w_disk err fail 5 (reverse (seqZ 0 NBUF)) booted_lookup
      booted_dom booted_ring (reverse_Permutation _)) eq_refl).
Qed.

Lemma raid_read_after_write_witness : exists s b,
  wp (bwrite b) s (fun _ s1 => forall refs2 hs2 s2,
    disk s2 = disk s1 -> cache_rel refs2 hs2 s2 -> refs2 !! 7 = None ->
    Z.of_nat (size refs2) < NBUF -> (forall b, refs2 !! b <> Some 0) ->
    wp (bread ROOTDEV 7) s2 (fun b2 s3 => exists d',
      handle s3 b2 7 d' /\
      if survives (force_disk_fail_id s) (force_read_error_pbn s)
                  (force_disk_fail_id s2) (force_read_error_pbn s2) 7
      then d' = w_block 2
      else disk_read (set_disk (disk s) s2) 7 = Some d')).
Proof.
  destruct (w_cache 1 (-1)) as (s & b & Hrel & Hh & Hd & _). exists s, b.
  apply (raid_read_after_write {[7 := 1]} {[7]}); [done|set_solver|done|by apply w_on_disk].
Defined.

(** Block 7 is written while both disks work; disk 0 fails; after a reboot the
    block is read from the mirror. *)
Lemma raid_tolerates_one_failure_witness : exists s,
  force_disk_fail_id s = 0 /\ wp (bread ROOTDEV 7) s (fun b s' => handle s' b 7 (w_block 2)).
Proof.
  destruct (w_cache (-1) (-1)) as (s & b & Hrel & Hh & Hd & Hf & He).
  assert (Hon : on_disk s 7) by (by apply w_on_disk).
  assert (Hin : 7 ∈ ({[7]} : gset Z)) by set_solver.
  destruct (wp_inv _ _ _ (bwrite_spec _ _ _ _ _ _ Hrel Hin Hh Hon)) as ([] & s1 & E & _ & (_ & _ & Hf1 & He1 & _) & _).
  set (s2 := BState (disk s1) booted_bufs false (-1) 0 5 []).
  exists s2. split; [reflexivity|].
  assert (Hone : one_works s) by (intros n _; right; unfold disk1_works; by rewrite Hf).
  destruct (raid_tolerates_one_failure s {[7 := w_block 2]} s2 Hone) as [H _].
  - eapply rtc_l; [exact (raid_step_write ∅ _ _ s b 7 _ s1 Hrel Hin Hh Hon E)|].
    apply rtc_once, raid_step_other; [reflexivity| | |].
    + by intros n [H _].
    + intros _. unfold disk1_works. by rewrite Hf1, Hf.
    + intros n _. by right.
  - apply (H 7 (w_block 2) ∅ ∅); [done| |done|done|done].
    exact (fresh_ok booted_bufs (disk s1) (-1) 0 5 (reverse (seqZ 0 NBUF)) booted_lookup
      booted_dom booted_ring (reverse_Permutation _)).
Defined.

Lemma raid_stale_after_repair_witness : exists s b,
  wp (bwrite b) s (fun _ s1 => forall refs2 hs2 s2,
    disk s2 = disk s1 -> force_disk_fail_id s2 = -1 -> force_read_error_pbn s2 = -1 ->
    cache_rel refs2 hs2 s2 -> refs2 !! 7 = None -> Z.of_nat (size refs2) < NBUF -> (forall b, refs2 !! b <> Some 0) ->
    wp (bread ROOTDEV 7) s2 (fun b2 s3 => exists d0,
      disk s !! 7 = Some d0 /\ handle s3 b2 7 d0)).
Proof.
  destruct (w_cache 0 (-1)) as (s & b & Hrel & Hh & Hd & Hf & He). exists s, b.
  apply (raid_stale_after_repair {[7 := 1]} {[7]} s b 7 (w_block 2));
    [done|set_solver|done|by apply w_on_disk|done].
Defined.

Lemma bread_correct_witness : exists s,
  wp (bread ROOTDEV 7) s (fun b s' =>
    handle s' b 7 (w_block 1) /\ lget (buf_lock b) s' = held (cur_pid s) /\
    cache_rel (<[7 := refs_of ∅ 7 + 1]> ∅) ({[7]} ∪ ∅) s' /\
    same_view s s' /\ disk s' = disk s /\ keeps_handles ∅ s s').
Proof.
  destruct (wp_inv _ _ _ (binit_spec w_disk 5)) as ([] & s & _ & Hrel & Hd & Hf & He & _).
  exists s. apply bread_correct; [done|set_solver|done|by right|done|done|].
  rewrite (view_unreferenced ∅ ∅) by done. unfold disk_read. by rewrite Hd, Hf, He.
Defined.

Lemma fresh_bc m (dk : gmap Z block) (err fail pid : Z) l :
  (forall i x, m !! i = Some x -> fresh_buf i x) ->
  (forall i, is_Some (m !! i) <-> 0 <= i <= head) -> ring (nxm m) (pvm m) head l ->
  l ≡ₚ seqZ 0 NBUF -> exists s, bc_ok s l /\ forall i x, slot s i x -> fresh_buf i x.
Proof.
  intros Hm Hdom Hring Hperm. exists (BState dk m false err fail pid []). split.
  - constructor; cbn [bufs bc_lock]; try done.
    + intros i x Hx. apply Hm in Hx as (_ & _ & _ & _ & ->). reflexivity.
    + intros i j x y _ _ Hx _ Hd. exfalso. apply Hm in Hx as (_ & _ & Hd' & _). done.
  - intros i x [_ Hx]. by apply Hm.
Qed.

Lemma bget_recycles_lru_witness : exists s l,
  (exists l1 b l2 x, l = l1 ++ b :: l2 /\ slot s b x /\ b_refcnt x = 0 /\
    (forall i y, i ∈ l2 -> slot s i y -> b_refcnt y <> 0) /\
    bget ROOTDEV 7 s = Ret b (put b (recycled (cur_pid s) ROOTDEV 7 x) s)) \/
  ((forall i y, slot s i y -> b_refcnt y <> 0) /\
   bget ROOTDEV 7 s = Panic "bget: no buffers").
Proof.
  destruct (fresh_bc booted_bufs w_disk (-1) (-1) 5 (reverse (seqZ 0 NBUF)) booted_lookup
      booted_dom booted_ring (reverse_Permutation _)) as (s & Hbc & Hfresh).
  exists s, (reverse (seqZ 0 NBUF)). apply (bget_recycles_lru s _ ROOTDEV 7 Hbc).
  - intros i x Hs Hd _. destruct (Hfresh i x Hs) as (_ & _ & Hd' & _). by rewrite Hd' in Hd.
  - intros i x Hs _. by destruct (Hfresh i x Hs) as (_ & _ & _ & _ & ->).
Defined.
