(* ===== verification/Log.v ===== *)
(** The write-ahead log, FileSystem-RAID/kernel/log.c, on the mirrored buffer
    cache.

    [lstate] is the buffer cache of [Bio] with the log.  The operations are
    those of the source; the proofs use the cache only through its contract
    [BlockCache].  [commit] is characterised by the exact sequence of block
    writes that reach the disk, and the crash theorem ranges over the prefixes
    of that sequence. *)
From S2P Require Import Prelude Bytes Locks Bio.

Definition MAXOPBLOCKS : Z := 10.
Definition LOGSIZE : Z := MAXOPBLOCKS * 3.
(** [mkfs] gives the log [LOGSIZE] blocks, of which the first is the header;
    [log_write] keeps to the [LOGBLOCKS] others. *)
Definition LOGBLOCKS : Z := LOGSIZE - 1.
Ltac log_lia := unfold NBUF, LOGBLOCKS, LOGSIZE, MAXOPBLOCKS in *; lia.

(** [struct superblock] of fs.h. *)
Record superblock := Superblock {
  sb_magic : Z; sb_size : Z; sb_nblocks : Z; sb_ninodes : Z;
  sb_nlog : Z; sb_logstart : Z; sb_inodestart : Z; sb_bmapstart : Z
}.

Record log := Log {
  log_lock : bool;
  log_start : Z;
  log_size : Z;
  log_outstanding : Z;
  log_committing : bool;
  log_dev : Z;
  lh_n : Z;
  lh_block : list Z      (** [LOGSIZE] entries *)
}.

Record lstate := LState { bio : bstate; lg : log }.
Abbreviation LM := (M lstate) (only parsing).

Definition set_bio (b : bstate) (s : lstate) : lstate := LState b (lg s).
Definition set_lg (l : log) (s : lstate) : lstate := LState (bio s) l.
Definition set_log_lock (v : bool) (l : log) : log :=
  Log v (log_start l) (log_size l) (log_outstanding l) (log_committing l) (log_dev l) (lh_n l) (lh_block l).
Definition set_start (v : Z) (l : log) : log :=
  Log (log_lock l) v (log_size l) (log_outstanding l) (log_committing l) (log_dev l) (lh_n l) (lh_block l).
Definition set_size (v : Z) (l : log) : log :=
  Log (log_lock l) (log_start l) v (log_outstanding l) (log_committing l) (log_dev l) (lh_n l) (lh_block l).
Definition set_outstanding (v : Z) (l : log) : log :=
  Log (log_lock l) (log_start l) (log_size l) v (log_committing l) (log_dev l) (lh_n l) (lh_block l).
Definition set_committing (v : bool) (l : log) : log :=
  Log (log_lock l) (log_start l) (log_size l) (log_outstanding l) v (log_dev l) (lh_n l) (lh_block l).
Definition set_log_dev (v : Z) (l : log) : log :=
  Log (log_lock l) (log_start l) (log_size l) (log_outstanding l) (log_committing l) v (lh_n l) (lh_block l).
Definition set_lh_n (v : Z) (l : log) : log :=
  Log (log_lock l) (log_start l) (log_size l) (log_outstanding l) (log_committing l) (log_dev l) v (lh_block l).
Definition set_lh_block (v : list Z) (l : log) : log :=
  Log (log_lock l) (log_start l) (log_size l) (log_outstanding l) (log_committing l) (log_dev l) (lh_n l) v.

(** Operations of the cache and on the log. *)
Definition in_bio {A} (m : M bstate A) : LM A := zoom bio set_bio m.
Definition in_log (f : log -> log) : LM unit := modify (fun s => set_lg (f (lg s)) s).
Definition getl {A} (f : log -> A) : LM A := gets (fun s => f (lg s)).

Definition log_spin : lens lstate bool :=
  Lens (fun s => log_lock (lg s)) (fun b s => set_lg (set_log_lock b (lg s)) s).
(** The address of [log] as a channel, distinct from those of the buffers. *)
Definition LOG_CHAN : Z := 1000.
Definition wakeup_log : LM unit := in_bio (modify (emit (EvWakeup LOG_CHAN))).

(** [log.lh.block[i]]. *)
Definition get_lh_block (i : Z) : LM Z :=
  let! bl := getl lh_block in
  of_option "fault" (if i <? 0 then None else bl !! Z.to_nat i).
Definition put_lh_block (i v : Z) : LM unit :=
  let! bl := getl lh_block in
  if (0 <=? i) && (i <? Z.of_nat (length bl))
  then in_log (set_lh_block (<[Z.to_nat i := v]> bl))
  else panic "fault".

(** ** Operations *)

(** [memmove(dst->data, src->data, BSIZE)] *)
Definition copy_data (dst src : Z) : LM unit :=
  in_bio (let! x := getb src in updb dst (set_data (b_data x))).

Definition install_trans : LM unit :=
  let! n := getl lh_n in
  for_all (seqZ 0 n) (fun tail =>
    let! dev := getl log_dev in
    let! start := getl log_start in
    let! lbuf := in_bio (bread dev (u32 (start + tail + 1))) in
    let! blk := get_lh_block tail in
    let! dbuf := in_bio (bread dev (u32 blk)) in
    copy_data dbuf lbuf ;;;
    in_bio (bwrite dbuf) ;;;
    in_bio (bunpin dbuf) ;;;
    in_bio (brelse lbuf) ;;;
    in_bio (brelse dbuf)).

Definition read_head : LM unit :=
  let! dev := getl log_dev in
  let! start := getl log_start in
  let! b := in_bio (bread dev (u32 start)) in
  let! x := in_bio (getb b) in
  let lh := b_data x in
  in_log (set_lh_n (s32 (get32 lh 0))) ;;;
  let! n := getl lh_n in
  for_all (seqZ 0 n) (fun i =>
    put_lh_block i (s32 (get32 lh (4 + 4 * Z.to_nat i)%nat))) ;;;
  in_bio (brelse b).

Definition write_head : LM unit :=
  let! dev := getl log_dev in
  let! start := getl log_start in
  let! b := in_bio (bread dev (u32 start)) in
  let! n := getl lh_n in
  in_bio (updb b (fun x => set_data (put32 (b_data x) 0 n) x)) ;;;
  for_all (seqZ 0 n) (fun i =>
    let! blk := get_lh_block i in
    in_bio (updb b (fun x => set_data (put32 (b_data x) (4 + 4 * Z.to_nat i)%nat blk) x))) ;;;
  in_bio (bwrite b) ;;;
  in_bio (brelse b).

Definition recover_from_log : LM unit :=
  read_head ;;;
  install_trans ;;;
  in_log (set_lh_n 0) ;;;
  write_head.

(** [sizeof(struct logheader)]: an [int] and [LOGSIZE] of them. *)
Definition sizeof_logheader : Z := 4 + 4 * LOGSIZE.

Definition initlog (dev : Z) (sb : superblock) : LM unit :=
  if BSIZE <=? sizeof_logheader then panic "initlog: too big logheader" else
  in_log (set_log_lock false) ;;;
  in_log (set_start (s32 (sb_logstart sb))) ;;;
  in_log (set_size (s32 (sb_nlog sb))) ;;;
  in_log (set_log_dev dev) ;;;
  recover_from_log.

(** One round of the loop: it sleeps while a commit is running or the log may
    become full, and otherwise reserves space. *)
Definition begin_op : LM unit :=
  spin_acquire log_spin ;;;
  let! l := gets lg in
  if log_committing l then spin_release log_spin ;;; (fun s => Sleep s)
  else if LOGSIZE <? lh_n l + (log_outstanding l + 1) * MAXOPBLOCKS then
    spin_release log_spin ;;; (fun s => Sleep s)
  else
    in_log (set_outstanding (log_outstanding l + 1)) ;;;
    spin_release log_spin.

Definition write_log : LM unit :=
  let! n := getl lh_n in
  for_all (seqZ 0 n) (fun tail =>
    let! dev := getl log_dev in
    let! start := getl log_start in
    let! to := in_bio (bread dev (u32 (start + tail + 1))) in
    let! blk := get_lh_block tail in
    let! from := in_bio (bread dev (u32 blk)) in
    copy_data to from ;;;
    in_bio (bwrite to) ;;;
    in_bio (brelse from) ;;;
    in_bio (brelse to)).

Definition commit : LM unit :=
  let! n := getl lh_n in
  when (0 <? n)
    (write_log ;;;
     write_head ;;;
     install_trans ;;;
     in_log (set_lh_n 0) ;;;
     write_head).

Definition end_op : LM unit :=
  spin_acquire log_spin ;;;
  let! l := gets lg in
  in_log (set_outstanding (log_outstanding l - 1)) ;;;
  if log_committing l then panic "log.committing" else
  let do_commit := log_outstanding l - 1 =? 0 in
  (if do_commit then in_log (set_committing true) else wakeup_log) ;;;
  spin_release log_spin ;;;
  when do_commit
    (commit ;;;
     spin_acquire log_spin ;;;
     in_log (set_committing false) ;;;
     wakeup_log ;;;
     spin_release log_spin).

(** The position of [blockno] among the first [n] logged blocks, or [n]. *)
Fixpoint log_index (bl : list Z) (n : nat) (blockno : Z) : nat :=
  match n, bl with
  | S n', x :: bl' => if x =? blockno then O else S (log_index bl' n' blockno)
  | _, _ => O
  end.

Definition log_write (b : Z) : LM unit :=
  let! l := gets lg in
  if (LOGSIZE <=? lh_n l) || (log_size l - 1 <=? lh_n l) then panic "too big a transaction" else
  if log_outstanding l <? 1 then panic "log_write outside of trans" else
  spin_acquire log_spin ;;;
  let! x := in_bio (getb b) in
  let i := Z.of_nat (log_index (lh_block l) (Z.to_nat (lh_n l)) (s32 (b_blockno x))) in
  put_lh_block i (s32 (b_blockno x)) ;;;
  when (i =? lh_n l)
    (in_bio (bpin b) ;;;
     in_log (fun l => set_lh_n (lh_n l + 1) l)) ;;;
  spin_release log_spin.

(** ** The cache as a client sees it *)

(** The disk after the block writes [ws], first one first. *)
Definition apply_writes (ws : list (Z * block)) (dk : gmap Z block) : gmap Z block :=
  fold_left (fun dk w => <[w.1 := w.2]> dk) ws dk.

Lemma apply_writes_app ws1 ws2 dk :
  apply_writes (ws1 ++ ws2) dk = apply_writes ws2 (apply_writes ws1 dk).
Proof. apply fold_left_app. Qed.

Lemma apply_writes_some ws dk b : is_Some (dk !! b) -> is_Some (apply_writes ws dk !! b).
Proof.
  revert dk. induction ws as [|w ws IH]; intros dk H; [done|]. apply IH.
  rewrite lookup_insert_is_Some. destruct (decide (w.1 = b)); auto.
Qed.

Lemma apply_writes_other ws dk b :
  (forall w, w ∈ ws -> w.1 <> b) -> apply_writes ws dk !! b = dk !! b.
Proof.
  revert dk. induction ws as [|w ws IH]; intros dk H; [done|]. simpl.
  rewrite IH; [|intros w' Hw'; apply H; set_solver].
  apply lookup_insert_ne, H. set_solver.
Qed.

Lemma raid_write_apply f e bno d dk :
  raid_write f e bno d dk = apply_writes (replica_writes f e bno d) dk.
Proof.
  unfold raid_write, replica_writes. by destruct (writes_primary f e bno), (writes_mirror f).
Qed.

(** No block is lost under the simulated failures (see
    [raid_tolerates_one_failure]). *)
Definition redundant (f e : Z) : Prop := forall bno, 0 <= bno < LOGICAL_DISK_SIZE ->
  survives f e f e bno = true.

(** Updates of the logical contents. *)
Definition vset (V : Z -> option block) (b : Z) (d : block) : Z -> option block :=
  fun b' => if decide (b' = b) then Some d else V b'.

Definition vsets (bl : list Z) (ds : list block) (V : Z -> option block) : Z -> option block :=
  fold_left (fun V p => vset V p.1 p.2) (zip bl ds) V.

Lemma vsets_other bl ds V b : b ∉ bl -> vsets bl ds V b = V b.
Proof.
  revert ds V. induction bl as [|b' bl IH]; intros [|d ds] V Hb; [done..|].
  change (vsets bl ds (vset V b' d) b = V b). rewrite IH by set_solver.
  unfold vset. rewrite decide_False; [done|set_solver].
Qed.

Lemma zip_snoc {A B} (l : list A) (k : list B) a b :
  length l = length k -> zip (l ++ [a]) (k ++ [b]) = zip l k ++ [(a, b)].
Proof. intros H. rewrite zip_with_app by done. done. Qed.

Lemma vsets_snoc bl ds b d V :
  length bl = length ds -> vsets (bl ++ [b]) (ds ++ [d]) V = vset (vsets bl ds V) b d.
Proof. intros H. unfold vsets. by rewrite zip_snoc, fold_left_app. Qed.

Lemma vset_twice V b d d' x : vset (vset V b d) b d' x = vset V b d' x.
Proof. unfold vset. by case_decide. Qed.

Lemma vsets_lookup bl ds V i b d :
  NoDup bl -> bl !! i = Some b -> ds !! i = Some d -> vsets bl ds V b = Some d.
Proof.
  revert ds V i. induction bl as [|b' bl IH]; intros ds V i Hnd Hb Hd; [done|].
  destruct ds as [|d' ds]; [done|]. apply list.NoDup_cons in Hnd as [Hni Hnd].
  change (vsets bl ds (vset V b' d') b = Some d). destruct i as [|i]; simpl in *; simplify_eq.
  - rewrite vsets_other by done. unfold vset. by rewrite decide_True.
  - by apply (IH ds _ i).
Qed.

(** The first [n] log blocks. *)
Definition log_blocks (start : Z) (n : nat) : list Z :=
  (fun i => start + Z.of_nat i + 1) <$> seq 0 n.

Lemma log_blocks_snoc start n : log_blocks start (S n) = log_blocks start n ++ [start + Z.of_nat n + 1].
Proof. unfold log_blocks. by rewrite seq_S, fmap_app. Qed.

Lemma elem_of_log_blocks start n b :
  b ∈ log_blocks start n <-> start < b <= start + Z.of_nat n.
Proof.
  unfold log_blocks. rewrite list_elem_of_fmap. split.
  - intros (i & -> & Hi%elem_of_seq). lia.
  - intros Hb. exists (Z.to_nat (b - start - 1)). rewrite elem_of_seq. lia.
Qed.

Lemma log_blocks_lookup start n i : (i < n)%nat ->
  log_blocks start n !! i = Some (start + Z.of_nat i + 1).
Proof. intros Hi. unfold log_blocks. by rewrite list_lookup_fmap, lookup_seq_lt by done. Qed.

Lemma length_log_blocks start n : length (log_blocks start n) = n.
Proof. unfold log_blocks. by rewrite length_fmap, length_seq. Qed.

Section client.
Context {rel : gmap Z Z -> gset Z -> bstate -> Prop} `{!BlockCache rel}.

(** The failure flags, the process, and the disk and trace at the start. *)
Variables (f e pid : Z) (D0 : gmap Z block) (W0 : list (Z * block)).
Hypothesis D0_full : forall b, 0 <= b < LOGICAL_DISK_SIZE + DISK1_START_BLOCK -> is_Some (D0 !! b).
Hypothesis raid_ok : redundant f e.

(** The cache after the block writes [ws], with the logical contents [V]. *)
Record cached (refs : gmap Z Z) (hs : gset Z) (ws : list (Z * block)) (V : Z -> option block)
    (s : bstate) : Prop := {
  ca_rel : rel refs hs s;
  ca_fail : force_disk_fail_id s = f;
  ca_err : force_read_error_pbn s = e;
  ca_pid : cur_pid s = pid;
  ca_disk : disk s = apply_writes ws D0;
  ca_writes : writes s = reverse ws ++ W0;
  ca_view : forall b, 0 <= b < LOGICAL_DISK_SIZE -> view s b = V b
}.

Lemma cached_only refs hs ws V refs' hs' s s' :
  cached refs hs ws V s -> cache_only s s' -> same_view s s' -> rel refs' hs' s' ->
  cached refs' hs' ws V s'.
Proof.
  intros [H1 H2 H3 H4 H5 H6 H7] (E1 & E2 & E3 & E4 & E5) Hv Hr. constructor; try congruence.
  intros b Hb. by rewrite Hv, H7.
Qed.

Lemma cached_on_disk refs hs ws V s bno :
  cached refs hs ws V s -> 0 <= bno < LOGICAL_DISK_SIZE -> on_disk s bno.
Proof.
  intros H Hb. unfold on_disk. rewrite (ca_disk _ _ _ _ _ H).
  split; [|intros _]; apply apply_writes_some, D0_full; rewrite LOGICAL_eq, DISK1_eq in *; lia.
Qed.

Lemma cached_bread refs hs ws V s bno d :
  cached refs hs ws V s -> bno ∉ hs -> 0 <= bno < LOGICAL_DISK_SIZE ->
  (is_Some (refs !! bno) \/ Z.of_nat (size refs) < NBUF) ->
  (forall b, refs !! b <> Some 0) -> refs_of refs bno < INT_MAX -> V bno = Some d ->
  wp (bread ROOTDEV bno) s (fun b s' =>
    cached (<[bno := refs_of refs bno + 1]> refs) ({[bno]} ∪ hs) ws V s' /\
    handle s' b bno d /\ keeps_handles hs s s').
Proof.
  intros H Hni Hb Hroom Hnz Hmax Hd. eapply wp_mono.
  - apply (law_bread refs hs s bno d); try done; [apply H|].
    by rewrite (ca_view _ _ _ _ _ H).
  - intros b s' (Hr & Hh & Hv & Hc & Hk). split; [by eapply cached_only|done].
Qed.

Lemma cached_set refs hs ws V s b bno d d' :
  cached refs hs ws V s -> bno ∈ hs -> handle s b bno d ->
  wp (updb b (set_data d')) s (fun _ s' =>
    cached refs hs ws (vset V bno d') s' /\ handle s' b bno d' /\
    keeps_handles (hs ∖ {[bno]}) s s').
Proof.
  intros H Hin Hh. eapply wp_mono.
  - by apply (law_set_data refs hs s b bno d d'); [apply H| |].
  - intros [] s' (Hr & Hh' & (E1 & E2 & E3 & E4 & E5) & Hv & Hk). split; [|done].
    destruct H as [H1 H2 H3 H4 H5 H6 H7]. constructor; try congruence.
    intros b' Hb'. rewrite Hv. unfold vset. case_decide; [done|]. by apply H7.
Qed.

Lemma cached_bwrite refs hs ws V s b bno d :
  cached refs hs ws V s -> bno ∈ hs -> handle s b bno d ->
  wp (bwrite b) s (fun _ s' =>
    cached refs hs (ws ++ replica_writes f e bno d) V s' /\ keeps_handles hs s s').
Proof.
  intros H Hin Hh. destruct (law_held _ _ _ _ (ca_rel _ _ _ _ _ H) Hin) as [n Hn].
  destruct (law_refs _ _ _ _ _ (ca_rel _ _ _ _ _ H) Hn) as [_ Hb]. eapply wp_mono.
  - apply (law_bwrite refs hs s b bno d); [apply H|done|done|by eapply cached_on_disk].
  - intros [] s' (Hr & (E1 & E2 & E3 & E4 & E5) & Hv & Hk). split; [|done].
    destruct H as [H1 H2 H3 H4 H5 H6 H7]. constructor; try congruence.
    + by rewrite E1, H2, H3, H5, raid_write_apply, apply_writes_app.
    + by rewrite E2, H2, H3, H6, reverse_app, <- app_assoc.
    + intros b' Hb'. by rewrite Hv, H7.
Qed.

(** The replica that readers select, after the writes [ws]. *)
Definition on_replica (ws : list (Z * block)) (bno : Z) : option block :=
  apply_writes ws D0 !! read_block f e bno.

Lemma on_replica_written ws bno d :
  0 <= bno < LOGICAL_DISK_SIZE -> on_replica (ws ++ replica_writes f e bno d) bno = Some d.
Proof.
  intros Hb. unfold on_replica. rewrite apply_writes_app, <- raid_write_apply, raid_write_read by done.
  by rewrite raid_ok.
Qed.

Lemma cached_brelse refs hs ws V s b bno d n :
  cached refs hs ws V s -> bno ∈ hs -> handle s b bno d -> refs !! bno = Some n ->
  INT_MIN < n -> (n = 1 -> on_replica ws bno = Some d) ->
  wp (brelse b) s (fun _ s' =>
    cached (if n =? 1 then delete bno refs else <[bno := n - 1]> refs) (hs ∖ {[bno]}) ws V s' /\
    keeps_handles (hs ∖ {[bno]}) s s').
Proof.
  intros H Hin Hh Hn Hmin Hcl. eapply wp_mono.
  - apply (law_brelse refs hs s b bno d n); try done; [apply H|]. intros H1.
    unfold disk_read. rewrite (ca_fail _ _ _ _ _ H), (ca_err _ _ _ _ _ H), (ca_disk _ _ _ _ _ H).
    by apply Hcl.
  - intros [] s' (Hr & Hc & Hv & Hk). split; [by eapply cached_only|done].
Qed.

Lemma cached_bpin refs hs ws V s b bno d n :
  cached refs hs ws V s -> handle s b bno d -> refs !! bno = Some n -> n < INT_MAX ->
  wp (bpin b) s (fun _ s' => cached (<[bno := n + 1]> refs) hs ws V s' /\ keeps_handles hs s s').
Proof.
  intros H Hh Hn Hmax. eapply wp_mono.
  - apply (law_bpin refs hs s b bno d n); try done; apply H.
  - intros [] s' (Hr & Hc & Hv & Hk). split; [by eapply cached_only|done].
Qed.

Lemma cached_bunpin refs hs ws V s b bno d n :
  cached refs hs ws V s -> handle s b bno d -> refs !! bno = Some n -> INT_MIN < n ->
  wp (bunpin b) s (fun _ s' => cached (<[bno := n - 1]> refs) hs ws V s' /\ keeps_handles hs s s').
Proof.
  intros H Hh Hn Hmin. eapply wp_mono.
  - apply (law_bunpin refs hs s b bno d n); try done; apply H.
  - intros [] s' (Hr & Hc & Hv & Hk). split; [by eapply cached_only|done].
Qed.

Lemma cached_view_handle refs hs ws V s b bno d :
  cached refs hs ws V s -> handle s b bno d -> 0 <= bno < LOGICAL_DISK_SIZE -> V bno = Some d.
Proof.
  intros H Hh Hb. rewrite <- (ca_view _ _ _ _ _ H) by done.
  by apply (law_handle refs hs s b); [apply H|].
Qed.

(** A step of the log that runs an operation of the cache. *)
Lemma wp_in_bio {A} (m : M bstate A) s (Q : A -> lstate -> Prop) :
  wp m (bio s) (fun a b => Q a (set_bio b s)) -> wp (in_bio m) s Q.
Proof. apply wp_zoom. Qed.

(** ** The log and the cache together *)

Definition logged (refs : gmap Z Z) (hs : gset Z) (ws : list (Z * block)) (V : Z -> option block)
    (L : log) (s : lstate) : Prop := cached refs hs ws V (bio s) /\ lg s = L.

(** The log region, and a block outside it. *)
Definition log_region (start b : Z) : Prop := start <= b <= start + LOGBLOCKS.
Definition home_block (start b : Z) : Prop :=
  0 <= b < LOGICAL_DISK_SIZE /\ ~ log_region start b.

Record log_ok (L : log) : Prop := {
  lo_dev : log_dev L = ROOTDEV;
  lo_start : 0 <= log_start L /\ log_start L + LOGSIZE < LOGICAL_DISK_SIZE;
  lo_blocks : length (lh_block L) = Z.to_nat LOGSIZE
}.

(** The count of a block that was pinned once or never, after [bread],
    [bunpin] and [brelse]. *)
Definition unref (refs : gmap Z Z) (b : Z) : gmap Z Z :=
  if refs_of refs b =? 1 then delete b refs else <[b := refs_of refs b - 1]> refs.

Lemma get_lh_block_eq s i b :
  lh_block (lg s) !! Z.to_nat i = Some b -> 0 <= i -> get_lh_block i s = Ret b s.
Proof.
  intros Hb Hi. unfold get_lh_block, getl, bind, gets, of_option.
  rewrite (proj2 (Z.ltb_ge i 0)) by done. by rewrite Hb.
Qed.

Lemma replica_writes_logical b d w :
  0 <= b < LOGICAL_DISK_SIZE -> w ∈ replica_writes f e b d ->
  (w.1 = b \/ w.1 = b + DISK1_START_BLOCK) /\ w.2 = d.
Proof.
  intros Hb. unfold replica_writes. rewrite elem_of_app.
  destruct (writes_primary f e b), (writes_mirror f); set_solver.
Qed.

(** Writing one block leaves the replicas of the others alone. *)
Lemma on_replica_other ws b d b' :
  0 <= b < LOGICAL_DISK_SIZE -> 0 <= b' < LOGICAL_DISK_SIZE -> b <> b' ->
  on_replica (ws ++ replica_writes f e b d) b' = on_replica ws b'.
Proof.
  intros Hb Hb' Hne. unfold on_replica. rewrite apply_writes_app. apply apply_writes_other.
  intros w Hw. apply replica_writes_logical in Hw as [Hw _]; [|done].
  unfold read_block. rewrite LOGICAL_eq, DISK1_eq in *. destruct (use_mirror f e b'); lia.
Qed.

Lemma on_replica_view refs hs ws V s b :
  cached refs hs ws V s -> refs !! b = None -> 0 <= b < LOGICAL_DISK_SIZE ->
  on_replica ws b = V b.
Proof.
  intros H Hn Hb. rewrite <- (ca_view _ _ _ _ _ H) by done.
  rewrite (law_view refs hs s b (ca_rel _ _ _ _ _ H)) by done.
  unfold disk_read. by rewrite (ca_fail _ _ _ _ _ H), (ca_err _ _ _ _ _ H), (ca_disk _ _ _ _ _ H).
Qed.

Lemma copy_data_spec refs hs ws V L s dst src bd bs d d' :
  logged refs hs ws V L s -> bd ∈ hs -> handle (bio s) dst bd d -> handle (bio s) src bs d' ->
  wp (copy_data dst src) s (fun _ s' =>
    logged refs hs ws (vset V bd d') L s' /\ handle (bio s') dst bd d' /\
    keeps_handles (hs ∖ {[bd]}) (bio s) (bio s')).
Proof.
  intros [H HL] Hin Hd (x & [_ Hx] & _ & _ & _ & Hda). unfold copy_data. apply wp_in_bio.
  apply wp_bind. eapply wp_eq; [by apply getb_eq|]. rewrite Hda.
  eapply wp_mono; [by apply (cached_set refs hs ws V (bio s) dst bd d d')|].
  intros [] s' (H' & Hh & Hk). done.
Qed.

(** The body of the loop of [install_trans]. *)
Lemma install_one refs ws V L s tail b d :
  logged refs ∅ ws V L s -> log_ok L -> 0 <= tail < LOGBLOCKS ->
  lh_block L !! Z.to_nat tail = Some b -> home_block (log_start L) b ->
  refs !! (log_start L + tail + 1) = None ->
  (refs_of refs b = 0 \/ refs_of refs b = 1) -> (forall b, refs !! b <> Some 0) ->
  Z.of_nat (size refs) < NBUF ->
  (is_Some (refs !! b) \/ Z.of_nat (size refs) + 1 < NBUF) ->
  V (log_start L + tail + 1) = Some d -> is_Some (V b) ->
  wp ((let! dev := getl log_dev in
    let! start := getl log_start in
    let! lbuf := in_bio (bread dev (u32 (start + tail + 1))) in
    let! blk := get_lh_block tail in
    let! dbuf := in_bio (bread dev (u32 blk)) in
    copy_data dbuf lbuf ;;;
    in_bio (bwrite dbuf) ;;;
    in_bio (bunpin dbuf) ;;;
    in_bio (brelse lbuf) ;;;
    in_bio (brelse dbuf))) s (fun _ s' =>
    logged (unref refs b) ∅ (ws ++ replica_writes f e b d) (vset V b d) L s').
Proof.
  intros [H HL] Hok Ht Hb [Hbl Hbh] Hnone Hr Hnz Hsz Hroom Hd [d0 Hd0].
  destruct Hok as [Hdev [Hs1 Hs2] Hlen]. set (lb := log_start L + tail + 1) in *.
  assert (Hlb : 0 <= lb < LOGICAL_DISK_SIZE) by (unfold lb, LOGBLOCKS, LOGSIZE, MAXOPBLOCKS in *; lia).
  assert (Hne : lb <> b) by (intros <-; apply Hbh; unfold log_region, lb; lia).
  apply wp_bind, wp_gets. rewrite HL, Hdev. apply wp_bind, wp_gets. rewrite HL. fold lb.
  rewrite u32_small by (rewrite LOGICAL_eq in *; lia).
  apply wp_bind, wp_in_bio. eapply wp_mono.
  { apply (cached_bread refs ∅ ws V (bio s) lb d); [done|set_solver|done|by right|done| |done].
    unfold refs_of. by rewrite Hnone. }
  intros lbuf s1 (H1 & Hh1 & _). unfold refs_of in H1 at 1. rewrite Hnone in H1.
  change (default 0 None + 1) with 1 in H1. rewrite union_empty_r_L in H1.
  apply wp_bind. eapply wp_eq; [by apply get_lh_block_eq; [simpl; rewrite HL|lia]|]. cbv beta.
  rewrite u32_small by (rewrite LOGICAL_eq in *; lia).
  assert (Hrb : refs_of (<[lb := 1]> refs) b = refs_of refs b)
    by (unfold refs_of; by rewrite lookup_insert_ne).
  apply wp_bind, wp_in_bio. eapply wp_mono.
  { apply (cached_bread _ _ ws V s1 b d0 H1); [set_solver|done| | | |done].
    - rewrite lookup_insert_ne by done. destruct Hroom as [?|?]; [by left|right].
      rewrite map_size_insert_None by done. lia.
    - intros b'. destruct (decide (b' = lb)) as [->|]; [by rewrite lookup_insert_eq|].
      by rewrite lookup_insert_ne.
    - rewrite Hrb. unfold INT_MAX. lia. }
  intros dbuf s2 (H2 & Hh2 & Hk2). rewrite Hrb in H2.
  assert (Hh1' : handle s2 lbuf lb d) by (apply Hk2; [set_solver|done]).
  cbn [bio set_bio] in *.
  apply wp_bind. eapply wp_mono.
  { apply (copy_data_spec (<[b := refs_of refs b + 1]> (<[lb := 1]> refs)) ({[b]} ∪ {[lb]})
      ws V L (set_bio s2 (set_bio s1 s)) dbuf lbuf b lb d0 d); try done. set_solver. }
  intros [] s3 ([H3 HL3] & Hh3 & Hk3). cbn [bio set_bio] in Hk3.
  assert (Hh4 : handle (bio s3) lbuf lb d) by (apply Hk3; [set_solver|done]).
  apply wp_bind, wp_in_bio. eapply wp_mono.
  { apply (cached_bwrite _ _ _ _ (bio s3) dbuf b d H3); [set_solver|done]. }
  intros [] s4 (H4 & Hk4). cbn [bio set_bio].
  apply wp_bind, wp_in_bio. eapply wp_mono.
  { apply (cached_bunpin _ _ _ _ s4 dbuf b d (refs_of refs b + 1) H4).
    - apply Hk4; [set_solver|done].
    - by rewrite lookup_insert_eq.
    - unfold INT_MIN. lia. }
  intros [] s5 (H5 & Hk5). cbn [bio set_bio] in *. rewrite insert_insert_eq in H5.
  replace (refs_of refs b + 1 - 1) with (refs_of refs b) in H5 by lia.
  apply wp_bind, wp_in_bio. eapply wp_mono.
  { apply (cached_brelse _ _ _ _ s5 lbuf lb d 1 H5).
    - set_solver.
    - apply Hk5; [set_solver|]. apply Hk4; [set_solver|done].
    - rewrite lookup_insert_ne by done. by rewrite lookup_insert_eq.
    - done.
    - intros _. rewrite on_replica_other by done.
      by rewrite (on_replica_view refs ∅ ws V (bio s)). }
  intros [] s6 (H6 & Hk6). cbn [bio set_bio] in *. rewrite Z.eqb_refl in H6.
  rewrite delete_insert_ne, delete_insert_eq in H6 by done.
  rewrite (delete_id refs lb) in H6 by done.
  assert (Hdif : ({[b]} ∪ {[lb]}) ∖ {[lb]} = ({[b]} : gset Z)) by set_solver.
  rewrite Hdif in *.
  apply wp_in_bio. eapply wp_mono.
  { apply (cached_brelse _ _ _ _ s6 dbuf b d (refs_of refs b) H6).
    - set_solver.
    - apply Hk6; [set_solver|]. apply Hk5; [set_solver|]. apply Hk4; [set_solver|done].
    - by rewrite lookup_insert_eq.
    - unfold INT_MIN. lia.
    - intros _. by apply on_replica_written. }
  intros [] s7 (H7 & _). split; [|done]. cbn [bio set_bio].
  rewrite difference_diag_L in H7.
  assert (unref refs b = (if refs_of refs b =? 1 then delete b (<[b:=refs_of refs b]> refs)
    else <[b:=refs_of refs b - 1]> (<[b:=refs_of refs b]> refs))) as ->; [|done].
  unfold unref. destruct (refs_of refs b =? 1);
    [by rewrite delete_insert_eq|by rewrite insert_insert_eq].
Qed.

(** *** The loops *)

Definition home_writes (bl : list Z) (ds : list block) : list (Z * block) :=
  concat (zip_with (fun b d => replica_writes f e b d) bl ds).
Definition unrefs (bl : list Z) (refs : gmap Z Z) : gmap Z Z := fold_left unref bl refs.
Lemma refs_of_unref_ne refs b b' : b <> b' -> unref refs b !! b' = refs !! b'.
Proof.
  intros Hne. unfold unref. destruct (_ =? 1); [by apply lookup_delete_ne|by apply lookup_insert_ne].
Qed.

Lemma unrefs_other bl refs b : b ∉ bl -> unrefs bl refs !! b = refs !! b.
Proof.
  revert refs. induction bl as [|b' bl IH]; intros refs Hb; [done|]. simpl.
  rewrite IH by set_solver. apply refs_of_unref_ne. set_solver.
Qed.

Lemma unrefs_snoc bl b refs : unrefs (bl ++ [b]) refs = unref (unrefs bl refs) b.
Proof. unfold unrefs. by rewrite fold_left_app. Qed.

Lemma home_writes_snoc bl ds b d :
  length bl = length ds ->
  home_writes (bl ++ [b]) (ds ++ [d]) = home_writes bl ds ++ replica_writes f e b d.
Proof.
  intros H. unfold home_writes. rewrite zip_with_app, concat_app by done. simpl.
  by rewrite app_nil_r.
Qed.

(** The counts of the logged blocks before [install_trans]: 1 when they are
    pinned by [log_write], none in recovery. *)
Definition pin_count (pinned : bool) : option Z := if pinned then Some 1 else None.

Lemma size_unref refs b (pinned : bool) :
  refs !! b = pin_count pinned ->
  (size (unref refs b) <= size refs + (if pinned then 0 else 1))%nat.
Proof.
  intros Hb. unfold unref, refs_of. rewrite Hb. destruct pinned; simpl.
  - rewrite map_size_delete_Some by (rewrite Hb; by eexists). lia.
  - rewrite map_size_insert_None by done. lia.
Qed.

Lemma unrefs_bounds (pinned : bool) bl refs :
  NoDup bl -> (forall b, b ∈ bl -> refs !! b = pin_count pinned) ->
  (forall b, refs !! b <> Some 0) ->
  (size (unrefs bl refs) <= size refs + (if pinned then 0 else length bl))%nat /\
  (forall b, unrefs bl refs !! b <> Some 0).
Proof.
  revert refs. induction bl as [|b bl IH]; intros refs Hnd Hc Hnz; simpl.
  { split; [destruct pinned; lia|done]. }
  apply list.NoDup_cons in Hnd as [Hni Hnd].
  pose proof (Hc b (list_elem_of_here _ _)) as Hb.
  destruct (IH (unref refs b)) as [H1 H2]; [done| | |].
  - intros b' Hb'. rewrite refs_of_unref_ne by (by intros ->). apply Hc. by right.
  - intros b'. destruct (decide (b = b')) as [<-|Hne]; [|by rewrite refs_of_unref_ne].
    unfold unref, refs_of. rewrite Hb. destruct pinned; simpl;
      [by rewrite lookup_delete_eq|by rewrite lookup_insert_eq].
  - split; [|done]. pose proof (size_unref refs b pinned Hb). destruct pinned; lia.
Qed.

(** The blocks of a transaction: [bl] are their home blocks, in the order of
    the log, [ds] their new contents. *)
Record txn_ok (L : log) (bl : list Z) (ds : list block) : Prop := {
  tx_log : log_ok L;
  tx_n : lh_n L = Z.of_nat (length bl);
  tx_len : length ds = length bl;
  tx_blocks : forall i b, bl !! i = Some b -> lh_block L !! i = Some b;
  tx_nodup : NoDup bl;
  tx_home : forall b, b ∈ bl -> home_block (log_start L) b;
  tx_size : Z.of_nat (length bl) <= LOGBLOCKS
}.

Lemma txn_lookup L bl ds k :
  txn_ok L bl ds -> 0 <= k < Z.of_nat (length bl) ->
  exists b d, bl !! Z.to_nat k = Some b /\ ds !! Z.to_nat k = Some d /\
    lh_block L !! Z.to_nat k = Some b /\ home_block (log_start L) b /\
    b ∉ take (Z.to_nat k) bl /\
    take (Z.to_nat (k + 1)) bl = take (Z.to_nat k) bl ++ [b] /\
    take (Z.to_nat (k + 1)) ds = take (Z.to_nat k) ds ++ [d] /\
    length (take (Z.to_nat k) bl) = length (take (Z.to_nat k) ds) /\
    log_start L + k + 1 ∉ bl /\ 0 <= log_start L + k + 1 < LOGICAL_DISK_SIZE /\
    k < LOGBLOCKS.
Proof.
  intros [[_ [Hs1 Hs2] _] Hn Hlen Hbl Hnd Hh Hsz] Hk.
  destruct (lookup_lt_is_Some_2 bl (Z.to_nat k)) as [b Hb]; [lia|].
  destruct (lookup_lt_is_Some_2 ds (Z.to_nat k)) as [d Hd]; [lia|].
  exists b, d. split; [done|]. split; [done|]. split; [by apply Hbl|].
  split; [apply Hh; by apply list_elem_of_lookup_2 in Hb|].
  split.
  { intros (i & Hi)%list_elem_of_lookup_1. pose proof (lookup_lt_Some _ _ _ Hi) as Hlt.
    rewrite length_take in Hlt. rewrite lookup_take_lt in Hi by lia.
    pose proof (NoDup_lookup _ _ _ _ Hnd Hi Hb). lia. }
  rewrite Z2Nat.inj_add by lia. change (Z.to_nat 1) with 1%nat. rewrite Nat.add_1_r.
  split; [by apply take_S_r|]. split; [by apply take_S_r|].
  split; [rewrite !length_take; lia|]. split; [|split; unfold LOGBLOCKS, LOGSIZE, MAXOPBLOCKS in *; lia].
  intros Hin. destruct (Hh _ Hin) as [_ Hni]. apply Hni. unfold log_region. lia.
Qed.

Lemma install_trans_spec (pinned : bool) refs ws V L s bl ds :
  logged refs ∅ ws V L s -> txn_ok L bl ds ->
  (forall b, b ∈ bl -> refs !! b = pin_count pinned) -> (forall b, refs !! b <> Some 0) ->
  (forall k, 0 <= k < LOGBLOCKS -> refs !! (log_start L + k + 1) = None) ->
  Z.of_nat (size refs) + (if pinned then 0 else Z.of_nat (length bl)) < NBUF ->
  (forall i d, ds !! i = Some d -> V (log_start L + Z.of_nat i + 1) = Some d) ->
  (forall b, b ∈ bl -> is_Some (V b)) ->
  wp install_trans s (fun _ s' =>
    logged (unrefs bl refs) ∅ (ws ++ home_writes bl ds) (vsets bl ds V) L s').
Proof.
  intros H Hok Hc Hnz Hnone Hroom Hds Hhome. unfold install_trans.
  apply wp_bind, wp_gets. rewrite (proj2 H), (tx_n _ _ _ Hok).
  set (I := fun k s' => logged (unrefs (take (Z.to_nat k) bl) refs) ∅
    (ws ++ home_writes (take (Z.to_nat k) bl) (take (Z.to_nat k) ds))
    (vsets (take (Z.to_nat k) bl) (take (Z.to_nat k) ds) V) L s').
  eapply wp_mono; [apply (wp_for_seq I)|].
  - unfold I. simpl. by rewrite app_nil_r.
  - lia.
  - intros k s1 Hk HI. unfold I in HI.
    destruct (txn_lookup L bl ds k Hok Hk) as
      (b & d & Hb & Hd & HLb & Hhb & Hnt & Htb & Htd & Hlen & Hlog & Hlogr & Hkl).
    assert (Hbin : b ∈ bl) by by apply list_elem_of_lookup_2 in Hb.
    destruct (unrefs_bounds pinned (take (Z.to_nat k) bl) refs) as [Hsz Hnz'].
    { by apply NoDup_take, (tx_nodup _ _ _ Hok). }
    { intros b' Hb'. apply Hc. by eapply elem_of_take_in. }
    { done. }
    rewrite length_take in Hsz.
    assert (Hcb : unrefs (take (Z.to_nat k) bl) refs !! b = pin_count pinned)
      by (rewrite unrefs_other by done; by apply Hc).
    eapply wp_mono.
    { apply (install_one _ _ _ L s1 k b d HI); try done.
      - apply Hok.
      - lia.
      - rewrite unrefs_other; [apply Hnone; lia|].
        intros Hin. apply Hlog. by eapply elem_of_take_in.
      - unfold refs_of. rewrite Hcb. destruct pinned; simpl; lia.
      - destruct pinned; lia.
      - rewrite Hcb. destruct pinned; simpl; [left; by eexists|right; lia].
      - rewrite vsets_other.
        + apply (Hds (Z.to_nat k)) in Hd. rewrite Z2Nat.id in Hd by lia. done.
        + intros Hin. apply Hlog. by eapply elem_of_take_in.
      - rewrite vsets_other by done. by apply Hhome. }
    intros [] s2 H2. unfold I. rewrite Htb, Htd, unrefs_snoc, vsets_snoc, home_writes_snoc by done.
    by rewrite app_assoc.
  - intros [] s' HI. unfold I in HI. rewrite Nat2Z.id in HI. pose proof (tx_len _ _ _ Hok).
    rewrite (take_ge bl), (take_ge ds) in HI by lia. done.
Qed.

(** *** [write_log] *)

Lemma write_log_one refs ws V L s tail b d :
  logged refs ∅ ws V L s -> log_ok L -> 0 <= tail < LOGBLOCKS ->
  lh_block L !! Z.to_nat tail = Some b -> home_block (log_start L) b ->
  refs !! (log_start L + tail + 1) = None -> refs !! b = Some 1 ->
  (forall b, refs !! b <> Some 0) -> Z.of_nat (size refs) < NBUF ->
  is_Some (V (log_start L + tail + 1)) -> V b = Some d ->
  wp ((let! dev := getl log_dev in
    let! start := getl log_start in
    let! to := in_bio (bread dev (u32 (start + tail + 1))) in
    let! blk := get_lh_block tail in
    let! from := in_bio (bread dev (u32 blk)) in
    copy_data to from ;;;
    in_bio (bwrite to) ;;;
    in_bio (brelse from) ;;;
    in_bio (brelse to))) s (fun _ s' =>
    logged refs ∅ (ws ++ replica_writes f e (log_start L + tail + 1) d)
      (vset V (log_start L + tail + 1) d) L s').
Proof.
  intros [H HL] Hok Ht Hb [Hbl Hbh] Hnone Hr Hnz Hsz [d0 Hd0] Hd.
  destruct Hok as [Hdev [Hs1 Hs2] Hlen]. set (lb := log_start L + tail + 1) in *.
  assert (Hlb : 0 <= lb < LOGICAL_DISK_SIZE) by (unfold lb, LOGBLOCKS, LOGSIZE, MAXOPBLOCKS in *; lia).
  assert (Hne : lb <> b) by (intros <-; apply Hbh; unfold log_region, lb; lia).
  apply wp_bind, wp_gets. rewrite HL, Hdev. apply wp_bind, wp_gets. rewrite HL. fold lb.
  rewrite u32_small by (rewrite LOGICAL_eq in *; lia).
  apply wp_bind, wp_in_bio. eapply wp_mono.
  { apply (cached_bread refs ∅ ws V (bio s) lb d0); [done|set_solver|done|by right|done| |done].
    unfold refs_of. by rewrite Hnone. }
  intros to s1 (H1 & Hh1 & _). unfold refs_of in H1 at 1. rewrite Hnone in H1.
  change (default 0 None + 1) with 1 in H1. rewrite union_empty_r_L in H1.
  apply wp_bind. eapply wp_eq; [by apply get_lh_block_eq; [simpl; rewrite HL|lia]|]. cbv beta.
  rewrite u32_small by (rewrite LOGICAL_eq in *; lia).
  assert (Hrb : refs_of (<[lb := 1]> refs) b = 1)
    by (unfold refs_of; rewrite lookup_insert_ne by done; by rewrite Hr).
  apply wp_bind, wp_in_bio. eapply wp_mono.
  { apply (cached_bread _ _ ws V s1 b d H1); [set_solver|done| | | |done].
    - left. rewrite lookup_insert_ne by done. by eexists.
    - intros b'. destruct (decide (b' = lb)) as [->|]; [by rewrite lookup_insert_eq|].
      by rewrite lookup_insert_ne.
    - by rewrite Hrb. }
  intros from s2 (H2 & Hh2 & Hk2). rewrite Hrb in H2. change (1 + 1) with 2 in H2.
  assert (Hh1' : handle s2 to lb d0) by (apply Hk2; [set_solver|done]).
  cbn [bio set_bio] in *.
  apply wp_bind. eapply wp_mono.
  { apply (copy_data_spec (<[b := 2]> (<[lb := 1]> refs)) ({[b]} ∪ {[lb]})
      ws V L (set_bio s2 (set_bio s1 s)) to from lb b d0 d); try done. set_solver. }
  intros [] s3 ([H3 HL3] & Hh3 & Hk3). cbn [bio set_bio] in Hk3.
  assert (Hh4 : handle (bio s3) from b d) by (apply Hk3; [set_solver|done]).
  apply wp_bind, wp_in_bio. eapply wp_mono.
  { apply (cached_bwrite _ _ _ _ (bio s3) to lb d H3); [set_solver|done]. }
  intros [] s4 (H4 & Hk4). cbn [bio set_bio].
  apply wp_bind, wp_in_bio. eapply wp_mono.
  { apply (cached_brelse _ _ _ _ s4 from b d 2 H4); [set_solver| |by rewrite lookup_insert_eq|done|done].
    apply Hk4; [set_solver|done]. }
  intros [] s5 (H5 & Hk5). cbn [bio set_bio] in *. change (2 =? 1) with false in H5.
  cbv iota in H5. change (2 - 1) with 1 in H5. rewrite insert_insert_eq in H5.
  assert (Hdif : ({[b]} ∪ {[lb]}) ∖ {[b]} = ({[lb]} : gset Z)) by set_solver.
  rewrite Hdif in *.
  apply wp_in_bio. eapply wp_mono.
  { apply (cached_brelse _ _ _ _ s5 to lb d 1 H5).
    - set_solver.
    - apply Hk5; [set_solver|]. apply Hk4; [set_solver|done].
    - rewrite lookup_insert_ne by done. by rewrite lookup_insert_eq.
    - done.
    - intros _. by apply on_replica_written. }
  intros [] s6 (H6 & _). split; [|done]. cbn [bio set_bio].
  rewrite Z.eqb_refl, difference_diag_L, delete_insert_ne, delete_insert_eq in H6 by done.
  rewrite delete_id, insert_id in H6 by done. done.
Qed.

Lemma write_log_spec refs ws V L s bl ds :
  logged refs ∅ ws V L s -> txn_ok L bl ds ->
  (forall b, b ∈ bl -> refs !! b = Some 1) -> (forall b, refs !! b <> Some 0) ->
  (forall k, 0 <= k < LOGBLOCKS -> refs !! (log_start L + k + 1) = None) ->
  Z.of_nat (size refs) < NBUF ->
  (forall k, 0 <= k < LOGBLOCKS -> is_Some (V (log_start L + k + 1))) ->
  (forall i b d, bl !! i = Some b -> ds !! i = Some d -> V b = Some d) ->
  wp write_log s (fun _ s' =>
    logged refs ∅ (ws ++ home_writes (log_blocks (log_start L) (length bl)) ds)
      (vsets (log_blocks (log_start L) (length bl)) ds V) L s').
Proof.
  intros H Hok Hc Hnz Hnone Hroom Hlogv Hds. unfold write_log.
  apply wp_bind, wp_gets. rewrite (proj2 H), (tx_n _ _ _ Hok).
  set (I := fun k s' => logged refs ∅
    (ws ++ home_writes (log_blocks (log_start L) (Z.to_nat k)) (take (Z.to_nat k) ds))
    (vsets (log_blocks (log_start L) (Z.to_nat k)) (take (Z.to_nat k) ds) V) L s').
  eapply wp_mono; [apply (wp_for_seq I)|].
  - unfold I. simpl. by rewrite app_nil_r.
  - lia.
  - intros k s1 Hk HI. unfold I in HI.
    destruct (txn_lookup L bl ds k Hok Hk) as
      (b & d & Hb & Hd & HLb & Hhb & Hnt & Htb & Htd & Hlen & Hlog & Hlogr & Hkl).
    assert (Hbin : b ∈ bl) by by apply list_elem_of_lookup_2 in Hb.
    eapply wp_mono.
    { apply (write_log_one _ _ _ L s1 k b d HI); try done.
      - apply Hok.
      - lia.
      - apply Hnone. lia.
      - by apply Hc.
      - rewrite vsets_other; [apply Hlogv; lia|]. rewrite elem_of_log_blocks. lia.
      - rewrite vsets_other; [by eapply Hds|]. rewrite elem_of_log_blocks. intros Hin.
        destruct Hhb as [_ Hni]. apply Hni. unfold log_region. lia. }
    intros [] s2 H2. unfold I. rewrite Htd.
    replace (Z.to_nat (k + 1)) with (S (Z.to_nat k)) by lia.
    rewrite log_blocks_snoc, Z2Nat.id by lia.
    assert (length (log_blocks (log_start L) (Z.to_nat k)) = length (take (Z.to_nat k) ds)).
    { rewrite length_log_blocks, <- Hlen, length_take. lia. }
    rewrite vsets_snoc, home_writes_snoc by done. by rewrite app_assoc.
  - intros [] s' HI. unfold I in HI. rewrite Nat2Z.id in HI. pose proof (tx_len _ _ _ Hok).
    rewrite (take_ge ds) in HI by lia. done.
Qed.

(** *** [write_head] *)

Fixpoint put_entries (i : nat) (bl : list Z) (h : block) : block :=
  match bl with
  | [] => h
  | b :: bl' => put_entries (S i) bl' (put32 h (4 + 4 * i)%nat b)
  end.

(** The header block with the entries [bl], over the old block [h]. *)
Definition header (bl : list Z) (h : block) : block :=
  put_entries 0 bl (put32 h 0 (Z.of_nat (length bl))).

Lemma put_entries_snoc bl b i h :
  put_entries i (bl ++ [b]) h = put32 (put_entries i bl h) (4 + 4 * (i + length bl))%nat b.
Proof.
  revert i h. induction bl as [|b' bl IH]; intros i h; cbn [put_entries app length].
  - f_equal. lia.
  - rewrite IH. f_equal. lia.
Qed.

Lemma updb_data_spec refs hs ws V L s b bno d (g : block -> block) :
  logged refs hs ws V L s -> bno ∈ hs -> handle (bio s) b bno d ->
  wp (in_bio (updb b (fun x => set_data (g (b_data x)) x))) s (fun _ s' =>
    logged refs hs ws (vset V bno (g d)) L s' /\ handle (bio s') b bno (g d)).
Proof.
  intros [H HL] Hin Hh. apply wp_in_bio.
  assert (Heq : updb b (fun x => set_data (g (b_data x)) x) (bio s) = updb b (set_data (g d)) (bio s)).
  { destruct Hh as (x & [_ Hx] & _ & _ & _ & Hda). rewrite !(updb_eq b _ x) by done. by rewrite Hda. }
  unfold wp at 1. rewrite Heq. fold (wp (updb b (set_data (g d))) (bio s)
    (fun _ b0 => logged refs hs ws (vset V bno (g d)) L (set_bio b0 s) /\ handle b0 b bno (g d))).
  eapply wp_mono; [by apply (cached_set refs hs ws V (bio s) b bno d)|].
  intros [] s' (H' & Hh' & _). done.
Qed.

Lemma cached_view_ext refs hs ws V V' s :
  cached refs hs ws V s -> (forall b, V b = V' b) -> cached refs hs ws V' s.
Proof.
  intros [H1 H2 H3 H4 H5 H6 H7] He. constructor; try done. intros b Hb. by rewrite <- He, H7.
Qed.

Lemma write_head_spec refs ws V L s bl h :
  logged refs ∅ ws V L s -> log_ok L -> lh_n L = Z.of_nat (length bl) ->
  (forall i b, bl !! i = Some b -> lh_block L !! i = Some b) ->
  refs !! log_start L = None -> (forall b, refs !! b <> Some 0) ->
  Z.of_nat (size refs) < NBUF -> V (log_start L) = Some h ->
  wp write_head s (fun _ s' =>
    logged refs ∅ (ws ++ replica_writes f e (log_start L) (header bl h))
      (vset V (log_start L) (header bl h)) L s').
Proof.
  intros [H HL] [Hdev [Hs1 Hs2] Hlen] Hn Hbl Hnone Hnz Hsz Hh. unfold write_head.
  set (st := log_start L) in *.
  assert (Hst : 0 <= st < LOGICAL_DISK_SIZE) by (unfold LOGBLOCKS, LOGSIZE, MAXOPBLOCKS in *; lia).
  apply wp_bind, wp_gets. rewrite HL, Hdev. apply wp_bind, wp_gets. rewrite HL. fold st.
  rewrite u32_small by (rewrite LOGICAL_eq in *; lia).
  apply wp_bind, wp_in_bio. eapply wp_mono.
  { apply (cached_bread refs ∅ ws V (bio s) st h); [done|set_solver|done|by right|done| |done].
    unfold refs_of. by rewrite Hnone. }
  intros b s1 (H1 & Hh1 & _). unfold refs_of in H1 at 1. rewrite Hnone in H1.
  change (default 0 None + 1) with 1 in H1. rewrite union_empty_r_L in H1.
  apply wp_bind, wp_gets. cbn [lg set_bio]. rewrite HL, Hn.
  set (R := <[st := 1]> refs) in *. set (hs := {[st]} : gset Z) in *.
  apply wp_bind. eapply wp_mono.
  { apply (updb_data_spec R hs ws V L (set_bio s1 s) b st h
      (fun d => put32 d 0 (Z.of_nat (length bl)))); [done|set_solver|done]. }
  cbv beta. intros [] s2 (H2 & Hh2).
  set (h0 := put32 h 0 (Z.of_nat (length bl))) in *.
  set (I := fun k s' => logged R hs ws (vset V st (put_entries 0 (take (Z.to_nat k) bl) h0)) L s' /\
    handle (bio s') b st (put_entries 0 (take (Z.to_nat k) bl) h0)).
  apply wp_bind. eapply wp_mono; [apply (wp_for_seq I)|].
  - done.
  - lia.
  - intros k s3 Hk [[HI HL3] HhI].
    destruct (lookup_lt_is_Some_2 bl (Z.to_nat k)) as [bk Hbk]; [lia|].
    apply wp_bind. eapply wp_eq; [apply get_lh_block_eq; [rewrite HL3; by apply Hbl|lia]|]. cbv beta.
    eapply wp_mono.
    { eapply (updb_data_spec R hs ws _ L s3 b st _ (fun d => put32 d (4 + 4 * Z.to_nat k)%nat bk));
        [by split|set_solver|exact HhI]. }
    cbv beta. intros [] s4 ([H4 HL4] & Hh4). unfold I.
    replace (Z.to_nat (k + 1)) with (S (Z.to_nat k)) by lia.
    rewrite (take_S_r _ _ bk), put_entries_snoc, length_take, Nat.min_l, Nat.add_0_l by first [done|lia].
    split; [|done]. split; [|done]. eapply cached_view_ext; [exact H4|]. intros x. apply vset_twice.
  - intros [] s3 [[H3 HL3] Hh3]. rewrite Nat2Z.id, take_ge in * by lia.
    fold (header bl h) in *. unfold h0 in *. fold (header bl h) in *.
    apply wp_bind, wp_in_bio. eapply wp_mono.
    { eapply (cached_bwrite _ _ _ _ (bio s3) b st (header bl h) H3); [set_solver|done]. }
    intros [] s4 (H4 & Hk4). cbn [bio set_bio]. apply wp_in_bio. eapply wp_mono.
    { apply (cached_brelse _ _ _ _ s4 b st (header bl h) 1 H4).
      - set_solver.
      - apply Hk4; [set_solver|done].
      - unfold R. by rewrite lookup_insert_eq.
      - done.
      - intros _. by apply on_replica_written. }
    intros [] s5 (H5 & _). split; [|done]. cbn [bio set_bio].
    unfold R, hs in H5.
    by rewrite Z.eqb_refl, difference_diag_L, delete_insert_eq, delete_id in H5.
Qed.

(** *** [commit] *)

(** The block writes of a commit of [bl], [ds] over the old header [h]: the log
    blocks, the header (the commit point), the home blocks, the erased
    header. *)
Definition commit_writes (start : Z) (bl : list Z) (ds : list block) (h : block) : list (Z * block) :=
  home_writes (log_blocks start (length bl)) ds ++
  replica_writes f e start (header bl h) ++
  home_writes bl ds ++
  replica_writes f e start (header [] (header bl h)).

(** What holds when [commit] starts: the blocks of the transaction are pinned,
    the log region is not referenced, a buffer is free. *)
Record commit_pre (refs : gmap Z Z) (V : Z -> option block) (L : log) (bl : list Z)
    (ds : list block) (h : block) : Prop := {
  cp_txn : txn_ok L bl ds;
  cp_pinned : forall b, b ∈ bl -> refs !! b = Some 1;
  cp_nonzero : forall b, refs !! b <> Some 0;
  cp_region : forall b, log_region (log_start L) b -> refs !! b = None;
  cp_room : Z.of_nat (size refs) < NBUF;
  cp_log : forall k, 0 <= k < LOGBLOCKS -> is_Some (V (log_start L + k + 1));
  cp_header : V (log_start L) = Some h;
  cp_data : forall i b d, bl !! i = Some b -> ds !! i = Some d -> V b = Some d
}.

Lemma region_block start k : 0 <= k < LOGBLOCKS -> log_region start (start + k + 1).
Proof. unfold log_region. lia. Qed.

Lemma commit_spec refs V L s bl ds h :
  logged refs ∅ [] V L s -> commit_pre refs V L bl ds h -> bl <> [] ->
  wp commit s (fun _ s' => exists V',
    logged (unrefs bl refs) ∅ (commit_writes (log_start L) bl ds h) V' (set_lh_n 0 L) s' /\
    (forall b, home_block (log_start L) b -> V' b = V b)).
Proof.
  intros H [Hok Hpin Hnz Hreg Hroom Hlog Hh Hds] Hne. unfold commit.
  set (st := log_start L) in *.
  assert (Hn : 0 < lh_n L).
  { rewrite (tx_n _ _ _ Hok). destruct bl; [done|simpl; lia]. }
  apply wp_bind, wp_gets. rewrite (proj2 H). unfold when. rewrite (proj2 (Z.ltb_lt 0 _)) by done.
  assert (Hst : log_region st st) by (unfold log_region, LOGBLOCKS, LOGSIZE, MAXOPBLOCKS; lia).
  assert (Hreg' : forall k, 0 <= k < LOGBLOCKS -> refs !! (st + k + 1) = None)
    by (intros k Hk; by apply Hreg, region_block).
  apply wp_bind. eapply wp_mono.
  { apply (write_log_spec refs [] V L s bl ds H Hok Hpin Hnz Hreg' Hroom Hlog Hds). }
  intros [] s1 H1. fold st in H1. rewrite app_nil_l in H1.
  assert (Hstl : st ∉ log_blocks st (length bl)) by (rewrite elem_of_log_blocks; lia).
  apply wp_bind. eapply wp_mono.
  { apply (write_head_spec refs _ _ L s1 bl h H1); try apply Hok; try done; [by apply Hreg|].
    fold st. by rewrite vsets_other. }
  intros [] s2 H2. fold st in H2.
  apply wp_bind. eapply wp_mono.
  { apply (install_trans_spec true refs _ _ L s2 bl ds H2 Hok); try done.
    - lia.
    - fold st. intros i d Hd. pose proof (lookup_lt_Some _ _ _ Hd) as Hlt.
      rewrite (tx_len _ _ _ Hok) in Hlt. unfold vset. rewrite decide_False by lia.
      apply (vsets_lookup _ _ _ i); [|by apply log_blocks_lookup|done].
      unfold log_blocks. apply NoDup_fmap_2; [intros ? ? ?; lia|apply NoDup_seq].
    - intros b Hb. destruct (tx_home _ _ _ Hok b Hb) as [_ Hni].
      unfold vset. rewrite decide_False by (intros ->; done).
      rewrite vsets_other.
      + apply list_elem_of_lookup_1 in Hb as [i Hi].
        destruct (lookup_lt_is_Some_2 ds i) as [d Hd];
          [rewrite (tx_len _ _ _ Hok); by eapply lookup_lt_Some|].
        exists d. by eapply Hds.
      + rewrite elem_of_log_blocks. intros Hb'. apply Hni. unfold log_region.
        pose proof (tx_size _ _ _ Hok). lia. }
  intros [] s3 [H3 HL3]. apply wp_bind, wp_modify. rewrite HL3.
  destruct (unrefs_bounds true bl refs) as [Hsz Hnz']; [apply Hok|done..|].
  assert (Hstb : st ∉ bl).
  { intros Hin. by destruct (tx_home _ _ _ Hok _ Hin). }
  eapply wp_mono.
  { eapply (write_head_spec (unrefs bl refs) _ _ (set_lh_n 0 L) _ [] (header bl h)); [split; [exact H3|done]|..].
    - destruct (tx_log _ _ _ Hok). by constructor.
    - done.
    - done.
    - change (log_start (set_lh_n 0 L)) with st. rewrite unrefs_other by done. by apply Hreg.
    - done.
    - lia.
    - change (log_start (set_lh_n 0 L)) with st. rewrite vsets_other by done.
      unfold vset. by rewrite decide_True. }
  change (log_start (set_lh_n 0 L)) with st.
  intros [] s4 H4. eexists. split; [unfold commit_writes; rewrite <- !app_assoc in H4; exact H4|].
  intros b [Hb Hni]. unfold vset at 1. rewrite decide_False by (intros ->; done).
  destruct (decide (b ∈ bl)) as [Hin|Hout].
  - apply list_elem_of_lookup_1 in Hin as [i Hi].
    destruct (lookup_lt_is_Some_2 ds i) as [d Hd];
      [rewrite (tx_len _ _ _ Hok); by eapply lookup_lt_Some|].
    rewrite (vsets_lookup bl ds _ i b d) by first [done|apply Hok]. symmetry. by eapply Hds.
  - rewrite vsets_other by done. unfold vset. rewrite decide_False by (intros ->; done).
    apply vsets_other. rewrite elem_of_log_blocks. intros Hb'. apply Hni. unfold log_region.
    pose proof (tx_size _ _ _ Hok). lia.
Qed.

(** *** Recovery *)

(** The entries of a header block. *)
Definition header_n (h : block) : Z := s32 (get32 h 0).
Definition header_entry (h : block) (i : nat) : Z := s32 (get32 h (4 + 4 * i)%nat).

(** The fields that [initlog] sets, and that the operations of the log keep. *)
Definition same_log (L L' : log) : Prop :=
  log_dev L' = log_dev L /\ log_start L' = log_start L /\
  length (lh_block L') = length (lh_block L).

Lemma same_log_ok L L' : log_ok L -> same_log L L' -> log_ok L'.
Proof. intros [H1 H2 H3] (E1 & E2 & E3). constructor; by rewrite ?E1, ?E2, ?E3. Qed.

Lemma put_lh_block_spec s i v (Q : unit -> lstate -> Prop) :
  0 <= i < Z.of_nat (length (lh_block (lg s))) ->
  Q tt (set_lg (set_lh_block (<[Z.to_nat i := v]> (lh_block (lg s))) (lg s)) s) ->
  wp (put_lh_block i v) s Q.
Proof.
  intros Hi H. unfold put_lh_block. apply wp_bind, wp_gets.
  rewrite (proj2 (Z.leb_le 0 i)), (proj2 (Z.ltb_lt i _)) by lia. by apply wp_modify.
Qed.

Lemma read_head_spec refs ws V L s h :
  logged refs ∅ ws V L s -> log_ok L -> header_n h <= LOGSIZE ->
  refs !! log_start L = None -> (forall b, refs !! b <> Some 0) ->
  Z.of_nat (size refs) < NBUF -> V (log_start L) = Some h ->
  wp read_head s (fun _ s' => exists L', logged refs ∅ ws V L' s' /\ same_log L L' /\
    lh_n L' = header_n h /\
    forall i, Z.of_nat i < header_n h -> lh_block L' !! i = Some (header_entry h i)).
Proof.
  intros [H HL] [Hdev [Hs1 Hs2] Hlen] Hn Hnone Hnz Hsz Hh. unfold read_head.
  set (st := log_start L) in *.
  assert (Hst : 0 <= st < LOGICAL_DISK_SIZE) by (unfold LOGBLOCKS, LOGSIZE, MAXOPBLOCKS in *; lia).
  apply wp_bind, wp_gets. rewrite HL, Hdev. apply wp_bind, wp_gets. rewrite HL. fold st.
  rewrite u32_small by (rewrite LOGICAL_eq in *; lia).
  apply wp_bind, wp_in_bio. eapply wp_mono.
  { apply (cached_bread refs ∅ ws V (bio s) st h); [done|set_solver|done|by right|done| |done].
    unfold refs_of. by rewrite Hnone. }
  intros b s1 (H1 & Hh1 & _). unfold refs_of in H1 at 1. rewrite Hnone in H1.
  change (default 0 None + 1) with 1 in H1. rewrite union_empty_r_L in H1.
  pose proof Hh1 as (x & [_ Hx] & _ & _ & _ & Hda).
  apply wp_bind, wp_in_bio. eapply wp_eq; [by apply getb_eq|]. cbv zeta. rewrite Hda.
  change (s32 (get32 h 0)) with (header_n h).
  apply wp_bind, wp_modify, wp_bind, wp_gets. cbn [lg set_lg set_bio lh_n set_lh_n bio].
  set (R := <[st := 1]> refs) in *. set (hs := {[st]} : gset Z) in *.
  set (I := fun k s' => exists L', logged R hs ws V L' s' /\ bio s' = s1 /\ same_log L L' /\
    lh_n L' = header_n h /\
    forall i, Z.of_nat i < k -> lh_block L' !! i = Some (header_entry h i)).
  assert (Hloop : wp (for_all (seqZ 0 (header_n h)) (fun i =>
      put_lh_block i (s32 (get32 h (4 + 4 * Z.to_nat i)%nat))))
      (set_lg (set_lh_n (header_n h) (lg (set_bio s1 s))) (set_bio s1 s))
      (fun _ s' => exists k, header_n h <= k /\ I k s')).
  { destruct (Z.le_gt_cases 0 (header_n h)) as [Hge|Hlt].
    2:{ rewrite seqZ_nil by lia. apply wp_ret. exists 0. split; [lia|].
        eexists; split; [split; [exact H1|reflexivity]|]. cbn. rewrite HL.
        split_and!; try done. intros i Hi. lia. }
    eapply wp_mono; [apply (wp_for_seq I)|].
    - eexists; split; [split; [exact H1|reflexivity]|]. cbn. rewrite HL.
      split_and!; try done. intros i Hi. lia.
    - done.
    - intros k s2 Hk (L2 & [H2 HL2] & Hb2 & (E1 & E2 & E3) & Hn2 & Hent).
      apply put_lh_block_spec; [rewrite HL2, E3, Hlen; lia|].
      eexists; split; [split; [exact H2|reflexivity]|]. rewrite HL2. split; [exact Hb2|].
      split; [split; [done|split; [done|cbn; by rewrite length_insert]]|].
      split; [done|]. intros i Hi. cbn [lg set_lg lh_block set_lh_block].
      destruct (decide (i = Z.to_nat k)) as [->|Hne].
      + rewrite list_lookup_insert_eq by (rewrite E3, Hlen; lia). done.
      + rewrite list_lookup_insert_ne by done. apply Hent. lia.
    - intros [] s2 HI. by exists (header_n h). }
  apply wp_bind. eapply wp_mono; [exact Hloop|].
  intros [] s2 (k & Hk & L2 & [H2 HL2] & Hb2 & Hsame & Hn2 & Hent).
  apply wp_in_bio. eapply wp_mono.
  { apply (cached_brelse _ _ _ _ (bio s2) b st h 1 H2).
    - set_solver.
    - by rewrite Hb2.
    - unfold R. by rewrite lookup_insert_eq.
    - done.
    - intros _. by rewrite (on_replica_view refs ∅ ws V (bio s)). }
  intros [] s3 (H3 & _). exists L2. split; [|split; [done|split; [done|]]].
  - split; [|done]. cbn [bio set_bio]. unfold R, hs in H3.
    by rewrite Z.eqb_refl, difference_diag_L, delete_insert_eq, delete_id in H3.
  - intros i Hi. apply Hent. lia.
Qed.

(** A block can be changed in the cache, pinned and released. *)
Lemma cached_dirty ws V s bno d d' :
  cached ∅ ∅ ws V s -> V bno = Some d -> 0 <= bno < LOGICAL_DISK_SIZE ->
  exists s', cached {[bno := 1]} ∅ ws (vset V bno d') s'.
Proof.
  intros H0 Hd Hb.
  assert (Hr : refs_of ∅ bno = 0) by done.
  destruct (wp_inv _ _ _ (cached_bread ∅ ∅ ws V s bno d H0 ltac:(set_solver) Hb
    ltac:(by right) ltac:(done) ltac:(rewrite Hr; done) Hd)) as (b & s1 & _ & H1 & Hh1 & _).
  rewrite Hr, union_empty_r_L in H1. change (0 + 1) with 1 in H1.
  destruct (wp_inv _ _ _ (cached_set _ _ ws V s1 b bno d d' H1 ltac:(set_solver) Hh1))
    as ([] & s2 & _ & H2 & Hh2 & _).
  assert (Hl : forall n : Z, (<[bno := n]> ∅ : gmap Z Z) !! bno = Some n)
    by (intros n; by rewrite lookup_insert_eq).
  destruct (wp_inv _ _ _ (cached_bpin _ _ ws _ s2 b bno d' 1 H2 Hh2 (Hl 1) ltac:(done)))
    as ([] & s3 & _ & H3 & Hk3). rewrite insert_insert_eq in H3. change (1 + 1) with 2 in H3.
  destruct (wp_inv _ _ _ (cached_brelse _ _ ws _ s3 b bno d' 2 H3 ltac:(set_solver)
    (Hk3 b bno d' ltac:(set_solver) Hh2) (Hl 2) ltac:(done) ltac:(done)))
    as ([] & s4 & _ & H4 & _).
  exists s4. change (2 =? 1) with false in H4. change (2 - 1) with 1 in H4. cbv iota in H4.
  by rewrite insert_insert_eq, difference_diag_L in H4.
Qed.

(** A header [h] on the disk describes the transaction [bl], [ds]. *)
Record logged_txn (V : Z -> option block) (start : Z) (h : block) (bl : list Z)
    (ds : list block) : Prop := {
  lt_n : header_n h = Z.of_nat (length bl);
  lt_entries : forall i b, bl !! i = Some b -> header_entry h i = b;
  lt_len : length ds = length bl;
  lt_nodup : NoDup bl;
  lt_home : forall b, b ∈ bl -> home_block start b;
  lt_size : Z.of_nat (length bl) < NBUF;
  lt_data : forall i d, ds !! i = Some d -> V (start + Z.of_nat i + 1) = Some d;
  lt_old : forall b, b ∈ bl -> is_Some (V b)
}.

Lemma recover_spec V L s bl ds h :
  logged ∅ ∅ [] V L s -> log_ok L -> V (log_start L) = Some h ->
  logged_txn V (log_start L) h bl ds ->
  wp recover_from_log s (fun _ s' => exists V' L',
    logged (unrefs bl ∅) ∅ (home_writes bl ds ++
      replica_writes f e (log_start L) (header [] h)) V' L' s' /\
    lh_n L' = 0 /\ same_log L L' /\
    (forall b, home_block (log_start L) b -> V' b = vsets bl ds V b)).
Proof.
  intros H Hok Hh [Hn Hent Hlen Hnd Hhome Hsz Hds Hold]. unfold recover_from_log.
  assert (HN : NBUF = LOGBLOCKS + 1 /\ NBUF = LOGSIZE) by done.
  apply wp_bind. eapply wp_mono.
  { apply (read_head_spec ∅ [] V L s h H Hok); try done. lia. }
  intros [] s1 (L1 & H1 & Hsame & Hn1 & Hent1). pose proof Hsame as (Hd1 & Hst1 & _).
  assert (Hok1 : txn_ok L1 bl ds).
  { constructor; rewrite ?Hst1; try done; [by eapply same_log_ok|congruence| |lia].
    intros i b Hb. pose proof (lookup_lt_Some _ _ _ Hb).
    rewrite Hent1 by lia. f_equal. by apply Hent. }
  apply wp_bind. eapply wp_mono.
  { apply (install_trans_spec false ∅ [] V L1 s1 bl ds H1 Hok1); rewrite ?Hst1; done. }
  rewrite app_nil_l. intros [] s2 [H2 HL2]. apply wp_bind, wp_modify. rewrite HL2.
  destruct (unrefs_bounds false bl ∅) as [Hsz2 Hnz]; [done..|].
  assert (Hstb : log_start L ∉ bl).
  { intros Hin. apply (Hhome _ Hin). unfold log_region, LOGBLOCKS, LOGSIZE, MAXOPBLOCKS. lia. }
  eapply wp_mono.
  { eapply (write_head_spec (unrefs bl ∅) _ _ (set_lh_n 0 L1) _ [] h); [split; [exact H2|done]|..].
    - destruct (tx_log _ _ _ Hok1). by constructor.
    - done.
    - done.
    - change (log_start (set_lh_n 0 L1)) with (log_start L1). rewrite Hst1.
      by rewrite unrefs_other.
    - done.
    - rewrite map_size_empty in Hsz2. lia.
    - change (log_start (set_lh_n 0 L1)) with (log_start L1). rewrite Hst1.
      by rewrite vsets_other. }
  change (log_start (set_lh_n 0 L1)) with (log_start L1). rewrite Hst1.
  intros [] s3 H3. do 2 eexists. split; [exact H3|]. split; [done|]. split; [done|].
  intros b [_ Hni]. unfold vset. rewrite decide_False; [done|].
  intros ->. apply Hni. unfold log_region, LOGBLOCKS, LOGSIZE, MAXOPBLOCKS. lia.
Qed.

(** A superblock whose log lies on the logical disk. *)
Definition log_on_disk (sb : superblock) : Prop :=
  0 <= sb_logstart sb /\ sb_logstart sb + LOGSIZE < LOGICAL_DISK_SIZE.

Lemma initlog_spec V sb s bl ds h :
  cached ∅ ∅ [] V (bio s) -> log_on_disk sb -> length (lh_block (lg s)) = Z.to_nat LOGSIZE ->
  V (sb_logstart sb) = Some h -> logged_txn V (sb_logstart sb) h bl ds ->
  wp (initlog ROOTDEV sb) s (fun _ s' => exists V' L',
    logged (unrefs bl ∅) ∅ (home_writes bl ds ++
      replica_writes f e (sb_logstart sb) (header [] h)) V' L' s' /\
    lh_n L' = 0 /\ log_ok L' /\ log_start L' = sb_logstart sb /\
    (forall b, home_block (sb_logstart sb) b -> V' b = vsets bl ds V b)).
Proof.
  intros H [Hs1 Hs2] Hlen Hh Htx. unfold initlog.
  rewrite (proj2 (Z.leb_gt _ _)) by done.
  do 4 apply wp_bind, wp_modify. cbn [lg set_lg bio set_log_lock set_start set_size set_log_dev].
  assert (Hst : s32 (sb_logstart sb) = sb_logstart sb).
  { rewrite LOGICAL_eq in Hs2. unfold LOGBLOCKS, LOGSIZE, MAXOPBLOCKS in *. apply s32_small. unfold is_int, INT_MIN, INT_MAX. lia. }
  rewrite Hst. match goal with |- wp _ ?s' _ => set (s1 := s') end.
  set (L := lg s1).
  assert (Hok : log_ok L) by by constructor.
  eapply wp_mono.
  { apply (recover_spec V L _ bl ds h); [by split|done|done|done]. }
  intros [] s' (V' & L' & H' & Hn' & Hsame & HV'). exists V', L'.
  split; [done|]. split; [done|]. split; [by eapply same_log_ok|].
  split; [apply Hsame|done].
Qed.

End client.

(** ** Crashes *)

(** The block writes [ps], each one to the replicas. *)
Definition mirrored (f e : Z) (ps : list (Z * block)) : list (Z * block) :=
  concat ((fun p => replica_writes f e p.1 p.2) <$> ps).

Definition vapply (ps : list (Z * block)) (V : Z -> option block) : Z -> option block :=
  fold_left (fun V p => vset V p.1 p.2) ps V.

Lemma home_writes_mirrored f e bl ds : home_writes f e bl ds = mirrored f e (zip bl ds).
Proof.
  unfold home_writes, mirrored. revert ds. induction bl as [|b bl IH]; intros [|d ds]; simpl; try done.
  by rewrite IH.
Qed.

Lemma vapply_app ps1 ps2 V : vapply (ps1 ++ ps2) V = vapply ps2 (vapply ps1 V).
Proof. apply fold_left_app. Qed.

Lemma vapply_ext ps V V' b : (V b = V' b) -> vapply ps V b = vapply ps V' b.
Proof.
  revert V V'. induction ps as [|p ps IH]; intros V V' H; [done|]. simpl. apply IH.
  unfold vset. by case_decide.
Qed.

Lemma vapply_other ps V b : (forall p, p ∈ ps -> p.1 <> b) -> vapply ps V b = V b.
Proof.
  revert V. induction ps as [|p ps IH]; intros V H; [done|]. simpl.
  rewrite IH by (intros p' Hp'; apply H; by right). unfold vset.
  rewrite decide_False; [done|]. intros ->. by apply (H p (list_elem_of_here _ _)).
Qed.

(** Disk 0 is written, and written first. *)
Lemma replica_writes_primary f b d : f <> 0 ->
  replica_writes f (-1) b d = (b, d) :: (if f =? 1 then [] else [(b + DISK1_START_BLOCK, d)]).
Proof.
  intros Hf. unfold replica_writes, writes_primary, writes_mirror, block_failed.
  rewrite (proj2 (Z.eqb_neq f 0)) by done. simpl. by destruct (f =? 1).
Qed.

(** Whatever prefix of the writes reaches the disk, disk 0 holds the effect of
    a prefix of the block writes. *)
Lemma crash_prefix f ps k D :
  f <> 0 -> (forall p, p ∈ ps -> 0 <= p.1 < LOGICAL_DISK_SIZE) ->
  exists j, (j <= length ps)%nat /\
    (forall b, 0 <= b < LOGICAL_DISK_SIZE ->
      apply_writes (take k (mirrored f (-1) ps)) D !! b = vapply (take j ps) (fun b => D !! b) b) /\
    ((length (mirrored f (-1) ps) <= k)%nat -> j = length ps).
Proof.
  intros Hf. revert k D. induction ps as [|[b0 d] ps IH]; intros k D Hps.
  { exists O. split; [done|]. split; [|done]. intros b Hb. unfold mirrored. simpl. by rewrite take_nil. }
  pose proof (Hps _ (list_elem_of_here _ _)) as Hb0. simpl in Hb0.
  change (mirrored f (-1) ((b0, d) :: ps)) with (replica_writes f (-1) b0 d ++ mirrored f (-1) ps).
  set (R := replica_writes f (-1) b0 d).
  destruct k as [|k].
  { exists O. split; [lia|]. split; [done|]. rewrite length_app. unfold R.
    rewrite replica_writes_primary by done. simpl. lia. }
  destruct (IH (S k - length R)%nat (apply_writes (take (S k) R) D)) as (j & Hj & Hv & Hend).
  { intros p Hp. apply Hps. by right. }
  exists (S j). split; [simpl; lia|]. split.
  - intros b Hb. rewrite take_app, apply_writes_app, Hv by done. simpl. apply vapply_ext.
    unfold R. rewrite replica_writes_primary by done. unfold vset. simpl.
    rewrite apply_writes_other.
    + simpl. destruct (decide (b = b0)) as [->|]; [by rewrite lookup_insert_eq|].
      by rewrite lookup_insert_ne.
    + intros w Hw. apply elem_of_take_in in Hw. rewrite LOGICAL_eq, DISK1_eq in *.
      destruct (f =? 1); [by apply not_elem_of_nil in Hw|]. apply list_elem_of_singleton in Hw as ->.
      simpl. lia.
  - rewrite length_app. intros Hk. simpl. f_equal. apply Hend. lia.
Qed.

(** The entries of a header that was written. *)
Lemma length_put_entries bl i h :
  (4 + 4 * (i + length bl) <= length h)%nat -> length (put_entries i bl h) = length h.
Proof.
  revert i h. induction bl as [|b bl IH]; intros i h H; [done|]. cbn [put_entries length] in *.
  rewrite IH; unfold put32; rewrite length_put_le; lia.
Qed.

Lemma put_entries_below bl i h off :
  (4 + 4 * (i + length bl) <= length h)%nat -> (off + 4 <= 4 + 4 * i)%nat ->
  get32 (put_entries i bl h) off = get32 h off.
Proof.
  revert i h. induction bl as [|b bl IH]; intros i h H Hoff; [done|]. cbn [put_entries length] in *.
  rewrite IH; unfold put32, get32; [|rewrite length_put_le; lia|lia].
  apply get_put_le_ne; lia.
Qed.

Lemma put_entries_get bl i k b h :
  (4 + 4 * (i + length bl) <= length h)%nat -> bl !! k = Some b ->
  get32 (put_entries i bl h) (4 + 4 * (i + k))%nat = u32 b.
Proof.
  revert i k h. induction bl as [|b' bl IH]; intros i k h H Hk; [done|].
  cbn [put_entries length] in *. destruct k as [|k]; simpl in Hk.
  - injection Hk as ->. rewrite put_entries_below; [|unfold put32; rewrite length_put_le; lia|lia].
    rewrite Nat.add_0_r. apply get32_put32. lia.
  - replace (i + S k)%nat with (S i + k)%nat by lia. apply IH; [|done].
    unfold put32. rewrite length_put_le; lia.
Qed.

Lemma header_n_header bl h :
  (4 + 4 * length bl <= length h)%nat -> Z.of_nat (length bl) <= INT_MAX ->
  header_n (header bl h) = Z.of_nat (length bl).
Proof.
  intros H Hi. unfold header_n, header.
  rewrite put_entries_below; [|unfold put32; rewrite length_put_le; lia|lia].
  rewrite get32_put32 by lia. rewrite s32_u32. apply s32_small. unfold is_int, INT_MIN. lia.
Qed.

Lemma header_entry_header bl h i b :
  (4 + 4 * length bl <= length h)%nat -> bl !! i = Some b -> is_int b ->
  header_entry (header bl h) i = b.
Proof.
  intros H Hb Hi. unfold header_entry, header.
  rewrite (put_entries_get bl 0 i b); [|unfold put32; rewrite length_put_le; lia|done].
  rewrite s32_u32. by apply s32_small.
Qed.

Lemma length_header bl h :
  (4 + 4 * length bl <= length h)%nat -> length (header bl h) = length h.
Proof.
  intros H. unfold header. rewrite length_put_entries; unfold put32; rewrite length_put_le; lia.
Qed.

(** What a disk with logical contents [V] holds for the user after recovery:
    either the contents [old] or the contents [new] of every home block. *)
Lemma zip_fst {A B} (l : list A) (k : list B) p : p ∈ zip l k -> p.1 ∈ l.
Proof. destruct p as [a b]. intros H. by apply elem_of_zip_l in H. Qed.

Section crash_states.
Variables (st : Z) (bl : list Z) (ds : list block) (h : block) (old : Z -> option block).
Hypotheses (Hst : 0 <= st /\ st + LOGSIZE < LOGICAL_DISK_SIZE)
  (Hlen : length ds = length bl) (Hnd : NoDup bl)
  (Hhome : forall b, b ∈ bl -> home_block st b)
  (Hsize : Z.of_nat (length bl) < NBUF) (Hh : (4 + 4 * length bl <= length h)%nat)
  (Hold : forall b, 0 <= b < LOGICAL_DISK_SIZE -> is_Some (old b))
  (Hsth : old st = Some h) (Hclean : header_n h = 0).

Definition commit_steps : list (Z * block) :=
  zip (log_blocks st (length bl)) ds ++ (st, header bl h) :: zip bl ds ++
  [(st, header [] (header bl h))].

Lemma commit_writes_steps f : commit_writes f (-1) st bl ds h = mirrored f (-1) commit_steps.
Proof.
  unfold commit_writes, commit_steps. rewrite !home_writes_mirrored. unfold mirrored.
  rewrite !fmap_app, concat_app, fmap_cons, fmap_app. cbn [concat]. rewrite concat_app.
  cbn [fmap list_fmap concat]. by rewrite app_nil_r.
Qed.

Lemma commit_steps_logical p : p ∈ commit_steps -> 0 <= p.1 < LOGICAL_DISK_SIZE.
Proof.
  unfold commit_steps. rewrite elem_of_app, elem_of_cons, elem_of_app, list_elem_of_singleton.
  intros [Hp|[-> | [Hp | ->]]].
  - apply zip_fst, elem_of_log_blocks in Hp. log_lia.
  - simpl. unfold LOGBLOCKS, LOGSIZE, MAXOPBLOCKS in Hst. lia.
  - apply zip_fst in Hp. by apply Hhome.
  - simpl. unfold LOGBLOCKS, LOGSIZE, MAXOPBLOCKS in Hst. lia.
Qed.

Definition new : Z -> option block := vsets bl ds old.

Lemma log_step_region p :
  p ∈ zip (log_blocks st (length bl)) ds -> st < p.1 <= st + LOGBLOCKS.
Proof.
  intros Hp%zip_fst%elem_of_log_blocks. log_lia.
Qed.

Lemma log_step_home j b V : home_block st b \/ b = st ->
  vapply (take j (zip (log_blocks st (length bl)) ds)) V b = V b.
Proof.
  intros Hb. apply vapply_other. intros p Hp%elem_of_take_in Heq. apply log_step_region in Hp.
  destruct Hb as [[_ Hni]| ->]; [|lia]. apply Hni. unfold log_region. lia.
Qed.

Lemma home_step_other j b V : ~ home_block st b -> vapply (take j (zip bl ds)) V b = V b.
Proof.
  intros Hb. apply vapply_other. intros p Hp%elem_of_take_in%zip_fst Heq. apply Hb.
  rewrite <- Heq. by apply Hhome.
Qed.

(** Reinstalling gives the new contents, whatever was installed before. *)
Lemma vsets_again V b : (b ∉ bl -> V b = old b) -> vsets bl ds V b = new b.
Proof.
  intros HV. unfold new. destruct (decide (b ∈ bl)) as [Hin|Hout].
  - apply list_elem_of_lookup_1 in Hin as [i Hi].
    destruct (lookup_lt_is_Some_2 ds i) as [d Hd]; [rewrite Hlen; by eapply lookup_lt_Some|].
    by rewrite !(vsets_lookup bl ds _ i b d).
  - rewrite !vsets_other by done. auto.
Qed.

Lemma start_not_home : ~ home_block st st.
Proof. intros [_ Hni]. apply Hni. unfold log_region, LOGBLOCKS, LOGSIZE, MAXOPBLOCKS. lia. Qed.

(** A header without entries describes the empty transaction. *)
Lemma no_txn V h' : header_n h' = 0 -> logged_txn V st h' [] [].
Proof.
  intros H. constructor; try done.
  - apply NoDup_nil_2.
  - intros b Hb. by apply not_elem_of_nil in Hb.
  - intros b Hb. by apply not_elem_of_nil in Hb.
Qed.

Definition V_committed (j : nat) : Z -> option block :=
  vapply (take j (zip bl ds))
    (vset (vapply (zip (log_blocks st (length bl)) ds) old) st (header bl h)).

Lemma log_block_not_home k : 0 <= k < LOGBLOCKS -> ~ home_block st (st + k + 1).
Proof. intros Hk [_ Hni]. apply Hni, region_block, Hk. Qed.

Lemma V_committed_other j b : home_block st b -> b ∉ bl -> V_committed j b = old b.
Proof.
  intros Hb Hni. unfold V_committed. rewrite vapply_other.
  - unfold vset. rewrite decide_False by (intros ->; by apply start_not_home).
    rewrite <- (take_ge (zip (log_blocks st (length bl)) ds) _ (le_n _)). apply log_step_home. by left.
  - intros p Hp%elem_of_take_in%zip_fst Heq. apply Hni. by rewrite <- Heq.
Qed.

Lemma vapply_some ps V b : is_Some (V b) -> is_Some (vapply ps V b).
Proof.
  revert V. induction ps as [|p ps IH]; intros V H; [done|]. apply IH. unfold vset. case_decide; eauto.
Qed.

Lemma V_committed_home j b : home_block st b -> is_Some (V_committed j b).
Proof.
  intros [Hb Hni]. unfold V_committed. apply vapply_some. unfold vset. case_decide; [eauto|].
  by apply vapply_some, Hold.
Qed.

Lemma committed_txn j : logged_txn (V_committed j) st (header bl h) bl ds.
Proof.
  constructor; try done.
  - apply header_n_header; [done|]. unfold INT_MAX, NBUF in *. lia.
  - intros i b Hb. apply header_entry_header; [done..|].
    destruct (Hhome b) as [Hb' _]; [by eapply list_elem_of_lookup_2|].
    rewrite LOGICAL_eq in Hb'. unfold is_int, INT_MIN, INT_MAX. lia.
  - intros i d Hd. pose proof (lookup_lt_Some _ _ _ Hd) as Hlt. rewrite Hlen in Hlt.
    change NBUF with (LOGBLOCKS + 1) in Hsize. unfold V_committed. rewrite home_step_other by (apply log_block_not_home; lia).
    unfold vset. rewrite decide_False by lia. change vapply with
      (fun ps V => fold_left (fun V (p : Z * block) => vset V p.1 p.2) ps V). cbv beta.
    change (vsets (log_blocks st (length bl)) ds old (st + Z.of_nat i + 1) = Some d).
    apply (vsets_lookup _ _ _ i); [|by apply log_blocks_lookup|done].
    unfold log_blocks. apply NoDup_fmap_2; [intros ? ? ?; lia|apply NoDup_seq].
  - intros b Hb. by apply V_committed_home, Hhome.
Qed.

Lemma V_committed_new b : home_block st b -> V_committed (length bl) b = new b.
Proof.
  intros Hb. unfold V_committed. rewrite take_ge by (rewrite length_zip_with; lia).
  match goal with |- vapply _ ?V0 b = _ => change (vsets bl ds V0 b = new b) end.
  apply vsets_again. intros _. unfold vset.
  rewrite decide_False by (intros ->; by apply start_not_home).
  rewrite <- (take_ge (zip (log_blocks st (length bl)) ds) _ (le_n _)). apply log_step_home. by left.
Qed.

(** The three kinds of crash: before the commit point, after it, and after the
    log was erased. *)
Lemma crash_cases j V :
  (j <= length commit_steps)%nat ->
  (forall b, 0 <= b < LOGICAL_DISK_SIZE -> V b = vapply (take j commit_steps) old b) ->
  exists h' bl' ds', V st = Some h' /\ logged_txn V st h' bl' ds' /\
    ((forall b, home_block st b -> vsets bl' ds' V b = old b) \/
     (forall b, home_block st b -> vsets bl' ds' V b = new b)) /\
    (j = length commit_steps -> forall b, home_block st b -> vsets bl' ds' V b = new b).
Proof.
  intros Hj HV. set (n := length bl).
  assert (Hst0 : 0 <= st < LOGICAL_DISK_SIZE) by (unfold LOGBLOCKS, LOGSIZE, MAXOPBLOCKS in *; lia).
  assert (Hz1 : length (zip (log_blocks st n) ds) = n)
    by (rewrite length_zip_with, length_log_blocks; unfold n; lia).
  assert (Hz2 : length (zip bl ds) = n) by (rewrite length_zip_with; unfold n; lia).
  assert (Htot : length commit_steps = (n + (1 + (n + 1)))%nat).
  { unfold commit_steps. fold n. rewrite length_app, Hz1. simpl. rewrite length_app, Hz2. simpl. lia. }
  destruct (decide (j <= n)%nat) as [H1|H1]; [|destruct (decide (j <= n + 1 + n)%nat) as [H2|H2]].
  - (* the header was not written *)
    assert (Htk : forall b, 0 <= b < LOGICAL_DISK_SIZE ->
      V b = vapply (take j (zip (log_blocks st n) ds)) old b).
    { intros b Hb. rewrite HV by done. unfold commit_steps. fold n. by rewrite take_app_le by lia. }
    exists h, [], []. split_and!.
    + rewrite Htk by done. rewrite log_step_home by auto. done.
    + by apply no_txn.
    + left. intros b Hb. change (vsets [] [] V b) with (V b). rewrite Htk by apply Hb.
      by rewrite log_step_home by auto.
    + lia.
  - (* the header is on the disk *)
    assert (Htk : forall b, 0 <= b < LOGICAL_DISK_SIZE -> V b = V_committed (j - n - 1) b).
    { intros b Hb. rewrite HV by done. unfold commit_steps. fold n.
      rewrite take_app_ge, Hz1, vapply_app by lia.
      destruct (j - n)%nat as [|m] eqn:Hm; [lia|]. rewrite Nat.sub_succ, Nat.sub_0_r. cbn [take].
      rewrite take_app_le by lia. done. }
    exists (header bl h), bl, ds. split_and!.
    + rewrite Htk by done. unfold V_committed. rewrite home_step_other by apply start_not_home.
      unfold vset. by rewrite decide_True.
    + destruct (committed_txn (j - n - 1)) as [T1 T2 T3 T4 T5 T6 T7 T8]. constructor; try done.
      * intros i d Hd. rewrite Htk; [by apply T7|]. apply lookup_lt_Some in Hd.
        log_lia.
      * intros b Hb. rewrite Htk by (by apply Hhome). auto.
    + right. intros b Hb. apply vsets_again. intros Hni. rewrite Htk by apply Hb.
      by apply V_committed_other.
    + lia.
  - (* the log was erased *)
    assert (Htk : forall b, 0 <= b < LOGICAL_DISK_SIZE ->
      V b = vset (V_committed n) st (header [] (header bl h)) b).
    { intros b Hb. rewrite HV by done. unfold commit_steps. fold n.
      rewrite take_ge by (fold n in Htot; unfold commit_steps in Htot; fold n in Htot; lia).
      rewrite vapply_app. cbn [vapply fold_left]. fold (vapply (zip bl ds ++
        [(st, header [] (header bl h))])). unfold V_committed. rewrite take_ge by lia.
      unfold vapply at 1. rewrite fold_left_app. done. }
    exists (header [] (header bl h)), [], []. split_and!.
    + rewrite Htk by done. unfold vset. by rewrite decide_True.
    + apply no_txn. apply (header_n_header []); simpl; [rewrite length_header by done; lia|done].
    + right. intros b Hb. change (vsets [] [] V b) with (V b). rewrite Htk by apply Hb.
      unfold vset. rewrite decide_False by (intros ->; by apply start_not_home).
      by apply V_committed_new.
    + intros _ b Hb. change (vsets [] [] V b) with (V b). rewrite Htk by apply Hb.
      unfold vset. rewrite decide_False by (intros ->; by apply start_not_home).
      by apply V_committed_new.
Qed.

End crash_states.

(** *** The system after a crash *)

Definition log_boot (dk : gmap Z block) (pid : Z) : lstate :=
  LState (bio_boot dk pid) (Log false 0 0 0 false 0 0 (replicate (Z.to_nat LOGSIZE) 0)).

(** [main] initialises the cache, and the first process the log. *)
Definition reboot (sb : superblock) : LM unit := in_bio binit ;;; initlog ROOTDEV sb.

Definition disk_full (dk : gmap Z block) : Prop :=
  forall b, 0 <= b < LOGICAL_DISK_SIZE + DISK1_START_BLOCK -> is_Some (dk !! b).

Lemma no_disk0_failure f b : f <> 0 -> use_mirror f (-1) b = false.
Proof.
  intros Hf. unfold use_mirror, block_failed. rewrite (proj2 (Z.eqb_neq f 0)) by done. simpl.
  by rewrite andb_false_r.
Qed.

Lemma redundant_disk0 f : f <> 0 -> redundant f (-1).
Proof.
  intros Hf b Hb. unfold survives. rewrite no_disk0_failure by done.
  unfold writes_primary, block_failed. rewrite (proj2 (Z.eqb_neq f 0)) by done. done.
Qed.

Lemma read_disk0 f b : f <> 0 -> read_block f (-1) b = b.
Proof. intros Hf. unfold read_block. by rewrite no_disk0_failure. Qed.

Lemma if_committed {A} b (bl : list Z) (x y : A) :
  (if decide (b ∈ bl) then x else y) = (if decide (true = true /\ b ∈ bl) then x else y).
Proof.
  destruct (decide (b ∈ bl)) as [Hb|Hb].
  - rewrite decide_True; [done|]. split; [done|exact Hb].
  - rewrite decide_False; [done|]. intros [_ H]. by apply Hb.
Qed.

Section recovery.
Context {rel : gmap Z Z -> gset Z -> bstate -> Prop} `{!BlockCache rel}.

Lemma cached_start refs hs s f :
  rel refs hs s -> force_disk_fail_id s = f -> force_read_error_pbn s = -1 ->
  cached (rel := rel) f (-1) (cur_pid s) (disk s) (writes s) refs hs [] (view s) s.
Proof. intros H Hf He. by constructor. Qed.

Lemma cached_booted dk pid s :
  rel ∅ ∅ s -> disk s = dk -> force_disk_fail_id s = -1 -> force_read_error_pbn s = -1 ->
  cur_pid s = pid -> writes s = [] ->
  cached (rel := rel) (-1) (-1) pid dk [] ∅ ∅ [] (fun b => dk !! b) s.
Proof.
  intros H Hd Hf He Hp Hw. constructor; try done. intros b Hb.
  rewrite (law_view ∅ ∅ s) by done. unfold disk_read. by rewrite Hf, He, Hd, read_disk0.
Qed.

(** Recovery on a disk whose log describes the transaction [bl], [ds]. *)
Lemma reboot_spec sb dk pid h bl ds :
  disk_full dk -> log_on_disk sb -> dk !! sb_logstart sb = Some h ->
  logged_txn (fun b => dk !! b) (sb_logstart sb) h bl ds ->
  wp (reboot sb) (log_boot dk pid) (fun _ s' =>
    rel (unrefs bl ∅) ∅ (bio s') /\ lh_n (lg s') = 0 /\
    forall b, home_block (sb_logstart sb) b ->
      view (bio s') b = vsets bl ds (fun b => dk !! b) b).
Proof.
  intros Hfull Hsb Hh Htx. unfold reboot. apply wp_bind, wp_in_bio.
  assert (Hb : bio (log_boot dk pid) = bio_boot dk pid) by done. rewrite Hb.
  eapply wp_mono; [by apply (law_binit dk pid)|].
  intros [] s (Hrel & Hd & Hf & He & Hp & Hw).
  eapply wp_mono.
  { eapply (initlog_spec (-1) (-1) pid dk [] Hfull (redundant_disk0 (-1) ltac:(done))
      (fun b => dk !! b) sb (set_bio s (log_boot dk pid)) bl ds h); try done.
    by apply cached_booted. }
  intros [] s' (V' & L' & [Hc HL] & Hn & _ & _ & HV). split; [apply Hc|].
  split; [by rewrite HL|]. intros b Hhb. rewrite (ca_view _ _ _ _ _ _ _ _ _ _ Hc) by apply Hhb.
  by apply HV.
Qed.

(** The block of the log header, with no transaction in it. *)
Definition clean_header (h : block) : Prop := length h = Z.to_nat BSIZE /\ header_n h = 0.

(** After a restart with the disk [dk], recovery makes the blocks outside the log
    hold [g]. *)
Definition recovers (sb : superblock) (dk : gmap Z block) (g : Z -> option block) : Prop :=
  forall pid, wp (reboot sb) (log_boot dk pid) (fun _ s =>
    forall b, home_block (sb_logstart sb) b -> view (bio s) b = g b).

Lemma recovers_txn sb dk h bl ds g :
  disk_full dk -> log_on_disk sb -> dk !! sb_logstart sb = Some h ->
  logged_txn (fun b => dk !! b) (sb_logstart sb) h bl ds ->
  (forall b, home_block (sb_logstart sb) b -> vsets bl ds (fun b => dk !! b) b = g b) ->
  recovers sb dk g.
Proof.
  intros Hfull Hsb Hh Htx Hg pid. eapply wp_mono; [by apply (reboot_spec sb dk pid h bl ds)|].
  intros [] s (_ & _ & Hview) b Hb. by rewrite Hview, Hg.
Qed.

(** The block writes of a commit of [s], and what a crash among them leaves. *)
Lemma commit_atomic refs s bl ds h sb :
  rel refs ∅ (bio s) -> disk_full (disk (bio s)) ->
  force_disk_fail_id (bio s) <> 0 -> force_read_error_pbn (bio s) = -1 ->
  commit_pre refs (view (bio s)) (lg s) bl ds h -> bl <> [] -> Z.of_nat (length bl) < NBUF ->
  clean_header h -> log_on_disk sb -> sb_logstart sb = log_start (lg s) ->
  let f := force_disk_fail_id (bio s) in
  let W := commit_writes f (-1) (sb_logstart sb) bl ds h in
  wp commit s (fun _ s1 =>
    (exists V', logged (rel := rel) f (-1) (cur_pid (bio s)) (disk (bio s)) (writes (bio s))
       (unrefs bl refs) ∅ W V' (set_lh_n 0 (lg s)) s1 /\
       forall b, home_block (sb_logstart sb) b -> V' b = view (bio s) b) /\
    forall k, exists commits : bool, ((length W <= k)%nat -> commits = true) /\
      recovers sb (apply_writes (take k W) (disk (bio s))) (fun b =>
        if decide (commits = true /\ b ∈ bl) then view (bio s) b else disk (bio s) !! b)).
Proof.
  intros Hrel Hfull Hf He Hpre Hne Hlt [Hh0 Hclean] Hsb Hst f W.
  set (D := disk (bio s)) in *.
  eapply wp_mono.
  { eapply (commit_spec f (-1) (cur_pid (bio s)) D (writes (bio s)) Hfull (redundant_disk0 f Hf)
      refs (view (bio s)) (lg s) s bl ds h); [|done|done].
    split; [by apply cached_start|done]. }
  intros [] s1 (V' & Hc & HV'). rewrite <- Hst in *. unfold W.
  split; [by exists V'|]. intros k.
  rewrite (commit_writes_steps (sb_logstart sb) bl ds h f).
  pose proof Hpre as [[_ Hn Hlen _ Hnd Hhome _] _ _ Hreg _ _ Hh Hdata].
  rewrite <- Hst in *.
  assert (Hst0 : 0 <= sb_logstart sb < LOGICAL_DISK_SIZE)
    by (destruct Hsb; unfold LOGBLOCKS, LOGSIZE, MAXOPBLOCKS in *; lia).
  assert (HDst : D !! sb_logstart sb = Some h).
  { rewrite <- Hh. rewrite (law_view refs ∅ (bio s)); [|done..|].
    - unfold disk_read. fold f D. by rewrite He, read_disk0.
    - apply Hreg. unfold log_region, LOGBLOCKS, LOGSIZE, MAXOPBLOCKS. lia. }
  assert (Hhl : (4 + 4 * length bl <= length h)%nat) by (rewrite Hh0; unfold BSIZE, NBUF in *; lia).
  assert (Hold : forall b, 0 <= b < LOGICAL_DISK_SIZE -> is_Some (D !! b)).
  { intros b Hb. apply Hfull. rewrite DISK1_eq. lia. }
  assert (Hsteps : forall p, p ∈ commit_steps (sb_logstart sb) bl ds h ->
    0 <= p.1 < LOGICAL_DISK_SIZE) by by apply (commit_steps_logical (sb_logstart sb) bl ds h).
  destruct (crash_prefix f _ k D Hf Hsteps) as (j & Hj & Hv & Hend).
  set (Dk := apply_writes (take k _) D) in *.
  destruct (crash_cases (sb_logstart sb) bl ds h (fun b => D !! b) Hsb Hlen Hnd Hhome Hlt Hhl
    Hold HDst Hclean j (fun b => Dk !! b) Hj Hv) as (h' & bl' & ds' & Hh' & Htx & Hor & Hfin).
  assert (Hfull' : disk_full Dk) by (intros b Hb; by apply apply_writes_some, Hfull).
  assert (Hnew : forall b, new bl ds (fun b => D !! b) b =
    if decide (b ∈ bl) then view (bio s) b else D !! b).
  { intros b. unfold new. case_decide as Hb; [|by apply vsets_other].
    apply list_elem_of_lookup_1 in Hb as [i Hi].
    destruct (lookup_lt_is_Some_2 ds i) as [d Hd]; [rewrite Hlen; by eapply lookup_lt_Some|].
    rewrite (vsets_lookup bl ds _ i b d) by done. symmetry. by eapply Hdata. }
  assert (Hboot : forall g : Z -> option block,
    (forall b, home_block (sb_logstart sb) b -> vsets bl' ds' (fun b => Dk !! b) b = g b) ->
    recovers sb Dk g) by (intros g; by apply (recovers_txn sb Dk h' bl' ds')).
  destruct (decide (length (mirrored f (-1) (commit_steps (sb_logstart sb) bl ds h)) <= k)%nat)
    as [Hk|Hk]; [|destruct Hor as [Hor|Hor]].
  - exists true. split; [intros _; reflexivity|]. apply Hboot. intros b Hb.
    rewrite (Hfin (Hend Hk) b Hb), Hnew. apply if_committed.
  - exists false. split; [intros Hk'; destruct (Hk Hk')|]. apply Hboot. intros b Hb.
    rewrite (Hor b Hb), decide_False; [reflexivity|]. intros [Hx _]. discriminate Hx.
  - exists true. split; [intros _; reflexivity|]. apply Hboot. intros b Hb.
    rewrite (Hor b Hb), Hnew. apply if_committed.
Qed.

(** C2: Crash atomicity of [commit].  Stop the machine after any number [k] of
    the block writes of a commit, reboot, and recover: every block outside the
    log holds either what it held on the disk before the commit (no block of
    the transaction is visible), or every block of the transaction holds the
    contents committed.  The transaction is visible for certain once the last
    write was made.  This holds for transactions of fewer than [NBUF] blocks,
    as long as disk 0 has not failed. *)
Theorem commit_crash_atomic refs s bl ds h sb :
  rel refs ∅ (bio s) -> disk_full (disk (bio s)) ->
  force_disk_fail_id (bio s) <> 0 -> force_read_error_pbn (bio s) = -1 ->
  commit_pre refs (view (bio s)) (lg s) bl ds h -> bl <> [] -> Z.of_nat (length bl) < NBUF ->
  clean_header h -> log_on_disk sb -> sb_logstart sb = log_start (lg s) ->
  wp commit s (fun _ s1 => exists W, writes (bio s1) = reverse W ++ writes (bio s) /\
    disk (bio s1) = apply_writes W (disk (bio s)) /\
    forall k pid, exists commits : bool, ((length W <= k)%nat -> commits = true) /\
      wp (reboot sb) (log_boot (apply_writes (take k W) (disk (bio s))) pid) (fun _ s2 =>
        forall b, home_block (sb_logstart sb) b -> view (bio s2) b =
          if decide (commits = true /\ b ∈ bl) then view (bio s) b else disk (bio s) !! b)).
Proof.
  intros Hrel Hfull Hf He Hpre Hne Hlt Hh Hsb Hst.
  eapply wp_mono; [by apply (commit_atomic refs s bl ds h sb)|].
  intros [] s1 [(V' & [Hc _] & _) Hk]. eexists. split; [apply Hc|]. split; [apply Hc|].
  intros k pid. destruct (Hk k) as (commits & H1 & H2). exists commits. split; [done|apply H2].
Qed.

End recovery.

(** *** A concrete commit *)

Definition w_sb : superblock := Superblock 0 1000 900 200 30 2 32 58.
Definition w_log (n : Z) (bl : list Z) : log :=
  Log false 2 30 1 true ROOTDEV n (bl ++ replicate (30 - length bl) 0).

Lemma w_clean : clean_header zero_block.
Proof. split; reflexivity. Qed.

(** A disk of zero blocks. *)
Lemma w_full_disk : exists dk : gmap Z block,
  forall b, 0 <= b < LOGICAL_DISK_SIZE + DISK1_START_BLOCK -> dk !! b = Some zero_block.
Proof.
  exists (list_to_map ((fun i => (i, zero_block)) <$>
    seqZ 0 (LOGICAL_DISK_SIZE + DISK1_START_BLOCK))).
  intros b Hb. apply elem_of_list_to_map_1.
  - rewrite <- list_fmap_compose. unfold compose.
    rewrite (list_fmap_ext _ (fun i => i)) by done. rewrite list_fmap_id. apply NoDup_seqZ.
  - apply list_elem_of_fmap. exists b. split; [done|]. by apply elem_of_seqZ.
Qed.

(** Block 50 was changed and pinned in the cache. *)
Lemma w_pinned : exists s, cache_rel {[50 := 1]} ∅ s /\ disk_full (disk s) /\
  disk s !! 50 = Some zero_block /\
  force_disk_fail_id s = -1 /\ force_read_error_pbn s = -1 /\ view s 50 = Some (w_block 2) /\
  forall b, 0 <= b < LOGICAL_DISK_SIZE -> b <> 50 -> view s b = Some zero_block.
Proof.
  destruct w_full_disk as [dk Hdk].
  assert (Hfull : disk_full dk) by (intros b Hb; eexists; by apply Hdk).
  destruct (wp_inv _ _ _ (binit_spec dk 5)) as ([] & s0 & _ & Hrel & Hd & Hf & He & Hp & Hw).
  pose proof (cached_booted _ _ _ Hrel Hd Hf He Hp Hw) as H0.
  assert (Hv : forall b, 0 <= b < LOGICAL_DISK_SIZE -> dk !! b = Some zero_block).
  { intros b Hb. apply Hdk. rewrite DISK1_eq. lia. }
  destruct (cached_dirty _ _ _ _ _ Hfull (redundant_disk0 (-1) ltac:(done)) _ _ _ 50 zero_block
    (w_block 2) H0 (Hv 50 ltac:(done)) ltac:(done)) as (s4 & [G1 G2 G3 _ G5 _ G7]).
  simpl in G5. exists s4. rewrite G5.
  split; [exact G1|]. split; [exact Hfull|]. split; [apply Hv; by split|].
  split; [exact G2|]. split; [exact G3|]. split.
  - rewrite G7 by by split. unfold vset. by rewrite decide_True.
  - intros b Hb Hne. rewrite G7 by done. unfold vset. rewrite decide_False by done. by apply Hv.
Qed.

Lemma commit_crash_atomic_witness : exists s,
  lh_n (lg s) = 1 /\ disk (bio s) !! 50 = Some zero_block /\ view (bio s) 50 = Some (w_block 2) /\
  wp commit s (fun _ s1 => exists W, writes (bio s1) = reverse W ++ writes (bio s) /\
    disk (bio s1) = apply_writes W (disk (bio s)) /\
    forall k pid, exists commits : bool, ((length W <= k)%nat -> commits = true) /\
      wp (reboot w_sb) (log_boot (apply_writes (take k W) (disk (bio s))) pid) (fun _ s2 =>
        forall b, home_block (sb_logstart w_sb) b -> view (bio s2) b =
          if decide (commits = true /\ b ∈ [50]) then view (bio s) b else disk (bio s) !! b)).
Proof.
  destruct w_pinned as (c & Hrel & Hd & H50 & Hf & He & Hv & Hv').
  exists (LState c (w_log 1 [50])). cbn [bio]. split; [reflexivity|].
  split; [exact H50|]. split; [exact Hv|].
  apply (commit_crash_atomic {[50 := 1]} (LState c (w_log 1 [50])) [50] [w_block 2] zero_block w_sb);
    cbn [bio lg].
  - exact Hrel.
  - exact Hd.
  - by rewrite Hf.
  - exact He.
  - assert (Hin : forall b, b ∈ [50] -> b = 50) by (intros b Hb; set_solver).
    constructor.
    + constructor; try reflexivity.
      * constructor; [reflexivity|split; [discriminate|reflexivity]|reflexivity].
      * intros [|i] b Hb; simpl in Hb; [|destruct i; discriminate]. exact Hb.
      * apply NoDup_singleton.
      * intros b ->%Hin. split; [split; [discriminate|reflexivity]|].
        unfold log_region. simpl. unfold LOGBLOCKS, LOGSIZE, MAXOPBLOCKS. lia.
      * discriminate.
    + intros b ->%Hin. reflexivity.
    + intros b. destruct (decide (b = 50)) as [->|Hne]; [discriminate|].
      rewrite lookup_singleton_ne by congruence. discriminate.
    + intros b Hb. apply lookup_singleton_ne. intros <-. unfold log_region in Hb. simpl in Hb.
      unfold LOGBLOCKS, LOGSIZE, MAXOPBLOCKS in Hb. lia.
    + reflexivity.
    + intros k Hk. exists zero_block. unfold LOGBLOCKS, LOGSIZE, MAXOPBLOCKS in Hk. simpl.
      apply Hv'; [rewrite LOGICAL_eq|]; lia.
    + apply Hv'; [split; [discriminate|reflexivity]|discriminate].
    + intros [|i] b d Hb Hd'; simpl in Hb, Hd'; [|destruct i; discriminate].
      injection Hb as <-. injection Hd' as <-. exact Hv.
  - discriminate.
  - reflexivity.
  - exact w_clean.
  - split; [discriminate|reflexivity].
  - reflexivity.
Defined.
