(* ===== verification/LogSpace.v ===== *)
(** The space of the log, log.c: [begin_op] reserves [MAXOPBLOCKS] blocks for an
    operation, [log_write] uses one of them at most, and the last [end_op]
    commits and empties the log.  Operations are interleaved in any order. *)
From S2P Require Import Prelude Bytes Locks Bio Log.

(** ** Operations that leave the log's fields alone *)

Definition keeps_log {A} (m : LM A) : Prop := forall s, wlp m s (fun _ s' => lg s' = lg s).

Lemma keeps_bind {A B} (m : LM A) (k : A -> LM B) :
  keeps_log m -> (forall a, keeps_log (k a)) -> keeps_log (bind m k).
Proof.
  intros Hm Hk s. apply wlp_bind. eapply wlp_mono; [apply Hm|]. intros a s1 H1.
  eapply wlp_mono; [apply Hk|]. intros b s2 H2. congruence.
Qed.

Lemma keeps_in_bio {A} (m : M bstate A) : keeps_log (in_bio m).
Proof. intros s. unfold wlp, in_bio, zoom. by destruct (m (bio s)). Qed.

Lemma keeps_getl {A} (f : log -> A) : keeps_log (getl f).
Proof. by intros s. Qed.

Lemma keeps_get_lh_block i : keeps_log (get_lh_block i).
Proof.
  apply keeps_bind; [apply keeps_getl|]. intros bl s. unfold wlp, of_option.
  by destruct (if i <? 0 then None else bl !! Z.to_nat i).
Qed.

Lemma keeps_for_all {X} (l : list X) (body : X -> LM unit) :
  (forall x, keeps_log (body x)) -> keeps_log (for_all l body).
Proof.
  intros Hb. induction l as [|x l IH]; [by intros s|]. by apply keeps_bind.
Qed.

Create HintDb keeps_log.
#[export] Hint Resolve keeps_in_bio keeps_getl keeps_get_lh_block : keeps_log.
Ltac keeps :=
  repeat match goal with
  | |- keeps_log (bind _ _) => apply keeps_bind; [|intros ?]
  | |- keeps_log (for_all _ _) => apply keeps_for_all; intros ?
  | |- _ => solve [auto with keeps_log]
  end.

Lemma keeps_write_log : keeps_log write_log.
Proof. unfold write_log, copy_data. keeps. Qed.

Lemma keeps_write_head : keeps_log write_head.
Proof. unfold write_head. keeps. Qed.

Lemma keeps_install_trans : keeps_log install_trans.
Proof. unfold install_trans, copy_data. keeps. Qed.

(** [commit] empties the log. *)
Lemma commit_log s : 0 <= lh_n (lg s) ->
  wlp commit s (fun _ s' => lg s' = set_lh_n 0 (lg s)).
Proof.
  intros Hn. unfold commit, getl. apply wlp_bind, wlp_wp, wp_gets. unfold when.
  destruct (Z.ltb_spec 0 (lh_n (lg s))) as [Hlt|Hge].
  - apply wlp_bind. eapply wlp_mono; [apply keeps_write_log|]. intros [] s1 E1.
    apply wlp_bind. eapply wlp_mono; [apply keeps_write_head|]. intros [] s2 E2.
    apply wlp_bind. eapply wlp_mono; [apply keeps_install_trans|]. intros [] s3 E3.
    apply wlp_bind, wlp_wp, wp_modify. eapply wlp_mono; [apply keeps_write_head|].
    intros [] s4 E4. rewrite E4. cbn [lg set_lg]. congruence.
  - apply wlp_wp, wp_ret. assert (E : lh_n (lg s) = 0) by lia.
    destruct (lg s); cbn in E |- *. by rewrite E.
Qed.

(** ** The operations on the log's fields *)

Lemma wlp_log_acquire s (Q : unit -> lstate -> Prop) :
  (log_lock (lg s) = false -> Q tt (set_lg (set_log_lock true (lg s)) s)) ->
  wlp (spin_acquire log_spin) s Q.
Proof.
  intros HQ. unfold wlp, spin_acquire, bind, gets, modify. cbn [lget lset log_spin].
  destruct (log_lock (lg s)); [done|]. by apply HQ.
Qed.

Lemma wlp_log_release s (Q : unit -> lstate -> Prop) :
  (log_lock (lg s) = true -> Q tt (set_lg (set_log_lock false (lg s)) s)) ->
  wlp (spin_release log_spin) s Q.
Proof.
  intros HQ. unfold wlp, spin_release, bind, gets, modify. cbn [lget lset log_spin].
  destruct (log_lock (lg s)); [by apply HQ|done].
Qed.

Lemma wlp_sleep {S A} (s : S) (Q : A -> S -> Prop) : wlp (fun s => Sleep s) s Q.
Proof. done. Qed.

Lemma begin_op_log s : wlp begin_op s (fun _ s' =>
  lg s' = set_outstanding (log_outstanding (lg s) + 1) (lg s) /\
  lh_n (lg s) + (log_outstanding (lg s) + 1) * MAXOPBLOCKS <= LOGSIZE).
Proof.
  unfold begin_op. apply wlp_bind, wlp_log_acquire. intros Hl.
  apply wlp_bind, wlp_wp, wp_gets. cbn [lg set_lg set_log_lock lh_n log_outstanding log_committing].
  destruct (log_committing (lg s)); [by apply wlp_bind, wlp_log_release|].
  destruct (Z.ltb_spec LOGSIZE (lh_n (lg s) + (log_outstanding (lg s) + 1) * MAXOPBLOCKS));
    [by apply wlp_bind, wlp_log_release|].
  apply wlp_bind, wlp_wp. unfold in_log. apply wp_modify, wlp_log_release. intros _.
  split; [|done]. destruct (lg s). cbn in Hl |- *. by rewrite Hl.
Qed.

Lemma end_op_log s : 0 <= lh_n (lg s) -> wlp end_op s (fun _ s' =>
  log_outstanding (lg s') = log_outstanding (lg s) - 1 /\ log_size (lg s') = log_size (lg s) /\
  log_committing (lg s') = log_committing (lg s) /\ log_committing (lg s) = false /\
  length (lh_block (lg s')) = length (lh_block (lg s)) /\
  lh_n (lg s') = if log_outstanding (lg s) - 1 =? 0 then 0 else lh_n (lg s)).
Proof.
  intros Hn. unfold end_op. apply wlp_bind, wlp_log_acquire. intros Hl.
  apply wlp_bind, wlp_wp, wp_gets. cbn [lg set_lg set_log_lock lh_n log_outstanding log_committing].
  apply wlp_bind, wlp_wp. unfold in_log. apply wp_modify.
  destruct (log_committing (lg s)) eqn:Hc; [done|]. cbv zeta.
  destruct (log_outstanding (lg s) - 1 =? 0) eqn:Ho.
  - apply wlp_bind, wlp_wp, wp_modify. apply wlp_bind, wlp_log_release. intros _. cbn [when].
    apply wlp_bind. eapply wlp_mono; [by apply commit_log|]. intros [] s1 E1. cbv beta in E1.
    apply wlp_bind, wlp_log_acquire. intros _. apply wlp_bind, wlp_wp, wp_modify.
    apply wlp_bind, wlp_wp. unfold wakeup_log, in_bio. apply wp_zoom, wp_modify.
    apply wlp_log_release. intros _. rewrite ?Ho. cbn. rewrite E1. by cbn.
  - apply wlp_bind. unfold wakeup_log, in_bio. apply wlp_wp, wp_zoom, wp_modify.
    apply wlp_bind, wlp_log_release. intros _. apply wlp_wp, wp_ret. rewrite ?Ho. cbn. by rewrite ?Hc.
Qed.

(** An entry of the array is written, and the count grows by one at most. *)
Lemma log_write_log b s : 0 <= lh_n (lg s) -> wlp (log_write b) s (fun _ s' =>
  log_outstanding (lg s') = log_outstanding (lg s) /\ log_size (lg s') = log_size (lg s) /\
  length (lh_block (lg s')) = length (lh_block (lg s)) /\
  lh_n (lg s) <= lh_n (lg s') <= lh_n (lg s) + 1 /\
  lh_n (lg s) < LOGSIZE /\ lh_n (lg s) < log_size (lg s) - 1).
Proof.
  intros Hn. unfold log_write. apply wlp_bind, wlp_wp, wp_gets.
  destruct (Z.leb_spec LOGSIZE (lh_n (lg s))); [done|].
  destruct (Z.leb_spec (log_size (lg s) - 1) (lh_n (lg s))); [done|]. cbn [orb].
  destruct (log_outstanding (lg s) <? 1); [done|].
  apply wlp_bind, wlp_log_acquire. intros _. apply wlp_bind.
  eapply wlp_mono; [apply keeps_in_bio|]. intros x s1 E1. cbv beta in E1. cbv zeta.
  set (i := Z.of_nat _). apply wlp_bind. unfold put_lh_block, getl.
  apply wlp_bind, wlp_wp, wp_gets.
  destruct ((0 <=? i) && (i <? Z.of_nat (length (lh_block (lg s1))))); [|done].
  unfold in_log. apply wlp_wp, wp_modify, wlp_bind.
  destruct (i =? lh_n (lg s)); cbn [when].
  - apply wlp_bind. eapply wlp_mono; [apply keeps_in_bio|]. intros [] s2 E2. cbv beta in E2.
    apply wlp_wp, wp_modify, wlp_log_release. intros _. cbn. rewrite E2. cbn. rewrite E1. cbn.
    rewrite length_insert. split_and!; try done; lia.
  - apply wlp_wp, wp_ret, wlp_log_release. intros _. cbn. rewrite E1. cbn.
    rewrite length_insert. split_and!; try done; lia.
Qed.

(** ** The reservation *)

(** The log after [initlog] on the file system that [mkfs] makes. *)
Definition idle_log (L : log) : Prop :=
  lh_n L = 0 /\ log_outstanding L = 0 /\ log_committing L = false /\ log_size L = LOGSIZE /\
  length (lh_block L) = Z.to_nat LOGSIZE.

(** [lreach s us]: some sequence of calls leads to [s], with one element of [us]
    for each operation between its [begin_op] and its [end_op]: how often it has
    called [log_write].  An operation calls it at most [MAXOPBLOCKS] times.  In
    between the cache may do anything. *)
Inductive lreach : lstate -> list Z -> Prop :=
  | LInit s : idle_log (lg s) -> lreach s []
  | LBegin s us s' : lreach s us -> begin_op s = Ret tt s' -> lreach s' (0 :: us)
  | LWrite s us1 u us2 b s' : lreach s (us1 ++ u :: us2) -> u < MAXOPBLOCKS ->
      log_write b s = Ret tt s' -> lreach s' (us1 ++ (u + 1) :: us2)
  | LEnd s us1 u us2 s' : lreach s (us1 ++ u :: us2) -> end_op s = Ret tt s' ->
      lreach s' (us1 ++ us2)
  | LCache s us s' : lreach s us -> lg s' = lg s -> lreach s' us.

(** The blocks that the open operations may still log. *)
Definition reserved (us : list Z) : Z := foldr (fun u n => MAXOPBLOCKS - u + n) 0 us.

Lemma reserved_app us vs : reserved (us ++ vs) = reserved us + reserved vs.
Proof. induction us as [|u us IH]; simpl; [done|]. lia. Qed.

Lemma reserved_bounds us : Forall (fun u => 0 <= u <= MAXOPBLOCKS) us ->
  0 <= reserved us <= MAXOPBLOCKS * Z.of_nat (length us).
Proof. induction 1 as [|u us Hu Hus IH]; simpl; lia. Qed.

Record lspace (s : lstate) (us : list Z) : Prop := {
  ls_n : 0 <= lh_n (lg s);
  ls_reserved : lh_n (lg s) + reserved us <= LOGSIZE;
  ls_out : log_outstanding (lg s) = Z.of_nat (length us);
  ls_used : Forall (fun u => 0 <= u <= MAXOPBLOCKS) us;
  ls_idle : us = [] -> lh_n (lg s) = 0;
  ls_size : log_size (lg s) = LOGSIZE;
  ls_blocks : length (lh_block (lg s)) = Z.to_nat LOGSIZE;
  ls_three : Z.of_nat (length us) * MAXOPBLOCKS <= LOGSIZE
}.

Lemma lreach_space s us : lreach s us -> lspace s us.
Proof.
  induction 1 as [s (H1 & H2 & H3 & H4 & H5)|s us s' _ IH E|s us1 u us2 b s' _ IH Hu E
    |s us1 u us2 s' _ IH E|s us s' _ IH E].
  - constructor; rewrite ?H1, ?H2; done.
  - pose proof (wlp_inv _ _ _ _ _ (begin_op_log s) E) as [El Hr].
    destruct IH as [A1 A2 A3 A4 A5 A6 A7 A8]. pose proof (reserved_bounds us A4).
    constructor; rewrite ?El; cbn [lh_n log_outstanding log_size lh_block set_outstanding]; try done.
    + cbn [reserved foldr]. fold (reserved us). rewrite A3 in Hr. lia.
    + rewrite A3. simpl. lia.
    + constructor; [split; [lia|done]|done].
    + rewrite A3 in Hr. simpl length. lia.
  - destruct IH as [A1 A2 A3 A4 A5 A6 A7 A8].
    pose proof (wlp_inv _ _ _ _ _ (log_write_log b s A1) E) as (B1 & B2 & B3 & B4 & B5 & _).
    rewrite reserved_app in A2. cbn [reserved foldr] in A2. fold (reserved us2) in A2.
    apply Forall_app in A4 as [A4 A4']. apply list.Forall_cons in A4' as [A4' A4''].
    rewrite length_app in A3, A8. cbn [length] in A3, A8.
    constructor; rewrite ?B1, ?B2, ?B3, ?length_app; cbn [length]; try done; try lia.
    + rewrite reserved_app. cbn [reserved foldr]. fold (reserved us2). lia.
    + apply Forall_app. split; [done|]. constructor; [lia|done].
    + by destruct us1.
  - destruct IH as [A1 A2 A3 A4 A5 A6 A7 A8].
    pose proof (wlp_inv _ _ _ _ _ (end_op_log s A1) E) as (B1 & B2 & B3 & B4 & B5 & B6).
    rewrite reserved_app in A2. cbn [reserved foldr] in A2. fold (reserved us2) in A2.
    apply Forall_app in A4 as [A4 A4']. apply list.Forall_cons in A4' as [A4' A4''].
    rewrite length_app in A3, A8. cbn [length] in A3, A8.
    pose proof (reserved_bounds us1 A4). pose proof (reserved_bounds us2 A4'').
    constructor; rewrite ?B1, ?B2, ?B5, ?B6, ?length_app; try done; try lia.
    + by case_match.
    + rewrite reserved_app. destruct (Z.eqb_spec (log_outstanding (lg s) - 1) 0) as [E0|E0]; [|lia].
      assert (length us1 = 0%nat /\ length us2 = 0%nat) as [L1 L2] by lia.
      destruct us1; [|done]. destruct us2; [|done]. simpl. lia.
    + by apply Forall_app.
    + intros E0. apply (f_equal length) in E0. rewrite length_app in E0. simpl in E0.
      by rewrite (proj2 (Z.eqb_eq _ _)) by lia.
  - destruct IH as [A1 A2 A3 A4 A5 A6 A7 A8]. constructor; rewrite ?E; done.
Qed.

(** C16: The reservation of log space, for any interleaving of operations that
    each log at most [MAXOPBLOCKS] blocks.  The logged blocks and those that the
    open operations may still log never exceed [LOGSIZE], at most three
    operations are open, and an operation that has not used up its reservation
    finds a free entry in the log's array; the log is empty when no operation is
    open.  But the last entry cannot be used: a [log_write] inside its
    reservation panics ("too big a transaction") when [LOGSIZE - 1] blocks are
    logged, because [log.size] counts the header block. *)
Theorem log_reservation s us (Hr : lreach s us) :
  0 <= lh_n (lg s) /\ lh_n (lg s) + reserved us <= LOGSIZE /\
  log_outstanding (lg s) = Z.of_nat (length us) /\ (length us <= 3)%nat /\
  (us = [] -> lh_n (lg s) = 0) /\
  forall u, u ∈ us -> u < MAXOPBLOCKS ->
    lh_n (lg s) < Z.of_nat (length (lh_block (lg s))) /\
    (lh_n (lg s) = LOGSIZE - 1 -> forall b, log_write b s = Panic "too big a transaction").
Proof.
  destruct (lreach_space s us Hr) as [A1 A2 A3 A4 A5 A6 A7 A8].
  split_and!; try done; [unfold LOGSIZE, MAXOPBLOCKS in A8; lia|].
  intros u Hu Hlt. apply list_elem_of_split in Hu as (us1 & us2 & ->).
  apply Forall_app in A4 as [B1 B2]. apply list.Forall_cons in B2 as [B2 B3].
  pose proof (reserved_bounds us1 B1). pose proof (reserved_bounds us2 B3).
  rewrite reserved_app in A2. cbn [reserved foldr] in A2. fold (reserved us2) in A2.
  split; [rewrite A7; unfold LOGSIZE, MAXOPBLOCKS in *; lia|].
  intros Hn b. unfold log_write, bind at 1, gets at 1. rewrite A6, Hn.
  rewrite (proj2 (Z.leb_le (LOGSIZE - 1) (LOGSIZE - 1))) by lia. by rewrite orb_true_r.
Qed.

(** Three operations that log 10, 10 and 9 blocks. *)
Definition w_bufs : gmap Z buf :=
  list_to_map ((fun i => (i, Buf true ROOTDEV (100 + i) no_lock 1 0 0 [])) <$> seqZ 0 NBUF).
Definition w_idle : lstate :=
  LState (BState ∅ w_bufs false (-1) (-1) 1 [])
    (Log false 2 LOGSIZE 0 false ROOTDEV 0 (replicate (Z.to_nat LOGSIZE) 0)).

(** The first operation opened logs the buffers [bs]. *)
Fixpoint w_writes (bs : list Z) (s : lstate) : lstate :=
  match bs with
  | [] => s
  | b :: bs' => w_writes bs' (final s (log_write b s))
  end.

Definition w_runs (bs : list Z) (s : lstate) : bool :=
  forallb (fun n => match bs !! n with
    | Some b => match log_write b (w_writes (take n bs) s) with Ret _ _ => true | _ => false end
    | None => false
    end) (seq 0 (length bs)).

Lemma w_runs_spec bs s : w_runs bs s = true -> forall n, (n < length bs)%nat ->
  exists b s', bs !! n = Some b /\ log_write b (w_writes (take n bs) s) = Ret tt s'.
Proof.
  intros H n Hn. unfold w_runs in H. rewrite forallb_forall in H.
  assert (Hin : In n (seq 0 (length bs))) by (apply in_seq; lia). specialize (H n Hin).
  destruct (bs !! n) as [b|]; [|done]. exists b.
  destruct (log_write b (w_writes (take n bs) s)) as [[] s'| | |]; try done. by exists s'.
Qed.

Lemma w_writes_reach bs s us1 u us2 :
  lreach s (us1 ++ u :: us2) -> u + Z.of_nat (length bs) <= MAXOPBLOCKS -> w_runs bs s = true ->
  lreach (w_writes bs s) (us1 ++ (u + Z.of_nat (length bs)) :: us2).
Proof.
  intros Hs Hu Hr. pose proof (w_runs_spec _ _ Hr) as Hw. clear Hr. revert s u Hs Hu Hw.
  induction bs as [|b bs IH]; intros s u Hs Hu Hw; cbn [w_writes].
  { by rewrite Z.add_0_r. }
  destruct (Hw 0%nat) as (b' & s' & Hb & E); [simpl; lia|]. injection Hb as <-. simpl in E. rewrite E.
  replace (u + Z.of_nat (length (b :: bs))) with (u + 1 + Z.of_nat (length bs)) by (simpl; lia).
  simpl length in Hu. apply IH; [apply (LWrite s us1 u us2 b); [done|lia|done]|lia|].
  intros n Hn. destruct (Hw (S n)) as (b1 & s1 & Hb1 & E1); [simpl; lia|].
  exists b1, s1. split; [done|]. simpl in E1. by rewrite E in E1.
Qed.

Definition w_begin (s : lstate) : lstate := final s (begin_op s).
Definition w_begun : lstate := w_begin (w_begin (w_begin w_idle)).
Definition w_full : lstate :=
  w_writes (seqZ 20 9) (w_writes (seqZ 10 10) (w_writes (seqZ 0 10) w_begun)).

Lemma log_reservation_witness :
  exists s us, lh_n (lg s) = LOGSIZE - 1 /\ 9 ∈ us /\ reserved us = 1 /\
    (length us <= 3)%nat /\ forall b, log_write b s = Panic "too big a transaction".
Proof.
  assert (Hb : forall s us, lreach s us -> (exists u, result (begin_op s) = Some u) ->
    lreach (w_begin s) (0 :: us)).
  { intros s us Hs [[] E]. apply (LBegin s); [exact Hs|]. by apply run_eq. }
  assert (Hr : lreach w_full [9; 10; 10]).
  { apply (w_writes_reach (seqZ 20 9) _ [] 0 [10; 10]); [|discriminate|vm_compute; reflexivity].
    apply (w_writes_reach (seqZ 10 10) _ [0] 0 [10]); [|discriminate|vm_compute; reflexivity].
    apply (w_writes_reach (seqZ 0 10) _ [0; 0] 0 []); [|discriminate|vm_compute; reflexivity].
    do 3 (apply Hb; [|eexists; vm_compute; reflexivity]).
    apply LInit. split_and!; reflexivity. }
  destruct (log_reservation w_full [9; 10; 10] Hr) as (_ & _ & _ & H3 & _ & Hf).
  destruct (Hf 9 (list_elem_of_here _ _) eq_refl) as [_ Hp].
  assert (Hn : lh_n (lg w_full) = LOGSIZE - 1) by (vm_compute; reflexivity).
  exists w_full, [9; 10; 10]. split; [exact Hn|]. split; [apply list_elem_of_here|]. split; [reflexivity|].
  split; [exact H3|exact (Hp Hn)].
Defined.
