(* ===== verification/Kernel.v ===== *)
(** The kernel state above the disk and the memory, and the parts of proc.c that
    the other files call: the inode cache, the file table, pipes and the
    process table, the current process, [sleep] and [wakeup], and copies
    between the kernel and user memory.

    One process runs at a time, until it calls [sleep] or returns.  [in_lo]
    and [in_mem] run operations of the log and buffer cache ([Log], [Bio])
    and of the memory ([Kalloc], [Vm]) on their parts of the state. *)
From S2P Require Import Prelude Bytes Locks Kalloc Vm Bio Log.

Definition NULL : Z := -1.
Definition NPROC : Z := 64.
Definition NOFILE : Z := 16.
Definition NFILE : Z := 100.
Definition NINODE : Z := 50.
Definition NDEV : Z := 10.
Definition MAXPATH : Z := 128.

(** [struct inode]: a pointer to one is its index in [icache.inode], or [NULL]. *)
Record inode := Inode {
  i_dev : Z;
  i_inum : Z;
  i_ref : Z;
  i_lock : sleeplock;
  i_valid : bool;
  i_type : Z;
  i_major : Z;
  i_minor : Z;
  i_nlink : Z;
  i_size : Z;
  i_addrs : list Z
}.

Definition set_i_dev (v : Z) (s : inode) : inode :=
  Inode v (i_inum s) (i_ref s) (i_lock s) (i_valid s) (i_type s) (i_major s) (i_minor s)
    (i_nlink s) (i_size s) (i_addrs s).
Definition set_i_inum (v : Z) (s : inode) : inode :=
  Inode (i_dev s) v (i_ref s) (i_lock s) (i_valid s) (i_type s) (i_major s) (i_minor s)
    (i_nlink s) (i_size s) (i_addrs s).
Definition set_i_ref (v : Z) (s : inode) : inode :=
  Inode (i_dev s) (i_inum s) v (i_lock s) (i_valid s) (i_type s) (i_major s) (i_minor s)
    (i_nlink s) (i_size s) (i_addrs s).
Definition set_i_lock (v : sleeplock) (s : inode) : inode :=
  Inode (i_dev s) (i_inum s) (i_ref s) v (i_valid s) (i_type s) (i_major s) (i_minor s)
    (i_nlink s) (i_size s) (i_addrs s).
Definition set_i_valid (v : bool) (s : inode) : inode :=
  Inode (i_dev s) (i_inum s) (i_ref s) (i_lock s) v (i_type s) (i_major s) (i_minor s) (i_nlink s)
    (i_size s) (i_addrs s).
Definition set_i_type (v : Z) (s : inode) : inode :=
  Inode (i_dev s) (i_inum s) (i_ref s) (i_lock s) (i_valid s) v (i_major s) (i_minor s)
    (i_nlink s) (i_size s) (i_addrs s).
Definition set_i_major (v : Z) (s : inode) : inode :=
  Inode (i_dev s) (i_inum s) (i_ref s) (i_lock s) (i_valid s) (i_type s) v (i_minor s) (i_nlink s)
    (i_size s) (i_addrs s).
Definition set_i_minor (v : Z) (s : inode) : inode :=
  Inode (i_dev s) (i_inum s) (i_ref s) (i_lock s) (i_valid s) (i_type s) (i_major s) v (i_nlink s)
    (i_size s) (i_addrs s).
Definition set_i_nlink (v : Z) (s : inode) : inode :=
  Inode (i_dev s) (i_inum s) (i_ref s) (i_lock s) (i_valid s) (i_type s) (i_major s) (i_minor s) v
    (i_size s) (i_addrs s).
Definition set_i_size (v : Z) (s : inode) : inode :=
  Inode (i_dev s) (i_inum s) (i_ref s) (i_lock s) (i_valid s) (i_type s) (i_major s) (i_minor s)
    (i_nlink s) v (i_addrs s).
Definition set_i_addrs (v : list Z) (s : inode) : inode :=
  Inode (i_dev s) (i_inum s) (i_ref s) (i_lock s) (i_valid s) (i_type s) (i_major s) (i_minor s)
    (i_nlink s) (i_size s) v.

Inductive ftype := FD_NONE | FD_PIPE | FD_INODE | FD_DEVICE.

(** [struct file]: a pointer is the index in [ftable.file], or [NULL]. *)
Record file := File {
  f_type : ftype;
  f_ref : Z;
  f_readable : bool;
  f_writable : bool;
  f_pipe : Z;
  f_ip : Z;
  f_off : Z;
  f_major : Z
}.

Definition set_f_type (v : ftype) (s : file) : file :=
  File v (f_ref s) (f_readable s) (f_writable s) (f_pipe s) (f_ip s) (f_off s) (f_major s).
Definition set_f_ref (v : Z) (s : file) : file :=
  File (f_type s) v (f_readable s) (f_writable s) (f_pipe s) (f_ip s) (f_off s) (f_major s).
Definition set_f_readable (v : bool) (s : file) : file :=
  File (f_type s) (f_ref s) v (f_writable s) (f_pipe s) (f_ip s) (f_off s) (f_major s).
Definition set_f_writable (v : bool) (s : file) : file :=
  File (f_type s) (f_ref s) (f_readable s) v (f_pipe s) (f_ip s) (f_off s) (f_major s).
Definition set_f_pipe (v : Z) (s : file) : file :=
  File (f_type s) (f_ref s) (f_readable s) (f_writable s) v (f_ip s) (f_off s) (f_major s).
Definition set_f_ip (v : Z) (s : file) : file :=
  File (f_type s) (f_ref s) (f_readable s) (f_writable s) (f_pipe s) v (f_off s) (f_major s).
Definition set_f_off (v : Z) (s : file) : file :=
  File (f_type s) (f_ref s) (f_readable s) (f_writable s) (f_pipe s) (f_ip s) v (f_major s).
Definition set_f_major (v : Z) (s : file) : file :=
  File (f_type s) (f_ref s) (f_readable s) (f_writable s) (f_pipe s) (f_ip s) (f_off s) v.

(** [struct pipe], in the page whose address is the pointer. *)
Record pipe := Pipe {
  pi_lock : bool;
  pi_data : list Z;
  pi_nread : Z;
  pi_nwrite : Z;
  pi_readopen : bool;
  pi_writeopen : bool
}.

Definition set_pi_lock (v : bool) (s : pipe) : pipe :=
  Pipe v (pi_data s) (pi_nread s) (pi_nwrite s) (pi_readopen s) (pi_writeopen s).
Definition set_pi_data (v : list Z) (s : pipe) : pipe :=
  Pipe (pi_lock s) v (pi_nread s) (pi_nwrite s) (pi_readopen s) (pi_writeopen s).
Definition set_pi_nread (v : Z) (s : pipe) : pipe :=
  Pipe (pi_lock s) (pi_data s) v (pi_nwrite s) (pi_readopen s) (pi_writeopen s).
Definition set_pi_nwrite (v : Z) (s : pipe) : pipe :=
  Pipe (pi_lock s) (pi_data s) (pi_nread s) v (pi_readopen s) (pi_writeopen s).
Definition set_pi_readopen (v : bool) (s : pipe) : pipe :=
  Pipe (pi_lock s) (pi_data s) (pi_nread s) (pi_nwrite s) v (pi_writeopen s).
Definition set_pi_writeopen (v : bool) (s : pipe) : pipe :=
  Pipe (pi_lock s) (pi_data s) (pi_nread s) (pi_nwrite s) (pi_readopen s) v.

Inductive procstate := UNUSED | SLEEPING | RUNNABLE | RUNNING | ZOMBIE.

(** [struct proc]: a pointer is the index in [proc], or [NULL]. *)
Record proc := Proc {
  p_lock : bool;
  p_state : procstate;
  p_parent : Z;
  p_chan : Z;
  p_killed : bool;
  p_xstate : Z;
  p_pid : Z;
  p_kstack : Z;
  p_sz : Z;
  p_pagetable : Z;
  p_trapframe : Z;
  p_context : list Z;
  p_ofile : list Z;
  p_cwd : Z;
  p_name : list Z
}.

Definition set_p_lock (v : bool) (s : proc) : proc :=
  Proc v (p_state s) (p_parent s) (p_chan s) (p_killed s) (p_xstate s) (p_pid s) (p_kstack s)
    (p_sz s) (p_pagetable s) (p_trapframe s) (p_context s) (p_ofile s) (p_cwd s) (p_name s).
Definition set_p_state (v : procstate) (s : proc) : proc :=
  Proc (p_lock s) v (p_parent s) (p_chan s) (p_killed s) (p_xstate s) (p_pid s) (p_kstack s)
    (p_sz s) (p_pagetable s) (p_trapframe s) (p_context s) (p_ofile s) (p_cwd s) (p_name s).
Definition set_p_parent (v : Z) (s : proc) : proc :=
  Proc (p_lock s) (p_state s) v (p_chan s) (p_killed s) (p_xstate s) (p_pid s) (p_kstack s)
    (p_sz s) (p_pagetable s) (p_trapframe s) (p_context s) (p_ofile s) (p_cwd s) (p_name s).
Definition set_p_chan (v : Z) (s : proc) : proc :=
  Proc (p_lock s) (p_state s) (p_parent s) v (p_killed s) (p_xstate s) (p_pid s) (p_kstack s)
    (p_sz s) (p_pagetable s) (p_trapframe s) (p_context s) (p_ofile s) (p_cwd s) (p_name s).
Definition set_p_killed (v : bool) (s : proc) : proc :=
  Proc (p_lock s) (p_state s) (p_parent s) (p_chan s) v (p_xstate s) (p_pid s) (p_kstack s)
    (p_sz s) (p_pagetable s) (p_trapframe s) (p_context s) (p_ofile s) (p_cwd s) (p_name s).
Definition set_p_xstate (v : Z) (s : proc) : proc :=
  Proc (p_lock s) (p_state s) (p_parent s) (p_chan s) (p_killed s) v (p_pid s) (p_kstack s)
    (p_sz s) (p_pagetable s) (p_trapframe s) (p_context s) (p_ofile s) (p_cwd s) (p_name s).
Definition set_p_pid (v : Z) (s : proc) : proc :=
  Proc (p_lock s) (p_state s) (p_parent s) (p_chan s) (p_killed s) (p_xstate s) v (p_kstack s)
    (p_sz s) (p_pagetable s) (p_trapframe s) (p_context s) (p_ofile s) (p_cwd s) (p_name s).
Definition set_p_kstack (v : Z) (s : proc) : proc :=
  Proc (p_lock s) (p_state s) (p_parent s) (p_chan s) (p_killed s) (p_xstate s) (p_pid s) v
    (p_sz s) (p_pagetable s) (p_trapframe s) (p_context s) (p_ofile s) (p_cwd s) (p_name s).
Definition set_p_sz (v : Z) (s : proc) : proc :=
  Proc (p_lock s) (p_state s) (p_parent s) (p_chan s) (p_killed s) (p_xstate s) (p_pid s)
    (p_kstack s) v (p_pagetable s) (p_trapframe s) (p_context s) (p_ofile s) (p_cwd s) (p_name s).
Definition set_p_pagetable (v : Z) (s : proc) : proc :=
  Proc (p_lock s) (p_state s) (p_parent s) (p_chan s) (p_killed s) (p_xstate s) (p_pid s)
    (p_kstack s) (p_sz s) v (p_trapframe s) (p_context s) (p_ofile s) (p_cwd s) (p_name s).
Definition set_p_trapframe (v : Z) (s : proc) : proc :=
  Proc (p_lock s) (p_state s) (p_parent s) (p_chan s) (p_killed s) (p_xstate s) (p_pid s)
    (p_kstack s) (p_sz s) (p_pagetable s) v (p_context s) (p_ofile s) (p_cwd s) (p_name s).
Definition set_p_context (v : list Z) (s : proc) : proc :=
  Proc (p_lock s) (p_state s) (p_parent s) (p_chan s) (p_killed s) (p_xstate s) (p_pid s)
    (p_kstack s) (p_sz s) (p_pagetable s) (p_trapframe s) v (p_ofile s) (p_cwd s) (p_name s).
Definition set_p_ofile (v : list Z) (s : proc) : proc :=
  Proc (p_lock s) (p_state s) (p_parent s) (p_chan s) (p_killed s) (p_xstate s) (p_pid s)
    (p_kstack s) (p_sz s) (p_pagetable s) (p_trapframe s) (p_context s) v (p_cwd s) (p_name s).
Definition set_p_cwd (v : Z) (s : proc) : proc :=
  Proc (p_lock s) (p_state s) (p_parent s) (p_chan s) (p_killed s) (p_xstate s) (p_pid s)
    (p_kstack s) (p_sz s) (p_pagetable s) (p_trapframe s) (p_context s) (p_ofile s) v (p_name s).
Definition set_p_name (v : list Z) (s : proc) : proc :=
  Proc (p_lock s) (p_state s) (p_parent s) (p_chan s) (p_killed s) (p_xstate s) (p_pid s)
    (p_kstack s) (p_sz s) (p_pagetable s) (p_trapframe s) (p_context s) (p_ofile s) (p_cwd s) v.

(** [cons] of console.c. *)
Record console := Console {
  c_lock : bool;
  c_buf : list Z;
  c_r : Z;
  c_w : Z;
  c_e : Z
}.

Definition set_c_lock (v : bool) (s : console) : console :=
  Console v (c_buf s) (c_r s) (c_w s) (c_e s).
Definition set_c_buf (v : list Z) (s : console) : console :=
  Console (c_lock s) v (c_r s) (c_w s) (c_e s).
Definition set_c_r (v : Z) (s : console) : console :=
  Console (c_lock s) (c_buf s) v (c_w s) (c_e s).
Definition set_c_w (v : Z) (s : console) : console :=
  Console (c_lock s) (c_buf s) (c_r s) v (c_e s).
Definition set_c_e (v : Z) (s : console) : console :=
  Console (c_lock s) (c_buf s) (c_r s) (c_w s) v.

(** The driver of uart.c and its device: [tx_room] characters fit before the
    transmit register is busy, [rx_fifo] has arrived, [thr_out] was sent and
    [uart_regs] are the writes to the other registers (both latest first). *)
Record uart_state := Uart {
  uart_tx_lock : bool;
  uart_tx_buf : list Z;
  uart_tx_w : Z;
  uart_tx_r : Z;
  tx_room : nat;
  rx_fifo : list Z;
  thr_out : list Z;
  uart_regs : list (Z * Z)
}.

Definition set_uart_tx_lock (v : bool) (s : uart_state) : uart_state :=
  Uart v (uart_tx_buf s) (uart_tx_w s) (uart_tx_r s) (tx_room s) (rx_fifo s) (thr_out s)
    (uart_regs s).
Definition set_uart_tx_buf (v : list Z) (s : uart_state) : uart_state :=
  Uart (uart_tx_lock s) v (uart_tx_w s) (uart_tx_r s) (tx_room s) (rx_fifo s) (thr_out s)
    (uart_regs s).
Definition set_uart_tx_w (v : Z) (s : uart_state) : uart_state :=
  Uart (uart_tx_lock s) (uart_tx_buf s) v (uart_tx_r s) (tx_room s) (rx_fifo s) (thr_out s)
    (uart_regs s).
Definition set_uart_tx_r (v : Z) (s : uart_state) : uart_state :=
  Uart (uart_tx_lock s) (uart_tx_buf s) (uart_tx_w s) v (tx_room s) (rx_fifo s) (thr_out s)
    (uart_regs s).
Definition set_tx_room (v : nat) (s : uart_state) : uart_state :=
  Uart (uart_tx_lock s) (uart_tx_buf s) (uart_tx_w s) (uart_tx_r s) v (rx_fifo s) (thr_out s)
    (uart_regs s).
Definition set_rx_fifo (v : list Z) (s : uart_state) : uart_state :=
  Uart (uart_tx_lock s) (uart_tx_buf s) (uart_tx_w s) (uart_tx_r s) (tx_room s) v (thr_out s)
    (uart_regs s).
Definition set_thr_out (v : list Z) (s : uart_state) : uart_state :=
  Uart (uart_tx_lock s) (uart_tx_buf s) (uart_tx_w s) (uart_tx_r s) (tx_room s) (rx_fifo s) v
    (uart_regs s).
Definition set_uart_regs (v : list (Z * Z)) (s : uart_state) : uart_state :=
  Uart (uart_tx_lock s) (uart_tx_buf s) (uart_tx_w s) (uart_tx_r s) (tx_room s) (rx_fifo s)
    (thr_out s) v.

(** [pr] of printf.c. *)
Record pr_state := Pr {
  pr_lock : bool;
  pr_locking : bool
}.

Definition set_pr_lock (v : bool) (s : pr_state) : pr_state :=
  Pr v (pr_locking s).
Definition set_pr_locking (v : bool) (s : pr_state) : pr_state :=
  Pr (pr_lock s) v.

(** The kernel. *)
Record kstate := KState {
  lo : lstate;
  sb : superblock;
  icache_lock : bool;
  icache : gmap Z inode;
  mem : phys;
  ftable_lock : bool;
  ftable : gmap Z file;
  pipes : gmap Z pipe;
  procs : gmap Z proc;
  cur : Z;
  initproc : Z;
  nextpid : Z;
  pid_lock : bool;
  ticks : Z;
  tickslock : bool;
  cons : console;
  uart : uart_state;
  pr : pr_state
}.

Definition set_lo (v : lstate) (s : kstate) : kstate :=
  KState v (sb s) (icache_lock s) (icache s) (mem s) (ftable_lock s) (ftable s) (pipes s)
    (procs s) (cur s) (initproc s) (nextpid s) (pid_lock s) (ticks s) (tickslock s) (cons s)
    (uart s) (pr s).
Definition set_sb (v : superblock) (s : kstate) : kstate :=
  KState (lo s) v (icache_lock s) (icache s) (mem s) (ftable_lock s) (ftable s) (pipes s)
    (procs s) (cur s) (initproc s) (nextpid s) (pid_lock s) (ticks s) (tickslock s) (cons s)
    (uart s) (pr s).
Definition set_icache_lock (v : bool) (s : kstate) : kstate :=
  KState (lo s) (sb s) v (icache s) (mem s) (ftable_lock s) (ftable s) (pipes s) (procs s) (cur s)
    (initproc s) (nextpid s) (pid_lock s) (ticks s) (tickslock s) (cons s) (uart s) (pr s).
Definition set_icache (v : gmap Z inode) (s : kstate) : kstate :=
  KState (lo s) (sb s) (icache_lock s) v (mem s) (ftable_lock s) (ftable s) (pipes s) (procs s)
    (cur s) (initproc s) (nextpid s) (pid_lock s) (ticks s) (tickslock s) (cons s) (uart s)
    (pr s).
Definition set_mem (v : phys) (s : kstate) : kstate :=
  KState (lo s) (sb s) (icache_lock s) (icache s) v (ftable_lock s) (ftable s) (pipes s) (procs s)
    (cur s) (initproc s) (nextpid s) (pid_lock s) (ticks s) (tickslock s) (cons s) (uart s)
    (pr s).
Definition set_ftable_lock (v : bool) (s : kstate) : kstate :=
  KState (lo s) (sb s) (icache_lock s) (icache s) (mem s) v (ftable s) (pipes s) (procs s) (cur s)
    (initproc s) (nextpid s) (pid_lock s) (ticks s) (tickslock s) (cons s) (uart s) (pr s).
Definition set_ftable (v : gmap Z file) (s : kstate) : kstate :=
  KState (lo s) (sb s) (icache_lock s) (icache s) (mem s) (ftable_lock s) v (pipes s) (procs s)
    (cur s) (initproc s) (nextpid s) (pid_lock s) (ticks s) (tickslock s) (cons s) (uart s)
    (pr s).
Definition set_pipes (v : gmap Z pipe) (s : kstate) : kstate :=
  KState (lo s) (sb s) (icache_lock s) (icache s) (mem s) (ftable_lock s) (ftable s) v (procs s)
    (cur s) (initproc s) (nextpid s) (pid_lock s) (ticks s) (tickslock s) (cons s) (uart s)
    (pr s).
Definition set_procs (v : gmap Z proc) (s : kstate) : kstate :=
  KState (lo s) (sb s) (icache_lock s) (icache s) (mem s) (ftable_lock s) (ftable s) (pipes s) v
    (cur s) (initproc s) (nextpid s) (pid_lock s) (ticks s) (tickslock s) (cons s) (uart s)
    (pr s).
Definition set_cur (v : Z) (s : kstate) : kstate :=
  KState (lo s) (sb s) (icache_lock s) (icache s) (mem s) (ftable_lock s) (ftable s) (pipes s)
    (procs s) v (initproc s) (nextpid s) (pid_lock s) (ticks s) (tickslock s) (cons s) (uart s)
    (pr s).
Definition set_initproc (v : Z) (s : kstate) : kstate :=
  KState (lo s) (sb s) (icache_lock s) (icache s) (mem s) (ftable_lock s) (ftable s) (pipes s)
    (procs s) (cur s) v (nextpid s) (pid_lock s) (ticks s) (tickslock s) (cons s) (uart s) (pr s).
Definition set_nextpid (v : Z) (s : kstate) : kstate :=
  KState (lo s) (sb s) (icache_lock s) (icache s) (mem s) (ftable_lock s) (ftable s) (pipes s)
    (procs s) (cur s) (initproc s) v (pid_lock s) (ticks s) (tickslock s) (cons s) (uart s)
    (pr s).
Definition set_pid_lock (v : bool) (s : kstate) : kstate :=
  KState (lo s) (sb s) (icache_lock s) (icache s) (mem s) (ftable_lock s) (ftable s) (pipes s)
    (procs s) (cur s) (initproc s) (nextpid s) v (ticks s) (tickslock s) (cons s) (uart s) (pr s).
Definition set_ticks (v : Z) (s : kstate) : kstate :=
  KState (lo s) (sb s) (icache_lock s) (icache s) (mem s) (ftable_lock s) (ftable s) (pipes s)
    (procs s) (cur s) (initproc s) (nextpid s) (pid_lock s) v (tickslock s) (cons s) (uart s)
    (pr s).
Definition set_tickslock (v : bool) (s : kstate) : kstate :=
  KState (lo s) (sb s) (icache_lock s) (icache s) (mem s) (ftable_lock s) (ftable s) (pipes s)
    (procs s) (cur s) (initproc s) (nextpid s) (pid_lock s) (ticks s) v (cons s) (uart s) (pr s).
Definition set_cons (v : console) (s : kstate) : kstate :=
  KState (lo s) (sb s) (icache_lock s) (icache s) (mem s) (ftable_lock s) (ftable s) (pipes s)
    (procs s) (cur s) (initproc s) (nextpid s) (pid_lock s) (ticks s) (tickslock s) v (uart s)
    (pr s).
Definition set_uart (v : uart_state) (s : kstate) : kstate :=
  KState (lo s) (sb s) (icache_lock s) (icache s) (mem s) (ftable_lock s) (ftable s) (pipes s)
    (procs s) (cur s) (initproc s) (nextpid s) (pid_lock s) (ticks s) (tickslock s) (cons s) v
    (pr s).
Definition set_pr (v : pr_state) (s : kstate) : kstate :=
  KState (lo s) (sb s) (icache_lock s) (icache s) (mem s) (ftable_lock s) (ftable s) (pipes s)
    (procs s) (cur s) (initproc s) (nextpid s) (pid_lock s) (ticks s) (tickslock s) (cons s)
    (uart s) v.

Abbreviation KM := (M kstate) (only parsing).

(** ** Access *)

(** [p->f] and [p->f = v] through the pointers of the three tables. *)
Definition iget_at (ip : Z) : KM inode := let! m := gets icache in of_option "fault" (m !! ip).
Definition iupd (ip : Z) (f : inode -> inode) : KM unit :=
  let! x := iget_at ip in modify (fun s => set_icache (<[ip := f x]> (icache s)) s).
Definition file_at (f : Z) : KM file := let! m := gets ftable in of_option "fault" (m !! f).
Definition fupd (f : Z) (g : file -> file) : KM unit :=
  let! x := file_at f in modify (fun s => set_ftable (<[f := g x]> (ftable s)) s).
Definition pipe_at (pi : Z) : KM pipe := let! m := gets pipes in of_option "fault" (m !! pi).
Definition piupd (pi : Z) (g : pipe -> pipe) : KM unit :=
  let! x := pipe_at pi in modify (fun s => set_pipes (<[pi := g x]> (pipes s)) s).
Definition proc_at (p : Z) : KM proc := let! m := gets procs in of_option "fault" (m !! p).
Definition pupd (p : Z) (g : proc -> proc) : KM unit :=
  let! x := proc_at p in modify (fun s => set_procs (<[p := g x]> (procs s)) s).

Definition myproc : KM Z := gets cur.

(** What [wakeup] does to a process. *)
Definition wake (chan : Z) (p : proc) : proc :=
  match p_state p with
  | SLEEPING => if p_chan p =? chan then set_p_state RUNNABLE p else p
  | _ => p
  end.
Definition icache_lk : lens kstate bool := Lens icache_lock set_icache_lock.
Definition ftable_lk : lens kstate bool := Lens ftable_lock set_ftable_lock.
Definition pid_lk : lens kstate bool := Lens pid_lock set_pid_lock.
Definition ticks_lk : lens kstate bool := Lens tickslock set_tickslock.
Definition inode_lock (ip : Z) : lens kstate sleeplock :=
  Lens (fun s => from_option i_lock no_lock (icache s !! ip))
    (fun k s => set_icache (alter (set_i_lock k) ip (icache s)) s).
Definition proc_lk (p : Z) : lens kstate bool :=
  Lens (fun s => from_option p_lock false (procs s !! p))
    (fun b s => set_procs (alter (set_p_lock b) p (procs s)) s).
Definition pipe_lk (pi : Z) : lens kstate bool :=
  Lens (fun s => from_option pi_lock false (pipes s !! pi))
    (fun b s => set_pipes (alter (set_pi_lock b) pi (pipes s)) s).

(** The statements of a function, one after the other.  On several CPUs, those of
    other processes run between them. *)
Definition run_steps (l : list (KM unit)) : KM unit := for_all l (fun m => m).

(** [wakeup]: the body of the loop over the table, for process [i]. *)
Definition wakeup_visit (chan i : Z) : list (KM unit) :=
  [spin_acquire (proc_lk i); pupd i (wake chan); spin_release (proc_lk i)].
Definition wakeup (chan : Z) : KM unit :=
  for_all (seqZ 0 NPROC) (fun i => run_steps (wakeup_visit chan i)).

#[export] Instance kstate_sleep_env : SleepEnv kstate :=
  {| myproc_pid := fun s => cur_pid (bio (lo s)); wakeup_on := wakeup |}.

(** Addresses as channels: those of the buffers are below [NBUF], and pages lie
    above all of these. *)
Definition inode_chan (ip : Z) : Z := 2000 + ip.
Definition proc_chan (p : Z) : Z := 3000 + p.
Definition TICKS_CHAN : Z := 4000.

(** The switch to the scheduler; the interrupt state that [sched] also checks
    is that of [Locks]. *)
Definition sched {A} : KM A :=
  let! p := myproc in
  let! x := proc_at p in
  if negb (p_lock x) then panic "sched p->lock" else
  match p_state x with
  | RUNNING => panic "sched running"
  | _ => fun s => Sleep s
  end.

(** [sleep(chan, lk)] up to the switch to the scheduler; [None] stands for the
    lock of the process itself. *)
Definition sleep_steps (p chan : Z) (lk : option (lens kstate bool)) : list (KM unit) :=
  match lk with
  | Some l => [spin_acquire (proc_lk p); spin_release l]
  | None => []
  end ++ [pupd p (set_p_chan chan); pupd p (set_p_state SLEEPING)].
Definition sleep {A} (chan : Z) (lk : option (lens kstate bool)) : KM A :=
  let! p := myproc in
  run_steps (sleep_steps p chan lk) ;;;
  sched.

(** The wakeups that the log and the cache called are delivered to the process
    table. *)
Definition new_wakeups (old new : list event) : list Z :=
  omap (fun e => match e with EvWakeup c => Some c | _ => None end)
    (take (length new - length old) new).
Definition deliver (chans : list Z) (s : kstate) : kstate :=
  set_procs (fmap (fun p => fold_right wake p chans) (procs s)) s.

Definition in_lo {A} (m : M lstate A) : KM A := fun s =>
  match m (lo s) with
  | Ret a l => Ret a (deliver (new_wakeups (trace (bio (lo s))) (trace (bio l))) (set_lo l s))
  | Panic msg => Panic msg
  | Sleep l => Sleep (set_lo l s)
  | Fuel => Fuel
  end.
Definition in_bc {A} (m : M bstate A) : KM A := in_lo (in_bio m).
Definition in_mem {A} (m : M phys A) : KM A := zoom mem set_mem m.

(** ** Copies *)

(** Where [readi] and the like write: a user address, or an object of the
    kernel, to which they write consecutive bytes.  Where [writei] reads: a
    user address, or the bytes of an object of the kernel. *)
Inductive kdst := ToUser (va : Z) | ToKernel.
Inductive ksrc := FromUser (va : Z) | FromKernel (l : list Z).

Definition my_pagetable : KM Z :=
  let! p := myproc in let! x := proc_at p in ret (p_pagetable x).

(** The result, and the bytes written to the kernel object. *)
Definition either_copyout (dst : kdst) (src : list Z) (len : Z) : KM (Z * list Z) :=
  match dst with
  | ToUser va =>
      let! pt := my_pagetable in
      let! r := in_mem (copyout pt va src len) in ret (r, [])
  | ToKernel => ret (0, take (Z.to_nat len) src)
  end.

(** The result, and the bytes written to the destination. *)
Definition either_copyin (src : ksrc) (len : Z) : KM (Z * list Z) :=
  match src with
  | FromUser va => let! pt := my_pagetable in in_mem (copyin pt va len)
  | FromKernel l => ret (0, take (Z.to_nat len) l)
  end.
Definition kdst_add (dst : kdst) (n : Z) : kdst :=
  match dst with ToUser va => ToUser (u64 (va + n)) | ToKernel => ToKernel end.
Definition ksrc_add (src : ksrc) (n : Z) : ksrc :=
  match src with
  | FromUser va => FromUser (u64 (va + n))
  | FromKernel l => FromKernel (drop (Z.to_nat n) l)
  end.

(** ** The kernel's data when it starts: zero, but for the initialised
    [nextpid] *)

Definition zeros (n : Z) : list Z := replicate (Z.to_nat n) 0.
Definition table {A} (n : Z) (x : A) : gmap Z A :=
  list_to_map ((fun i => (i, x)) <$> seqZ 0 n).

Definition bss_inode : inode := Inode 0 0 0 no_lock false 0 0 0 0 0 (zeros 13).
Definition bss_file : file := File FD_NONE 0 false false 0 0 0 0.
Definition bss_proc : proc :=
  Proc false UNUSED NULL 0 false 0 0 0 0 0 0 (zeros 14) (replicate (Z.to_nat NOFILE) NULL) NULL
    [].

(** [dk] is on the disk, [m] is the memory and process [p] runs. *)
Definition kernel_boot (dk : gmap Z block) (m : phys) (p : Z) : kstate :=
  KState (log_boot dk p) (Superblock 0 0 0 0 0 0 0 0) false (table NINODE bss_inode) m
    false (table NFILE bss_file) ∅ (table NPROC bss_proc) p 0 1 false 0 false
    (Console false (zeros 128) 0 0 0) (Uart false (zeros 32) 0 0 16 [] [] []) (Pr false false).

Lemma lookup_table {A} n (x : A) i : 0 <= i < n -> table n x !! i = Some x.
Proof.
  intros Hi. apply elem_of_list_to_map_1.
  - rewrite <- list_fmap_compose. unfold compose.
    rewrite (list_fmap_ext _ (fun i => i)) by done. rewrite list_fmap_id. apply NoDup_seqZ.
  - apply list_elem_of_fmap. exists i. split; [done|]. apply elem_of_seqZ. lia.
Qed.

Lemma lookup_table_inv {A} n (x y : A) i : table n x !! i = Some y -> 0 <= i < n /\ y = x.
Proof.
  intros H. unfold table in H. apply elem_of_list_to_map_2, list_elem_of_fmap in H.
  destruct H as (j & [= -> ->] & Hj%elem_of_seqZ). split; [lia|done].
Qed.
