(* ===== verification/Console.v ===== *)
(** The console: the driver of the serial port, FileSystem-RAID/kernel/uart.c,
    the line discipline of console.c and the formatted output of printf.c.

    The device is the part of [uart_state] that the driver reads and writes
    through its registers.  [uartputc_sync] waits until the transmit register
    is free, and so always sends. *)
From S2P Require Import Prelude Locks Kalloc Vm Bio Log Kernel.

Definition INPUT_BUF : Z := 128.
Definition UART_TX_BUF_SIZE : Z := 32.
Definition BACKSPACE : Z := 256.
(** Control-x. *)
Definition C (x : Z) : Z := x - 64.
Definition NEWLINE : Z := 10.

Definition CONS_CHAN : Z := 4001.
Definition UART_TX_CHAN : Z := 4002.

Definition cons_lk : lens kstate bool :=
  Lens (fun s => c_lock (cons s)) (fun b s => set_cons (set_c_lock b (cons s)) s).
Definition uart_lk : lens kstate bool :=
  Lens (fun s => uart_tx_lock (uart s)) (fun b s => set_uart (set_uart_tx_lock b (uart s)) s).
Definition pr_lk : lens kstate bool :=
  Lens (fun s => pr_lock (pr s)) (fun b s => set_pr (set_pr_lock b (pr s)) s).

Definition updu (f : uart_state -> uart_state) : KM unit :=
  modify (fun s => set_uart (f (uart s)) s).
Definition updc (f : console -> console) : KM unit :=
  modify (fun s => set_cons (f (cons s)) s).

(** ** uart.c *)

Definition IER : Z := 1.
Definition FCR : Z := 2.
Definition LCR : Z := 3.
Definition LCR_EIGHT_BITS : Z := Z.shiftl 3 0.
Definition LCR_BAUD_LATCH : Z := Z.shiftl 1 7.
Definition FCR_FIFO_ENABLE : Z := Z.shiftl 1 0.
Definition FCR_FIFO_CLEAR : Z := Z.shiftl 3 1.
Definition IER_RX_ENABLE : Z := Z.shiftl 1 1.
Definition IER_TX_ENABLE : Z := Z.shiftl 1 0.

Definition WriteReg (reg v : Z) : KM unit :=
  updu (fun u => set_uart_regs ((reg, v) :: uart_regs u) u).
(** [WriteReg(THR, c)]: the character is sent. *)
Definition WriteTHR (c : Z) : KM unit :=
  updu (fun u => set_tx_room (Nat.pred (tx_room u)) (set_thr_out (u8 c :: thr_out u) u)).

Definition uartinit : KM unit :=
  WriteReg IER 0 ;;;
  WriteReg LCR LCR_BAUD_LATCH ;;;
  WriteReg 0 3 ;;;
  WriteReg 1 0 ;;;
  WriteReg LCR LCR_EIGHT_BITS ;;;
  WriteReg FCR (Z.lor FCR_FIFO_ENABLE FCR_FIFO_CLEAR) ;;;
  WriteReg IER (Z.lor IER_TX_ENABLE IER_RX_ENABLE) ;;;
  updu (set_uart_tx_lock false).

Definition uartstart : KM unit :=
  loop tt (fun _ =>
    let! u := gets uart in
    if uart_tx_w u =? uart_tx_r u then ret (inr tt) else
    if (tx_room u =? 0)%nat then ret (inr tt) else
    let c := default 0 (uart_tx_buf u !! Z.to_nat (uart_tx_r u)) in
    updu (set_uart_tx_r ((uart_tx_r u + 1) mod UART_TX_BUF_SIZE)) ;;;
    wakeup UART_TX_CHAN ;;;
    WriteTHR c ;;;
    ret (inl tt)).

Definition uartputc (c : Z) : KM unit :=
  spin_acquire uart_lk ;;;
  let! u := gets uart in
  if (uart_tx_w u + 1) mod UART_TX_BUF_SIZE =? uart_tx_r u then
    sleep UART_TX_CHAN (Some uart_lk)
  else
    updu (set_uart_tx_buf (<[Z.to_nat (uart_tx_w u) := u8 c]> (uart_tx_buf u))) ;;;
    updu (set_uart_tx_w ((uart_tx_w u + 1) mod UART_TX_BUF_SIZE)) ;;;
    uartstart ;;;
    spin_release uart_lk.

Definition uartputc_sync (c : Z) : KM unit := WriteTHR c.

Definition uartgetc : KM Z :=
  let! u := gets uart in
  match rx_fifo u with
  | c :: rest => updu (set_rx_fifo rest) ;;; ret (u8 c)
  | [] => ret (-1)
  end.

(** ** printf.c and the output side of console.c *)

Definition consputc (c : Z) : KM unit :=
  if c =? BACKSPACE then uartputc_sync 8 ;;; uartputc_sync 32 ;;; uartputc_sync 8
  else uartputc_sync c.

(** [digits[d]] *)
Definition digit (d : Z) : Z := if d <? 10 then 48 + d else 97 + (d - 10).

(** The digits of [x], the last one first: [fuel] of them at most. *)
Fixpoint digits_of (fuel : nat) (x base : Z) : list Z :=
  match fuel with
  | O => []
  | S n =>
      digit (x mod base) ::
        (if negb (x / base =? 0) then digits_of n (x / base) base else [])
  end.

(** The buffer of [printint], of 16 characters. *)
Definition printint_buf (xx base : Z) (sign : bool) : list Z :=
  let neg := sign && (xx <? 0) in
  let x := if neg then u32 (- xx) else u32 xx in
  digits_of 16 x base ++ (if neg then [45] else []).
Definition printint (xx base : Z) (sign : bool) : KM unit :=
  for_all (reverse (printint_buf xx base sign)) consputc.

Definition printptr (x : Z) : KM unit :=
  consputc 48 ;;; consputc 120 ;;;
  for_all (seqZ 0 16) (fun i =>
    consputc (digit (Z.shiftr (u64 (Z.shiftl x (4 * i))) (64 - 4)))).

Inductive printf_arg := AInt (x : Z) | AWord (x : Z) | AStr (s : list Z).

(** The format without its leading part up to a [%] sequence; an argument of the
    wrong type is undefined behaviour. *)
Fixpoint printf_loop (fmt : list Z) (ap : list printf_arg) : KM unit :=
  match fmt with
  | [] => ret tt
  | c :: fmt =>
      if negb (c =? 37) then consputc c ;;; printf_loop fmt ap else
      match fmt with
      | [] => ret tt
      | c :: fmt =>
          if c =? 100 then
            match ap with
            | AInt x :: ap => printint x 10 true ;;; printf_loop fmt ap
            | _ => panic "fault"
            end
          else if c =? 120 then
            match ap with
            | AInt x :: ap => printint x 16 true ;;; printf_loop fmt ap
            | _ => panic "fault"
            end
          else if c =? 112 then
            match ap with
            | AWord x :: ap => printptr x ;;; printf_loop fmt ap
            | _ => panic "fault"
            end
          else if c =? 115 then
            match ap with
            | AStr l :: ap => for_all l consputc ;;; printf_loop fmt ap
            | _ => panic "fault"
            end
          else if c =? 37 then consputc 37 ;;; printf_loop fmt ap
          else consputc 37 ;;; consputc c ;;; printf_loop fmt ap
      end
  end.

(** The characters of a string literal. *)
Definition str (s : string) : list Z :=
  (fun a => Z.of_N (Ascii.N_of_ascii a)) <$> list_ascii_of_string s.

Definition printf (fmt : list Z) (ap : list printf_arg) : KM unit :=
  let! locking := gets (fun s => pr_locking (pr s)) in
  when locking (spin_acquire pr_lk) ;;;
  printf_loop fmt ap ;;;
  when locking (spin_release pr_lk).

Definition printfinit : KM unit :=
  modify (fun s => set_pr (Pr false true) s).

(** ** console.c *)

(** The number of characters written. *)
Definition consolewrite (src : ksrc) (n : Z) : KM Z :=
  spin_acquire cons_lk ;;;
  let! i := for_each (seqZ 0 n) (fun i =>
    let! '(r, c) := either_copyin (ksrc_add src i) 1 in
    if r =? -1 then ret (Some i) else
    uartputc (hd 0 c) ;;;
    ret None) in
  spin_release cons_lk ;;;
  ret (default (Z.max n 0) i).

(** The result, and the bytes written to a kernel destination. *)
Definition consoleread (dst : kdst) (n : Z) : KM (Z * list Z) :=
  let target := u32 n in
  spin_acquire cons_lk ;;;
  let! r := loop (n, dst, []) (fun '(n, dst, out) =>
    if 0 <? n then
      let! k := gets cons in
      if c_r k =? c_w k then
        let! p := myproc in
        let! x := proc_at p in
        if p_killed x then spin_release cons_lk ;;; ret (inr None)
        else sleep CONS_CHAN (Some cons_lk)
      else
        let c := default 0 (c_buf k !! Z.to_nat (c_r k mod INPUT_BUF)) in
        updc (set_c_r (u32 (c_r k + 1))) ;;;
        if c =? C 68 then
          when (u32 n <? target) (updc (fun k => set_c_r (u32 (c_r k - 1)) k)) ;;;
          ret (inr (Some (n, out)))
        else
          let! '(r, bytes) := either_copyout dst [u8 c] 1 in
          if r =? -1 then ret (inr (Some (n, out))) else
          let out := out ++ bytes in
          if c =? NEWLINE then ret (inr (Some (n - 1, out)))
          else ret (inl (n - 1, kdst_add dst 1, out))
    else ret (inr (Some (n, out)))) in
  match r with
  | None => ret (-1, [])
  | Some (n, out) => spin_release cons_lk ;;; ret (s32 (target - n), out)
  end.

Definition state_name (st : procstate) : string :=
  match st with
  | UNUSED => "unused"
  | SLEEPING => "sleep "
  | RUNNABLE => "runble"
  | RUNNING => "run   "
  | ZOMBIE => "zombie"
  end.

Definition procdump : KM unit :=
  printf [NEWLINE] [] ;;;
  for_all (seqZ 0 NPROC) (fun i =>
    let! p := proc_at i in
    match p_state p with
    | UNUSED => ret tt
    | st =>
        printf (str "%d %s %s") [AInt (p_pid p); AStr (str (state_name st)); AStr (p_name p)] ;;;
        printf [NEWLINE] []
    end).

(** [cons.e--] and the erasure of the character on the screen. *)
Definition erase_char : KM unit :=
  updc (fun k => set_c_e (u32 (c_e k - 1)) k) ;;;
  consputc BACKSPACE.

Definition consoleintr (c : Z) : KM unit :=
  spin_acquire cons_lk ;;;
  (if c =? C 80 then procdump
   else if c =? C 85 then
     loop tt (fun _ =>
       let! k := gets cons in
       if negb (c_e k =? c_w k) &&
          negb (default 0 (c_buf k !! Z.to_nat (u32 (c_e k - 1) mod INPUT_BUF)) =? NEWLINE)
       then erase_char ;;; ret (inl tt)
       else ret (inr tt))
   else if (c =? C 72) || (c =? 127) then
     let! k := gets cons in
     when (negb (c_e k =? c_w k)) erase_char
   else
     let! k := gets cons in
     when (negb (c =? 0) && (u32 (c_e k - c_r k) <? INPUT_BUF))
       (let c := if c =? 13 then NEWLINE else c in
        consputc c ;;;
        updc (set_c_buf (<[Z.to_nat (c_e k mod INPUT_BUF) := u8 c]> (c_buf k))) ;;;
        updc (set_c_e (u32 (c_e k + 1))) ;;;
        let! k := gets cons in
        when ((c =? NEWLINE) || (c =? C 68) || (c_e k =? u32 (c_r k + INPUT_BUF)))
          (updc (set_c_w (c_e k)) ;;;
           wakeup CONS_CHAN))) ;;;
  spin_release cons_lk.

(** [consoleinit] also connects [consoleread] and [consolewrite] to [devsw],
    which [File] reads as a function. *)
Definition consoleinit : KM unit :=
  updc (set_c_lock false) ;;;
  uartinit.

Definition uartintr : KM unit :=
  loop tt (fun _ =>
    let! c := uartgetc in
    if c =? -1 then ret (inr tt) else consoleintr c ;;; ret (inl tt)) ;;;
  spin_acquire uart_lk ;;;
  uartstart ;;;
  spin_release uart_lk.

(** ** Numbers *)

Definition digit_val (c : Z) : Z := if c <? 97 then c - 48 else c - 87.
(** The number that a sequence of digits denotes, the last digit first. *)
Definition digits_val (base : Z) (l : list Z) : Z :=
  fold_right (fun c n => digit_val c + base * n) 0 l.
(** The number that a reader makes of characters: digits, or a minus sign and
    digits. *)
Definition parse_int (base : Z) (out : list Z) : Z :=
  match out with
  | c :: out' => if c =? 45 then - digits_val base (reverse out') else digits_val base (reverse out)
  | [] => 0
  end.

Definition is_digit (c : Z) : Prop := 48 <= c <= 57 \/ 97 <= c <= 102.

Lemma digit_spec d : 0 <= d < 16 -> is_digit (digit d) /\ digit_val (digit d) = d.
Proof.
  intros Hd. unfold is_digit, digit, digit_val. destruct (Z.ltb_spec d 10).
  - split; [lia|]. destruct (Z.ltb_spec (48 + d) 97); lia.
  - split; [lia|]. destruct (Z.ltb_spec (97 + (d - 10)) 97); lia.
Qed.

Lemma digits_of_spec fuel x base k :
  2 <= base <= 16 -> 0 <= x < base ^ Z.of_nat (S k) -> (k < fuel)%nat ->
  digits_val base (digits_of fuel x base) = x /\ Forall is_digit (digits_of fuel x base) /\
  (length (digits_of fuel x base) <= S k)%nat /\ digits_of fuel x base <> [].
Proof.
  intros Hb. revert x k. induction fuel as [|fuel IH]; intros x k Hx Hk; [lia|].
  cbn [digits_of digits_val fold_right length]. fold (digits_val base).
  destruct (digit_spec (x mod base)) as [Hd Hv]; [pose proof (Z.mod_pos_bound x base); lia|].
  rewrite Hv. destruct (Z.eqb_spec (x / base) 0) as [H0|H0]; cbn [negb digits_val fold_right].
  - split; [pose proof (Z.div_mod x base); lia|]. split; [constructor; [done|constructor]|].
    split; [simpl; lia|done].
  - destruct k as [|k].
    { exfalso. apply H0. change (Z.of_nat 1) with 1 in Hx. rewrite Z.pow_1_r in Hx.
      by apply Z.div_small. }
    destruct (IH (x / base) k) as (IH1 & IH2 & IH3 & _); [|lia|].
    + rewrite Nat2Z.inj_succ, Z.pow_succ_r in Hx by lia. split; [apply Z.div_pos; lia|].
      apply Z.div_lt_upper_bound; lia.
    + fold (digits_val base (digits_of fuel (x / base) base)). rewrite IH1.
      split; [pose proof (Z.div_mod x base); lia|]. split; [by constructor|].
      split; [simpl; lia|done].
Qed.

(** A 32-bit number has at most 10 digits in base 10, fewer in base 16. *)
Lemma uint_digits base x : 10 <= base <= 16 -> 0 <= x < 2 ^ 32 -> 0 <= x < base ^ Z.of_nat 10.
Proof.
  intros Hb Hx. split; [lia|]. apply Z.lt_le_trans with (10 ^ Z.of_nat 10); [simpl; lia|].
  apply Z.pow_le_mono_l. lia.
Qed.

Lemma parse_unsigned base l : Forall is_digit l -> l <> [] ->
  parse_int base (reverse l) = digits_val base l.
Proof.
  intros Hl Hne. unfold parse_int. destruct (reverse l) as [|c out] eqn:Hr.
  - apply (f_equal reverse) in Hr. by rewrite reverse_involutive in Hr.
  - assert (is_digit c) as Hc.
    { rewrite list.Forall_forall in Hl. apply Hl. rewrite <- elem_of_reverse, Hr. by left. }
    destruct (Z.eqb_spec c 45); [unfold is_digit in Hc; lia|].
    by rewrite <- Hr, reverse_involutive.
Qed.

Lemma printint_buf_spec xx base :
  is_int xx -> 10 <= base <= 16 ->
  parse_int base (reverse (printint_buf xx base true)) = xx /\
  (length (printint_buf xx base true) <= 11)%nat /\
  Forall (fun c => 0 <= c < 256) (printint_buf xx base true).
Proof.
  intros Hx Hb. unfold is_int, INT_MIN, INT_MAX in Hx. unfold printint_buf. cbn [andb].
  set (x := if xx <? 0 then u32 (- xx) else u32 xx).
  assert (Hux : x = Z.abs xx).
  { unfold x. destruct (Z.ltb_spec xx 0); rewrite u32_small; lia. }
  destruct (digits_of_spec 16 x base 9) as (H1 & H2 & H3 & H4);
    [lia|apply uint_digits; lia|lia|].
  assert (Hnb : forall l, Forall is_digit l -> Forall (fun c => 0 <= c < 256) l).
  { intros l Hl. refine (List.Forall_impl _ _ Hl). intros c Hc. unfold is_digit in Hc. lia. }
  destruct (Z.ltb_spec xx 0) as [Hneg|Hpos].
  - split; [|split].
    + rewrite reverse_app.
      change (- digits_val base (reverse (reverse (digits_of 16 x base))) = xx).
      rewrite reverse_involutive, H1. lia.
    + rewrite length_app. cbn [length]. lia.
    + apply Forall_app. split; [by apply Hnb|]. constructor; [lia|constructor].
  - rewrite app_nil_r. split; [|split; [lia|by apply Hnb]].
    rewrite parse_unsigned by done. rewrite H1. lia.
Qed.

Lemma consputc_all l s :
  Forall (fun c => 0 <= c < 256) l ->
  wp (for_all l consputc) s (fun _ s' => thr_out (uart s') = reverse l ++ thr_out (uart s)).
Proof.
  revert s. induction l as [|c l IH]; intros s Hl; [done|].
  inversion Hl as [|? ? Hc Hl']; subst. simpl. apply wp_bind.
  unfold consputc, BACKSPACE. rewrite (proj2 (Z.eqb_neq c _)) by lia. apply wp_modify.
  eapply wp_mono; [by apply IH|]. intros [] s' H. rewrite H. simpl. unfold u8.
  rewrite Z.mod_small by lia. by rewrite reverse_cons, <- app_assoc.
Qed.

(** C28: [printint] in base 10 or 16 with a sign, as [printf] uses it for [%d] and
    [%x]: for every [int] the characters fit the 16 bytes of its buffer, and
    those sent to the serial port denote the number. *)
Theorem printint_roundtrip xx base s :
  is_int xx -> 10 <= base <= 16 ->
  (length (printint_buf xx base true) <= 16)%nat /\
  wp (printint xx base true) s (fun _ s' => exists out,
    thr_out (uart s') = reverse out ++ thr_out (uart s) /\ parse_int base out = xx).
Proof.
  intros Hx Hb. destruct (printint_buf_spec xx base Hx Hb) as (H1 & H2 & H3). split; [lia|].
  unfold printint. eapply wp_mono.
  { apply consputc_all. by apply Forall_reverse. }
  intros [] s' H. by exists (reverse (printint_buf xx base true)).
Qed.

Lemma printint_roundtrip_witness : exists s,
  (length (printint_buf INT_MIN 10 true) <= 16)%nat /\
  wp (printint INT_MIN 10 true) s (fun _ s' => exists out,
    thr_out (uart s') = reverse out ++ thr_out (uart s) /\ parse_int 10 out = INT_MIN).
Proof.
  exists (kernel_boot ∅ small_boot 0).
  apply printint_roundtrip; unfold is_int, INT_MIN, INT_MAX; lia.
Defined.
