(* ===== verification/Fs.v ===== *)
(** The file system, FileSystem-RAID/kernel/fs.c: blocks, inodes, directories
    and path names, over the log and the buffer cache.

    On-disk structures are bytes of blocks: an inode is 64 bytes ([dinode]), a
    directory entry 16 bytes ([dirent]).  C strings are lists of characters
    without the terminating NUL; [char name[DIRSIZ]] is the list of its 14
    bytes. *)
From S2P Require Import Prelude CString Bytes Locks Kalloc Vm Bio Log Kernel Console.

Definition ROOTINO : Z := 1.
Definition FSMAGIC : Z := 270544960.
Definition NDIRECT : Z := 12.
Definition NINDIRECT : Z := BSIZE / 4.
Definition MAXFILE : Z := NDIRECT + NINDIRECT.
Definition sizeof_dinode : Z := 64.
Definition IPB : Z := BSIZE / sizeof_dinode.
Definition IBLOCK (i : Z) (sb : superblock) : Z := u32 (i / IPB + sb_inodestart sb).
Definition BPB : Z := BSIZE * 8.
Definition BBLOCK (b : Z) (sb : superblock) : Z := u32 (b / BPB + sb_bmapstart sb).
Definition DIRSIZ : Z := 14.
Definition sizeof_dirent : Z := 16.

Definition T_DIR : Z := 1.
Definition T_FILE : Z := 2.
Definition T_DEVICE : Z := 3.
Definition T_SYMLINK : Z := 4.
Definition M_READ : Z := 1.
Definition M_WRITE : Z := 2.

Definition inode_get_mode (x : inode) : Z := if i_type x =? T_DEVICE then 0 else i_minor x.
Definition inode_set_mode (mode : Z) (x : inode) : inode :=
  if i_type x =? T_DEVICE then x else set_i_minor mode x.

(** ** Structures on the disk *)

Definition superblock_of (l : list Z) : superblock :=
  Superblock (get32 l 0) (get32 l 4) (get32 l 8) (get32 l 12)
    (get32 l 16) (get32 l 20) (get32 l 24) (get32 l 28).

Record dinode := Dinode {
  d_type : Z; d_major : Z; d_minor : Z; d_nlink : Z; d_size : Z; d_addrs : list Z
}.

Definition get_addrs (l : list Z) (off : nat) : list Z :=
  (fun i => get32 l (off + 4 * i)) <$> seq 0 (Z.to_nat (NDIRECT + 1)).
Fixpoint put_addrs (l : list Z) (off : nat) (addrs : list Z) : list Z :=
  match addrs with
  | [] => l
  | a :: addrs' => put_addrs (put32 l off a) (off + 4) addrs'
  end.

Definition get_dinode (l : list Z) (off : nat) : dinode :=
  Dinode (s16 (get16 l off)) (s16 (get16 l (off + 2))) (s16 (get16 l (off + 4)))
    (s16 (get16 l (off + 6))) (get32 l (off + 8)) (get_addrs l (off + 12)).
Definition put_dinode (l : list Z) (off : nat) (d : dinode) : list Z :=
  let l := put16 l off (d_type d) in
  let l := put16 l (off + 2) (d_major d) in
  let l := put16 l (off + 4) (d_minor d) in
  let l := put16 l (off + 6) (d_nlink d) in
  let l := put32 l (off + 8) (d_size d) in
  put_addrs l (off + 12) (d_addrs d).

(** The offset of inode [inum] in its block. *)
Definition dinode_off (inum : Z) : nat := Z.to_nat (inum mod IPB * sizeof_dinode).

Record dirent := Dirent { de_inum : Z; de_name : list Z }.
Definition get_dirent (l : list Z) : dirent := Dirent (get16 l 0) (take 14 (drop 2 l)).
Definition put_dirent (d : dirent) : list Z := le_bytes 2 (de_inum d) ++ de_name d.

(** ** Buffers *)

Definition getd (bp : Z) : KM block := let! x := in_bc (getb bp) in ret (b_data x).
Definition updd (bp : Z) (f : block -> block) : KM unit :=
  in_bc (updb bp (fun x => set_data (f (b_data x)) x)).
Definition getsb {A} (f : superblock -> A) : KM A := gets (fun s => f (sb s)).

Definition readsb (dev : Z) : KM unit :=
  let! bp := in_bc (bread dev 1) in
  let! d := getd bp in
  modify (set_sb (superblock_of d)) ;;;
  in_bc (brelse bp).

Definition fsinit (dev : Z) : KM unit :=
  readsb dev ;;;
  let! x := gets sb in
  if negb (sb_magic x =? FSMAGIC) then panic "invalid file system" else
  in_lo (initlog dev x).

Definition bzero (dev bno : Z) : KM unit :=
  let! bp := in_bc (bread dev bno) in
  updd bp (fun _ => replicate (Z.to_nat BSIZE) 0) ;;;
  in_lo (log_write bp) ;;;
  in_bc (brelse bp).

(** ** Blocks *)

(** The byte [l[i]], and [l[i] = v]. *)
Definition byte_at (l : list Z) (i : Z) : Z := default 0 (l !! Z.to_nat i).
Definition set_byte (l : list Z) (i v : Z) : list Z := <[Z.to_nat i := u8 v]> l.

(** [data[bi / 8] & (1 << (bi % 8))] *)
Definition bit_set (d : block) (bi : Z) : bool :=
  negb (Z.land (byte_at d (bi / 8)) (Z.shiftl 1 (bi mod 8)) =? 0).

Definition balloc (dev : Z) : KM Z :=
  let! size := getsb sb_size in
  loop 0 (fun b =>
    if u32 b <? size then
      let! block := getsb (BBLOCK b) in
      let! bp := in_bc (bread dev block) in
      let! r := for_each (seqZ 0 BPB) (fun bi =>
        if u32 (b + bi) <? size then
          let! d := getd bp in
          if negb (bit_set d bi) then
            updd bp (fun d => set_byte d (bi / 8)
              (Z.lor (byte_at d (bi / 8)) (Z.shiftl 1 (bi mod 8)))) ;;;
            in_lo (log_write bp) ;;;
            in_bc (brelse bp) ;;;
            bzero dev (u32 (b + bi)) ;;;
            ret (Some (Some (u32 (b + bi))))
          else ret None
        else ret (Some None)) in
      match r with
      | Some (Some a) => ret (inr a)
      | _ => in_bc (brelse bp) ;;; ret (inl (s32 (b + BPB)))
      end
    else panic "balloc: out of blocks").

Definition bfree (dev b : Z) : KM unit :=
  let! block := getsb (BBLOCK b) in
  let! bp := in_bc (bread dev block) in
  let bi := b mod BPB in
  let! d := getd bp in
  if negb (bit_set d bi) then panic "freeing free block" else
  updd bp (fun d => set_byte d (bi / 8)
    (Z.land (byte_at d (bi / 8)) (Z.lnot (Z.shiftl 1 (bi mod 8))))) ;;;
  in_lo (log_write bp) ;;;
  in_bc (brelse bp).

(** ** Inodes *)

Definition iinit : KM unit :=
  modify (set_icache_lock false) ;;;
  for_all (seqZ 0 NINODE) (fun i => initsleeplock (inode_lock i)).

Definition iget (dev inum : Z) : KM Z :=
  spin_acquire icache_lk ;;;
  let! r := loop (0, NULL) (fun '(ip, empty) =>
    if ip <? NINODE then
      let! x := iget_at ip in
      if (0 <? i_ref x) && (i_dev x =? dev) && (i_inum x =? inum) then
        ret (inr (inl ip))
      else ret (inl (ip + 1, if (empty =? NULL) && (i_ref x =? 0) then ip else empty))
    else ret (inr (inr empty))) in
  match r with
  | inl ip =>
      iupd ip (fun x => set_i_ref (s32 (i_ref x + 1)) x) ;;;
      spin_release icache_lk ;;;
      ret ip
  | inr empty =>
      if empty =? NULL then panic "iget: no inodes" else
      iupd empty (set_i_dev dev) ;;;
      iupd empty (set_i_inum inum) ;;;
      iupd empty (set_i_ref 1) ;;;
      iupd empty (set_i_valid false) ;;;
      spin_release icache_lk ;;;
      ret empty
  end.

Definition ialloc (dev type : Z) : KM Z :=
  let! ninodes := getsb sb_ninodes in
  let! r := for_each (seqZ 1 (ninodes - 1)) (fun inum =>
    let! block := getsb (IBLOCK inum) in
    let! bp := in_bc (bread dev block) in
    let! d := getd bp in
    if d_type (get_dinode d (dinode_off inum)) =? 0 then
      updd bp (fun d => splice d (dinode_off inum) (replicate 64 0)) ;;;
      updd bp (fun d => put16 d (dinode_off inum) type) ;;;
      when (negb (type =? T_DEVICE))
        (updd bp (fun d => put16 d (dinode_off inum + 4) (Z.lor M_READ M_WRITE))) ;;;
      in_lo (log_write bp) ;;;
      in_bc (brelse bp) ;;;
      let! ip := iget dev inum in
      ret (Some ip)
    else
      in_bc (brelse bp) ;;;
      ret None) in
  match r with
  | Some ip => ret ip
  | None => panic "ialloc: no inodes"
  end.

Definition dinode_of (x : inode) : dinode :=
  Dinode (i_type x) (i_major x) (i_minor x) (i_nlink x) (i_size x) (i_addrs x).

Definition iupdate (ip : Z) : KM unit :=
  let! x := iget_at ip in
  let! block := getsb (IBLOCK (i_inum x)) in
  let! bp := in_bc (bread (i_dev x) block) in
  updd bp (fun d => put_dinode d (dinode_off (i_inum x)) (dinode_of x)) ;;;
  in_lo (log_write bp) ;;;
  in_bc (brelse bp).

Definition idup (ip : Z) : KM Z :=
  spin_acquire icache_lk ;;;
  iupd ip (fun x => set_i_ref (s32 (i_ref x + 1)) x) ;;;
  spin_release icache_lk ;;;
  ret ip.

Definition load_dinode (d : dinode) (x : inode) : inode :=
  Inode (i_dev x) (i_inum x) (i_ref x) (i_lock x) (i_valid x)
    (d_type d) (d_major d) (d_minor d) (d_nlink d) (d_size d) (d_addrs d).

Definition ilock (ip : Z) : KM unit :=
  if ip =? NULL then panic "ilock" else
  let! x := iget_at ip in
  if i_ref x <? 1 then panic "ilock" else
  acquiresleep (inode_lock ip) ;;;
  let! x := iget_at ip in
  when (negb (i_valid x))
    (let! block := getsb (IBLOCK (i_inum x)) in
     let! bp := in_bc (bread (i_dev x) block) in
     let! d := getd bp in
     iupd ip (load_dinode (get_dinode d (dinode_off (i_inum x)))) ;;;
     in_bc (brelse bp) ;;;
     iupd ip (set_i_valid true) ;;;
     let! x := iget_at ip in
     if i_type x =? 0 then panic "ilock: no type" else ret tt).

Definition iunlock (ip : Z) : KM unit :=
  if ip =? NULL then panic "iunlock" else
  let! h := holdingsleep (inode_lock ip) in
  let! x := iget_at ip in
  if negb h || (i_ref x <? 1) then panic "iunlock" else
  releasesleep (inode_lock ip) (inode_chan ip).

(** ** Inode content *)

Definition addr_of (x : inode) (i : Z) : Z := default 0 (i_addrs x !! Z.to_nat i).
Definition set_addr (i a : Z) (x : inode) : inode :=
  set_i_addrs (<[Z.to_nat i := a]> (i_addrs x)) x.
(** The [i]-th of the block's [uint]s. *)
Definition uint_at (d : block) (i : Z) : Z := get32 d (4 * Z.to_nat i)%nat.

Definition bmap (ip bn : Z) : KM Z :=
  let! x := iget_at ip in
  if bn <? NDIRECT then
    if addr_of x bn =? 0 then
      let! addr := balloc (i_dev x) in
      if addr =? 0 then panic "bmap: balloc failed" else
      iupd ip (set_addr bn addr) ;;;
      ret addr
    else ret (addr_of x bn)
  else
    let bn := bn - NDIRECT in
    if bn <? NINDIRECT then
      let! addr :=
        (if addr_of x NDIRECT =? 0 then
           let! addr := balloc (i_dev x) in
           if addr =? 0 then panic "bmap: balloc failed for indirect block" else
           iupd ip (set_addr NDIRECT addr) ;;;
           ret addr
         else ret (addr_of x NDIRECT)) in
      let! bp := in_bc (bread (i_dev x) addr) in
      let! d := getd bp in
      let! target_addr :=
        (if uint_at d bn =? 0 then
           let! target_addr := balloc (i_dev x) in
           if target_addr =? 0 then panic "bmap: balloc failed for data block via indirect" else
           updd bp (fun d => put32 d (4 * Z.to_nat bn)%nat target_addr) ;;;
           in_lo (log_write bp) ;;;
           ret target_addr
         else ret (uint_at d bn)) in
      in_bc (brelse bp) ;;;
      ret target_addr
    else
      printf (str "bmap: ERROR! file_bn %d is out of range for inode %d" ++ [NEWLINE])
        [AInt (u32 (bn + NDIRECT)); AInt (i_inum x)] ;;;
      panic "bmap: out of range".

Definition itrunc (ip : Z) : KM unit :=
  for_all (seqZ 0 NDIRECT) (fun i =>
    let! x := iget_at ip in
    when (negb (addr_of x i =? 0))
      (bfree (i_dev x) (addr_of x i) ;;;
       iupd ip (set_addr i 0))) ;;;
  let! x := iget_at ip in
  when (negb (addr_of x NDIRECT =? 0))
    (let! bp := in_bc (bread (i_dev x) (addr_of x NDIRECT)) in
     for_all (seqZ 0 NINDIRECT) (fun j =>
       let! a := getd bp in
       when (negb (uint_at a j =? 0)) (bfree (i_dev x) (uint_at a j))) ;;;
     in_bc (brelse bp) ;;;
     bfree (i_dev x) (addr_of x NDIRECT) ;;;
     iupd ip (set_addr NDIRECT 0)) ;;;
  iupd ip (set_i_size 0) ;;;
  iupdate ip.

Definition iput (ip : Z) : KM unit :=
  spin_acquire icache_lk ;;;
  let! x := iget_at ip in
  when ((i_ref x =? 1) && i_valid x && (i_nlink x =? 0))
    (acquiresleep (inode_lock ip) ;;;
     spin_release icache_lk ;;;
     itrunc ip ;;;
     iupd ip (set_i_type 0) ;;;
     iupdate ip ;;;
     iupd ip (set_i_valid false) ;;;
     releasesleep (inode_lock ip) (inode_chan ip) ;;;
     spin_acquire icache_lk) ;;;
  iupd ip (fun x => set_i_ref (s32 (i_ref x - 1)) x) ;;;
  spin_release icache_lk.

Definition iunlockput (ip : Z) : KM unit := iunlock ip ;;; iput ip.

Record stat := Stat {
  st_dev : Z; st_ino : Z; st_type : Z; st_nlink : Z; st_size : Z; st_mode : Z
}.
Definition stati (ip : Z) : KM stat :=
  let! x := iget_at ip in
  ret (Stat (s32 (i_dev x)) (i_inum x) (i_type x) (i_nlink x) (i_size x) (inode_get_mode x)).

(** The result, and the bytes written to a kernel destination. *)
Definition readi (ip : Z) (dst : kdst) (off n : Z) : KM (Z * list Z) :=
  let! x := iget_at ip in
  if (i_size x <? off) || (u32 (off + n) <? off) then ret (0, []) else
  let n := if i_size x <? u32 (off + n) then u32 (i_size x - off) else n in
  loop (0, off, dst, []) (fun '(tot, off, dst, out) =>
    if tot <? n then
      let! addr := bmap ip (off / BSIZE) in
      let! bp := in_bc (bread (i_dev x) addr) in
      let m := Z.min (u32 (n - tot)) (BSIZE - off mod BSIZE) in
      let! d := getd bp in
      let! '(r, bytes) := either_copyout dst (take (Z.to_nat m) (drop (Z.to_nat (off mod BSIZE)) d)) m in
      in_bc (brelse bp) ;;;
      if r =? -1 then ret (inr (s32 tot, out))
      else ret (inl (u32 (tot + m), u32 (off + m), kdst_add dst m, out ++ bytes))
    else ret (inr (s32 tot, out))).

(** The size is recorded as far as the loop came, but the result is [n] also
    when the copy from the source failed. *)
Definition writei (ip : Z) (src : ksrc) (off n : Z) : KM Z :=
  let! x := iget_at ip in
  if (i_size x <? off) || (u32 (off + n) <? off) then ret (-1) else
  if MAXFILE * BSIZE <? u32 (off + n) then ret (-1) else
  let! off := loop (0, off, src) (fun '(tot, off, src) =>
    if tot <? n then
      let! disk_lbn := bmap ip (off / BSIZE) in
      let! x := iget_at ip in
      let! bp := in_bc (bread (i_dev x) disk_lbn) in
      let m := Z.min (u32 (n - tot)) (BSIZE - off mod BSIZE) in
      let! '(r, bytes) := either_copyin src m in
      updd bp (fun d => splice d (Z.to_nat (off mod BSIZE)) bytes) ;;;
      if r =? -1 then
        in_bc (brelse bp) ;;;
        ret (inr off)
      else
        in_lo (log_write bp) ;;;
        in_bc (brelse bp) ;;;
        ret (inl (u32 (tot + m), u32 (off + m), ksrc_add src m))
    else ret (inr off)) in
  when (0 <? n)
    (let! x := iget_at ip in
     when (i_size x <? off) (iupd ip (set_i_size off)) ;;;
     iupdate ip) ;;;
  ret (s32 n).

(** ** Directories *)

Definition namecmp (s t : list Z) : Z := l_strncmp (Z.to_nat DIRSIZ) s t.

(** The inode, or [NULL], and the offset of the entry. *)
Definition dirlookup (dp : Z) (name : list Z) : KM (Z * Z) :=
  let! x := iget_at dp in
  if negb (i_type x =? T_DIR) then panic "dirlookup not DIR" else
  loop 0 (fun off =>
    let! x := iget_at dp in
    if off <? i_size x then
      let! '(r, l) := readi dp ToKernel off sizeof_dirent in
      if negb (r =? sizeof_dirent) then panic "dirlookup read" else
      let de := get_dirent l in
      if de_inum de =? 0 then ret (inl (u32 (off + sizeof_dirent))) else
      if namecmp name (de_name de) =? 0 then
        let! ip := iget (i_dev x) (de_inum de) in
        ret (inr (ip, off))
      else ret (inl (u32 (off + sizeof_dirent)))
    else ret (inr (NULL, 0))).

Definition dirlink (dp : Z) (name : list Z) (inum : Z) : KM Z :=
  let! '(ip, _) := dirlookup dp name in
  if negb (ip =? NULL) then iput ip ;;; ret (-1) else
  let! off := loop 0 (fun off =>
    let! x := iget_at dp in
    if u32 off <? i_size x then
      let! '(r, l) := readi dp ToKernel (u32 off) sizeof_dirent in
      if negb (r =? sizeof_dirent) then panic "dirlink read" else
      if de_inum (get_dirent l) =? 0 then ret (inr off)
      else ret (inl (s32 (off + sizeof_dirent)))
    else ret (inr off)) in
  let de := Dirent (u16 inum) (l_strncpy (Z.to_nat DIRSIZ) name) in
  let! r := writei dp (FromKernel (put_dirent de)) (u32 off) sizeof_dirent in
  if negb (r =? sizeof_dirent) then panic "dirlink" else
  ret 0.

(** ** Paths *)

Definition SLASH : Z := 47.

Fixpoint skip_slashes (path : list Z) : list Z :=
  match path with
  | c :: path' => if c =? SLASH then skip_slashes path' else path
  | [] => []
  end.
Fixpoint path_elem (path : list Z) : list Z * list Z :=
  match path with
  | c :: path' =>
      if c =? SLASH then ([], path)
      else let '(s, rest) := path_elem path' in (c :: s, rest)
  | [] => ([], [])
  end.

(** The rest of the path and the new contents of [name]. *)
Definition skipelem (path name : list Z) : option (list Z * list Z) :=
  match skip_slashes path with
  | [] => None
  | path =>
      let '(s, path) := path_elem path in
      let len := Z.of_nat (length s) in
      let name :=
        if DIRSIZ <=? len then splice name 0 (take (Z.to_nat DIRSIZ) s)
        else splice name 0 (s ++ [0]) in
      Some (skip_slashes path, name)
  end.

(** A symbolic link before the last element is resolved by a recursive call
    on its target followed by the rest of the path; [depth] bounds the calls,
    which nothing in the code does. *)
Fixpoint namex (depth : nat) (path : list Z) (nameiparent : bool) (name : list Z) :
    KM (Z * list Z) :=
  match depth with
  | O => fun _ => Fuel
  | S depth' =>
    let! ip :=
      match path with
      | c :: _ => if c =? SLASH then iget ROOTDEV ROOTINO
                  else let! p := myproc in let! x := proc_at p in idup (p_cwd x)
      | [] => let! p := myproc in let! x := proc_at p in idup (p_cwd x)
      end in
    loop (ip, path, name) (fun '(ip, path, name) =>
      match skipelem path name with
      | None =>
          if nameiparent then iput ip ;;; ret (inr (NULL, name)) else ret (inr (ip, name))
      | Some (path, name) =>
          ilock ip ;;;
          let! x := iget_at ip in
          if negb (i_type x =? T_DIR) then iunlockput ip ;;; ret (inr (NULL, name)) else
          if negb (i_type x =? T_DEVICE) && (Z.land (inode_get_mode x) M_READ =? 0) then
            iunlockput ip ;;; ret (inr (NULL, name))
          else
          let last := match path with [] => true | _ => false end in
          if nameiparent && last then iunlock ip ;;; ret (inr (ip, name)) else
          let! '(next, _) := dirlookup ip name in
          if next =? NULL then iunlockput ip ;;; ret (inr (NULL, name)) else
          iunlockput ip ;;;
          ilock next ;;;
          let! x := iget_at next in
          if (i_type x =? T_SYMLINK) && negb last then
            let! '(r, target) := readi next ToKernel 0 (i_size x) in
            if MAXPATH <? Z.of_nat (length target) then panic "fault" else
            if negb (u32 r =? i_size x) then iunlockput next ;;; ret (inr (NULL, name)) else
            if MAXPATH <=? i_size x then panic "fault" else
            let target := c_str target in
            iunlock next ;;;
            iput next ;;;
            let! ip :=
              match target with
              | c :: _ => if c =? SLASH then iget ROOTDEV ROOTINO
                          else let! p := myproc in let! x := proc_at p in idup (p_cwd x)
              | [] => let! p := myproc in let! x := proc_at p in idup (p_cwd x)
              end in
            let newpath := l_safestrcpy (Z.to_nat MAXPATH) target in
            let len := Z.of_nat (length newpath) in
            if MAXPATH <? len + 1 + Z.of_nat (length path) + 1 then
              iput ip ;;; ret (inr (NULL, name))
            else
            let newpath := newpath ++ SLASH ::
              l_safestrcpy (Z.to_nat (MAXPATH - len - 1)) path in
            let! '(result, name) := namex depth' newpath nameiparent name in
            iput ip ;;;
            ret (inr (result, name))
          else
            iunlock next ;;;
            ret (inl (next, path, name))
      end)
  end.

(** The array [name] of the caller before the call: its contents do not
    matter. *)
Definition no_name : list Z := replicate (Z.to_nat DIRSIZ) 0.

Definition namei (depth : nat) (path : list Z) : KM Z :=
  let! '(ip, _) := namex depth path false no_name in ret ip.
Definition nameiparent (depth : nat) (path : list Z) : KM (Z * list Z) :=
  namex depth path true no_name.
