(* ===== verification/File.v ===== *)
(** Pipes and open files: FileSystem-RAID/kernel/pipe.c and file.c. *)
From S2P Require Import Prelude Bytes Locks Kalloc Vm Bio Log Kernel Console Fs.

(** What the compiler leaves in memory the code does not initialise: the
    padding of a [struct stat] on the stack. *)
Class Compiler := { stat_pad1 : list Z; stat_pad2 : list Z }.

Definition PIPESIZE : Z := 512.
Definition CONSOLE : Z := 1.

(** ** pipe.c *)

(** The addresses of the fields [nread] and [nwrite]. *)
Definition nread_chan (pi : Z) : Z := pi + 536.
Definition nwrite_chan (pi : Z) : Z := pi + 540.

(** ** file.c: the table *)

Definition fileinit : KM unit := modify (set_ftable_lock false).

Definition filealloc : KM Z :=
  spin_acquire ftable_lk ;;;
  let! r := for_each (seqZ 0 NFILE) (fun f =>
    let! x := file_at f in
    if f_ref x =? 0 then
      fupd f (set_f_ref 1) ;;;
      spin_release ftable_lk ;;;
      ret (Some f)
    else ret None) in
  match r with
  | Some f => ret f
  | None => spin_release ftable_lk ;;; ret NULL
  end.

Definition filedup (f : Z) : KM Z :=
  spin_acquire ftable_lk ;;;
  let! x := file_at f in
  if f_ref x <? 1 then panic "filedup" else
  fupd f (set_f_ref (s32 (f_ref x + 1))) ;;;
  spin_release ftable_lk ;;;
  ret f.

Definition pipeclose (pi : Z) (writable : bool) : KM unit :=
  spin_acquire (pipe_lk pi) ;;;
  (if writable then
     piupd pi (set_pi_writeopen false) ;;; wakeup (nread_chan pi)
   else
     piupd pi (set_pi_readopen false) ;;; wakeup (nwrite_chan pi)) ;;;
  let! x := pipe_at pi in
  if negb (pi_readopen x) && negb (pi_writeopen x) then
    spin_release (pipe_lk pi) ;;;
    modify (fun s => set_pipes (delete pi (pipes s)) s) ;;;
    in_mem (kfree pi)
  else spin_release (pipe_lk pi).

Definition fileclose (f : Z) : KM unit :=
  spin_acquire ftable_lk ;;;
  let! x := file_at f in
  if f_ref x <? 1 then panic "fileclose" else
  fupd f (set_f_ref (f_ref x - 1)) ;;;
  if 0 <? f_ref x - 1 then spin_release ftable_lk else
  let! ff := file_at f in
  fupd f (set_f_ref 0) ;;;
  fupd f (set_f_type FD_NONE) ;;;
  spin_release ftable_lk ;;;
  match f_type ff with
  | FD_PIPE => pipeclose (f_pipe ff) (f_writable ff)
  | FD_INODE | FD_DEVICE =>
      in_lo begin_op ;;;
      iput (f_ip ff) ;;;
      in_lo end_op
  | FD_NONE => ret tt
  end.

(** ** pipe.c: the operations *)

(** [pipealloc(&f0, &f1)]: the result, [f0] and [f1]. *)
Definition pipealloc : KM (Z * Z * Z) :=
  let bad (f0 f1 : Z) : KM (Z * Z * Z) :=
    when (negb (f0 =? NULL)) (fileclose f0) ;;;
    when (negb (f1 =? NULL)) (fileclose f1) ;;;
    ret (-1, f0, f1) in
  let! f0 := filealloc in
  if f0 =? NULL then bad f0 NULL else
  let! f1 := filealloc in
  if f1 =? NULL then bad f0 f1 else
  let! pi := in_mem kalloc in
  if pi =? 0 then bad f0 f1 else
  modify (fun s => set_pipes (<[pi := Pipe false (replicate (Z.to_nat PIPESIZE) 5) 0 0 true true]>
    (pipes s)) s) ;;;
  fupd f0 (set_f_type FD_PIPE) ;;;
  fupd f0 (set_f_readable true) ;;;
  fupd f0 (set_f_writable false) ;;;
  fupd f0 (set_f_pipe pi) ;;;
  fupd f1 (set_f_type FD_PIPE) ;;;
  fupd f1 (set_f_readable false) ;;;
  fupd f1 (set_f_writable true) ;;;
  fupd f1 (set_f_pipe pi) ;;;
  ret (0, f0, f1).

Definition my_killed : KM bool :=
  let! p := myproc in let! x := proc_at p in ret (p_killed x).

(** [pi->data[pi->nwrite++ % PIPESIZE] = ch] *)
Definition pipe_put (ch : Z) (x : pipe) : pipe :=
  set_pi_nwrite (u32 (pi_nwrite x + 1))
    (set_pi_data (<[Z.to_nat (pi_nwrite x mod PIPESIZE) := ch]> (pi_data x)) x).
(** [ch = pi->data[pi->nread++ % PIPESIZE]] *)
Definition pipe_get (x : pipe) : Z * pipe :=
  (default 0 (pi_data x !! Z.to_nat (pi_nread x mod PIPESIZE)),
   set_pi_nread (u32 (pi_nread x + 1)) x).
Definition pipe_full (x : pipe) : bool := pi_nwrite x =? u32 (pi_nread x + PIPESIZE).
Definition pipe_empty (x : pipe) : bool := pi_nread x =? pi_nwrite x.

(** The loop from iteration [i] on, with the lock held: from the start, or when
    [sleep] returns. *)
Definition pipewrite_loop (pi addr n i : Z) : KM Z :=
  let! pt := my_pagetable in
  let! r := for_each (seqZ i (n - i)) (fun i =>
    let! x := pipe_at pi in
    let! killed := my_killed in
    if pipe_full x then
      if negb (pi_readopen x) || killed then
        spin_release (pipe_lk pi) ;;; ret (Some (inl (-1)))
      else
        wakeup (nread_chan pi) ;;;
        sleep (nwrite_chan pi) (Some (pipe_lk pi))
    else
      let! '(r, ch) := in_mem (copyin pt (u64 (addr + i)) 1) in
      if r =? -1 then ret (Some (inr i)) else
      piupd pi (pipe_put (hd 0 ch)) ;;;
      ret None) in
  match r with
  | Some (inl r) => ret r
  | _ =>
      wakeup (nread_chan pi) ;;;
      spin_release (pipe_lk pi) ;;;
      ret (match r with Some (inr i) => i | _ => Z.max n i end)
  end.

Definition pipewrite (pi addr n : Z) : KM Z :=
  spin_acquire (pipe_lk pi) ;;;
  pipewrite_loop pi addr n 0.

(** From the test for an empty pipe on, with the lock held: the start, and where
    [sleep] returns to. *)
Definition piperead_loop (pi addr n : Z) : KM Z :=
  let! pt := my_pagetable in
  let! x := pipe_at pi in
  let! killed := my_killed in
  if pipe_empty x && pi_writeopen x then
    if killed then spin_release (pipe_lk pi) ;;; ret (-1)
    else sleep (nread_chan pi) (Some (pipe_lk pi))
  else
    let! r := for_each (seqZ 0 n) (fun i =>
      let! x := pipe_at pi in
      if pipe_empty x then ret (Some i) else
      let ch := (pipe_get x).1 in
      piupd pi (fun x => (pipe_get x).2) ;;;
      let! r := in_mem (copyout pt (u64 (addr + i)) [ch] 1) in
      if r =? -1 then ret (Some i) else ret None) in
    wakeup (nwrite_chan pi) ;;;
    spin_release (pipe_lk pi) ;;;
    ret (default (Z.max n 0) r).

Definition piperead (pi addr n : Z) : KM Z :=
  spin_acquire (pipe_lk pi) ;;;
  piperead_loop pi addr n.

(** ** file.c: reading and writing *)

Section file.
Context `{Compiler}.

(** [struct stat] in memory. *)
Definition stat_bytes (st : stat) : list Z :=
  le_bytes 4 (st_dev st) ++ le_bytes 4 (st_ino st) ++ le_bytes 2 (st_type st) ++
  le_bytes 2 (st_nlink st) ++ stat_pad1 ++ le_bytes 8 (st_size st) ++
  le_bytes 2 (st_mode st) ++ stat_pad2.

Definition filestat (f addr : Z) : KM Z :=
  let! pt := my_pagetable in
  let! x := file_at f in
  match f_type x with
  | FD_INODE | FD_DEVICE =>
      ilock (f_ip x) ;;;
      let! st := stati (f_ip x) in
      iunlock (f_ip x) ;;;
      let! r := in_mem (copyout pt addr (stat_bytes st) 32) in
      ret (if r <? 0 then -1 else 0)
  | _ => ret (-1)
  end.
End file.

(** [devsw]: [consoleinit] is the only code that fills it. *)
Definition devsw_read (major : Z) : option (kdst -> Z -> KM (Z * list Z)) :=
  if major =? CONSOLE then Some consoleread else None.
Definition devsw_write (major : Z) : option (ksrc -> Z -> KM Z) :=
  if major =? CONSOLE then Some consolewrite else None.

Definition fileread (f addr n : Z) : KM Z :=
  let! x := file_at f in
  if negb (f_readable x) then ret (-1) else
  match f_type x with
  | FD_PIPE => piperead (f_pipe x) addr n
  | FD_DEVICE =>
      if (f_major x <? 0) || (NDEV <=? f_major x) then ret (-1) else
      match devsw_read (f_major x) with
      | None => ret (-1)
      | Some read => let! '(r, _) := read (ToUser addr) n in ret r
      end
  | FD_INODE =>
      ilock (f_ip x) ;;;
      let! '(r, _) := readi (f_ip x) (ToUser addr) (f_off x) (u32 n) in
      when (0 <? r) (fupd f (fun x => set_f_off (u32 (f_off x + r)) x)) ;;;
      iunlock (f_ip x) ;;;
      ret r
  | FD_NONE => panic "fileread"
  end.

Definition filewrite (f addr n : Z) : KM Z :=
  let! x := file_at f in
  if negb (f_writable x) then ret (-1) else
  match f_type x with
  | FD_PIPE => pipewrite (f_pipe x) addr n
  | FD_DEVICE =>
      if (f_major x <? 0) || (NDEV <=? f_major x) then ret (-1) else
      match devsw_write (f_major x) with
      | None => ret (-1)
      | Some write => write (FromUser addr) n
      end
  | FD_INODE =>
      let max := (MAXOPBLOCKS - 1 - 1 - 2) / 2 * BSIZE in
      let! i := loop 0 (fun i =>
        if i <? n then
          let n1 := Z.min (n - i) max in
          in_lo begin_op ;;;
          ilock (f_ip x) ;;;
          let! y := file_at f in
          let! r := writei (f_ip x) (FromUser (u64 (addr + i))) (f_off y) (u32 n1) in
          when (0 <? r) (fupd f (fun x => set_f_off (u32 (f_off x + r)) x)) ;;;
          iunlock (f_ip x) ;;;
          in_lo end_op ;;;
          if r <? 0 then ret (inr i) else
          if negb (r =? n1) then panic "short filewrite" else
          ret (inl (i + r))
        else ret (inr i)) in
      ret (if i =? n then n else -1)
  | FD_NONE => panic "filewrite"
  end.
