(* ===== verification/Proc.v ===== *)
(** Processes, FileSystem-RAID/kernel/proc.c.

    A system call runs until it returns or switches to the scheduler
    ([Sleep], with the state at the switch); [switch_back] and
    [scheduler_visit] are the steps of the scheduler's loop around [swtch]. *)
From S2P Require Import Prelude CString Bytes Locks Kalloc Vm Bio Log Kernel Console Fs File.

(** Addresses of the linked kernel. *)
Class ProcSymbols := { forkret_addr : Z }.

(** Offsets in [struct trapframe]. *)
Definition tf_epc : Z := 24.
Definition tf_sp : Z := 48.
Definition tf_a0 : Z := 112.
Definition tf_a1 : Z := 120.
Definition tf_a7 : Z := 168.

Section proc.
Context `{Linker} `{ProcSymbols}.

Definition procinit : KM unit :=
  modify (set_pid_lock false) ;;;
  for_all (seqZ 0 NPROC) (fun p =>
    pupd p (set_p_lock false) ;;;
    let! pa := in_mem kalloc in
    if pa =? 0 then panic "kalloc" else
    let va := KSTACK p in
    in_mem (kvmmap va pa PGSIZE (Z.lor PTE_R PTE_W)) ;;;
    pupd p (set_p_kstack va)).

Definition allocpid : KM Z :=
  spin_acquire pid_lk ;;;
  let! pid := gets nextpid in
  modify (set_nextpid (s32 (pid + 1))) ;;;
  spin_release pid_lk ;;;
  ret pid.

Definition proc_pagetable (p : Z) : KM Z :=
  let! pagetable := in_mem uvmcreate in
  if pagetable =? 0 then ret 0 else
  let! r := in_mem (mappages pagetable TRAMPOLINE PGSIZE trampoline (Z.lor PTE_R PTE_X)) in
  if r <? 0 then in_mem (uvmfree pagetable 0) ;;; ret 0 else
  let! x := proc_at p in
  let! r := in_mem (mappages pagetable TRAPFRAME PGSIZE (p_trapframe x) (Z.lor PTE_R PTE_W)) in
  if r <? 0 then
    in_mem (uvmunmap pagetable TRAMPOLINE 1 false) ;;;
    in_mem (uvmfree pagetable 0) ;;;
    ret 0
  else ret pagetable.

Definition proc_freepagetable (pagetable sz : Z) : KM unit :=
  in_mem (uvmunmap pagetable TRAMPOLINE 1 false) ;;;
  in_mem (uvmunmap pagetable TRAPFRAME 1 false) ;;;
  in_mem (uvmfree pagetable sz).

Definition freeproc (p : Z) : KM unit :=
  let! x := proc_at p in
  when (negb (p_trapframe x =? 0)) (in_mem (kfree (p_trapframe x))) ;;;
  pupd p (set_p_trapframe 0) ;;;
  when (negb (p_pagetable x =? 0)) (proc_freepagetable (p_pagetable x) (p_sz x)) ;;;
  pupd p (set_p_pagetable 0) ;;;
  pupd p (set_p_sz 0) ;;;
  pupd p (set_p_pid 0) ;;;
  pupd p (set_p_parent NULL) ;;;
  pupd p (set_p_name []) ;;;
  pupd p (set_p_chan 0) ;;;
  pupd p (set_p_killed false) ;;;
  pupd p (set_p_xstate 0) ;;;
  pupd p (set_p_state UNUSED).

Definition allocproc : KM Z :=
  let! found := for_each (seqZ 0 NPROC) (fun p =>
    spin_acquire (proc_lk p) ;;;
    let! x := proc_at p in
    match p_state x with
    | UNUSED => ret (Some p)
    | _ => spin_release (proc_lk p) ;;; ret None
    end) in
  match found with
  | None => ret NULL
  | Some p =>
      let! pid := allocpid in
      pupd p (set_p_pid pid) ;;;
      let! tf := in_mem kalloc in
      pupd p (set_p_trapframe tf) ;;;
      if tf =? 0 then spin_release (proc_lk p) ;;; ret NULL else
      let! pagetable := proc_pagetable p in
      pupd p (set_p_pagetable pagetable) ;;;
      if pagetable =? 0 then freeproc p ;;; spin_release (proc_lk p) ;;; ret NULL else
      let! x := proc_at p in
      pupd p (set_p_context (forkret_addr :: u64 (p_kstack x + PGSIZE) :: replicate 12 0)) ;;;
      ret p
  end.

(** The program of the first process. *)
Definition initcode : list Z :=
  [23; 5; 0; 0; 19; 5; 69; 2; 151; 5; 0; 0; 147; 133; 53; 2; 147; 8; 112; 0; 115; 0; 0; 0;
   147; 8; 32; 0; 115; 0; 0; 0; 239; 240; 159; 255; 47; 105; 110; 105; 116; 0; 0; 36; 0; 0; 0;
   0; 0; 0; 0; 0].

Definition userinit (depth : nat) : KM unit :=
  let! p := allocproc in
  modify (set_initproc p) ;;;
  let! x := proc_at p in
  in_mem (uvminit (p_pagetable x) initcode (Z.of_nat (length initcode))) ;;;
  pupd p (set_p_sz PGSIZE) ;;;
  in_mem (store64 (p_trapframe x + tf_epc) 0) ;;;
  in_mem (store64 (p_trapframe x + tf_sp) PGSIZE) ;;;
  pupd p (set_p_name (l_safestrcpy 16 (str "initcode"))) ;;;
  let! cwd := namei depth (str "/") in
  pupd p (set_p_cwd cwd) ;;;
  pupd p (set_p_state RUNNABLE) ;;;
  spin_release (proc_lk p).

(** The local [sz] is a [uint]. *)
Definition growproc (n : Z) : KM Z :=
  let! p := myproc in
  let! x := proc_at p in
  let sz := u32 (p_sz x) in
  if 0 <? n then
    let! sz := in_mem (uvmalloc (p_pagetable x) sz (u32 (sz + n))) in
    if u32 sz =? 0 then ret (-1)
    else pupd p (set_p_sz (u32 sz)) ;;; ret 0
  else if n <? 0 then
    let! sz := in_mem (uvmdealloc (p_pagetable x) sz (u32 (sz + n))) in
    pupd p (set_p_sz (u32 sz)) ;;; ret 0
  else pupd p (set_p_sz sz) ;;; ret 0.

Definition fork : KM Z :=
  let! p := myproc in
  let! np := allocproc in
  if np =? NULL then ret (-1) else
  let! x := proc_at p in
  let! y := proc_at np in
  let! r := in_mem (uvmcopy (p_pagetable x) (p_pagetable y) (p_sz x)) in
  if r <? 0 then freeproc np ;;; spin_release (proc_lk np) ;;; ret (-1) else
  pupd np (set_p_sz (p_sz x)) ;;;
  pupd np (set_p_parent p) ;;;
  in_mem (copy_words 36 (p_trapframe y) (p_trapframe x)) ;;;
  in_mem (store64 (p_trapframe y + tf_a0) 0) ;;;
  for_all (seqZ 0 NOFILE) (fun i =>
    let f := default NULL (p_ofile x !! Z.to_nat i) in
    when (negb (f =? NULL))
      (let! f := filedup f in
       pupd np (fun y => set_p_ofile (<[Z.to_nat i := f]> (p_ofile y)) y))) ;;;
  let! cwd := idup (p_cwd x) in
  pupd np (set_p_cwd cwd) ;;;
  pupd np (set_p_name (l_safestrcpy 16 (p_name x))) ;;;
  let! y := proc_at np in
  let pid := p_pid y in
  pupd np (set_p_state RUNNABLE) ;;;
  spin_release (proc_lk np) ;;;
  ret pid.

Definition reparent (p : Z) : KM unit :=
  for_all (seqZ 0 NPROC) (fun pp =>
    let! x := proc_at pp in
    when (p_parent x =? p)
      (spin_acquire (proc_lk pp) ;;;
       let! init := gets initproc in
       pupd pp (set_p_parent init) ;;;
       spin_release (proc_lk pp))).

(** [p->chan == p]: the channel of [wait]. *)
Definition wakeup1 (p : Z) : KM unit :=
  let! x := proc_at p in
  if negb (p_lock x) then panic "wakeup1" else pupd p (wake (proc_chan p)).

Definition exit {A} (status : Z) : KM A :=
  let! p := myproc in
  let! init := gets initproc in
  if p =? init then panic "init exiting" else
  for_all (seqZ 0 NOFILE) (fun fd =>
    let! x := proc_at p in
    let f := default NULL (p_ofile x !! Z.to_nat fd) in
    when (negb (f =? NULL))
      (fileclose f ;;;
       pupd p (fun x => set_p_ofile (<[Z.to_nat fd := NULL]> (p_ofile x)) x))) ;;;
  in_lo begin_op ;;;
  let! x := proc_at p in
  iput (p_cwd x) ;;;
  in_lo end_op ;;;
  pupd p (set_p_cwd NULL) ;;;
  spin_acquire (proc_lk init) ;;;
  wakeup1 init ;;;
  spin_release (proc_lk init) ;;;
  spin_acquire (proc_lk p) ;;;
  let! x := proc_at p in
  let original_parent := p_parent x in
  spin_release (proc_lk p) ;;;
  spin_acquire (proc_lk original_parent) ;;;
  spin_acquire (proc_lk p) ;;;
  reparent p ;;;
  wakeup1 original_parent ;;;
  pupd p (set_p_xstate status) ;;;
  pupd p (set_p_state ZOMBIE) ;;;
  spin_release (proc_lk original_parent) ;;;
  sched.

(** A step of the scan of the table, which ends with the result of the system
    call, or with [havekids]. *)
Definition wait_visit (p addr : Z) : Z * bool -> KM (Z * bool + (Z + bool)) := fun '(np, havekids) =>
  if np <? NPROC then
    let! y := proc_at np in
    if p_parent y =? p then
      spin_acquire (proc_lk np) ;;;
      match p_state y with
      | ZOMBIE =>
          let pid := p_pid y in
          let! x := proc_at p in
          let! r := (if addr =? 0 then ret 0
                     else in_mem (copyout (p_pagetable x) addr (le_bytes 4 (p_xstate y)) 4)) in
          if r <? 0 then
            spin_release (proc_lk np) ;;;
            spin_release (proc_lk p) ;;;
            ret (inr (inl (-1)))
          else
            freeproc np ;;;
            spin_release (proc_lk np) ;;;
            spin_release (proc_lk p) ;;;
            ret (inr (inl pid))
      | _ => spin_release (proc_lk np) ;;; ret (inl (np + 1, true))
      end
    else ret (inl (np + 1, havekids))
  else ret (inr (inr havekids)).

Definition wait (addr : Z) : KM Z :=
  let! p := myproc in
  spin_acquire (proc_lk p) ;;;
  let! r := loop (0, false) (wait_visit p addr) in
  match r with
  | inl r => ret r
  | inr havekids =>
      let! x := proc_at p in
      if negb havekids || p_killed x then spin_release (proc_lk p) ;;; ret (-1)
      else sleep (proc_chan p) None
  end.

Definition yield {A} : KM A :=
  let! p := myproc in
  spin_acquire (proc_lk p) ;;;
  pupd p (set_p_state RUNNABLE) ;;;
  sched.

Definition forkret (first : bool) : KM unit :=
  let! p := myproc in
  spin_release (proc_lk p) ;;;
  when first (fsinit ROOTDEV).

Definition kill (pid : Z) : KM Z :=
  let! r := for_each (seqZ 0 NPROC) (fun p =>
    spin_acquire (proc_lk p) ;;;
    let! x := proc_at p in
    if p_pid x =? pid then
      pupd p (set_p_killed true) ;;;
      match p_state x with
      | SLEEPING => pupd p (set_p_state RUNNABLE)
      | _ => ret tt
      end ;;;
      spin_release (proc_lk p) ;;;
      ret (Some 0)
    else spin_release (proc_lk p) ;;; ret None) in
  ret (default (-1) r).

(** ** The scheduler *)

Definition set_current (p : Z) : KM unit :=
  let! pid := (if p =? NULL then ret 0 else let! x := proc_at p in ret (p_pid x)) in
  modify (set_cur p) ;;;
  in_bc (modify (set_cur_pid pid)).

(** The loop body up to [swtch], which happens when the result is [true]. *)
Definition scheduler_visit (p : Z) : KM bool :=
  spin_acquire (proc_lk p) ;;;
  let! x := proc_at p in
  match p_state x with
  | RUNNABLE =>
      pupd p (set_p_state RUNNING) ;;;
      set_current p ;;;
      ret true
  | _ => spin_release (proc_lk p) ;;; ret false
  end.

(** The loop body after [swtch] returns. *)
Definition switch_back : KM unit :=
  let! p := myproc in
  set_current NULL ;;;
  spin_release (proc_lk p).

(** The rest of [sleep] when the process runs again. *)
Definition sleep_return_steps (p : Z) (lk : option (lens kstate bool)) : list (KM unit) :=
  pupd p (set_p_chan 0) ::
  match lk with
  | Some l => [spin_release (proc_lk p); spin_acquire l]
  | None => []
  end.
Definition sleep_return (lk : option (lens kstate bool)) : KM unit :=
  let! p := myproc in
  run_steps (sleep_return_steps p lk).
End proc.
