(* ===== verification/Exec.v ===== *)
(** System call arguments, FileSystem-RAID/kernel/syscall.c, and exec.c. *)
From S2P Require Import Prelude CString Bytes Locks Kalloc Vm Bio Log Kernel Console Fs File Proc.

Definition MAXARG : Z := 32.
Definition ELF_MAGIC : Z := 1179403647.
Definition ELF_PROG_LOAD : Z := 1.

(** ** syscall.c: arguments *)

(** The result and the word fetched. *)
Definition fetchaddr (addr : Z) : KM (Z * Z) :=
  let! p := myproc in
  let! x := proc_at p in
  if (p_sz x <=? addr) || (p_sz x <? u64 (addr + 8)) then ret (-1, 0) else
  let! '(r, l) := in_mem (copyin (p_pagetable x) addr 8) in
  if negb (r =? 0) then ret (-1, 0) else ret (0, get_le 8 l 0).

(** The length or an error, and the string fetched. *)
Definition fetchstr (addr max : Z) : KM (Z * list Z) :=
  let! p := myproc in
  let! x := proc_at p in
  let! '(err, buf) := in_mem (copyinstr (p_pagetable x) addr max) in
  if err <? 0 then ret (err, buf) else ret (l_strlen buf, c_str buf).

Definition argraw (n : Z) : KM Z :=
  let! p := myproc in
  let! x := proc_at p in
  if (0 <=? n) && (n <=? 5) then in_mem (load64 (p_trapframe x + tf_a0 + 8 * n))
  else panic "argraw".

Definition argint (n : Z) : KM Z := let! w := argraw n in ret (s32 w).
Definition argaddr (n : Z) : KM Z := argraw n.
Definition argstr (n max : Z) : KM (Z * list Z) :=
  let! addr := argaddr n in fetchstr addr max.

(** ** exec.c *)

Section exec.
Context `{Linker}.

Record elfhdr := Elfhdr { elf_magic : Z; elf_entry : Z; elf_phoff : Z; elf_phnum : Z }.
Definition sizeof_elfhdr : Z := 64.
Definition elfhdr_of (l : list Z) : elfhdr :=
  Elfhdr (get32 l 0) (get_le 8 l 24) (get_le 8 l 32) (get16 l 56).

Record proghdr := Proghdr {
  ph_type : Z; ph_flags : Z; ph_off : Z; ph_vaddr : Z; ph_paddr : Z; ph_filesz : Z;
  ph_memsz : Z; ph_align : Z
}.
Definition sizeof_proghdr : Z := 56.
Definition proghdr_of (l : list Z) : proghdr :=
  Proghdr (get32 l 0) (get32 l 4) (get_le 8 l 8) (get_le 8 l 16) (get_le 8 l 24) (get_le 8 l 32)
    (get_le 8 l 40) (get_le 8 l 48).

(** [readi] into the page at [pa]. *)
Definition readi_page (ip pa off n : Z) : KM Z :=
  let! '(r, bytes) := readi ip ToKernel off n in
  in_mem (write_bytes pa bytes) ;;;
  ret r.

Definition loadseg (pagetable va ip offset sz : Z) : KM Z :=
  if negb (va mod PGSIZE =? 0) then panic "loadseg: va must be page aligned" else
  loop 0 (fun i =>
    if i <? sz then
      let! pa := in_mem (walkaddr pagetable (u64 (va + i))) in
      if pa =? 0 then panic "loadseg: address should exist" else
      let n := if u32 (sz - i) <? PGSIZE then u32 (sz - i) else PGSIZE in
      let! r := readi_page ip pa (u32 (offset + i)) n in
      if negb (u32 r =? n) then ret (inr (-1)) else ret (inl (u32 (i + PGSIZE)))
    else ret (inr 0)).

(** The exits of [exec] through the label [bad]. *)
Definition exec_bad (pagetable sz ip : Z) : KM Z :=
  when (negb (pagetable =? 0)) (proc_freepagetable pagetable sz) ;;;
  when (negb (ip =? NULL)) (iunlockput ip ;;; in_lo end_op) ;;;
  ret (-1).

(** The segments: [inl sz] when one could not be loaded, with the size of
    the memory then. *)
Definition exec_load (pagetable ip : Z) (elf : elfhdr) : KM (Z + Z) :=
  loop (0, s32 (elf_phoff elf), 0) (fun '(i, off, sz) =>
    if i <? elf_phnum elf then
      let! '(r, l) := readi ip ToKernel (u32 off) sizeof_proghdr in
      if negb (r =? sizeof_proghdr) then ret (inr (inl sz)) else
      let ph := proghdr_of l in
      let next sz := inl (i + 1, s32 (off + sizeof_proghdr), sz) in
      if negb (ph_type ph =? ELF_PROG_LOAD) then ret (next sz) else
      if ph_memsz ph <? ph_filesz ph then ret (inr (inl sz)) else
      if u64 (ph_vaddr ph + ph_memsz ph) <? ph_vaddr ph then ret (inr (inl sz)) else
      let! sz1 := in_mem (uvmalloc pagetable sz (u64 (ph_vaddr ph + ph_memsz ph))) in
      if sz1 =? 0 then ret (inr (inl sz)) else
      if negb (ph_vaddr ph mod PGSIZE =? 0) then ret (inr (inl sz1)) else
      let! r := loadseg pagetable (ph_vaddr ph) ip (u32 (ph_off ph)) (u32 (ph_filesz ph)) in
      if r <? 0 then ret (inr (inl sz1)) else ret (next sz1)
    else ret (inr (inr sz))).

(** The argument strings: the stack pointer and the addresses pushed. *)
Definition exec_push (pagetable stackbase sp : Z) (argv : list (list Z)) :
    KM (option (Z * list Z)) :=
  loop (argv, sp, []) (fun '(argv, sp, ustack) =>
    match argv with
    | [] => ret (inr (Some (sp, ustack)))
    | arg :: argv' =>
        if MAXARG <=? Z.of_nat (length ustack) then ret (inr None) else
        let sp := u64 (sp - (Z.of_nat (length arg) + 1)) in
        let sp := sp - sp mod 16 in
        if sp <? stackbase then ret (inr None) else
        let! r := in_mem (copyout pagetable sp (arg ++ [0]) (Z.of_nat (length arg) + 1)) in
        if r <? 0 then ret (inr None) else ret (inl (argv', sp, ustack ++ [sp]))
    end).

(** The part of the path after its last slash. *)
Definition last_elem (path : list Z) : list Z :=
  (fix go (last s : list Z) := match s with
   | [] => last
   | c :: s' => if c =? SLASH then go s' s' else go last s'
   end) path path.

Definition exec (depth : nat) (path : list Z) (argv : list (list Z)) : KM Z :=
  let! p := myproc in
  in_lo begin_op ;;;
  let! ip := namei depth path in
  if ip =? NULL then in_lo end_op ;;; ret (-1) else
  ilock ip ;;;
  let! '(r, l) := readi ip ToKernel 0 sizeof_elfhdr in
  if negb (r =? sizeof_elfhdr) then exec_bad 0 0 ip else
  let elf := elfhdr_of l in
  if negb (elf_magic elf =? ELF_MAGIC) then exec_bad 0 0 ip else
  let! pagetable := proc_pagetable p in
  if pagetable =? 0 then exec_bad 0 0 ip else
  let! loaded := exec_load pagetable ip elf in
  match loaded with
  | inl sz => exec_bad pagetable sz ip
  | inr sz =>
      iunlockput ip ;;;
      in_lo end_op ;;;
      let! x := proc_at p in
      let oldsz := p_sz x in
      let sz := PGROUNDUP sz in
      let! sz1 := in_mem (uvmalloc pagetable sz (u64 (sz + 2 * PGSIZE))) in
      if sz1 =? 0 then exec_bad pagetable sz NULL else
      let sz := sz1 in
      in_mem (uvmclear pagetable (sz - 2 * PGSIZE)) ;;;
      let stackbase := sz - PGSIZE in
      let! pushed := exec_push pagetable stackbase sz argv in
      match pushed with
      | None => exec_bad pagetable sz NULL
      | Some (sp, ustack) =>
          let argc := Z.of_nat (length ustack) in
          let sp := u64 (sp - (argc + 1) * 8) in
          let sp := sp - sp mod 16 in
          if sp <? stackbase then exec_bad pagetable sz NULL else
          let! r := in_mem (copyout pagetable sp (concat (le_bytes 8 <$> ustack ++ [0]))
            ((argc + 1) * 8)) in
          if r <? 0 then exec_bad pagetable sz NULL else
          let! x := proc_at p in
          in_mem (store64 (p_trapframe x + tf_a1) sp) ;;;
          pupd p (set_p_name (l_safestrcpy 16 (last_elem path))) ;;;
          let oldpagetable := p_pagetable x in
          pupd p (set_p_pagetable pagetable) ;;;
          pupd p (set_p_sz sz) ;;;
          in_mem (store64 (p_trapframe x + tf_epc) (elf_entry elf)) ;;;
          in_mem (store64 (p_trapframe x + tf_sp) sp) ;;;
          proc_freepagetable oldpagetable oldsz ;;;
          ret argc
      end
  end.
End exec.
