(* ===== verification/Sysfile.v ===== *)
(** System calls: FileSystem-RAID/kernel/sysfile.c, sysproc.c, and the dispatch
    of syscall.c.

    Results are the [uint64] that [syscall] stores in [a0], as a signed
    number.  [depth] bounds the recursion of path lookup (see [Fs.namex]). *)
From S2P Require Import Prelude CString Bytes Locks Kalloc Vm Bio Log Kernel Console Fs File Proc Exec.

Definition O_RDONLY : Z := 0.
Definition O_WRONLY : Z := 1.
Definition O_RDWR : Z := 2.
Definition O_CREATE : Z := 512.
Definition O_TRUNC : Z := 1024.
Definition O_NOACCESS : Z := 4.
Definition MAX_SYMLINK_DEPTH : Z := 10.

(** [omode & f], as a condition. *)
Definition has (omode f : Z) : bool := negb (Z.land omode f =? 0).

Section sysfile.
Context `{Linker} `{Compiler} (depth : nat).

(** The result, the descriptor and the file. *)
Definition argfd (n : Z) : KM (Z * Z * Z) :=
  let! fd := argint n in
  if (fd <? 0) || (NOFILE <=? fd) then ret (-1, fd, NULL) else
  let! p := myproc in
  let! x := proc_at p in
  let f := default NULL (p_ofile x !! Z.to_nat fd) in
  if f =? NULL then ret (-1, fd, NULL) else ret (0, fd, f).

(** [p->ofile[fd] = f] of the current process. *)
Definition set_ofile (fd f : Z) : KM unit :=
  let! p := myproc in
  pupd p (fun x => set_p_ofile (<[Z.to_nat fd := f]> (p_ofile x)) x).

Definition fdalloc (f : Z) : KM Z :=
  let! p := myproc in
  let! r := for_each (seqZ 0 NOFILE) (fun fd =>
    let! x := proc_at p in
    if default NULL (p_ofile x !! Z.to_nat fd) =? NULL then
      set_ofile fd f ;;; ret (Some fd)
    else ret None) in
  ret (default (-1) r).

Definition sys_dup : KM Z :=
  let! '(r, _, f) := argfd 0 in
  if r <? 0 then ret (-1) else
  let! fd := fdalloc f in
  if fd <? 0 then ret (-1) else
  filedup f ;;; ret fd.

Definition sys_read : KM Z :=
  let! '(r, _, f) := argfd 0 in
  if r <? 0 then ret (-1) else
  let! n := argint 2 in
  let! p := argaddr 1 in
  fileread f p n.

Definition sys_write : KM Z :=
  let! '(r, _, f) := argfd 0 in
  if r <? 0 then ret (-1) else
  let! n := argint 2 in
  let! p := argaddr 1 in
  filewrite f p n.

Definition sys_close : KM Z :=
  let! '(r, fd, f) := argfd 0 in
  if r <? 0 then ret (-1) else
  set_ofile fd NULL ;;;
  fileclose f ;;;
  ret 0.

Definition sys_fstat : KM Z :=
  let! '(r, _, f) := argfd 0 in
  if r <? 0 then ret (-1) else
  let! st := argaddr 1 in
  filestat f st.

Definition sys_link : KM Z :=
  let! '(r, old) := argstr 0 MAXPATH in
  if r <? 0 then ret (-1) else
  let! '(r, new) := argstr 1 MAXPATH in
  if r <? 0 then ret (-1) else
  in_lo begin_op ;;;
  let! ip := namei depth old in
  if ip =? NULL then in_lo end_op ;;; ret (-1) else
  ilock ip ;;;
  let! x := iget_at ip in
  if i_type x =? T_DIR then iunlockput ip ;;; in_lo end_op ;;; ret (-1) else
  iupd ip (set_i_nlink (s16 (i_nlink x + 1))) ;;;
  iupdate ip ;;;
  iunlock ip ;;;
  let bad :=
    (ilock ip ;;;
     iupd ip (fun x => set_i_nlink (s16 (i_nlink x - 1)) x) ;;;
     iupdate ip ;;;
     iunlockput ip ;;;
     in_lo end_op ;;;
     ret (-1)) in
  let! '(dp, name) := nameiparent depth new in
  if dp =? NULL then bad else
  ilock dp ;;;
  let! d := iget_at dp in
  let! x := iget_at ip in
  let! r := (if negb (i_dev d =? i_dev x) then ret (-1) else dirlink dp name (i_inum x)) in
  if r <? 0 then iunlockput dp ;;; bad else
  iunlockput dp ;;;
  iput ip ;;;
  in_lo end_op ;;;
  ret 0.

Definition isdirempty (dp : Z) : KM bool :=
  loop (2 * sizeof_dirent) (fun off =>
    let! x := iget_at dp in
    if u32 off <? i_size x then
      let! '(r, l) := readi dp ToKernel (u32 off) sizeof_dirent in
      if negb (r =? sizeof_dirent) then panic "isdirempty: readi" else
      if negb (de_inum (get_dirent l) =? 0) then ret (inr false)
      else ret (inl (s32 (off + sizeof_dirent)))
    else ret (inr true)).

Definition sys_unlink : KM Z :=
  let! '(r, path) := argstr 0 MAXPATH in
  if r <? 0 then ret (-1) else
  in_lo begin_op ;;;
  let! '(dp, name) := nameiparent depth path in
  if dp =? NULL then in_lo end_op ;;; ret (-1) else
  ilock dp ;;;
  let bad := (iunlockput dp ;;; in_lo end_op ;;; ret (-1)) in
  if (namecmp name (str ".") =? 0) || (namecmp name (str "..") =? 0) then bad else
  let! '(ip, off) := dirlookup dp name in
  if ip =? NULL then bad else
  ilock ip ;;;
  let! x := iget_at ip in
  if i_nlink x <? 1 then panic "unlink: nlink < 1" else
  let! empty := (if i_type x =? T_DIR then isdirempty ip else ret true) in
  if negb empty then iunlockput ip ;;; bad else
  let! r := writei dp (FromKernel (replicate 16 0)) off sizeof_dirent in
  if negb (r =? sizeof_dirent) then panic "unlink: writei" else
  when (i_type x =? T_DIR)
    (iupd dp (fun d => set_i_nlink (s16 (i_nlink d - 1)) d) ;;;
     iupdate dp) ;;;
  iunlockput dp ;;;
  iupd ip (fun x => set_i_nlink (s16 (i_nlink x - 1)) x) ;;;
  iupdate ip ;;;
  iunlockput ip ;;;
  in_lo end_op ;;;
  ret 0.

Definition create (path : list Z) (type major minor : Z) : KM Z :=
  let! '(dp, name) := nameiparent depth path in
  if dp =? NULL then ret NULL else
  ilock dp ;;;
  let! '(ip, _) := dirlookup dp name in
  if negb (ip =? NULL) then
    iunlockput dp ;;;
    ilock ip ;;;
    let! x := iget_at ip in
    if (type =? T_FILE) && ((i_type x =? T_FILE) || (i_type x =? T_DEVICE)) then ret ip else
    iunlockput ip ;;;
    ret NULL
  else
  let! d := iget_at dp in
  let! ip := ialloc (i_dev d) type in
  ilock ip ;;;
  iupd ip (set_i_major (s16 major)) ;;;
  when (type =? T_DEVICE) (iupd ip (set_i_minor (s16 minor))) ;;;
  iupd ip (set_i_nlink 1) ;;;
  when (negb (type =? T_DEVICE)) (iupd ip (set_i_minor (Z.lor M_READ M_WRITE))) ;;;
  iupdate ip ;;;
  let! x := iget_at ip in
  when (type =? T_DIR)
    (iupd dp (fun d => set_i_nlink (s16 (i_nlink d + 1)) d) ;;;
     iupdate dp ;;;
     let! r := dirlink ip (str ".") (i_inum x) in
     if r <? 0 then panic "create dots" else
     let! r := dirlink ip (str "..") (i_inum d) in
     if r <? 0 then panic "create dots" else ret tt) ;;;
  let! r := dirlink dp name (i_inum x) in
  if r <? 0 then panic "create: dirlink" else
  iunlockput dp ;;;
  ret ip.

(** The loop that follows a chain of symbolic links from the locked inode [ip]:
    the locked inode it ends with and the number of links followed, or [None]
    when one cannot be followed ([ip] is then released). *)
Definition follow_links (ip : Z) (stop : bool) : KM (option (Z * Z)) :=
  loop (ip, 0) (fun '(ip, symlink_depth) =>
    let! x := iget_at ip in
    if (i_type x =? T_SYMLINK) && negb stop && (symlink_depth <? MAX_SYMLINK_DEPTH) then
      let! '(r, target) := readi ip ToKernel 0 (i_size x) in
      if MAXPATH <? Z.of_nat (length target) then panic "fault" else
      if negb (u32 r =? i_size x) then iunlockput ip ;;; ret (inr None) else
      if MAXPATH <=? i_size x then panic "fault" else
      iunlockput ip ;;;
      let! ip := namei depth (c_str target) in
      if ip =? NULL then ret (inr None) else
      ilock ip ;;;
      ret (inl (ip, symlink_depth + 1))
    else ret (inr (Some (ip, symlink_depth)))).

(** The permission check of [sys_open] on the inode [x]. *)
Definition open_permitted (omode : Z) (x : inode) : bool :=
  if negb (has omode O_NOACCESS) && negb (i_type x =? T_DEVICE) then
    let file_mode := inode_get_mode x in
    let need_read := (omode =? O_RDONLY) || (omode =? O_RDWR) in
    let need_write := (omode =? O_WRONLY) || (omode =? O_RDWR) in
    negb (need_read && (Z.land file_mode M_READ =? 0)) &&
    negb (need_write && (Z.land file_mode M_WRITE =? 0))
  else true.

(** The part of [sys_open] that finds the inode, locked. *)
Definition open_inode (path : list Z) (omode : Z) : KM (option Z) :=
  if has omode O_CREATE then
    let! ip := create path T_FILE 0 0 in
    if ip =? NULL then ret None else ret (Some ip)
  else
    let! ip := namei depth path in
    if ip =? NULL then ret None else
    ilock ip ;;;
    let! r := follow_links ip (has omode O_NOACCESS) in
    match r with
    | None => ret None
    | Some (ip, symlink_depth) =>
        if MAX_SYMLINK_DEPTH <=? symlink_depth then iunlockput ip ;;; ret None else
        let! x := iget_at ip in
        if negb (open_permitted omode x) then iunlockput ip ;;; ret None else
        if (i_type x =? T_DIR) && negb (omode =? O_RDONLY) && negb (has omode O_NOACCESS) then
          iunlockput ip ;;; ret None
        else ret (Some ip)
    end.

(** The fields of the new file. *)
Definition open_file (ip omode : Z) (x : inode) (f : file) : file :=
  let f := if i_type x =? T_DEVICE then set_f_major (i_major x) (set_f_type FD_DEVICE f)
           else set_f_off 0 (set_f_type FD_INODE f) in
  let f := set_f_ip ip f in
  if has omode O_NOACCESS then set_f_writable false (set_f_readable false f)
  else set_f_writable (has omode O_WRONLY || has omode O_RDWR)
         (set_f_readable (negb (has omode O_WRONLY)) f).

Definition sys_open : KM Z :=
  let! '(n, path) := argstr 0 MAXPATH in
  if n <? 0 then ret (-1) else
  let! omode := argint 1 in
  in_lo begin_op ;;;
  let! r := open_inode path omode in
  match r with
  | None => in_lo end_op ;;; ret (-1)
  | Some ip =>
      let! x := iget_at ip in
      let fail := (iunlockput ip ;;; in_lo end_op ;;; ret (-1)) in
      if (i_type x =? T_DEVICE) && ((i_major x <? 0) || (NDEV <=? i_major x)) then fail else
      let! f := filealloc in
      if f =? NULL then fail else
      let! fd := fdalloc f in
      if fd <? 0 then fileclose f ;;; fail else
      fupd f (open_file ip omode x) ;;;
      when (has omode O_TRUNC && (i_type x =? T_FILE)) (itrunc ip) ;;;
      iunlock ip ;;;
      in_lo end_op ;;;
      ret fd
  end.

Definition sys_mkdir : KM Z :=
  in_lo begin_op ;;;
  let! '(r, path) := argstr 0 MAXPATH in
  if r <? 0 then in_lo end_op ;;; ret (-1) else
  let! ip := create path T_DIR 0 0 in
  if ip =? NULL then in_lo end_op ;;; ret (-1) else
  iunlockput ip ;;;
  in_lo end_op ;;;
  ret 0.

Definition sys_mknod : KM Z :=
  in_lo begin_op ;;;
  let! '(r, path) := argstr 0 MAXPATH in
  if r <? 0 then in_lo end_op ;;; ret (-1) else
  let! major := argint 1 in
  let! minor := argint 2 in
  let! ip := create path T_DEVICE major minor in
  if ip =? NULL then in_lo end_op ;;; ret (-1) else
  iunlockput ip ;;;
  in_lo end_op ;;;
  ret 0.

Definition sys_chdir : KM Z :=
  let! p := myproc in
  in_lo begin_op ;;;
  let! '(r, path) := argstr 0 MAXPATH in
  if r <? 0 then in_lo end_op ;;; ret (-1) else
  let! ip := namei depth path in
  if ip =? NULL then in_lo end_op ;;; ret (-1) else
  ilock ip ;;;
  let! x := iget_at ip in
  if negb (i_type x =? T_DIR) then iunlockput ip ;;; in_lo end_op ;;; ret (-1) else
  iunlock ip ;;;
  let! y := proc_at p in
  iput (p_cwd y) ;;;
  in_lo end_op ;;;
  pupd p (set_p_cwd ip) ;;;
  ret 0.

(** The strings of [argv] are fetched into pages: the result, those pages and
    the strings. *)
Definition fetch_argv (uargv : Z) : KM (Z * list Z * list (list Z)) :=
  loop (0, [], []) (fun '(i, pages, argv) =>
    if MAXARG <=? i then ret (inr (-1, pages, argv)) else
    let! '(r, uarg) := fetchaddr (u64 (uargv + 8 * i)) in
    if r <? 0 then ret (inr (-1, pages, argv)) else
    if uarg =? 0 then ret (inr (0, pages, argv)) else
    let! page := in_mem kalloc in
    if page =? 0 then ret (inr (-1, pages, argv)) else
    let! '(r, arg) := fetchstr uarg PGSIZE in
    if r <? 0 then ret (inr (-1, pages ++ [page], argv)) else
    in_mem (write_bytes page (arg ++ [0])) ;;;
    ret (inl (i + 1, pages ++ [page], argv ++ [arg]))).

Definition free_pages (pages : list Z) : KM unit :=
  for_all pages (fun page => in_mem (kfree page)).

Definition sys_exec `{ProcSymbols} : KM Z :=
  let! '(r, path) := argstr 0 MAXPATH in
  if r <? 0 then ret (-1) else
  let! uargv := argaddr 1 in
  let! '(r, pages, argv) := fetch_argv uargv in
  if r <? 0 then free_pages pages ;;; ret (-1) else
  let! r := exec depth path argv in
  free_pages pages ;;;
  ret r.

Definition sys_pipe : KM Z :=
  let! fdarray := argaddr 0 in
  let! '(r, rf, wf) := pipealloc in
  if r <? 0 then ret (-1) else
  let! pt := my_pagetable in
  let close := (fileclose rf ;;; fileclose wf ;;; ret (-1)) in
  let! fd0 := fdalloc rf in
  if fd0 <? 0 then close else
  let! fd1 := fdalloc wf in
  if fd1 <? 0 then set_ofile fd0 NULL ;;; close else
  let! r := in_mem (copyout pt fdarray (le_bytes 4 fd0) 4) in
  let! r := (if r <? 0 then ret r
             else in_mem (copyout pt (u64 (fdarray + 4)) (le_bytes 4 fd1) 4)) in
  if r <? 0 then set_ofile fd0 NULL ;;; set_ofile fd1 NULL ;;; close else
  ret 0.

Definition sys_chmod : KM Z :=
  let! '(r, path) := argstr 0 MAXPATH in
  if r <? 0 then ret (-1) else
  let! mode := argint 1 in
  in_lo begin_op ;;;
  let! ip := namei depth path in
  if ip =? NULL then in_lo end_op ;;; ret (-1) else
  ilock ip ;;;
  let! r := follow_links ip false in
  match r with
  | None => in_lo end_op ;;; ret (-1)
  | Some (ip, symlink_depth) =>
      if MAX_SYMLINK_DEPTH <=? symlink_depth then iunlockput ip ;;; in_lo end_op ;;; ret (-1) else
      iupd ip (fun x => if i_type x =? T_DEVICE then x
                        else set_i_minor (Z.land mode (Z.lor M_READ M_WRITE)) x) ;;;
      iupdate ip ;;;
      iunlockput ip ;;;
      in_lo end_op ;;;
      ret 0
  end.

Definition sys_symlink : KM Z :=
  let! '(r, target) := argstr 0 MAXPATH in
  if r <? 0 then ret (-1) else
  let! '(r, path) := argstr 1 MAXPATH in
  if r <? 0 then ret (-1) else
  in_lo begin_op ;;;
  let! ip := namei depth path in
  if negb (ip =? NULL) then iput ip ;;; in_lo end_op ;;; ret (-1) else
  let! '(dp, name) := nameiparent depth path in
  if dp =? NULL then in_lo end_op ;;; ret (-1) else
  ilock dp ;;;
  let! d := iget_at dp in
  let! ip := ialloc (i_dev d) T_SYMLINK in
  ilock ip ;;;
  iupd ip (inode_set_mode (Z.lor M_READ M_WRITE)) ;;;
  iupd ip (set_i_nlink 1) ;;;
  let len := Z.of_nat (length target) in
  let! r := writei ip (FromKernel target) 0 len in
  if negb (r =? len) then iunlockput ip ;;; iunlockput dp ;;; in_lo end_op ;;; ret (-1) else
  iupdate ip ;;;
  let! x := iget_at ip in
  let! r := dirlink dp name (i_inum x) in
  if r <? 0 then iunlockput ip ;;; iunlockput dp ;;; in_lo end_op ;;; ret (-1) else
  iunlockput dp ;;;
  iunlockput ip ;;;
  in_lo end_op ;;;
  ret 0.

Definition sys_raw_read : KM Z :=
  let! pbn := argint 0 in
  let! user_buf_addr := argaddr 1 in
  if (pbn <? 0) || (FSSIZE <=? pbn) then ret (-1) else
  let! b := in_bc (bget ROOTDEV pbn) in
  in_bc (virtio_disk_rw b false) ;;;
  let! pt := my_pagetable in
  let! d := getd b in
  let! r := in_mem (copyout pt user_buf_addr d BSIZE) in
  in_bc (brelse b) ;;;
  ret (if r <? 0 then -1 else 0).

Definition sys_get_disk_lbn : KM Z :=
  let! '(r, _, f) := argfd 0 in
  if r <? 0 then ret (-1) else
  let! file_lbn := argint 1 in
  let! x := file_at f in
  if negb (f_readable x) then ret (-1) else
  ilock (f_ip x) ;;;
  let! disk_lbn := bmap (f_ip x) (u32 file_lbn) in
  iunlock (f_ip x) ;;;
  ret disk_lbn.

Definition sys_raw_write : KM Z :=
  let! pbn := argint 0 in
  let! user_buf_addr := argaddr 1 in
  if (pbn <? 0) || (FSSIZE <=? pbn) then ret (-1) else
  let! b := in_bc (bget ROOTDEV pbn) in
  let! pt := my_pagetable in
  let! '(r, bytes) := in_mem (copyin pt user_buf_addr BSIZE) in
  updd b (fun d => splice d 0 bytes) ;;;
  if r <? 0 then in_bc (brelse b) ;;; ret (-1) else
  in_bc (updb b (set_valid true)) ;;;
  in_bc (virtio_disk_rw b true) ;;;
  in_bc (brelse b) ;;;
  ret 0.

(** ** sysproc.c *)

Definition sys_exit : KM Z := let! n := argint 0 in exit n.

Definition sys_getpid : KM Z :=
  let! p := myproc in let! x := proc_at p in ret (p_pid x).

Definition sys_fork `{ProcSymbols} : KM Z := fork.

Definition sys_wait : KM Z := let! p := argaddr 0 in wait p.

Definition sys_sbrk : KM Z :=
  let! n := argint 0 in
  let! p := myproc in
  let! x := proc_at p in
  let addr := s32 (p_sz x) in
  let! r := growproc n in
  if r <? 0 then ret (-1) else ret addr.

(** A wait that is not over switches to the scheduler, and is tested again when
    the process runs again. *)
Definition sys_sleep : KM Z :=
  let! n := argint 0 in
  spin_acquire ticks_lk ;;;
  let! ticks0 := gets ticks in
  let! now := gets ticks in
  if u32 (now - ticks0) <? u32 n then
    let! killed := my_killed in
    if killed then spin_release ticks_lk ;;; ret (-1)
    else sleep TICKS_CHAN (Some ticks_lk)
  else
    spin_release ticks_lk ;;;
    ret 0.

Definition sys_kill : KM Z := let! pid := argint 0 in kill pid.

Definition sys_uptime : KM Z :=
  spin_acquire ticks_lk ;;;
  let! xticks := gets ticks in
  spin_release ticks_lk ;;;
  ret xticks.

Definition sys_force_fail : KM Z :=
  let! pbn := argint 0 in
  if (LOGICAL_DISK_SIZE <=? pbn) || (pbn <? -1) then ret (-1) else
  in_bc (modify (set_read_error pbn)) ;;;
  ret 0.

Definition sys_get_force_fail : KM Z := gets (fun s => force_read_error_pbn (bio (lo s))).

Definition sys_force_disk_fail : KM Z :=
  let! disk_id := argint 0 in
  if (disk_id <? -1) || (1 <? disk_id) then ret (-1) else
  in_bc (modify (set_disk_fail disk_id)) ;;;
  ret 0.

(** ** The dispatch *)

(** The table [syscalls]. *)
Definition syscalls `{ProcSymbols} (num : Z) : option (KM Z) :=
  nth_error
    [sys_fork; sys_exit; sys_wait; sys_pipe; sys_read; sys_kill; sys_exec; sys_fstat; sys_chdir;
     sys_dup; sys_getpid; sys_sbrk; sys_sleep; sys_uptime; sys_open; sys_write; sys_mknod;
     sys_unlink; sys_link; sys_mkdir; sys_close; sys_force_fail; sys_get_force_fail; sys_raw_read;
     sys_get_disk_lbn; sys_raw_write; sys_force_disk_fail; sys_chmod; sys_symlink]
    (Z.to_nat (num - 1)).

Definition syscall `{ProcSymbols} : KM unit :=
  let! p := myproc in
  let! x := proc_at p in
  let! a7 := in_mem (load64 (p_trapframe x + tf_a7)) in
  let num := s32 a7 in
  match (if 0 <? num then syscalls num else None) with
  | Some call =>
      let! r := call in
      let! x := proc_at p in
      in_mem (store64 (p_trapframe x + tf_a0) (u64 r))
  | None =>
      printf (str "%d %s: unknown sys call %d" ++ [NEWLINE])
        [AInt (p_pid x); AStr (p_name x); AInt num] ;;;
      in_mem (store64 (p_trapframe x + tf_a0) (u64 (-1)))
  end.
End sysfile.

(** ** What the permission check of [sys_open] enforces *)

(** C22: For a file that is not a device, opened without [O_NOACCESS]: with exactly
    one of the modes [O_RDONLY], [O_WRONLY] and [O_RDWR], [sys_open] lets a file
    through exactly when every access that the new descriptor then allows is
    permitted by the mode bits.  With any other flag set as well ([O_TRUNC],
    say, or both access bits) it lets every file through, though the descriptor
    allows reading or writing as before. *)
Theorem open_permission_check ip x f omode
    (Hna : has omode O_NOACCESS = false) (Hdev : i_type x <> T_DEVICE) :
  let g := open_file ip omode x f in
  (omode ∈ [O_RDONLY; O_WRONLY; O_RDWR] ->
     (open_permitted omode x = true <->
      (f_readable g = true -> Z.land (i_minor x) M_READ <> 0) /\
      (f_writable g = true -> Z.land (i_minor x) M_WRITE <> 0))) /\
  (omode ∉ [O_RDONLY; O_WRONLY; O_RDWR] -> open_permitted omode x = true /\
     f_readable g = negb (has omode O_WRONLY) /\
     f_writable g = has omode O_WRONLY || has omode O_RDWR).
Proof.
  assert (Hr : forall b, Z.land (i_minor x) b =? 0 = false <-> Z.land (i_minor x) b <> 0)
    by (intros b; apply Z.eqb_neq).
  unfold open_file, open_permitted, inode_get_mode. rewrite Hna.
  rewrite (proj2 (Z.eqb_neq _ _)) by done. cbn [negb andb f_readable f_writable
    set_f_readable set_f_writable]. split.
  - rewrite !elem_of_cons. intros [->|[->|[->|Hin]]]; [..|by apply not_elem_of_nil in Hin];
      unfold has; cbn; rewrite <- !Hr;
      destruct (Z.land (i_minor x) M_READ =? 0), (Z.land (i_minor x) M_WRITE =? 0); simpl; naive_solver.
  - rewrite !not_elem_of_cons. intros (H0 & H1 & H2 & _).
    rewrite (proj2 (Z.eqb_neq omode O_RDONLY)), (proj2 (Z.eqb_neq omode O_WRONLY)),
      (proj2 (Z.eqb_neq omode O_RDWR)) by done. done.
Qed.

(** Writing, and emptying, a file without any permission bit. *)
Definition w_closed_file : inode := Inode ROOTDEV 7 1 no_lock true T_FILE 0 0 1 100 (zeros 13).

Lemma open_permission_check_witness :
  open_permitted (Z.lor O_RDWR O_TRUNC) w_closed_file = true /\
  f_writable (open_file 0 (Z.lor O_RDWR O_TRUNC) w_closed_file bss_file) = true /\
  open_permitted O_RDWR w_closed_file = false.
Proof.
  destruct (open_permission_check 0 w_closed_file bss_file (Z.lor O_RDWR O_TRUNC) eq_refl
    ltac:(discriminate)) as [_ H2].
  destruct H2 as (H & _ & Hw); [rewrite !not_elem_of_cons; split_and!; try discriminate; apply not_elem_of_nil|].
  split; [exact H|]. split; [rewrite Hw; reflexivity|]. reflexivity.
Defined.
