(* ===== verification/Trap.v ===== *)
(** Traps and interrupts, FileSystem-RAID/kernel/trap.c, the interrupt
    controller, plic.c, and the boot sequence, main.c.

    The values of the supervisor's registers are arguments. *)
From S2P Require Import Prelude Locks Kalloc Vm Bio Log Kernel Console Fs File Proc Exec Sysfile.

Definition UART0_IRQ : Z := 10.
Definition VIRTIO0_IRQ : Z := 1.
Definition SSTATUS_SPP : Z := Z.shiftl 1 8.
Definition SSTATUS_SPIE : Z := Z.shiftl 1 5.

Definition PLIC_SENABLE (hart : Z) : Z := PLIC + 8320 + hart * 256.
Definition PLIC_SPRIORITY (hart : Z) : Z := PLIC + 2101248 + hart * 8192.
Definition PLIC_SCLAIM (hart : Z) : Z := PLIC + 2101252 + hart * 8192.

(** Writes to the controller, by address. *)
Definition plicinit : list (Z * Z) :=
  [(PLIC + UART0_IRQ * 4, 1); (PLIC + VIRTIO0_IRQ * 4, 1)].
Definition plicinithart (hart : Z) : list (Z * Z) :=
  [(PLIC_SENABLE hart, Z.lor (Z.shiftl 1 UART0_IRQ) (Z.shiftl 1 VIRTIO0_IRQ));
   (PLIC_SPRIORITY hart, 0)].
Definition plic_complete (hart irq : Z) : list (Z * Z) := [(PLIC_SCLAIM hart, irq)].

Definition clockintr : KM unit :=
  spin_acquire ticks_lk ;;;
  modify (fun s => set_ticks (u32 (ticks s + 1)) s) ;;;
  wakeup TICKS_CHAN ;;;
  spin_release ticks_lk.

(** [irq] is what [plic_claim] returns, [virtio_disk_intr] the handler of
    [Virtio] (on the state of the driver). *)
Section trap.
Context `{Linker} `{Compiler} `{ProcSymbols} (depth : nat).
Variables (virtio_disk_intr : KM unit).

Definition devintr (scause irq cpuid : Z) : KM Z :=
  if negb (Z.land scause (2 ^ 63) =? 0) && (Z.land scause 255 =? 9) then
    (if irq =? UART0_IRQ then uartintr
     else if irq =? VIRTIO0_IRQ then virtio_disk_intr
     else when (negb (irq =? 0))
       (printf (str "unexpected interrupt irq=%d" ++ [NEWLINE]) [AInt irq])) ;;;
    ret 1
  else if scause =? 2 ^ 63 + 1 then
    when (cpuid =? 0) clockintr ;;;
    ret 2
  else ret 0.

(** [usertrap] up to the call of [usertrapret]. *)
Definition usertrap (sstatus scause sepc stval irq cpuid : Z) : KM unit :=
  if negb (Z.land sstatus SSTATUS_SPP =? 0) then panic "usertrap: not from user mode" else
  let! p := myproc in
  let! x := proc_at p in
  in_mem (store64 (p_trapframe x + tf_epc) sepc) ;;;
  let! which_dev :=
    (if scause =? 8 then
       (if p_killed x then exit (-1) else ret tt) ;;;
       let! epc := in_mem (load64 (p_trapframe x + tf_epc)) in
       in_mem (store64 (p_trapframe x + tf_epc) (u64 (epc + 4))) ;;;
       syscall depth ;;;
       ret 0
     else
       let! which_dev := devintr scause irq cpuid in
       when (which_dev =? 0)
         (printf (str "usertrap(): unexpected scause %p pid=%d" ++ [NEWLINE])
            [AWord scause; AInt (p_pid x)] ;;;
          printf (str "            sepc=%p stval=%p" ++ [NEWLINE]) [AWord sepc; AWord stval] ;;;
          pupd p (set_p_killed true)) ;;;
       ret which_dev) in
  let! x := proc_at p in
  if p_killed x then exit (-1) else
  if which_dev =? 2 then yield else ret tt.

(** The words that [usertrapret] stores in the trapframe, and the [sstatus]
    with which it returns to user mode. *)
Definition usertrapret (satp usertrap_addr hartid sstatus : Z) : KM Z :=
  let! p := myproc in
  let! x := proc_at p in
  let tf := p_trapframe x in
  in_mem (store64 tf satp) ;;;
  in_mem (store64 (tf + 8) (u64 (p_kstack x + PGSIZE))) ;;;
  in_mem (store64 (tf + 16) usertrap_addr) ;;;
  in_mem (store64 (tf + 32) hartid) ;;;
  ret (Z.lor (Z.land sstatus (Z.lnot SSTATUS_SPP)) SSTATUS_SPIE).

(** [kerneltrap] up to the restoration of the trap registers. *)
Definition kerneltrap (sstatus scause sepc stval irq cpuid : Z) (intr_get : bool) : KM unit :=
  if Z.land sstatus SSTATUS_SPP =? 0 then panic "kerneltrap: not from supervisor mode" else
  if intr_get then panic "kerneltrap: interrupts enabled" else
  let! which_dev := devintr scause irq cpuid in
  if which_dev =? 0 then
    printf (str "scause %p" ++ [NEWLINE]) [AWord scause] ;;;
    printf (str "sepc=%p stval=%p" ++ [NEWLINE]) [AWord sepc; AWord stval] ;;;
    panic "kerneltrap"
  else
    let! p := myproc in
    if (which_dev =? 2) && negb (p =? NULL) then
      let! x := proc_at p in
      match p_state x with RUNNING => yield | _ => ret tt end
    else ret tt.
End trap.

(** ** Boot, main.c *)

Definition trapinit : KM unit := modify (set_tickslock false).

(** What the first CPU runs before the scheduler; the interrupt controller,
    the page table register and the disk driver have no state here. *)
Definition main `{Linker} `{ProcSymbols} (depth : nat) : KM unit :=
  consoleinit ;;;
  printfinit ;;;
  printf [NEWLINE] [] ;;;
  printf (str "xv6 kernel is booting" ++ [NEWLINE]) [] ;;;
  printf [NEWLINE] [] ;;;
  in_mem kinit ;;;
  in_mem kvminit ;;;
  procinit ;;;
  trapinit ;;;
  in_bc binit ;;;
  iinit ;;;
  fileinit ;;;
  userinit depth.
