(* ===== verification/Txn.v ===== *)
(** A file-system operation inside a transaction: the contract of the buffer
    cache ([Bio.BlockCache]) together with [log_write], as fs.c uses them.

    [txn bl H ds V s]: the open transaction has logged the blocks [bl], the
    operation holds the buffers [H] (by block number), has changed the blocks
    [ds] without logging them yet, and the current contents of the blocks are
    [V].  A block that is neither logged nor being changed is as on the disk. *)
From S2P Require Import Prelude Bytes Locks Kalloc Vm Bio Log Kernel Fs.

(** A logical block. *)
Definition is_block (b : Z) : Prop := 0 <= b < LOGICAL_DISK_SIZE.

(** The reference count of a block: one for the log and one for a holder. *)
Definition txn_ref (bl : list Z) (H : gmap Z Z) (b : Z) : option Z :=
  if decide (b ∈ bl) then Some (match H !! b with Some _ => 2 | None => 1 end)
  else match H !! b with Some _ => Some 1 | None => None end.

Record txn (bl : list Z) (H : gmap Z Z) (ds : gset Z) (V : Z -> option block) (s : lstate) :
    Prop := {
  tn_cache : exists refs, (forall b, refs !! b = txn_ref bl H b) /\ cache_rel refs (dom H) (bio s);
  tn_view : forall b, is_block b -> view (bio s) b = V b;
  tn_handle : forall b i, H !! b = Some i -> exists d, handle (bio s) i b d;
  tn_clean : forall b, is_block b -> b ∉ bl -> b ∉ ds -> disk_read (bio s) b = V b;
  tn_n : lh_n (lg s) = Z.of_nat (length bl);
  tn_logged : take (length bl) (lh_block (lg s)) = bl;
  tn_blocks : length (lh_block (lg s)) = Z.to_nat LOGSIZE;
  tn_size : log_size (lg s) = LOGSIZE;
  tn_lock : log_lock (lg s) = false;
  tn_open : 1 <= log_outstanding (lg s);
  tn_nodup : NoDup bl;
  tn_range : forall b, b ∈ bl -> is_block b
}.

(** A buffer for one more block can be found. *)
Definition room (bl : list Z) (H : gmap Z Z) : Prop :=
  Z.of_nat (length bl) + Z.of_nat (size H) < NBUF.

Section txn.
Variables (bl : list Z) (H : gmap Z Z) (ds : gset Z) (V : Z -> option block).

Lemma txn_ref_none b : txn_ref bl H b = None <-> b ∉ bl /\ H !! b = None.
Proof. unfold txn_ref. case_decide; destruct (H !! b); naive_solver. Qed.

Lemma txn_ref_nonzero b : txn_ref bl H b <> Some 0.
Proof. unfold txn_ref. case_decide; destruct (H !! b); naive_solver. Qed.

Lemma size_refs (refs : gmap Z Z) :
  (forall b, refs !! b = txn_ref bl H b) -> NoDup bl ->
  Z.of_nat (size refs) <= Z.of_nat (length bl) + Z.of_nat (size H).
Proof.
  intros Hr Hnd. rewrite <- size_dom, <- (size_dom H).
  assert (Hs : dom refs ⊆ list_to_set bl ∪ dom H).
  { intros b [n Hn]%elem_of_dom. rewrite Hr in Hn.
    rewrite elem_of_union, elem_of_list_to_set, elem_of_dom.
    destruct (decide (b ∈ bl)); [by left|right]. destruct (H !! b) eqn:E; [done|].
    by rewrite (proj2 (txn_ref_none b)) in Hn. }
  apply subseteq_size in Hs. rewrite size_union_alt, size_list_to_set in Hs by done.
  pose proof (subseteq_size (dom H ∖ list_to_set bl) (dom H) ltac:(set_solver)). lia.
Qed.

(** A change of the cache that keeps the logged blocks. *)
Lemma txn_cache_step H' ds' V' s b refs' :
  txn bl H ds V s ->
  (forall x, refs' !! x = txn_ref bl H' x) -> cache_rel refs' (dom H') b ->
  (forall x, is_block x -> view b x = V' x) ->
  (forall x i, H' !! x = Some i -> exists d, handle b i x d) ->
  disk_read b = disk_read (bio s) ->
  (forall x, is_block x -> x ∉ bl -> x ∉ ds' -> disk_read (bio s) x = V' x) ->
  txn bl H' ds' V' (set_bio b s).
Proof.
  intros [T1 T2 T3 T4 T5 T6 T7 T8 T9 T10 T11 T12] Hr Hc Hv Hh Hd Hcl.
  constructor; try done; cbn [bio set_bio].
  - by exists refs'.
  - by rewrite Hd.
Qed.

Lemma cache_only_disk s s' : cache_only s s' -> disk_read s' = disk_read s.
Proof. intros (E1 & E2 & E3 & _). unfold disk_read. by rewrite E1, E2, E3. Qed.

(** The disk and the log's own fields are as before: what an operation between
    [begin_op] and [end_op] leaves alone. *)
Definition same_disk (s s' : lstate) : Prop :=
  cache_only (bio s) (bio s') /\ log_start (lg s') = log_start (lg s) /\
  log_dev (lg s') = log_dev (lg s) /\ log_outstanding (lg s') = log_outstanding (lg s) /\
  log_committing (lg s') = log_committing (lg s).

#[export] Instance same_disk_preorder : PreOrder same_disk.
Proof.
  split; [done|].
  intros s1 s2 s3 ((?&?&?&?&?)&?&?&?&?) ((?&?&?&?&?)&?&?&?&?).
  split; [|split_and!; congruence]. split_and!; congruence.
Qed.

Lemma same_disk_bio s b : cache_only (bio s) b -> same_disk s (set_bio b s).
Proof. by split. Qed.

Lemma txn_held s b : txn bl H ds V s -> is_Some (H !! b) -> is_block b.
Proof.
  intros T [i Hi]. destruct (tn_cache _ _ _ _ _ T) as (refs & Hr & Hc).
  destruct (law_held _ _ _ b Hc) as [n Hn]; [by apply elem_of_dom_2 in Hi|].
  by destruct (law_refs _ _ _ _ _ Hc Hn).
Qed.

Lemma txn_holds s b i d :
  txn bl H ds V s -> H !! b = Some i -> V b = Some d -> handle (bio s) i b d.
Proof.
  intros T Hi Hd. destruct (tn_handle _ _ _ _ _ T b i Hi) as [d' Hh].
  destruct (tn_cache _ _ _ _ _ T) as (refs & Hr & Hc).
  pose proof (law_handle _ _ _ _ _ _ Hc Hh) as Hv.
  rewrite (tn_view _ _ _ _ _ T) in Hv by (eapply txn_held; eauto). congruence.
Qed.

Lemma txn_bread s b d :
  txn bl H ds V s -> H !! b = None -> is_block b -> b ∉ ds -> room bl H -> V b = Some d ->
  wp (in_bio (bread ROOTDEV b)) s (fun i s' => same_disk s s' /\ txn bl (<[b := i]> H) ds V s').
Proof.
  intros T Hni Hb Hds Hroom Hd. destruct (tn_cache _ _ _ _ _ T) as (refs & Hr & Hc).
  assert (Hn : refs_of refs b = if decide (b ∈ bl) then 1 else 0).
  { unfold refs_of. rewrite Hr. unfold txn_ref. rewrite Hni. by case_decide. }
  apply wp_in_bio. eapply wp_mono; [apply (law_bread refs (dom H) (bio s) b d Hc)|].
  - by rewrite not_elem_of_dom.
  - done.
  - right. pose proof (size_refs refs Hr (tn_nodup _ _ _ _ _ T)). unfold room in Hroom. lia.
  - intros x. rewrite Hr. apply txn_ref_nonzero.
  - rewrite Hn. by case_decide.
  - by rewrite (tn_view _ _ _ _ _ T).
  - intros i c (Hc' & Hh & Hv & Ho & Hk). split; [by apply same_disk_bio|].
    eapply txn_cache_step; [exact T| |rewrite dom_insert_L; exact Hc'|..].
    + intros x. destruct (decide (x = b)) as [->|Hne].
      * rewrite lookup_insert_eq, Hn. unfold txn_ref. rewrite lookup_insert_eq. by case_decide.
      * rewrite lookup_insert_ne, Hr by done. unfold txn_ref. by rewrite lookup_insert_ne.
    + intros x Hx. rewrite Hv by done. by apply (tn_view _ _ _ _ _ T).
    + intros x j Hj. destruct (decide (x = b)) as [->|Hne].
      * rewrite lookup_insert_eq in Hj. injection Hj as <-. by exists d.
      * rewrite lookup_insert_ne in Hj by done.
        destruct (tn_handle _ _ _ _ _ T x j Hj) as [d' Hd']. exists d'.
        apply Hk; [by apply elem_of_dom_2 in Hj|done].
    + by apply cache_only_disk.
    + apply (tn_clean _ _ _ _ _ T).
Qed.

Lemma txn_getb s b i d :
  txn bl H ds V s -> H !! b = Some i -> V b = Some d ->
  wp (in_bio (getb i)) s (fun x s' => s' = s /\ b_data x = d /\ b_blockno x = b).
Proof.
  intros T Hi Hd. destruct (txn_holds s b i d T Hi Hd) as (x & (_ & Hx) & _ & Hb & _ & Hdx).
  apply wp_in_bio. apply wp_eq with x (bio s).
  - unfold getb, bind, gets, of_option. by rewrite Hx.
  - split; [by destruct s|done].
Qed.

Lemma txn_updb s b i d f :
  txn bl H ds V s -> H !! b = Some i -> V b = Some d ->
  wp (in_bio (updb i (fun x => set_data (f (b_data x)) x))) s
    (fun _ s' => same_disk s s' /\ txn bl H ({[b]} ∪ ds) (vset V b (f d)) s').
Proof.
  intros T Hi Hd. pose proof (txn_holds s b i d T Hi Hd) as Hh.
  destruct (tn_cache _ _ _ _ _ T) as (refs & Hr & Hc).
  apply wp_in_bio. eapply wp_mono.
  { assert (E : updb i (fun x => set_data (f (b_data x)) x) (bio s) = updb i (set_data (f d)) (bio s)).
    { destruct Hh as (x & (_ & Hx) & _ & _ & _ & Hdx). unfold updb, getb, bind, gets, of_option, modify.
      rewrite Hx. unfold ret. by rewrite Hdx. }
    unfold wp. rewrite E. apply (law_set_data refs (dom H) (bio s) i b d (f d) Hc);
      [by apply elem_of_dom_2 in Hi|done]. }
  intros [] c (Hc' & Hh' & Ho & Hv & Hk). split; [by apply same_disk_bio|].
  eapply txn_cache_step; [exact T|exact Hr|exact Hc'|..].
  - intros x Hx. rewrite Hv. unfold vset. case_decide; [done|]. by apply (tn_view _ _ _ _ _ T).
  - intros x j Hj. destruct (decide (x = b)) as [->|Hne].
    + rewrite Hi in Hj. injection Hj as <-. by exists (f d).
    + destruct (tn_handle _ _ _ _ _ T x j Hj) as [d' Hd']. exists d'.
      apply Hk; [|done]. apply elem_of_dom_2 in Hj. set_solver.
  - by apply cache_only_disk.
  - intros x Hx Hni Hds. unfold vset. rewrite decide_False by set_solver.
    apply (tn_clean _ _ _ _ _ T); [done..|set_solver].
Qed.

Lemma txn_brelse s b i :
  txn bl H ds V s -> H !! b = Some i -> b ∉ ds ->
  wp (in_bio (brelse i)) s (fun _ s' => same_disk s s' /\ txn bl (delete b H) ds V s').
Proof.
  intros T Hi Hds. pose proof (txn_held s b T (ex_intro _ i Hi)) as Hb.
  destruct (tn_handle _ _ _ _ _ T b i Hi) as [d Hh].
  destruct (tn_cache _ _ _ _ _ T) as (refs & Hr & Hc).
  pose proof (law_handle _ _ _ _ _ _ Hc Hh) as Hvd.
  set (n := if decide (b ∈ bl) then 2 else 1).
  assert (Hn : refs !! b = Some n) by (rewrite Hr; unfold txn_ref, n; rewrite Hi; by case_decide).
  apply wp_in_bio. eapply wp_mono.
  { apply (law_brelse refs (dom H) (bio s) i b d n Hc); [by apply elem_of_dom_2 in Hi|done|done| |].
    - unfold n, INT_MIN. case_decide; lia.
    - unfold n. case_decide; [done|]. intros _. rewrite (tn_clean _ _ _ _ _ T) by done.
      by rewrite <- (tn_view _ _ _ _ _ T) by done. }
  intros [] c (Hc' & Ho & Hv & Hk). split; [by apply same_disk_bio|].
  eapply txn_cache_step; [exact T| |rewrite dom_delete_L; exact Hc'|..].
  - intros x. destruct (decide (x = b)) as [->|Hne].
    + unfold n, txn_ref. rewrite lookup_delete_eq. case_decide; simpl.
      * by rewrite lookup_insert_eq.
      * by rewrite lookup_delete_eq.
    + assert (E : (if n =? 1 then delete b refs else <[b:=n - 1]> refs) !! x = refs !! x)
        by (destruct (n =? 1); [by apply lookup_delete_ne|by apply lookup_insert_ne]).
      rewrite E, Hr. unfold txn_ref. by rewrite lookup_delete_ne.
  - intros x Hx. rewrite Hv by done. by apply (tn_view _ _ _ _ _ T).
  - intros x j Hj. apply lookup_delete_Some in Hj as [Hne Hj].
    destruct (tn_handle _ _ _ _ _ T x j Hj) as [d' Hd']. exists d'.
    apply Hk; [|done]. apply elem_of_dom_2 in Hj. set_solver.
  - by apply cache_only_disk.
  - apply (tn_clean _ _ _ _ _ T).
Qed.

End txn.

(** ** [log_write] *)

(** The logged blocks after a block is logged: absorption keeps them. *)
Definition log_add (b : Z) (bl : list Z) : list Z := if decide (b ∈ bl) then bl else bl ++ [b].

Lemma elem_of_log_add b bl x : x ∈ log_add b bl <-> x = b \/ x ∈ bl.
Proof. unfold log_add. case_decide; [naive_solver|]. rewrite elem_of_app, list_elem_of_singleton. tauto. Qed.

Lemma length_log_add b bl : (length (log_add b bl) <= S (length bl))%nat.
Proof. unfold log_add. case_decide; [lia|]. rewrite length_app. simpl. lia. Qed.

Lemma log_index_spec l n b : (n <= length l)%nat ->
  if decide (b ∈ take n l)
  then (log_index l n b < n)%nat /\ l !! log_index l n b = Some b
  else log_index l n b = n.
Proof.
  revert n. induction l as [|x l IH]; intros [|n] Hn; simpl in *; try done; try lia.
  destruct (Z.eqb_spec x b) as [->|Hne].
  - rewrite decide_True by apply list_elem_of_here. split; [lia|done].
  - specialize (IH n ltac:(lia)). destruct (decide (b ∈ take n l)) as [Hin|Hni].
    + rewrite decide_True by by apply list_elem_of_further. destruct IH. split; [lia|done].
    + rewrite decide_False; [by rewrite IH|]. intros [->|?]%elem_of_cons; done.
Qed.

Lemma put_lh_block_eq s i v :
  0 <= i < Z.of_nat (length (lh_block (lg s))) ->
  put_lh_block i v s = Ret tt (set_lg (set_lh_block (<[Z.to_nat i := v]> (lh_block (lg s))) (lg s)) s).
Proof.
  intros Hi. unfold put_lh_block, getl, bind, gets, in_log, modify.
  rewrite (proj2 (Z.leb_le 0 i)), (proj2 (Z.ltb_lt i _)) by lia. done.
Qed.

Lemma block_s32 b : is_block b -> s32 b = b.
Proof. intros [H1 H2]. rewrite LOGICAL_eq in H2. apply s32_small. unfold is_int, INT_MIN, INT_MAX. lia. Qed.

Section log_write.
Variables (bl : list Z) (H : gmap Z Z) (ds : gset Z) (V : Z -> option block).

(** The log after the array was written and the count set. *)
Lemma txn_relog s s' b :
  txn bl H ds V s -> is_block b ->
  (exists refs, (forall x, refs !! x = txn_ref (log_add b bl) H x) /\
     cache_rel refs (dom H) (bio s')) ->
  cache_only (bio s) (bio s') -> same_view (bio s) (bio s') ->
  keeps_handles (dom H) (bio s) (bio s') ->
  lh_n (lg s') = Z.of_nat (length (log_add b bl)) ->
  take (length (log_add b bl)) (lh_block (lg s')) = log_add b bl ->
  length (lh_block (lg s')) = length (lh_block (lg s)) -> log_size (lg s') = log_size (lg s) ->
  log_lock (lg s') = false -> log_outstanding (lg s') = log_outstanding (lg s) ->
  txn (log_add b bl) H (ds ∖ {[b]}) V s'.
Proof.
  intros [T1 T2 T3 T4 T5 T6 T7 T8 T9 T10 T11 T12] Hb Hc Ho Hv Hk L1 L2 L3 L4 L5 L6.
  constructor; try congruence.
  - intros x Hx. rewrite Hv by done. by apply T2.
  - intros x i Hi. destruct (T3 x i Hi) as [d Hd]. exists d. apply Hk; [|done].
    by apply elem_of_dom_2 in Hi.
  - intros x Hx Hni Hds. rewrite elem_of_log_add in Hni. rewrite (cache_only_disk _ _ Ho).
    apply T4; [done|tauto|]. set_solver.
  - unfold log_add. case_decide; [done|]. apply list.NoDup_app. split; [done|].
    split; [|apply NoDup_singleton]. set_solver.
  - intros x [->|Hx]%elem_of_log_add; auto.
Qed.

Lemma txn_log_write s b i d :
  txn bl H ds V s -> H !! b = Some i -> V b = Some d -> Z.of_nat (length bl) < LOGBLOCKS ->
  wp (log_write i) s (fun _ s' => same_disk s s' /\ txn (log_add b bl) H (ds ∖ {[b]}) V s').
Proof.
  intros T Hi Hd Hlen. pose proof (txn_held _ _ _ _ s b T (ex_intro _ i Hi)) as Hb.
  pose proof (txn_holds _ _ _ _ s b i d T Hi Hd) as Hh.
  pose proof (tn_lock _ _ _ _ _ T) as Hlk. pose proof (tn_n _ _ _ _ _ T) as Hn.
  pose proof (tn_blocks _ _ _ _ _ T) as Hbk.
  unfold log_write. apply wp_bind, wp_gets. rewrite Hn, (tn_size _ _ _ _ _ T).
  rewrite (proj2 (Z.leb_gt LOGSIZE _)), (proj2 (Z.leb_gt (LOGSIZE - 1) _)) by log_lia. cbn [orb].
  rewrite (proj2 (Z.ltb_ge _ _)) by apply (tn_open _ _ _ _ _ T).
  unfold spin_acquire. apply wp_bind, wp_bind, wp_gets. cbn [lget log_spin]. rewrite Hlk.
  apply wp_modify. cbn [lset log_spin]. apply wp_bind.
  set (s1 := set_lg (set_log_lock true (lg s)) s).
  eapply wp_mono with (Q1 := fun x s' => s' = s1 /\ b_blockno x = b).
  { apply wp_in_bio. destruct Hh as (x & (_ & Hx) & _ & Hbn & _). apply wp_eq with x (bio s).
    - unfold getb, bind, gets, of_option. cbn [bio s1 set_lg]. by rewrite Hx.
    - by destruct s. }
  intros x s' [-> ->]. rewrite block_s32, Nat2Z.id by done. cbv zeta.
  pose proof (log_index_spec (lh_block (lg s)) (length bl) b) as Hx.
  rewrite (tn_logged _ _ _ _ _ T) in Hx.
  specialize (Hx ltac:(rewrite Hbk; log_lia)).
  set (k := log_index (lh_block (lg s)) (length bl) b) in *.
  assert (Hk : (k <= length bl)%nat) by (destruct (decide (b ∈ bl)); lia).
  apply wp_bind. eapply wp_eq; [apply put_lh_block_eq; cbn [s1 lg set_lg set_log_lock lh_block];
    rewrite Hbk; log_lia|]. rewrite Nat2Z.id. cbn [s1 lg set_lg bio set_log_lock lh_block].
  destruct (decide (b ∈ bl)) as [Hin|Hni].
  - destruct Hx as [Hlt Hkb]. rewrite (proj2 (Z.eqb_neq _ _)) by lia.
    apply wp_bind, wp_ret. unfold spin_release. apply wp_bind, wp_gets. cbn [lget log_spin].
    apply wp_modify. cbn [lset log_spin].
    destruct (tn_cache _ _ _ _ _ T) as (refs & Hr & Hc).
    assert (E : log_add b bl = bl) by (unfold log_add; by rewrite decide_True).
    split; [by split|]. apply (txn_relog s _ b T Hb); cbn; rewrite ?length_insert, ?E; try done.
    + by exists refs.
    + intros x1 b1 d1 _ Hx1. exact Hx1.
    + rewrite list_insert_id by done. apply (tn_logged _ _ _ _ _ T).
  - rewrite Hx, Z.eqb_refl. cbn [when].
    assert (E : log_add b bl = bl ++ [b]) by (unfold log_add; by rewrite decide_False).
    destruct (tn_cache _ _ _ _ _ T) as (refs & Hr & Hc).
    assert (Hrb : refs !! b = Some 1)
      by (rewrite Hr; unfold txn_ref; rewrite Hi; by rewrite decide_False).
    apply wp_bind, wp_bind, wp_in_bio. eapply wp_mono.
    { apply (law_bpin refs (dom H) (bio s) i b d 1 Hc Hh Hrb). unfold INT_MAX. lia. }
    intros [] c (Hc' & Ho & Hv & Hkp). unfold in_log. apply wp_modify.
    unfold spin_release. apply wp_bind, wp_gets. cbn [lget log_spin].
    apply wp_modify. cbn [lset log_spin].
    split; [by split|]. apply (txn_relog s _ b T Hb); cbn; rewrite ?length_insert, ?E, ?length_app; try done.
    + exists (<[b := 1 + 1]> refs). split; [|done]. intros x'.
      destruct (decide (x' = b)) as [->|Hne].
      * rewrite lookup_insert_eq. unfold txn_ref. rewrite Hi, decide_True by set_solver. done.
      * rewrite lookup_insert_ne, Hr by done. unfold txn_ref. apply decide_ext. set_solver.
    + rewrite Hn. simpl. lia.
    + simpl. rewrite Nat.add_1_r, (take_S_r _ _ b); [|apply list_lookup_insert_eq; rewrite Hbk; log_lia].
      rewrite take_insert_ge by lia. by rewrite (tn_logged _ _ _ _ _ T).
Qed.
End log_write.

(** ** In the kernel's state *)

(** Only the log, the cache and the state of sleeping processes changed, and
    nothing was written to the disk. *)
Definition kframe (s s' : kstate) : Prop :=
  exists chans l, s' = deliver chans (set_lo l s) /\ same_disk (lo s) l.

Lemma wake_app p c1 c2 :
  fold_right wake (fold_right wake p c1) c2 = fold_right wake p (c2 ++ c1).
Proof. by rewrite fold_right_app. Qed.

Lemma deliver_deliver c1 c2 l s :
  deliver c2 (set_lo l (deliver c1 s)) = deliver (c2 ++ c1) (set_lo l s).
Proof.
  unfold deliver, set_lo, set_procs. cbn. f_equal. rewrite <- map_fmap_compose.
  apply map_fmap_ext. intros i p _. unfold compose. apply wake_app.
Qed.

Lemma deliver_nil s : deliver [] s = s.
Proof. unfold deliver, set_procs. cbn. rewrite map_fmap_id. by destruct s. Qed.

#[export] Instance kframe_preorder : PreOrder kframe.
Proof.
  split.
  - intros s. exists [], (lo s). rewrite deliver_nil. by destruct s.
  - intros s1 s2 s3 (c1 & l1 & -> & D1) (c2 & l2 & -> & D2). exists (c2 ++ c1), l2.
    rewrite deliver_deliver. split; [done|]. by etransitivity.
Qed.

(** Follows the frames in the context. *)
Ltac kf :=
  repeat match goal with
  | F : kframe ?s _ |- kframe ?s _ =>
      first [exact F | etransitivity; [exact F|]; clear F]
  end; try reflexivity.

Lemma kframe_eqs s s' : kframe s s' ->
  sb s' = sb s /\ icache_lock s' = icache_lock s /\ icache s' = icache s /\ mem s' = mem s /\
  ftable s' = ftable s /\ pipes s' = pipes s /\ cur s' = cur s /\ cons s' = cons s /\
  uart s' = uart s /\ pr s' = pr s.
Proof. by intros (c & l & -> & _). Qed.

Lemma kframe_sb s s' : kframe s s' -> sb s' = sb s.
Proof. by intros (c & l & -> & _). Qed.

Lemma kframe_icache s s' : kframe s s' -> icache s' = icache s.
Proof. by intros (c & l & -> & _). Qed.

Lemma kframe_set_icache m s s' : kframe s s' -> kframe (set_icache m s) (set_icache m s').
Proof. intros (c & l & -> & D). by exists c, l. Qed.

Lemma wp_in_lo {A} (m : M lstate A) s (Q : A -> kstate -> Prop) :
  wp m (lo s) (fun a l => same_disk (lo s) l /\
    forall s', lo s' = l -> kframe s s' -> Q a s') -> wp (in_lo m) s Q.
Proof.
  unfold wp, in_lo. destruct (m (lo s)) as [a l|msg|l|]; try done. intros [HD HQ].
  apply HQ; [done|]. by eexists _, l.
Qed.

(** The transaction, in the kernel. *)
Definition ktxn (bl : list Z) (H : gmap Z Z) (ds : gset Z) (V : Z -> option block) (s : kstate) :
  Prop := txn bl H ds V (lo s).

Section kernel.
Context {bl : list Z} {H : gmap Z Z} {ds : gset Z} {V : Z -> option block}.

Lemma k_bread s b d (Q : Z -> kstate -> Prop) :
  ktxn bl H ds V s -> H !! b = None -> is_block b -> b ∉ ds -> room bl H -> V b = Some d ->
  (forall i s', kframe s s' -> ktxn bl (<[b := i]> H) ds V s' -> Q i s') ->
  wp (in_bc (bread ROOTDEV b)) s Q.
Proof.
  intros T Hni Hb Hds Hr Hd HQ. apply wp_in_lo. eapply wp_mono; [by eapply txn_bread|].
  intros i l [HD Hl]. split; [exact HD|]. intros s' El Hf. apply HQ; [done|]. unfold ktxn. by rewrite El.
Qed.

Lemma k_getd s b i d (Q : block -> kstate -> Prop) :
  ktxn bl H ds V s -> H !! b = Some i -> V b = Some d -> 
  (forall s', kframe s s' -> ktxn bl H ds V s' -> Q d s') -> wp (getd i) s Q.
Proof.
  intros T Hi Hd HQ. unfold getd. apply wp_bind, wp_in_lo.
  eapply wp_mono; [by eapply txn_getb|].
  intros x l (-> & <- & _). split; [reflexivity|]. intros s' El Hf. apply wp_ret, HQ; [done|]. unfold ktxn. by rewrite El.
Qed.

Lemma k_updd s b i d f (Q : unit -> kstate -> Prop) :
  ktxn bl H ds V s -> H !! b = Some i -> V b = Some d ->
  (forall s', kframe s s' -> ktxn bl H ({[b]} ∪ ds) (vset V b (f d)) s' -> Q tt s') ->
  wp (updd i f) s Q.
Proof.
  intros T Hi Hd HQ. unfold updd, in_bc. apply wp_in_lo.
  eapply wp_mono; [by eapply txn_updb|].
  intros [] l [HD Hl]. split; [exact HD|]. intros s' El Hf. apply HQ; [done|]. unfold ktxn. by rewrite El.
Qed.

Lemma k_brelse s b i (Q : unit -> kstate -> Prop) :
  ktxn bl H ds V s -> H !! b = Some i -> b ∉ ds ->
  (forall s', kframe s s' -> ktxn bl (delete b H) ds V s' -> Q tt s') ->
  wp (in_bc (brelse i)) s Q.
Proof.
  intros T Hi Hds HQ. apply wp_in_lo. eapply wp_mono; [by eapply txn_brelse|].
  intros [] l [HD Hl]. split; [exact HD|]. intros s' El Hf. apply HQ; [done|]. unfold ktxn. by rewrite El.
Qed.

Lemma k_log_write s b i d (Q : unit -> kstate -> Prop) :
  ktxn bl H ds V s -> H !! b = Some i -> V b = Some d -> Z.of_nat (length bl) < LOGBLOCKS ->
  (forall s', kframe s s' -> ktxn (log_add b bl) H (ds ∖ {[b]}) V s' -> Q tt s') ->
  wp (in_lo (log_write i)) s Q.
Proof.
  intros T Hi Hd Hn HQ. apply wp_in_lo. eapply wp_mono; [by eapply txn_log_write|].
  intros [] l [HD Hl]. split; [exact HD|]. intros s' El Hf. apply HQ; [done|]. unfold ktxn. by rewrite El.
Qed.

End kernel.

(** Transactions with other contents of the blocks and sets. *)
Lemma ktxn_ext bl H ds V V' s :
  (forall b, is_block b -> V b = V' b) -> ktxn bl H ds V s -> ktxn bl H ds V' s.
Proof.
  intros He [T1 T2 T3 T4 T5 T6 T7 T8 T9 T10 T11 T12]. constructor; try done.
  - intros b Hb. by rewrite T2, He.
  - intros b Hb Hni Hds. by rewrite T4, He.
Qed.

(** ** A transaction after boot *)

Lemma full_disk (g : Z -> block) : exists dk : gmap Z block,
  forall b, 0 <= b < LOGICAL_DISK_SIZE + DISK1_START_BLOCK -> dk !! b = Some (g b).
Proof.
  exists (list_to_map ((fun i => (i, g i)) <$> seqZ 0 (LOGICAL_DISK_SIZE + DISK1_START_BLOCK))).
  intros b Hb. apply elem_of_list_to_map_1.
  - rewrite <- list_fmap_compose. unfold compose.
    rewrite (list_fmap_ext _ (fun i => i)) by done. rewrite list_fmap_id. apply NoDup_seqZ.
  - apply list_elem_of_fmap. exists b. split; [done|]. by apply elem_of_seqZ.
Qed.

(** The log when one operation has begun. *)
Definition open_log : log := Log false 2 LOGSIZE 1 false ROOTDEV 0 (replicate (Z.to_nat LOGSIZE) 0).

(** With [g] on the disk and the superblock [x] read, process 5 of the table
    runs and has begun an operation. *)
Lemma open_txn (g : Z -> block) (x : superblock) : exists s,
  ktxn [] ∅ ∅ (fun b => Some (g b)) s /\ sb s = x /\ icache s = table NINODE bss_inode /\
  icache_lock s = false /\ procs s = table NPROC bss_proc /\ cur s = 5 /\
  cur_pid (bio (lo s)) = 5.
Proof.
  destruct (full_disk g) as [dk Hdk].
  destruct (wp_inv _ _ _ (law_binit dk 5 _ eq_refl)) as ([] & b & _ & Hc & Hd & Hf & He & Hp & _).
  assert (Hr : forall c, is_block c -> disk_read b c = Some (g c)).
  { intros c Hb. unfold disk_read. rewrite Hd, Hf, He. unfold read_block, use_mirror, block_failed.
    simpl. rewrite andb_false_r. apply Hdk. unfold is_block in Hb. rewrite DISK1_eq. lia. }
  exists (set_lo (LState b open_log) (set_sb x (kernel_boot dk small_boot 5))).
  split; [|done]. constructor; try done; cbn [lo bio set_lo].
  - exists ∅. split; [done|]. by rewrite dom_empty_L.
  - intros c Hb. rewrite (law_view _ _ _ c Hc Hb) by done. by apply Hr.
  - intros c Hb _ _. by apply Hr.
  - constructor.
  - intros c Hb. by apply not_elem_of_nil in Hb.
Qed.
