(* ===== verification/Blocks.v ===== *)
(** Allocation of disk blocks, [balloc], [bfree] and [bzero] of fs.c: the free
    bitmap as a set of bits, and what each operation does to the blocks. *)
From S2P Require Import Prelude Bytes Locks Kalloc Vm Bio Log Kernel Fs Txn.

Definition bit_on (bi : Z) (d : block) : block :=
  set_byte d (bi / 8) (Z.lor (byte_at d (bi / 8)) (Z.shiftl 1 (bi mod 8))).
Definition bit_off (bi : Z) (d : block) : block :=
  set_byte d (bi / 8) (Z.land (byte_at d (bi / 8)) (Z.lnot (Z.shiftl 1 (bi mod 8)))).

Lemma land_bit x k : 0 <= k -> negb (Z.land x (Z.shiftl 1 k) =? 0) = Z.testbit x k.
Proof.
  intros Hk. rewrite Z.shiftl_1_l. destruct (Z.testbit x k) eqn:E.
  - apply negb_true_iff, Z.eqb_neq. intros H0. apply (f_equal (fun z => Z.testbit z k)) in H0.
    rewrite Z.land_spec, Z.pow2_bits_true, E, Z.bits_0 in H0 by done. done.
  - apply negb_false_iff, Z.eqb_eq. apply Z.bits_inj'. intros j Hj.
    rewrite Z.land_spec, Z.bits_0. destruct (Z.eq_dec j k) as [->|Hne]; [by rewrite E|].
    rewrite Z.pow2_bits_false by congruence. apply andb_false_r.
Qed.

Lemma bit_set_testbit d bi : bit_set d bi = Z.testbit (byte_at d (bi / 8)) (bi mod 8).
Proof. unfold bit_set. apply land_bit. pose proof (Z.mod_pos_bound bi 8). lia. Qed.

Lemma byte_at_set_byte d i j v : 0 <= i < Z.of_nat (length d) -> 0 <= j ->
  byte_at (set_byte d i v) j = if decide (j = i) then u8 v else byte_at d j.
Proof.
  intros Hi Hj. unfold byte_at, set_byte. case_decide as E.
  - subst j. rewrite list_lookup_insert_eq by lia. done.
  - rewrite list_lookup_insert_ne by lia. done.
Qed.

Lemma testbit_u8 x k : 0 <= k < 8 -> Z.testbit (u8 x) k = Z.testbit x k.
Proof. intros Hk. unfold u8. apply Z.mod_pow2_bits_low. lia. Qed.

Lemma bit_eq a b : a / 8 = b / 8 -> a mod 8 = b mod 8 -> a = b.
Proof. intros H1 H2. rewrite (Z.div_mod a 8), (Z.div_mod b 8) by lia. congruence. Qed.

Section bitmap.
Variables (d : block) (a b : Z).
Hypotheses (Hd : length d = Z.to_nat BSIZE) (Ha : 0 <= a < BPB) (Hb : 0 <= b).

Lemma bit_byte : 0 <= a / 8 < Z.of_nat (length d).
Proof. rewrite Hd. unfold BPB, BSIZE in *. split; [apply Z.div_pos; lia|]. apply Z.div_lt_upper_bound; lia. Qed.

(** Both updates change the one bit. *)
Lemma bit_update v : (forall k, 0 <= k < 8 -> k <> a mod 8 ->
    Z.testbit v k = Z.testbit (byte_at d (a / 8)) k) ->
  bit_set (set_byte d (a / 8) v) b =
    if decide (b = a) then Z.testbit v (a mod 8) else bit_set d b.
Proof.
  intros Hv. rewrite !bit_set_testbit, byte_at_set_byte by (try apply bit_byte; apply Z.div_pos; lia).
  pose proof (Z.mod_pos_bound b 8 ltac:(lia)). pose proof (Z.mod_pos_bound a 8 ltac:(lia)).
  destruct (decide (b / 8 = a / 8)) as [E|E].
  - rewrite testbit_u8 by lia. destruct (decide (b = a)) as [->|Hne]; [done|].
    rewrite Hv, E; [done|lia|]. intros E'. by apply Hne, bit_eq.
  - rewrite decide_False by congruence. done.
Qed.

Lemma bit_set_on : bit_set (bit_on a d) b = if decide (b = a) then true else bit_set d b.
Proof.
  unfold bit_on. pose proof (Z.mod_pos_bound a 8 ltac:(lia)). rewrite bit_update.
  - by rewrite Z.lor_spec, Z.shiftl_1_l, Z.pow2_bits_true, orb_true_r by lia.
  - intros k Hk Hne. rewrite Z.lor_spec, Z.shiftl_1_l, Z.pow2_bits_false by congruence.
    apply orb_false_r.
Qed.

Lemma bit_set_off : bit_set (bit_off a d) b = if decide (b = a) then false else bit_set d b.
Proof.
  unfold bit_off. pose proof (Z.mod_pos_bound a 8 ltac:(lia)). rewrite bit_update.
  - by rewrite Z.land_spec, Z.lnot_spec, Z.shiftl_1_l, Z.pow2_bits_true, andb_false_r by lia.
  - intros k Hk Hne. rewrite Z.land_spec, Z.lnot_spec, Z.shiftl_1_l, Z.pow2_bits_false by (lia || congruence).
    apply andb_true_r.
Qed.

End bitmap.

Lemma length_bit_on a d : length (bit_on a d) = length d.
Proof. apply length_insert. Qed.

(** ** The operations *)

Definition zero_data : block := replicate (Z.to_nat BSIZE) 0.

(** The log has space for [n] more blocks. *)
Definition log_room (n : Z) (bl : list Z) : Prop := Z.of_nat (length bl) + n <= LOGBLOCKS.

Lemma log_room_add b n bl : log_room (n + 1) bl -> log_room n (log_add b bl).
Proof. unfold log_room. pose proof (length_log_add b bl). lia. Qed.

Lemma log_room_lt n bl : 0 < n -> log_room n bl -> Z.of_nat (length bl) < LOGBLOCKS.
Proof. unfold log_room. lia. Qed.

Lemma room_add b bl H : Z.of_nat (length bl) + Z.of_nat (size H) + 1 < NBUF -> room (log_add b bl) H.
Proof. unfold room. pose proof (length_log_add b bl). lia. Qed.

(** Reading, changing, logging and releasing a block. *)
Lemma k_rewrite {bl H ds V} s b d f (Q : unit -> kstate -> Prop) :
  ktxn bl H ds V s -> H !! b = None -> is_block b -> b ∉ ds -> room bl H -> log_room 1 bl ->
  V b = Some d ->
  (forall s', kframe s s' -> ktxn (log_add b bl) H ds (vset V b (f d)) s' -> Q tt s') ->
  wp (let! bp := in_bc (bread ROOTDEV b) in
      updd bp f ;;;
      in_lo (log_write bp) ;;;
      in_bc (brelse bp)) s Q.
Proof.
  intros T Hni Hb Hds Hr Hl Hd HQ. apply wp_bind. eapply k_bread; [done..|].
  intros i s1 F1 T1. apply wp_bind.
  eapply (k_updd _ b); [exact T1|apply lookup_insert_eq|exact Hd|]. intros s2 F2 T2.
  apply wp_bind. eapply (k_log_write _ b); [exact T2|apply lookup_insert_eq| |
    by apply (log_room_lt 1)|].
  { unfold vset. by rewrite decide_True. }
  intros s3 F3 T3. eapply (k_brelse _ b); [exact T3|apply lookup_insert_eq|set_solver|].
  intros s4 F4 T4. apply HQ; [kf|].
  rewrite delete_insert_id in T4 by done.
  by replace (({[b]} ∪ ds) ∖ {[b]}) with ds in T4 by set_solver.
Qed.

Lemma bzero_spec {bl H ds V} s b d (Q : unit -> kstate -> Prop) :
  ktxn bl H ds V s -> H !! b = None -> is_block b -> b ∉ ds -> room bl H -> log_room 1 bl ->
  V b = Some d ->
  (forall s', kframe s s' -> ktxn (log_add b bl) H ds (vset V b zero_data) s' -> Q tt s') ->
  wp (bzero ROOTDEV b) s Q.
Proof. intros. by eapply (k_rewrite _ b d (fun _ => zero_data)). Qed.

(** The free bitmap of the superblock [x] is in one block. *)
Record bitmap_in (x : superblock) (V : Z -> option block) (d : block) : Prop := {
  bi_block : is_block (BBLOCK 0 x);
  bi_data : V (BBLOCK 0 x) = Some d;
  bi_len : length d = Z.to_nat BSIZE;
  bi_size : 0 < sb_size x <= LOGICAL_DISK_SIZE
}.

(** The least free block. *)
Definition first_free (x : superblock) (d : block) : option Z :=
  List.find (fun a => negb (bit_set d a)) (seqZ 0 (sb_size x)).

Lemma bblock_same x a : 0 <= a < BPB -> BBLOCK a x = BBLOCK 0 x.
Proof. intros Ha. unfold BBLOCK. by rewrite Z.div_small. Qed.

Lemma find_ext {A} (f g : A -> bool) l :
  (forall x, x ∈ l -> f x = g x) -> List.find f l = List.find g l.
Proof.
  induction l as [|x l IH]; intros Hf; [done|]. simpl.
  rewrite (Hf x) by apply list_elem_of_here. destruct (g x); [done|]. apply IH.
  intros y Hy. apply Hf. by apply list_elem_of_further.
Qed.

(** [balloc] takes the least free block, sets its bit and zeroes it. *)
Lemma balloc_spec {bl H ds V} s d a (Q : Z -> kstate -> Prop) :
  ktxn bl H ds V s -> bitmap_in (sb s) V d ->
  H !! BBLOCK 0 (sb s) = None -> BBLOCK 0 (sb s) ∉ ds ->
  Z.of_nat (length bl) + Z.of_nat (size H) + 1 < NBUF -> log_room 2 bl ->
  first_free (sb s) d = Some a -> H !! a = None -> a ∉ ds -> is_Some (V a) ->
  (forall s', kframe s s' ->
     ktxn (log_add a (log_add (BBLOCK 0 (sb s)) bl)) H ds
       (vset (vset V (BBLOCK 0 (sb s)) (bit_on a d)) a zero_data) s' -> Q a s') ->
  wp (balloc ROOTDEV) s Q.
Proof.
  intros T [B1 B2 B3 [B4 B4']] Hni Hds Hroom Hlog Ha Hna Hda [da HVa] HQ.
  set (bm := BBLOCK 0 (sb s)) in *. set (size := sb_size (sb s)) in *.
  assert (Hsz : LOGICAL_DISK_SIZE < BPB) by (rewrite LOGICAL_eq; done).
  apply find_seqZ in Ha as (Har & Hfa%negb_true_iff & Hl).
  assert (Hlow : forall i, 0 <= i < a -> bit_set d i = true).
  { intros i Hi. by apply negb_false_iff, Hl. }
  unfold balloc, getsb. apply wp_bind, wp_gets. fold size.
  apply (wp_loop (fun b s' => b = 0 /\ s' = s) (fun _ => 0)); [done|done|done|].
  intros b s' [-> ->]. rewrite u32_small by lia. rewrite (proj2 (Z.ltb_lt 0 size)) by done.
  apply wp_bind, wp_gets. fold bm. apply wp_bind. eapply k_bread; [done..|unfold room; lia|done|].
  intros i s1 F1 T1. apply wp_bind.
  eapply wp_mono; [apply (wp_for_each_seq (fun k s2 => 0 <= k <= a /\ kframe s s2 /\
      ktxn bl (<[bm := i]> H) ds V s2)
    (fun r s2 => r = Some a /\ kframe s s2 /\
      ktxn (log_add a (log_add bm bl)) H ds (vset (vset V bm (bit_on a d)) a zero_data) s2))|].
  - split; [lia|done].
  - done.
  - intros k s2 Hk (Hka & F2 & T2). rewrite Z.add_0_l, u32_small by (rewrite LOGICAL_eq in *; lia).
    rewrite (proj2 (Z.ltb_lt k size)) by lia. apply wp_bind.
    eapply (k_getd _ bm); [exact T2|apply lookup_insert_eq|done|]. intros s3 F3 T3.
    destruct (Z.eq_dec k a) as [->|Hne].
    2:{ rewrite Hlow by lia. apply wp_ret. split; [lia|]. split; [kf|done]. }
    rewrite Hfa. apply wp_bind.
    eapply (k_updd _ bm); [exact T3|apply lookup_insert_eq|done|]. intros s4 F4 T4.
    apply wp_bind. eapply (k_log_write _ bm); [exact T4|apply lookup_insert_eq| |
      by apply (log_room_lt 2)|]; [unfold vset; by rewrite decide_True|].
    intros s5 F5 T5. apply wp_bind.
    eapply (k_brelse _ bm); [exact T5|apply lookup_insert_eq|set_solver|]. intros s6 F6 T6.
    rewrite delete_insert_id in T6 by done.
    replace (({[bm]} ∪ ds) ∖ {[bm]}) with ds in T6 by set_solver.
    apply wp_bind. destruct (Z.eq_dec a bm) as [Ea|Ea].
    + eapply bzero_spec; [exact T6|done|unfold is_block; lia|done|by apply room_add|
        by apply log_room_add|unfold vset; by rewrite decide_True|].
      intros s7 F7 T7. apply wp_ret. split; [done|]. split; [kf|done].
    + eapply bzero_spec; [exact T6|done|unfold is_block; lia|done|by apply room_add|
        by apply log_room_add|unfold vset; rewrite decide_False by done; exact HVa|].
      intros s7 F7 T7. apply wp_ret. split; [done|]. split; [kf|done].
  - intros [r|] s2; [|intros (Hk & _); unfold BPB, BSIZE in *; lia].
    intros (-> & F2 & T2). apply wp_ret. by apply HQ.
Qed.

(** Without a free block, [balloc] panics. *)
Lemma balloc_full {bl H ds V} s d :
  ktxn bl H ds V s -> bitmap_in (sb s) V d ->
  H !! BBLOCK 0 (sb s) = None -> BBLOCK 0 (sb s) ∉ ds -> room bl H ->
  first_free (sb s) d = None -> balloc ROOTDEV s = Panic "balloc: out of blocks".
Proof.
  intros T [B1 B2 B3 [B4 B4']] Hni Hds Hroom Hf.
  set (bm := BBLOCK 0 (sb s)) in *. set (size := sb_size (sb s)) in *.
  assert (Hsz : LOGICAL_DISK_SIZE < BPB) by (rewrite LOGICAL_eq; done).
  assert (Hall : forall i, 0 <= i < size -> bit_set d i = true).
  { intros i Hi. apply negb_false_iff. apply (List.find_none _ _ Hf).
    apply list_elem_of_In, elem_of_seqZ. lia. }
  unfold balloc, getsb, bind at 1, gets at 1. fold size.
  match goal with |- loop 0 ?f s = _ => set (body := f) end.
  assert (H1 : wp (body 0) s (fun r _ => r = inl BPB)).
  { unfold body. rewrite u32_small, (proj2 (Z.ltb_lt 0 size)) by lia.
    apply wp_bind, wp_gets. fold bm. apply wp_bind. eapply k_bread; [done..|].
    intros i s1 F1 T1. apply wp_bind.
    eapply wp_mono; [apply (wp_for_each_seq (fun k s2 => ktxn bl (<[bm := i]> H) ds V s2)
      (fun r s2 => r = None /\ ktxn bl (<[bm := i]> H) ds V s2))|].
    - done.
    - done.
    - intros k s2 Hk T2. rewrite Z.add_0_l, u32_small by (unfold BPB, BSIZE in Hk; lia).
      destruct (Z.ltb_spec k size); [|by apply wp_ret].
      apply wp_bind. eapply (k_getd _ bm); [exact T2|apply lookup_insert_eq|done|].
      intros s3 F3 T3. rewrite Hall by lia. by apply wp_ret.
    - intros r s2 Hr. assert (Hr' : (r = None \/ r = Some None) /\ ktxn bl (<[bm := i]> H) ds V s2)
        by (destruct r as [r|]; [destruct Hr as [-> Hr]|]; auto).
      destruct Hr' as [[-> | ->] T2]; (apply wp_bind;
        eapply (k_brelse _ bm); [exact T2|apply lookup_insert_eq|done|]; intros s3 _ _;
        apply wp_ret; by rewrite s32_small by (unfold is_int, INT_MIN, INT_MAX, BPB, BSIZE; lia)). }
  apply wp_inv in H1 as (r & s1 & H1 & ->). apply (loop_second_panics _ 0 BPB s s1); [exact H1|].
  unfold body. rewrite u32_small by (unfold BPB, BSIZE; lia).
  by rewrite (proj2 (Z.ltb_ge BPB size)) by lia.
Qed.

Lemma bfree_spec {bl H ds V} s d b (Q : unit -> kstate -> Prop) :
  ktxn bl H ds V s -> bitmap_in (sb s) V d ->
  H !! BBLOCK 0 (sb s) = None -> BBLOCK 0 (sb s) ∉ ds -> room bl H -> log_room 1 bl ->
  0 <= b < BPB -> bit_set d b = true ->
  (forall s', kframe s s' ->
     ktxn (log_add (BBLOCK 0 (sb s)) bl) H ds (vset V (BBLOCK 0 (sb s)) (bit_off b d)) s' -> Q tt s') ->
  wp (bfree ROOTDEV b) s Q.
Proof.
  intros T [B1 B2 B3 B4] Hni Hds Hroom Hlog Hb Hset HQ.
  unfold bfree, getsb. apply wp_bind, wp_gets. rewrite bblock_same, Z.mod_small by done.
  set (bm := BBLOCK 0 (sb s)) in *. apply wp_bind. eapply k_bread; [done..|].
  intros i s1 F1 T1. apply wp_bind.
  eapply (k_getd _ bm); [exact T1|apply lookup_insert_eq|done|]. intros s2 F2 T2.
  rewrite Hset. cbn [negb]. apply wp_bind.
  eapply (k_updd _ bm); [exact T2|apply lookup_insert_eq|done|]. intros s3 F3 T3.
  apply wp_bind. eapply (k_log_write _ bm); [exact T3|apply lookup_insert_eq| |
    by apply (log_room_lt 1)|]; [unfold vset; by rewrite decide_True|].
  intros s4 F4 T4. eapply (k_brelse _ bm); [exact T4|apply lookup_insert_eq|set_solver|].
  intros s5 F5 T5. apply HQ; [kf|].
  rewrite delete_insert_id in T5 by done.
  by replace (({[bm]} ∪ ds) ∖ {[bm]}) with ds in T5 by set_solver.
Qed.

(** Freeing a free block panics. *)
Lemma bfree_panics {bl H ds V} s d b :
  ktxn bl H ds V s -> bitmap_in (sb s) V d ->
  H !! BBLOCK 0 (sb s) = None -> BBLOCK 0 (sb s) ∉ ds -> room bl H ->
  0 <= b < BPB -> bit_set d b = false -> bfree ROOTDEV b s = Panic "freeing free block".
Proof.
  intros T [B1 B2 B3 B4] Hni Hds Hroom Hb Hset.
  unfold bfree, getsb, bind at 1, gets at 1. rewrite bblock_same, Z.mod_small by done.
  set (bm := BBLOCK 0 (sb s)) in *.
  assert (H1 : wp (let! bp := in_bc (bread ROOTDEV bm) in let! d := getd bp in ret (bp, d)) s
    (fun r _ => r.2 = d)).
  { apply wp_bind. eapply k_bread; [done..|]. intros i s1 F1 T1. apply wp_bind.
    eapply (k_getd _ bm); [exact T1|apply lookup_insert_eq|done|]. intros s2 F2 T2. by apply wp_ret. }
  apply wp_inv in H1 as ([i d'] & s1 & H1 & Hd). simpl in Hd. subst d'.
  unfold bind in H1 |- *. destruct (in_bc _ s) as [i0 s0| | |]; try done.
  destruct (getd i0 s0) as [d0 s2| | |]; try done. unfold ret in H1. injection H1 as -> -> ->.
  by rewrite Hset.
Qed.

(** ** Correctness *)

(** C13: [balloc] returns the least block whose bit is clear in the free bitmap,
    and panics ("balloc: out of blocks") exactly when every bit of the file
    system is set.  Afterwards the transaction has logged the bitmap block and
    the new block, the bit of the new block is set and no other, the new block
    is zero and every other block is unchanged; all buffers are released. *)
Theorem balloc_correct bl H ds V s d
    (T : ktxn bl H ds V s) (Hbm : bitmap_in (sb s) V d)
    (Hni : H !! BBLOCK 0 (sb s) = None) (Hds : BBLOCK 0 (sb s) ∉ ds)
    (Hroom : Z.of_nat (length bl) + Z.of_nat (size H) + 1 < NBUF) (Hlog : log_room 2 bl)
    (Hfree : forall a, 0 <= a < sb_size (sb s) -> bit_set d a = false ->
       a <> BBLOCK 0 (sb s) /\ H !! a = None /\ a ∉ ds /\ is_Some (V a)) :
  match first_free (sb s) d with
  | Some a => wp (balloc ROOTDEV) s (fun r s' => r = a /\ kframe s s' /\ exists V',
      ktxn (log_add a (log_add (BBLOCK 0 (sb s)) bl)) H ds V' s' /\
      V' a = Some zero_data /\
      (exists d', V' (BBLOCK 0 (sb s)) = Some d' /\ length d' = length d /\
         forall b, 0 <= b -> bit_set d' b = if decide (b = a) then true else bit_set d b) /\
      forall b, b <> a -> b <> BBLOCK 0 (sb s) -> V' b = V b)
  | None => (forall a, 0 <= a < sb_size (sb s) -> bit_set d a = true) /\
      balloc ROOTDEV s = Panic "balloc: out of blocks"
  end.
Proof.
  destruct (first_free (sb s) d) as [a|] eqn:Ha.
  - pose proof Ha as Ha'. apply find_seqZ in Ha' as (Har & Hc%negb_true_iff & _).
    destruct (Hfree a Har Hc) as (Hne & Hna & Hda & HVa).
    eapply balloc_spec; [done..|]. intros s' F T'. split; [done|]. split; [done|].
    eexists. split; [exact T'|]. unfold vset. split; [by rewrite decide_True|]. split.
    + exists (bit_on a d). rewrite decide_False, decide_True by congruence.
      split; [done|]. split; [apply length_bit_on|]. intros b Hb.
      apply bit_set_on; [by apply (bi_len _ _ _ Hbm)| |done].
      pose proof (bi_size _ _ _ Hbm) as [_ Hs]. rewrite LOGICAL_eq in Hs. unfold BPB, BSIZE. lia.
    + intros b H1 H2. by rewrite !decide_False.
  - split; [|eapply balloc_full; [done..| |done]; unfold room; lia].
    intros a Har. apply negb_false_iff. apply (List.find_none _ _ Ha).
    apply list_elem_of_In, elem_of_seqZ. lia.
Qed.

(** The first 59 blocks are in use. *)
Definition w_bitmap : block := replicate 7 255 ++ [7] ++ replicate 1016 0.
Definition w_blocks (b : Z) : block := if b =? 58 then w_bitmap else zero_data.

Lemma w_bitmap_in V : V 58 = Some w_bitmap -> bitmap_in w_sb V w_bitmap.
Proof. intros HV. constructor; [done|exact HV|done|split; [done|discriminate]]. Qed.

Lemma w_first_free : first_free w_sb w_bitmap = Some 59.
Proof. vm_compute. reflexivity. Qed.

Lemma balloc_correct_witness : exists s,
  sb s = w_sb /\ wp (balloc ROOTDEV) s (fun r s' => r = 59 /\ kframe s s').
Proof.
  destruct (open_txn w_blocks w_sb) as (s & T & Hsb & _). exists s. split; [exact Hsb|].
  assert (Hbm : bitmap_in (sb s) (fun b => Some (w_blocks b)) w_bitmap)
    by (rewrite Hsb; by apply w_bitmap_in).
  pose proof (balloc_correct [] ∅ ∅ _ s w_bitmap T Hbm) as Hc.
  rewrite Hsb, w_first_free in Hc.
  eapply wp_mono; [apply Hc|].
  - done.
  - apply not_elem_of_empty.
  - reflexivity.
  - discriminate.
  - intros a Ha Hb. split; [|split; [done|split; [apply not_elem_of_empty|by eexists]]].
    intros ->. vm_compute in Hb. discriminate Hb.
  - cbv beta. intros r s' (-> & F & _). done.
Defined.

(** [bfree] of a block that [balloc] returned, in the same transaction,
    makes the free bitmap what it was: the same bits are set, the least free
    block is the same again, and only the freed block has changed (to zeros).  A
    second [bfree] of the block panics. *)
Theorem balloc_bfree_roundtrip bl H ds V s d a
    (T : ktxn bl H ds V s) (Hbm : bitmap_in (sb s) V d)
    (Hni : H !! BBLOCK 0 (sb s) = None) (Hds : BBLOCK 0 (sb s) ∉ ds)
    (Hroom : Z.of_nat (length bl) + Z.of_nat (size H) + 2 < NBUF) (Hlog : log_room 3 bl)
    (Ha : first_free (sb s) d = Some a) (Hne : a <> BBLOCK 0 (sb s))
    (Hna : H !! a = None) (Hda : a ∉ ds) (HVa : is_Some (V a)) :
  wp (let! b := balloc ROOTDEV in bfree ROOTDEV b ;;; ret b) s (fun r s' =>
    r = a /\ kframe s s' /\ bfree ROOTDEV a s' = Panic "freeing free block" /\
    exists bl' V' d', ktxn bl' H ds V' s' /\ bitmap_in (sb s') V' d' /\
      first_free (sb s') d' = Some a /\
      (forall b, 0 <= b -> bit_set d' b = bit_set d b) /\
      forall b, b <> a -> b <> BBLOCK 0 (sb s) -> V' b = V b).
Proof.
  pose proof Ha as Ha'. apply find_seqZ in Ha' as (Har & Hc%negb_true_iff & Hlow).
  pose proof Hbm as [B1 B2 B3 [B4 B4']]. set (bm := BBLOCK 0 (sb s)) in *.
  assert (Hab : 0 <= a < BPB) by (rewrite LOGICAL_eq in B4'; unfold BPB, BSIZE; lia).
  apply wp_bind. eapply balloc_spec; [exact T|exact Hbm|done|done|lia|unfold log_room in *; lia|exact Ha|done|done|done|].
  fold bm. intros s1 F1 T1. pose proof (kframe_sb _ _ F1) as Es1.
  set (V1 := vset (vset V bm (bit_on a d)) a zero_data) in *.
  assert (HV1 : V1 bm = Some (bit_on a d)).
  { unfold V1, vset. by rewrite decide_False, decide_True by congruence. }
  assert (Hbm1 : bitmap_in (sb s1) V1 (bit_on a d)).
  { rewrite Es1. constructor; [done|done|by rewrite length_bit_on|done]. }
  pose proof (length_log_add bm bl). pose proof (length_log_add a (log_add bm bl)).
  assert (Hr1 : room (log_add a (log_add bm bl)) H) by (unfold room; lia).
  apply wp_bind. eapply bfree_spec; [exact T1|exact Hbm1|by rewrite Es1|by rewrite Es1|done| |done| |].
  { unfold log_room in *; lia. }
  { rewrite bit_set_on by (done || lia). by rewrite decide_True. }
  rewrite Es1. fold bm. intros s2 F2 T2. apply wp_ret. split; [done|].
  pose proof (kframe_sb _ _ F2) as Es2.
  assert (Hbits : forall b, 0 <= b -> bit_set (bit_off a (bit_on a d)) b = bit_set d b).
  { intros b Hb. rewrite bit_set_off, bit_set_on by (try rewrite length_bit_on; done || lia).
    case_decide as E; [by rewrite E|done]. }
  assert (Hbm2 : bitmap_in (sb s2) (vset V1 bm (bit_off a (bit_on a d))) (bit_off a (bit_on a d))).
  { rewrite Es2, Es1. constructor; [done|unfold vset; fold bm; by rewrite decide_True| |done].
    unfold bit_off, set_byte. by rewrite length_insert, length_bit_on. }
  split; [kf|]. split.
  - pose proof (length_log_add bm (log_add a (log_add bm bl))) as Hl3.
    assert (Hin : bm ∈ log_add a (log_add bm bl)) by (rewrite !elem_of_log_add; auto).
    eapply bfree_panics; [exact T2|exact Hbm2|by rewrite Es2, Es1|by rewrite Es2, Es1| |done|].
    + unfold log_add at 1. rewrite decide_True by done. exact Hr1.
    + rewrite Hbits by lia. done.
  - do 3 eexists. split; [exact T2|]. split; [exact Hbm2|]. split; [|split; [exact Hbits|]].
    + rewrite Es2, Es1. rewrite <- Ha. apply find_ext.
      intros b Hb%elem_of_seqZ. by rewrite Hbits by lia.
    + intros b Hb1 Hb2. unfold V1, vset. by rewrite !decide_False.
Qed.

Lemma balloc_bfree_roundtrip_witness : exists s,
  sb s = w_sb /\ wp (let! b := balloc ROOTDEV in bfree ROOTDEV b ;;; ret b) s (fun r s' =>
    r = 59 /\ kframe s s' /\ bfree ROOTDEV 59 s' = Panic "freeing free block").
Proof.
  destruct (open_txn w_blocks w_sb) as (s & T & Hsb & _). exists s. split; [exact Hsb|].
  assert (Hbm : bitmap_in (sb s) (fun b => Some (w_blocks b)) w_bitmap)
    by (rewrite Hsb; by apply w_bitmap_in).
  eapply wp_mono; [apply (balloc_bfree_roundtrip [] ∅ ∅ _ s w_bitmap 59 T Hbm)|].
  - done.
  - apply not_elem_of_empty.
  - reflexivity.
  - discriminate.
  - rewrite Hsb. apply w_first_free.
  - rewrite Hsb. discriminate.
  - done.
  - apply not_elem_of_empty.
  - by eexists.
  - cbv beta. intros r s' (-> & F & P & _). done.
Defined.
