(* ===== verification/Atomic.v ===== *)
(** Transactions of the file system: [begin_op], an operation on the blocks,
    [end_op].  The log of [Log] and the block operations of [Txn] together: a
    crash at any disk write leaves the effects of a prefix of the operations. *)
From S2P Require Import Prelude Bytes Locks Kalloc Vm Bio Log Kernel Fs Txn Blocks.

Definition transaction (op : KM unit) : KM unit :=
  in_lo begin_op ;;;
  op ;;;
  in_lo end_op.

(** ** Between transactions *)

(** No operation is open, the log is empty, disk 0 works and holds [V] outside
    the log. *)
Record ready (sb : superblock) (V : Z -> option block) (s : lstate) : Prop := {
  rd_cache : cache_rel ∅ ∅ (bio s);
  rd_full : disk_full (disk (bio s));
  rd_fail : force_disk_fail_id (bio s) <> 0;
  rd_err : force_read_error_pbn (bio s) = -1;
  rd_sb : log_on_disk sb;
  rd_log : log_ok (lg s);
  rd_start : log_start (lg s) = sb_logstart sb;
  rd_size : log_size (lg s) = LOGSIZE;
  rd_n : lh_n (lg s) = 0;
  rd_lock : log_lock (lg s) = false;
  rd_idle : log_outstanding (lg s) = 0 /\ log_committing (lg s) = false;
  rd_header : exists h, disk (bio s) !! sb_logstart sb = Some h /\ clean_header h;
  rd_home : forall b, home_block (sb_logstart sb) b -> disk (bio s) !! b = V b
}.

(** A transaction was begun and nothing changed yet, or the operation is done. *)
Record opened (sb : superblock) (V : Z -> option block) (s : lstate) : Prop := {
  op_full : disk_full (disk (bio s));
  op_fail : force_disk_fail_id (bio s) <> 0;
  op_err : force_read_error_pbn (bio s) = -1;
  op_sb : log_on_disk sb;
  op_log : log_dev (lg s) = ROOTDEV /\ log_start (lg s) = sb_logstart sb;
  op_count : log_outstanding (lg s) = 1 /\ log_committing (lg s) = false;
  op_header : exists h, disk (bio s) !! sb_logstart sb = Some h /\ clean_header h;
  op_home : forall b, home_block (sb_logstart sb) b -> disk (bio s) !! b = V b
}.

Lemma same_disk_opened sb V s s' : same_disk s s' -> opened sb V s -> opened sb V s'.
Proof.
  intros ((D1 & D2 & D3 & D4 & D5) & L1 & L2 & L3 & L4) [O1 O2 O3 O4 [O5 O5'] [O6 O6'] O7 O8].
  constructor; rewrite ?D1; try congruence; try done; split; congruence.
Qed.

Lemma disk_read_first s b : force_disk_fail_id s <> 0 -> force_read_error_pbn s = -1 ->
  disk_read s b = disk s !! b.
Proof. intros Hf He. unfold disk_read. by rewrite He, read_disk0. Qed.

Lemma view_some s b : is_Some (disk_read s b) -> is_Some (view s b).
Proof.
  intros Hd. unfold view. destruct (List.find _ _) as [i|] eqn:E; [|done].
  apply find_some in E as [_ E]. unfold matches in E. destruct (bufs s !! i); [|done].
  by destruct (b_valid _).
Qed.

Lemma ready_view sb V s b : ready sb V s -> is_block b -> view (bio s) b = disk (bio s) !! b.
Proof.
  intros R Hb. rewrite (law_view ∅ ∅) by (apply R || done).
  apply disk_read_first; apply R.
Qed.

Lemma cache_rel_emit refs hs e s : cache_rel refs hs s -> cache_rel refs hs (emit e s).
Proof. intros [[l B] S]. split; [exists l; by destruct B|by destruct S]. Qed.

Definition opened_log (L : log) : log := set_outstanding 1 L.

Lemma begin_op_ready sb V s : ready sb V s ->
  begin_op s = Ret tt (set_lg (opened_log (lg s)) s).
Proof.
  intros R. destruct (rd_idle _ _ _ R) as [H1 H2]. pose proof (rd_lock _ _ _ R) as H3.
  pose proof (rd_n _ _ _ R) as H4. unfold begin_op, spin_acquire, spin_release, in_log, bind, gets, modify.
  destruct s as [c L]; destruct L; cbn in *; subst. reflexivity.
Qed.

Lemma begin_opened sb V s : ready sb V s -> let s' := set_lg (opened_log (lg s)) s in
  opened sb V s' /\ txn [] ∅ ∅ (view (bio s)) s'.
Proof.
  intros R. destruct (R) as [R1 R2 R3 R4 R5 [R6 R6' R6''] R7 R8 R9 R10 [R11 R11'] R12 R13].
  destruct s as [c L]; destruct L; cbn in *; subst. split; [by constructor|].
  constructor; cbn; try done; try (by constructor).
  - exists ∅. split; [done|]. by rewrite dom_empty_L.
  - intros x Hx _ _. symmetry. by apply (law_view ∅ ∅).
  - intros x Hx. by apply not_elem_of_nil in Hx.
Qed.

(** ** The end of an operation *)

(** The operation released its buffers, logged what it changed, and logged
    [MAXOPBLOCKS] blocks at most, outside the log. *)
Record closable (sb : superblock) (bl : list Z) (V : Z -> option block) (s : lstate) : Prop := {
  cl_txn : txn bl ∅ ∅ V s;
  cl_home : forall b, b ∈ bl -> home_block (sb_logstart sb) b;
  cl_few : Z.of_nat (length bl) <= MAXOPBLOCKS
}.

Section closing.
Context {sb : superblock} {bl : list Z} {V0 V : Z -> option block} {s : lstate}.
Hypotheses (O : opened sb V0 s) (C : closable sb bl V s).

Lemma closing_disk b : is_block b -> is_Some (disk (bio s) !! b).
Proof. intros Hb. apply (op_full _ _ _ O). unfold is_block in Hb. rewrite DISK1_eq. lia. Qed.

Lemma closing_read b : disk_read (bio s) b = disk (bio s) !! b.
Proof. apply disk_read_first; apply O. Qed.

Lemma closing_other b : is_block b -> b ∉ bl -> V b = disk (bio s) !! b.
Proof.
  intros Hb Hni. rewrite <- closing_read. symmetry. apply (tn_clean _ _ _ _ _ (cl_txn _ _ _ _ C)); set_solver.
Qed.

Lemma closing_some b : is_block b -> is_Some (V b).
Proof.
  intros Hb. rewrite <- (tn_view _ _ _ _ _ (cl_txn _ _ _ _ C)) by done. apply view_some.
  rewrite closing_read. by apply closing_disk.
Qed.

Lemma closing_region b : log_region (sb_logstart sb) b -> is_block b /\ b ∉ bl.
Proof.
  intros Hb. destruct (op_sb _ _ _ O) as [H1 H2]. split.
  - unfold log_region, is_block, LOGBLOCKS in *. lia.
  - intros Hin. by destruct (cl_home _ _ _ _ C b Hin).
Qed.

(** The contents to commit. *)
Definition new_data : list block := (fun b => default [] (V b)) <$> bl.

Lemma closing_pre : exists refs h, cache_rel refs ∅ (bio s) /\
  (forall b, refs !! b = if decide (b ∈ bl) then Some 1 else None) /\
  clean_header h /\ commit_pre refs (view (bio s)) (lg s) bl new_data h.
Proof.
  destruct (cl_txn _ _ _ _ C) as [(refs & Hr & Hc) T2 T3 T4 T5 T6 T7 T8 T9 T10 T11 T12].
  destruct (op_header _ _ _ O) as (h & Hh & Hcl). destruct (op_log _ _ _ O) as [L1 L2].
  destruct (op_sb _ _ _ O) as [S1 S2].
  assert (Hr' : forall b, refs !! b = if decide (b ∈ bl) then Some 1 else None).
  { intros b. rewrite Hr. unfold txn_ref. case_decide; by rewrite lookup_empty. }
  exists refs, h. rewrite dom_empty_L in Hc. split; [done|]. split; [done|]. split; [done|].
  assert (Hsz : Z.of_nat (size refs) <= Z.of_nat (length bl)).
  { pose proof (size_refs bl ∅ V refs Hr T11) as H0. rewrite map_size_empty in H0. lia. }
  pose proof (cl_few _ _ _ _ C) as Hfew.
  assert (Hv : forall b, log_region (sb_logstart sb) b -> view (bio s) b = disk (bio s) !! b).
  { intros b Hb. apply closing_region in Hb as [Hb Hni]. rewrite T2 by done. by apply closing_other. }
  constructor; try (rewrite L2).
  - constructor; try done.
    + constructor; [done|by rewrite L2|done].
    + unfold new_data. by rewrite length_fmap.
    + intros i b Hi. rewrite <- T6 in Hi. apply lookup_take_Some in Hi. apply Hi.
    + rewrite L2. apply (cl_home _ _ _ _ C).
    + unfold LOGBLOCKS, LOGSIZE, MAXOPBLOCKS in *. lia.
  - intros b Hb. rewrite Hr'. by rewrite decide_True.
  - intros b. rewrite Hr'. by case_decide.
  - intros b Hb. rewrite Hr', decide_False; [done|]. by apply closing_region.
  - unfold MAXOPBLOCKS, NBUF in *. lia.
  - intros k Hk. rewrite Hv by by apply region_block. apply closing_disk.
    by apply closing_region, region_block.
  - rewrite Hv; [done|]. unfold log_region, LOGBLOCKS, LOGSIZE, MAXOPBLOCKS. lia.
  - intros i b d Hb Hd. unfold new_data in Hd. rewrite list_lookup_fmap, Hb in Hd.
    injection Hd as <-. apply list_elem_of_lookup_2 in Hb. rewrite T2 by by apply T12.
    destruct (closing_some b) as [d Hd]; [by apply T12|]. by rewrite Hd.
Qed.

(** The log header after a commit. *)
Lemma commit_clears f h ds D : f <> 0 -> clean_header h -> length ds = length bl ->
  (forall b, b ∈ bl -> home_block (sb_logstart sb) b) -> Z.of_nat (length bl) < NBUF ->
  exists h', apply_writes (commit_writes f (-1) (sb_logstart sb) bl ds h) D !! sb_logstart sb = Some h' /\
    clean_header h'.
Proof.
  intros Hf [Hl Hn] Hlen Hhome Hlt. destruct (op_sb _ _ _ O) as [S1 S2].
  rewrite (commit_writes_steps (sb_logstart sb) bl ds h f).
  assert (H4 : (4 + 4 * length bl <= length h)%nat) by (rewrite Hl; unfold BSIZE, NBUF in *; lia).
  set (ps := commit_steps _ _ _ _).
  assert (Hps : forall p, p ∈ ps -> 0 <= p.1 < LOGICAL_DISK_SIZE).
  { by apply commit_steps_logical. }
  destruct (crash_prefix f ps (length (mirrored f (-1) ps)) D Hf Hps) as (j & _ & Hv & Hend).
  rewrite take_ge in Hv by done. rewrite Hv by (unfold LOGSIZE, MAXOPBLOCKS in S2; lia).
  rewrite (Hend ltac:(done)), take_ge by done. unfold ps, commit_steps.
  rewrite !vapply_app. cbn [vapply fold_left]. fold (vapply (zip bl ds ++ [(sb_logstart sb, header [] (header bl h))])).
  rewrite vapply_app. cbn [vapply fold_left]. unfold vset at 1. cbn [fst snd]. rewrite decide_True by done.
  exists (header [] (header bl h)). split; [done|].
  pose proof (length_header bl h H4) as Hlh. split.
  - rewrite length_header by (rewrite Hlh; simpl; lia). congruence.
  - apply (header_n_header []); [rewrite Hlh; simpl; lia|done].
Qed.
End closing.

Lemma commit_pre_log refs V L L' bl ds h :
  log_dev L' = log_dev L -> log_start L' = log_start L -> lh_n L' = lh_n L ->
  lh_block L' = lh_block L -> commit_pre refs V L bl ds h -> commit_pre refs V L' bl ds h.
Proof.
  intros E1 E2 E3 E4 [[[H1 H2 H3] H4 H5 H6 H7 H8 H9] H10 H11 H12 H13 H14 H15 H16].
  constructor; rewrite ?E2; try done.
  constructor; rewrite ?E2, ?E3, ?E4; try done. constructor; by rewrite ?E1, ?E2, ?E4.
Qed.

Lemma unrefs_pinned bl (refs : gmap Z Z) : NoDup bl ->
  (forall b, refs !! b = if decide (b ∈ bl) then Some 1 else None) -> unrefs bl refs = ∅.
Proof.
  revert refs. induction bl as [|b bl IH]; intros refs Hnd Hr; simpl.
  { apply map_eq. intros b. by rewrite Hr. }
  apply list.NoDup_cons in Hnd as [Hni Hnd]. apply IH; [done|]. intros b'.
  destruct (decide (b = b')) as [<-|Hne].
  - unfold unref, refs_of. rewrite Hr, decide_True by apply list_elem_of_here. simpl.
    by rewrite lookup_delete_eq, decide_False.
  - rewrite refs_of_unref_ne, Hr by done. apply decide_ext. set_solver.
Qed.

(** The cache and the disk after a transaction, with the log empty. *)
Record closed (sb : superblock) (V : Z -> option block) (s s' : bstate)
    (W : list (Z * block)) : Prop := {
  cd_cache : cache_rel ∅ ∅ s';
  cd_disk : disk s' = apply_writes W (disk s);
  cd_writes : writes s' = reverse W ++ writes s;
  cd_fail : force_disk_fail_id s' = force_disk_fail_id s;
  cd_err : force_read_error_pbn s' = force_read_error_pbn s;
  cd_pid : cur_pid s' = cur_pid s;
  cd_header : exists h, disk s' !! sb_logstart sb = Some h /\ clean_header h;
  cd_home : forall b, home_block (sb_logstart sb) b -> disk s' !! b = V b
}.

Section closing.
Context {sb : superblock} {bl : list Z} {V0 V : Z -> option block} {s : lstate}.
Hypotheses (O : opened sb V0 s) (C : closable sb bl V s).

(** A crash after [k] of the writes [W] leaves all of the transaction or nothing. *)
Definition crashes (W : list (Z * block)) : Prop := forall k, exists m : bool,
  ((length W <= k)%nat -> m = true) /\
  recovers sb (apply_writes (take k W) (disk (bio s))) (if m then V else V0).

Lemma recovers_ext dk g g' :
  (forall b, home_block (sb_logstart sb) b -> g b = g' b) -> recovers sb dk g -> recovers sb dk g'.
Proof.
  intros Hg Hr pid. eapply wp_mono; [apply Hr|]. intros [] s' Hv b Hb. rewrite Hv by done. auto.
Qed.

Lemma commit_closing L : log_dev L = log_dev (lg s) -> log_start L = log_start (lg s) ->
  lh_n L = lh_n (lg s) -> lh_block L = lh_block (lg s) ->
  wp commit (set_lg L s) (fun _ s1 => lg s1 = set_lh_n 0 L /\
    exists W, closed sb V (bio s) (bio s1) W /\ crashes W).
Proof.
  intros E1 E2 E3 E4. destruct (closing_pre O C) as (refs & h & Hc & Hr & Hh & Hpre).
  pose proof Hpre as Hpre'. eapply (commit_pre_log _ _ _ L) in Hpre'; try done.
  destruct (op_log _ _ _ O) as [L1 L2].
  assert (Hfew : Z.of_nat (length bl) < NBUF)
    by (pose proof (cl_few _ _ _ _ C); unfold MAXOPBLOCKS, NBUF in *; lia).
  destruct (decide (bl = [])) as [->|Hne].
  - assert (Hn : lh_n L = 0) by (rewrite E3; apply (tn_n _ _ _ _ _ (cl_txn _ _ _ _ C))).
    unfold commit, getl. apply wp_bind, wp_gets. cbn [lg set_lg]. rewrite Hn. apply wp_ret.
    split; [destruct L; cbn in Hn |- *; by rewrite Hn|].
    assert (Hd : forall b, home_block (sb_logstart sb) b -> disk (bio s) !! b = V b).
    { intros b [Hb Hb']. symmetry. apply (closing_other O C); [done|apply not_elem_of_nil]. }
    assert (Er : refs = ∅) by (apply map_eq; intros b; by rewrite Hr).
    exists []. split.
    + constructor; try done; [by rewrite <- Er|apply (op_header _ _ _ O)].
    + intros k. exists true. split; [done|]. rewrite take_nil.
      destruct (op_header _ _ _ O) as (h' & Hh' & _ & Hn').
      apply (recovers_txn sb _ h' [] []); [apply O|apply O|done|by apply no_txn|done].
  - eapply wp_mono; [apply (commit_atomic refs (set_lg L s) bl (new_data (bl := bl) (V := V)) h sb Hc);
      try apply O; try done; cbn [lg set_lg]; congruence|].
    intros [] s1 [(V' & [Hl El] & HV') Hk]. split; [done|].
    eexists. split.
    + pose proof (commit_clears O _ h (new_data (bl := bl) (V := V)) (disk (bio s))
        (op_fail _ _ _ O) Hh (length_fmap _ _) (cl_home _ _ _ _ C) Hfew) as Hhd.
      destruct Hl as [R1 R2 R3 R4 R5 R6 R7].
      rewrite (unrefs_pinned bl refs (tn_nodup _ _ _ _ _ (cl_txn _ _ _ _ C)) Hr) in R1.
      cbn [bio set_lg] in *. constructor; try done.
      * by rewrite R3, (op_err _ _ _ O).
      * by rewrite R5.
      * intros b Hb. rewrite <- (tn_view _ _ _ _ _ (cl_txn _ _ _ _ C)) by apply Hb.
        rewrite <- HV', <- R7 by (done || apply Hb). rewrite (law_view ∅ ∅) by (done || apply Hb).
        symmetry. apply disk_read_first; [by rewrite R2; apply O|done].
    + intros k. destruct (Hk k) as (m & Hm & Hrec). exists m. split; [done|].
      eapply recovers_ext; [|exact Hrec]. intros b Hb. cbn [bio set_lg].
      rewrite (tn_view _ _ _ _ _ (cl_txn _ _ _ _ C)) by apply Hb.
      destruct m.
      * rewrite <- (if_committed b bl). destruct (decide (b ∈ bl)) as [Hin|Hin]; [reflexivity|].
        symmetry. apply (closing_other O C); [apply Hb|assumption].
      * rewrite decide_False by (intros [Hx _]; discriminate Hx). by apply (op_home _ _ _ O).
Qed.

Lemma wp_log_acquire l (Q : unit -> lstate -> Prop) :
  log_lock (lg l) = false -> Q tt (set_lg (set_log_lock true (lg l)) l) ->
  wp (spin_acquire log_spin) l Q.
Proof.
  intros Hl HQ. unfold spin_acquire. apply wp_bind, wp_gets. cbn [lget log_spin]. rewrite Hl.
  by apply wp_modify.
Qed.

Lemma wp_log_release l (Q : unit -> lstate -> Prop) :
  log_lock (lg l) = true -> Q tt (set_lg (set_log_lock false (lg l)) l) ->
  wp (spin_release log_spin) l Q.
Proof.
  intros Hl HQ. unfold spin_release. apply wp_bind, wp_gets. cbn [lget log_spin]. rewrite Hl.
  by apply wp_modify.
Qed.

Lemma end_op_closing : wp end_op s (fun _ s1 => exists W,
  ready sb V s1 /\ disk (bio s1) = apply_writes W (disk (bio s)) /\
  writes (bio s1) = reverse W ++ writes (bio s) /\ cur_pid (bio s1) = cur_pid (bio s) /\ crashes W).
Proof.
  destruct (op_count _ _ _ O) as [O1 O2]. destruct (op_log _ _ _ O) as [L1 L2].
  pose proof (cl_txn _ _ _ _ C) as T.
  unfold end_op. apply wp_bind, wp_log_acquire; [apply T|]. apply wp_bind, wp_gets.
  cbn [lg set_lg set_log_lock log_outstanding log_committing]. rewrite O1, O2.
  apply wp_bind, wp_modify. change (1 - 1 =? 0) with true. cbv zeta. cbn [when].
  apply wp_bind, wp_modify. apply wp_bind, wp_log_release; [done|]. apply wp_bind.
  set (s0 := set_lg _ _). replace s0 with (set_lg (lg s0) s) by (by destruct s).
  eapply wp_mono; [apply (commit_closing (lg s0)); by destruct s as [c []]|].
  intros [] s1 [E (W & [D1 D2 D3 D4 D5 D6 D7 D8] & HW)].
  destruct s1 as [c L]. cbn [bio lg] in *. subst L.
  apply wp_bind, wp_log_acquire; [done|]. apply wp_bind, wp_modify.
  apply wp_bind, wp_in_bio, wp_modify. apply wp_log_release; [done|].
  exists W. split; [|by split_and!]. constructor; cbn; try done.
  - by apply cache_rel_emit.
  - rewrite D2. intros b Hb. by apply apply_writes_some, (op_full _ _ _ O).
  - rewrite D4. apply O.
  - rewrite D5. apply O.
  - apply O.
  - destruct (op_sb _ _ _ O) as [S1 S2]. constructor; cbn; [done|by rewrite L2|apply T].
  - apply T.
Qed.
End closing.

(** ** Transactions in the kernel *)

(** The log, the cache and the disk changed, and sleepers were woken. *)
Definition lframe (s s' : kstate) : Prop := exists chans l,
  s' = deliver chans (set_lo l s) /\ cur_pid (bio l) = cur_pid (bio (lo s)).

Lemma kframe_lframe s s' : kframe s s' -> lframe s s'.
Proof. intros (c & l & -> & (_ & _ & _ & Hp & _) & _). by exists c, l. Qed.

Lemma wp_run_lo {A} (m : M lstate A) s (Q : A -> kstate -> Prop) :
  wp m (lo s) (fun a l => forall s', lo s' = l ->
    (cur_pid (bio l) = cur_pid (bio (lo s)) -> lframe s s') -> Q a s') -> wp (in_lo m) s Q.
Proof.
  unfold wp, in_lo. destruct (m (lo s)) as [a l|msg|l|]; try done. intros HQ. apply HQ; [done|].
  intros Hp. by eexists _, l.
Qed.

(** A condition on the blocks outside the log and on the rest of the kernel. *)
Definition stable (sb : superblock) (P : (Z -> option block) -> kstate -> Prop) : Prop :=
  forall V V' s s', (forall b, home_block (sb_logstart sb) b -> V b = V' b) ->
    lframe s s' -> P V s -> P V' s'.

(** [op] may run inside a transaction: from [P] it leads to [Q]. *)
Record txn_op (sb : superblock) (P : (Z -> option block) -> kstate -> Prop) (op : KM unit)
    (Q : (Z -> option block) -> kstate -> Prop) : Prop := {
  to_pre : stable sb P;
  to_post : stable sb Q;
  to_run : forall V s, ktxn [] ∅ ∅ V s -> P V s -> wp op s (fun _ s' =>
    same_disk (lo s) (lo s') /\ exists bl V', closable sb bl V' (lo s') /\ Q V' s')
}.

Inductive op_seq (sb : superblock) : ((Z -> option block) -> kstate -> Prop) ->
    list (KM unit) -> ((Z -> option block) -> kstate -> Prop) -> Prop :=
  | SeqNil P : op_seq sb P [] P
  | SeqCons P op Q ops R : txn_op sb P op Q -> op_seq sb Q ops R -> op_seq sb P (op :: ops) R.

Lemma transaction_spec sb P op Q V s :
  txn_op sb P op Q -> ready sb V (lo s) -> P V s ->
  wp (transaction op) s (fun _ s' => exists W V',
    ready sb V' (lo s') /\ Q V' s' /\
    disk (bio (lo s')) = apply_writes W (disk (bio (lo s))) /\
    writes (bio (lo s')) = reverse W ++ writes (bio (lo s)) /\
    crashes (sb := sb) (V0 := V) (V := V') (s := lo s) W).
Proof.
  intros [SP SQ Hop] R HP. destruct (begin_opened _ _ _ R) as [O T].
  unfold transaction. apply wp_bind, wp_run_lo. eapply wp_eq; [by apply (begin_op_ready sb V)|].
  intros s1 E1 F1. specialize (F1 ltac:(by destruct (lo s))). apply wp_bind.
  eapply wp_mono; [apply (Hop (view (bio (lo s))))|].
  - unfold ktxn. by rewrite E1.
  - eapply SP; [|exact F1|exact HP]. intros b Hb. symmetry.
    rewrite (ready_view _ _ _ _ R) by apply Hb. by apply R.
  - intros [] s2 (D2 & bl & V' & C & HQ). rewrite E1 in D2.
    pose proof (same_disk_opened _ _ _ _ D2 O) as O2. destruct D2 as [(D1 & D2 & D3 & D4 & D5) _].
    apply wp_run_lo. eapply wp_mono; [exact (end_op_closing O2 C)|].
    intros [] l (W & R' & Hd & Hw & Hpid & Hcr) s3 E3 F3. exists W, V'. rewrite E3.
    specialize (F3 Hpid). unfold crashes in Hcr. rewrite Hd, Hw. rewrite D1 in *. rewrite D5.
    cbn [bio set_lg] in *. split; [exact R'|]. split; [|done].
    by eapply SQ; [reflexivity| |].
Qed.

(** A crash of the run of [ops] from [s] after [k] of the writes [Ws]: it leaves
    the file system after the first [m] operations, and these include each
    operation whose writes are done. *)
Definition prefix_crash (sb : superblock) (ops : list (KM unit)) (Ws : list (list (Z * block)))
    (s : kstate) : Prop := forall k, exists m s', (m <= length ops)%nat /\
  for_all (take m ops) transaction s = Ret tt s' /\
  (forall j, (j <= length ops)%nat -> (length (concat (take j Ws)) <= k)%nat -> (j <= m)%nat) /\
  recovers sb (apply_writes (take k (concat Ws)) (disk (bio (lo s)))) (view (bio (lo s'))).

Lemma prefix_crash_cons sb op ops W Ws V s s1 :
  ready sb V (lo s) -> (exists V', ready sb V' (lo s1) /\
    crashes (sb := sb) (V0 := V) (V := V') (s := lo s) W) ->
  transaction op s = Ret tt s1 -> disk (bio (lo s1)) = apply_writes W (disk (bio (lo s))) ->
  prefix_crash sb ops Ws s1 -> prefix_crash sb (op :: ops) (W :: Ws) s.
Proof.
  intros R (V' & R' & Hcr) E Hd IH k. cbn [concat].
  destruct (decide (length W <= k)%nat) as [Hk|Hk].
  - destruct (IH (k - length W)%nat) as (m & s' & Hm & Es & Hj & Hrec).
    exists (S m), s'. split; [simpl; lia|]. split.
    { cbn [take for_all]. unfold bind. by rewrite E. }
    split.
    + intros [|j] Hjl Hjk; [lia|]. cbn [take concat length] in *. rewrite length_app in Hjk.
      specialize (Hj j ltac:(lia) ltac:(lia)). lia.
    + rewrite take_app_ge, apply_writes_app, <- Hd by done. exact Hrec.
  - destruct (Hcr k) as (m & _ & Hrec).
    assert (Hnj : forall j, (length (concat (take j (W :: Ws))) <= k)%nat -> j = 0%nat).
    { intros [|j] Hj; [done|]. cbn [take concat] in Hj. rewrite length_app in Hj. lia. }
    exists (if m then 1%nat else 0%nat), (if m then s1 else s). split; [destruct m; simpl; lia|].
    split; [destruct m; [|done]; cbn [take for_all]; unfold bind; by rewrite E|].
    split; [intros j _ Hj; apply Hnj in Hj; lia|].
    rewrite take_app_le by lia. eapply recovers_ext; [|exact Hrec].
    intros b Hb. destruct m; symmetry.
    + rewrite (ready_view _ _ _ _ R') by apply Hb. by apply R'.
    + rewrite (ready_view _ _ _ _ R) by apply Hb. by apply R.
Qed.

(** C1: Crash safety of the file system.  Run any sequence of operations, each one
    between [begin_op] and [end_op]; each operation changes blocks through
    [bread], [log_write] and [brelse], logs at most [MAXOPBLOCKS] blocks outside
    the log and releases its buffers.  The run completes.  Stop the machine
    after any number [k] of the disk writes of the run and reboot: after
    recovery every block outside the log holds what the file system showed
    after the first [m] operations, for some [m], and [m] counts every operation
    whose disk writes were all done (durability). *)
Theorem transactions_crash_safe sb P ops Q V s (Hops : op_seq sb P ops Q)
    (R : ready sb V (lo s)) (HP : P V s) :
  wp (for_all ops transaction) s (fun _ s' => exists Ws V',
    length Ws = length ops /\ ready sb V' (lo s') /\ Q V' s' /\
    writes (bio (lo s')) = reverse (concat Ws) ++ writes (bio (lo s)) /\
    disk (bio (lo s')) = apply_writes (concat Ws) (disk (bio (lo s))) /\
    prefix_crash sb ops Ws s).
Proof.
  revert V s R HP. induction Hops as [P|P op Q ops R' Hop Hops IH]; intros V s R HP.
  { apply wp_ret. exists [], V. split_and!; try done. intros k. exists 0%nat, s. cbn [take concat for_all].
    split; [done|]. split; [done|]. split; [by intros j|]. rewrite take_nil.
    destruct (rd_header _ _ _ R) as (h & Hh & _ & Hn).
    apply (recovers_txn sb _ h [] []); try apply R; [done|by apply no_txn|].
    intros b Hb. symmetry. apply (ready_view _ _ _ _ R). apply Hb. }
  cbn [for_all]. apply wp_bind.
  destruct (wp_inv _ _ _ (transaction_spec _ _ _ _ _ _ Hop R HP)) as
    ([] & s1 & E & W & V1 & R1 & HQ & Hd & Hw & Hcr).
  eapply wp_eq; [exact E|]. eapply wp_mono; [by apply (IH V1 s1)|].
  intros [] s2 (Ws & V2 & L & R2 & HR & Hw2 & Hd2 & Hpre). exists (W :: Ws), V2.
  cbn [length concat]. split; [by rewrite L|]. split; [exact R2|]. split; [exact HR|].
  split; [by rewrite Hw2, Hw, reverse_app, (assoc_L (++))|].
  split; [by rewrite Hd2, Hd, apply_writes_app|].
  eapply prefix_crash_cons; [exact R|by exists V1|exact E|exact Hd|exact Hpre].
Qed.

(** ** Two transactions: a block is allocated and freed *)

(** After boot, with [g] on the disk, no operation is open. *)
Lemma ready_boot (g : Z -> block) (x : superblock) :
  log_on_disk x -> clean_header (g (sb_logstart x)) ->
  exists s, ready x (fun b => Some (g b)) (lo s) /\ sb s = x.
Proof.
  intros Hx Hh. destruct (full_disk g) as [dk Hdk].
  destruct (wp_inv _ _ _ (law_binit dk 5 _ eq_refl)) as ([] & b & _ & Hc & Hd & Hf & He & _).
  assert (Hg : forall c, is_block c -> disk b !! c = Some (g c)).
  { intros c Hb. rewrite Hd. apply Hdk. unfold is_block in Hb. rewrite DISK1_eq. lia. }
  set (L := Log false (sb_logstart x) LOGSIZE 0 false ROOTDEV 0 (replicate (Z.to_nat LOGSIZE) 0)).
  exists (set_lo (LState b L) (set_sb x (kernel_boot dk small_boot 5))). split; [|reflexivity].
  destruct Hx as [X1 X2]. constructor; cbn [lo bio lg set_lo set_sb]; try reflexivity.
  - exact Hc.
  - rewrite Hd. intros c Hcr. eexists. by apply Hdk.
  - by rewrite Hf.
  - exact He.
  - by split.
  - constructor; [reflexivity|by split|reflexivity].
  - split; reflexivity.
  - exists (g (sb_logstart x)). split; [|exact Hh].
    apply Hg. unfold is_block, LOGSIZE, MAXOPBLOCKS in *. lia.
  - intros c [Hcb _]. by apply Hg.
Qed.

Lemma ktxn_closable sb bl V s : ktxn bl ∅ ∅ V s ->
  Forall (home_block (sb_logstart sb)) bl -> Z.of_nat (length bl) <= MAXOPBLOCKS ->
  closable sb bl V (lo s).
Proof. intros T Hb Hn. constructor; [exact T|by apply list.Forall_forall|exact Hn]. Qed.

Lemma w_home b : 31 < b < 1000 -> home_block (sb_logstart w_sb) b.
Proof.
  intros Hb. split; [rewrite LOGICAL_eq; lia|]. unfold log_region, LOGBLOCKS, LOGSIZE, MAXOPBLOCKS.
  simpl. lia.
Qed.

(** The free bitmap holds [d]. *)
Definition w_has (d : block) (V : Z -> option block) (s : kstate) : Prop :=
  sb s = w_sb /\ V 58 = Some d /\ is_Some (V 59).

Lemma w_has_stable d : stable w_sb (w_has d).
Proof.
  intros V V' s s' HV (c & l & -> & _) (H1 & H2 & H3).
  split; [exact H1|]. rewrite <- !HV by (apply w_home; lia). by split.
Qed.

Lemma w_balloc : txn_op w_sb (w_has w_bitmap) (balloc ROOTDEV ;;; ret tt)
  (w_has (bit_on 59 w_bitmap)).
Proof.
  split; [apply w_has_stable|apply w_has_stable|]. intros V s T (Hsb & HV & H59).
  apply wp_bind. eapply (balloc_spec s w_bitmap 59); rewrite ?Hsb; try exact T; try reflexivity.
  - by apply w_bitmap_in.
  - apply not_elem_of_empty.
  - discriminate.
  - apply not_elem_of_empty.
  - exact H59.
  - intros s' (c & l & -> & D) T'. apply wp_ret. split; [exact D|].
    eexists _, _. split; [eapply ktxn_closable; [exact T'| |discriminate]|].
    + assert (E : log_add 59 (log_add (BBLOCK 0 w_sb) []) = [58; 59]) by reflexivity.
      rewrite E. apply Forall_cons_2; [apply w_home; lia|]. apply Forall_singleton, w_home. lia.
    + split; [exact Hsb|]. split; [reflexivity|eexists; reflexivity].
Qed.

Lemma w_bfree : txn_op w_sb (w_has (bit_on 59 w_bitmap)) (bfree ROOTDEV 59)
  (w_has (bit_off 59 (bit_on 59 w_bitmap))).
Proof.
  split; [apply w_has_stable|apply w_has_stable|]. intros V s T (Hsb & HV & H59).
  eapply (bfree_spec s (bit_on 59 w_bitmap)); rewrite ?Hsb; try exact T; try reflexivity.
  - constructor; [by split|exact HV|reflexivity|split; [reflexivity|discriminate]].
  - apply not_elem_of_empty.
  - discriminate.
  - split; [discriminate|reflexivity].
  - intros s' (c & l & -> & D) T'. split; [exact D|].
    eexists _, _. split; [eapply ktxn_closable; [exact T'| |discriminate]|].
    + assert (E : log_add (BBLOCK 0 w_sb) [] = [58]) by reflexivity.
      rewrite E. apply Forall_singleton, w_home. lia.
    + split; [exact Hsb|]. split; [reflexivity|exact H59].
Qed.

Lemma transactions_crash_safe_witness : exists s,
  ready w_sb (fun b => Some (w_blocks b)) (lo s) /\
  wp (for_all [balloc ROOTDEV ;;; ret tt; bfree ROOTDEV 59] transaction) s (fun _ s' =>
    exists Ws V', length Ws = 2%nat /\ w_has (bit_off 59 (bit_on 59 w_bitmap)) V' s' /\
      prefix_crash w_sb [balloc ROOTDEV ;;; ret tt; bfree ROOTDEV 59] Ws s).
Proof.
  destruct (ready_boot w_blocks w_sb) as (s & R & Hsb).
  { split; [discriminate|reflexivity]. }
  { split; reflexivity. }
  exists s. split; [exact R|]. eapply wp_mono.
  { apply (transactions_crash_safe w_sb (w_has w_bitmap) [balloc ROOTDEV ;;; ret tt; bfree ROOTDEV 59]
      (w_has (bit_off 59 (bit_on 59 w_bitmap))) (fun b => Some (w_blocks b)) s).
    - eapply SeqCons; [exact w_balloc|]. eapply SeqCons; [exact w_bfree|]. apply SeqNil.
    - exact R.
    - split; [exact Hsb|]. split; [reflexivity|eexists; reflexivity]. }
  cbv beta. intros _ s' (Ws & V' & H1 & _ & H2 & _ & _ & H3). by exists Ws, V'.
Defined.
