(* ===== verification/Files.v ===== *)
(** Inodes and their content, fs.c: the inode codec, [iupdate] and [ilock],
    [readi] as a read of the file's bytes, [dirlookup] as a search of the
    directory's entries. *)
From S2P Require Import Prelude CString Bytes Locks Kalloc Vm Bio Log Kernel Fs Txn Blocks.

(** ** The codec of inodes *)

Record dinode_ok (d : dinode) : Prop := {
  do_type : - 2 ^ 15 <= d_type d < 2 ^ 15;
  do_major : - 2 ^ 15 <= d_major d < 2 ^ 15;
  do_minor : - 2 ^ 15 <= d_minor d < 2 ^ 15;
  do_nlink : - 2 ^ 15 <= d_nlink d < 2 ^ 15;
  do_size : 0 <= d_size d < 2 ^ 32;
  do_len : length (d_addrs d) = Z.to_nat (NDIRECT + 1);
  do_addrs : Forall (fun a => 0 <= a < 2 ^ 32) (d_addrs d)
}.

Lemma s16_u16 x : - 2 ^ 15 <= x < 2 ^ 15 -> s16 (u16 x) = x.
Proof. intros H. unfold s16, u16. rewrite Z.add_mod_idemp_l by lia. by apply s16_small. Qed.

(** [put_addrs] writes the words from [off] on and nothing else. *)
Lemma length_put_addrs l off addrs :
  (off + 4 * length addrs <= length l)%nat -> length (put_addrs l off addrs) = length l.
Proof.
  revert l off. induction addrs as [|a addrs IH]; intros l off Hl; [done|]. cbn [put_addrs length] in *.
  rewrite IH; unfold put32; rewrite length_put_le; lia.
Qed.

Lemma get_put_addrs_ne n l off addrs o :
  (off + 4 * length addrs <= length l)%nat ->
  (o + n <= off)%nat \/ (off + 4 * length addrs <= o)%nat ->
  get_le n (put_addrs l off addrs) o = get_le n l o.
Proof.
  revert l off. induction addrs as [|a addrs IH]; intros l off Hl Ho; [done|].
  cbn [put_addrs length] in *. rewrite IH.
  - unfold put32. apply get_put_le_ne; lia.
  - unfold put32. rewrite length_put_le; lia.
  - lia.
Qed.

Lemma get_put_addrs l off addrs i a :
  (off + 4 * length addrs <= length l)%nat -> addrs !! i = Some a ->
  get32 (put_addrs l off addrs) (off + 4 * i) = u32 a.
Proof.
  revert l off i. induction addrs as [|b addrs IH]; intros l off i Hl Hi; [done|].
  cbn [put_addrs length] in *. destruct i as [|i].
  - injection Hi as ->. rewrite Nat.mul_0_r, Nat.add_0_r. unfold get32 at 1.
    rewrite get_put_addrs_ne; [apply get32_put32; lia| |lia].
    unfold put32. rewrite length_put_le; lia.
  - replace (off + 4 * S i)%nat with (off + 4 + 4 * i)%nat by lia. apply IH; [|done].
    unfold put32. rewrite length_put_le; lia.
Qed.

Definition dinode_size : nat := 64.

Ltac put_len := unfold put16, put32 in *; repeat rewrite length_put_le by put_len; lia.

(** The block after each of the fixed fields was written. *)
Lemma put_dinode_steps l off d : (off + dinode_size <= length l)%nat ->
  exists l1 l2 l3 l4 l5, l1 = put16 l off (d_type d) /\ l2 = put16 l1 (off + 2) (d_major d) /\
    l3 = put16 l2 (off + 4) (d_minor d) /\ l4 = put16 l3 (off + 6) (d_nlink d) /\
    l5 = put32 l4 (off + 8) (d_size d) /\ put_dinode l off d = put_addrs l5 (off + 12) (d_addrs d) /\
    length l1 = length l /\ length l2 = length l /\ length l3 = length l /\
    length l4 = length l /\ length l5 = length l.
Proof.
  unfold dinode_size. intros Hl. do 5 eexists. do 6 (split; [reflexivity|]).
  split_and!; put_len.
Qed.

Lemma length_put_dinode l off d :
  length (d_addrs d) = Z.to_nat (NDIRECT + 1) -> (off + dinode_size <= length l)%nat ->
  length (put_dinode l off d) = length l.
Proof.
  intros Ha Hl. change (Z.to_nat (NDIRECT + 1)) with 13%nat in Ha. 
  destruct (put_dinode_steps l off d Hl) as (l1 & l2 & l3 & l4 & l5 & _ & _ & _ & _ & _ & -> & _ & _ & _ & _ & E).
  unfold dinode_size in Hl. rewrite length_put_addrs; lia.
Qed.

(** Other bytes are unchanged. *)
Lemma get_put_dinode_ne n l off d o :
  length (d_addrs d) = Z.to_nat (NDIRECT + 1) -> (off + dinode_size <= length l)%nat ->
  (o + n <= off)%nat \/ (off + dinode_size <= o)%nat ->
  get_le n (put_dinode l off d) o = get_le n l o.
Proof.
  intros Ha Hl Ho. change (Z.to_nat (NDIRECT + 1)) with 13%nat in Ha.
  destruct (put_dinode_steps l off d Hl)
    as (l1 & l2 & l3 & l4 & l5 & E1 & E2 & E3 & E4 & E5 & -> & N1 & N2 & N3 & N4 & N5).
  unfold dinode_size in *. rewrite get_put_addrs_ne by lia. subst l5. unfold put16, put32 in *.
  do 4 (rewrite get_put_le_ne by lia; match goal with |- get_le n ?x _ = _ => subst x end).
  by rewrite get_put_le_ne by lia.
Qed.

Lemma s16_get x : - 2 ^ 15 <= x < 2 ^ 15 -> s16 (x mod 256 ^ Z.of_nat 2) = x.
Proof. apply s16_u16. Qed.

Lemma get_put_dinode l off d :
  dinode_ok d -> (off + dinode_size <= length l)%nat -> get_dinode (put_dinode l off d) off = d.
Proof.
  intros [H1 H2 H3 H4 H5 H6 H7] Hl. change (Z.to_nat (NDIRECT + 1)) with 13%nat in H6.
  destruct (put_dinode_steps l off d Hl)
    as (l1 & l2 & l3 & l4 & l5 & E1 & E2 & E3 & E4 & E5 & -> & N1 & N2 & N3 & N4 & N5).
  unfold dinode_size in *. destruct d as [ty ma mi nl sz addrs].
  cbn [d_type d_major d_minor d_nlink d_size d_addrs] in *.
  unfold get_dinode, get16, get32 at 1. unfold put16, put32 in *.
  rewrite !(get_put_addrs_ne) by lia. f_equal.
  - rewrite E5, get_put_le_ne, E4, get_put_le_ne, E3, get_put_le_ne, E2, get_put_le_ne by lia.
    rewrite E1, get_put_le by lia. by apply s16_get.
  - rewrite E5, get_put_le_ne, E4, get_put_le_ne, E3, get_put_le_ne by lia.
    rewrite E2, get_put_le by lia. by apply s16_get.
  - rewrite E5, get_put_le_ne, E4, get_put_le_ne, E3, get_put_le by lia. by apply s16_get.
  - rewrite E5, get_put_le_ne, E4, get_put_le by lia. by apply s16_get.
  - rewrite E5, get_put_le by lia. by apply Z.mod_small.
  - unfold get_addrs. change (Z.to_nat (NDIRECT + 1)) with 13%nat.
    apply list_eq. intros i. rewrite list_lookup_fmap. destruct (decide (i < 13)%nat) as [Hi|Hi].
    + rewrite lookup_seq_lt by done. cbn [fmap option_fmap option_map].
      destruct (lookup_lt_is_Some_2 addrs i) as [a Ha]; [lia|]. rewrite Ha. f_equal.
      erewrite get_put_addrs by (done || lia). apply u32_small.
      rewrite list.Forall_forall in H7. apply H7. by eapply list_elem_of_lookup_2.
    + rewrite lookup_seq_ge, lookup_ge_None_2 by lia. done.
Qed.

(** Other inodes of the block are unchanged. *)
Lemma get_addrs_ext l l' off :
  (forall o, (off <= o)%nat -> (o + 4 <= off + 52)%nat -> get32 l o = get32 l' o) ->
  get_addrs l off = get_addrs l' off.
Proof.
  intros H. unfold get_addrs. apply list_fmap_ext. intros j i Hi%list_elem_of_lookup_2.
  apply elem_of_seq in Hi. change (Z.to_nat (NDIRECT + 1)) with 13%nat in Hi. apply H; lia.
Qed.

Lemma get_put_dinode_other l off off' d :
  length (d_addrs d) = Z.to_nat (NDIRECT + 1) -> (off + dinode_size <= length l)%nat ->
  (off' + dinode_size <= off)%nat \/ (off + dinode_size <= off')%nat ->
  get_dinode (put_dinode l off d) off' = get_dinode l off'.
Proof.
  intros Ha Hl Ho. unfold get_dinode, get16, get32. unfold dinode_size in *.
  rewrite !get_put_dinode_ne by (unfold dinode_size; done || lia). f_equal. apply get_addrs_ext.
  intros o Ho1 Ho2. unfold get32. apply get_put_dinode_ne; unfold dinode_size; (done || lia).
Qed.

(** ** The inode cache *)

Definition iset (ip : Z) (x : inode) (s : kstate) : kstate := set_icache (<[ip := x]> (icache s)) s.

Lemma iset_iset ip x y s : iset ip y (iset ip x s) = iset ip y s.
Proof. unfold iset, set_icache. cbn. by rewrite insert_insert_eq. Qed.

Lemma iset_id ip x s : icache s !! ip = Some x -> iset ip x s = s.
Proof. intros H. unfold iset. rewrite insert_id by done. by destruct s. Qed.

Lemma icache_iset ip x s : icache (iset ip x s) !! ip = Some x.
Proof. apply lookup_insert_eq. Qed.

Lemma kframe_iset ip x s s' : kframe s s' -> kframe (iset ip x s) (iset ip x s').
Proof. intros F. unfold iset. rewrite (kframe_icache _ _ F). by apply kframe_set_icache. Qed.

(** A frame after a change of an inode, followed by another change. *)
Lemma kframe_iset_set ip x y s s' : kframe (iset ip x s) s' -> kframe (iset ip y s) (iset ip y s').
Proof. intros F. rewrite <- (iset_iset ip x y s). by apply kframe_iset. Qed.

Lemma wp_iget_at s ip x (Q : inode -> kstate -> Prop) :
  icache s !! ip = Some x -> Q x s -> wp (iget_at ip) s Q.
Proof.
  intros H HQ. apply wp_eq with x s; [|done]. unfold iget_at, bind, gets, of_option. by rewrite H.
Qed.

Lemma wp_iupd s ip x f (Q : unit -> kstate -> Prop) :
  icache s !! ip = Some x -> Q tt (iset ip (f x) s) -> wp (iupd ip f) s Q.
Proof. intros H HQ. unfold iupd. apply wp_bind. eapply wp_iget_at; [done|]. by apply wp_modify. Qed.

Lemma alter_some {A} (m : gmap Z A) (f : A -> A) i x :
  m !! i = Some x -> alter f i m = <[i := f x]> m.
Proof.
  intros H. apply map_eq. intros j. destruct (decide (j = i)) as [->|Hne].
  - by rewrite lookup_alter_eq, lookup_insert_eq, H.
  - by rewrite lookup_alter_ne, lookup_insert_ne.
Qed.

Lemma inode_lock_set s ip x k :
  icache s !! ip = Some x -> lset (inode_lock ip) k s = iset ip (set_i_lock k x) s.
Proof. intros H. cbn. unfold iset. by rewrite (alter_some _ _ _ x). Qed.

Definition kpid (s : kstate) : Z := cur_pid (bio (lo s)).

Lemma inode_acquire s ip x :
  icache s !! ip = Some x -> i_lock x = no_lock ->
  acquiresleep (inode_lock ip) s = Ret tt (iset ip (set_i_lock (held (kpid s)) x) s).
Proof.
  intros H Hl. assert (Hg : lget (inode_lock ip) s = no_lock) by (cbn; rewrite H; exact Hl).
  rewrite acquiresleep_free.
  - f_equal. by rewrite (inode_lock_set s ip x).
  - intros k. rewrite (inode_lock_set s ip x) by done. cbn. by rewrite lookup_insert_eq.
  - intros j k. rewrite (inode_lock_set s ip x k) by done.
    rewrite (inode_lock_set _ ip (set_i_lock k x)) by apply icache_iset.
    rewrite iset_iset. by rewrite (inode_lock_set s ip x).
  - done.
  - by rewrite Hg.
  - by rewrite Hg.
Qed.

Lemma block_nonnull s ip x : icache s !! ip = Some x -> icache s !! NULL = None -> ip <> NULL.
Proof. intros H1 H2 ->. congruence. Qed.

(** ** [iupdate] and [ilock] *)

(** The inode [inum] on the disk. *)
Definition inode_at (x : superblock) (V : Z -> option block) (inum : Z) : option dinode :=
  (fun d => get_dinode d (dinode_off inum)) <$> V (IBLOCK inum x).

Lemma iupdate_spec {bl H ds V} s ip x d (Q : unit -> kstate -> Prop) :
  ktxn bl H ds V s -> icache s !! ip = Some x -> i_dev x = ROOTDEV ->
  let b := IBLOCK (i_inum x) (sb s) in
  is_block b -> H !! b = None -> b ∉ ds -> room bl H -> log_room 1 bl -> V b = Some d ->
  (forall s', kframe s s' ->
     ktxn (log_add b bl) H ds (vset V b (put_dinode d (dinode_off (i_inum x)) (dinode_of x))) s' ->
     Q tt s') ->
  wp (iupdate ip) s Q.
Proof.
  intros T Hx Hdev b Hb Hni Hds Hr Hl Hd HQ. unfold iupdate.
  apply wp_bind. eapply wp_iget_at; [exact Hx|]. unfold getsb. apply wp_bind, wp_gets.
  rewrite Hdev. by eapply (k_rewrite _ b).
Qed.

(** [ilock] of a cached inode, and of one that it reads from the disk. *)
Lemma ilock_valid s ip x (Q : unit -> kstate -> Prop) :
  icache s !! ip = Some x -> ip <> NULL -> 1 <= i_ref x -> i_lock x = no_lock ->
  i_valid x = true -> Q tt (iset ip (set_i_lock (held (kpid s)) x) s) -> wp (ilock ip) s Q.
Proof.
  intros Hx Hn Hr Hl Hv HQ. unfold ilock. rewrite (proj2 (Z.eqb_neq ip NULL)) by done.
  apply wp_bind. eapply wp_iget_at; [exact Hx|]. rewrite (proj2 (Z.ltb_ge _ _)) by done.
  apply wp_bind. eapply wp_eq; [by apply inode_acquire|].
  apply wp_bind. eapply wp_iget_at; [apply icache_iset|]. cbn [i_valid set_i_lock]. rewrite Hv.
  by apply wp_ret.
Qed.

Definition loaded (pid : Z) (d : dinode) (x : inode) : inode :=
  set_i_valid true (load_dinode d (set_i_lock (held pid) x)).

Lemma ilock_load {bl H ds V} s ip x d (Q : unit -> kstate -> Prop) :
  ktxn bl H ds V s -> icache s !! ip = Some x -> ip <> NULL -> 1 <= i_ref x ->
  i_lock x = no_lock -> i_valid x = false -> i_dev x = ROOTDEV ->
  let b := IBLOCK (i_inum x) (sb s) in
  is_block b -> H !! b = None -> b ∉ ds -> room bl H ->
  inode_at (sb s) V (i_inum x) = Some d -> d_type d <> 0 ->
  (forall s', kframe (iset ip (loaded (kpid s) d x) s) s' -> ktxn bl H ds V s' -> Q tt s') ->
  wp (ilock ip) s Q.
Proof.
  intros T Hx Hn Hr Hl Hv Hdev b Hb Hni Hds Hroom Hd Hty HQ.
  unfold inode_at in Hd. fold b in Hd. destruct (V b) as [data|] eqn:HV; [|done].
  injection Hd as Hd. unfold ilock. rewrite (proj2 (Z.eqb_neq ip NULL)) by done.
  apply wp_bind. eapply wp_iget_at; [exact Hx|]. rewrite (proj2 (Z.ltb_ge _ _)) by done.
  apply wp_bind. eapply wp_eq; [by apply inode_acquire|].
  set (x1 := set_i_lock (held (kpid s)) x). apply wp_bind. eapply wp_iget_at; [apply icache_iset|].
  change (i_valid x1) with (i_valid x). rewrite Hv. cbn [negb when].
  unfold getsb. apply wp_bind, wp_gets. change (sb (iset ip x1 s)) with (sb s).
  change (i_inum x1) with (i_inum x). change (i_dev x1) with (i_dev x). fold b. rewrite Hdev.
  apply wp_bind. eapply (k_bread (iset ip x1 s)); [exact T|done..|]. intros i s2 F2 T2.
  apply wp_bind. eapply (k_getd _ b); [exact T2|apply lookup_insert_eq|exact HV|]. intros s3 F3 T3.
  assert (F : kframe (iset ip x1 s) s3) by kf. clear F2 F3.
  assert (Hx3 : icache s3 !! ip = Some x1) by (rewrite (kframe_icache _ _ F); apply icache_iset).
  apply wp_bind. eapply wp_iupd; [exact Hx3|]. rewrite Hd.
  apply wp_bind. eapply (k_brelse (iset ip _ s3) b); [exact T3|apply lookup_insert_eq|done|].
  intros s5 F5 T5. rewrite delete_insert_id in T5 by done.
  assert (Hx5 : icache s5 !! ip = Some (load_dinode d x1))
    by (rewrite (kframe_icache _ _ F5); apply icache_iset).
  apply wp_bind. eapply wp_iupd; [exact Hx5|].
  apply wp_bind. eapply wp_iget_at; [apply icache_iset|].
  change (i_type (set_i_valid true (load_dinode d x1))) with (d_type d).
  rewrite (proj2 (Z.eqb_neq _ _)) by done. apply wp_ret. apply HQ; [|exact T5].
  apply (kframe_iset_set ip (load_dinode d x1)). etransitivity; [|exact F5].
  by apply (kframe_iset_set ip x1).
Qed.

Lemma dinode_off_range inum : (dinode_off inum + dinode_size <= Z.to_nat BSIZE)%nat.
Proof.
  unfold dinode_off, dinode_size, sizeof_dinode. pose proof (Z.mod_pos_bound inum IPB ltac:(done)).
  change IPB with 16 in *. unfold BSIZE. lia.
Qed.

Lemma dinode_off_apart i j : i mod IPB <> j mod IPB ->
  (dinode_off i + dinode_size <= dinode_off j)%nat \/ (dinode_off j + dinode_size <= dinode_off i)%nat.
Proof.
  unfold dinode_off, dinode_size, sizeof_dinode. intros H.
  pose proof (Z.mod_pos_bound i IPB ltac:(done)). pose proof (Z.mod_pos_bound j IPB ltac:(done)).
  change IPB with 16 in *. lia.
Qed.

Lemma u32_inj_add a b c : 0 <= a < 2 ^ 32 -> 0 <= b < 2 ^ 32 -> u32 (a + c) = u32 (b + c) -> a = b.
Proof.
  unfold u32. intros Ha Hb E. rewrite <- (Z.mod_small a (2 ^ 32)), <- (Z.mod_small b (2 ^ 32)) by done.
  replace a with (a + c - c) by lia. replace b with (b + c - c) by lia.
  by rewrite (Zminus_mod (a + c)), E, <- Zminus_mod.
Qed.

(** Inode numbers are 32-bit, so no two share a place on the disk. *)
Lemma inode_place x i j :
  0 <= i < 2 ^ 32 -> 0 <= j < 2 ^ 32 -> IBLOCK i x = IBLOCK j x -> i mod IPB = j mod IPB -> i = j.
Proof.
  intros Hi Hj Hb Hm. unfold IBLOCK, u32 in Hb. change IPB with 16 in *.
  assert (Hij : i / 16 = j / 16).
  { assert (Hi' : 0 <= i / 16 < 2 ^ 28) by (split; [apply Z.div_pos|apply Z.div_lt_upper_bound]; lia).
    assert (Hj' : 0 <= j / 16 < 2 ^ 28) by (split; [apply Z.div_pos|apply Z.div_lt_upper_bound]; lia).
    revert Hi' Hj' Hb. generalize (i / 16) (j / 16) (sb_inodestart x). clear. intros a b c Ha Hb E.
    apply u32_inj_add with c; [lia|lia|exact E]. }
  rewrite (Z.div_mod i 16), (Z.div_mod j 16) by lia. congruence.
Qed.

(** C7: [iupdate] writes an inode so that [ilock] reads it back.  After
    [iupdate] the inode's place on the disk decodes to its cached fields, no
    other inode and no other block changes, and in any later state with these
    contents (another slot of the inode cache, say, after the inode was evicted)
    [ilock] of an invalid slot for the inode loads exactly those fields and
    returns with the inode locked by the caller. *)
Theorem iupdate_ilock_roundtrip bl H ds V s ip x d
    (T : ktxn bl H ds V s) (Hx : icache s !! ip = Some x) (Hdev : i_dev x = ROOTDEV)
    (Hok : dinode_ok (dinode_of x)) (Hty : i_type x <> 0) (Hnum : 0 <= i_inum x < 2 ^ 32)
    (Hb : is_block (IBLOCK (i_inum x) (sb s))) (Hni : H !! IBLOCK (i_inum x) (sb s) = None)
    (Hds : IBLOCK (i_inum x) (sb s) ∉ ds) (Hroom : room bl H) (Hlog : log_room 1 bl)
    (Hd : V (IBLOCK (i_inum x) (sb s)) = Some d) (Hlen : length d = Z.to_nat BSIZE) :
  wp (iupdate ip) s (fun _ s1 => kframe s s1 /\ exists V1,
    ktxn (log_add (IBLOCK (i_inum x) (sb s)) bl) H ds V1 s1 /\
    inode_at (sb s1) V1 (i_inum x) = Some (dinode_of x) /\
    (forall j, 0 <= j < 2 ^ 32 -> j <> i_inum x -> inode_at (sb s1) V1 j = inode_at (sb s1) V j) /\
    (forall c, c <> IBLOCK (i_inum x) (sb s) -> V1 c = V c) /\
    forall bl2 H2 s2 jp y, ktxn bl2 H2 ds V1 s2 -> sb s2 = sb s1 -> room bl2 H2 ->
      H2 !! IBLOCK (i_inum x) (sb s) = None ->
      icache s2 !! jp = Some y -> jp <> NULL -> i_inum y = i_inum x -> i_dev y = ROOTDEV ->
      1 <= i_ref y -> i_lock y = no_lock -> i_valid y = false ->
      wp (ilock jp) s2 (fun _ s3 => ktxn bl2 H2 ds V1 s3 /\ exists y',
        icache s3 !! jp = Some y' /\ dinode_of y' = dinode_of x /\ i_valid y' = true /\
        i_lock y' = held (kpid s2) /\ i_ref y' = i_ref y)).
Proof.
  set (b := IBLOCK (i_inum x) (sb s)) in *. pose proof (dinode_off_range (i_inum x)) as Hoff.
  eapply iupdate_spec; [exact T|exact Hx|exact Hdev|done..|].
  intros s1 F T1. fold b in T1. pose proof (kframe_sb _ _ F) as Esb. split; [done|].
  set (V1 := vset V b _) in T1. exists V1. rewrite Esb.
  assert (Hat : inode_at (sb s) V1 (i_inum x) = Some (dinode_of x)).
  { unfold inode_at, V1, vset. fold b. rewrite decide_True by done. cbn [fmap option_fmap option_map]. f_equal.
    apply get_put_dinode; [done|lia]. }
  split; [done|]. split; [exact Hat|]. split; [|split].
  - intros j Hj Hne. unfold inode_at, V1, vset.
    destruct (decide (IBLOCK j (sb s) = b)) as [E|E]; [|done]. rewrite E, Hd. cbn [fmap option_fmap option_map]. f_equal.
    apply get_put_dinode_other; [apply Hok|lia|]. apply or_comm, dinode_off_apart.
    intros Em. apply Hne. symmetry. by eapply inode_place.
  - intros c Hc. unfold V1, vset. by rewrite decide_False.
  - intros bl2 H2 s2 jp y T2 Esb2 Hr2 Hn2 Hy Hj Hyn Hyd Hyr Hyl Hyv.
    eapply (ilock_load s2 jp y (dinode_of x)); rewrite ?Esb2, ?Hyn; try done.
    intros s3 F3 T3. split; [done|]. exists (loaded (kpid s2) (dinode_of x) y).
    rewrite (kframe_icache _ _ F3), icache_iset. done.
Qed.

Definition w_inode : inode :=
  Inode ROOTDEV 7 1 no_lock true T_FILE 0 3 1 1500 (60 :: 61 :: zeros 11).

Lemma w_inode_ok : dinode_ok (dinode_of w_inode).
Proof. constructor; try (split; [discriminate|reflexivity]); [reflexivity|]. repeat constructor; lia. Qed.

Lemma iupdate_ilock_roundtrip_witness : exists s,
  icache s !! 0 = Some w_inode /\ wp (iupdate 0) s (fun _ s1 => exists V1,
    ktxn [32] ∅ ∅ V1 s1 /\ inode_at w_sb V1 7 = Some (dinode_of w_inode) /\
    inode_at w_sb V1 8 = Some (get_dinode zero_data (dinode_off 8))).
Proof.
  destruct (open_txn (fun _ => zero_data) w_sb) as (s & T & Hsb & _).
  exists (iset 0 w_inode s). split; [apply icache_iset|].
  assert (Hsb' : sb (iset 0 w_inode s) = w_sb) by exact Hsb.
  assert (Hb : IBLOCK (i_inum w_inode) (sb (iset 0 w_inode s)) = 32) by (rewrite Hsb'; reflexivity).
  eapply wp_mono; [apply (iupdate_ilock_roundtrip [] ∅ ∅ (fun b => Some zero_data)
    (iset 0 w_inode s) 0 w_inode zero_data T); rewrite ?Hb|].
  - apply icache_iset.
  - reflexivity.
  - exact w_inode_ok.
  - discriminate.
  - split; [discriminate|reflexivity].
  - split; [discriminate|reflexivity].
  - reflexivity.
  - apply not_elem_of_empty.
  - reflexivity.
  - discriminate.
  - reflexivity.
  - reflexivity.
  - cbv beta. rewrite Hb. intros _ s1 (F & V1 & T1 & H1 & H2 & _). exists V1.
    rewrite (kframe_sb _ _ F), Hsb' in H1, H2. split; [exact T1|]. split; [exact H1|].
    rewrite H2; [reflexivity|lia|discriminate].
Defined.

(** ** The blocks and the bytes of a file *)

(** The disk block of block [bn] of the file, when it is mapped. *)
Definition file_addr (V : Z -> option block) (x : inode) (bn : Z) : option Z :=
  let nonzero a := if a =? 0 then None else Some a in
  if bn <? NDIRECT then nonzero (addr_of x bn)
  else if addr_of x NDIRECT =? 0 then None
  else d ← V (addr_of x NDIRECT); nonzero (uint_at d (bn - NDIRECT)).

Definition file_block (V : Z -> option block) (x : inode) (bn : Z) : option block :=
  a ← file_addr V x bn; V a.

(** Byte [i] of the file, and [n] of them from [off] on. *)
Definition file_byte (V : Z -> option block) (x : inode) (i : Z) : Z :=
  byte_at (default [] (file_block V x (i / BSIZE))) (i mod BSIZE).
Definition file_bytes (V : Z -> option block) (x : inode) (off n : Z) : list Z :=
  file_byte V x <$> seqZ off n.

(** Every block up to the size is mapped, and can be read. *)
Definition readable (H : gmap Z Z) (ds : gset Z) (a : Z) : Prop :=
  is_block a /\ H !! a = None /\ a ∉ ds.
Record file_mapped (H : gmap Z Z) (ds : gset Z) (V : Z -> option block) (x : inode) : Prop := {
  fm_dev : i_dev x = ROOTDEV;
  fm_size : 0 <= i_size x <= MAXFILE * BSIZE;
  fm_block : forall bn, 0 <= bn < MAXFILE -> bn * BSIZE < i_size x ->
    exists a d, file_addr V x bn = Some a /\ readable H ds a /\ V a = Some d /\
      length d = Z.to_nat BSIZE;
  fm_indirect : NDIRECT * BSIZE < i_size x -> readable H ds (addr_of x NDIRECT)
}.

Lemma MAXFILE_eq : MAXFILE = 268. Proof. done. Qed.

(** [bmap] of a mapped block changes nothing. *)
Lemma bmap_mapped {bl H ds V} s ip x bn a (Q : Z -> kstate -> Prop) :
  ktxn bl H ds V s -> icache s !! ip = Some x -> i_dev x = ROOTDEV ->
  0 <= bn < MAXFILE -> file_addr V x bn = Some a ->
  (NDIRECT <= bn -> readable H ds (addr_of x NDIRECT)) -> room bl H ->
  (forall s', kframe s s' -> ktxn bl H ds V s' -> Q a s') -> wp (bmap ip bn) s Q.
Proof.
  intros T Hx Hdev Hbn Ha Hind Hroom HQ. unfold file_addr in Ha. unfold bmap.
  apply wp_bind. eapply wp_iget_at; [exact Hx|].
  destruct (Z.ltb_spec bn NDIRECT) as [Hlt|Hge].
  - destruct (addr_of x bn =? 0); [done|]. injection Ha as <-. apply wp_ret. by apply HQ.
  - rewrite (proj2 (Z.ltb_lt (bn - NDIRECT) NINDIRECT)) by (unfold MAXFILE in Hbn; lia).
    destruct (addr_of x NDIRECT =? 0); [done|].
    destruct (Hind Hge) as (Hb & Hni & Hds). set (ia := addr_of x NDIRECT) in *.
    destruct (V ia) as [d|] eqn:HV; [|done]. cbn [mbind option_bind] in Ha.
    apply wp_bind, wp_ret. apply wp_bind. rewrite Hdev. eapply k_bread; [done..|].
    intros i s1 F1 T1. apply wp_bind.
    eapply (k_getd _ ia); [exact T1|apply lookup_insert_eq|exact HV|]. intros s2 F2 T2.
    destruct (uint_at d (bn - NDIRECT) =? 0); [done|]. injection Ha as <-.
    apply wp_bind, wp_ret. apply wp_bind.
    eapply (k_brelse _ ia); [exact T2|apply lookup_insert_eq|done|]. intros s3 F3 T3.
    rewrite delete_insert_id in T3 by done. apply wp_ret, HQ; [kf|done].
Qed.

Lemma length_file_bytes V x off n : length (file_bytes V x off n) = Z.to_nat n.
Proof. unfold file_bytes. by rewrite length_fmap, length_seqZ. Qed.

Lemma file_bytes_app V x off n m : 0 <= n -> 0 <= m ->
  file_bytes V x off (n + m) = file_bytes V x off n ++ file_bytes V x (off + n) m.
Proof. intros Hn Hm. unfold file_bytes. by rewrite seqZ_app, fmap_app by lia. Qed.

(** The bytes of a file inside one of its blocks. *)
Lemma file_bytes_block V x off m a d :
  0 <= off -> 0 <= m -> off mod BSIZE + m <= BSIZE -> file_addr V x (off / BSIZE) = Some a ->
  V a = Some d -> length d = Z.to_nat BSIZE ->
  file_bytes V x off m = take (Z.to_nat m) (drop (Z.to_nat (off mod BSIZE)) d).
Proof.
  intros Ho Hm Hle Ha Hd Hlen. pose proof (Z.mod_pos_bound off BSIZE ltac:(done)) as Hmod.
  apply list_eq. intros i. destruct (decide (Z.of_nat i < m)) as [Hi|Hi].
  - rewrite lookup_take_lt, lookup_drop by lia. unfold file_bytes.
    rewrite list_lookup_fmap, (proj2 (lookup_seqZ _ _ _ (off + Z.of_nat i))) by lia.
    cbn [fmap option_fmap option_map]. unfold file_byte, file_block.
    assert (E : (off + Z.of_nat i) / BSIZE = off / BSIZE /\
      (off + Z.of_nat i) mod BSIZE = off mod BSIZE + Z.of_nat i).
    { pose proof (Z.div_mod off BSIZE ltac:(done)) as Hdm. unfold BSIZE in *. zlia. }
    destruct E as [-> ->]. rewrite Ha. cbn [mbind option_bind]. rewrite Hd. cbn [default].
    unfold byte_at. rewrite Z2Nat.inj_add, Nat2Z.id by lia.
    destruct (lookup_lt_is_Some_2 d (Z.to_nat (off mod BSIZE) + i)) as [v Hv]; [lia|].
    unfold id. by rewrite Hv.
  - rewrite lookup_take_ge, lookup_ge_None_2 by (rewrite ?length_file_bytes; lia). done.
Qed.

(** ** [readi] *)

(** How many bytes [readi] reads. *)
Definition readi_len (x : inode) (off n : Z) : Z :=
  if (i_size x <? off) || (2 ^ 32 <=? off + n) then 0 else Z.min n (i_size x - off).

Lemma MAXFILE_bytes : MAXFILE * BSIZE = 274432. Proof. done. Qed.

(** Reading into an object of the kernel. *)
Lemma readi_spec {bl H ds V} s ip x off n (Q : Z * list Z -> kstate -> Prop) :
  ktxn bl H ds V s -> icache s !! ip = Some x -> file_mapped H ds V x ->
  Z.of_nat (length bl) + Z.of_nat (size H) < NBUF -> 0 <= off < 2 ^ 32 -> 0 <= n < 2 ^ 32 ->
  (forall s', kframe s s' -> ktxn bl H ds V s' ->
     Q (readi_len x off n, file_bytes V x off (readi_len x off n)) s') ->
  wp (readi ip ToKernel off n) s Q.
Proof.
  intros T Hx [Hdev Hsz Hblk Hind] Hroom Ho Hn HQ. rewrite MAXFILE_bytes in Hsz.
  unfold readi. apply wp_bind. eapply wp_iget_at; [exact Hx|].
  unfold readi_len in HQ. destruct (Z.ltb_spec (i_size x) off) as [Hlt|Hge]; cbn [orb] in *.
  { apply wp_ret. apply HQ; [reflexivity|done]. }
  assert (Hwrap : (u32 (off + n) <? off) = (2 ^ 32 <=? off + n)).
  { unfold u32. destruct (Z.leb_spec (2 ^ 32) (off + n)) as [Hw|Hw].
    - apply Z.ltb_lt. rewrite <- (Z.mod_add _ (-1)), Z.mod_small by lia. lia.
    - apply Z.ltb_ge. rewrite Z.mod_small by lia. lia. }
  rewrite Hwrap. destruct (Z.leb_spec (2 ^ 32) (off + n)) as [Hw|Hw].
  { apply wp_ret. apply HQ; [reflexivity|done]. }
  rewrite (u32_small (off + n)) by lia. rewrite (u32_small (i_size x - off)) by lia.
  set (n' := if i_size x <? off + n then i_size x - off else n).
  assert (Hn' : n' = Z.min n (i_size x - off)).
  { unfold n'. destruct (Z.ltb_spec (i_size x) (off + n)); lia. }
  clearbody n'. rewrite <- Hn' in HQ. cbv zeta.
  apply (wp_loop (fun '(tot, off', dst, out) s' => 0 <= tot <= n' /\ off' = off + tot /\
      dst = ToKernel /\ out = file_bytes V x off tot /\ kframe s s' /\ ktxn bl H ds V s')
    (fun '(tot, _, _, _) => n' - tot)).
  - split; [lia|]. split; [lia|]. split; [done|]. split; [done|]. split; [reflexivity|done].
  - lia.
  - intros [[[tot off'] dst] out] s' (Ht & _). lia.
  - intros [[[tot off'] dst] out] s1 (Ht & -> & -> & -> & F1 & T1).
    destruct (Z.ltb_spec tot n') as [Htn|Htn].
    2:{ assert (tot = n') as -> by lia. apply wp_ret.
        rewrite s32_small by (unfold is_int, INT_MIN, INT_MAX; lia). by apply HQ. }
    set (o := off + tot) in *. assert (Hos : 0 <= o < i_size x) by lia.
    pose proof (Z.mod_pos_bound o BSIZE ltac:(done)) as Hmod.
    pose proof (Z.div_mod o BSIZE ltac:(done)) as Hdm. unfold BSIZE in Hdm, Hmod.
    destruct (Hblk (o / BSIZE)) as (a & d & Ha & (Hab & Hah & Hads) & Hd & Hlen).
    { rewrite MAXFILE_eq. unfold BSIZE. split; [apply Z.div_pos; lia|].
      apply Z.div_lt_upper_bound; lia. }
    { unfold BSIZE. lia. }
    assert (Hx1 : icache s1 !! ip = Some x) by (by rewrite (kframe_icache _ _ F1)).
    apply wp_bind. eapply (bmap_mapped s1 ip x (o / BSIZE) a); [done|done|done| |done| |done|].
    { rewrite MAXFILE_eq. unfold BSIZE. split; [apply Z.div_pos; lia|].
      apply Z.div_lt_upper_bound; lia. }
    { intros Hni. apply Hind. unfold NDIRECT, BSIZE in *. lia. }
    intros s2 F2 T2. apply wp_bind. rewrite Hdev. eapply k_bread; [done..|].
    intros i s3 F3 T3. set (m := Z.min (u32 (n' - tot)) (BSIZE - o mod BSIZE)).
    assert (Hm : 0 < m <= n' - tot /\ o mod BSIZE + m <= BSIZE).
    { unfold m. rewrite u32_small by lia. unfold BSIZE. lia. }
    apply wp_bind. eapply (k_getd _ a); [exact T3|apply lookup_insert_eq|exact Hd|].
    intros s4 F4 T4. apply wp_bind. apply wp_ret. cbv beta iota.
    apply wp_bind. eapply (k_brelse _ a); [exact T4|apply lookup_insert_eq|done|].
    intros s5 F5 T5. rewrite delete_insert_id in T5 by done. cbn [Z.eqb].
    apply wp_ret. rewrite (u32_small (tot + m)), (u32_small (o + m)) by lia.
    split; [|lia]. split; [lia|]. split; [lia|]. split; [done|]. split; [|split; [kf|done]].
    rewrite file_bytes_app by lia. f_equal. fold o.
    rewrite (file_bytes_block V x o m a d) by (done || lia).
    by rewrite take_take, Nat.min_id.
Qed.

(** ** [iget] *)

Definition slot_is (s : kstate) (dev inum ip : Z) : bool :=
  match icache s !! ip with
  | Some x => (0 <? i_ref x) && (i_dev x =? dev) && (i_inum x =? inum)
  | None => false
  end.
Definition slot_free (s : kstate) (ip : Z) : bool :=
  match icache s !! ip with Some x => i_ref x =? 0 | None => false end.

(** The slot of an inode, and the first free slot. *)
Definition icache_find (s : kstate) (dev inum : Z) : option Z :=
  List.find (slot_is s dev inum) (seqZ 0 NINODE).
Definition icache_free (s : kstate) : option Z := List.find (slot_free s) (seqZ 0 NINODE).

(** The whole table exists and its lock is free. *)
Definition icache_ok (s : kstate) : Prop :=
  icache_lock s = false /\ forall ip, 0 <= ip < NINODE -> is_Some (icache s !! ip).

Definition fresh_inode (dev inum : Z) (x : inode) : inode :=
  set_i_valid false (set_i_ref 1 (set_i_inum inum (set_i_dev dev x))).

Lemma find_seqZ_upto (f : Z -> bool) k : 0 <= k ->
  List.find f (seqZ 0 (k + 1)) =
    match List.find f (seqZ 0 k) with Some a => Some a | None => if f k then Some k else None end.
Proof.
  intros Hk. rewrite seqZ_app by lia. rewrite Z.add_0_l. change (seqZ k 1) with [k].
  induction (seqZ 0 k) as [|a l IH]; simpl; [done|]. by destruct (f a).
Qed.

Lemma find_prefix {A} (f : A -> bool) l1 l2 a :
  List.find f l1 = Some a -> List.find f (l1 ++ l2) = Some a.
Proof. induction l1 as [|x l1 IH]; simpl; [done|]. by destruct (f x). Qed.

(** The loop over the table. *)
Lemma iget_scan s dev inum :
  (forall ip, 0 <= ip < NINODE -> is_Some (icache s !! ip)) ->
  wp (loop (0, NULL) (fun '(ip, empty) =>
    if ip <? NINODE then
      let! x := iget_at ip in
      if (0 <? i_ref x) && (i_dev x =? dev) && (i_inum x =? inum) then ret (inr (inl ip))
      else ret (inl (ip + 1, if (empty =? NULL) && (i_ref x =? 0) then ip else empty))
    else ret (inr (inr empty)))) s (fun r s' => s' = s /\
      r = match icache_find s dev inum with
          | Some ip => inl ip
          | None => inr (default NULL (icache_free s))
          end).
Proof.
  intros Hall.
  apply (wp_loop (fun '(ip, empty) s' => s' = s /\ 0 <= ip <= NINODE /\
      List.find (slot_is s dev inum) (seqZ 0 ip) = None /\
      empty = default NULL (List.find (slot_free s) (seqZ 0 ip)))
    (fun '(ip, _) => NINODE - ip)).
  - done.
  - done.
  - intros [ip e] s' (_ & H & _). lia.
  - intros [ip e] s' (-> & Hip & Hno & ->). destruct (Z.ltb_spec ip NINODE) as [Hlt|Hge].
    2:{ assert (ip = NINODE) as -> by lia. apply wp_ret. split; [done|].
        unfold icache_find. by rewrite Hno. }
    destruct (Hall ip) as [x Hx]; [lia|]. apply wp_bind. eapply wp_iget_at; [exact Hx|].
    pose proof (find_seqZ_upto (slot_is s dev inum) ip ltac:(lia)) as Hf. rewrite Hno in Hf.
    assert (Hs : slot_is s dev inum ip = (0 <? i_ref x) && (i_dev x =? dev) && (i_inum x =? inum))
      by (unfold slot_is; by rewrite Hx).
    rewrite <- Hs. destruct (slot_is s dev inum ip) eqn:E.
    + apply wp_ret. split; [done|]. unfold icache_find.
      replace NINODE with ((ip + 1) + (NINODE - (ip + 1))) by lia.
      rewrite seqZ_app by lia. rewrite (find_prefix _ _ _ ip); [done|exact Hf].
    + apply wp_ret. split; [|lia]. split; [done|]. split; [lia|]. split; [exact Hf|].
      rewrite find_seqZ_upto by lia. assert (Hfr : slot_free s ip = (i_ref x =? 0))
        by (unfold slot_free; by rewrite Hx). rewrite Hfr.
      destruct (List.find (slot_free s) (seqZ 0 ip)) as [a|] eqn:Ea; simpl.
      * apply find_seqZ in Ea as (Ha & _). by rewrite (proj2 (Z.eqb_neq a NULL)) by (unfold NULL; lia).
      * by destruct (i_ref x =? 0).
Qed.

Lemma wp_icache_acquire s (Q : unit -> kstate -> Prop) :
  icache_lock s = false -> Q tt (set_icache_lock true s) -> wp (spin_acquire icache_lk) s Q.
Proof. intros H HQ. unfold spin_acquire. apply wp_bind, wp_gets. cbn. rewrite H. by apply wp_modify. Qed.

Lemma wp_icache_release s (Q : unit -> kstate -> Prop) :
  icache_lock s = true -> Q tt (set_icache_lock false s) -> wp (spin_release icache_lk) s Q.
Proof. intros H HQ. unfold spin_release. apply wp_bind, wp_gets. cbn. rewrite H. by apply wp_modify. Qed.

Lemma set_icache_lock_id s ip x : icache_lock s = false ->
  set_icache_lock false (iset ip x (set_icache_lock true s)) = iset ip x s.
Proof. intros H. unfold iset, set_icache, set_icache_lock. cbn. by rewrite H. Qed.

(** The slot and the inode that [iget] puts there. *)
Definition iget_slot (s : kstate) (dev inum : Z) : option (Z * inode) :=
  match icache_find s dev inum with
  | Some ip => (fun x => (ip, set_i_ref (s32 (i_ref x + 1)) x)) <$> icache s !! ip
  | None => ip ← icache_free s; (fun x => (ip, fresh_inode dev inum x)) <$> icache s !! ip
  end.

Lemma iget_spec s dev inum ip x (Q : Z -> kstate -> Prop) :
  icache_ok s -> iget_slot s dev inum = Some (ip, x) -> Q ip (iset ip x s) ->
  wp (iget dev inum) s Q.
Proof.
  intros [Hl Hall] Hs HQ. unfold iget. apply wp_bind, wp_icache_acquire; [done|].
  apply wp_bind. eapply wp_mono; [by apply (iget_scan (set_icache_lock true s))|].
  intros r s1 [-> ->]. unfold iget_slot in Hs.
  change (icache_find (set_icache_lock true s) dev inum) with (icache_find s dev inum).
  change (icache_free (set_icache_lock true s)) with (icache_free s).
  destruct (icache_find s dev inum) as [i|].
  - destruct (icache s !! i) as [y|] eqn:Hy; [|done]. injection Hs as <- <-.
    apply wp_bind. eapply wp_iupd; [exact Hy|]. apply wp_bind, wp_icache_release; [done|].
    apply wp_ret. by rewrite set_icache_lock_id.
  - destruct (icache_free s) as [i|] eqn:Hf; [|done]. cbn [mbind option_bind default] in *.
    apply find_seqZ in Hf as (Hi & _).
    destruct (icache s !! i) as [y|] eqn:Hy; [|done]. injection Hs as <- <-.
    unfold id. rewrite (proj2 (Z.eqb_neq i NULL)) by (unfold NULL; lia).
    do 4 (apply wp_bind; eapply wp_iupd; [first [exact Hy|apply icache_iset]|]; rewrite ?iset_iset).
    apply wp_bind, wp_icache_release; [done|]. apply wp_ret. by rewrite set_icache_lock_id.
Qed.

Lemma iget_panics s dev inum :
  icache_ok s -> iget_slot s dev inum = None -> iget dev inum s = Panic "iget: no inodes".
Proof.
  intros [Hl Hall] Hs. unfold iget. assert (Ha : spin_acquire icache_lk s = Ret tt (set_icache_lock true s))
    by (unfold spin_acquire, bind, gets; cbn; by rewrite Hl).
  rewrite (bind_eq _ _ _ _ _ Ha).
  destruct (wp_inv _ _ _ (iget_scan (set_icache_lock true s) dev inum Hall)) as (r & s1 & E & -> & ->).
  rewrite (bind_eq _ _ _ _ _ E). unfold iget_slot in Hs.
  change (icache_find (set_icache_lock true s) dev inum) with (icache_find s dev inum).
  change (icache_free (set_icache_lock true s)) with (icache_free s).
  destruct (icache_find s dev inum) as [i|] eqn:Hf.
  - apply find_seqZ in Hf as (Hi & _). destruct (Hall i) as [y Hy]; [lia|]. by rewrite Hy in Hs.
  - destruct (icache_free s) as [i|] eqn:Hg; [|done].
    apply find_seqZ in Hg as (Hi & _). destruct (Hall i) as [y Hy]; [lia|].
    cbn [mbind option_bind] in Hs. by rewrite Hy in Hs.
Qed.

(** No inode is in two slots of the table. *)
Definition icache_unique (s : kstate) : Prop := forall ip jp x y,
  icache s !! ip = Some x -> icache s !! jp = Some y -> 0 < i_ref x -> 0 < i_ref y ->
  i_dev x = i_dev y -> i_inum x = i_inum y -> ip = jp.
(** Its slots are those of [NINODE] inodes, with counts that do not overflow. *)
Definition icache_wf (s : kstate) : Prop :=
  icache_ok s /\ icache_unique s /\
  (forall ip x, icache s !! ip = Some x -> 0 <= ip < NINODE /\ 0 <= i_ref x < INT_MAX).

(** C20: [iget] keeps the inode cache well formed, with no inode in two slots.  It
    returns a slot that now refers to the inode: the slot that already did, with
    one reference more, or the first unreferenced slot, with one reference and
    marked not valid; no other slot changes.  It panics ("iget: no inodes")
    exactly when the inode is in no slot and every slot is referenced. *)
Theorem iget_correct s dev inum (Hwf : icache_wf s) :
  match iget dev inum s with
  | Ret ip s' => exists x x', icache s !! ip = Some x /\ s' = iset ip x' s /\
      i_dev x' = dev /\ i_inum x' = inum /\ i_ref x' = i_ref x + 1 /\ i_lock x' = i_lock x /\
      (0 < i_ref x -> x' = set_i_ref (i_ref x + 1) x) /\ (i_ref x = 0 -> i_valid x' = false) /\
      icache_unique s'
  | Panic msg => (forall ip x, icache s !! ip = Some x -> 0 < i_ref x /\ (i_dev x, i_inum x) <> (dev, inum))
  | _ => False
  end.
Proof.
  destruct Hwf as (Hok & Hu & Hr). pose proof Hok as [Hl Hall].
  destruct (iget_slot s dev inum) as [[ip x']|] eqn:Hs.
  - assert (Hw : wp (iget dev inum) s (fun r s' => r = ip /\ s' = iset ip x' s))
      by by eapply iget_spec.
    apply wp_inv in Hw as (r & s' & -> & -> & ->). unfold iget_slot in Hs.
    assert (Hun : forall x, icache s !! ip = Some x ->
      (forall jp y, jp <> ip -> icache s !! jp = Some y -> 0 < i_ref y ->
         i_dev y = i_dev x' -> i_inum y = i_inum x' -> False) -> icache_unique (iset ip x' s)).
    { intros x Hx Hno i j a b Ha Hb Hra Hrb Hd Hi. cbn in Ha, Hb.
      destruct (decide (i = ip)) as [->|Hii], (decide (j = ip)) as [->|Hjj]; [done|..].
      - rewrite lookup_insert_eq in Ha. injection Ha as <-. rewrite lookup_insert_ne in Hb by done.
        by destruct (Hno j b).
      - rewrite lookup_insert_eq in Hb. injection Hb as <-. rewrite lookup_insert_ne in Ha by done.
        by destruct (Hno i a).
      - rewrite !lookup_insert_ne in Ha, Hb by done. by eapply Hu. }
    destruct (icache_find s dev inum) as [i|] eqn:Hf.
    + apply find_seqZ in Hf as (Hi & Hsl & _). unfold slot_is in Hsl.
      destruct (icache s !! i) as [x|] eqn:Hx; [|done]. injection Hs as -> <-.
      apply andb_true_iff in Hsl as [[H0%Z.ltb_lt H1%Z.eqb_eq]%andb_true_iff H2%Z.eqb_eq].
      destruct (Hr _ _ Hx) as [_ Hrx].
      assert (E : s32 (i_ref x + 1) = i_ref x + 1)
        by (apply s32_small; unfold is_int, INT_MIN, INT_MAX in *; lia).
      exists x, (set_i_ref (s32 (i_ref x + 1)) x). rewrite E in *. split_and!; try done.
      * intros H'. lia.
      * apply (Hun x Hx). cbn. intros jp y Hne Hy Hry Hdy Hiy. apply Hne. by eapply Hu.
    + destruct (icache_free s) as [i|] eqn:Hg; [|done]. cbn [mbind option_bind] in Hs.
      apply find_seqZ in Hg as (Hi & Hsl & _). unfold slot_free in Hsl.
      destruct (icache s !! i) as [x|] eqn:Hx; [|done]. injection Hs as -> <-.
      apply Z.eqb_eq in Hsl. exists x, (fresh_inode dev inum x). split_and!; try done.
      * cbn. lia.
      * intros H'. lia.
      * apply (Hun x Hx). cbn. intros jp y Hne Hy Hry <- <-.
        destruct (Hr _ _ Hy) as [Hj _]. unfold icache_find in Hf.
        pose proof (List.find_none _ _ Hf jp) as Hfn. rewrite <- list_elem_of_In, elem_of_seqZ in Hfn.
        specialize (Hfn ltac:(lia)). unfold slot_is in Hfn. rewrite Hy in Hfn.
        rewrite !Z.eqb_refl, !andb_true_r in Hfn. apply Z.ltb_ge in Hfn. lia.
  - rewrite iget_panics by done. intros ip x Hx. destruct (Hr _ _ Hx) as [Hi Hrx].
    unfold iget_slot in Hs. destruct (icache_find s dev inum) as [i|] eqn:Hf.
    { apply find_seqZ in Hf as (Hi' & _). destruct (Hall i) as [y Hy]; [lia|]. by rewrite Hy in Hs. }
    destruct (icache_free s) as [i|] eqn:Hg.
    { apply find_seqZ in Hg as (Hi' & _). destruct (Hall i) as [y Hy]; [lia|].
      cbn [mbind option_bind] in Hs. by rewrite Hy in Hs. }
    pose proof (List.find_none _ _ Hf ip) as H1. pose proof (List.find_none _ _ Hg ip) as H2.
    rewrite <- list_elem_of_In, elem_of_seqZ in H1, H2. specialize (H1 ltac:(lia)).
    specialize (H2 ltac:(lia)). unfold slot_is in H1. unfold slot_free in H2. rewrite Hx in H1, H2.
    apply Z.eqb_neq in H2. split; [lia|]. intros [= <- <-].
    rewrite !Z.eqb_refl, !andb_true_r in H1. apply Z.ltb_ge in H1. lia.
Qed.

Lemma iget_correct_witness : exists s s',
  iget ROOTDEV ROOTINO s = Ret 0 s' /\ icache_unique s'.
Proof.
  set (s := kernel_boot ∅ small_boot 0).
  assert (Hwf : icache_wf s).
  { split; [|split].
    - split; [reflexivity|]. intros ip Hip. exists bss_inode. by apply lookup_table.
    - intros ip jp x y Hx _ Hr. apply lookup_table_inv in Hx as [_ ->]. discriminate Hr.
    - intros ip x Hx. apply lookup_table_inv in Hx as [Hi ->]. split; [done|]. by split. }
  assert (Hres : result (iget ROOTDEV ROOTINO s) = Some 0) by (vm_compute; reflexivity).
  exists s. pose proof (iget_correct s ROOTDEV ROOTINO Hwf) as Hc. clearbody s.
  destruct (iget ROOTDEV ROOTINO s) as [ip s'|m|t|]; cbn [result] in Hres; [|discriminate Hres..].
  destruct Hc as (x & x' & _ & _ & _ & _ & _ & _ & _ & _ & Hu). injection Hres as Ei.
  exists s'. rewrite Ei. split; [reflexivity|exact Hu].
Defined.

(** ** [dirlookup] *)

(** Entry [k] of a directory, and whether it is in use under a name. *)
Definition dir_entry (V : Z -> option block) (x : inode) (k : Z) : dirent :=
  get_dirent (file_bytes V x (sizeof_dirent * k) sizeof_dirent).
Definition dir_match (name : list Z) (de : dirent) : bool :=
  negb (de_inum de =? 0) && (namecmp name (de_name de) =? 0).
Definition dir_find (V : Z -> option block) (x : inode) (name : list Z) : option Z :=
  List.find (fun k => dir_match name (dir_entry V x k)) (seqZ 0 (i_size x / sizeof_dirent)).

(** A directory that can be read: its size is a whole number of entries. *)
Definition dir_ok (H : gmap Z Z) (ds : gset Z) (V : Z -> option block) (x : inode) : Prop :=
  i_type x = T_DIR /\ i_size x mod sizeof_dirent = 0 /\ file_mapped H ds V x.

Lemma dirlookup_spec {bl H ds V} s dp x name (Q : Z * Z -> kstate -> Prop) :
  ktxn bl H ds V s -> icache s !! dp = Some x -> dir_ok H ds V x ->
  Z.of_nat (length bl) + Z.of_nat (size H) < NBUF -> icache_ok s ->
  match dir_find V x name with
  | None => forall s', kframe s s' -> ktxn bl H ds V s' -> Q (NULL, 0) s'
  | Some k => exists ip y, iget_slot s (i_dev x) (de_inum (dir_entry V x k)) = Some (ip, y) /\
      forall s', kframe (iset ip y s) s' -> ktxn bl H ds V s' -> Q (ip, sizeof_dirent * k) s'
  end -> wp (dirlookup dp name) s Q.
Proof.
  intros T Hx (Hty & Hmul & Hf) Hroom Hok HQ. pose proof (fm_size _ _ _ _ Hf) as Hsz.
  rewrite MAXFILE_bytes in Hsz. unfold sizeof_dirent in *.
  assert (Hdm : i_size x = 16 * (i_size x / 16)) by (rewrite (Z.div_mod (i_size x) 16) at 1; lia).
  set (n := i_size x / 16) in *. unfold dirlookup, sizeof_dirent. apply wp_bind. eapply wp_iget_at; [exact Hx|].
  rewrite Hty. cbn [Z.eqb negb T_DIR].
  set (f := fun k => dir_match name (dir_entry V x k)).
  assert (Hdf : dir_find V x name = List.find f (seqZ 0 n)) by done. rewrite Hdf in HQ.
  apply (wp_loop (fun off s' => exists k, off = 16 * k /\ 0 <= k <= n /\
      (forall j, 0 <= j < k -> f j = false) /\ kframe s s' /\ ktxn bl H ds V s')
    (fun off => i_size x - off)).
  - exists 0. split; [done|]. split; [lia|]. split; [lia|]. split; [reflexivity|done].
  - lia.
  - intros off s' (k & -> & Hk & _). lia.
  - intros off s1 (k & -> & Hk & Hno & F1 & T1).
    assert (Hx1 : icache s1 !! dp = Some x) by (by rewrite (kframe_icache _ _ F1)).
    apply wp_bind. eapply wp_iget_at; [exact Hx1|].
    destruct (Z.ltb_spec (16 * k) (i_size x)) as [Hlt|Hge].
    2:{ apply wp_ret. assert (k = n) as -> by lia.
        destruct (List.find f (seqZ 0 n)) as [j|] eqn:Ej; [|by apply HQ].
        apply find_seqZ in Ej as (Hj & Hfj & _). by rewrite Hno in Hfj by lia. }
    apply wp_bind. eapply (readi_spec s1 dp x); [done|done|done|done|lia|lia|].
    assert (Hrl : readi_len x (16 * k) 16 = 16).
    { unfold readi_len. rewrite (proj2 (Z.ltb_ge _ _)), (proj2 (Z.leb_gt _ _)) by lia. simpl. lia. }
    rewrite Hrl. intros s2 F2 T2. cbn [Z.eqb Pos.eqb negb].
    change (get_dirent (file_bytes V x (16 * k) 16)) with (dir_entry V x k).
    assert (Hfk : f k = negb (de_inum (dir_entry V x k) =? 0) &&
      (namecmp name (de_name (dir_entry V x k)) =? 0)) by done.
    rewrite u32_small by lia.
    assert (Hstep : f k = false -> (exists k0, 16 * k + 16 = 16 * k0 /\ 0 <= k0 <= n /\
      (forall j, 0 <= j < k0 -> f j = false) /\ kframe s s2 /\ ktxn bl H ds V s2) /\
      i_size x - (16 * k + 16) < i_size x - 16 * k).
    { intros Hfalse. split; [|lia]. exists (k + 1). split; [lia|]. split; [lia|].
      split; [|split; [kf|done]]. intros j Hj. destruct (Z.eq_dec j k) as [->|]; [done|]. apply Hno. lia. }
    destruct (de_inum (dir_entry V x k) =? 0); [by apply wp_ret, Hstep|].
    destruct (namecmp name (de_name (dir_entry V x k)) =? 0); [|by apply wp_ret, Hstep].
    assert (Hfind : List.find f (seqZ 0 n) = Some k).
    { destruct (List.find f (seqZ 0 n)) as [j|] eqn:Ej.
      - apply find_seqZ in Ej as (Hj & Hfj & Hlow). f_equal.
        destruct (Z.lt_total j k) as [Hjk|[->|Hjk]]; [|done|].
        + by rewrite Hno in Hfj by lia.
        + rewrite Hlow in Hfk by lia. done.
      - pose proof (List.find_none _ _ Ej k) as Hn. rewrite <- list_elem_of_In, elem_of_seqZ in Hn.
        rewrite Hn in Hfk by lia. done. }
    rewrite Hfind in HQ. destruct HQ as (ip & y & Hslot & HQ).
    assert (F : kframe s s2) by kf. pose proof (kframe_eqs _ _ F) as (_ & El & Ei & _).
    apply wp_bind. eapply (iget_spec s2 _ _ ip y).
    + destruct Hok as [Hok1 Hok2]. split; [by rewrite El|by rewrite Ei].
    + unfold iget_slot, icache_find, icache_free, slot_is, slot_free in *. by rewrite Ei.
    + apply wp_ret. apply HQ; [by apply kframe_iset|exact T2].
Qed.

(** C8: [readi] into the kernel reads the file.  For a file whose blocks are
    mapped and any 32-bit offset and count (also beyond the end, and when their
    sum overflows), it returns the number of bytes between the offset and the
    end of the file, at most [n], and exactly those bytes, gathered from the
    direct and indirect blocks; it changes no block and no inode, and releases
    every buffer. *)
Theorem readi_correct bl H ds V s ip x off n
    (T : ktxn bl H ds V s) (Hx : icache s !! ip = Some x) (Hf : file_mapped H ds V x)
    (Hroom : room bl H) (Ho : 0 <= off < 2 ^ 32) (Hn : 0 <= n < 2 ^ 32) :
  wp (readi ip ToKernel off n) s (fun r s' =>
    r.1 = (if (i_size x <? off) || (2 ^ 32 <=? off + n) then 0 else Z.min n (i_size x - off)) /\
    r.2 = file_bytes V x off r.1 /\ kframe s s' /\ ktxn bl H ds V s').
Proof. eapply readi_spec; [exact T|exact Hx|exact Hf|exact Hroom|exact Ho|exact Hn|]. done. Qed.

(** The name of an entry, up to its NUL or to [DIRSIZ] characters. *)
Definition dir_name (l : list Z) : list Z := take (Z.to_nat DIRSIZ) (c_str l ++ [0]).
Definition dir_named (name : list Z) (de : dirent) : Prop :=
  de_inum de <> 0 /\ dir_name (de_name de) = dir_name name.

Lemma dir_match_spec name de : dir_match name de = true <-> dir_named name de.
Proof.
  unfold dir_match, dir_named, namecmp, dir_name.
  rewrite andb_true_iff, negb_true_iff, Z.eqb_neq, Z.eqb_eq, l_strncmp_eq. naive_solver.
Qed.

(** C11: [dirlookup] searches the directory for a name.  It finds the first entry
    in use whose name agrees with [name] up to [DIRSIZ] characters, and returns
    its offset and the inode cache's slot for its inode ([iget]); when there is
    none it returns 0.  It changes nothing else, and releases every buffer. *)
Theorem dirlookup_correct bl H ds V s dp x name
    (T : ktxn bl H ds V s) (Hx : icache s !! dp = Some x) (Hd : dir_ok H ds V x)
    (Hroom : room bl H) (Hok : icache_ok s)
    (Hget : forall k, 0 <= k < i_size x / sizeof_dirent ->
       iget_slot s (i_dev x) (de_inum (dir_entry V x k)) <> None) :
  wp (dirlookup dp name) s (fun r s' => ktxn bl H ds V s' /\
    ((r = (NULL, 0) /\ kframe s s' /\
      forall k, 0 <= k < i_size x / sizeof_dirent -> ~ dir_named name (dir_entry V x k)) \/
     (exists k y, r.2 = sizeof_dirent * k /\ 0 <= k < i_size x / sizeof_dirent /\
      dir_named name (dir_entry V x k) /\
      (forall j, 0 <= j < k -> ~ dir_named name (dir_entry V x j)) /\
      iget_slot s (i_dev x) (de_inum (dir_entry V x k)) = Some (r.1, y) /\
      kframe (iset r.1 y s) s'))).
Proof.
  eapply dirlookup_spec; [exact T|exact Hx|exact Hd|exact Hroom|exact Hok|].
  unfold dir_find. destruct (List.find _ _) as [k|] eqn:Hk.
  - apply find_seqZ in Hk as (Hkn & Hm & Hlow). rewrite Z.add_0_l in Hkn.
    destruct (iget_slot s (i_dev x) (de_inum (dir_entry V x k))) as [[ip y]|] eqn:Hs;
      [|by destruct (Hget k)].
    exists ip, y. split; [done|]. intros s' F T'. split; [done|]. right. exists k, y. cbn [fst snd].
    split; [done|]. split; [done|]. split; [by apply dir_match_spec|]. split; [|done].
    intros j Hj Hjn%dir_match_spec. by rewrite Hlow in Hjn by done.
  - intros s' F T'. split; [done|]. left. split; [done|]. split; [done|].
    intros k Hkn Hnm%dir_match_spec. pose proof (List.find_none _ _ Hk k) as Hn.
    rewrite <- list_elem_of_In, elem_of_seqZ in Hn. by rewrite Hn in Hnm by lia.
Qed.

(** A directory with the entries "." (inode 1) and "ab" (inode 7) in block 60. *)
Definition w_dir : inode := Inode ROOTDEV 1 1 no_lock true T_DIR 0 3 1 32 (60 :: zeros 12).
Definition w_dir_block : block :=
  put_dirent (Dirent 1 (l_strncpy 14 [46])) ++ put_dirent (Dirent 7 (l_strncpy 14 [97; 98])) ++
  replicate 992 0.
Definition w_dir_blocks (b : Z) : block := if b =? 60 then w_dir_block else zero_data.

Lemma w_dir_mapped V : V 60 = Some w_dir_block -> file_mapped ∅ ∅ V w_dir.
Proof.
  intros HV. constructor; [done|split; discriminate| |].
  - intros bn Hbn Hlt. cbn in Hlt. assert (bn = 0) as -> by (unfold BSIZE in Hlt; lia).
    exists 60, w_dir_block. split; [reflexivity|]. split; [|split; [exact HV|reflexivity]].
    split; [split; [discriminate|reflexivity]|]. split; [reflexivity|apply not_elem_of_empty].
  - unfold BSIZE, NDIRECT. cbn [i_size w_dir]. lia.
Qed.

Lemma readi_correct_witness : exists s,
  icache s !! 3 = Some w_dir /\ wp (readi 3 ToKernel 16 1000) s (fun r s' =>
    r.1 = 16 /\ r.2 = put_dirent (Dirent 7 (l_strncpy 14 [97; 98]))).
Proof.
  destruct (open_txn w_dir_blocks w_sb) as (s & T & _). exists (iset 3 w_dir s).
  split; [apply icache_iset|].
  eapply wp_mono; [apply (readi_correct [] ∅ ∅ (fun b => Some (w_dir_blocks b))
    (iset 3 w_dir s) 3 w_dir 16 1000 T)|].
  - apply icache_iset.
  - by apply w_dir_mapped.
  - reflexivity.
  - lia.
  - lia.
  - cbv beta. intros [n l] s' (Hn & Hl & _). cbn [fst snd] in *. subst n. split; [reflexivity|].
    rewrite Hl. vm_compute. reflexivity.
Defined.

Lemma dirlookup_correct_witness : exists s,
  icache s !! 3 = Some w_dir /\ wp (dirlookup 3 [97; 98]) s (fun r s' => r = (0, 16)).
Proof.
  destruct (open_txn w_dir_blocks w_sb) as (s & T & _ & Hic & Hlk & _).
  set (s1 := iset 3 w_dir s).
  assert (Hi1 : icache s1 = <[3 := w_dir]> (table NINODE bss_inode)) by (cbn; by rewrite Hic).
  assert (Hslot : forall i, iget_slot s1 ROOTDEV i =
    iget_slot (iset 3 w_dir (kernel_boot ∅ small_boot 0)) ROOTDEV i).
  { intros i. unfold iget_slot, icache_find, icache_free, slot_is, slot_free. by rewrite Hi1. }
  exists s1. split; [apply icache_iset|].
  eapply wp_mono; [apply (dirlookup_correct [] ∅ ∅ (fun b => Some (w_dir_blocks b)) s1 3 w_dir
    [97; 98] T)|].
  - apply icache_iset.
  - split; [reflexivity|]. split; [reflexivity|]. by apply w_dir_mapped.
  - reflexivity.
  - split; [exact Hlk|]. intros ip Hip. rewrite Hi1. destruct (Z.eq_dec ip 3) as [->|Hne].
    + eexists. apply lookup_insert_eq.
    + exists bss_inode. rewrite lookup_insert_ne by done. by apply lookup_table.
  - intros k Hk. change (i_size w_dir / sizeof_dirent) with 2 in Hk. assert (k = 0 \/ k = 1) as [-> | ->] by lia;
      (change (i_dev w_dir) with ROOTDEV; rewrite Hslot; vm_compute; discriminate).
  - cbv beta. intros [ip o] s' (_ & [(Hr & _ & Hno)|(k & y & Ho & Hk & Hnm & _ & Hs & _)]).
    + exfalso. apply (Hno 1); [split; [discriminate|reflexivity]|]. split; [discriminate|vm_compute; reflexivity].
    + cbn [fst snd] in *. change (i_size w_dir / sizeof_dirent) with 2 in Hk.
      assert (k = 0 \/ k = 1) as [-> | ->] by lia.
      * exfalso. destruct Hnm as [_ Hnm]. vm_compute in Hnm. discriminate Hnm.
      * change (i_dev w_dir) with ROOTDEV in Hs. rewrite Hslot in Hs. vm_compute in Hs.
        injection Hs as <- _. by rewrite Ho.
Defined.
