(* ===== verification/Writes.v ===== *)
(** Writing files, fs.c: [bmap] with the blocks that it allocates, [writei] as a
    write of the file's bytes that leaves every other file alone. *)
From S2P Require Import Prelude CString Bytes Locks Kalloc Vm Bio Log Kernel Fs Txn Blocks Files.

(** ** Well-formed files *)

(** The free blocks can be allocated. *)
Record fs_ok (sbk : superblock) (V : Z -> option block) (d : block) : Prop := {
  fk_bitmap : bitmap_in sbk V d;
  fk_free : forall a, 0 <= a < sb_size sbk -> bit_set d a = false ->
    a <> BBLOCK 0 sbk /\ a <> 0 /\ is_Some (V a)
}.

(** The number of free blocks. *)
Definition nfree (sbk : superblock) (d : block) : Z :=
  Z.of_nat (length (List.filter (fun a => negb (bit_set d a)) (seqZ 0 (sb_size sbk)))).

(** [a] is allocated to hold data. *)
Record data_block (sbk : superblock) (V : Z -> option block) (d : block) (a : Z) : Prop := {
  db_range : 0 <= a < sb_size sbk;
  db_bit : bit_set d a = true;
  db_bm : a <> BBLOCK 0 sbk;
  db_data : exists e, V a = Some e /\ length e = Z.to_nat BSIZE
}.

Definition file_range (bn : Z) : Prop := 0 <= bn < MAXFILE.

(** The blocks of a file: allocated, used once, and all that the size needs. *)
Record file_ok (sbk : superblock) (V : Z -> option block) (d : block) (x : inode) : Prop := {
  fo_dev : i_dev x = ROOTDEV;
  fo_len : length (i_addrs x) = Z.to_nat (NDIRECT + 1);
  fo_size : 0 <= i_size x <= MAXFILE * BSIZE;
  fo_addr : forall bn a, file_range bn -> file_addr V x bn = Some a -> data_block sbk V d a;
  fo_ind : addr_of x NDIRECT <> 0 -> data_block sbk V d (addr_of x NDIRECT);
  fo_inj : forall bn bn' a, file_range bn -> file_range bn' ->
    file_addr V x bn = Some a -> file_addr V x bn' = Some a -> bn = bn';
  fo_apart : forall bn, file_range bn -> file_addr V x bn <> Some (addr_of x NDIRECT);
  fo_mapped : forall bn, file_range bn -> bn * BSIZE < i_size x -> is_Some (file_addr V x bn)
}.

(** *** Addresses *)

Definition nonzero (a : Z) : option Z := if a =? 0 then None else Some a.

Lemma file_addr_eq V x bn : file_addr V x bn =
  if bn <? NDIRECT then nonzero (addr_of x bn)
  else if addr_of x NDIRECT =? 0 then None
  else d ← V (addr_of x NDIRECT); nonzero (uint_at d (bn - NDIRECT)).
Proof. done. Qed.

Lemma nonzero_Some a b : nonzero a = Some b <-> a = b /\ a <> 0.
Proof. unfold nonzero. destruct (Z.eqb_spec a 0); naive_solver. Qed.

Lemma addr_of_set i j a x : 0 <= i < Z.of_nat (length (i_addrs x)) -> 0 <= j ->
  addr_of (set_addr i a x) j = if decide (j = i) then a else addr_of x j.
Proof.
  intros Hi Hj. unfold addr_of, set_addr. cbn [i_addrs set_i_addrs]. case_decide as E.
  - subst j. by rewrite list_lookup_insert_eq by lia.
  - by rewrite list_lookup_insert_ne by lia.
Qed.

Lemma file_addr_ext V V' x bn :
  (addr_of x NDIRECT <> 0 -> V' (addr_of x NDIRECT) = V (addr_of x NDIRECT)) ->
  file_addr V' x bn = file_addr V x bn.
Proof.
  intros HV. rewrite !file_addr_eq. case_match; [done|].
  destruct (Z.eqb_spec (addr_of x NDIRECT) 0); [done|]. by rewrite HV.
Qed.

Lemma uint_at_put e i j a : 0 <= i < NINDIRECT -> 0 <= j < NINDIRECT ->
  length e = Z.to_nat BSIZE -> 0 <= a < 2 ^ 32 ->
  uint_at (put32 e (4 * Z.to_nat i)%nat a) j = if decide (j = i) then a else uint_at e j.
Proof.
  intros Hi Hj He Ha. unfold uint_at. assert (HB : Z.to_nat BSIZE = 1024%nat) by done.
  unfold NINDIRECT in Hi, Hj. change (BSIZE / 4) with 256 in Hi, Hj. case_decide as E.
  - subst j. rewrite get32_put32 by lia. by apply u32_small.
  - unfold get32, put32. apply get_put_le_ne; lia.
Qed.

Lemma uint_at_zero i : 0 <= i < NINDIRECT -> uint_at zero_data i = 0.
Proof.
  intros Hi. unfold uint_at, get32, get_le.
  assert (E : take 4 (drop (4 * Z.to_nat i) zero_data) = replicate 4 0).
  { unfold zero_data. rewrite drop_replicate, take_replicate. f_equal.
    unfold NINDIRECT in Hi. change (BSIZE / 4) with 256 in Hi.
    assert (HB : Z.to_nat BSIZE = 1024%nat) by done. lia. }
  by rewrite E.
Qed.

Lemma file_range_indirect bn : file_range bn -> NDIRECT <= bn -> 0 <= bn - NDIRECT < NINDIRECT.
Proof. unfold file_range, MAXFILE. lia. Qed.

(** A direct address is set. *)
Lemma file_addr_direct V x bn a bn' : length (i_addrs x) = Z.to_nat (NDIRECT + 1) ->
  0 <= bn < NDIRECT -> file_range bn' -> a <> 0 ->
  file_addr V (set_addr bn a x) bn' = if decide (bn' = bn) then Some a else file_addr V x bn'.
Proof.
  intros Hl Hbn [Hbn' _] Ha. unfold NDIRECT in Hl, Hbn.
  rewrite !file_addr_eq, !addr_of_set by (unfold NDIRECT; lia).
  destruct (Z.ltb_spec bn' NDIRECT) as [Hlt|Hge].
  - case_decide; [|done]. by apply nonzero_Some.
  - rewrite !decide_False by (unfold NDIRECT in *; lia). done.
Qed.

(** An indirect block of zeros is set. *)
Lemma file_addr_indirect V x ia bn' : length (i_addrs x) = Z.to_nat (NDIRECT + 1) ->
  addr_of x NDIRECT = 0 -> V ia = Some zero_data -> file_range bn' ->
  file_addr V (set_addr NDIRECT ia x) bn' = file_addr V x bn'.
Proof.
  intros Hl H0 Hia Hbn. unfold NDIRECT in Hl.
  rewrite !file_addr_eq, !addr_of_set by (unfold NDIRECT; destruct Hbn; lia).
  destruct (Z.ltb_spec bn' NDIRECT) as [Hlt|Hge].
  - rewrite decide_False by lia. done.
  - rewrite decide_True, H0 by done. cbn [Z.eqb]. case_match; [done|]. rewrite Hia. cbn [mbind option_bind].
    rewrite uint_at_zero by by apply file_range_indirect. done.
Qed.

(** An entry of the indirect block is set. *)
Lemma file_addr_entry V x e bn a bn' : addr_of x NDIRECT <> 0 ->
  V (addr_of x NDIRECT) = Some e -> length e = Z.to_nat BSIZE -> NDIRECT <= bn -> file_range bn ->
  file_range bn' -> 0 < a < 2 ^ 32 ->
  file_addr (vset V (addr_of x NDIRECT) (put32 e (4 * Z.to_nat (bn - NDIRECT))%nat a)) x bn' =
    if decide (bn' = bn) then Some a else file_addr V x bn'.
Proof.
  intros H0 He Hl Hge Hbn Hbn' Ha. rewrite !file_addr_eq.
  destruct (Z.ltb_spec bn' NDIRECT) as [Hlt|Hge'].
  - rewrite decide_False by lia. done.
  - rewrite (proj2 (Z.eqb_neq _ 0)) by done. unfold vset. rewrite decide_True, He by done.
    cbn [mbind option_bind]. rewrite uint_at_put by (try apply file_range_indirect; done || lia).
    case_decide as E1; case_decide as E2; try lia; [|done]. apply nonzero_Some. lia.
Qed.

(** *** What allocation does *)

Definition alloc (sbk : superblock) (V : Z -> option block) (d : block) (a : Z) : Z -> option block :=
  vset (vset V (BBLOCK 0 sbk) (bit_on a d)) a zero_data.

Section alloc.
Context {sbk : superblock} {V : Z -> option block} {d : block} {a : Z}.
Hypotheses (F : fs_ok sbk V d) (Ha : 0 <= a < sb_size sbk) (Hfree : bit_set d a = false).

Lemma alloc_bit b : 0 <= b -> bit_set (bit_on a d) b = if decide (b = a) then true else bit_set d b.
Proof.
  intros Hb. pose proof (fk_bitmap _ _ _ F) as [_ _ Hl [_ Hs]]. apply bit_set_on; [done| |done].
  rewrite LOGICAL_eq in Hs. unfold BPB, BSIZE. lia.
Qed.

Lemma alloc_new : alloc sbk V d a a = Some zero_data.
Proof. unfold alloc, vset. by rewrite decide_True. Qed.

Lemma alloc_bitmap : alloc sbk V d a (BBLOCK 0 sbk) = Some (bit_on a d).
Proof.
  unfold alloc, vset. rewrite decide_False, decide_True; [done..|].
  intros E. by destruct (fk_free _ _ _ F a Ha Hfree).
Qed.

Lemma alloc_other c : c <> a -> c <> BBLOCK 0 sbk -> alloc sbk V d a c = V c.
Proof. intros H1 H2. unfold alloc, vset. by rewrite !decide_False. Qed.

Lemma alloc_allocated c : bit_set d c = true -> c <> a.
Proof. intros H ->. congruence. Qed.

Lemma alloc_keep c : data_block sbk V d c -> data_block sbk (alloc sbk V d a) (bit_on a d) c.
Proof.
  intros [H1 H2 H3 (e & He & Hl)]. pose proof (alloc_allocated c H2) as Hne. constructor; try done.
  - rewrite alloc_bit by lia. by case_decide.
  - exists e. by rewrite alloc_other.
Qed.

Lemma alloc_data : data_block sbk (alloc sbk V d a) (bit_on a d) a.
Proof.
  destruct (fk_free _ _ _ F a Ha Hfree) as (H1 & H2 & H3). constructor; try done.
  - rewrite alloc_bit by lia. by rewrite decide_True.
  - exists zero_data. by rewrite alloc_new.
Qed.

Lemma alloc_fs : fs_ok sbk (alloc sbk V d a) (bit_on a d).
Proof.
  destruct F as [[B1 B2 B3 B4] Hf]. constructor.
  - constructor; [done|apply alloc_bitmap|by rewrite length_bit_on|done].
  - intros b Hb Hc. rewrite alloc_bit in Hc by lia. case_decide as E; [done|].
    destruct (Hf b Hb Hc) as (H1 & H2 & H3). by rewrite alloc_other.
Qed.

Lemma alloc_nfree : nfree sbk (bit_on a d) = nfree sbk d - 1.
Proof.
  unfold nfree. assert (Hin : a ∈ seqZ 0 (sb_size sbk)) by (apply elem_of_seqZ; lia).
  pose proof (NoDup_seqZ 0 (sb_size sbk)) as Hnd.
  assert (Hp : forall b, b ∈ seqZ 0 (sb_size sbk) -> 0 <= b) by (intros b [Hb _]%elem_of_seqZ; done).
  apply list_elem_of_split in Hin as (l1 & l2 & E). rewrite E in Hnd, Hp |- *.
  apply list.NoDup_app in Hnd as (_ & Hd1 & Hnd). apply list.NoDup_cons in Hnd as [Hd2 _].
  assert (Hsame : forall l, (forall b, b ∈ l -> 0 <= b /\ b <> a) ->
    List.filter (fun b => negb (bit_set (bit_on a d) b)) l =
      List.filter (fun b => negb (bit_set d b)) l).
  { intros l Hl. apply List.filter_ext_in. intros b Hb%list_elem_of_In.
    destruct (Hl b Hb) as [Hb0 Hba]. by rewrite alloc_bit, decide_False by done. }
  rewrite !List.filter_app, !length_app. cbn [List.filter].
  rewrite alloc_bit, decide_True, Hfree by (done || lia). cbn [negb length]. rewrite !Hsame.
  - lia.
  - intros b Hb. split; [apply Hp; set_solver|]. by intros ->.
  - intros b Hb. split; [apply Hp; set_solver|]. intros ->. by apply (Hd1 a Hb), list_elem_of_here.
Qed.
End alloc.

Lemma nfree_first sbk d : 0 < nfree sbk d -> is_Some (first_free sbk d).
Proof.
  intros Hn. unfold first_free. destruct (List.find _ _) eqn:E; [done|]. exfalso.
  unfold nfree in Hn. destruct (List.filter _ _) as [|b l] eqn:El; [done|].
  assert (Hb : In b (b :: l)) by by left. rewrite <- El in Hb. apply List.filter_In in Hb as [Hb Hc].
  pose proof (List.find_none _ _ E b Hb) as H. simpl in H. by rewrite H in Hc.
Qed.

(** [balloc] for a file system with a free block. *)
Lemma balloc_file {bl H V} s d (Q : Z -> kstate -> Prop) :
  ktxn bl H ∅ V s -> fs_ok (sb s) V d -> 0 < nfree (sb s) d ->
  (forall c i, H !! c = Some i -> c <> BBLOCK 0 (sb s) /\ bit_set d c = true) ->
  Z.of_nat (length bl) + Z.of_nat (size H) + 1 < NBUF -> log_room 2 bl ->
  (forall a s', kframe s s' -> 0 <= a < sb_size (sb s) -> bit_set d a = false ->
     ktxn (log_add a (log_add (BBLOCK 0 (sb s)) bl)) H ∅ (alloc (sb s) V d a) s' -> Q a s') ->
  wp (balloc ROOTDEV) s Q.
Proof.
  intros T F Hn HH Hroom Hlog HQ. destruct (nfree_first _ _ Hn) as [a Ha].
  pose proof Ha as Ha'. apply find_seqZ in Ha' as (Hr & Hc%negb_true_iff & _).
  destruct (fk_free _ _ _ F a Hr Hc) as (H1 & H2 & H3).
  eapply (balloc_spec s d a); [exact T|apply F| |apply not_elem_of_empty|done|done|done| |
    apply not_elem_of_empty|done|].
  - apply eq_None_not_Some. intros [i Hi]. by destruct (HH _ _ Hi).
  - apply eq_None_not_Some. intros [i Hi]. destruct (HH _ _ Hi). congruence.
  - intros s' Fr T'. by apply HQ.
Qed.

(** *** The file after an address was added *)

Lemma file_ok_keep sbk V V' d d' x :
  (forall c, data_block sbk V d c -> data_block sbk V' d' c /\ V' c = V c) ->
  file_ok sbk V d x -> file_ok sbk V' d' x.
Proof.
  intros HV [F1 F2 F3 F4 F5 F6 F7 F8].
  assert (E : forall bn, file_addr V' x bn = file_addr V x bn).
  { intros bn. apply file_addr_ext. intros Hn. by apply HV, F5. }
  constructor; try done; intros *; rewrite ?E; eauto.
  - intros Hr Ha. apply HV. by eapply F4.
  - intros Hn. by apply HV, F5.
Qed.

Lemma file_ok_map sbk V V' d d' x x' bn a : file_ok sbk V d x -> file_range bn ->
  i_dev x' = i_dev x -> i_size x' = i_size x -> length (i_addrs x') = length (i_addrs x) ->
  addr_of x' NDIRECT = addr_of x NDIRECT ->
  (forall bn', file_range bn' ->
     file_addr V' x' bn' = if decide (bn' = bn) then Some a else file_addr V x bn') ->
  (forall c, data_block sbk V d c -> data_block sbk V' d' c) -> data_block sbk V' d' a ->
  (forall bn', file_range bn' -> file_addr V x bn' <> Some a) -> a <> addr_of x NDIRECT ->
  file_ok sbk V' d' x'.
Proof.
  intros [F1 F2 F3 F4 F5 F6 F7 F8] Hbn E1 E2 E3 E4 Hm Hk Ha Hfr Hne.
  constructor; rewrite ?E1, ?E2, ?E3, ?E4; try done.
  - intros bn' b Hr. rewrite Hm by done. case_decide; [by intros [= <-]|]. intros Hb.
    by eapply Hk, F4.
  - intros Hn. by apply Hk, F5.
  - intros b1 b2 c H1 H2. rewrite !Hm by done.
    destruct (decide (b1 = bn)) as [->|N1], (decide (b2 = bn)) as [->|N2]; [done| | |by apply F6].
    + intros [= <-] Hb. by destruct (Hfr b2 H2).
    + intros Hb [= <-]. by destruct (Hfr b1 H1).
  - intros bn' Hr. rewrite Hm by done. case_decide; [congruence|]. by apply F7.
  - intros bn' Hr Hs. rewrite Hm by done. case_decide; [done|]. by apply F8.
Qed.

(** ** [bmap] *)

(** The blocks that a file needs for its indirect addresses. *)
Definition ind_cost (x : inode) : Z := if addr_of x NDIRECT =? 0 then 1 else 0.

(** After [bmap] of block [bn] of the file [x] returned [a]: the block is mapped
    there, freshly allocated and zero when it was not mapped before; nothing
    else of the file changed, and no other allocated block. *)
Record bmapped (sbk : superblock) (V : Z -> option block) (d : block) (x : inode) (bn a : Z)
    (V' : Z -> option block) (d' : block) (x' : inode) : Prop := {
  bp_fs : fs_ok sbk V' d';
  bp_file : file_ok sbk V' d' x';
  bp_inode : exists l, x' = set_i_addrs l x;
  bp_addr : file_addr V' x' bn = Some a;
  bp_same : forall bn', file_range bn' -> bn' <> bn -> file_addr V' x' bn' = file_addr V x bn';
  bp_data : match file_addr V x bn with
            | Some b => b = a
            | None => V' a = Some zero_data /\ bit_set d a = false
            end;
  bp_keep : forall c, data_block sbk V d c ->
    data_block sbk V' d' c /\ ((c = addr_of x NDIRECT -> c = 0) -> V' c = V c);
  bp_free : nfree sbk d - ind_cost x - 1 <= nfree sbk d' - ind_cost x';
  bp_ind : addr_of x NDIRECT <> 0 -> addr_of x' NDIRECT = addr_of x NDIRECT;
  bp_new : addr_of x NDIRECT = 0 -> addr_of x' NDIRECT <> 0 ->
    bit_set d (addr_of x' NDIRECT) = false
}.

(** The blocks logged. *)
Definition bmap_logs (bl bl' : list Z) (bm ia a : Z) : Prop :=
  forall c, c ∈ bl' -> c ∈ bl \/ c = bm \/ (c = ia /\ ia <> 0) \/ c = a.

Lemma bmapped_same sbk V d x bn a : fs_ok sbk V d -> file_ok sbk V d x -> file_range bn ->
  file_addr V x bn = Some a -> bmapped sbk V d x bn a V d x.
Proof.
  intros F FO Hr Ha. constructor; try done.
  - exists (i_addrs x). by destruct x.
  - by rewrite Ha.
  - lia.
Qed.

(** A block of the file is allocated, and its address is recorded by [x'], [V']. *)
Lemma bmapped_alloc sbk V d x bn a V' x' : fs_ok sbk V d -> file_ok sbk V d x -> file_range bn ->
  0 <= a < sb_size sbk -> bit_set d a = false -> file_addr V x bn = None ->
  (exists l, x' = set_i_addrs l x /\ length l = length (i_addrs x)) ->
  addr_of x' NDIRECT = addr_of x NDIRECT ->
  (forall bn', file_range bn' ->
     file_addr V' x' bn' = if decide (bn' = bn) then Some a else file_addr V x bn') ->
  (forall c, c <> addr_of x NDIRECT \/ addr_of x NDIRECT = 0 -> V' c = alloc sbk V d a c) ->
  (addr_of x NDIRECT <> 0 -> exists e, V' (addr_of x NDIRECT) = Some e /\ length e = Z.to_nat BSIZE) ->
  bmapped sbk V d x bn a V' (bit_on a d) x'.
Proof.
  intros F FO Hr Ha Hc Hnone (l & -> & Hl) Hind Hm HV Hi.
  pose proof (alloc_fs F Ha Hc) as F1. destruct (fk_free _ _ _ F a Ha Hc) as (Hbm & Ha0 & _).
  assert (Hai : a <> addr_of x NDIRECT).
  { destruct (decide (addr_of x NDIRECT = 0)) as [E|E]; [congruence|].
    pose proof (db_bit _ _ _ _ (fo_ind _ _ _ _ FO E)). congruence. }
  assert (Hib : addr_of x NDIRECT <> 0 -> addr_of x NDIRECT <> BBLOCK 0 sbk).
  { intros E. apply (db_bm _ _ _ _ (fo_ind _ _ _ _ FO E)). }
  assert (Hk : forall c, data_block sbk (alloc sbk V d a) (bit_on a d) c ->
    data_block sbk V' (bit_on a d) c).
  { intros c [H1 H2 H3 (e & He & Hle)]. constructor; try done.
    destruct (decide (addr_of x NDIRECT = 0)) as [E|E]; [exists e; by rewrite HV by by right|].
    destruct (decide (c = addr_of x NDIRECT)) as [->|Hne]; [by apply Hi|].
    exists e. by rewrite HV by by left. }
  constructor.
  - destruct F1 as [[B1 B2 B3 B4] Hf]. constructor.
    + constructor; try done. rewrite HV; [done|].
      destruct (decide (addr_of x NDIRECT = 0)); [by right|left]. intros E. by apply Hib.
    + intros b Hb Hbit. destruct (Hf b Hb Hbit) as (G1 & G2 & G3). split_and!; try done.
      rewrite HV; [done|]. destruct (decide (addr_of x NDIRECT = 0)) as [E|E]; [by right|left].
      intros ->. pose proof (db_bit _ _ _ _ (alloc_keep F Ha Hc _ (fo_ind _ _ _ _ FO E))). congruence.
  - apply (file_ok_map sbk V V' d _ x _ bn a); try done.
    + intros c Hd. by apply Hk, alloc_keep.
    + by apply Hk, alloc_data.
    + intros bn' Hbn' E. pose proof (db_bit _ _ _ _ (fo_addr _ _ _ _ FO _ _ Hbn' E)). congruence.
  - by exists l.
  - rewrite Hm by done. by rewrite decide_True.
  - intros bn' Hbn' Hne. rewrite Hm by done. by rewrite decide_False.
  - rewrite Hnone. rewrite HV by by left. by rewrite alloc_new.
  - intros c Hd. split; [by apply Hk, alloc_keep|]. intros Hne. rewrite HV.
    { apply alloc_other; [by eapply alloc_allocated, Hd|apply Hd]. }
    destruct (decide (c = addr_of x NDIRECT)) as [E|E]; [right|by left]. rewrite <- E. auto.
  - rewrite (alloc_nfree F Ha Hc). unfold ind_cost. rewrite Hind. lia.
  - by rewrite Hind.
  - rewrite Hind. congruence.
Qed.

Lemma is_block_data sbk V d a : fs_ok sbk V d -> 0 <= a < sb_size sbk -> is_block a.
Proof. intros F Ha. pose proof (bi_size _ _ _ (fk_bitmap _ _ _ F)). unfold is_block. lia. Qed.

Lemma alloc_ind sbk V d a x : fs_ok sbk V d -> file_ok sbk V d x -> 0 <= a < sb_size sbk ->
  bit_set d a = false -> addr_of x NDIRECT <> 0 ->
  alloc sbk V d a (addr_of x NDIRECT) = V (addr_of x NDIRECT).
Proof.
  intros F FO Ha Hc E. pose proof (fo_ind _ _ _ _ FO E) as D.
  apply alloc_other; [by eapply alloc_allocated, D|apply D].
Qed.

Lemma bmapped_direct sbk V d x bn a : fs_ok sbk V d -> file_ok sbk V d x ->
  0 <= bn < NDIRECT -> addr_of x bn = 0 -> 0 <= a < sb_size sbk -> bit_set d a = false ->
  bmapped sbk V d x bn a (alloc sbk V d a) (bit_on a d) (set_addr bn a x).
Proof.
  intros F FO Hbn H0 Ha Hc. pose proof (fo_len _ _ _ _ FO) as Hl.
  assert (Hr : file_range bn) by (unfold file_range; rewrite MAXFILE_eq; unfold NDIRECT in *; lia).
  destruct (fk_free _ _ _ F a Ha Hc) as (_ & Ha0 & _).
  assert (Hnd : addr_of (set_addr bn a x) NDIRECT = addr_of x NDIRECT).
  { rewrite addr_of_set by (rewrite ?Hl; unfold NDIRECT in *; lia). by rewrite decide_False by lia. }
  apply bmapped_alloc; try done.
  - rewrite file_addr_eq, (proj2 (Z.ltb_lt _ _)) by lia. by rewrite H0.
  - eexists. split; [done|]. apply length_insert.
  - intros bn' Hr'. rewrite file_addr_direct by done. case_decide; [done|].
    apply file_addr_ext. intros E. by apply alloc_ind.
  - intros E. rewrite alloc_ind by done. apply (fo_ind _ _ _ _ FO E).
Qed.

Lemma bmapped_entry sbk V d x bn a e : fs_ok sbk V d -> file_ok sbk V d x ->
  NDIRECT <= bn -> file_range bn -> addr_of x NDIRECT <> 0 -> V (addr_of x NDIRECT) = Some e ->
  length e = Z.to_nat BSIZE -> uint_at e (bn - NDIRECT) = 0 ->
  0 <= a < sb_size sbk -> bit_set d a = false ->
  bmapped sbk V d x bn a (vset (alloc sbk V d a) (addr_of x NDIRECT)
    (put32 e (4 * Z.to_nat (bn - NDIRECT))%nat a)) (bit_on a d) x.
Proof.
  intros F FO Hge Hr Hi He Hl H0 Ha Hc. destruct (fk_free _ _ _ F a Ha Hc) as (_ & Ha0 & _).
  pose proof (bi_size _ _ _ (fk_bitmap _ _ _ F)) as [_ Hs]. rewrite LOGICAL_eq in Hs.
  pose proof (alloc_ind sbk V d a x F FO Ha Hc Hi) as Ei.
  pose proof (file_range_indirect bn Hr Hge) as Hir. unfold NINDIRECT in Hir.
  change (BSIZE / 4) with 256 in Hir. assert (HB : Z.to_nat BSIZE = 1024%nat) by done.
  apply bmapped_alloc; try done.
  - rewrite file_addr_eq, (proj2 (Z.ltb_ge _ _)), (proj2 (Z.eqb_neq _ 0)), He by lia.
    cbn [mbind option_bind]. by rewrite H0.
  - exists (i_addrs x). by destruct x.
  - intros bn' Hr'. rewrite (file_addr_entry _ _ e) by (rewrite ?Ei; done || lia).
    case_decide; [done|]. by apply file_addr_ext.
  - intros c [Hne|E]; [|done]. unfold vset. by rewrite decide_False.
  - intros _. eexists. unfold vset. rewrite decide_True by done. split; [done|].
    unfold put32. rewrite length_put_le; lia.
Qed.

(** The indirect block is allocated first. *)
Lemma bmapped_indirect sbk V d x ia : fs_ok sbk V d -> file_ok sbk V d x ->
  addr_of x NDIRECT = 0 -> 0 <= ia < sb_size sbk -> bit_set d ia = false ->
  addr_of (set_addr NDIRECT ia x) NDIRECT = ia /\
  file_ok sbk (alloc sbk V d ia) (bit_on ia d) (set_addr NDIRECT ia x) /\
  (forall bn a V' d' x', file_range bn ->
   bmapped sbk (alloc sbk V d ia) (bit_on ia d) (set_addr NDIRECT ia x) bn a V' d' x' ->
   bmapped sbk V d x bn a V' d' x').
Proof.
  intros F FO H0 Ha Hc. pose proof (fo_len _ _ _ _ FO) as Hl.
  destruct (fk_free _ _ _ F ia Ha Hc) as (_ & Ha0 & _).
  assert (Hnd : addr_of (set_addr NDIRECT ia x) NDIRECT = ia).
  { rewrite addr_of_set by (rewrite ?Hl; unfold NDIRECT; lia). by rewrite decide_True. }
  assert (Hm : forall bn', file_range bn' ->
    file_addr (alloc sbk V d ia) (set_addr NDIRECT ia x) bn' = file_addr V x bn').
  { intros bn' Hr'. rewrite file_addr_indirect by (done || apply alloc_new). by apply file_addr_ext. }
  assert (Hbit : forall c, 0 <= c -> bit_set (bit_on ia d) c = false -> bit_set d c = false).
  { intros c Hc0. rewrite (alloc_bit F Ha) by done. by case_decide. }
  split; [done|]. split.
  - constructor; rewrite ?Hnd; try apply FO.
    + unfold set_addr. cbn. by rewrite length_insert.
    + intros bn' b Hr'. rewrite Hm by done. intros Hb. apply alloc_keep; [done..|].
      by apply (fo_addr _ _ _ _ FO bn').
    + intros _. by apply alloc_data.
    + intros b1 b2 c R1 R2. rewrite !Hm by done. by apply (fo_inj _ _ _ _ FO).
    + intros bn' Hr'. rewrite Hm by done. intros Hb.
      pose proof (db_bit _ _ _ _ (fo_addr _ _ _ _ FO _ _ Hr' Hb)). congruence.
    + intros bn' Hr'. rewrite Hm by done. by apply (fo_mapped _ _ _ _ FO).
  - intros bn a V' d' x' Hr [B1 B2 [l B3] B4 B5 B6 B7 B8 B9 B10]. rewrite Hnd in *. rewrite Hm in B6 by done.
    constructor; try done.
    + exists l. by rewrite B3.
    + intros bn' Hr' Hne. rewrite B5 by done. by apply Hm.
    + destruct (file_addr V x bn); [done|]. destruct B6 as [B6 B6']. split; [done|].
      apply Hbit; [|done]. apply (db_range _ _ _ _ (fo_addr _ _ _ _ B2 _ _ Hr B4)).
    + intros c Hd. pose proof (alloc_keep F Ha Hc c Hd) as Hd'. destruct (B7 c Hd') as [G1 G2].
      split; [done|]. intros _. rewrite G2 by (intros ->; pose proof (db_bit _ _ _ _ Hd); congruence).
      apply alloc_other; [by eapply alloc_allocated, Hd|apply Hd].
    + rewrite (alloc_nfree F Ha Hc) in B8. unfold ind_cost in B8 |- *. rewrite Hnd in B8.
      rewrite H0. rewrite (proj2 (Z.eqb_neq ia 0)) in B8 by done. cbn [Z.eqb]. lia.
    + intros _ _. by rewrite B9.
Qed.

(** The code of [bmap] after the indirect block is known. *)
Lemma bmap_entry_spec {bl V} s d x bn (Q : Z -> kstate -> Prop) :
  ktxn bl ∅ ∅ V s -> fs_ok (sb s) V d -> file_ok (sb s) V d x -> NDIRECT <= bn -> file_range bn ->
  addr_of x NDIRECT <> 0 -> 0 < nfree (sb s) d ->
  Z.of_nat (length bl) + 4 < NBUF -> log_room 3 bl ->
  (forall a bl' V' d' s', kframe s s' -> ktxn bl' ∅ ∅ V' s' ->
     bmapped (sb s) V d x bn a V' d' x ->
     bmap_logs bl bl' (BBLOCK 0 (sb s)) (addr_of x NDIRECT) a -> Q a s') ->
  wp (let! bp := in_bc (bread ROOTDEV (addr_of x NDIRECT)) in
      let! d := getd bp in
      let! target_addr :=
        (if uint_at d (bn - NDIRECT) =? 0 then
           let! target_addr := balloc ROOTDEV in
           if target_addr =? 0 then panic "bmap: balloc failed for data block via indirect" else
           updd bp (fun d => put32 d (4 * Z.to_nat (bn - NDIRECT))%nat target_addr) ;;;
           in_lo (log_write bp) ;;;
           ret target_addr
         else ret (uint_at d (bn - NDIRECT))) in
      in_bc (brelse bp) ;;;
      ret target_addr) s Q.
Proof.
  intros T F FO Hge Hr Hi Hn Hroom Hlog HQ. set (ia := addr_of x NDIRECT) in *.
  destruct (fo_ind _ _ _ _ FO Hi) as [D1 D2 D3 (e & He & Hl)]. fold ia in D1, D2, D3, He.
  apply wp_bind. eapply k_bread; [exact T|done|by eapply is_block_data|apply not_elem_of_empty|
    unfold room; rewrite map_size_empty; lia|exact He|].
  intros i s1 F1 T1. apply wp_bind.
  eapply (k_getd _ ia); [exact T1|apply lookup_insert_eq|exact He|]. intros s2 F2 T2.
  assert (Esb : sb s2 = sb s) by (apply kframe_sb; kf).
  apply wp_bind. destruct (Z.eqb_spec (uint_at e (bn - NDIRECT)) 0) as [H0|H0].
  - apply wp_bind. eapply (balloc_file s2 d); [exact T2|by rewrite Esb|by rewrite Esb| | | |].
    + rewrite Esb. intros c j Hj. apply lookup_insert_Some in Hj as [[<- _]|[_ Hj]]; [done|].
      by rewrite lookup_empty in Hj.
    + rewrite map_size_insert_None, map_size_empty by done. simpl. lia.
    + unfold log_room in *. lia.
    + rewrite Esb. intros a s3 F3 Ha Hc T3.
      destruct (fk_free _ _ _ F a Ha Hc) as (Hbm & Ha0 & _). rewrite (proj2 (Z.eqb_neq a 0)) by done.
      pose proof (alloc_ind _ V d a x F FO Ha Hc Hi) as Ei. fold ia in Ei.
      pose proof (length_log_add (BBLOCK 0 (sb s)) bl) as G1.
      pose proof (length_log_add a (log_add (BBLOCK 0 (sb s)) bl)) as G2.
      apply wp_bind. eapply (k_updd _ ia); [exact T3|apply lookup_insert_eq|by rewrite Ei|].
      intros s4 F4 T4. apply wp_bind.
      eapply (k_log_write _ ia); [exact T4|apply lookup_insert_eq|unfold vset; by rewrite decide_True| |].
      { unfold log_room in Hlog. lia. }
      intros s5 F5 T5. apply wp_ret. apply wp_bind.
      eapply (k_brelse _ ia); [exact T5|apply lookup_insert_eq|set_solver|]. intros s6 F6 T6.
      rewrite delete_insert_id in T6 by done.
      replace (({[ia]} ∪ ∅) ∖ {[ia]}) with (∅ : gset Z) in T6 by set_solver.
      apply wp_ret. eapply HQ; [kf|exact T6| |].
      * by apply bmapped_entry.
      * intros c. rewrite !elem_of_log_add. tauto.
  - apply wp_ret. apply wp_bind.
    eapply (k_brelse _ ia); [exact T2|apply lookup_insert_eq|apply not_elem_of_empty|].
    intros s3 F3 T3. rewrite delete_insert_id in T3 by done. apply wp_ret.
    eapply HQ; [kf|exact T3| |].
    + apply bmapped_same; [done..|]. rewrite file_addr_eq, (proj2 (Z.ltb_ge _ _)) by done.
      fold ia. rewrite (proj2 (Z.eqb_neq _ 0)), He by done. cbn [mbind option_bind].
      by apply nonzero_Some.
    + intros c Hc. by left.
Qed.

Lemma bmap_spec {bl V} s ip x d bn (Q : Z -> kstate -> Prop) :
  ktxn bl ∅ ∅ V s -> icache s !! ip = Some x -> fs_ok (sb s) V d -> file_ok (sb s) V d x ->
  file_range bn -> ind_cost x < nfree (sb s) d ->
  Z.of_nat (length bl) + 6 < NBUF -> log_room 5 bl ->
  (forall a bl' V' d' x' s', kframe (iset ip x' s) s' -> ktxn bl' ∅ ∅ V' s' ->
     bmapped (sb s) V d x bn a V' d' x' ->
     bmap_logs bl bl' (BBLOCK 0 (sb s)) (addr_of x' NDIRECT) a -> Q a s') ->
  wp (bmap ip bn) s Q.
Proof.
  intros T Hx F FO Hr Hn Hroom Hlog HQ. pose proof (fo_dev _ _ _ _ FO) as Hdev.
  assert (Hc0 : 0 <= ind_cost x) by (unfold ind_cost; case_match; lia).
  assert (Hbal : forall (Q : Z -> kstate -> Prop),
    (forall a s', kframe s s' -> 0 <= a < sb_size (sb s) -> bit_set d a = false ->
     ktxn (log_add a (log_add (BBLOCK 0 (sb s)) bl)) ∅ ∅ (alloc (sb s) V d a) s' -> Q a s') ->
    wp (balloc (i_dev x)) s Q).
  { intros Q' HQ'. rewrite Hdev. eapply (balloc_file s d); [done|done|lia|intros c j Hj; by rewrite lookup_empty in Hj| | |done].
    - rewrite map_size_empty. lia.
    - unfold log_room in *. lia. }
  unfold bmap. apply wp_bind. eapply wp_iget_at; [exact Hx|].
  destruct (Z.ltb_spec bn NDIRECT) as [Hlt|Hge].
  - destruct (Z.eqb_spec (addr_of x bn) 0) as [H0|H0].
    + apply wp_bind. apply Hbal. intros a s1 F1 Ha Hc T1.
      destruct (fk_free _ _ _ F a Ha Hc) as (_ & Ha0 & _). rewrite (proj2 (Z.eqb_neq a 0)) by done.
      apply wp_bind. eapply wp_iupd; [by rewrite (kframe_icache _ _ F1)|]. apply wp_ret.
      eapply HQ; [by apply kframe_iset|exact T1| |].
      * apply bmapped_direct; try done. split; [apply Hr|done].
      * intros c. rewrite !elem_of_log_add. tauto.
    + apply wp_ret. eapply HQ; [by rewrite (iset_id ip x)|exact T| |].
      * apply bmapped_same; [done..|]. rewrite file_addr_eq, (proj2 (Z.ltb_lt _ _)) by done.
        by apply nonzero_Some.
      * intros c Hc. by left.
  - cbv zeta. pose proof (file_range_indirect bn Hr Hge) as Hir.
    rewrite (proj2 (Z.ltb_lt (bn - NDIRECT) NINDIRECT)) by lia. apply wp_bind.
    destruct (Z.eqb_spec (addr_of x NDIRECT) 0) as [H0|H0].
    + apply wp_bind. apply Hbal. intros ia s1 F1 Ha Hc T1.
      destruct (fk_free _ _ _ F ia Ha Hc) as (_ & Ha0 & _). rewrite (proj2 (Z.eqb_neq ia 0)) by done.
      apply wp_bind. eapply wp_iupd; [by rewrite (kframe_icache _ _ F1)|]. apply wp_ret.
      destruct (bmapped_indirect (sb s) V d x ia F FO H0 Ha Hc) as (Hnd & FO1 & Hcomp).
      pose proof (alloc_fs F Ha Hc) as F1'. pose proof (alloc_nfree F Ha Hc) as Hn1.
      set (x1 := set_addr NDIRECT ia x) in *. set (s2 := iset ip x1 s1).
      assert (Esb : sb s2 = sb s) by (apply (kframe_sb _ _ F1)).
      pose proof (length_log_add (BBLOCK 0 (sb s)) bl) as G1.
      pose proof (length_log_add ia (log_add (BBLOCK 0 (sb s)) bl)) as G2.
      rewrite Hdev. rewrite <- Hnd at 1.
      eapply (bmap_entry_spec s2 (bit_on ia d) x1 bn); rewrite ?Esb; try done.
      * by rewrite Hnd.
      * unfold ind_cost in Hn. rewrite H0 in Hn. cbn [Z.eqb] in Hn. lia.
      * lia.
      * unfold log_room in *. lia.
      * rewrite Hnd. intros a bl' V' d' s3 F3 T3 B L. eapply (HQ a bl' V' d' x1); [|done|by apply Hcomp|].
        -- etransitivity; [by apply kframe_iset|exact F3].
        -- rewrite Hnd. intros c Hc'. destruct (L c Hc') as [Hbl|]; [|tauto].
           rewrite !elem_of_log_add in Hbl. tauto.
    + apply wp_ret. rewrite Hdev. eapply (bmap_entry_spec s d x bn); try done.
      * lia.
      * lia.
      * unfold log_room in *. lia.
      * intros a bl' V' d' s3 F3 T3 B L. eapply (HQ a bl' V' d' x); [|done..]. by rewrite iset_id.
Qed.

(** ** The bytes of a file *)

Definition in_file (i : Z) : Prop := 0 <= i < MAXFILE * BSIZE.

Lemma in_file_block i : in_file i -> file_range (i / BSIZE).
Proof.
  unfold in_file, file_range. intros [H1 H2]. split; [apply Z.div_pos; done|].
  apply Z.div_lt_upper_bound; [done|lia].
Qed.

(** The blocks of a file. *)
Definition file_uses (V : Z -> option block) (x : inode) (c : Z) : Prop :=
  (c = addr_of x NDIRECT /\ c <> 0) \/ exists bn, file_range bn /\ file_addr V x bn = Some c.

Lemma byte_at_zero i : 0 <= i -> byte_at zero_data i = 0.
Proof.
  intros Hi. unfold byte_at, zero_data. destruct (_ !! _) eqn:E; [|done].
  by apply lookup_replicate in E as [-> _].
Qed.

Lemma file_addr_nonzero V x bn a : file_addr V x bn = Some a -> a <> 0.
Proof.
  rewrite file_addr_eq. case_match; [by intros [-> ?]%nonzero_Some|]. case_match; [done|].
  destruct (V _); [|done]. cbn [mbind option_bind]. by intros [-> ?]%nonzero_Some.
Qed.

Lemma data_not_indirect sbk V d x bn a : file_ok sbk V d x -> file_range bn ->
  file_addr V x bn = Some a -> a = addr_of x NDIRECT -> a = 0.
Proof. intros FO Hr Ha ->. by destruct (fo_apart _ _ _ _ FO bn Hr). Qed.

(** [bmap] changes no byte. *)
Lemma bmapped_byte sbk V d x bn a V' d' x' i : file_ok sbk V d x -> file_range bn ->
  bmapped sbk V d x bn a V' d' x' -> in_file i -> file_byte V' x' i = file_byte V x i.
Proof.
  intros FO Hr B Hi. pose proof (in_file_block i Hi) as Hb. unfold file_byte, file_block.
  assert (Hold : forall b bn', file_range bn' -> file_addr V x bn' = Some b -> V' b = V b).
  { intros b bn' Hr' Hbn. apply (bp_keep _ _ _ _ _ _ _ _ _ B); [by eapply fo_addr|].
    by eapply data_not_indirect. }
  destruct (decide (i / BSIZE = bn)) as [E|E].
  - rewrite E, (bp_addr _ _ _ _ _ _ _ _ _ B). pose proof (bp_data _ _ _ _ _ _ _ _ _ B) as Hd.
    destruct (file_addr V x bn) as [b|] eqn:Eb; cbn [mbind option_bind].
    + subst b. by rewrite (Hold a bn).
    + destruct Hd as [-> _]. cbn [default]. unfold id.
      rewrite byte_at_zero by (apply Z.mod_pos_bound; done). unfold byte_at. by rewrite lookup_nil.
  - rewrite (bp_same _ _ _ _ _ _ _ _ _ B) by done.
    destruct (file_addr V x (i / BSIZE)) as [b|] eqn:Eb; [|done]. cbn [mbind option_bind].
    by rewrite (Hold b (i / BSIZE)).
Qed.

Lemma file_uses_data sbk V d x c : file_ok sbk V d x -> file_uses V x c -> data_block sbk V d c.
Proof.
  intros FO [[-> Hn]|(bn & Hr & Hc)]; [by apply (fo_ind _ _ _ _ FO)|by apply (fo_addr _ _ _ _ FO bn)].
Qed.

(** A file whose blocks do not change. *)
Section frame.
Context {V V' : Z -> option block} {x : inode}.
Hypothesis (HV : forall c, file_uses V x c -> V' c = V c).

Lemma frame_addr bn : file_addr V' x bn = file_addr V x bn.
Proof. apply file_addr_ext. intros Hn. apply HV. by left. Qed.

Lemma frame_uses c : file_uses V' x c <-> file_uses V x c.
Proof. unfold file_uses. by setoid_rewrite frame_addr. Qed.

Lemma frame_byte i : in_file i -> file_byte V' x i = file_byte V x i.
Proof.
  intros Hi. unfold file_byte, file_block. rewrite frame_addr.
  destruct (file_addr V x (i / BSIZE)) as [a|] eqn:Ea; [|done]. cbn [mbind option_bind]. rewrite HV; [done|].
  right. exists (i / BSIZE). split; [by apply in_file_block|done].
Qed.

Lemma frame_file {sbk d d'} :
  (forall c, file_uses V x c -> data_block sbk V d c -> data_block sbk V' d' c) ->
  file_ok sbk V d x -> file_ok sbk V' d' x.
Proof.
  intros HD [F1 F2 F3 F4 F5 F6 F7 F8]. constructor; try done; intros *; rewrite ?frame_addr; eauto.
  - intros Hr Ha. apply HD; [right; by exists bn|by apply (F4 bn)].
  - intros Hn. apply HD; [by left|by apply F5].
Qed.
End frame.

Section store.
Context {sbk : superblock} {V : Z -> option block} {d : block} {x : inode} {bn a : Z} {e e' : block}.
Hypotheses (F : fs_ok sbk V d) (FO : file_ok sbk V d x) (Hr : file_range bn)
  (Ha : file_addr V x bn = Some a) (He : V a = Some e) (Hl : length e' = Z.to_nat BSIZE).

(** The content [e'] is stored to block [bn]. *)
Lemma store_addr bn' : file_addr (vset V a e') x bn' = file_addr V x bn'.
Proof.
  apply file_addr_ext. intros Hn. unfold vset. rewrite decide_False; [done|]. intros E.
  by destruct (fo_apart _ _ _ _ FO bn Hr); rewrite E.
Qed.

Lemma store_keep c : data_block sbk V d c -> data_block sbk (vset V a e') d c.
Proof.
  intros [H1 H2 H3 H4]. constructor; try done. unfold vset.
  case_decide; [by exists e'|exact H4].
Qed.

Lemma store_file : file_ok sbk (vset V a e') d x.
Proof.
  destruct FO as [F1 F2 F3 F4 F5 F6 F7 F8]. constructor; try done; intros *; rewrite ?store_addr; eauto.
  - intros Hr' Hb. apply store_keep. by eapply F4.
  - intros Hn. by apply store_keep, F5.
Qed.

Lemma store_fs : fs_ok sbk (vset V a e') d.
Proof.
  destruct (fo_addr _ _ _ _ FO bn a Hr Ha) as [_ A2 A3 _].
  destruct F as [[B1 B2 B3 B4] Hf]. constructor.
  - constructor; try done. unfold vset. by rewrite decide_False by congruence.
  - intros b Hb Hc. destruct (Hf b Hb Hc) as (H1 & H2 & H3). split_and!; try done.
    unfold vset. by case_decide.
Qed.

Lemma store_byte i : in_file i -> file_byte (vset V a e') x i =
  if decide (i / BSIZE = bn) then byte_at e' (i mod BSIZE) else file_byte V x i.
Proof.
  intros Hi. unfold file_byte, file_block. rewrite store_addr. case_decide as E.
  - rewrite E, Ha. cbn [mbind option_bind]. unfold vset. by rewrite decide_True.
  - destruct (file_addr V x (i / BSIZE)) as [b|] eqn:Eb; [|done]. cbn [mbind option_bind].
    unfold vset. rewrite decide_False; [done|]. intros ->. apply E.
    by eapply (fo_inj _ _ _ _ FO); [apply in_file_block| | |].
Qed.
End store.

Lemma byte_at_splice e p l j : 0 <= p -> p + Z.of_nat (length l) <= Z.of_nat (length e) -> 0 <= j ->
  byte_at (splice e (Z.to_nat p) l) j =
    if decide (p <= j < p + Z.of_nat (length l)) then byte_at l (j - p) else byte_at e j.
Proof.
  intros Hp Hle Hj. unfold byte_at. case_decide as E.
  - rewrite splice_lookup_mid by lia. f_equal. f_equal. lia.
  - destruct (decide (j < p)); [rewrite splice_lookup_lt by lia; done|].
    rewrite splice_lookup_ge by lia. done.
Qed.

(** ** [writei] *)

(** The bytes [l] were written at [off], to [k] blocks of the file [x]; [bl'] are
    the blocks logged since [bl]. *)
Record wrote (sbk : superblock) (V : Z -> option block) (d : block) (x : inode) (bl : list Z)
    (off : Z) (l : list Z) (k : Z) (V' : Z -> option block) (d' : block) (x' : inode)
    (bl' : list Z) : Prop := {
  wr_fs : fs_ok sbk V' d';
  wr_file : file_ok sbk V' d' x';
  wr_inode : exists la, x' = set_i_addrs la x;
  wr_bytes : forall i, in_file i -> file_byte V' x' i =
    if decide (off <= i < off + Z.of_nat (length l)) then byte_at l (i - off) else file_byte V x i;
  wr_uses : forall c, file_uses V' x' c -> data_block sbk V d c -> file_uses V x c;
  wr_keep : forall c, data_block sbk V d c ->
    data_block sbk V' d' c /\ (~ file_uses V x c -> V' c = V c);
  wr_free : nfree sbk d - ind_cost x - k <= nfree sbk d' - ind_cost x';
  wr_mapped : forall j, 0 <= j < k -> is_Some (file_addr V' x' (off / BSIZE + j));
  wr_logs : forall c, c ∈ bl' -> c ∈ bl \/ c = BBLOCK 0 sbk \/ (c = addr_of x' NDIRECT /\ c <> 0) \/
    exists j, 0 <= j < k /\ file_addr V' x' (off / BSIZE + j) = Some c
}.

Lemma wrote_nothing sbk V d x bl off : fs_ok sbk V d -> file_ok sbk V d x ->
  wrote sbk V d x bl off [] 0 V d x bl.
Proof.
  intros F FO. constructor; try done.
  - exists (i_addrs x). by destruct x.
  - intros i Hi. rewrite decide_False; [done|]. simpl. lia.
  - lia.
  - intros j Hj. lia.
  - intros c Hc. by left.
Qed.

Lemma bmapped_uses sbk V d x bn a V' d' x' c : file_range bn -> bmapped sbk V d x bn a V' d' x' ->
  file_uses V' x' c -> data_block sbk V d c -> file_uses V x c.
Proof.
  intros Hr B [[-> Hn]|(bn' & Hr' & Hc)] D.
  - destruct (decide (addr_of x NDIRECT = 0)) as [E|E].
    + pose proof (bp_new _ _ _ _ _ _ _ _ _ B E Hn). pose proof (db_bit _ _ _ _ D). congruence.
    + left. by rewrite <- (bp_ind _ _ _ _ _ _ _ _ _ B).
  - right. exists bn'. split; [done|]. destruct (decide (bn' = bn)) as [->|Hne].
    + rewrite (bp_addr _ _ _ _ _ _ _ _ _ B) in Hc. injection Hc as <-.
      pose proof (bp_data _ _ _ _ _ _ _ _ _ B) as Hd. destruct (file_addr V x bn) as [b|]; [by subst b|].
      destruct Hd as [_ Hd]. pose proof (db_bit _ _ _ _ D). congruence.
    + by rewrite <- (bp_same _ _ _ _ _ _ _ _ _ B).
Qed.

Section step.
Context {sbk : superblock} {V : Z -> option block} {d : block} {x : inode} {bl : list Z}
  {off : Z} {l1 : list Z} {k : Z} {V1 : Z -> option block} {d1 : block} {x1 : inode} {bl1 : list Z}.
Hypotheses (Hoff : 0 <= off) (W : wrote sbk V d x bl off l1 k V1 d1 x1 bl1).
Notation o := (off + Z.of_nat (length l1)).
Context {a : Z} {bl2 : list Z} {V2 : Z -> option block} {d2 : block} {x2 : inode} {e : block}
  {l2 : list Z}.
Hypotheses (Hk : 0 <= k) (Hbn : o / BSIZE = off / BSIZE + k) (Hr : file_range (o / BSIZE))
  (B : bmapped sbk V1 d1 x1 (o / BSIZE) a V2 d2 x2)
  (L : bmap_logs bl1 bl2 (BBLOCK 0 sbk) (addr_of x2 NDIRECT) a)
  (He : V2 a = Some e) (Hle : length e = Z.to_nat BSIZE)
  (Hm : o mod BSIZE + Z.of_nat (length l2) <= BSIZE).
Notation V3 := (vset V2 a (splice e (Z.to_nat (o mod BSIZE)) l2)).

Let FO1 := wr_file _ _ _ _ _ _ _ _ _ _ _ _ W.
Let FO2 := bp_file _ _ _ _ _ _ _ _ _ B.
Let Ba := bp_addr _ _ _ _ _ _ _ _ _ B.

Lemma step_len : length (splice e (Z.to_nat (o mod BSIZE)) l2) = Z.to_nat BSIZE.
Proof. pose proof (Z.mod_pos_bound o BSIZE ltac:(done)). rewrite length_splice; lia. Qed.

Lemma step_addr bn' : file_addr V3 x2 bn' = file_addr V2 x2 bn'.
Proof. by apply (store_addr FO2 Hr Ba). Qed.

Lemma step_old j : 0 <= j < k ->
  file_addr V3 x2 (off / BSIZE + j) = file_addr V1 x1 (off / BSIZE + j).
Proof.
  intros Hj. rewrite step_addr. apply (bp_same _ _ _ _ _ _ _ _ _ B); [|lia].
  unfold file_range in *. pose proof (Z.div_pos off BSIZE Hoff ltac:(done)). lia.
Qed.

Lemma step_byte i : in_file i -> file_byte V3 x2 i =
  if decide (off <= i < off + Z.of_nat (length (l1 ++ l2))) then byte_at (l1 ++ l2) (i - off)
  else file_byte V x i.
Proof.
  intros Hi. pose proof (Z.mod_pos_bound o BSIZE ltac:(done)) as Hmo.
  pose proof (Z.mod_pos_bound i BSIZE ltac:(done)) as Hmi.
  pose proof (Z.div_mod o BSIZE ltac:(done)) as Do. pose proof (Z.div_mod i BSIZE ltac:(done)) as Di.
  rewrite (store_byte FO2 Hr Ba) by done.
  pose proof (wr_bytes _ _ _ _ _ _ _ _ _ _ _ _ W i Hi) as Hb1.
  rewrite <- (bmapped_byte sbk V1 d1 x1 _ a V2 d2 x2 i FO1 Hr B Hi) in Hb1.
  assert (Happ : off <= i -> byte_at (l1 ++ l2) (i - off) =
    if decide (i < o) then byte_at l1 (i - off) else byte_at l2 (i - o)).
  { intros Hge. unfold byte_at. destruct (decide (i < o)) as [C|C].
    { by rewrite lookup_app_l by lia. }
    rewrite lookup_app_r by lia. do 2 f_equal. lia. }
  rewrite length_app, Nat2Z.inj_add. destruct (decide (i / BSIZE = o / BSIZE)) as [E|E].
  - rewrite byte_at_splice by lia. rewrite E in Di.
    assert (Hbe : byte_at e (i mod BSIZE) = file_byte V2 x2 i).
    { unfold file_byte, file_block. rewrite E, Ba. cbn [mbind option_bind]. by rewrite He. }
    destruct (decide (o mod BSIZE <= i mod BSIZE < o mod BSIZE + Z.of_nat (length l2))) as [C1|C1].
    + rewrite decide_True, Happ, decide_False by lia. f_equal. lia.
    + rewrite Hbe, Hb1. destruct (decide (off <= i < o)) as [C2|C2].
      * by rewrite decide_True, Happ, decide_True by lia.
      * by rewrite decide_False by lia.
  - rewrite Hb1. destruct (decide (off <= i < o)) as [C2|C2].
    + by rewrite decide_True, Happ, decide_True by lia.
    + rewrite decide_False; [done|]. intros Hc. apply E. symmetry.
      apply (Z.div_unique_pos i BSIZE _ (i - BSIZE * (o / BSIZE))); lia.
Qed.

Lemma wrote_step : wrote sbk V d x bl off (l1 ++ l2) (k + 1) V3 d2 x2 (log_add a bl2).
Proof.
  pose proof W as [W1 W2 [la W3] W4 W5 W6 W7 W8 W9]. destruct (bp_inode _ _ _ _ _ _ _ _ _ B) as [la' Ex].
  assert (Huses : forall c, file_uses V3 x2 c -> data_block sbk V d c -> file_uses V x c).
  { intros c Hc D. apply W5; [|done]. eapply bmapped_uses; [exact Hr|exact B| |by apply W6].
    destruct Hc as [Hc|(bn' & Hr' & Hc)]; [by left|right]. exists bn'. by rewrite step_addr in Hc. }
  constructor.
  - apply (store_fs (bp_fs _ _ _ _ _ _ _ _ _ B) FO2 Hr Ba).
  - apply (store_file FO2 Hr Ba step_len).
  - exists la'. by rewrite Ex, W3.
  - apply step_byte.
  - exact Huses.
  - intros c D. destruct (W6 c D) as [D1 K1]. destruct (bp_keep _ _ _ _ _ _ _ _ _ B c D1) as [D2 K2].
    split; [by apply (store_keep step_len)|]. intros Hn. unfold vset. rewrite decide_False.
    + rewrite K2, K1; [done|done|]. intros E. apply Decidable.not_not; [apply Z.eq_decidable|]. intros Hc.
      apply Hn, W5; [|done]. left. by split.
    + intros ->. apply Hn, Huses; [|done]. right. exists (o / BSIZE). split; [done|]. by rewrite step_addr.
  - pose proof (bp_free _ _ _ _ _ _ _ _ _ B). lia.
  - intros j Hj. destruct (decide (j = k)) as [->|Hne].
    + rewrite step_addr, <- Hbn, Ba. done.
    + rewrite step_old by lia. apply W8. lia.
  - intros c. rewrite elem_of_log_add. intros Hc.
    assert (Hca : c = a -> exists j, 0 <= j < k + 1 /\ file_addr V3 x2 (off / BSIZE + j) = Some c).
    { intros ->. exists k. split; [lia|]. by rewrite step_addr, <- Hbn. }
    destruct Hc as [Hc|Hc]; [auto|]. destruct (L c Hc) as [Hc1|[Hc1|[[Hc1 Hc1']|Hc1]]]; auto.
    2:{ right. right. left. by rewrite Hc1. }
    destruct (W9 c Hc1) as [Hc2|[Hc2|[[Hc2 Hc2']|(j & Hj & Hc2)]]]; auto.
    + right. right. left. split; [|done]. rewrite Hc2. symmetry.
      apply (bp_ind _ _ _ _ _ _ _ _ _ B). congruence.
    + do 3 right. exists j. split; [lia|]. by rewrite step_old.
Qed.
End step.

(** *** The source *)

Definition src_at (src : ksrc) (n : Z) : ksrc :=
  match src with
  | FromUser va => FromUser (u64 (va + n))
  | FromKernel l => FromKernel (drop (Z.to_nat n) l)
  end.

Lemma src_at_add src a b : 0 <= a -> 0 <= b -> ksrc_add (src_at src a) b = src_at src (a + b).
Proof.
  intros Ha Hb. destruct src as [va|l]; simpl.
  - f_equal. unfold u64. rewrite Z.add_mod_idemp_l by done. f_equal. lia.
  - rewrite drop_drop. do 2 f_equal. lia.
Qed.

Definition src_ok (src : ksrc) : Prop :=
  match src with FromUser va => 0 <= va < 2 ^ 64 | FromKernel _ => True end.

Lemma src_at_0 src : src_ok src -> src_at src 0 = src.
Proof.
  destruct src as [va|l]; simpl; intros H; [|done]. f_equal. rewrite Z.add_0_r. unfold u64.
  by apply Z.mod_small.
Qed.

(** The memory and the page table of the running process are the same. *)
Definition uframe (s s' : kstate) : Prop :=
  mem s' = mem s /\ cur s' = cur s /\ p_pagetable <$> procs s' = p_pagetable <$> procs s.

Lemma kframe_uframe ip x s s' : kframe (iset ip x s) s' -> uframe s s'.
Proof.
  intros (c & l & -> & _). unfold uframe, deliver, set_procs, set_lo, iset, set_icache. cbn.
  split; [done|]. split; [done|]. rewrite <- map_fmap_compose. apply map_fmap_ext.
  intros i p _. unfold compose. induction c as [|ch c IH]; [done|]. simpl. rewrite <- IH.
  unfold wake. by destruct (p_state _); try done; case_match.
Qed.

(** The source holds [l]. *)
Definition reads (s : kstate) (src : ksrc) (l : list Z) : Prop := src_ok src /\
  forall n m s', 0 <= n -> 0 < m -> n + m <= Z.of_nat (length l) -> uframe s s' ->
    either_copyin (src_at src n) m s' = Ret (0, take (Z.to_nat m) (drop (Z.to_nat n) l)) s'.

Lemma reads_kernel s l : reads s (FromKernel l) l.
Proof. by split. Qed.

(** *** The loop *)

Lemma wrote_logs_length sbk V d x bl off l k V' d' x' bl' :
  wrote sbk V d x bl off l k V' d' x' bl' -> NoDup bl' -> 0 <= k ->
  Z.of_nat (length bl') <= Z.of_nat (length bl) + 2 + k.
Proof.
  intros W Hnd Hk. set (l' := bl ++ [BBLOCK 0 sbk; addr_of x' NDIRECT] ++
    ((fun j => default 0 (file_addr V' x' (off / BSIZE + j))) <$> seqZ 0 k)).
  assert (Hs : bl' ⊆+ l').
  { apply NoDup_submseteq; [done|]. intros c Hc. unfold l'. rewrite !elem_of_app.
    destruct (wr_logs _ _ _ _ _ _ _ _ _ _ _ _ W c Hc) as [?|[->|[[-> _]|(j & Hj & E)]]].
    - by left.
    - right. left. apply list_elem_of_here.
    - right. left. apply list_elem_of_further, list_elem_of_here.
    - right. right. apply list_elem_of_fmap. exists j. rewrite E. split; [done|].
      apply elem_of_seqZ. lia. }
  apply submseteq_length in Hs. unfold l' in Hs. rewrite !length_app, length_fmap, length_seqZ in Hs.
  simpl in Hs. lia.
Qed.

(** The number of blocks that [n] bytes at [off] touch. *)
Definition nblocks (off n : Z) : Z := (off + n - 1) / BSIZE - off / BSIZE + 1.

Lemma wp_copyin s src l n m (Q : Z * list Z -> kstate -> Prop) s' :
  reads s src l -> 0 <= n -> 0 < m -> n + m <= Z.of_nat (length l) -> uframe s s' ->
  Q (0, take (Z.to_nat m) (drop (Z.to_nat n) l)) s' -> wp (either_copyin (src_at src n) m) s' Q.
Proof. intros [_ Hr] Hn Hm Hle Hf HQ. eapply wp_eq; [by apply Hr|exact HQ]. Qed.

Lemma BSIZE_eq : BSIZE = 1024. Proof. done. Qed.

Lemma bmap_logs_length {bl bl' bm ia a} : bmap_logs bl bl' bm ia a -> NoDup bl' ->
  Z.of_nat (length bl') <= Z.of_nat (length bl) + 3.
Proof.
  intros L Hnd. assert (Hs : bl' ⊆+ bl ++ [bm; ia; a]).
  { apply NoDup_submseteq; [done|]. intros c Hc. destruct (L c Hc) as [?|[?|[[? _]|?]]]; set_solver. }
  apply submseteq_length in Hs. rewrite length_app in Hs. simpl in Hs. lia.
Qed.

(** The state of the loop after [tot] bytes. *)
Record wloop {bl V} (s : kstate) (ip : Z) (x : inode) (d : block) (off : Z) (l : list Z) (tot : Z)
    (k : Z) (s' : kstate) (V' : Z -> option block) (d' : block) (x' : inode) (bl' : list Z) :
    Prop := {
  wl_tot : 0 <= tot <= Z.of_nat (length l);
  wl_frame : kframe (iset ip x' s) s';
  wl_txn : ktxn bl' ∅ ∅ V' s';
  wl_wrote : wrote (sb s) V d x bl off (take (Z.to_nat tot) l) k V' d' x' bl';
  wl_k : 0 <= k;
  wl_at : tot < Z.of_nat (length l) -> (off + tot) / BSIZE = off / BSIZE + k;
  wl_last : 0 < tot -> (off + tot - 1) / BSIZE = off / BSIZE + k - 1;
  wl_zero : tot = 0 -> k = 0
}.

Section writei.
Context {bl : list Z} {V : Z -> option block} {s : kstate} {ip : Z} {x : inode} {d : block}
  {off : Z} {l : list Z} {src : ksrc}.
Hypotheses (T : ktxn bl ∅ ∅ V s) (Hx : icache s !! ip = Some x) (F : fs_ok (sb s) V d)
  (FO : file_ok (sb s) V d x) (Hsrc : reads s src l) (Hoff : 0 <= off)
  (Hend : off + Z.of_nat (length l) <= MAXFILE * BSIZE)
  (Hspace : ind_cost x + nblocks off (Z.of_nat (length l)) <= nfree (sb s) d)
  (Hlog : Z.of_nat (length bl) + nblocks off (Z.of_nat (length l)) + 8 <= LOGBLOCKS).
Notation n := (Z.of_nat (length l)).

(** One round. *)
Lemma writei_round tot k s1 V1 d1 x1 bl1 (Q : Z * Z * ksrc + Z -> kstate -> Prop) :
  wloop (bl := bl) (V := V) s ip x d off l tot k s1 V1 d1 x1 bl1 -> tot < n ->
  (forall m s2 V2 d2 x2 bl2, 0 < m ->
     wloop (bl := bl) (V := V) s ip x d off l (tot + m) (k + 1) s2 V2 d2 x2 bl2 ->
     Q (inl (tot + m, off + (tot + m), src_at src (tot + m))) s2) ->
  wp (let! disk_lbn := bmap ip ((off + tot) / BSIZE) in
      let! x := iget_at ip in
      let! bp := in_bc (bread (i_dev x) disk_lbn) in
      let m := Z.min (u32 (n - tot)) (BSIZE - (off + tot) mod BSIZE) in
      let! '(r, bytes) := either_copyin (src_at src tot) m in
      updd bp (fun d => splice d (Z.to_nat ((off + tot) mod BSIZE)) bytes) ;;;
      if r =? -1 then
        in_bc (brelse bp) ;;;
        ret (inr (off + tot))
      else
        in_lo (log_write bp) ;;;
        in_bc (brelse bp) ;;;
        ret (inl (u32 (tot + m), u32 (off + tot + m), ksrc_add (src_at src tot) m))) s1 Q.
Proof.
  intros [L1 L2 L3 L4 L5 L6 L7 L8] Htot HQ. rewrite MAXFILE_bytes in Hend.
  set (o := off + tot) in *. specialize (L6 Htot).
  pose proof (Z.mod_pos_bound o BSIZE ltac:(done)) as Hmod.
  pose proof (Z.div_mod o BSIZE ltac:(done)) as Hdm.
  assert (Hmono : o / BSIZE <= (off + n - 1) / BSIZE) by (apply Z.div_le_mono; [done|lia]).
  unfold nblocks in Hspace, Hlog. rewrite BSIZE_eq in *.
  assert (Hr : file_range (o / 1024)).
  { unfold file_range. rewrite MAXFILE_eq. split; [apply Z.div_pos; lia|].
    apply Z.div_lt_upper_bound; lia. }
  pose proof (kframe_sb _ _ L2) as Esb. change (sb (iset ip x1 s)) with (sb s) in Esb.
  assert (Hx1 : icache s1 !! ip = Some x1) by (rewrite (kframe_icache _ _ L2); apply icache_iset).
  pose proof (wrote_logs_length _ _ _ _ _ _ _ _ _ _ _ _ L4 (tn_nodup _ _ _ _ _ L3) L5) as Hbl.
  apply wp_bind. eapply (bmap_spec s1 ip x1 d1); rewrite ?Esb; try done; try apply L4.
  { pose proof (wr_free _ _ _ _ _ _ _ _ _ _ _ _ L4). lia. }
  { unfold LOGBLOCKS, LOGSIZE, MAXOPBLOCKS, NBUF in *. lia. }
  { unfold log_room. lia. }
  intros a bl2 V2 d2 x2 s2 F2 T2 B Lg.
  assert (Hx2 : icache s2 !! ip = Some x2) by (rewrite (kframe_icache _ _ F2); apply icache_iset).
  pose proof (bp_file _ _ _ _ _ _ _ _ _ B) as FO2. pose proof (bp_addr _ _ _ _ _ _ _ _ _ B) as Ba.
  destruct (fo_addr _ _ _ _ FO2 _ _ Hr Ba) as [D1 D2 D3 (e & He & Hle)].
  apply wp_bind. eapply wp_iget_at; [exact Hx2|]. rewrite (fo_dev _ _ _ _ FO2).
  apply wp_bind. eapply k_bread; [exact T2|done|eapply is_block_data; [apply B|exact D1]|
    apply not_elem_of_empty| |exact He|].
  { pose proof (bmap_logs_length Lg (tn_nodup _ _ _ _ _ T2)).
    unfold room. rewrite map_size_empty. unfold LOGBLOCKS, LOGSIZE, MAXOPBLOCKS, NBUF in *. lia. }
  intros i s3 F3 T3. rewrite (u32_small (n - tot)) by lia.
  set (m := Z.min (n - tot) (1024 - o mod 1024)). cbv zeta.
  assert (Hm : 0 < m /\ tot + m <= n /\ o mod 1024 + m <= 1024) by lia.
  assert (F13 : kframe (iset ip x2 s) s3).
  { etransitivity; [by apply (kframe_iset_set ip x1)|]. etransitivity; [exact F2|exact F3]. }
  apply wp_bind. eapply wp_copyin; [exact Hsrc|lia|lia|lia|by eapply kframe_uframe|]. cbv beta iota.
  apply wp_bind. eapply (k_updd _ a); [exact T3|apply lookup_insert_eq|exact He|]. intros s4 F4 T4.
  cbn [Z.eqb]. apply wp_bind. eapply (k_log_write _ a); [exact T4|apply lookup_insert_eq| | |].
  { unfold vset. by rewrite decide_True. }
  { pose proof (bmap_logs_length Lg (tn_nodup _ _ _ _ _ T2)). lia. }
  intros s5 F5 T5. apply wp_bind. eapply (k_brelse _ a); [exact T5|apply lookup_insert_eq|set_solver|].
  intros s6 F6 T6. rewrite delete_insert_id in T6 by done.
  replace (({[a]} ∪ ∅) ∖ {[a]}) with (∅ : gset Z) in T6 by set_solver.
  apply wp_ret. rewrite src_at_add, (u32_small (tot + m)), (u32_small (o + m)) by lia.
  replace (o + m) with (off + (tot + m)) by (unfold o; lia).
  eapply HQ; [lia|]. set (l2 := take (Z.to_nat m) (drop (Z.to_nat tot) l)) in *.
  assert (Hl2 : Z.of_nat (length l2) = m) by (unfold l2; rewrite length_take, length_drop; lia).
  assert (Hl1 : Z.of_nat (length (take (Z.to_nat tot) l)) = tot) by (rewrite length_take; lia).
  assert (Hl : take (Z.to_nat (tot + m)) l = take (Z.to_nat tot) l ++ l2).
  { unfold l2. rewrite Z2Nat.inj_add by lia. by rewrite take_take_drop. }
  constructor.
  - lia.
  - etransitivity; [exact F13|]. kf.
  - exact T6.
  - rewrite Hl. pose proof (wrote_step (a := a) (bl2 := bl2) (V2 := V2) (d2 := d2) (x2 := x2) (e := e)
      (l2 := l2) Hoff L4 L5) as Hw. rewrite Hl1 in Hw. fold o in Hw. rewrite Hl2 in Hw.
    rewrite BSIZE_eq in Hw. apply Hw; try done. lia.
  - lia.
  - intros Hlt. replace (off + (tot + m)) with (o + m) by (unfold o; lia).
    assert (Hme : m = 1024 - o mod 1024) by lia.
    rewrite BSIZE_eq. symmetry. apply (Z.div_unique_pos _ _ _ 0); [lia|]. clearbody m. lia.
  - intros _. rewrite BSIZE_eq. symmetry. apply (Z.div_unique_pos _ _ _ (o mod 1024 + m - 1)); unfold o in *; lia.
  - lia.
Qed.

Lemma writei_loop :
  wp (loop (0, off, src) (fun '(tot, off, src) =>
    if tot <? n then
      let! disk_lbn := bmap ip (off / BSIZE) in
      let! x := iget_at ip in
      let! bp := in_bc (bread (i_dev x) disk_lbn) in
      let m := Z.min (u32 (n - tot)) (BSIZE - off mod BSIZE) in
      let! '(r, bytes) := either_copyin src m in
      updd bp (fun d => splice d (Z.to_nat (off mod BSIZE)) bytes) ;;;
      if r =? -1 then
        in_bc (brelse bp) ;;;
        ret (inr off)
      else
        in_lo (log_write bp) ;;;
        in_bc (brelse bp) ;;;
        ret (inl (u32 (tot + m), u32 (off + m), ksrc_add src m))
    else ret (inr off))) s (fun o s' => o = off + n /\ exists k V' d' x' bl',
      wloop (bl := bl) (V := V) s ip x d off l n k s' V' d' x' bl').
Proof.
  pose proof Hend as Hend'. rewrite MAXFILE_bytes in Hend'.
  apply (wp_loop (fun '(tot, o, sr) s' => o = off + tot /\ sr = src_at src tot /\
      exists k V' d' x' bl', wloop (bl := bl) (V := V) s ip x d off l tot k s' V' d' x' bl')
    (fun '(tot, _, _) => n - tot)).
  - split; [lia|]. split; [symmetry; apply src_at_0, Hsrc|]. exists 0, V, d, x, bl.
    constructor; try done; try lia.
    + by rewrite iset_id.
    + by apply wrote_nothing.
    + intros _. rewrite Z.add_0_r. lia.
  - lia.
  - intros [[tot o] sr] s' (_ & _ & k & V' & d' & x' & bl' & W). pose proof (wl_tot _ _ _ _ _ _ _ _ _ _ _ _ _ W). lia.
  - intros [[tot o] sr] s1 (-> & -> & k & V1 & d1 & x1 & bl1 & W).
    pose proof (wl_tot _ _ _ _ _ _ _ _ _ _ _ _ _ W) as Ht.
    destruct (Z.ltb_spec tot n) as [Hlt|Hge].
    + eapply writei_round; [exact W|done|]. intros m s2 V2 d2 x2 bl2 Hm W2.
      split; [|lia]. split; [done|]. split; [done|]. by exists (k + 1), V2, d2, x2, bl2.
    + assert (tot = n) as -> by lia. apply wp_ret. split; [done|]. by exists k, V1, d1, x1, bl1.
Qed.
End writei.

(** *** The end of [writei] *)

(** Another block changes, such as the one with the inode. *)
Section unused.
Context {sbk : superblock} {V : Z -> option block} {d : block} {x : inode} {b : Z} {e : block}.
Hypotheses (F : fs_ok sbk V d) (FO : file_ok sbk V d x) (D : data_block sbk V d b)
  (Hn : ~ file_uses V x b) (Hl : length e = Z.to_nat BSIZE).

Lemma unused_addr bn : file_addr (vset V b e) x bn = file_addr V x bn.
Proof.
  apply file_addr_ext. intros Hi. unfold vset. rewrite decide_False; [done|]. intros E.
  apply Hn. left. by rewrite <- E.
Qed.

Lemma unused_keep c : data_block sbk V d c -> data_block sbk (vset V b e) d c.
Proof.
  intros [H1 H2 H3 H4]. constructor; try done. unfold vset. case_decide; [by exists e|exact H4].
Qed.

Lemma unused_file : file_ok sbk (vset V b e) d x.
Proof.
  destruct FO as [F1 F2 F3 F4 F5 F6 F7 F8]. constructor; try done; intros *; rewrite ?unused_addr; eauto.
  - intros Hr Ha. apply unused_keep. by eapply F4.
  - intros Hi. by apply unused_keep, F5.
Qed.

Lemma unused_fs : fs_ok sbk (vset V b e) d.
Proof.
  destruct D as [_ A2 A3 _]. destruct F as [[B1 B2 B3 B4] Hf]. constructor.
  - constructor; try done. unfold vset. by rewrite decide_False by congruence.
  - intros a Ha Hc. destruct (Hf a Ha Hc) as (H1 & H2 & H3). split_and!; try done.
    unfold vset. by case_decide.
Qed.

Lemma unused_byte i : in_file i -> file_byte (vset V b e) x i = file_byte V x i.
Proof.
  intros Hi. unfold file_byte, file_block. rewrite unused_addr.
  destruct (file_addr V x (i / BSIZE)) as [a|] eqn:Ea; [|done]. cbn [mbind option_bind].
  unfold vset. rewrite decide_False; [done|]. intros ->. apply Hn. right.
  exists (i / BSIZE). split; [by apply in_file_block|done].
Qed.
End unused.

Lemma file_ok_size sbk V d x sz : file_ok sbk V d x -> 0 <= sz <= MAXFILE * BSIZE ->
  (forall bn, file_range bn -> bn * BSIZE < sz -> is_Some (file_addr V x bn)) ->
  file_ok sbk V d (set_i_size sz x).
Proof. intros [F1 F2 F3 F4 F5 F6 F7 F8] Hs Hm. by constructor. Qed.

Lemma file_ok_mapped sbk V d x : fs_ok sbk V d -> file_ok sbk V d x -> file_mapped ∅ ∅ V x.
Proof.
  intros F [F1 F2 F3 F4 F5 F6 F7 F8].
  assert (Hrd : forall a, data_block sbk V d a -> readable ∅ ∅ a).
  { intros a D. split; [eapply is_block_data; [done|apply D]|]. split; [done|apply not_elem_of_empty]. }
  constructor; [done|done| |].
  - intros bn Hr Hs. destruct (F8 bn Hr Hs) as [a Ha]. pose proof (F4 bn a Hr Ha) as D.
    destruct (db_data _ _ _ _ D) as (e & He & Hl). exists a, e. split_and!; try done. by apply Hrd.
  - intros Hs. apply Hrd, F5. destruct (F8 NDIRECT) as [a Ha].
    { unfold file_range. rewrite MAXFILE_eq. unfold NDIRECT. lia. }
    { done. }
    rewrite file_addr_eq, (proj2 (Z.ltb_ge NDIRECT NDIRECT)) in Ha by done.
    intros E. by rewrite E in Ha.
Qed.

Lemma file_ok_dinode sbk V d x y : fs_ok sbk V d -> file_ok sbk V d y -> dinode_ok (dinode_of x) ->
  (exists la sz, y = set_i_size sz (set_i_addrs la x)) -> dinode_ok (dinode_of y).
Proof.
  intros F FO [O1 O2 O3 O4 _ _ _] (la & sz & E).
  pose proof (fo_size _ _ _ _ FO) as Hs. rewrite MAXFILE_bytes in Hs.
  pose proof (fo_len _ _ _ _ FO) as Hl. pose proof (bi_size _ _ _ (fk_bitmap _ _ _ F)) as [_ Hsz].
  rewrite LOGICAL_eq in Hsz.
  assert (Ha : Forall (fun a => 0 <= a < 2 ^ 32) (i_addrs y)).
  { apply Forall_lookup. intros j a Hj. pose proof (lookup_lt_Some _ _ _ Hj) as Hlt. rewrite Hl in Hlt.
    assert (Ea : addr_of y (Z.of_nat j) = a) by (unfold addr_of; by rewrite Nat2Z.id, Hj).
    destruct (decide (a = 0)) as [->|Hn0]; [lia|].
    assert (D : data_block sbk V d a).
    { unfold NDIRECT in Hlt. destruct (decide (Z.of_nat j < NDIRECT)) as [Hd|Hd].
      - apply (fo_addr _ _ _ _ FO (Z.of_nat j)).
        + unfold file_range. rewrite MAXFILE_eq. unfold NDIRECT in Hd. lia.
        + rewrite file_addr_eq, (proj2 (Z.ltb_lt _ _)) by done. apply nonzero_Some. split; [done|congruence].
      - assert (Hj12 : Z.of_nat j = NDIRECT) by (unfold NDIRECT in *; lia). rewrite Hj12 in Ea.
        rewrite <- Ea. apply (fo_ind _ _ _ _ FO). congruence. }
    pose proof (db_range _ _ _ _ D). lia. }
  subst y. constructor; try done. cbn. cbn in Hs. lia.
Qed.

Lemma read_back {bl V} s ip x d off l (Q : Z * list Z -> kstate -> Prop) :
  ktxn bl ∅ ∅ V s -> icache s !! ip = Some x -> fs_ok (sb s) V d -> file_ok (sb s) V d x ->
  Z.of_nat (length bl) < NBUF -> 0 <= off -> off + Z.of_nat (length l) <= i_size x ->
  (forall i, off <= i < off + Z.of_nat (length l) -> file_byte V x i = byte_at l (i - off)) ->
  (forall s', kframe s s' -> ktxn bl ∅ ∅ V s' -> Q (Z.of_nat (length l), l) s') ->
  wp (readi ip ToKernel off (Z.of_nat (length l))) s Q.
Proof.
  intros T Hx F FO Hbl Ho Hend Hb HQ. pose proof (fo_size _ _ _ _ FO) as Hs. rewrite MAXFILE_bytes in Hs.
  assert (Hlen : readi_len x off (Z.of_nat (length l)) = Z.of_nat (length l)).
  { unfold readi_len. rewrite (proj2 (Z.ltb_ge _ _)), (proj2 (Z.leb_gt _ _)) by lia. cbn [orb]. lia. }
  eapply readi_spec; [exact T|exact Hx|by eapply file_ok_mapped|by rewrite map_size_empty, Z.add_0_r|lia|lia|].
  intros s' Fr T'. rewrite Hlen.
  replace (file_bytes V x off (Z.of_nat (length l))) with l; [by apply HQ|].
  apply list_eq. intros j. unfold file_bytes. rewrite list_lookup_fmap.
  destruct (decide (j < length l)%nat) as [Hj|Hj].
  - rewrite (proj2 (lookup_seqZ _ _ _ (off + Z.of_nat j))) by lia. cbn [fmap option_fmap option_map].
    rewrite Hb by lia. unfold byte_at. replace (Z.to_nat (off + Z.of_nat j - off)) with j by lia.
    destruct (lookup_lt_is_Some_2 l j Hj) as [v Hv]. by rewrite Hv.
  - rewrite lookup_ge_None_2, (lookup_ge_None_2 (seqZ _ _)) by (rewrite ?length_seqZ; lia). done.
Qed.

(** C9: [writei] writes the bytes of a file.  When [off] is past the end or the
    bytes do not fit into a file it returns -1 and changes nothing.  Otherwise
    it returns [n]; the file then holds [l] at [off] and its old bytes elsewhere,
    its size is the maximum of the old one and [off + n], its inode is on the
    disk, and [readi] reads [l] back.  The blocks it needed were allocated (at
    most one for each block written and one for the indirect addresses) and are
    used once; no other allocated block changed, hence no other file and no
    other inode; and it logged at most three blocks more than it wrote. *)
Theorem writei_correct bl V s ip x d off src l
    (T : ktxn bl ∅ ∅ V s) (Hx : icache s !! ip = Some x) (F : fs_ok (sb s) V d)
    (FO : file_ok (sb s) V d x) (Hsrc : reads s src l) (Hoff : 0 <= off < 2 ^ 32)
    (Hlen : 0 < Z.of_nat (length l) < 2 ^ 32) (Hok : dinode_ok (dinode_of x)) (Hty : i_type x <> 0)
    (Hnum : 0 <= i_inum x < 2 ^ 32) (Hib : data_block (sb s) V d (IBLOCK (i_inum x) (sb s)))
    (Hnu : ~ file_uses V x (IBLOCK (i_inum x) (sb s)))
    (Hspace : ind_cost x + nblocks off (Z.of_nat (length l)) <= nfree (sb s) d)
    (Hlog : Z.of_nat (length bl) + nblocks off (Z.of_nat (length l)) + 8 <= LOGBLOCKS) :
  let n := Z.of_nat (length l) in let ib := IBLOCK (i_inum x) (sb s) in
  if (i_size x <? off) || (MAXFILE * BSIZE <? off + n)
  then writei ip src off n s = Ret (-1) s
  else wp (writei ip src off n) s (fun r s' => r = n /\ exists bl' V' d' x',
    kframe (iset ip x' s) s' /\ ktxn bl' ∅ ∅ V' s' /\
    fs_ok (sb s) V' d' /\ file_ok (sb s) V' d' x' /\
    (exists la, x' = set_i_size (Z.max (i_size x) (off + n)) (set_i_addrs la x)) /\
    inode_at (sb s) V' (i_inum x) = Some (dinode_of x') /\
    (forall j, 0 <= j < 2 ^ 32 -> j <> i_inum x -> data_block (sb s) V d (IBLOCK j (sb s)) ->
       ~ file_uses V x (IBLOCK j (sb s)) -> inode_at (sb s) V' j = inode_at (sb s) V j) /\
    (forall i, in_file i -> file_byte V' x' i =
       if decide (off <= i < off + n) then byte_at l (i - off) else file_byte V x i) /\
    (forall c, data_block (sb s) V d c -> data_block (sb s) V' d' c /\
       (~ file_uses V x c -> c <> ib -> V' c = V c)) /\
    Z.of_nat (length bl') <= Z.of_nat (length bl) + nblocks off n + 3 /\
    wp (readi ip ToKernel off n) s' (fun r _ => r = (n, l))).
Proof.
  intros n ib. unfold writei.
  assert (Hwrap : (u32 (off + n) <? off) = (2 ^ 32 <=? off + n)).
  { unfold u32. destruct (Z.leb_spec (2 ^ 32) (off + n)) as [Hw|Hw].
    - apply Z.ltb_lt. rewrite <- (Z.mod_add _ (-1)), Z.mod_small by lia. lia.
    - apply Z.ltb_ge. rewrite Z.mod_small by lia. lia. }
  destruct (Z.ltb_spec (i_size x) off) as [Hlt|Hge]; cbn [orb].
  { unfold iget_at, bind, gets, of_option. rewrite Hx. cbn. rewrite (proj2 (Z.ltb_lt _ _) Hlt). done. }
  destruct (Z.ltb_spec (MAXFILE * BSIZE) (off + n)) as [Hbig|Hfit].
  { unfold iget_at, bind at 1, gets, of_option. cbn [bind]. rewrite Hx. unfold ret, bind. cbn.
    rewrite (proj2 (Z.ltb_ge _ _) Hge), Hwrap. cbn [orb].
    destruct (Z.leb_spec (2 ^ 32) (off + n)); [done|]. rewrite u32_small by lia.
    by rewrite (proj2 (Z.ltb_lt _ _) Hbig). }
  pose proof Hfit as Hfit'. rewrite MAXFILE_bytes in Hfit'. fold n in Hspace, Hlog, Hlen.
  apply wp_bind. eapply wp_iget_at; [exact Hx|].
  rewrite (proj2 (Z.ltb_ge _ _) Hge), Hwrap, (proj2 (Z.leb_gt (2 ^ 32) _)) by lia. cbn [orb].
  rewrite (u32_small (off + n)), (proj2 (Z.ltb_ge _ _) Hfit) by lia.
  apply wp_bind. eapply wp_mono; [apply (writei_loop T Hx F FO Hsrc (proj1 Hoff) Hfit Hspace Hlog)|].
  intros o s1 (-> & k & V1 & d1 & x1 & bl1 & [L1 L2 L3 L4 L5 _ L7 _]). fold n in L1, L4, L7 |- *.
  assert (Hl0 : take (Z.to_nat n) l = l) by (apply take_ge; lia). rewrite Hl0 in L4.
  pose proof L4 as [W1 W2 [la W3] W4 W5 W6 W7 W8 W9].
  pose proof (wrote_logs_length _ _ _ _ _ _ _ _ _ _ _ _ L4 (tn_nodup _ _ _ _ _ L3) L5) as Hbl.
  specialize (L7 ltac:(lia)). assert (Hkn : k = nblocks off n) by (unfold nblocks; lia).
  set (x2 := set_i_size (Z.max (i_size x) (off + n)) x1).
  assert (Hs1 : i_size x1 = i_size x) by (by rewrite W3). pose proof (fo_size _ _ _ _ FO) as Hsz.
  assert (FO2 : file_ok (sb s) V1 d1 x2).
  { apply file_ok_size; [exact W2|lia|]. intros bn Hr Hs.
    destruct (decide (bn * BSIZE < i_size x)) as [Hold|Hnew].
    - apply (fo_mapped _ _ _ _ W2 bn Hr). by rewrite Hs1.
    - rewrite BSIZE_eq in *. replace bn with (off / 1024 + (bn - off / 1024)) by lia. apply W8.
      assert (Hlo : off / 1024 <= bn) by (apply Z.lt_succ_r, Z.div_lt_upper_bound; [done|lia]).
      assert (Hhi : bn <= (off + n - 1) / 1024) by (apply Z.div_le_lower_bound; [done|lia]). lia. }
  assert (Hx1 : icache s1 !! ip = Some x1) by (rewrite (kframe_icache _ _ L2); apply icache_iset).
  assert (Esb : sb s1 = sb s) by apply (kframe_sb _ _ L2).
  rewrite (proj2 (Z.ltb_lt 0 n)) by lia. cbn [when].
  apply wp_bind, wp_bind. eapply wp_iget_at; [exact Hx1|]. apply wp_bind.
  eapply wp_mono with (Q1 := fun _ s' => s' = iset ip x2 s1).
  { rewrite Hs1. destruct (Z.ltb_spec (i_size x) (off + n)) as [Hg|Hg]; cbn [when].
    - eapply wp_iupd; [exact Hx1|]. unfold x2. by rewrite Z.max_r by lia.
    - apply wp_ret. unfold x2. rewrite Z.max_l, <- Hs1 by lia.
      replace (set_i_size (i_size x1) x1) with x1 by (by destruct x1). by rewrite iset_id. }
  intros [] s2 ->.
  assert (Eib : IBLOCK (i_inum x2) (sb (iset ip x2 s1)) = ib).
  { change (sb (iset ip x2 s1)) with (sb s1). unfold x2. rewrite Esb, W3. done. }
  destruct (W6 ib Hib) as [Dib Kib]. pose proof (Kib Hnu) as Eb.
  destruct (db_data _ _ _ _ Dib) as (eb & Heb & Hleb).
  assert (Hnu1 : ~ file_uses V1 x2 ib) by (intros Hu; apply Hnu, W5; done).
  eapply (iupdate_spec (iset ip x2 s1) ip x2 eb); cbv zeta; rewrite ?Eib.
  - exact L3.
  - apply icache_iset.
  - apply FO2.
  - eapply is_block_data; [exact W1|apply Dib].
  - done.
  - apply not_elem_of_empty.
  - unfold room. rewrite map_size_empty. unfold LOGBLOCKS, LOGSIZE, MAXOPBLOCKS, NBUF in *. lia.
  - unfold log_room. lia.
  - exact Heb.
  - intros s3 F3 T3. apply wp_ret.
    rewrite s32_small by (unfold is_int, INT_MIN, INT_MAX; lia). split; [done|].
    change (i_inum x2) with (i_inum x1) in T3. replace (i_inum x1) with (i_inum x) in T3 by (by rewrite W3).
    pose proof (dinode_off_range (i_inum x)) as Hdr.
    set (e2 := put_dinode eb (dinode_off (i_inum x)) (dinode_of x2)) in *.
    assert (Hok2 : dinode_ok (dinode_of x2)).
    { apply (file_ok_dinode (sb s) V1 d1 x); [done..|]. eexists _, _. unfold x2. by rewrite W3. }
    assert (Hle2 : length e2 = Z.to_nat BSIZE).
    { unfold e2. rewrite length_put_dinode; [done|apply Hok2|lia]. }
    set (V2 := vset V1 ib e2) in *.
    assert (Hat : inode_at (sb s) V2 (i_inum x) = Some (dinode_of x2)).
    { unfold inode_at, V2, vset. fold ib. rewrite decide_True by done.
      cbn [fmap option_fmap option_map]. f_equal. apply get_put_dinode; [done|rewrite Hleb; exact Hdr]. }
    assert (Fs2 : fs_ok (sb s) V2 d1) by (apply (unused_fs W1 Dib)).
    assert (FO3 : file_ok (sb s) V2 d1 x2) by (by apply (unused_file FO2)).
    assert (Hbytes : forall i, in_file i -> file_byte V2 x2 i =
      if decide (off <= i < off + n) then byte_at l (i - off) else file_byte V x i).
    { intros i Hi. unfold V2. rewrite (unused_byte Hnu1) by done. by apply W4. }
    assert (F03 : kframe (iset ip x2 s) s3).
    { etransitivity; [by apply (kframe_iset_set ip x1)|exact F3]. }
    assert (Esb3 : sb s3 = sb s) by apply (kframe_sb _ _ F03).
    exists (log_add ib bl1), V2, d1, x2. split_and!; try done.
    + exists la. unfold x2. by rewrite W3.
    + intros j Hj Hne Dj Hnj. destruct (W6 _ Dj) as [_ Kj]. specialize (Kj Hnj).
      unfold inode_at, V2, vset. destruct (decide (IBLOCK j (sb s) = ib)) as [E|E]; [|by rewrite Kj].
      rewrite E in Kj |- *. rewrite <- Kj, Heb. cbn [fmap option_fmap option_map]. f_equal.
      apply get_put_dinode_other; [apply Hok2|rewrite Hleb; exact Hdr|].
      apply or_comm, dinode_off_apart. intros Em. apply Hne. symmetry. by eapply inode_place.
    + intros c Dc. destruct (W6 c Dc) as [D1 K1]. split; [by apply (unused_keep Hle2)|].
      intros Hnc Hci. unfold V2, vset. rewrite decide_False by done. by apply K1.
    + pose proof (length_log_add ib bl1). lia.
    + apply (read_back (bl := log_add ib bl1) (V := V2) s3 ip x2 d1 off l).
      * exact T3.
      * rewrite (kframe_icache _ _ F03). apply icache_iset.
      * by rewrite Esb3.
      * by rewrite Esb3.
      * pose proof (length_log_add ib bl1). unfold LOGBLOCKS, LOGSIZE, MAXOPBLOCKS, NBUF in *. lia.
      * lia.
      * unfold x2. cbn. fold n. lia.
      * intros i Hi. fold n in Hi. rewrite Hbytes by (unfold in_file; lia). by rewrite decide_True by lia.
      * done.
Qed.

(** ** An empty file is written *)

Definition w_empty : inode := Inode ROOTDEV 7 1 no_lock true T_FILE 0 3 1 0 (zeros 13).
Definition w_bytes : list Z := replicate 2000 7.

Lemma w_empty_addr bn : 0 <= bn -> addr_of w_empty bn = 0.
Proof.
  intros Hb. unfold addr_of. cbn [i_addrs w_empty]. destruct (zeros 13 !! Z.to_nat bn) eqn:E; [|done].
  by apply lookup_replicate in E as [-> _].
Qed.

Lemma w_empty_file V bn : 0 <= bn -> file_addr V w_empty bn = None.
Proof.
  intros Hb. rewrite file_addr_eq, !w_empty_addr by done. by case_match.
Qed.

Lemma w_empty_ok V d : file_ok w_sb V d w_empty.
Proof.
  assert (Hn : forall bn a, file_range bn -> file_addr V w_empty bn <> Some a).
  { intros bn a [Hb _]. by rewrite w_empty_file. }
  constructor; try reflexivity; try (split; [discriminate|discriminate]).
  - intros bn a Hr E. by destruct (Hn bn a Hr).
  - intros E. by destruct (E (w_empty_addr NDIRECT ltac:(done))).
  - intros bn bn' a Hr _ E. by destruct (Hn bn a Hr).
  - intros bn Hr. by apply Hn.
  - intros bn [Hb _] Hs. cbn in Hs. rewrite BSIZE_eq in Hs. lia.
Qed.

Lemma w_fs_ok (g : Z -> block) : g 58 = w_bitmap -> fs_ok w_sb (fun b => Some (g b)) w_bitmap.
Proof.
  intros Hg. constructor; [apply w_bitmap_in; by rewrite Hg|].
  intros a Ha Hb. split_and!; [| |by eexists]; intros ->; by vm_compute in Hb.
Qed.

Lemma w_empty_dinode : dinode_ok (dinode_of w_empty).
Proof. constructor; try (split; [discriminate|reflexivity]); [reflexivity|]. repeat constructor; lia. Qed.

Lemma w_nfree : 3 <= nfree w_sb w_bitmap.
Proof. apply Z.leb_le. vm_compute. reflexivity. Qed.

Lemma writei_correct_witness : exists s,
  icache s !! 0 = Some w_empty /\
  wp (writei 0 (FromKernel w_bytes) 0 2000) s (fun r s' => r = 2000 /\
    wp (readi 0 ToKernel 0 2000) s' (fun r _ => r = (2000, w_bytes))).
Proof.
  destruct (open_txn w_blocks w_sb) as (s0 & T & Hsb & _). set (s := iset 0 w_empty s0).
  assert (Hi : icache s !! 0 = Some w_empty) by apply icache_iset.
  exists s. split; [exact Hi|].
  assert (Hsb' : sb s = w_sb) by exact Hsb.
  pose proof (writei_correct [] (fun b => Some (w_blocks b)) s 0 w_empty w_bitmap 0
    (FromKernel w_bytes) w_bytes T) as Hc.
  rewrite Hsb' in Hc. clearbody s. cbv zeta in Hc.
  change ((i_size w_empty <? 0) || (MAXFILE * BSIZE <? 0 + Z.of_nat (length w_bytes))) with false in Hc.
  eapply wp_mono; [apply Hc|].
  - exact Hi.
  - by apply w_fs_ok.
  - apply w_empty_ok.
  - apply reads_kernel.
  - split; [discriminate|reflexivity].
  - split; reflexivity.
  - exact w_empty_dinode.
  - discriminate.
  - split; [discriminate|reflexivity].
  - constructor; [by split|reflexivity|discriminate|eexists; split; reflexivity].
  - intros [[E _]|(bn & [Hb _] & E)]; [rewrite w_empty_addr in E by done; discriminate E|].
    rewrite w_empty_file in E by done. discriminate E.
  - etransitivity; [|exact w_nfree]. discriminate.
  - discriminate.
  - cbv beta. intros r s' (-> & _ & _ & _ & _ & _ & _ & _ & _ & _ & _ & _ & _ & _ & _ & Hr).
    split; [reflexivity|exact Hr].
Defined.
