(* ===== verification/Mkfs.v ===== *)
(** The builder of the disk image, FileSystem-RAID/mkfs/mkfs.c.

    The image is a map from sectors to blocks.  The calls of the host that fail
    end the program and are not modelled, except reading past the end of the
    image; a file of the host is the list of what [read] returns for it, and
    [None] when it cannot be opened. *)
From S2P Require Import Prelude CString Bytes Locks Kalloc Vm Bio Log Kernel Console Fs Txn Blocks Files Writes.

Definition NINODES : Z := 200.
Definition nbitmap : Z := LOGICAL_DISK_SIZE / (BSIZE * 8) + 1.
Definition ninodeblocks : Z := NINODES / IPB + 1.
Definition nlog : Z := LOGSIZE.
Definition nmeta : Z := 2 + nlog + ninodeblocks + nbitmap.
Definition ndata : Z := LOGICAL_DISK_SIZE - nmeta.

(** The bytes that the code stores are read back on a little-endian host. *)
Definition xshort (x : Z) : Z := le_val [u8 x; u8 (Z.shiftr x 8)].
Definition xint (x : Z) : Z :=
  le_val [u8 x; u8 (Z.shiftr x 8); u8 (Z.shiftr x 16); u8 (Z.shiftr x 24)].

Definition mkfs_sb : superblock :=
  Superblock FSMAGIC (xint LOGICAL_DISK_SIZE) (xint ndata) (xint NINODES) (xint nlog)
    (xint 2) (xint (2 + nlog)) (xint (2 + nlog + ninodeblocks)).

Record mkfs := MkFs { img : gmap Z block; freeinode : Z; freeblock : Z }.
Definition set_img (m : gmap Z block) (s : mkfs) : mkfs := MkFs m (freeinode s) (freeblock s).
Definition set_freeinode (i : Z) (s : mkfs) : mkfs := MkFs (img s) i (freeblock s).
Definition set_freeblock (b : Z) (s : mkfs) : mkfs := MkFs (img s) (freeinode s) b.
Abbreviation MM := (M mkfs) (only parsing).

(** The program starts with no image. *)
Definition mkfs_start : mkfs := MkFs ∅ 1 0.

(** [zeroes] and a cleared [buf] *)
Definition zeroes : block := replicate (Z.to_nat BSIZE) 0.

(** The sector at the offset [sec * BSIZE], an [uint]. *)
Definition sector (sec : Z) : Z := u32 (sec * BSIZE) / BSIZE.
Definition wsect (sec : Z) (buf : block) : MM unit :=
  modify (fun s => set_img (<[sector sec := buf]> (img s)) s).
Definition rsect (sec : Z) : MM block :=
  let! m := gets img in of_option "read" (m !! sector sec).

Definition winode (inum : Z) (ip : dinode) : MM unit :=
  let bn := IBLOCK inum mkfs_sb in
  let! buf := rsect bn in
  wsect bn (put_dinode buf (dinode_off inum) ip).
Definition rinode (inum : Z) : MM dinode :=
  let bn := IBLOCK inum mkfs_sb in
  let! buf := rsect bn in
  ret (get_dinode buf (dinode_off inum)).

Definition ialloc (type : Z) : MM Z :=
  let! inum := gets freeinode in
  modify (set_freeinode (u32 (inum + 1))) ;;;
  let minor := if type =? T_DEVICE then 0 else s16 (xshort (Z.lor M_READ M_WRITE)) in
  winode inum (Dinode (s16 (xshort type)) 0 minor (s16 (xshort 1)) (xint 0)
    (replicate (Z.to_nat (NDIRECT + 1)) 0)) ;;;
  ret inum.

Definition balloc (used : Z) : MM unit :=
  if BSIZE * 8 <=? used then panic "assert" else
  let buf := fold_left (fun buf i =>
    set_byte buf (i / 8) (Z.lor (byte_at buf (i / 8)) (Z.shiftl 1 (i mod 8)))) (seqZ 0 used) zeroes in
  wsect (sb_bmapstart mkfs_sb) buf.

Definition d_addr (d : dinode) (i : Z) : Z := default 0 (d_addrs d !! Z.to_nat i).
Definition set_d_addr (i a : Z) (d : dinode) : dinode :=
  Dinode (d_type d) (d_major d) (d_minor d) (d_nlink d) (d_size d) (<[Z.to_nat i := a]> (d_addrs d)).
Definition set_d_size (n : Z) (d : dinode) : dinode :=
  Dinode (d_type d) (d_major d) (d_minor d) (d_nlink d) n (d_addrs d).

(** [freeblock++] *)
Definition next_block : MM Z :=
  let! a := gets freeblock in
  modify (set_freeblock (u32 (a + 1))) ;;;
  ret a.

(** The block of the file at [fbn], as the loop of [iappend] finds or adds it. *)
Definition iappend_block (din : dinode) (fbn : Z) : MM (dinode * Z) :=
  if fbn <? NDIRECT then
    let! din :=
      (if xint (d_addr din fbn) =? 0 then
         let! a := next_block in ret (set_d_addr fbn (xint a) din)
       else ret din) in
    ret (din, xint (d_addr din fbn))
  else
    let! din :=
      (if xint (d_addr din NDIRECT) =? 0 then
         let! a := next_block in ret (set_d_addr NDIRECT (xint a) din)
       else ret din) in
    let! indirect := rsect (xint (d_addr din NDIRECT)) in
    let! indirect :=
      (if uint_at indirect (fbn - NDIRECT) =? 0 then
         let! a := next_block in
         let indirect := put32 indirect (4 * Z.to_nat (fbn - NDIRECT))%nat (xint a) in
         wsect (xint (d_addr din NDIRECT)) indirect ;;;
         ret indirect
       else ret indirect) in
    ret (din, xint (uint_at indirect (fbn - NDIRECT))).

Definition iappend (inum : Z) (xp : list Z) (n : Z) : MM unit :=
  let! din := rinode inum in
  let! '(din, off) := loop (din, xint (d_size din), xp, n) (fun '(din, off, p, n) =>
    if 0 <? n then
      let fbn := off / BSIZE in
      if MAXFILE <=? fbn then panic "assert" else
      let! '(din, x) := iappend_block din fbn in
      let n1 := Z.min n (u32 ((fbn + 1) * BSIZE - off)) in
      let! buf := rsect x in
      wsect x (splice buf (Z.to_nat (off - fbn * BSIZE)) (take (Z.to_nat n1) p)) ;;;
      ret (inl (din, u32 (off + n1), drop (Z.to_nat n1) p, n - n1))
    else ret (inr (din, off))) in
  winode inum (set_d_size (xint off) din).

Definition superblock_bytes (x : superblock) : list Z :=
  le_bytes 4 (sb_magic x) ++ le_bytes 4 (sb_size x) ++ le_bytes 4 (sb_nblocks x) ++
  le_bytes 4 (sb_ninodes x) ++ le_bytes 4 (sb_nlog x) ++ le_bytes 4 (sb_logstart x) ++
  le_bytes 4 (sb_inodestart x) ++ le_bytes 4 (sb_bmapstart x).

(** [strcpy] into the cleared name of an entry. *)
Definition entry_name (name : list Z) : list Z := splice (replicate (Z.to_nat DIRSIZ) 0) 0 (name ++ [0]).

(** The name without "user/", and then without the leading underscore. *)
Definition shortname (arg : list Z) : list Z :=
  if l_strncmp 5 arg (str "user/") =? 0 then drop 5 arg else arg.
Definition UNDERSCORE : Z := 95.
Definition drop_underscore (name : list Z) : list Z :=
  if ch name =? UNDERSCORE then drop 1 name else name.
Definition has_slash (name : list Z) : bool := existsb (Z.eqb SLASH) name.

(** An argument that names a file, and what [read] returns for the file. *)
Definition add_file (rootino : Z) (arg : list Z) (file : option (list (list Z))) : MM unit :=
  if has_slash (shortname arg) then panic "assert" else
  match file with
  | None => panic "exit"
  | Some chunks =>
      let name := drop_underscore (shortname arg) in
      let! inum := ialloc T_FILE in
      iappend rootino (put_dirent (Dirent (xshort inum) (l_strncpy (Z.to_nat DIRSIZ) name))) sizeof_dirent ;;;
      for_all chunks (fun buf => iappend inum buf (Z.of_nat (length buf)))
  end.

Definition main (args : list (list Z * option (list (list Z)))) : MM unit :=
  modify (set_freeblock nmeta) ;;;
  for_all (seqZ 0 FSSIZE) (fun i => wsect i zeroes) ;;;
  wsect 1 (splice zeroes 0 (superblock_bytes mkfs_sb)) ;;;
  let! rootino := ialloc T_DIR in
  if negb (rootino =? ROOTINO) then panic "assert" else
  iappend rootino (put_dirent (Dirent (xshort rootino) (entry_name (str ".")))) sizeof_dirent ;;;
  iappend rootino (put_dirent (Dirent (xshort rootino) (entry_name (str "..")))) sizeof_dirent ;;;
  for_all args (fun '(arg, file) => add_file rootino arg file) ;;;
  let! din := rinode rootino in
  let off := xint (d_size din) in
  let off := u32 ((off / BSIZE + 1) * BSIZE) in
  winode rootino (set_d_size (xint off) din) ;;;
  let! used := gets freeblock in
  balloc (s32 used).
