(* ===== verification/Image.v ===== *)
(** The disk image that mkfs builds, as the kernel reads it: every file given to
    mkfs is a well-formed file of the file system with the same bytes. *)
From S2P Require Import Prelude CString Bytes Locks Kalloc Vm Bio Log Kernel Console Fs Txn Blocks Files Writes Mkfs.

(** ** Constants *)

Lemma mkfs_sb_eq : mkfs_sb = Superblock FSMAGIC 2048 2002 200 30 2 32 45.
Proof. reflexivity. Qed.

Lemma nmeta_eq : nmeta = 46. Proof. reflexivity. Qed.
Lemma BMAP_eq : BBLOCK 0 mkfs_sb = 45. Proof. reflexivity. Qed.

Lemma IBLOCK_eq i : 0 <= i < NINODES -> IBLOCK i mkfs_sb = i / 16 + 32 /\ 32 <= IBLOCK i mkfs_sb < 45.
Proof.
  unfold NINODES, IBLOCK. change IPB with 16. change (sb_inodestart mkfs_sb) with 32. intros Hi.
  rewrite u32_small by zlia. zlia.
Qed.

Lemma xint_id x : 0 <= x < 2 ^ 32 -> xint x = x.
Proof.
  intros Hx. unfold xint. rewrite !Z.shiftr_div_pow2 by lia. unfold u8. cbn [le_val].
  change (2 ^ 8) with 256. change (2 ^ 16) with (256 * 256). change (2 ^ 24) with (256 * 256 * 256).
  change (2 ^ 32) with (256 * 256 * 256 * 256) in Hx. rewrite <- !Z.div_div by lia. zlia.
Qed.

Lemma xshort_id x : 0 <= x < 65536 -> xshort x = x.
Proof.
  intros Hx. unfold xshort. rewrite Z.shiftr_div_pow2 by lia. unfold u8. cbn [le_val].
  change (2 ^ 8) with 256. zlia.
Qed.

Lemma sector_id b : 0 <= b < 4096 -> sector b = b.
Proof.
  intros Hb. unfold sector. rewrite BSIZE_eq, u32_small by lia. by apply Z.div_mul.
Qed.

(** ** The blocks *)

(** The bitmap with the first [n] blocks in use. *)
Definition marks (n : Z) : block := fold_left (fun buf i => bit_on i buf) (seqZ 0 n) zero_data.

Lemma marks_succ n : 0 <= n -> marks (n + 1) = bit_on n (marks n).
Proof. intros Hn. unfold marks. rewrite seqZ_app, fold_left_app by lia. done. Qed.

Lemma length_marks n : 0 <= n -> length (marks n) = Z.to_nat BSIZE.
Proof.
  intros Hn. pattern n. apply natlike_ind; [done| |done]. intros k Hk IH. by rewrite <- Z.add_1_r, marks_succ, length_bit_on.
Qed.

Lemma marks_bit n b : 0 <= n <= BPB -> 0 <= b -> bit_set (marks n) b = (b <? n).
Proof.
  intros [Hn Hm] Hb. revert Hm. pattern n. apply natlike_ind; [| |done].
  - intros _. rewrite bit_set_testbit. change (marks 0) with zero_data. rewrite byte_at_zero by (apply Z.div_pos; lia).
    rewrite Z.bits_0. symmetry. apply Z.ltb_ge. lia.
  - intros k Hk IH Hm. rewrite <- Z.add_1_r, marks_succ, bit_set_on by (done || lia || by apply length_marks).
    case_decide as E.
    + subst. symmetry. apply Z.ltb_lt. lia.
    + rewrite IH by lia. destruct (Z.ltb_spec b k), (Z.ltb_spec b (k + 1)); lia || done.
Qed.

(** What the kernel will see of the image: the blocks, with the bitmap that is
    written at the end. *)
Record disk_ok (s : mkfs) (V : Z -> option block) : Prop := {
  dk_sees : forall b, 0 <= b < LOGICAL_DISK_SIZE -> b <> BBLOCK 0 mkfs_sb -> V b = img s !! b;
  dk_fs : fs_ok mkfs_sb V (marks (freeblock s));
  dk_range : nmeta <= freeblock s <= LOGICAL_DISK_SIZE;
  dk_zero : forall b, freeblock s <= b < LOGICAL_DISK_SIZE -> V b = Some zero_data;
  dk_blocks : forall b, 0 <= b < LOGICAL_DISK_SIZE -> exists e, V b = Some e /\ length e = Z.to_nat BSIZE;
  dk_mirror : forall b, LOGICAL_DISK_SIZE <= b < FSSIZE -> img s !! b = Some zero_data
}.

Section disk.
Context {s : mkfs} {V : Z -> option block}.
Hypothesis (D : disk_ok s V).

Lemma disk_bit b : 0 <= b -> bit_set (marks (freeblock s)) b = (b <? freeblock s).
Proof.
  intros Hb. apply marks_bit; [|done]. pose proof (dk_range _ _ D) as Hr. rewrite nmeta_eq, LOGICAL_eq in Hr.
  unfold BPB. rewrite BSIZE_eq. lia.
Qed.

Lemma disk_data b : 0 <= b < freeblock s -> b <> BBLOCK 0 mkfs_sb -> data_block mkfs_sb V (marks (freeblock s)) b.
Proof.
  intros Hb Hne. pose proof (dk_range _ _ D) as Hr. constructor.
  - change (sb_size mkfs_sb) with LOGICAL_DISK_SIZE. lia.
  - rewrite disk_bit by lia. apply Z.ltb_lt. lia.
  - done.
  - apply (dk_blocks _ _ D). lia.
Qed.

Lemma disk_free : freeblock s < LOGICAL_DISK_SIZE ->
  0 <= freeblock s < sb_size mkfs_sb /\ bit_set (marks (freeblock s)) (freeblock s) = false.
Proof.
  pose proof (dk_range _ _ D) as Hr. rewrite nmeta_eq in Hr. intros Hlt.
  change (sb_size mkfs_sb) with LOGICAL_DISK_SIZE. split; [lia|]. rewrite disk_bit by lia. apply Z.ltb_irrefl.
Qed.

Lemma next_block_eq : freeblock s < LOGICAL_DISK_SIZE ->
  exists s', next_block s = Ret (freeblock s) s' /\
    disk_ok s' (alloc mkfs_sb V (marks (freeblock s)) (freeblock s)) /\
    freeblock s' = freeblock s + 1 /\ freeinode s' = freeinode s.
Proof.
  intros Hlt. pose proof (dk_range _ _ D) as Hr. rewrite nmeta_eq, LOGICAL_eq in *. destruct disk_free as [Hf1 Hf2]; [by rewrite LOGICAL_eq|].
  assert (E : u32 (freeblock s + 1) = freeblock s + 1) by (apply u32_small; lia).
  eexists. split; [done|]. cbn [freeblock freeinode set_freeblock]. split; [|done].
  constructor; cbn [freeblock img set_freeblock]; rewrite ?E, ?nmeta_eq, ?LOGICAL_eq.
  - intros b Hb Hne. destruct (decide (b = freeblock s)) as [->|Hnf].
    + rewrite alloc_new. rewrite <- (dk_sees _ _ D) by done. symmetry. apply (dk_zero _ _ D). rewrite LOGICAL_eq. lia.
    + rewrite alloc_other by done. by apply (dk_sees _ _ D).
  - rewrite marks_succ by lia. exact (alloc_fs (dk_fs _ _ D) Hf1 Hf2).
  - lia.
  - intros b Hb. rewrite alloc_other by (rewrite ?BMAP_eq; lia). apply (dk_zero _ _ D). rewrite LOGICAL_eq. lia.
  - intros b Hb. destruct (decide (b = freeblock s)) as [->|Hnf]; [rewrite alloc_new; by exists zero_data|].
    destruct (decide (b = BBLOCK 0 mkfs_sb)) as [->|Hne].
    + rewrite (alloc_bitmap (dk_fs _ _ D) Hf1 Hf2). eexists. split; [done|]. rewrite length_bit_on. apply length_marks. lia.
    + rewrite alloc_other by done. apply (dk_blocks _ _ D). by rewrite LOGICAL_eq.
  - intros b Hb. apply (dk_mirror _ _ D). by rewrite LOGICAL_eq.
Qed.

Lemma rsect_eq b e : 0 <= b < LOGICAL_DISK_SIZE -> b <> BBLOCK 0 mkfs_sb -> V b = Some e -> rsect b s = Ret e s.
Proof.
  intros Hb Hne He. unfold rsect, bind, gets, of_option. rewrite sector_id by (rewrite LOGICAL_eq in Hb; lia).
  rewrite <- (dk_sees _ _ D), He by done. done.
Qed.

Lemma fs_ok_vset b e d : fs_ok mkfs_sb V d -> b <> BBLOCK 0 mkfs_sb -> fs_ok mkfs_sb (vset V b e) d.
Proof.
  intros [[B1 B2 B3 B4] Hf] Hne. constructor.
  - constructor; try done. unfold vset. by rewrite decide_False by congruence.
  - intros a Ha Hc. destruct (Hf a Ha Hc) as (H1 & H2 & H3). split_and!; try done. unfold vset. by case_decide.
Qed.

Lemma wsect_eq b e : 0 <= b < freeblock s -> b <> BBLOCK 0 mkfs_sb -> length e = Z.to_nat BSIZE ->
  exists s', wsect b e s = Ret tt s' /\ disk_ok s' (vset V b e) /\ freeblock s' = freeblock s /\ freeinode s' = freeinode s.
Proof.
  intros Hb Hne Hl. pose proof (dk_range _ _ D) as Hr. pose proof LOGICAL_eq as HL.
  eexists. split; [done|]. cbn [freeblock freeinode set_img]. split; [|done].
  rewrite sector_id by lia. constructor; cbn [freeblock img set_img].
  - intros c Hc Hnc. unfold vset. case_decide as E; [subst; by rewrite lookup_insert_eq|].
    rewrite lookup_insert_ne by done. by apply (dk_sees _ _ D).
  - apply fs_ok_vset; [apply D|done].
  - done.
  - intros c Hc. unfold vset. rewrite decide_False by lia. by apply (dk_zero _ _ D).
  - intros c Hc. unfold vset. case_decide; [by exists e|by apply (dk_blocks _ _ D)].
  - intros c Hc. rewrite lookup_insert_ne by lia. by apply (dk_mirror _ _ D).
Qed.
End disk.

(** ** Files *)

(** The inode of the kernel for an inode of the image. *)
Definition kernel_inode (d : dinode) : inode :=
  Inode ROOTDEV 0 1 no_lock true (d_type d) (d_major d) (d_minor d) (d_nlink d) (d_size d) (d_addrs d).

(** The block that is needed next, with the indirect block when it is the first
    of the indirect ones. *)
Definition new_blocks (size : Z) : Z :=
  if size mod BSIZE =? 0 then (if size =? NDIRECT * BSIZE then 2 else 1) else 0.

(** The blocks of a file of [size] bytes. *)
Definition file_blocks (size : Z) : Z :=
  (size + BSIZE - 1) / BSIZE + (if NDIRECT * BSIZE <? size then 1 else 0).

Lemma file_blocks_step size n : 0 <= size -> 0 < n <= BSIZE - size mod BSIZE ->
  file_blocks (size + n) = file_blocks size + new_blocks size.
Proof.
  unfold file_blocks, new_blocks. rewrite BSIZE_eq. change (NDIRECT * 1024) with 12288. intros Hs Hn.
  destruct (Z.eqb_spec (size mod 1024) 0) as [E|E].
  - destruct (Z.eqb_spec size 12288); destruct (Z.ltb_spec 12288 (size + n)), (Z.ltb_spec 12288 size); zlia.
  - destruct (Z.ltb_spec 12288 (size + n)), (Z.ltb_spec 12288 size); zlia.
Qed.

(** [x] holds the file [l], in blocks that are not for the file system itself. *)
Record file_at (V : Z -> option block) (d : block) (x : inode) (l : list Z) : Prop := {
  fa_ok : file_ok mkfs_sb V d x;
  fa_size : i_size x = Z.of_nat (length l);
  fa_only : forall bn, file_range bn -> is_Some (file_addr V x bn) -> bn * BSIZE < i_size x;
  fa_ind : addr_of x NDIRECT <> 0 -> NDIRECT * BSIZE < i_size x;
  fa_bytes : forall i, in_file i -> file_byte V x i = byte_at l i;
  fa_data : forall c, file_uses V x c -> nmeta <= c
}.

(** A file whose blocks do not change. *)
Lemma frame_file_at {V V' d d' x} l : (forall c, file_uses V x c -> V' c = V c) ->
  (forall c, file_uses V x c -> data_block mkfs_sb V d c -> data_block mkfs_sb V' d' c) ->
  file_at V d x l -> file_at V' d' x l.
Proof.
  intros HV HD [A1 A2 A3 A4 A5 A6]. constructor; try done.
  - by apply (frame_file HV HD).
  - intros bn Hr. rewrite (frame_addr HV). by apply A3.
  - intros i Hi. rewrite (frame_byte HV) by done. by apply A5.
  - intros c Hc. apply A6. by apply (frame_uses HV).
Qed.

(** ** [iappend] *)

(** The inode in memory: the addresses of [x], and the size that the inode had. *)
Definition din_of (x : inode) (size : Z) : dinode := set_d_size size (dinode_of x).

Lemma d_addr_din x size i : d_addr (din_of x size) i = addr_of x i.
Proof. done. Qed.

Lemma set_d_addr_din x size i a : set_d_addr i a (din_of x size) = din_of (set_addr i a x) size.
Proof. done. Qed.

Lemma addr_small V d x i : fs_ok mkfs_sb V d -> file_ok mkfs_sb V d x -> 0 <= i <= NDIRECT -> 0 <= addr_of x i < 2048.
Proof.
  intros F FO Hi. destruct (Z.eq_dec (addr_of x i) 0) as [->|Hn]; [lia|].
  assert (D : data_block mkfs_sb V d (addr_of x i)).
  { destruct (Z.eq_dec i NDIRECT) as [->|Hni]; [by apply (fo_ind _ _ _ _ FO)|].
    apply (fo_addr _ _ _ _ FO i); [unfold file_range; rewrite MAXFILE_eq; unfold NDIRECT in *; lia|].
    rewrite file_addr_eq, (proj2 (Z.ltb_lt _ _)) by lia. by apply nonzero_Some. }
  apply (db_range _ _ _ _ D).
Qed.

(** What [iappend_block] does for the file [x], whose size is [size]. *)
Record appended (s : mkfs) (V : Z -> option block) (x : inode) (size a : Z) (s' : mkfs) (V' : Z -> option block)
    (x' : inode) : Prop := {
  ap_disk : disk_ok s' V';
  ap_map : bmapped mkfs_sb V (marks (freeblock s)) x (size / BSIZE) a V' (marks (freeblock s')) x';
  ap_free : freeblock s' = freeblock s + new_blocks size;
  ap_ind : addr_of x' NDIRECT <> 0 -> addr_of x NDIRECT <> 0 \/ NDIRECT <= size / BSIZE;
  ap_inode : freeinode s' = freeinode s
}.

Section block.
Context {s : mkfs} {V : Z -> option block} {x : inode} {l : list Z} {size0 : Z}.
Notation size := (Z.of_nat (length l)).
Hypotheses (D : disk_ok s V) (A : file_at V (marks (freeblock s)) x l) (Hr : file_range (size / BSIZE))
  (Hroom : freeblock s + new_blocks size <= LOGICAL_DISK_SIZE).

Let F := dk_fs _ _ D.
Let FO := fa_ok _ _ _ _ A.

(** The last block of the file is not full: it is there. *)
Lemma append_same : size mod BSIZE <> 0 -> is_Some (file_addr V x (size / BSIZE)).
Proof.
  intros Hm. apply (fo_mapped _ _ _ _ FO); [done|]. rewrite (fa_size _ _ _ _ A). rewrite BSIZE_eq in *. zlia.
Qed.

Lemma append_new : size mod BSIZE = 0 -> file_addr V x (size / BSIZE) = None.
Proof.
  intros Hm. apply eq_None_not_Some. intros Hs. apply (fa_only _ _ _ _ A) in Hs; [|done].
  rewrite (fa_size _ _ _ _ A) in Hs. rewrite BSIZE_eq in *. zlia.
Qed.

Lemma appended_same a : file_addr V x (size / BSIZE) = Some a -> size mod BSIZE <> 0 -> appended s V x size a s V x.
Proof.
  intros Ha Hm. constructor; [done|by apply bmapped_same| |tauto|done].
  unfold new_blocks. rewrite (proj2 (Z.eqb_neq _ _) Hm). lia.
Qed.

(** A direct block. *)
Lemma iappend_direct : size / BSIZE < NDIRECT ->
  exists a s' V' x', iappend_block (din_of x size0) (size / BSIZE) s = Ret (din_of x' size0, a) s' /\
    appended s V x size a s' V' x'.
Proof.
  intros Hd. unfold iappend_block. rewrite (proj2 (Z.ltb_lt _ _) Hd), d_addr_din.
  assert (Hi : 0 <= size / BSIZE <= NDIRECT) by (destruct Hr; lia).
  pose proof (addr_small V _ x _ F FO Hi) as Hsm. rewrite xint_id by lia.
  assert (Ea : file_addr V x (size / BSIZE) = nonzero (addr_of x (size / BSIZE))).
  { by rewrite file_addr_eq, (proj2 (Z.ltb_lt _ _) Hd). }
  destruct (Z.eq_dec (size mod BSIZE) 0) as [Hm|Hm].
  - assert (H0 : addr_of x (size / BSIZE) = 0).
    { rewrite (append_new Hm) in Ea. unfold nonzero in Ea. by destruct (Z.eqb_spec (addr_of x (size / BSIZE)) 0). }
    assert (Hnb : new_blocks size = 1).
    { unfold new_blocks. rewrite Hm. cbn [Z.eqb]. rewrite (proj2 (Z.eqb_neq _ _)); [done|].
      unfold NDIRECT in *. rewrite BSIZE_eq in *. zlia. }
    rewrite Hnb in Hroom. destruct (next_block_eq D) as (s' & E & D' & Hf & Hn); [lia|].
    destruct (disk_free D) as [Hf1 Hf2]; [lia|].
    exists (freeblock s), s', (alloc mkfs_sb V (marks (freeblock s)) (freeblock s)), (set_addr (size / BSIZE) (freeblock s) x).
    assert (Hl : length (i_addrs x) = Z.to_nat (NDIRECT + 1)) by apply FO.
    split.
    + rewrite H0. cbn [Z.eqb]. rewrite (bind_eq _ _ s (din_of (set_addr (size / BSIZE) (freeblock s) x) size0) s').
      * rewrite d_addr_din, addr_of_set, decide_True by (done || rewrite ?Hl; unfold NDIRECT in *; lia).
        rewrite xint_id; [done|]. change (sb_size mkfs_sb) with 2048 in Hf1. lia.
      * rewrite (bind_eq _ _ _ _ _ E), set_d_addr_din, xint_id; [done|]. change (sb_size mkfs_sb) with 2048 in Hf1. lia.
    + constructor; [done| |by rewrite Hf, Hnb| |done].
      * rewrite Hf, marks_succ by lia. by apply bmapped_direct; [..|lia|lia| |].
      * rewrite addr_of_set by (rewrite ?Hl; unfold NDIRECT in *; lia). rewrite decide_False by lia. by left.
  - destruct (append_same Hm) as [a Ha]. rewrite Ea in Ha. pose proof Ha as [E Hnz]%nonzero_Some.
    exists a, s, V, x. rewrite E, (proj2 (Z.eqb_neq a 0)) by congruence. split.
    + rewrite bind_ret, d_addr_din, E, xint_id by (rewrite <- ?E; lia). done.
    + apply appended_same; [congruence|done].
Qed.

End block.

Lemma put_entry_length e bn a : length e = Z.to_nat BSIZE -> 0 <= bn < NINDIRECT ->
  length (put32 e (4 * Z.to_nat bn)%nat a) = Z.to_nat BSIZE.
Proof.
  intros He Hb. unfold put32. rewrite length_put_le; [done|]. rewrite He. unfold NINDIRECT in Hb.
  change (BSIZE / 4) with 256 in Hb. change (Z.to_nat BSIZE) with 1024%nat. lia.
Qed.

(** The part of [iappend_block] after the indirect block is known: the entry is
    zero and gets a block. *)
Definition entry_step (din : dinode) (fbn : Z) : MM (dinode * Z) :=
  let! indirect := rsect (xint (d_addr din NDIRECT)) in
  let! indirect :=
    (if uint_at indirect (fbn - NDIRECT) =? 0 then
       let! a := next_block in
       let indirect := put32 indirect (4 * Z.to_nat (fbn - NDIRECT))%nat (xint a) in
       wsect (xint (d_addr din NDIRECT)) indirect ;;;
       ret indirect
     else ret indirect) in
  ret (din, xint (uint_at indirect (fbn - NDIRECT))).

Lemma entry_add s V x size0 bn e : disk_ok s V -> file_ok mkfs_sb V (marks (freeblock s)) x ->
  NDIRECT <= bn -> file_range bn -> addr_of x NDIRECT <> 0 -> V (addr_of x NDIRECT) = Some e ->
  uint_at e (bn - NDIRECT) = 0 -> freeblock s < LOGICAL_DISK_SIZE ->
  exists s' V', entry_step (din_of x size0) bn s = Ret (din_of x size0, freeblock s) s' /\
    disk_ok s' V' /\ freeblock s' = freeblock s + 1 /\ freeinode s' = freeinode s /\
    bmapped mkfs_sb V (marks (freeblock s)) x bn (freeblock s) V' (marks (freeblock s')) x.
Proof.
  intros D FO Hge Hr Hi He H0 Hlt. pose proof (dk_fs _ _ D) as F. pose proof (dk_range _ _ D) as Hrg.
  rewrite nmeta_eq, LOGICAL_eq in Hrg.
  pose proof (addr_small V _ x NDIRECT F FO ltac:(unfold NDIRECT; lia)) as Hsm.
  pose proof (fo_ind _ _ _ _ FO Hi) as Di. pose proof (db_bm _ _ _ _ Di) as Hbm.
  pose proof (file_range_indirect bn Hr Hge) as Hir.
  assert (Hle : length e = Z.to_nat BSIZE).
  { destruct (db_data _ _ _ _ Di) as (e' & He' & Hl). rewrite He in He'. by injection He' as <-. }
  assert (Hif : 0 <= addr_of x NDIRECT < freeblock s).
  { pose proof (db_bit _ _ _ _ Di) as Hb. rewrite (disk_bit D) in Hb by lia. apply Z.ltb_lt in Hb. lia. }
  destruct (disk_free D Hlt) as [Hf1 Hf2]. destruct (next_block_eq D Hlt) as (s1 & E1 & D1 & Hb1 & Hn1).
  destruct (wsect_eq D1 (addr_of x NDIRECT) (put32 e (4 * Z.to_nat (bn - NDIRECT))%nat (freeblock s)))
    as (s2 & E2 & D2 & Hb2 & Hn2); [rewrite Hb1; lia|done|by apply put_entry_length|].
  exists s2. eexists. split; [|split; [exact D2|split; [lia|split; [congruence|]]]].
  - unfold entry_step. rewrite !d_addr_din, (xint_id (addr_of x NDIRECT)) by lia.
    rewrite (bind_eq _ _ _ _ _ (rsect_eq D (addr_of x NDIRECT) e ltac:(rewrite LOGICAL_eq; lia) Hbm He)), H0. cbn [Z.eqb].
    rewrite (bind_eq _ _ s (put32 e (4 * Z.to_nat (bn - NDIRECT))%nat (freeblock s)) s2).
    + rewrite uint_at_put, decide_True, xint_id by (done || lia). done.
    + rewrite (bind_eq _ _ _ _ _ E1), xint_id by lia. by rewrite (bind_eq _ _ _ _ _ E2).
  - rewrite Hb2, Hb1, marks_succ by lia. by apply bmapped_entry.
Qed.

Section block.
Context {s : mkfs} {V : Z -> option block} {x : inode} {l : list Z} {size0 : Z}.
Notation size := (Z.of_nat (length l)).
Hypotheses (D : disk_ok s V) (A : file_at V (marks (freeblock s)) x l) (Hr : file_range (size / BSIZE))
  (Hroom : freeblock s + new_blocks size <= LOGICAL_DISK_SIZE) (Hd : NDIRECT <= size / BSIZE).

Let F := dk_fs _ _ D.
Let FO := fa_ok _ _ _ _ A.

(** The first indirect block of the file. *)
Lemma iappend_first : size = NDIRECT * BSIZE ->
  exists a s' V' x', iappend_block (din_of x size0) (size / BSIZE) s = Ret (din_of x' size0, a) s' /\
    appended s V x size a s' V' x'.
Proof.
  intros Hs. assert (H0 : addr_of x NDIRECT = 0).
  { destruct (Z.eq_dec (addr_of x NDIRECT) 0) as [|Hn]; [done|].
    apply (fa_ind _ _ _ _ A) in Hn. rewrite (fa_size _ _ _ _ A) in Hn. lia. }
  assert (Hnb : new_blocks size = 2) by (rewrite Hs; reflexivity). rewrite Hnb in Hroom.
  destruct (next_block_eq D) as (s1 & E1 & D1 & Hb1 & Hn1); [lia|]. destruct (disk_free D) as [Hf1 Hf2]; [lia|].
  pose proof (dk_range _ _ D) as Hrg. rewrite nmeta_eq, LOGICAL_eq in *.
  destruct (bmapped_indirect mkfs_sb V (marks (freeblock s)) x (freeblock s) F FO H0 Hf1 Hf2) as (Hi & FO1 & Hcomp).
  set (x1 := set_addr NDIRECT (freeblock s) x) in *.
  rewrite <- marks_succ, <- Hb1 in FO1, Hcomp by lia.
  destruct (entry_add s1 _ x1 size0 (size / BSIZE) zero_data D1 FO1 Hd Hr) as (s2 & V2 & E2 & D2 & Hb2 & Hn2 & B2).
  { rewrite Hi. lia. } { rewrite Hi. apply alloc_new. }
  { apply uint_at_zero. by apply file_range_indirect. } { rewrite LOGICAL_eq. lia. }
  exists (freeblock s1), s2, V2, x1. split.
  - unfold iappend_block. rewrite (proj2 (Z.ltb_ge _ _)), d_addr_din, H0 by done.
    change (xint 0 =? 0) with true. cbv iota.
    rewrite (bind_eq _ _ s (din_of x1 size0) s1); [exact E2|].
    by rewrite (bind_eq _ _ _ _ _ E1), set_d_addr_din, xint_id by lia.
  - constructor; [done|by apply Hcomp|by rewrite Hb2, Hb1, Hnb; lia|by right|congruence].
Qed.

(** The others. *)
Lemma iappend_indirect : size <> NDIRECT * BSIZE ->
  exists a s' V' x', iappend_block (din_of x size0) (size / BSIZE) s = Ret (din_of x' size0, a) s' /\
    appended s V x size a s' V' x'.
Proof.
  intros Hs. pose proof (dk_range _ _ D) as Hrg. rewrite nmeta_eq, LOGICAL_eq in *.
  assert (Hi : addr_of x NDIRECT <> 0).
  { intros H0. destruct (fo_mapped _ _ _ _ FO NDIRECT) as [a Ha].
    - unfold file_range. rewrite MAXFILE_eq. done.
    - rewrite (fa_size _ _ _ _ A). rewrite BSIZE_eq in *. unfold NDIRECT in *. zlia.
    - rewrite file_addr_eq, (proj2 (Z.ltb_ge NDIRECT NDIRECT)), H0 in Ha by done. done. }
  pose proof (fo_ind _ _ _ _ FO Hi) as Di. destruct (db_data _ _ _ _ Di) as (e & He & Hle).
  pose proof (addr_small V _ x NDIRECT F FO ltac:(unfold NDIRECT; lia)) as Hsm.
  assert (Ea : file_addr V x (size / BSIZE) = nonzero (uint_at e (size / BSIZE - NDIRECT))).
  { by rewrite file_addr_eq, (proj2 (Z.ltb_ge _ _)), (proj2 (Z.eqb_neq _ _) Hi), He by done. }
  assert (Hcode : iappend_block (din_of x size0) (size / BSIZE) s = entry_step (din_of x size0) (size / BSIZE) s).
  { unfold iappend_block. rewrite (proj2 (Z.ltb_ge _ _)), d_addr_din, xint_id, (proj2 (Z.eqb_neq _ _) Hi) by (done || lia).
    by rewrite bind_ret. }
  destruct (Z.eq_dec (size mod BSIZE) 0) as [Hm|Hm].
  - assert (Hnb : new_blocks size = 1) by (unfold new_blocks; by rewrite Hm, (proj2 (Z.eqb_neq _ _) Hs)).
    rewrite Hnb in Hroom. rewrite (append_new A Hr Hm) in Ea.
    destruct (entry_add s V x size0 (size / BSIZE) e D FO Hd Hr Hi He) as (s2 & V2 & E2 & D2 & Hb2 & Hn2 & B2).
    { unfold nonzero in Ea. by destruct (Z.eqb_spec (uint_at e (size / BSIZE - NDIRECT)) 0). } { rewrite LOGICAL_eq. lia. }
    exists (freeblock s), s2, V2, x. rewrite Hcode. split; [done|]. constructor; [done|done|by rewrite Hnb|by left|done].
  - destruct (append_same A Hr Hm) as [a Ha]. pose proof Ha as Ha'. rewrite Ea in Ha. apply nonzero_Some in Ha as [E Hnz].
    exists a, s, V, x. split; [|by apply appended_same].
    rewrite Hcode. unfold entry_step. rewrite d_addr_din, xint_id by lia.
    rewrite (bind_eq _ _ _ _ _ (rsect_eq D (addr_of x NDIRECT) e ltac:(rewrite LOGICAL_eq; lia) (db_bm _ _ _ _ Di) He)).
    pose proof (db_range _ _ _ _ (fo_addr _ _ _ _ FO _ _ Hr Ha')) as Hra. change (sb_size mkfs_sb) with 2048 in Hra.
    rewrite E, (proj2 (Z.eqb_neq a 0)) by congruence. rewrite bind_ret, E, xint_id by lia. done.
Qed.
End block.

Lemma iappend_block_eq s V x l size0 : disk_ok s V -> file_at V (marks (freeblock s)) x l ->
  let size := Z.of_nat (length l) in file_range (size / BSIZE) ->
  freeblock s + new_blocks size <= LOGICAL_DISK_SIZE ->
  exists a s' V' x', iappend_block (din_of x size0) (size / BSIZE) s = Ret (din_of x' size0, a) s' /\
    appended s V x size a s' V' x'.
Proof.
  intros D A size Hr Hroom. destruct (Z.lt_ge_cases (size / BSIZE) NDIRECT) as [Hd|Hd].
  - by apply iappend_direct.
  - destruct (Z.eq_dec size (NDIRECT * BSIZE)); [by apply iappend_first|by apply iappend_indirect].
Qed.

(** ** The loop of [iappend] *)

(** The file [x] with the bytes [l] grew into [x'] with [l'], and no other file
    changed. *)
Record grown (s : mkfs) (V : Z -> option block) (x : inode) (l : list Z) (s' : mkfs) (V' : Z -> option block)
    (x' : inode) (l' : list Z) : Prop := {
  gr_disk : disk_ok s' V';
  gr_file : file_at V' (marks (freeblock s')) x' l';
  gr_free : freeblock s' - file_blocks (Z.of_nat (length l')) = freeblock s - file_blocks (Z.of_nat (length l));
  gr_inode : freeinode s' = freeinode s;
  gr_mem : exists la sz, x' = set_i_size sz (set_i_addrs la x);
  gr_uses : forall c, file_uses V' x' c -> c < freeblock s -> file_uses V x c;
  gr_keep : forall c, 0 <= c < freeblock s -> c <> BBLOCK 0 mkfs_sb -> ~ file_uses V x c -> V' c = V c
}.

Lemma grown_refl s V x l : disk_ok s V -> file_at V (marks (freeblock s)) x l -> grown s V x l s V x l.
Proof. intros D A. constructor; try done. exists (i_addrs x), (i_size x). by destruct x. Qed.

Lemma file_blocks_mono m n : 0 <= m <= n -> file_blocks m <= file_blocks n.
Proof.
  intros H. unfold file_blocks. rewrite BSIZE_eq. change (NDIRECT * 1024) with 12288.
  destruct (Z.ltb_spec 12288 m), (Z.ltb_spec 12288 n); zlia.
Qed.

Lemma grown_trans s V x l s1 V1 x1 l1 s2 V2 x2 l2 : (length l <= length l1)%nat ->
  grown s V x l s1 V1 x1 l1 -> grown s1 V1 x1 l1 s2 V2 x2 l2 -> grown s V x l s2 V2 x2 l2.
Proof.
  intros Hll [A1 A2 A3 A4 (la & sz & A5) A6 A7] [B1 B2 B3 B4 (la' & sz' & B5) B6 B7].
  pose proof (file_blocks_mono (Z.of_nat (length l)) (Z.of_nat (length l1)) ltac:(lia)) as Hm. constructor; try done.
  - lia.
  - congruence.
  - exists la', sz'. by rewrite B5, A5.
  - intros c Hc Hlt. apply A6; [|done]. apply B6; [done|lia].
  - intros c Hc Hne Hn. rewrite B7, A7; [done|done|done|done|lia|done|].
    intros Hu. apply Hn, A6; [done|lia].
Qed.

Lemma byte_at_app_l l l2 i : 0 <= i < Z.of_nat (length l) -> byte_at (l ++ l2) i = byte_at l i.
Proof. intros Hi. unfold byte_at. by rewrite lookup_app_l by lia. Qed.

Lemma byte_at_app_r l l2 i : Z.of_nat (length l) <= i -> byte_at (l ++ l2) i = byte_at l2 (i - Z.of_nat (length l)).
Proof. intros Hi. unfold byte_at. rewrite lookup_app_r by lia. do 2 f_equal. lia. Qed.

Lemma byte_at_past l i : Z.of_nat (length l) <= i -> byte_at l i = 0.
Proof. intros Hi. unfold byte_at. by rewrite lookup_ge_None_2 by lia. Qed.

(** One round: the bytes [l2] go to the block that [iappend_block] found. *)
Section round.
Context {s : mkfs} {V : Z -> option block} {x : inode} {l : list Z}.
Notation size := (Z.of_nat (length l)).
Hypotheses (D : disk_ok s V) (A : file_at V (marks (freeblock s)) x l).
Context {a : Z} {s1 : mkfs} {V1 : Z -> option block} {x1 : inode} {e : block} {l2 : list Z}.
Hypotheses (Ap : appended s V x size a s1 V1 x1) (Hl2 : 0 < Z.of_nat (length l2))
  (Hm : size mod BSIZE + Z.of_nat (length l2) <= BSIZE) (Hend : size + Z.of_nat (length l2) <= MAXFILE * BSIZE)
  (He : V1 a = Some e).
Notation V2 := (vset V1 a (splice e (Z.to_nat (size mod BSIZE)) l2)).
Notation x2 := (set_i_size (size + Z.of_nat (length l2)) x1).

Let FO := fa_ok _ _ _ _ A.
Let B := ap_map _ _ _ _ _ _ _ _ Ap.

Lemma round_range : file_range (size / BSIZE).
Proof.
  unfold file_range. pose proof Hend as H1. rewrite MAXFILE_eq, BSIZE_eq in H1. rewrite MAXFILE_eq, BSIZE_eq.
  split; [apply Z.div_pos; lia|]. apply Z.div_lt_upper_bound; lia.
Qed.

Lemma round_block : data_block mkfs_sb V1 (marks (freeblock s1)) a.
Proof. apply (fo_addr _ _ _ _ (bp_file _ _ _ _ _ _ _ _ _ B) (size / BSIZE)); [apply round_range|apply B]. Qed.

Lemma round_len : length e = Z.to_nat BSIZE.
Proof. destruct (db_data _ _ _ _ round_block) as (e' & He' & Hl). rewrite He in He'. by injection He' as <-. Qed.

Lemma round_used c : 0 <= c -> data_block mkfs_sb V1 (marks (freeblock s1)) c -> c < freeblock s1.
Proof.
  intros Hc Dc. pose proof (db_bit _ _ _ _ Dc) as Hb. rewrite (disk_bit (ap_disk _ _ _ _ _ _ _ _ Ap)) in Hb by done.
  by apply Z.ltb_lt.
Qed.

Lemma round_wrote : wrote mkfs_sb V (marks (freeblock s)) x [] size l2 1 V2 (marks (freeblock s1)) x1 [a].
Proof.
  pose proof (dk_fs _ _ D) as F. pose proof round_len as Hle. pose proof round_range as Hr.
  pose proof (wrote_nothing mkfs_sb V (marks (freeblock s)) x [] size F FO) as W0.
  pose proof (wrote_step (l2 := l2) (bl2 := []) (a := a) (V2 := V1) (d2 := marks (freeblock s1)) (x2 := x1) (e := e)
    (Nat2Z.is_nonneg _) W0) as W. change (Z.of_nat (length (@nil Z))) with 0 in W. rewrite !Z.add_0_r in W. apply W; try done. intros c Hc. by apply elem_of_nil in Hc.
Qed.

Lemma round_file : file_ok mkfs_sb V2 (marks (freeblock s1)) x2.
Proof.
  pose proof round_wrote as [_ W2 [la W3] _ _ _ _ W8 _]. apply file_ok_size; [done|lia|]. intros bn Hr Hs.
  destruct (decide (bn * BSIZE < i_size x1)) as [Hold|Hnew]; [by apply (fo_mapped _ _ _ _ W2)|].
  assert (Hsx : i_size x1 = size) by (rewrite W3; apply (fa_size _ _ _ _ A)).
  replace bn with (size / BSIZE + 0); [apply W8; lia|]. rewrite Hsx, BSIZE_eq in *. zlia.
Qed.

Lemma round_grown s2 : disk_ok s2 V2 -> freeblock s2 = freeblock s1 -> freeinode s2 = freeinode s1 ->
  grown s V x l s2 V2 x2 (l ++ l2).
Proof.
  intros D2 Hf Hn. pose proof round_wrote as [W1 W2 [la W3] W4 W5 W6 _ _ _].
  pose proof (dk_range _ _ D) as Hrg.
  assert (Hlen : Z.of_nat (length (l ++ l2)) = size + Z.of_nat (length l2)) by (rewrite length_app; lia).
  assert (Huses : forall c, file_uses V2 x2 c -> data_block mkfs_sb V2 (marks (freeblock s1)) c).
  { intros c Hc. by apply (file_uses_data _ _ _ x2), Hc; apply round_file. }
  assert (Hold : forall c, file_uses V2 x2 c -> c < freeblock s -> file_uses V x c).
  { intros c Hc Hlt. pose proof (Huses c Hc) as Dc. apply W5; [exact Hc|]. apply (disk_data D); [|apply Dc].
    pose proof (db_range _ _ _ _ Dc). lia. }
  constructor; try done.
  - constructor.
    + rewrite Hf. apply round_file.
    + by rewrite Hlen.
    + intros bn Hr Hs. change (i_size x2) with (size + Z.of_nat (length l2)).
      destruct (decide (bn = size / BSIZE)) as [->|Hne]; [rewrite BSIZE_eq; zlia|].
      change (file_addr V2 x2 bn) with (file_addr V2 x1 bn) in Hs.
      rewrite (store_addr (bp_file _ _ _ _ _ _ _ _ _ B) round_range (bp_addr _ _ _ _ _ _ _ _ _ B)) in Hs.
      rewrite (bp_same _ _ _ _ _ _ _ _ _ B) in Hs by done. apply (fa_only _ _ _ _ A) in Hs; [|done].
      rewrite (fa_size _ _ _ _ A) in Hs. lia.
    + change (i_size x2) with (size + Z.of_nat (length l2)). change (addr_of x2 NDIRECT) with (addr_of x1 NDIRECT).
      intros [Hi|Hi]%(ap_ind _ _ _ _ _ _ _ _ Ap).
      * apply (fa_ind _ _ _ _ A) in Hi. rewrite (fa_size _ _ _ _ A) in Hi. lia.
      * rewrite BSIZE_eq in *. zlia.
    + intros i Hi. change (file_byte V2 x2 i) with (file_byte V2 x1 i). rewrite W4 by done. case_decide as E.
      * by rewrite byte_at_app_r by lia.
      * rewrite (fa_bytes _ _ _ _ A) by done. destruct (decide (i < size)) as [Hlt|Hge].
        -- rewrite byte_at_app_l by (destruct Hi; lia). done.
        -- rewrite !byte_at_past by (rewrite ?Hlen; lia). done.
    + intros c Hc. destruct (decide (c < freeblock s)) as [Hlt|Hge]; [|lia]. apply (fa_data _ _ _ _ A). by apply Hold.
  - rewrite Hlen, Hf, (ap_free _ _ _ _ _ _ _ _ Ap), file_blocks_step by lia. lia.
  - rewrite Hn. apply (ap_inode _ _ _ _ _ _ _ _ Ap).
  - exists la, (size + Z.of_nat (length l2)). by rewrite W3.
  - intros c Hc Hne Hu. by apply W6; [apply (disk_data D)|].
Qed.
End round.

Definition iappend_body : dinode * Z * list Z * Z -> MM (dinode * Z * list Z * Z + dinode * Z) :=
  fun '(din, off, p, n) =>
    if 0 <? n then
      let fbn := off / BSIZE in
      if MAXFILE <=? fbn then panic "assert" else
      let! '(din, x) := iappend_block din fbn in
      let n1 := Z.min n (u32 ((fbn + 1) * BSIZE - off)) in
      let! buf := rsect x in
      wsect x (splice buf (Z.to_nat (off - fbn * BSIZE)) (take (Z.to_nat n1) p)) ;;;
      ret (inl (din, u32 (off + n1), drop (Z.to_nat n1) p, n - n1))
    else ret (inr (din, off)).

(** The blocks that [n] more bytes need are there. *)
Definition room_for (s : mkfs) (size n : Z) : Prop :=
  size + n <= MAXFILE * BSIZE /\ freeblock s + file_blocks (size + n) - file_blocks size <= LOGICAL_DISK_SIZE.

Lemma iappend_round s V x l p size0 : disk_ok s V -> file_at V (marks (freeblock s)) x l ->
  0 < Z.of_nat (length p) -> room_for s (Z.of_nat (length l)) (Z.of_nat (length p)) ->
  exists l2 p' s' V' x', p = l2 ++ p' /\ 0 < Z.of_nat (length l2) /\ grown s V x l s' V' x' (l ++ l2) /\
    iappend_body (din_of x size0, Z.of_nat (length l), p, Z.of_nat (length p)) s =
      Ret (inl (din_of x' size0, Z.of_nat (length (l ++ l2)), p', Z.of_nat (length p'))) s'.
Proof.
  intros D A Hp [Hend Hroom]. set (size := Z.of_nat (length l)) in *. set (n := Z.of_nat (length p)) in *.
  pose proof (Nat2Z.is_nonneg (length l)) as H0. fold size in H0.
  pose proof Hend as Hend'. rewrite MAXFILE_eq, BSIZE_eq in Hend'.
  pose proof (Z.mod_pos_bound size 1024 ltac:(done)) as Hmod. pose proof (Z.div_mod size 1024 ltac:(done)) as Hdm.
  assert (Hr : file_range (size / BSIZE)).
  { unfold file_range. rewrite MAXFILE_eq, BSIZE_eq. split; [by apply Z.div_pos|]. apply Z.div_lt_upper_bound; lia. }
  set (n1 := Z.min n (BSIZE - size mod BSIZE)). assert (Hn1 : 0 < n1 <= n /\ n1 <= 1024 - size mod 1024).
  { unfold n1. rewrite BSIZE_eq. lia. }
  assert (Hnb : freeblock s + new_blocks size <= LOGICAL_DISK_SIZE).
  { pose proof (file_blocks_step size n1 H0 ltac:(rewrite BSIZE_eq; lia)) as Es.
    pose proof (file_blocks_mono (size + n1) (size + n) ltac:(lia)). lia. }
  destruct (iappend_block_eq s V x l size0 D A Hr Hnb) as (a & s1 & V1 & x1 & E1 & Ap).
  set (l2 := take (Z.to_nat n1) p). assert (Hl2 : Z.of_nat (length l2) = n1) by (unfold l2; rewrite length_take; lia).
  pose proof (round_block (l2 := l2) Ap ltac:(lia) ltac:(fold size; lia)) as Da. pose proof (ap_disk _ _ _ _ _ _ _ _ Ap) as D1.
  destruct (db_data _ _ _ _ Da) as (e & He & Hle). pose proof (db_range _ _ _ _ Da) as Hra.
  assert (Hua : 0 <= a < freeblock s1) by (split; [lia|apply (round_used Ap); [lia|done]]).
  destruct (wsect_eq D1 a (splice e (Z.to_nat (size mod BSIZE)) l2) Hua (db_bm _ _ _ _ Da)) as (s2 & E2 & D2 & Hb2 & Hi2).
  { rewrite length_splice; [done|]. rewrite Hle, BSIZE_eq. lia. }
  assert (G : grown s V x l s2 (vset V1 a (splice e (Z.to_nat (size mod BSIZE)) l2))
    (set_i_size (size + Z.of_nat (length l2)) x1) (l ++ l2)).
  { apply (round_grown D A Ap); try done; rewrite ?Hl2, ?MAXFILE_eq, ?BSIZE_eq; fold size; lia. }
  exists l2, (drop (Z.to_nat n1) p), s2. do 2 eexists. split; [symmetry; apply take_drop|]. split; [lia|]. split; [exact G|].
  unfold iappend_body. rewrite (proj2 (Z.ltb_lt 0 n)) by lia. cbv zeta.
  rewrite (proj2 (Z.leb_gt MAXFILE _)) by (destruct Hr; lia). rewrite (bind_eq _ _ _ _ _ E1). cbv beta iota.
  assert (Eu : u32 ((size / BSIZE + 1) * BSIZE - size) = BSIZE - size mod BSIZE).
  { rewrite BSIZE_eq, u32_small; lia. }
  rewrite Eu. fold n1. rewrite (bind_eq _ _ _ _ _ (rsect_eq D1 a e Hra (db_bm _ _ _ _ Da) He)).
  replace (size - size / BSIZE * BSIZE) with (size mod BSIZE) by (rewrite BSIZE_eq; lia). fold l2.
  rewrite (bind_eq _ _ _ _ _ E2), u32_small by lia. unfold ret. rewrite length_app, length_drop. do 4 f_equal; [|lia]. f_equal; lia.
Qed.

Lemma iappend_loop s V x l p size0 : disk_ok s V -> file_at V (marks (freeblock s)) x l ->
  room_for s (Z.of_nat (length l)) (Z.of_nat (length p)) ->
  exists s' V' x', grown s V x l s' V' x' (l ++ p) /\
    loop (din_of x size0, Z.of_nat (length l), p, Z.of_nat (length p)) iappend_body s =
      Ret (din_of x' size0, Z.of_nat (length (l ++ p))) s'.
Proof.
  intros D A [Hend Hroom]. enough (Hw : wp (loop (din_of x size0, Z.of_nat (length l), p, Z.of_nat (length p)) iappend_body) s
    (fun r s' => exists V' x', grown s V x l s' V' x' (l ++ p) /\ r = (din_of x' size0, Z.of_nat (length (l ++ p))))).
  { apply wp_inv in Hw as (r & s' & E & V' & x' & G & ->). by exists s', V', x'. }
  apply (wp_loop (fun '(din, off, p', n) s1 => exists l1 V1 x1, p = l1 ++ p' /\ n = Z.of_nat (length p') /\
    off = Z.of_nat (length (l ++ l1)) /\ din = din_of x1 size0 /\ grown s V x l s1 V1 x1 (l ++ l1))
    (fun '(_, _, _, n) => n)).
  - exists [], V, x. rewrite app_nil_r. split_and!; try done. by apply grown_refl.
  - rewrite MAXFILE_eq, BSIZE_eq in Hend. lia.
  - intros [[[din off] p'] n] s1 (l1 & V1 & x1 & _ & -> & _). lia.
  - intros [[[din off] p'] n] s1 (l1 & V1 & x1 & E & -> & -> & -> & G).
    destruct (decide (length p' = 0)%nat) as [Hz|Hz].
    + apply nil_length_inv in Hz as ->. rewrite app_nil_r in E. subst l1. apply wp_ret. by exists V1, x1.
    + assert (Hpl : length p = (length l1 + length p')%nat) by (by rewrite E, length_app).
      destruct (iappend_round s1 V1 x1 (l ++ l1) p' size0) as (l2 & p2 & s2 & V2 & x2 & E2 & Hl2 & G2 & Ec).
      { apply G. } { apply G. } { lia. }
      { rewrite length_app, Nat2Z.inj_add. split; [lia|]. pose proof (gr_free _ _ _ _ _ _ _ _ G) as Hf.
        rewrite length_app, Nat2Z.inj_add in Hf.
        replace (Z.of_nat (length l) + Z.of_nat (length l1) + Z.of_nat (length p'))
          with (Z.of_nat (length l) + Z.of_nat (length p)) by lia. lia. }
      apply (wp_eq _ _ _ _ _ Ec). split; [|rewrite E2, length_app; lia].
      exists (l1 ++ l2), V2, x2. rewrite app_assoc. split_and!; try done; [by rewrite E, E2, app_assoc|].
      eapply grown_trans; [|exact G|exact G2]. rewrite length_app. lia.
Qed.

(** ** Inodes *)

Lemma zeroes_eq : zeroes = zero_data. Proof. reflexivity. Qed.

Lemma inode_block i : 0 <= i < NINODES -> 0 <= IBLOCK i mkfs_sb < nmeta /\ IBLOCK i mkfs_sb <> BBLOCK 0 mkfs_sb /\
  IBLOCK i mkfs_sb <> 1.
Proof. intros Hi. apply IBLOCK_eq in Hi as [_ Hb]. rewrite nmeta_eq, BMAP_eq. lia. Qed.

Lemma rinode_eq s V i d : disk_ok s V -> 0 <= i < NINODES -> inode_at mkfs_sb V i = Some d -> rinode i s = Ret d s.
Proof.
  intros D Hi Hd. destruct (inode_block i Hi) as (Hb & Hne & _). pose proof (dk_range _ _ D) as Hr. unfold inode_at in Hd.
  destruct (V (IBLOCK i mkfs_sb)) as [e|] eqn:He; [|done]. injection Hd as <-.
  unfold rinode. cbv zeta. rewrite (bind_eq _ _ s e s); [done|]. apply (rsect_eq D); [lia|done|done].
Qed.

(** The blocks after the inode [i] was written. *)
Definition vinode (V : Z -> option block) (i : Z) (d : dinode) : Z -> option block :=
  vset V (IBLOCK i mkfs_sb) (put_dinode (default [] (V (IBLOCK i mkfs_sb))) (dinode_off i) d).

Section inode.
Context {s : mkfs} {V : Z -> option block} {i : Z} {d : dinode}.
Hypotheses (D : disk_ok s V) (Hi : 0 <= i < NINODES) (Hd : dinode_ok d).

Lemma inode_data : exists e, V (IBLOCK i mkfs_sb) = Some e /\ length e = Z.to_nat BSIZE.
Proof. destruct (inode_block i Hi) as (Hb & _). pose proof (dk_range _ _ D) as Hr. apply (dk_blocks _ _ D). lia. Qed.

Lemma winode_eq : exists s', winode i d s = Ret tt s' /\ disk_ok s' (vinode V i d) /\
  freeblock s' = freeblock s /\ freeinode s' = freeinode s.
Proof.
  destruct (inode_block i Hi) as (Hb & Hne & _). pose proof (dk_range _ _ D) as Hr. destruct inode_data as (e & He & Hle).
  destruct (wsect_eq D (IBLOCK i mkfs_sb) (put_dinode e (dinode_off i) d)) as (s' & E & D' & Hf & Hn); [lia|done| |].
  { rewrite length_put_dinode; [done|apply Hd|]. rewrite Hle. apply dinode_off_range. }
  exists s'. unfold vinode. rewrite He. split; [|done]. unfold winode. cbv zeta.
  rewrite (bind_eq _ _ s e s); [done|]. apply (rsect_eq D); [lia|done|done].
Qed.

Lemma vinode_at : inode_at mkfs_sb (vinode V i d) i = Some d.
Proof.
  destruct inode_data as (e & He & Hle). unfold inode_at, vinode, vset. rewrite decide_True, He by done.
  change (default [] (Some e)) with e. cbn [fmap option_fmap option_map]. f_equal. apply get_put_dinode; [done|]. rewrite Hle. apply dinode_off_range.
Qed.

Lemma vinode_other j : 0 <= j < NINODES -> j <> i -> inode_at mkfs_sb (vinode V i d) j = inode_at mkfs_sb V j.
Proof.
  intros Hj Hne. destruct inode_data as (e & He & Hle). unfold inode_at, vinode, vset.
  destruct (decide (IBLOCK j mkfs_sb = IBLOCK i mkfs_sb)) as [E|E]; [|done]. rewrite E, He.
  change (default [] (Some e)) with e. cbn [fmap option_fmap option_map]. f_equal.
  apply get_put_dinode_other; [apply Hd|rewrite Hle; apply dinode_off_range|].
  apply or_comm, dinode_off_apart. intros Em. apply Hne. symmetry. unfold NINODES in *.
  apply (inode_place mkfs_sb); [lia|lia|by symmetry|done].
Qed.

Lemma vinode_block c : ~ 32 <= c < 45 -> vinode V i d c = V c.
Proof. intros Hc. unfold vinode, vset. rewrite decide_False; [done|]. pose proof (IBLOCK_eq i Hi). lia. Qed.
End inode.

(** ** The image under construction *)

Definition total_blocks (ys : list (dinode * list Z)) : Z :=
  foldr (fun y n => file_blocks (Z.of_nat (length y.2)) + n) 0 ys.

Lemma total_cons y ys : total_blocks (y :: ys) = file_blocks (Z.of_nat (length y.2)) + total_blocks ys.
Proof. done. Qed.

Lemma total_insert ys k d l d' l' : ys !! k = Some (d, l) ->
  total_blocks (<[k := (d', l')]> ys) =
    total_blocks ys + file_blocks (Z.of_nat (length l')) - file_blocks (Z.of_nat (length l)).
Proof.
  revert k. induction ys as [|y ys IH]; intros [|k] Hk; try done.
  - injection Hk as ->. change (<[0%nat := (d', l')]> ((d, l) :: ys)) with ((d', l') :: ys).
    rewrite !total_cons. cbn [snd]. lia.
  - change (<[S k := (d', l')]> (y :: ys)) with (y :: <[k := (d', l')]> ys). rewrite !total_cons, IH by exact Hk. lia.
Qed.

Lemma total_snoc ys y : total_blocks (ys ++ [y]) = total_blocks ys + file_blocks (Z.of_nat (length y.2)).
Proof.
  induction ys as [|z ys IH]; [rewrite app_nil_l, total_cons; change (total_blocks []) with 0; lia|].
  rewrite <- app_comm_cons, !total_cons, IH. lia.
Qed.

(** The blocks before the inodes: the superblock, and an empty log. *)
Definition meta_block (c : Z) : block :=
  if decide (c = 1) then splice zeroes 0 (superblock_bytes mkfs_sb) else zero_data.

(** The inodes from 1 on and the content of their files. *)
Record built (s : mkfs) (V : Z -> option block) (ys : list (dinode * list Z)) : Prop := {
  bt_disk : disk_ok s V;
  bt_next : freeinode s = 1 + Z.of_nat (length ys);
  bt_max : freeinode s <= NINODES;
  bt_used : freeblock s = nmeta + total_blocks ys;
  bt_file : forall k d l, ys !! k = Some (d, l) -> file_at V (marks (freeblock s)) (kernel_inode d) l;
  bt_inode : forall k d l, ys !! k = Some (d, l) -> inode_at mkfs_sb V (1 + Z.of_nat k) = Some d /\ dinode_ok d;
  bt_apart : forall i j d l d' l' c, ys !! i = Some (d, l) -> ys !! j = Some (d', l') -> i <> j ->
    file_uses V (kernel_inode d) c -> ~ file_uses V (kernel_inode d') c;
  bt_unused : forall i, freeinode s <= i < NINODES -> exists d, inode_at mkfs_sb V i = Some d /\ d_type d = 0;
  bt_meta : forall c, 0 <= c < 32 -> V c = Some (meta_block c)
}.

Lemma built_range {s V ys} k y : built s V ys -> ys !! k = Some y -> 0 <= 1 + Z.of_nat k < NINODES.
Proof.
  intros B Hk%lookup_lt_Some. pose proof (bt_next _ _ _ B). pose proof (bt_max _ _ _ B). lia.
Qed.

Lemma disk_data_keep {s V s' V'} c : disk_ok s V -> disk_ok s' V' -> freeblock s <= freeblock s' ->
  data_block mkfs_sb V (marks (freeblock s)) c -> data_block mkfs_sb V' (marks (freeblock s')) c.
Proof.
  intros D D' Hle [H1 H2 H3 _]. rewrite (disk_bit D) in H2 by lia. apply Z.ltb_lt in H2.
  apply (disk_data D'); [lia|done].
Qed.

Lemma keep_file_at {s V s' V' x l} : disk_ok s V -> disk_ok s' V' -> freeblock s <= freeblock s' ->
  (forall c, file_uses V x c -> V' c = V c) ->
  file_at V (marks (freeblock s)) x l -> file_at V' (marks (freeblock s')) x l.
Proof.
  intros D D' Hle HV. apply (frame_file_at (V := V)); [exact HV|]. intros c _. by apply disk_data_keep.
Qed.

(** The blocks of the files are not those of the inodes. *)
Lemma uses_meta {V d x l} c : file_at V d x l -> c < nmeta -> ~ file_uses V x c.
Proof. intros A Hc Hu. apply (fa_data _ _ _ _ A) in Hu. lia. Qed.

Lemma uses_used {s V x l} c : disk_ok s V -> file_at V (marks (freeblock s)) x l -> file_uses V x c ->
  0 <= c < freeblock s /\ c <> BBLOCK 0 mkfs_sb.
Proof.
  intros D A Hu. pose proof (file_uses_data _ _ _ _ _ (fa_ok _ _ _ _ A) Hu) as [H1 H2 H3 _].
  rewrite (disk_bit D) in H2 by lia. apply Z.ltb_lt in H2. split; [lia|done].
Qed.

Lemma vinode_uses {V d x l} i y c : 0 <= i < NINODES -> file_at V d x l -> file_uses V x c -> vinode V i y c = V c.
Proof.
  intros Hi A Hu. apply vinode_block; [done|]. apply (fa_data _ _ _ _ A) in Hu. rewrite nmeta_eq in Hu. lia.
Qed.

Lemma kernel_inode_of d x : (exists la sz, x = set_i_size sz (set_i_addrs la (kernel_inode d))) ->
  x = kernel_inode (dinode_of x).
Proof. by intros (la & sz & ->). Qed.

Lemma din_of_inode d : din_of (kernel_inode d) (d_size d) = d.
Proof. by destruct d. Qed.

(** The state after [iappend] wrote the inode: the other files did not change. *)
Lemma built_grown s V ys k d l s1 V1 x1 l1 s2 : built s V ys -> ys !! k = Some (d, l) -> (length l <= length l1)%nat ->
  grown s V (kernel_inode d) l s1 V1 x1 l1 -> dinode_ok (dinode_of x1) ->
  disk_ok s2 (vinode V1 (1 + Z.of_nat k) (dinode_of x1)) -> freeblock s2 = freeblock s1 -> freeinode s2 = freeinode s1 ->
  built s2 (vinode V1 (1 + Z.of_nat k) (dinode_of x1)) (<[k := (dinode_of x1, l1)]> ys).
Proof.
  intros B Hk Hll G Hok D2 Hf Hn. pose proof (built_range k _ B Hk) as Hi. destruct (bt_inode _ _ _ B _ _ _ Hk) as [Hd Hdok].
  pose proof (bt_disk _ _ _ B) as D. pose proof (gr_disk _ _ _ _ _ _ _ _ G) as D1.
  pose proof (file_blocks_mono (Z.of_nat (length l)) (Z.of_nat (length l1)) ltac:(lia)) as Hmono.
  pose proof (gr_free _ _ _ _ _ _ _ _ G) as Hfr. pose proof (kernel_inode_of d x1 (gr_mem _ _ _ _ _ _ _ _ G)) as Ex.
  pose proof (dk_range _ _ D) as Hrg. pose proof (lookup_lt_Some _ _ _ Hk) as Hlt.
  set (V2 := vinode V1 (1 + Z.of_nat k) (dinode_of x1)) in *. rewrite Ex in G.
  set (d1 := dinode_of x1) in *. pose proof (gr_file _ _ _ _ _ _ _ _ G) as A1. pose proof (bt_file _ _ _ B _ _ _ Hk) as A.
  assert (Hmeta : forall c, 0 <= c < nmeta -> c <> BBLOCK 0 mkfs_sb -> V1 c = V c).
  { intros c Hc Hne. apply (gr_keep _ _ _ _ _ _ _ _ G); [lia|done|]. apply (uses_meta c A). lia. }
  assert (Hoth : forall j y m c, ys !! j = Some (y, m) -> j <> k -> file_uses V (kernel_inode y) c ->
    V1 c = V c /\ V2 c = V c).
  { intros j y m c Hj Hjk Hu. pose proof (bt_file _ _ _ B _ _ _ Hj) as Aj. destruct (uses_used c D Aj Hu) as [Hc Hne].
    assert (E1 : V1 c = V c) by (apply (gr_keep _ _ _ _ _ _ _ _ G); try done; by apply (bt_apart _ _ _ B j k _ _ _ _ c Hj Hk)).
    split; [done|]. rewrite <- E1. apply vinode_block; [done|]. apply (fa_data _ _ _ _ Aj) in Hu. rewrite nmeta_eq in Hu. lia. }
  assert (Hou : forall j y m c, ys !! j = Some (y, m) -> j <> k -> file_uses V2 (kernel_inode y) c -> file_uses V (kernel_inode y) c).
  { intros j y m c Hj Hjk. refine (proj1 (frame_uses _ c)). intros c' Hc'. by eapply Hoth. }
  assert (Hku : forall c, file_uses V2 (kernel_inode d1) c -> file_uses V1 (kernel_inode d1) c).
  { intros c. refine (proj1 (frame_uses _ c)). intros c' Hc'. by apply (vinode_uses _ _ _ Hi A1). }
  assert (Hdisj : forall j y m c, ys !! j = Some (y, m) -> j <> k -> file_uses V2 (kernel_inode y) c ->
    ~ file_uses V2 (kernel_inode d1) c).
  { intros j y m c Hj Hjk Hu%(Hou j y m c Hj Hjk) Hu2%Hku. destruct (uses_used c D (bt_file _ _ _ B _ _ _ Hj) Hu) as [Hc _].
    apply (bt_apart _ _ _ B j k _ _ _ _ c Hj Hk Hjk Hu). apply (gr_uses _ _ _ _ _ _ _ _ G); [done|lia]. }
  constructor.
  - exact D2.
  - rewrite length_insert, Hn, (gr_inode _ _ _ _ _ _ _ _ G). apply B.
  - rewrite Hn, (gr_inode _ _ _ _ _ _ _ _ G). apply B.
  - rewrite (total_insert _ _ _ _ _ _ Hk), Hf. pose proof (bt_used _ _ _ B). lia.
  - intros j y m Hj. rewrite Hf. apply list_lookup_insert_Some in Hj as [(<- & [= <- <-] & _)|[Hjk Hj]].
    + rewrite <- Hf. apply (keep_file_at D1 D2); [lia| |done]. intros c Hc. by apply (vinode_uses _ _ _ Hi A1).
    + rewrite <- Hf. apply (keep_file_at D D2); [lia| |by apply (bt_file _ _ _ B j)].
      intros c Hc. eapply (Hoth j y m c); [done|congruence|done].
  - intros j y m Hj. apply list_lookup_insert_Some in Hj as [(<- & [= <- <-] & _)|[Hjk Hj]].
    + split; [|done]. by apply (vinode_at D1).
    + destruct (bt_inode _ _ _ B _ _ _ Hj) as [Hy Hyok]. split; [|done]. pose proof (built_range j _ B Hj) as Hij.
      unfold V2. rewrite (vinode_other D1) by (done || lia). rewrite <- Hy. unfold inode_at. f_equal. by apply Hmeta; apply inode_block.
  - intros i j y m y' m' c Hy Hy' Hne. apply list_lookup_insert_Some in Hy as [(<- & [= <- <-] & _)|[Hjk Hj]];
      apply list_lookup_insert_Some in Hy' as [(<- & [= <- <-] & _)|[Hjk' Hj']].
    + done.
    + intros Hu Hu'. exact (Hdisj j y' m' c Hj' (not_eq_sym Hjk') Hu' Hu).
    + intros Hu Hu'. exact (Hdisj i y m c Hj (not_eq_sym Hjk) Hu Hu').
    + intros Hu%(Hou i y m c Hj (not_eq_sym Hjk)) Hu'%(Hou j y' m' c Hj' (not_eq_sym Hjk')).
      by apply (bt_apart _ _ _ B i j y m y' m' c).
  - intros i Hfi. rewrite Hn, (gr_inode _ _ _ _ _ _ _ _ G) in Hfi. pose proof (bt_next _ _ _ B) as Hnx.
    unfold V2. rewrite (vinode_other D1) by (done || lia). destruct (bt_unused _ _ _ B i Hfi) as (y & Hy & Hty). exists y. split; [|done].
    rewrite <- Hy. unfold inode_at. f_equal. apply Hmeta; apply inode_block; lia.
  - intros c Hc. unfold V2. rewrite vinode_block by (done || lia). rewrite Hmeta by (rewrite ?nmeta_eq, ?BMAP_eq; lia).
    by apply B.
Qed.

(** [iappend] adds the bytes [p] to the file. *)
Lemma iappend_built s V ys k d l p : built s V ys -> ys !! k = Some (d, l) ->
  room_for s (Z.of_nat (length l)) (Z.of_nat (length p)) ->
  exists s' V' d', iappend (1 + Z.of_nat k) p (Z.of_nat (length p)) s = Ret tt s' /\
    built s' V' (<[k := (d', l ++ p)]> ys) /\
    freeblock s' = freeblock s + file_blocks (Z.of_nat (length (l ++ p))) - file_blocks (Z.of_nat (length l)) /\
    freeinode s' = freeinode s /\
    (d_type d', d_major d', d_minor d', d_nlink d') = (d_type d, d_major d, d_minor d, d_nlink d).
Proof.
  intros B Hk Hroom. pose proof (bt_disk _ _ _ B) as D. pose proof (bt_file _ _ _ B _ _ _ Hk) as A.
  pose proof (built_range k _ B Hk) as Hi. destruct (bt_inode _ _ _ B _ _ _ Hk) as [Hd Hdok].
  pose proof (fa_size _ _ _ _ A) as Hs. change (i_size (kernel_inode d)) with (d_size d) in Hs.
  destruct (iappend_loop s V (kernel_inode d) l p (d_size d) D A Hroom) as (s1 & V1 & x1 & G & E1).
  rewrite din_of_inode in E1. pose proof (gr_disk _ _ _ _ _ _ _ _ G) as D1. pose proof (gr_file _ _ _ _ _ _ _ _ G) as A1.
  assert (Hok : dinode_ok (dinode_of x1)).
  { destruct (gr_mem _ _ _ _ _ _ _ _ G) as (la & sz & Ex).
    apply (file_ok_dinode mkfs_sb V1 (marks (freeblock s1)) (kernel_inode d)); [apply D1|apply A1| |by exists la, sz].
    by destruct d. }
  assert (Hlen : Z.of_nat (length (l ++ p)) = d_size (dinode_of x1)) by (symmetry; apply (fa_size _ _ _ _ A1)).
  destruct (winode_eq (d := dinode_of x1) D1 Hi Hok) as (s2 & E2 & D2 & Hf & Hn).
  exists s2, (vinode V1 (1 + Z.of_nat k) (dinode_of x1)), (dinode_of x1).
  split; [|split; [|split; [|split]]].
  - unfold iappend. rewrite (bind_eq _ _ _ _ _ (rinode_eq _ _ _ _ D Hi Hd)).
    rewrite (xint_id (d_size d)) by apply Hdok. rewrite Hs in E1 |- *.
    fold iappend_body. rewrite (bind_eq _ _ _ _ _ E1). cbv beta iota. rewrite Hlen, xint_id by apply Hok. exact E2.
  - apply (built_grown s V ys k d l s1 V1 x1 (l ++ p)); try done. rewrite length_app. lia.
  - rewrite Hf. pose proof (gr_free _ _ _ _ _ _ _ _ G). lia.
  - rewrite Hn. apply (gr_inode _ _ _ _ _ _ _ _ G).
  - destruct (gr_mem _ _ _ _ _ _ _ _ G) as (la & sz & ->). done.
Qed.

(** The inode that [ialloc] makes. *)
Definition new_dinode (type : Z) : dinode := Dinode type 0 3 1 0 (replicate (Z.to_nat (NDIRECT + 1)) 0).

Lemma new_addr type V bn : file_range bn -> file_addr V (kernel_inode (new_dinode type)) bn = None.
Proof.
  intros [Hb _]. assert (H0 : forall i, addr_of (kernel_inode (new_dinode type)) i = 0).
  { intros i. unfold addr_of. cbn [kernel_inode new_dinode i_addrs d_addrs].
    destruct (_ !! _) as [a|] eqn:E; [|done]. by apply lookup_replicate in E as [-> _]. }
  rewrite file_addr_eq, !H0. by case_match.
Qed.

Lemma new_uses type V c : ~ file_uses V (kernel_inode (new_dinode type)) c.
Proof.
  intros [[-> Hn]|(bn & Hr & Hc)]; [by apply Hn|]. by rewrite new_addr in Hc.
Qed.

Lemma new_file s V type : disk_ok s V -> file_at V (marks (freeblock s)) (kernel_inode (new_dinode type)) [].
Proof.
  intros D. constructor.
  - constructor; try done.
    + intros bn a Hr. by rewrite new_addr.
    + intros bn bn' a Hr Hr'. by rewrite new_addr.
    + intros bn Hr. by rewrite new_addr.
    + intros bn [Hr _] Hs. change (i_size _) with 0 in Hs. rewrite BSIZE_eq in Hs. lia.
  - done.
  - intros bn Hr. rewrite new_addr by done. by intros [].
  - intros Hn. by destruct Hn.
  - intros i Hi. unfold file_byte, file_block. rewrite new_addr by by apply in_file_block.
    cbn [mbind option_bind]. unfold byte_at. by rewrite !lookup_nil.
  - intros c Hu. by apply new_uses in Hu.
Qed.

Lemma new_dinode_ok type : - 2 ^ 15 <= type < 2 ^ 15 -> dinode_ok (new_dinode type).
Proof. intros Ht. constructor; try done. cbn. repeat constructor; lia. Qed.

Lemma ialloc_built s V ys type : built s V ys -> freeinode s < NINODES -> type = T_DIR \/ type = T_FILE ->
  exists s' V', ialloc type s = Ret (1 + Z.of_nat (length ys)) s' /\ built s' V' (ys ++ [(new_dinode type, [])]) /\
    freeblock s' = freeblock s.
Proof.
  intros B Hlt Ht. pose proof (bt_disk _ _ _ B) as D. pose proof (bt_next _ _ _ B) as Hnx.
  set (i := 1 + Z.of_nat (length ys)) in *. assert (Hi : 0 <= i < NINODES) by lia.
  assert (Hok : dinode_ok (new_dinode type)) by (apply new_dinode_ok; destruct Ht; subst; done).
  set (s1 := set_freeinode (i + 1) s).
  assert (D1 : disk_ok s1 V) by (destruct D; by constructor).
  destruct (winode_eq (d := new_dinode type) D1 Hi Hok) as (s2 & E2 & D2 & Hf & Hn).
  set (V2 := vinode V i (new_dinode type)) in *. exists s2, V2.
  change (freeblock s1) with (freeblock s) in Hf. change (freeinode s1) with (i + 1) in Hn.
  assert (Hkeep : forall k d l c, ys !! k = Some (d, l) -> file_uses V (kernel_inode d) c -> V2 c = V c).
  { intros k d l c Hk. apply (vinode_uses _ _ _ Hi (bt_file _ _ _ B _ _ _ Hk)). }
  assert (Huses : forall k d l c, ys !! k = Some (d, l) -> file_uses V2 (kernel_inode d) c -> file_uses V (kernel_inode d) c).
  { intros k d l c Hk. refine (proj1 (frame_uses _ c)). intros c'. by apply (Hkeep k d l). }
  split; [|split; [|done]].
  - unfold ialloc, bind at 1, gets. rewrite Hnx. unfold bind at 1, modify.
    rewrite u32_small by (unfold NINODES in Hi; lia). fold s1.
    assert (Ed : Dinode (s16 (xshort type)) 0 (if type =? T_DEVICE then 0 else s16 (xshort (Z.lor M_READ M_WRITE)))
      (s16 (xshort 1)) (xint 0) (replicate (Z.to_nat (NDIRECT + 1)) 0) = new_dinode type) by (by destruct Ht; subst).
    cbv zeta. rewrite Ed. by rewrite (bind_eq _ _ _ _ _ E2).
  - constructor.
    + exact D2.
    + rewrite Hn, length_app. cbn [length]. lia.
    + lia.
    + rewrite Hf, total_snoc, (bt_used _ _ _ B). change (file_blocks _) with 0. lia.
    + intros k d l [Hk|(? & Hk)]%lookup_app_Some.
      * apply (keep_file_at D D2); [lia|intros c; by apply (Hkeep k d l)|by apply (bt_file _ _ _ B k)].
      * apply list_lookup_singleton_Some in Hk as [_ [= <- <-]]. by apply new_file.
    + intros k d l [Hk|(? & Hk)]%lookup_app_Some.
      * destruct (bt_inode _ _ _ B _ _ _ Hk) as [Hd Hdok]. pose proof (built_range k _ B Hk).
        pose proof (lookup_lt_Some _ _ _ Hk). split; [|done]. unfold V2. rewrite (vinode_other D) by (done || lia). done.
      * apply list_lookup_singleton_Some in Hk as [Hk [= <- <-]]. split; [|done].
        replace (1 + Z.of_nat k) with i by lia. by apply (vinode_at D).
    + intros k j d l d' l' c [Hk|(? & Hk)]%lookup_app_Some [Hj|(? & Hj)]%lookup_app_Some Hne.
      * intros Hu%(Huses k d l c Hk) Hu'%(Huses j d' l' c Hj). by apply (bt_apart _ _ _ B k j d l d' l' c).
      * apply list_lookup_singleton_Some in Hj as [_ [= <- <-]]. intros _. apply new_uses.
      * apply list_lookup_singleton_Some in Hk as [_ [= <- <-]]. by intros Hu%new_uses.
      * apply list_lookup_singleton_Some in Hk as [Hk _]. apply list_lookup_singleton_Some in Hj as [Hj _]. lia.
    + intros j Hj. destruct (bt_unused _ _ _ B j) as (d & Hd & Hty); [lia|]. exists d. split; [|done].
      unfold V2. rewrite (vinode_other D) by (done || lia). done.
    + intros c Hc. unfold V2. rewrite vinode_block by (done || lia). by apply B.
Qed.
