(* ===== verification/Built.v ===== *)
(** [main] of mkfs: the file system that it makes is the one the kernel mounts,
    with the files given to it and their bytes. *)
From S2P Require Import Prelude CString Bytes Locks Kalloc Vm Bio Log Kernel Console Fs Txn Blocks Files Writes Mkfs Image.

(** ** The empty image *)

Lemma wsect_zeroes : wp (for_all (seqZ 0 FSSIZE) (fun i => wsect i zeroes)) (set_freeblock nmeta mkfs_start)
  (fun _ s => freeinode s = 1 /\ freeblock s = nmeta /\ forall b, 0 <= b < FSSIZE -> img s !! b = Some zero_data).
Proof.
  apply (wp_for_seq (fun n s => freeinode s = 1 /\ freeblock s = nmeta /\
    forall b, 0 <= b < n -> img s !! b = Some zero_data)); [|done|].
  - split_and!; try done. intros b Hb. lia.
  - intros k s Hk (H1 & H2 & H3). apply wp_modify. cbn [img freeinode freeblock set_img]. split_and!; try done.
    rewrite sector_id by done. intros b Hb. destruct (decide (b = k)) as [->|Hne]; [by rewrite lookup_insert_eq|].
    rewrite lookup_insert_ne by done. apply H3. lia.
Qed.

(** The blocks when the first inode is allocated. *)
Definition first_blocks (b : Z) : option block :=
  if decide (b = BBLOCK 0 mkfs_sb) then Some (marks nmeta)
  else if decide (0 <= b < LOGICAL_DISK_SIZE) then Some (meta_block b) else None.

Lemma length_meta b : length (meta_block b) = Z.to_nat BSIZE.
Proof. unfold meta_block. by case_decide. Qed.

Lemma first_other b : 0 <= b < LOGICAL_DISK_SIZE -> b <> BBLOCK 0 mkfs_sb -> first_blocks b = Some (meta_block b).
Proof. intros Hb Hne. unfold first_blocks. by rewrite decide_False, decide_True. Qed.

Lemma first_fs : fs_ok mkfs_sb first_blocks (marks nmeta).
Proof.
  constructor.
  - by constructor.
  - intros b Hb. rewrite marks_bit by (rewrite ?nmeta_eq; unfold BPB; rewrite ?BSIZE_eq; lia).
    intros Hm%Z.ltb_ge. rewrite nmeta_eq in Hm. change (sb_size mkfs_sb) with LOGICAL_DISK_SIZE in Hb.
    rewrite BMAP_eq. split_and!; [lia..|]. rewrite first_other; [done|done|]. rewrite BMAP_eq. lia.
Qed.

Lemma zero_inode i : d_type (get_dinode zero_data (dinode_off i)) = 0.
Proof.
  pose proof (dinode_off_range i) as Ho. unfold dinode_size in Ho. cbn [get_dinode d_type]. unfold get16, get_le.
  assert (E : take 2 (drop (dinode_off i) zero_data) = replicate 2 0).
  { unfold zero_data. rewrite drop_replicate, take_replicate. f_equal. lia. }
  by rewrite E.
Qed.

Lemma first_built s : freeinode s = 1 -> freeblock s = nmeta ->
  (forall b, 0 <= b < FSSIZE -> img s !! b = Some (meta_block b)) -> built s first_blocks [].
Proof.
  intros Hn Hf Hi.
  assert (Hz : forall b, 0 <= b -> b <> 1 -> meta_block b = zero_data) by (intros b _ Hb; unfold meta_block; by case_decide).
  assert (HF : FSSIZE = 4096) by done. pose proof LOGICAL_eq as HL. constructor; try done.
  - constructor; try done.
    + intros b Hb Hne. rewrite first_other by done. symmetry. apply Hi. lia.
    + rewrite Hf. apply first_fs.
    + by rewrite Hf.
    + rewrite Hf, nmeta_eq. intros b Hb. rewrite first_other, Hz by (rewrite ?BMAP_eq; lia). done.
    + intros b Hb. unfold first_blocks. case_decide; [by exists (marks nmeta); rewrite length_marks|].
      rewrite decide_True by done. exists (meta_block b). by rewrite length_meta.
    + intros b Hb. rewrite Hi, Hz by lia. done.
  - by rewrite Hn.
  - intros i Hi'. rewrite Hn in Hi'. pose proof (IBLOCK_eq i ltac:(lia)) as [_ Hb]. unfold inode_at.
    rewrite first_other, Hz by (rewrite ?BMAP_eq; lia). eexists. split; [done|]. apply zero_inode.
  - intros c Hc. apply first_other; rewrite ?BMAP_eq; lia.
Qed.

(** ** The files *)

Definition arg_name (a : list Z * option (list (list Z))) : list Z :=
  l_strncpy (Z.to_nat DIRSIZ) (drop_underscore (shortname a.1)).
Definition arg_data (a : list Z * option (list (list Z))) : list Z := concat (default [] a.2).

(** The name has no slash, the file can be opened, and it is not too large. *)
Definition arg_ok (a : list Z * option (list (list Z))) : Prop :=
  has_slash (shortname a.1) = false /\ is_Some a.2 /\ Z.of_nat (length (arg_data a)) <= MAXFILE * BSIZE.

(** The entries of the root directory. *)
Fixpoint entries (inum : Z) (args : list (list Z * option (list (list Z)))) : list dirent :=
  match args with
  | [] => []
  | a :: r => Dirent inum (arg_name a) :: entries (inum + 1) r
  end.
Definition root_entries (args : list (list Z * option (list (list Z)))) : list dirent :=
  Dirent ROOTINO (entry_name (str ".")) :: Dirent ROOTINO (entry_name (str "..")) :: entries 2 args.
Definition root_data (args : list (list Z * option (list (list Z)))) : list Z :=
  concat (put_dirent <$> root_entries args).

(** The blocks of the files and of the root directory. *)
Definition args_blocks (args : list (list Z * option (list (list Z)))) : Z :=
  foldr (fun a n => file_blocks (Z.of_nat (length (arg_data a))) + n) 0 args.
Definition root_blocks (args : list (list Z * option (list (list Z)))) : Z :=
  file_blocks (sizeof_dirent * (2 + Z.of_nat (length args))).

Definition args_fit (args : list (list Z * option (list (list Z)))) : Prop :=
  1 + Z.of_nat (length args) < NINODES /\ nmeta + root_blocks args + args_blocks args <= LOGICAL_DISK_SIZE.

Definition is_type (type : Z) (d : dinode) : Prop :=
  (d_type d, d_major d, d_minor d, d_nlink d) = (type, 0, 3, 1).

Lemma length_l_strncpy n l : length (l_strncpy n l) = n.
Proof.
  revert l. induction n as [|n IH]; intros l; [done|]. cbn [l_strncpy length]. f_equal.
  case_match; [apply IH|apply length_replicate].
Qed.

Lemma length_put_dirent i n : length n = Z.to_nat DIRSIZ -> length (put_dirent (Dirent i n)) = 16%nat.
Proof. intros Hn. unfold put_dirent. rewrite length_app. cbn [de_inum de_name]. by rewrite length_le_bytes, Hn. Qed.

Lemma length_entries k args : length (entries k args) = length args.
Proof. revert k. induction args as [|a args IH]; intros k; [done|]. cbn [entries length]. by rewrite IH. Qed.

Lemma entries_snoc k args a :
  entries k (args ++ [a]) = entries k args ++ [Dirent (k + Z.of_nat (length args)) (arg_name a)].
Proof.
  revert k. induction args as [|b args IH]; intros k; cbn [entries app length].
  - by rewrite Z.add_0_r.
  - rewrite IH. by replace (k + Z.of_nat (S (length args))) with (k + 1 + Z.of_nat (length args)) by lia.
Qed.

Lemma entries_lookup k args j a : args !! j = Some a ->
  entries k args !! j = Some (Dirent (k + Z.of_nat j) (arg_name a)).
Proof.
  revert k j. induction args as [|b args IH]; intros k [|j]; cbn [entries]; try done.
  - intros [= ->]. by rewrite Z.add_0_r.
  - intros Hj. replace (k + Z.of_nat (S j)) with (k + 1 + Z.of_nat j) by lia. by apply IH.
Qed.

(** The names of the entries have their full length. *)
Definition entry_ok (e : dirent) : Prop := length (de_name e) = Z.to_nat DIRSIZ.

Lemma root_entries_ok args : Forall entry_ok (root_entries args).
Proof.
  constructor; [done|constructor; [done|]]. generalize 2. induction args as [|a args IH]; intros k; constructor; [|apply IH].
  apply length_l_strncpy.
Qed.

Lemma length_put_entry e : entry_ok e -> length (put_dirent e) = 16%nat.
Proof. destruct e as [i n]. by apply length_put_dirent. Qed.

Lemma length_entry_data es : Forall entry_ok es -> length (concat (put_dirent <$> es)) = (16 * length es)%nat.
Proof.
  induction 1 as [|e es He _ IH]; [done|]. cbn [fmap list_fmap concat length].
  rewrite length_app, length_put_entry, IH by done. lia.
Qed.

Lemma entry_byte es k e i : Forall entry_ok es -> es !! k = Some e -> 0 <= i < 16 ->
  byte_at (concat (put_dirent <$> es)) (16 * Z.of_nat k + i) = byte_at (put_dirent e) i.
Proof.
  intros Hes. revert k. induction Hes as [|e' es He _ IH]; intros [|k] Hk Hi; try done;
    cbn [fmap list_fmap concat]; pose proof (length_put_entry _ He) as Hl.
  - injection Hk as ->. by rewrite byte_at_app_l by lia.
  - rewrite byte_at_app_r by lia. rewrite <- (IH k Hk Hi). f_equal. lia.
Qed.

Lemma get_put_dirent e : entry_ok e -> 0 <= de_inum e < 2 ^ 16 -> get_dirent (put_dirent e) = e.
Proof.
  unfold entry_ok. intros Hn Hi. destruct e as [i n]. cbn [de_inum de_name] in *. unfold get_dirent, put_dirent. cbn [de_inum de_name].
  change (Z.to_nat DIRSIZ) with 14%nat in Hn. f_equal.
  - change (get16 (le_bytes 2 i ++ n) 0) with (le_val (le_bytes 2 i)). rewrite le_val_le_bytes. by apply Z.mod_small.
  - change (drop 2 (le_bytes 2 i ++ n)) with n. apply take_ge. lia.
Qed.

Lemma length_root args : Z.of_nat (length (root_data args)) = sizeof_dirent * (2 + Z.of_nat (length args)).
Proof.
  unfold root_data. rewrite length_entry_data by apply root_entries_ok.
  unfold root_entries. cbn [length]. rewrite length_entries. change sizeof_dirent with 16. lia.
Qed.

Lemma root_snoc args a :
  root_data (args ++ [a]) = root_data args ++ put_dirent (Dirent (2 + Z.of_nat (length args)) (arg_name a)).
Proof.
  unfold root_data, root_entries. rewrite entries_snoc, !app_comm_cons, fmap_app, concat_app. cbn [fmap list_fmap concat].
  by rewrite app_nil_r.
Qed.

Lemma args_blocks_app a b : args_blocks (a ++ b) = args_blocks a + args_blocks b.
Proof.
  induction a as [|x a IH]; [done|]. unfold args_blocks in *. cbn [app foldr]. lia.
Qed.

Lemma file_blocks_nonneg n : 0 <= n -> 0 <= file_blocks n.
Proof. intros Hn. by apply (file_blocks_mono 0 n). Qed.

Lemma args_blocks_nonneg a : 0 <= args_blocks a.
Proof.
  induction a as [|x a IH]; [done|]. unfold args_blocks in *. cbn [foldr].
  pose proof (file_blocks_nonneg (Z.of_nat (length (arg_data x))) ltac:(lia)). lia.
Qed.

Lemma args_fit_app a b : args_fit (a ++ b) -> args_fit a.
Proof.
  unfold args_fit, root_blocks. rewrite args_blocks_app, length_app. pose proof (args_blocks_nonneg b) as Hb. intros [H1 H2].
  split; [lia|]. change sizeof_dirent with 16 in *.
  pose proof (file_blocks_mono (16 * (2 + Z.of_nat (length a))) (16 * (2 + Z.of_nat (length a + length b))) ltac:(lia)). lia.
Qed.

(** The image after the files [args] were added. *)
Record added (args : list (list Z * option (list (list Z)))) (s : mkfs) (V : Z -> option block) (rd : dinode)
    (fs : list (dinode * list Z)) : Prop := {
  ad_built : built s V ((rd, root_data args) :: fs);
  ad_root : is_type T_DIR rd;
  ad_files : Forall2 (fun a y => is_type T_FILE y.1 /\ y.2 = arg_data a) args fs
}.

Lemma added_total args s V rd fs : added args s V rd fs -> freeblock s = nmeta + root_blocks args + args_blocks args.
Proof.
  intros [B _ F]. rewrite (bt_used _ _ _ B), total_cons. cbn [snd]. rewrite length_root. unfold root_blocks.
  assert (E : total_blocks fs = args_blocks args); [|lia]. clear B.
  induction F as [|a y args fs [_ Hy] _ IH]; [done|]. rewrite total_cons, IH, Hy. done.
Qed.

Lemma iappend_chunks s V ys k d l chunks : built s V ys -> ys !! k = Some (d, l) ->
  room_for s (Z.of_nat (length l)) (Z.of_nat (length (concat chunks))) ->
  exists s' V' d', for_all chunks (fun buf => iappend (1 + Z.of_nat k) buf (Z.of_nat (length buf))) s = Ret tt s' /\
    built s' V' (<[k := (d', l ++ concat chunks)]> ys) /\
    (d_type d', d_major d', d_minor d', d_nlink d') = (d_type d, d_major d, d_minor d, d_nlink d).
Proof.
  revert s V ys d l. induction chunks as [|c cs IH]; intros s V ys d l B Hk Hroom; cbn [for_all concat] in *.
  - exists s, V, d. split; [done|]. split; [|done]. by rewrite app_nil_r, list_insert_id.
  - pose proof (lookup_lt_Some _ _ _ Hk) as Hlt. unfold room_for in *. rewrite length_app, Nat2Z.inj_add in Hroom.
    pose proof (file_blocks_mono (Z.of_nat (length l) + Z.of_nat (length c))
      (Z.of_nat (length l) + (Z.of_nat (length c) + Z.of_nat (length (concat cs)))) ltac:(lia)) as Hm.
    destruct (iappend_built s V ys k d l c B Hk) as (s1 & V1 & d1 & E1 & B1 & Hf & _ & Ht1); [split; lia|].
    rewrite length_app, Nat2Z.inj_add in Hf.
    destruct (IH s1 V1 _ d1 (l ++ c) B1) as (s2 & V2 & d2 & E2 & B2 & Ht2).
    { by apply list_lookup_insert_eq. }
    { rewrite length_app, Nat2Z.inj_add, <- Z.add_assoc. lia. }
    exists s2, V2, d2. rewrite (bind_eq _ _ _ _ _ E1). split; [done|].
    rewrite list_insert_insert_eq, <- app_assoc in B2. split; [done|congruence].
Qed.

Lemma add_file_added args a s V rd fs : added args s V rd fs -> arg_ok a -> args_fit (args ++ [a]) ->
  exists s' V' rd' fs', add_file ROOTINO a.1 a.2 s = Ret tt s' /\ added (args ++ [a]) s' V' rd' fs'.
Proof.
  intros Ad (Hs & [chunks Hc] & Hsz) [Hn Hfit]. pose proof (added_total _ _ _ _ _ Ad) as Htot. destruct Ad as [B Hrt HF].
  pose proof (list.Forall2_length _ _ _ HF) as Hlen. rewrite length_app in Hn. cbn [length] in Hn.
  rewrite args_blocks_app in Hfit. unfold root_blocks in *. rewrite length_app in Hfit. cbn [length] in Hfit.
  assert (Hab : args_blocks [a] = file_blocks (Z.of_nat (length (arg_data a)))) by (unfold args_blocks; cbn [foldr]; lia).
  unfold arg_data in Hab, Hsz. rewrite Hc in Hab, Hsz. cbn [default] in Hab, Hsz. unfold id in Hab, Hsz.
  rewrite Hab in Hfit. change sizeof_dirent with 16 in *. rewrite Nat2Z.inj_add in Hfit.
  pose proof (file_blocks_nonneg (Z.of_nat (length (concat chunks))) ltac:(lia)) as Hnn.
  pose proof (bt_next _ _ _ B) as Hnx. cbn [length] in Hnx.
  destruct (ialloc_built s V _ T_FILE B) as (s1 & V1 & E1 & B1 & Hf1); [unfold NINODES in *; lia|by right|].
  cbn [length] in E1. set (inum := 1 + Z.of_nat (S (length fs))) in *.
  assert (Hi : xshort inum = 2 + Z.of_nat (length args)) by (rewrite xshort_id; unfold NINODES in *; lia).
  set (e := put_dirent (Dirent (xshort inum) (arg_name a))).
  assert (He : length e = 16%nat) by apply length_put_dirent, length_l_strncpy.
  destruct (iappend_built s1 V1 _ 0%nat rd (root_data args) e B1 eq_refl) as (s2 & V2 & rd2 & E2 & B2 & Hf2 & _ & Ht2).
  { unfold room_for. rewrite length_root, He, Hf1. change sizeof_dirent with 16.
    replace (16 * (2 + Z.of_nat (length args)) + Z.of_nat 16) with (16 * (2 + (Z.of_nat (length args) + Z.of_nat 1))) by lia.
    rewrite MAXFILE_eq, BSIZE_eq. unfold NINODES in Hn. lia. }
  rewrite length_app, He, Nat2Z.inj_add, length_root in Hf2. change sizeof_dirent with 16 in Hf2.
  replace (16 * (2 + Z.of_nat (length args)) + Z.of_nat 16) with (16 * (2 + (Z.of_nat (length args) + Z.of_nat 1))) in Hf2 by lia.
  rewrite <- app_comm_cons in B2. change (<[0%nat := ?y]> (?z :: ?r)) with (y :: r) in B2.
  assert (Hk : ((rd2, root_data args ++ e) :: fs ++ [(new_dinode T_FILE, [])]) !! S (length fs) = Some (new_dinode T_FILE, [])).
  { change ((fs ++ [(new_dinode T_FILE, [])]) !! length fs = Some (new_dinode T_FILE, [])).
    by rewrite lookup_app_r, Nat.sub_diag by lia. }
  destruct (iappend_chunks s2 V2 _ (S (length fs)) _ _ chunks B2 Hk) as (s3 & V3 & d3 & E3 & B3 & Ht3).
  { unfold room_for. change (Z.of_nat (length (@nil Z))) with 0. rewrite !Z.add_0_l. change (file_blocks 0) with 0. lia. }
  exists s3, V3, rd2, (fs ++ [(d3, concat chunks)]). split.
  - unfold add_file. rewrite Hs, Hc. cbv zeta. fold (arg_name a). rewrite (bind_eq _ _ _ _ _ E1). cbv beta.
    rewrite (bind_eq _ _ s1 tt s2); [done|]. replace sizeof_dirent with (Z.of_nat (length e)) by (by rewrite He). exact E2.
  - constructor.
    + rewrite root_snoc, <- Hi. fold e. cbn [app] in B3.
      change (<[S (length fs) := ?y]> (?z :: ?r)) with (z :: <[length fs := y]> r) in B3.
      rewrite insert_app_r_alt, Nat.sub_diag in B3 by lia. exact B3.
    + by unfold is_type in *; rewrite Ht2.
    + apply Forall2_app; [done|]. constructor; [|done]. cbn [fst snd]. split; [unfold is_type; by rewrite Ht3|].
      unfold arg_data. by rewrite Hc.
Qed.

(** ** The whole program *)

(** The root directory before a file is added. *)
Lemma dots_added s V : built s V [] -> freeblock s = nmeta -> exists s' V' rd,
  (let! rootino := ialloc T_DIR in
   if negb (rootino =? ROOTINO) then panic "assert" else
   iappend rootino (put_dirent (Dirent (xshort rootino) (entry_name (str ".")))) sizeof_dirent ;;;
   iappend rootino (put_dirent (Dirent (xshort rootino) (entry_name (str "..")))) sizeof_dirent) s = Ret tt s' /\
  added [] s' V' rd [].
Proof.
  intros B Hf. pose proof (bt_next _ _ _ B) as Hn. cbn [length] in Hn.
  destruct (ialloc_built s V [] T_DIR B) as (s1 & V1 & E1 & B1 & Hf1); [rewrite Hn; done|by left|].
  set (e1 := put_dirent (Dirent (xshort ROOTINO) (entry_name (str ".")))).
  set (e2 := put_dirent (Dirent (xshort ROOTINO) (entry_name (str "..")))).
  destruct (iappend_built s1 V1 _ 0%nat (new_dinode T_DIR) [] e1 B1 eq_refl) as (s2 & V2 & d2 & E2 & B2 & Hf2 & _ & Ht2).
  { rewrite <- Hf1 in Hf. unfold room_for. rewrite Hf. split; vm_compute; discriminate. }
  destruct (iappend_built s2 V2 _ 0%nat d2 e1 e2 B2 eq_refl) as (s3 & V3 & d3 & E3 & B3 & Hf3 & _ & Ht3).
  { unfold room_for. rewrite Hf2, Hf1, Hf. split; vm_compute; discriminate. }
  exists s3, V3, d3. split.
  - rewrite (bind_eq _ _ _ _ _ E1). change (1 + Z.of_nat (length (@nil (dinode * list Z)))) with ROOTINO.
    change (negb (ROOTINO =? ROOTINO)) with false. cbv iota. rewrite (bind_eq _ _ s1 tt s2); [exact E3|exact E2].
  - constructor; [exact B3|unfold is_type; by rewrite Ht3, Ht2|constructor].
Qed.

Lemma args_added args s V rd : added [] s V rd [] -> Forall arg_ok args -> args_fit args ->
  exists s' V' rd' fs, for_all args (fun '(arg, file) => add_file ROOTINO arg file) s = Ret tt s' /\
    added args s' V' rd' fs.
Proof.
  intros Ad Hok Hfit. enough (Hw : wp (for_all args (fun '(arg, file) => add_file ROOTINO arg file)) s
    (fun _ s' => exists V' rd' fs, added args s' V' rd' fs)).
  { apply wp_inv in Hw as ([] & s' & E & V' & rd' & fs & Ad'). by exists s', V', rd', fs. }
  apply (wp_for_all (fun d _ s' => exists V' rd' fs, added d s' V' rd' fs)); [by exists V, rd, []|].
  intros d [arg file] r s1 E (V1 & rd1 & fs1 & Ad1). subst args. apply Forall_app in Hok as [_ [Ha _]%list.Forall_cons].
  change ((arg, file) :: r) with ([(arg, file)] ++ r) in Hfit. rewrite app_assoc in Hfit. apply args_fit_app in Hfit.
  destruct (add_file_added d (arg, file) s1 V1 rd1 fs1 Ad1 Ha Hfit) as (s2 & V2 & rd2 & fs2 & E2 & Ad2).
  apply (wp_eq _ _ _ _ _ E2). by exists V2, rd2, fs2.
Qed.

(** The image [m] holds the files [args]; [rd] is the inode of the root
    directory and [fs] are the inodes and the contents of the files. *)
Record image (m : gmap Z block) (args : list (list Z * option (list (list Z)))) (rd : dinode)
    (fs : list (dinode * list Z)) : Prop := {
  im_meta : forall c, 0 <= c < 32 -> m !! c = Some (meta_block c);
  im_fs : fs_ok mkfs_sb (fun b => m !! b) (marks (nmeta + root_blocks args + args_blocks args));
  im_root : inode_at mkfs_sb (fun b => m !! b) ROOTINO = Some rd /\ dinode_ok rd /\ is_type T_DIR rd /\
    d_size rd = (Z.of_nat (length (root_data args)) / BSIZE + 1) * BSIZE /\
    file_at (fun b => m !! b) (marks (nmeta + root_blocks args + args_blocks args))
      (kernel_inode (set_d_size (Z.of_nat (length (root_data args))) rd)) (root_data args);
  im_files : Forall2 (fun a y => is_type T_FILE y.1 /\ y.2 = arg_data a) args fs;
  im_file : forall k d l, fs !! k = Some (d, l) ->
    inode_at mkfs_sb (fun b => m !! b) (2 + Z.of_nat k) = Some d /\ dinode_ok d /\
    file_at (fun b => m !! b) (marks (nmeta + root_blocks args + args_blocks args)) (kernel_inode d) l;
  im_apart : forall i j d l d' l' c, ((rd, root_data args) :: fs) !! i = Some (d, l) ->
    ((rd, root_data args) :: fs) !! j = Some (d', l') -> i <> j ->
    file_uses (fun b => m !! b) (kernel_inode d) c -> ~ file_uses (fun b => m !! b) (kernel_inode d') c;
  im_unused : forall i, 2 + Z.of_nat (length args) <= i < NINODES ->
    exists d, inode_at mkfs_sb (fun b => m !! b) i = Some d /\ d_type d = 0;
  im_mirror : forall b, LOGICAL_DISK_SIZE <= b < FSSIZE -> m !! b = Some zero_data
}.

(** The size of the root directory, and the bitmap. *)
Definition rounded (n : Z) : Z := (n / BSIZE + 1) * BSIZE.

Definition finish : MM unit :=
  let! din := rinode ROOTINO in
  let off := xint (d_size din) in
  let off := u32 ((off / BSIZE + 1) * BSIZE) in
  winode ROOTINO (set_d_size (xint off) din) ;;;
  let! used := gets freeblock in
  balloc (s32 used).

Section finish.
Context {args : list (list Z * option (list (list Z)))} {s : mkfs} {V : Z -> option block} {rd : dinode}
  {fs : list (dinode * list Z)}.
Hypotheses (Ad : added args s V rd fs) (Hn : 1 + Z.of_nat (length args) < NINODES).
Notation size := (Z.of_nat (length (root_data args))).
Notation rd' := (set_d_size (rounded size) rd).

Let B := ad_built _ _ _ _ _ Ad.
Let D := bt_disk _ _ _ B.

Lemma finish_size : d_size rd = size /\ 0 <= rounded size < 8192.
Proof.
  split; [exact (fa_size _ _ _ _ (bt_file _ _ _ B 0%nat _ _ eq_refl))|]. unfold rounded. rewrite length_root, BSIZE_eq.
  change sizeof_dirent with 16. unfold NINODES in Hn. zlia.
Qed.

Lemma finish_inode : inode_at mkfs_sb V ROOTINO = Some rd /\ dinode_ok rd.
Proof. exact (bt_inode _ _ _ B 0%nat _ _ eq_refl). Qed.

Lemma finish_ok : dinode_ok rd'.
Proof.
  destruct finish_inode as [_ [H1 H2 H3 H4 _ H6 H7]]. pose proof finish_size as [_ Hr]. constructor; try done.
  cbn [d_size set_d_size]. lia.
Qed.

(** The sectors are the blocks that the kernel sees. *)
Lemma finish_eq : exists s', finish s = Ret tt s' /\
  (forall b, 0 <= b < LOGICAL_DISK_SIZE -> img s' !! b = vinode V ROOTINO rd' b) /\
  (forall b, LOGICAL_DISK_SIZE <= b < FSSIZE -> img s' !! b = Some zero_data) /\
  fs_ok mkfs_sb (vinode V ROOTINO rd') (marks (freeblock s)).
Proof.
  pose proof finish_size as [Hs Hr]. destruct finish_inode as [Hd Hok].
  assert (Hi : 0 <= ROOTINO < NINODES) by done.
  destruct (winode_eq (d := rd') D Hi finish_ok) as (s1 & E1 & D1 & Hf & _).
  pose proof (dk_range _ _ D) as Hrg. rewrite nmeta_eq, LOGICAL_eq in Hrg.
  exists (set_img (<[BBLOCK 0 mkfs_sb := marks (freeblock s)]> (img s1)) s1). split_and!.
  - unfold finish. rewrite (bind_eq _ _ _ _ _ (rinode_eq _ _ _ _ D Hi Hd)). cbv zeta.
    rewrite (xint_id (d_size rd)), Hs by apply Hok. fold (rounded size). rewrite u32_small, xint_id by lia.
    rewrite (bind_eq _ _ _ _ _ E1). unfold bind at 1, gets. rewrite Hf.
    rewrite s32_small by (unfold is_int, INT_MIN, INT_MAX; lia). unfold balloc. rewrite BSIZE_eq, (proj2 (Z.leb_gt _ _)) by lia. done.
  - intros b Hb. cbn [img set_img]. destruct (decide (b = BBLOCK 0 mkfs_sb)) as [->|Hne].
    + rewrite lookup_insert_eq. symmetry. rewrite <- Hf. apply (bi_data _ _ _ (fk_bitmap _ _ _ (dk_fs _ _ D1))).
    + rewrite lookup_insert_ne by done. symmetry. by apply (dk_sees _ _ D1).
  - intros b Hb. cbn [img set_img]. rewrite lookup_insert_ne; [by apply (dk_mirror _ _ D1)|].
    rewrite BMAP_eq. rewrite LOGICAL_eq in Hb. lia.
  - rewrite <- Hf. apply (dk_fs _ _ D1).
Qed.

Section view.
Context {m : gmap Z block}.
Hypothesis (Hm : forall b, 0 <= b < LOGICAL_DISK_SIZE -> m !! b = vinode V ROOTINO rd' b).

Lemma view_block c : 0 <= c < LOGICAL_DISK_SIZE -> ~ 32 <= c < 45 -> m !! c = V c.
Proof. intros Hc Hne. rewrite Hm by done. by apply vinode_block. Qed.

Lemma view_data c : data_block mkfs_sb V (marks (freeblock s)) c ->
  data_block mkfs_sb (fun b => m !! b) (marks (freeblock s)) c.
Proof.
  intros [H1 H2 H3 H4]. constructor; try done. change (sb_size mkfs_sb) with LOGICAL_DISK_SIZE in H1. cbv beta.
  rewrite Hm by done. destruct (winode_eq (i := ROOTINO) (d := rd') D ltac:(done) finish_ok) as (s1 & _ & D1 & _).
  by apply (dk_blocks _ _ D1).
Qed.

Lemma view_file x l : file_at V (marks (freeblock s)) x l ->
  (forall c, file_uses V x c -> m !! c = V c) /\
  file_at (fun b => m !! b) (marks (freeblock s)) x l.
Proof.
  intros A. assert (Hc : forall c, file_uses V x c -> m !! c = V c).
  { intros c Hu. pose proof (fa_data _ _ _ _ A c Hu) as Hc. destruct (uses_used c D A Hu) as [Hc2 _].
    pose proof (dk_range _ _ D). rewrite nmeta_eq in Hc. apply view_block; lia. }
  split; [done|]. apply (frame_file_at (V := V) (d := marks (freeblock s))); [exact Hc|intros c _; apply view_data|done].
Qed.

Lemma view_inode i : 0 <= i < NINODES -> inode_at mkfs_sb (fun b => m !! b) i = inode_at mkfs_sb (vinode V ROOTINO rd') i.
Proof.
  intros Hi. unfold inode_at. rewrite Hm; [done|]. destruct (inode_block i Hi) as [Hb _].
  rewrite nmeta_eq in Hb. rewrite LOGICAL_eq. lia.
Qed.

Lemma view_uses k y l c : ((rd, root_data args) :: fs) !! k = Some (y, l) ->
  file_uses (fun b => m !! b) (kernel_inode y) c -> file_uses V (kernel_inode y) c.
Proof.
  intros Hk. refine (proj1 (frame_uses _ c)). intros c'. apply (view_file _ l). by apply (bt_file _ _ _ B k).
Qed.

Lemma finish_image : (forall b, LOGICAL_DISK_SIZE <= b < FSSIZE -> m !! b = Some zero_data) ->
  fs_ok mkfs_sb (vinode V ROOTINO rd') (marks (freeblock s)) -> image m args rd' fs.
Proof.
  intros Hz Hfs. pose proof (added_total _ _ _ _ _ Ad) as Htot. pose proof finish_size as [Hs Hr].
  destruct finish_inode as [Hd Hok]. assert (Hi : 0 <= ROOTINO < NINODES) by done.
  pose proof (list.Forall2_length _ _ _ (ad_files _ _ _ _ _ Ad)) as Hlen.
  assert (Hback : forall k y l, ((rd', root_data args) :: fs) !! k = Some (y, l) -> exists y0,
    ((rd, root_data args) :: fs) !! k = Some (y0, l) /\ forall V c, file_uses V (kernel_inode y) c <-> file_uses V (kernel_inode y0) c).
  { intros [|k] y l Hk; [|by exists y]. injection Hk as <- <-. exists rd. by split. }
  constructor; rewrite <- ?Htot.
  - intros c Hc. rewrite view_block by (rewrite ?LOGICAL_eq; lia). by apply B.
  - destruct Hfs as [[B1 B2 B3 B4] Hf]. constructor.
    + constructor; try done. rewrite Hm; [done|]. by rewrite BMAP_eq.
    + intros b Hb Hu. rewrite Hm by done. by apply Hf.
  - split_and!.
    + rewrite view_inode by done. by apply (vinode_at D Hi finish_ok).
    + apply finish_ok.
    + apply (ad_root _ _ _ _ _ Ad).
    + done.
    + replace (set_d_size size rd') with rd by (rewrite <- Hs; by destruct rd).
      apply view_file. by apply (bt_file _ _ _ B 0%nat).
  - apply (ad_files _ _ _ _ _ Ad).
  - intros k y l Hk. assert (Hk' : ((rd, root_data args) :: fs) !! S k = Some (y, l)) by done.
    destruct (bt_inode _ _ _ B _ _ _ Hk') as [Hy Hyok]. pose proof (built_range _ _ B Hk') as Hir.
    split_and!; [|done|].
    + replace (2 + Z.of_nat k) with (1 + Z.of_nat (S k)) by lia. rewrite view_inode by done.
      rewrite (vinode_other D); [done|done|exact finish_ok|done|]. unfold ROOTINO. lia.
    + apply view_file. by apply (bt_file _ _ _ B (S k)).
  - intros i j y l y' l' c Hi' Hj' Hne. apply Hback in Hi' as (y0 & Hi' & E). apply Hback in Hj' as (y0' & Hj' & E').
    rewrite E, E'. intros Hu%(view_uses i y0 l c Hi') Hu'%(view_uses j y0' l' c Hj').
    by apply (bt_apart _ _ _ B i j y0 l y0' l' c).
  - intros i Hi'. pose proof (bt_next _ _ _ B) as Hnx. cbn [length] in Hnx. rewrite view_inode by lia.
    rewrite (vinode_other D); [|done|exact finish_ok|lia|unfold ROOTINO; lia]. apply (bt_unused _ _ _ B). lia.
  - exact Hz.
Qed.
End view.
End finish.

Lemma main_eq args : Forall arg_ok args -> args_fit args ->
  exists s rd fs, main args mkfs_start = Ret tt s /\ image (img s) args rd fs.
Proof.
  intros Hok Hfit. pose proof (wp_inv _ _ _ wsect_zeroes) as ([] & s0 & E0 & Hn0 & Hf0 & Hz0).
  set (s1 := set_img (<[1 := splice zeroes 0 (superblock_bytes mkfs_sb)]> (img s0)) s0).
  assert (B1 : built s1 first_blocks []).
  { apply first_built; [done|done|]. intros b Hb. cbn [img s1 set_img]. unfold meta_block. case_decide as E.
    - subst. by rewrite lookup_insert_eq.
    - rewrite lookup_insert_ne by done. by apply Hz0. }
  destruct (dots_added s1 first_blocks B1 Hf0) as (s2 & V2 & rd2 & E2 & Ad2).
  destruct (args_added args s2 V2 rd2 Ad2 Hok Hfit) as (s3 & V3 & rd3 & fs & E3 & Ad3).
  destruct (finish_eq Ad3 (proj1 Hfit)) as (s4 & E4 & Hm & Hz & Hfs).
  exists s4. do 2 eexists. split; [|exact (finish_image Ad3 (proj1 Hfit) Hm Hz Hfs)].
  assert (E1 : wsect 1 (splice zeroes 0 (superblock_bytes mkfs_sb)) s0 = Ret tt s1) by done.
  unfold main. unfold bind at 1, modify. rewrite (bind_eq _ _ _ _ _ E0), (bind_eq _ _ _ _ _ E1).
  revert E2 E3 E4. fold finish. clear. intros E2 E3 E4. unfold bind in E2 |- *.
  destruct (ialloc T_DIR s1) as [ino s5| | |]; [|done..]. destruct (Z.eqb_spec ino ROOTINO) as [->|]; [|done]. cbn [negb] in *.
  destruct (iappend ROOTINO (put_dirent (Dirent (xshort ROOTINO) (entry_name (str ".")))) sizeof_dirent s5); [|done..].
  rewrite E2, E3. exact E4.
Qed.

(** ** The root directory as the kernel reads it *)

Lemma find_seqZ_first (f : Z -> bool) a n : 0 <= a < n -> f a = true -> (forall i, 0 <= i < a -> f i = false) ->
  List.find f (seqZ 0 n) = Some a.
Proof.
  intros Ha Hf Hl. destruct (List.find f (seqZ 0 n)) as [b|] eqn:E.
  - apply find_seqZ in E as (Hb & Hfb & Hbl). f_equal.
    destruct (Z.lt_trichotomy a b) as [Hlt|[?|Hlt]]; [|done|].
    + rewrite Hbl in Hf by lia. done.
    + rewrite Hl in Hfb by lia. done.
  - assert (Hin : In a (seqZ 0 n)) by (apply list_elem_of_In, elem_of_seqZ; lia).
    rewrite (List.find_none _ _ E a Hin) in Hf. done.
Qed.

Lemma namecmp_refl l : namecmp l l = 0.
Proof.
  unfold namecmp. generalize (Z.to_nat DIRSIZ). intros n. revert l.
  induction n as [|n IH]; intros l; [done|]. cbn [l_strncmp]. rewrite Z.eqb_refl. case_match; [apply IH|].
  rewrite Z.sub_diag. done.
Qed.

Section root.
Context {m : gmap Z block} {args : list (list Z * option (list (list Z)))} {rd : dinode} {fs : list (dinode * list Z)}.
Hypotheses (I : image m args rd fs) (Hn : 1 + Z.of_nat (length args) < NINODES).
Notation V := (fun b => m !! b).
Notation root := (kernel_inode rd).
Notation n := (2 + Z.of_nat (length args)).

Lemma root_size : d_size rd = (n / 64 + 1) * 1024.
Proof.
  destruct (im_root _ _ _ _ I) as (_ & _ & _ & -> & _). rewrite length_root, BSIZE_eq. change sizeof_dirent with 16. zlia.
Qed.

Lemma root_byte i : in_file i -> file_byte V root i = byte_at (root_data args) i.
Proof. destruct (im_root _ _ _ _ I) as (_ & _ & _ & _ & A). intros Hi. exact (fa_bytes _ _ _ _ A i Hi). Qed.

Lemma root_bytes k : 0 <= k -> 16 * k + 16 <= 8192 ->
  file_bytes V root (sizeof_dirent * k) sizeof_dirent = (fun i => byte_at (root_data args) (16 * k + i)) <$> seqZ 0 16.
Proof.
  intros Hk Hk2. change sizeof_dirent with 16. unfold file_bytes. apply list_eq. intros j. rewrite !list_lookup_fmap.
  destruct (decide (j < 16)%nat) as [Hj|Hj].
  - rewrite (proj2 (lookup_seqZ _ _ _ (16 * k + Z.of_nat j))), (proj2 (lookup_seqZ _ _ _ (0 + Z.of_nat j))) by lia.
    cbn [fmap option_fmap option_map]. rewrite root_byte; [done|]. unfold in_file. rewrite MAXFILE_eq, BSIZE_eq. lia.
  - by rewrite !lookup_ge_None_2 by (rewrite length_seqZ; lia).
Qed.

Lemma root_entry k e : root_entries args !! k = Some e -> dir_entry V root (Z.of_nat k) = e.
Proof.
  intros He. pose proof (lookup_lt_Some _ _ _ He) as Hk. unfold root_entries in Hk. cbn [length] in Hk. rewrite length_entries in Hk.
  pose proof (root_entries_ok args) as Hok. assert (Hek : entry_ok e) by by apply (list.Forall_lookup_1 _ _ _ _ Hok He).
  unfold dir_entry. rewrite root_bytes by (unfold NINODES in Hn; lia).
  assert (E : (fun i => byte_at (root_data args) (16 * Z.of_nat k + i)) <$> seqZ 0 16 = put_dirent e).
  { apply list_eq. intros j. rewrite list_lookup_fmap. destruct (decide (j < 16)%nat) as [Hj|Hj].
    - rewrite (proj2 (lookup_seqZ _ _ _ (0 + Z.of_nat j))) by lia. cbn [fmap option_fmap option_map].
      unfold root_data. rewrite (entry_byte _ k e) by (done || lia). unfold byte_at. rewrite Z.add_0_l, Nat2Z.id.
      destruct (lookup_lt_is_Some_2 (put_dirent e) j) as [v Hv]; [by rewrite length_put_entry|]. by rewrite Hv.
    - rewrite !lookup_ge_None_2; [done|by rewrite length_put_entry by done; lia|by rewrite length_seqZ; lia]. }
  rewrite E. apply get_put_dirent; [done|]. destruct k as [|[|k]]; [by injection He as <-..|].
  change (entries 2 args !! k = Some e) in He. pose proof (lookup_lt_Some _ _ _ He) as Hl. rewrite length_entries in Hl.
  destruct (lookup_lt_is_Some_2 args k Hl) as [a Ha]. rewrite (entries_lookup _ _ _ _ Ha) in He. injection He as <-.
  cbn [de_inum]. unfold NINODES in Hn. lia.
Qed.

(** The rest of the last block has no entry. *)
Lemma root_rest k : n <= k -> 16 * k + 16 <= 8192 -> de_inum (dir_entry V root k) = 0.
Proof.
  intros Hk Hk2. unfold dir_entry. rewrite root_bytes by lia.
  assert (E : (fun i => byte_at (root_data args) (16 * k + i)) <$> seqZ 0 16 = replicate 16 0).
  { apply list_eq. intros j. rewrite list_lookup_fmap. destruct (decide (j < 16)%nat) as [Hj|Hj].
    - rewrite (proj2 (lookup_seqZ _ _ _ (0 + Z.of_nat j))) by lia. cbn [fmap option_fmap option_map].
      rewrite byte_at_past, lookup_replicate_2 by (rewrite ?length_root; change sizeof_dirent with 16; lia). done.
    - rewrite !lookup_ge_None_2; [done|by rewrite length_replicate; lia|by rewrite length_seqZ; lia]. }
  by rewrite E.
Qed.

Lemma root_find name k e : root_entries args !! k = Some e -> dir_match name e = true ->
  (forall j e', (j < k)%nat -> root_entries args !! j = Some e' -> dir_match name e' = false) ->
  dir_find V root name = Some (Z.of_nat k).
Proof.
  intros He Hm Hfirst. pose proof (lookup_lt_Some _ _ _ He) as Hk. unfold root_entries in Hk. cbn [length] in Hk.
  rewrite length_entries in Hk. unfold dir_find. change (i_size root) with (d_size rd). rewrite root_size.
  apply find_seqZ_first; [| |intros j Hj].
  - change sizeof_dirent with 16. unfold NINODES in Hn. zlia.
  - by rewrite (root_entry k e).
  - assert (Hlt : (Z.to_nat j < length (root_entries args))%nat).
    { unfold root_entries. cbn [length]. rewrite length_entries. lia. }
    destruct (lookup_lt_is_Some_2 _ _ Hlt) as [e' He']. rewrite <- (Z2Nat.id j), (root_entry _ e') by (done || lia).
    eapply Hfirst; [|exact He']. lia.
Qed.

(** The last block is there unless the entries fill the others. *)
Lemma root_mapped : n mod 64 <> 0 -> file_ok mkfs_sb V (marks (nmeta + root_blocks args + args_blocks args)) root.
Proof.
  intros Hm. destruct (im_root _ _ _ _ I) as (_ & _ & _ & _ & A).
  replace root with (set_i_size (d_size rd) (kernel_inode (set_d_size (Z.of_nat (length (root_data args))) rd))) by done.
  apply file_ok_size; [apply A| |].
  - rewrite root_size, MAXFILE_eq, BSIZE_eq. unfold NINODES in Hn. zlia.
  - intros bn Hr Hs. apply (fo_mapped _ _ _ _ (fa_ok _ _ _ _ A)); [done|]. rewrite (fa_size _ _ _ _ A), length_root.
    rewrite root_size in Hs. rewrite BSIZE_eq in *. change sizeof_dirent with 16. zlia.
Qed.

Lemma root_hole : n mod 64 = 0 -> file_addr V root (d_size rd / BSIZE - 1) = None.
Proof.
  intros Hm. destruct (im_root _ _ _ _ I) as (_ & _ & _ & _ & A). apply eq_None_not_Some. intros Hs.
  apply (fa_only _ _ _ _ A) in Hs.
  - rewrite (fa_size _ _ _ _ A), length_root, root_size, BSIZE_eq in Hs. change sizeof_dirent with 16 in Hs. zlia.
  - unfold file_range. rewrite root_size, MAXFILE_eq, BSIZE_eq. unfold NINODES in Hn. zlia.
Qed.
End root.

(** ** The theorems *)

Lemma file_at_bytes V d x l : file_at V d x l -> file_bytes V x 0 (i_size x) = l.
Proof.
  intros A. pose proof (fo_size _ _ _ _ (fa_ok _ _ _ _ A)) as Hs. rewrite (fa_size _ _ _ _ A) in *.
  unfold file_bytes. apply list_eq. intros j. rewrite list_lookup_fmap. destruct (decide (j < length l)%nat) as [Hj|Hj].
  - rewrite (proj2 (lookup_seqZ _ _ _ (0 + Z.of_nat j))) by lia. cbn [fmap option_fmap option_map].
    rewrite (fa_bytes _ _ _ _ A) by (unfold in_file; lia). unfold byte_at. rewrite Z.add_0_l, Nat2Z.id.
    destruct (lookup_lt_is_Some_2 l j Hj) as [v Hv]. by rewrite Hv.
  - by rewrite !lookup_ge_None_2 by (rewrite ?length_seqZ; lia).
Qed.

Lemma image_file m args rd fs j a : image m args rd fs -> args !! j = Some a -> exists d,
  inode_at mkfs_sb (fun b => m !! b) (2 + Z.of_nat j) = Some d /\ is_type T_FILE d /\
  file_at (fun b => m !! b) (marks (nmeta + root_blocks args + args_blocks args)) (kernel_inode d) (arg_data a).
Proof.
  intros I Ha. destruct (Forall2_lookup_l _ _ _ _ _ (im_files _ _ _ _ I) Ha) as ([d l] & Hl & Ht & E). cbn [fst snd] in *.
  destruct (im_file _ _ _ _ I _ _ _ Hl) as (H1 & _ & H3). exists d. subst l. done.
Qed.

Definition two_files : list (list Z * option (list (list Z))) :=
  [(str "user/_cat", Some [[104; 105]; [10]]); (str "README", Some [replicate 1024 7; [8; 9]])].

Lemma two_files_ok : Forall arg_ok two_files /\ args_fit two_files.
Proof.
  split; [|split; vm_compute; done].
  constructor; [|constructor; [|constructor]]; (split; [reflexivity|split; [eexists; reflexivity|vm_compute; discriminate]]).
Qed.

(** C14: mkfs builds the file system.  When every name is without a slash after
    "user/" is dropped, every file can be opened and none is larger than
    [MAXFILE] blocks, there are fewer than [NINODES - 1] of them, and their
    blocks with those of the root directory fit on the disk, [main] returns.
    The first half of the image then holds a superblock that the kernel reads as
    [mkfs_sb] and an empty log; the bitmap has exactly the blocks up to the last one used;
    the root directory is inode 1 with the entries ".", ".." and one for each
    file; file [k] is a regular file at inode [k + 2], readable and writable,
    whose size and bytes are those of the host's file; every block of a file is
    allocated and belongs to that file only; the other inodes are free.  The
    second half is zero. *)
Theorem mkfs_correct args (Hok : Forall arg_ok args) (Hfit : args_fit args) :
  exists s rd fs, main args mkfs_start = Ret tt s /\ image (img s) args rd fs.
Proof. by apply main_eq. Qed.

Lemma mkfs_correct_witness : exists s rd fs, main two_files mkfs_start = Ret tt s /\ image (img s) two_files rd fs.
Proof. exact (mkfs_correct two_files (proj1 two_files_ok) (proj2 two_files_ok)). Defined.

(** C15: The kernel finds every file that was given to mkfs, with its bytes.  In
    the image that [main] makes, the root directory can be searched by
    [dirlookup], unless its entries fill its last block; a name that is the name of no earlier entry is found
    at the position of its argument, and its entry's inode is a file that can
    be read and whose bytes are what mkfs read from the host. *)
Theorem mkfs_lookup args j a (Hok : Forall arg_ok args) (Hfit : args_fit args)
    (Hm : (2 + Z.of_nat (length args)) mod 64 <> 0) (Ha : args !! j = Some a)
    (Hfirst : forall k e, (k < 2 + j)%nat -> root_entries args !! k = Some e -> dir_match (arg_name a) e = false) :
  exists s rd d, main args mkfs_start = Ret tt s /\ let V b := img s !! b in
    inode_at mkfs_sb V ROOTINO = Some rd /\ dir_ok ∅ ∅ V (kernel_inode rd) /\
    dir_find V (kernel_inode rd) (arg_name a) = Some (2 + Z.of_nat j) /\
    inode_at mkfs_sb V (de_inum (dir_entry V (kernel_inode rd) (2 + Z.of_nat j))) = Some d /\
    d_type d = T_FILE /\ file_mapped ∅ ∅ V (kernel_inode d) /\
    file_bytes V (kernel_inode d) 0 (d_size d) = arg_data a.
Proof.
  destruct (main_eq args Hok Hfit) as (s & rd & fs & E & I). exists s, rd.
  destruct (image_file _ _ _ _ _ _ I Ha) as (d & Hd & Ht & A). exists d. split; [done|]. cbv zeta.
  assert (He : root_entries args !! S (S j) = Some (Dirent (2 + Z.of_nat j) (arg_name a))).
  { change (entries 2 args !! j = Some (Dirent (2 + Z.of_nat j) (arg_name a))). by apply entries_lookup. }
  destruct Hfit as [Hn Hblocks]. pose proof (im_root _ _ _ _ I) as (Hr & _ & Hrt & _).
  replace (2 + Z.of_nat j) with (Z.of_nat (S (S j))) in * by lia. rewrite (root_entry I Hn _ _ He).
  split; [done|]. split; [|split; [|split; [exact Hd|split; [|split]]]].
  - split; [by injection Hrt|]. split.
    + change (i_size (kernel_inode rd)) with (d_size rd). rewrite (root_size I).
      change 1024 with (64 * sizeof_dirent). by rewrite Z.mul_assoc, Z.mod_mul.
    + eapply file_ok_mapped; [apply (im_fs _ _ _ _ I)|by apply (root_mapped I Hn)].
  - apply (root_find I Hn _ _ _ He); [|intros k e Hk; apply Hfirst; lia].
    unfold dir_match. cbn [de_inum de_name]. rewrite namecmp_refl, (proj2 (Z.eqb_neq _ 0)) by lia. done.
  - by injection Ht.
  - eapply file_ok_mapped; [apply (im_fs _ _ _ _ I)|apply A].
  - exact (file_at_bytes _ _ _ _ A).
Qed.

Lemma mkfs_lookup_witness : exists s rd d, main two_files mkfs_start = Ret tt s /\ let V b := img s !! b in
  dir_find V (kernel_inode rd) (arg_name (str "user/_cat", None)) = Some 2 /\
  file_bytes V (kernel_inode d) 0 (d_size d) = [104; 105; 10].
Proof.
  destruct (mkfs_lookup two_files 0%nat (str "user/_cat", Some [[104; 105]; [10]]) (proj1 two_files_ok) (proj2 two_files_ok))
    as (s & rd & d & E & _ & _ & Hf & _ & _ & _ & Hb).
  - discriminate.
  - reflexivity.
  - intros [|[|k]] e Hk He; [injection He as <-; reflexivity..|lia].
  - exists s, rd, d. split; [exact E|]. split; [exact Hf|exact Hb].
Defined.

(** When the entries fill their blocks, the directory ends with a block that is
    not there. *)
Theorem mkfs_root_hole args (Hok : Forall arg_ok args) (Hfit : args_fit args)
    (Hm : (2 + Z.of_nat (length args)) mod 64 = 0) :
  exists s rd, main args mkfs_start = Ret tt s /\ inode_at mkfs_sb (fun b => img s !! b) ROOTINO = Some rd /\
    file_addr (fun b => img s !! b) (kernel_inode rd) (d_size rd / BSIZE - 1) = None.
Proof.
  destruct (main_eq args Hok Hfit) as (s & rd & fs & E & I). exists s, rd. split; [done|].
  split; [apply (im_root _ _ _ _ I)|]. by apply (root_hole I (proj1 Hfit)).
Qed.

Lemma mkfs_super : superblock_of <$> Some (meta_block 1) = Some mkfs_sb.
Proof. vm_compute. reflexivity. Qed.

(** The mirror is blank after mkfs.  Read from the image that [main] makes,
    the superblock is [mkfs_sb]; with disk 0 failed the kernel's read of any
    block finds only zeros, so that even the superblock is not recognised. *)
Theorem mkfs_mirror_blank args (Hok : Forall arg_ok args) (Hfit : args_fit args) :
  exists s, main args mkfs_start = Ret tt s /\ forall k, disk k = img s ->
    (force_disk_fail_id k = -1 -> force_read_error_pbn k = -1 -> superblock_of <$> disk_read k 1 = Some mkfs_sb) /\
    (force_disk_fail_id k = 0 -> forall b, 0 <= b < LOGICAL_DISK_SIZE ->
       disk_read k b = Some zero_data /\ sb_magic (superblock_of zero_data) <> FSMAGIC).
Proof.
  destruct (main_eq args Hok Hfit) as (s & rd & fs & E & I). exists s. split; [done|]. intros k Hk.
  assert (E1 : img s !! 1 = Some (meta_block 1)) by (apply (im_meta _ _ _ _ I); lia).
  assert (Hr : read_block (-1) (-1) 1 = 1) by reflexivity. unfold disk_read. rewrite Hk. split.
  - intros -> ->. rewrite Hr, E1. exact mkfs_super.
  - intros -> b Hb. split; [|discriminate]. unfold read_block, use_mirror.
    rewrite (proj2 (Z.ltb_lt b LOGICAL_DISK_SIZE)) by lia. cbn [Z.eqb andb orb].
    rewrite LOGICAL_eq in Hb. apply (im_mirror _ _ _ _ I). rewrite DISK1_eq, LOGICAL_eq. change FSSIZE with 4096. lia.
Qed.

Lemma mkfs_mirror_blank_witness : exists s, main two_files mkfs_start = Ret tt s /\
  disk_read (BState (img s) ∅ false (-1) 0 0 []) 1 = Some zero_data.
Proof.
  destruct (mkfs_mirror_blank two_files (proj1 two_files_ok) (proj2 two_files_ok)) as (s & E & H).
  exists s. split; [exact E|]. refine (proj1 (proj2 (H (BState (img s) ∅ false (-1) 0 0 []) eq_refl) eq_refl 1 _)).
  split; [discriminate|reflexivity].
Defined.
