(* ===== verification/Paths.v ===== *)
(** Path names: [skipelem] of fs.c, the iterator of [namex], against the
    splitting of a path at its slashes. *)
From S2P Require Import Prelude CString Bytes Locks Kalloc Vm Bio Log Kernel Fs Txn Blocks Files.

(** The pieces between the slashes, and those that are not empty. *)
Fixpoint split_slash (path : list Z) : list (list Z) :=
  match path with
  | [] => [[]]
  | c :: path' =>
      if c =? SLASH then [] :: split_slash path'
      else match split_slash path' with
           | w :: ws => (c :: w) :: ws
           | [] => [[c]]
           end
  end.
Definition nonempty (w : list Z) : bool := match w with [] => false | _ => true end.
Definition components (path : list Z) : list (list Z) := List.filter nonempty (split_slash path).

Lemma split_slash_nonempty path : split_slash path <> [].
Proof.
  destruct path as [|c path]; simpl; [done|]. destruct (c =? SLASH); [done|].
  by destruct (split_slash path).
Qed.

Lemma components_skip path : components (skip_slashes path) = components path.
Proof.
  induction path as [|c path IH]; [done|]. simpl. unfold components at 2. simpl.
  destruct (c =? SLASH) eqn:E; [exact IH|]. unfold components. simpl. by rewrite E.
Qed.

Lemma skip_slashes_head path c path' : skip_slashes path = c :: path' -> c <> SLASH.
Proof.
  induction path as [|a path IH]; simpl; [done|]. destruct (Z.eqb_spec a SLASH); [done|].
  by intros [= -> _].
Qed.

Lemma length_skip_slashes path : (length (skip_slashes path) <= length path)%nat.
Proof. induction path as [|a path IH]; simpl; [lia|]. destruct (a =? SLASH); simpl; lia. Qed.

(** The first element of a path, and what follows it. *)
Lemma path_elem_split path s rest : path_elem path = (s, rest) ->
  path = s ++ rest /\ (forall c, c ∈ s -> c <> SLASH) /\
  match rest with [] => True | c :: _ => c = SLASH end.
Proof.
  revert s rest. induction path as [|c path IH]; intros s rest H; simpl in H.
  { injection H as <- <-. split; [done|]. split; [|done]. intros c Hc. by apply not_elem_of_nil in Hc. }
  destruct (Z.eqb_spec c SLASH) as [->|Hne].
  - injection H as <- <-. split; [done|]. split; [|done]. intros c Hc. by apply not_elem_of_nil in Hc.
  - destruct (path_elem path) as [s' r'] eqn:E. injection H as <- <-.
    destruct (IH s' r' eq_refl) as (-> & H1 & H2). split; [done|]. split; [|done].
    intros x [->|Hx]%elem_of_cons; auto.
Qed.

Lemma split_slash_app s rest : (forall c, c ∈ s -> c <> SLASH) ->
  split_slash (s ++ rest) =
    match split_slash rest with w :: ws => (s ++ w) :: ws | [] => [s] end.
Proof.
  induction s as [|c s IH]; intros Hs; simpl.
  { pose proof (split_slash_nonempty rest). by destruct (split_slash rest). }
  rewrite (proj2 (Z.eqb_neq c SLASH)) by (apply Hs; apply list_elem_of_here).
  rewrite IH by (intros x Hx; apply Hs; by apply list_elem_of_further).
  pose proof (split_slash_nonempty rest). by destruct (split_slash rest).
Qed.

Lemma components_elem s rest :
  s <> [] -> (forall c, c ∈ s -> c <> SLASH) -> match rest with [] => True | c :: _ => c = SLASH end ->
  components (s ++ rest) = s :: components rest.
Proof.
  intros Hne Hs Hr. unfold components. rewrite split_slash_app by done.
  destruct rest as [|c rest]; simpl.
  - rewrite app_nil_r. by destruct s.
  - subst c. cbn [Z.eqb]. rewrite Z.eqb_refl, app_nil_r. simpl. by destruct s.
Qed.

(** The contents of [name] after an element is copied there. *)
Lemma skipelem_name s name :
  length name = Z.to_nat DIRSIZ -> Forall (fun c => c <> 0) s ->
  let name' := if DIRSIZ <=? Z.of_nat (length s) then splice name 0 (take (Z.to_nat DIRSIZ) s)
               else splice name 0 (s ++ [0]) in
  length name' = Z.to_nat DIRSIZ /\ dir_name name' = dir_name s.
Proof.
  intros Hn Hs. change (Z.to_nat DIRSIZ) with 14%nat in *. cbv zeta.
  unfold dir_name. change (Z.to_nat DIRSIZ) with 14%nat.
  destruct (Z.leb_spec DIRSIZ (Z.of_nat (length s))) as [Hge|Hlt]; unfold DIRSIZ in *.
  - assert (Hl : length (take 14 s) = 14%nat) by (rewrite length_take; lia).
    split; [rewrite length_splice; lia|]. unfold splice. rewrite take_0, app_nil_l, Hl.
    rewrite (drop_ge name) by lia. rewrite app_nil_r.
    rewrite !c_str_nonzero by (done || by apply Forall_take).
    rewrite !take_app_le by lia. by rewrite take_take.
  - assert (Hl : length (s ++ [0]) = S (length s)) by (rewrite length_app; simpl; lia).
    split; [rewrite length_splice; lia|]. unfold splice. rewrite take_0, app_nil_l.
    rewrite <- !app_assoc, c_str_app by done. simpl. rewrite app_nil_r.
    by rewrite c_str_nonzero.
Qed.

Lemma skipelem_none path name : skipelem path name = None <-> components path = [].
Proof.
  rewrite <- components_skip. unfold skipelem.
  destruct (skip_slashes path) as [|c p] eqn:E; [done|].
  pose proof (skip_slashes_head _ _ _ E) as Hc.
  destruct (path_elem (c :: p)) as [s rest] eqn:Ep.
  destruct (path_elem_split _ _ _ Ep) as (Eq & Hs & Hr).
  assert (Hne : s <> []) by (intros ->; simpl in Eq; subst rest; done).
  rewrite Eq. by rewrite components_elem.
Qed.

Lemma skipelem_some path name path' name' :
  length name = Z.to_nat DIRSIZ -> Forall (fun c => c <> 0) path ->
  skipelem path name = Some (path', name') ->
  exists w, components path = w :: components path' /\ dir_name name' = dir_name w /\
    length name' = Z.to_nat DIRSIZ /\ Forall (fun c => c <> 0) path' /\
    (length path' < length path)%nat /\ (path' = [] <-> components path' = []).
Proof.
  intros Hn Hnz H. rewrite <- components_skip. unfold skipelem in H.
  pose proof (length_skip_slashes path) as Hl.
  assert (Hsk : Forall (fun c => c <> 0) (skip_slashes path)).
  { clear -Hnz. induction Hnz as [|c p Hc Hp IH]; simpl; [constructor|].
    destruct (c =? SLASH); [done|by constructor]. }
  destruct (skip_slashes path) as [|c p] eqn:E; [done|].
  pose proof (skip_slashes_head _ _ _ E) as Hc.
  destruct (path_elem (c :: p)) as [s rest] eqn:Ep.
  destruct (path_elem_split _ _ _ Ep) as (Eq & Hs & Hr). rewrite Eq in Hsk, Hl |- *.
  assert (Hne : s <> []) by (intros ->; simpl in Eq; subst rest; done).
  apply Forall_app in Hsk as [Hs0 Hr0].
  destruct (skipelem_name s name Hn Hs0) as [Hlen Hdn]. injection H as <- <-.
  exists s. rewrite components_elem, components_skip by done.
  split; [done|]. split; [exact Hdn|]. split; [exact Hlen|]. split; [|split].
  - clear -Hr0. induction Hr0 as [|a r Ha Hr IH]; simpl; [constructor|].
    destruct (a =? SLASH); [done|by constructor].
  - pose proof (length_skip_slashes rest). rewrite length_app in Hl.
    destruct s; [done|]. simpl in Hl. lia.
  - rewrite <- components_skip. destruct (skip_slashes rest) as [|a r] eqn:Er; [done|].
    split; [done|]. intros H0. exfalso. pose proof (skip_slashes_head _ _ _ Er) as Ha.
    destruct (path_elem (a :: r)) as [s2 r2] eqn:E2.
    destruct (path_elem_split _ _ _ E2) as (Eq2 & Hs2 & Hr2).
    assert (Hne2 : s2 <> []) by (intros ->; simpl in Eq2; subst r2; done).
    rewrite Eq2 in H0. clear Eq2 E2 Er. rewrite <- components_skip in H0.
    destruct s2 as [|b s2]; [done|]. assert (b <> SLASH) by (apply Hs2, list_elem_of_here).
    simpl in H0. rewrite (proj2 (Z.eqb_neq b SLASH)) in H0 by done.
    change (b :: s2 ++ r2) with ((b :: s2) ++ r2) in H0. by rewrite components_elem in H0.
Qed.

(** The names that the loop of [namex] gets from [skipelem]. *)
Fixpoint skip_names (fuel : nat) (path name : list Z) : list (list Z) :=
  match fuel with
  | O => []
  | S fuel' =>
      match skipelem path name with
      | None => []
      | Some (path', name') => name' :: skip_names fuel' path' name'
      end
  end.

(** Iterating [skipelem] over a path yields its components: the non-empty
    pieces between slashes, in order, each cut to [DIRSIZ] characters, whatever
    the number and place of the slashes.  The path shrinks at every step, so as
    many steps as it has characters are enough; and the rest is empty exactly
    after the last component, which is how [namex] recognises it. *)
Theorem skipelem_splits path name n
    (Hname : length name = Z.to_nat DIRSIZ) (Hpath : Forall (fun c => c <> 0) path)
    (Hn : (length path <= n)%nat) :
  dir_name <$> skip_names n path name = dir_name <$> components path /\
  forall path' name', skipelem path name = Some (path', name') ->
    (path' = [] <-> length (components path) = 1%nat).
Proof.
  split.
  - revert path name Hname Hpath Hn. induction n as [|n IH]; intros path name Hname Hpath Hn.
    { destruct path; [done|simpl in Hn; lia]. }
    cbn [skip_names]. destruct (skipelem path name) as [[path' name']|] eqn:E.
    + destruct (skipelem_some _ _ _ _ Hname Hpath E) as (w & -> & Hw & Hl & Hp & Hlt & _).
      rewrite !fmap_cons. f_equal; [exact Hw|]. apply IH; [done|done|lia].
    + apply skipelem_none in E. by rewrite E.
  - intros path' name' E.
    destruct (skipelem_some _ _ _ _ Hname Hpath E) as (w & -> & _ & _ & _ & _ & ->).
    simpl. split; [by intros ->|]. by destruct (components path').
Qed.

(** "//a/bb///c" *)
Lemma skipelem_splits_witness :
  dir_name <$> skip_names 10 [47; 47; 97; 47; 98; 98; 47; 47; 47; 99] no_name =
    [[97; 0]; [98; 98; 0]; [99; 0]].
Proof.
  assert (Hp : Forall (fun c => c <> 0) [47; 47; 97; 47; 98; 98; 47; 47; 47; 99])
    by (repeat constructor; discriminate).
  destruct (skipelem_splits [47; 47; 97; 47; 98; 98; 47; 47; 47; 99] no_name 10 eq_refl Hp
    (le_n _)) as [H _].
  rewrite H. reflexivity.
Defined.
