(* ===== verification/Wakeup.v ===== *)
(** Sleeping and waking up, proc.c: the process table, and what [wakeup] and the
    first part of [sleep] do to it when nothing runs between their statements.
    [Interleave] has the interleavings. *)
From S2P Require Import Prelude Bytes Locks Kalloc Vm Bio Log Kernel Fs File Proc Txn.

(** The table has its [NPROC] processes, and their locks are free. *)
Definition procs_ok (s : kstate) : Prop :=
  (forall i, is_Some (procs s !! i) <-> 0 <= i < NPROC) /\
  (forall i x, procs s !! i = Some x -> p_lock x = false).

Definition pset (p : Z) (x : proc) (s : kstate) : kstate := set_procs (<[p := x]> (procs s)) s.

Lemma pset_pset p x y s : pset p y (pset p x s) = pset p y s.
Proof. unfold pset, set_procs. cbn. by rewrite insert_insert_eq. Qed.

Lemma wp_proc_at s p x (Q : proc -> kstate -> Prop) :
  procs s !! p = Some x -> Q x s -> wp (proc_at p) s Q.
Proof. intros H HQ. apply wp_eq with x s; [|done]. unfold proc_at, bind, gets, of_option. by rewrite H. Qed.

Lemma wp_pupd s p x f (Q : unit -> kstate -> Prop) :
  procs s !! p = Some x -> Q tt (pset p (f x) s) -> wp (pupd p f) s Q.
Proof. intros H HQ. unfold pupd. apply wp_bind. eapply wp_proc_at; [done|]. by apply wp_modify. Qed.

Lemma proc_lk_get s p x : procs s !! p = Some x -> lget (proc_lk p) s = p_lock x.
Proof. intros H. cbn. by rewrite H. Qed.

Lemma proc_lk_set s p x b : procs s !! p = Some x -> lset (proc_lk p) b s = pset p (set_p_lock b x) s.
Proof.
  intros H. cbn. unfold pset. f_equal. apply map_eq. intros j. destruct (decide (j = p)) as [->|Hne].
  - by rewrite lookup_alter_eq, lookup_insert_eq, H.
  - by rewrite lookup_alter_ne, lookup_insert_ne.
Qed.

Lemma proc_acquire s p x : procs s !! p = Some x -> p_lock x = false ->
  spin_acquire (proc_lk p) s = Ret tt (pset p (set_p_lock true x) s).
Proof.
  intros H Hl. unfold spin_acquire, bind, gets, modify. rewrite (proc_lk_get s p x), Hl by done.
  by rewrite (proc_lk_set s p x).
Qed.

Lemma proc_release s p x : procs s !! p = Some x -> p_lock x = true ->
  spin_release (proc_lk p) s = Ret tt (pset p (set_p_lock false x) s).
Proof.
  intros H Hl. unfold spin_release, bind, gets, modify. rewrite (proc_lk_get s p x), Hl by done.
  by rewrite (proc_lk_set s p x).
Qed.

Lemma wp_proc_acquire s p x (Q : unit -> kstate -> Prop) :
  procs s !! p = Some x -> p_lock x = false -> Q tt (pset p (set_p_lock true x) s) ->
  wp (spin_acquire (proc_lk p)) s Q.
Proof. intros H Hl HQ. eapply wp_eq; [by apply proc_acquire|exact HQ]. Qed.

Lemma wp_proc_release s p x (Q : unit -> kstate -> Prop) :
  procs s !! p = Some x -> p_lock x = true -> Q tt (pset p (set_p_lock false x) s) ->
  wp (spin_release (proc_lk p)) s Q.
Proof. intros H Hl HQ. eapply wp_eq; [by apply proc_release|exact HQ]. Qed.

Lemma procs_pset p x s i : procs (pset p x s) !! i = if decide (i = p) then Some x else procs s !! i.
Proof. cbn. case_decide as E; [subst; apply lookup_insert_eq|by apply lookup_insert_ne]. Qed.

Lemma procs_ok_pset p x s : procs_ok s -> 0 <= p < NPROC -> p_lock x = false -> procs_ok (pset p x s).
Proof.
  intros [H1 H2] Hp Hx. split; intros i; rewrite procs_pset; case_decide as E; subst.
  - split; [done|by eexists].
  - apply H1.
  - by intros y [= <-].
  - apply H2.
Qed.

Lemma boot_procs_ok s : procs s = table NPROC bss_proc -> procs_ok s.
Proof.
  intros E. split; rewrite E.
  - intros i. split; [intros [y [Hi _]%lookup_table_inv]; exact Hi|]. intros Hi. exists bss_proc. by apply lookup_table.
  - by intros i y [_ ->]%lookup_table_inv.
Qed.

Lemma wake_lock c x : p_lock (wake c x) = p_lock x.
Proof. unfold wake. by destruct (p_state x), (p_chan x =? c). Qed.
Lemma wake_unlock c x : p_lock x = false -> set_p_lock false (wake c (set_p_lock true x)) = wake c x.
Proof. destruct x. unfold wake. cbn. intros ->. by destruct p_state, (p_chan =? c). Qed.

(** The process as [sleep] leaves it to the scheduler, which releases its lock. *)
Definition asleep (chan : Z) (x : proc) : proc := set_p_state SLEEPING (set_p_chan chan x).

(** [wakeup] makes exactly the sleepers on its channel runnable. *)
Lemma wakeup_spec s chan (Q : unit -> kstate -> Prop) :
  procs_ok s -> Q tt (set_procs (wake chan <$> procs s) s) -> wp (wakeup chan) s Q.
Proof.
  intros [Hd Hl] HQ. unfold wakeup.
  eapply wp_mono; [apply (wp_for_seq (fun k s' => exists m, s' = set_procs m s /\
    forall i, m !! i = if i <? k then wake chan <$> procs s !! i else procs s !! i))|].
  - exists (procs s). split; [by destruct s|]. intros i. destruct (Z.ltb_spec i 0); [|done].
    destruct (procs s !! i) as [x|] eqn:E; [|done]. assert (0 <= i < NPROC) by (apply Hd; by eexists). lia.
  - done.
  - intros k s' Hk (m & -> & Hm). destruct (proj2 (Hd k) Hk) as [x Hx].
    assert (Hmk : m !! k = Some x) by (rewrite Hm; by rewrite (proj2 (Z.ltb_ge k k)) by lia).
    unfold run_steps, wakeup_visit. cbn [for_all].
    apply wp_bind. eapply wp_proc_acquire; [exact Hmk|by apply (Hl k)|].
    apply wp_bind. eapply wp_pupd; [apply lookup_insert_eq|]. rewrite pset_pset.
    apply wp_bind. eapply wp_proc_release; [apply lookup_insert_eq|by rewrite wake_lock|]. rewrite pset_pset.
    apply wp_ret. eexists. split; [reflexivity|]. intros i. rewrite wake_unlock by (by apply (Hl k)).
    destruct (decide (i = k)) as [->|Hne].
    + rewrite lookup_insert_eq, (proj2 (Z.ltb_lt k (k + 1))), Hx by lia. done.
    + rewrite lookup_insert_ne, Hm by done.
      destruct (Z.ltb_spec i k), (Z.ltb_spec i (k + 1)); try done; lia.
  - intros [] s' (m & -> & Hm). replace (wake chan <$> procs s) with m in HQ; [exact HQ|].
    apply map_eq. intros i. rewrite lookup_fmap, Hm. destruct (Z.ltb_spec i NPROC); [done|].
    destruct (procs s !! i) as [x|] eqn:E; [|done]. assert (0 <= i < NPROC) by (apply Hd; by eexists). lia.
Qed.
