(* ===== verification/Interleave.v ===== *)
(** Sleeping and waking up on several CPUs, proc.c.

    The statements of [sleep], of [wakeup] and of the scheduler are interleaved,
    for any number of processes that wait for a condition and one lock [l] that
    protects it, as pipes, the clock, the console and sleep locks use them: a
    process tests the condition with the lock held and sleeps while it is false;
    who makes it true calls [wakeup] before releasing the lock.  [no_lost_wakeup]
    says that no process is then left asleep.  [wait], whose lock is the process's own,
    is not one of them. *)
From stdpp Require Import functions.
From S2P Require Import Prelude Bytes Locks Kalloc Vm Bio Log Kernel Fs File Proc Txn Wakeup.

(** A spin lock that is not in the process table, given as a lens, in the states
    [ok] in which it exists. *)
Record other_lock (ok : kstate -> Prop) (l : lens kstate bool) : Prop := {
  ol_get : forall b s, ok s -> lget l (lset l b s) = b;
  ol_lset_procs : forall b s, procs (lset l b s) = procs s;
  ol_set_procs : forall m s, lget l (set_procs m s) = lget l s;
  ol_ok_lset : forall b s, ok s -> ok (lset l b s);
  ol_ok_procs : forall m s, ok s -> ok (set_procs m s)
}.

(** ** The machine *)

(** Where a process is: outside; holding [l], with [dirty] when it has made the
    condition true and not yet called [wakeup]; before statement [k] of [sleep];
    switched away from; the same, while the scheduler looks at it; before
    statement [k] of the rest of [sleep]; in [wakeup], before statement [k] of the
    visit to process [i]. *)
Inductive position :=
  | Away | Holding (dirty : bool) | InSleep (k : nat) | Parked | Visited
  | InReturn (k : nat) | InWakeup (i : Z) (k : nat).

Definition machine : Type := kstate * (Z -> position).

Section machine.
Variables (ok : kstate -> Prop) (l : lens kstate bool) (chan : Z) (cond : kstate -> bool).

(** The steps of process [p].  A statement is taken when it returns: [acquire] of
    a lock that is held waits. *)
Inductive mstep : machine -> machine -> Prop :=
| m_acquire p x s f s' : f p = Away -> procs s !! p = Some x -> p_state x = RUNNING ->
    spin_acquire l s = Ret tt s' -> mstep (s, f) (s', <[p := Holding false]> f)
| m_update p d s f s' : f p = Holding d -> procs s' = procs s -> lget l s' = lget l s -> ok s' ->
    mstep (s, f) (s', <[p := Holding (d || (negb (cond s) && cond s'))]> f)
| m_release p d s f s' : f p = Holding d -> (cond s = true -> d = false) ->
    spin_release l s = Ret tt s' -> mstep (s, f) (s', <[p := Away]> f)
| m_sleep p d s f : f p = Holding d -> cond s = false -> mstep (s, f) (s, <[p := InSleep 0]> f)
| m_sleep_step p k st s f s' : f p = InSleep k -> sleep_steps p chan (Some l) !! k = Some st ->
    st s = Ret tt s' -> mstep (s, f) (s', <[p := InSleep (S k)]> f)
| m_switch p s f s' : f p = InSleep (length (sleep_steps p chan (Some l))) ->
    spin_release (proc_lk p) s = Ret tt s' -> mstep (s, f) (s', <[p := Parked]> f)
| m_visit p s f s' : f p = Parked -> spin_acquire (proc_lk p) s = Ret tt s' ->
    mstep (s, f) (s', <[p := Visited]> f)
| m_pass p x s f s' : f p = Visited -> procs s !! p = Some x -> p_state x <> RUNNABLE ->
    spin_release (proc_lk p) s = Ret tt s' -> mstep (s, f) (s', <[p := Parked]> f)
| m_run p x s f s' : f p = Visited -> procs s !! p = Some x -> p_state x = RUNNABLE ->
    pupd p (set_p_state RUNNING) s = Ret tt s' -> mstep (s, f) (s', <[p := InReturn 0]> f)
| m_return_step p k st s f s' : f p = InReturn k -> sleep_return_steps p (Some l) !! k = Some st ->
    st s = Ret tt s' -> mstep (s, f) (s', <[p := InReturn (S k)]> f)
| m_returned p s f : f p = InReturn (length (sleep_return_steps p (Some l))) ->
    mstep (s, f) (s, <[p := Holding false]> f)
| m_wakeup p d s f : f p = Holding d -> mstep (s, f) (s, <[p := InWakeup 0 0]> f)
| m_wakeup_step p i k st s f s' : f p = InWakeup i k -> i < NPROC -> wakeup_visit chan i !! k = Some st ->
    st s = Ret tt s' -> mstep (s, f) (s', <[p := InWakeup i (S k)]> f)
| m_wakeup_next p i s f : f p = InWakeup i (length (wakeup_visit chan i)) ->
    mstep (s, f) (s, <[p := InWakeup (i + 1) 0]> f)
| m_woken p s f : f p = InWakeup NPROC 0 -> mstep (s, f) (s, <[p := Holding false]> f)
(** The rest of the kernel: a process outside is changed with its lock free, but not
    put to sleep on the channel; [kill] wakes any sleeper; the condition keeps its
    value when the lock is not held. *)
| m_other p x x' s f : f p = Away -> procs s !! p = Some x -> p_lock x = false -> p_lock x' = false ->
    (p_state x' = SLEEPING -> p_chan x' <> chan) -> mstep (s, f) (pset p x' s, f)
| m_kill p x s f : procs s !! p = Some x -> p_lock x = false -> p_state x = SLEEPING ->
    mstep (s, f) (pset p (set_p_killed true (set_p_state RUNNABLE x)) s, f)
| m_world s f s' : procs s' = procs s -> lget l s' = lget l s -> ok s' -> cond s' = cond s ->
    mstep (s, f) (s', f).

(** ** The invariant *)

(** The holder of [l], and of the lock of process [q]. *)
Definition holds (a : position) : bool :=
  match a with
  | Holding _ | InWakeup _ _ => true
  | InSleep k => (k <? 2)%nat
  | InReturn k => (k =? 3)%nat
  | _ => false
  end.
Definition claims (q t : Z) (a : position) : bool :=
  match a with
  | InSleep k => (t =? q) && (1 <=? k)%nat
  | Visited => t =? q
  | InReturn k => (t =? q) && (k <=? 1)%nat
  | InWakeup i k => (i =? q) && ((k =? 1)%nat || (k =? 2)%nat)
  | _ => false
  end.

(** A lock has the value [b], and [h] tells who holds it. *)
Definition owned_by (b : bool) (h : Z -> bool) : Prop :=
  if b then exists o, forall t, h t = bool_decide (t = o) else forall t, h t = false.

(** The process has let [l] go and sleeps, or will, until it is woken. *)
Definition committed (a : position) (x : proc) : Prop :=
  match a with
  | InSleep k => (2 <= k)%nat
  | Parked | Visited => p_state x = SLEEPING
  | _ => False
  end.
(** [wakeup] will visit [q]. *)
Definition pending (q : Z) (a : position) : Prop :=
  match a with
  | Holding d => d = true
  | InWakeup i k => i < q \/ i = q /\ (k <= 1)%nat
  | _ => False
  end.

(** What the position of a process says of it. *)
Definition at_ok (c : bool) (a : position) (x : proc) : Prop :=
  match a with
  | Away => p_state x = SLEEPING -> p_chan x <> chan
  | Holding _ => p_state x = RUNNING
  | InSleep k => (k <= 4)%nat /\ ((k < 2)%nat -> c = false) /\ ((3 <= k)%nat -> p_chan x = chan) /\
      p_state x = if (k =? 4)%nat then SLEEPING else RUNNING
  | Parked | Visited => p_chan x = chan /\ (p_state x = SLEEPING \/ p_state x = RUNNABLE)
  | InReturn k => p_state x = RUNNING /\ (k <= 3)%nat
  | InWakeup i k => p_state x = RUNNING /\ 0 <= i <= NPROC /\ (k <= 3)%nat /\ (i = NPROC -> k = O)
  end.

Record minv (m : machine) : Prop := {
  mi_ok : ok m.1;
  mi_procs : forall i, is_Some (procs m.1 !! i) <-> 0 <= i < NPROC;
  mi_lock : owned_by (lget l m.1) (fun t => holds (m.2 t));
  mi_plock : forall q, owned_by (lget (proc_lk q) m.1) (fun t => claims q t (m.2 t));
  mi_pos : forall p, m.2 p <> Away -> is_Some (procs m.1 !! p);
  mi_at : forall p x, procs m.1 !! p = Some x -> at_ok (cond m.1) (m.2 p) x;
  mi_wake : cond m.1 = true -> forall q x, procs m.1 !! q = Some x -> committed (m.2 q) x ->
    exists t, pending q (m.2 t)
}.
End machine.

(** ** Owners *)

Section owned.
Variables (p : Z) (h h' : Z -> bool).
Hypothesis Hh : forall t, t <> p -> h' t = h t.

Lemma owned_keep b : h' p = h p -> owned_by b h -> owned_by b h'.
Proof.
  intros Hp. assert (E : forall t, h' t = h t) by (intros t; destruct (decide (t = p)) as [->|]; auto).
  destruct b; cbn; [intros [o H]; exists o|intros H]; intros t; by rewrite E.
Qed.
Lemma owned_acquire : h' p = true -> owned_by false h -> owned_by true h'.
Proof.
  intros Hp H. exists p. intros t. destruct (decide (t = p)) as [->|Hne].
  - by rewrite bool_decide_true.
  - rewrite bool_decide_false, Hh by done. apply H.
Qed.
Lemma owned_release : h p = true -> h' p = false -> owned_by true h -> owned_by false h'.
Proof.
  intros Hp Hp' [o H] t. destruct (decide (t = p)) as [->|Hne]; [done|]. rewrite Hh, H by done.
  apply bool_decide_false. intros ->. rewrite H in Hp. apply bool_decide_eq_true in Hp. by apply Hne.
Qed.
End owned.

Lemma owned_held b h p : owned_by b h -> h p = true -> b = true /\ forall t, h t = true -> t = p.
Proof.
  intros H Hp. destruct b; [|by rewrite H in Hp]. split; [done|]. destruct H as [o H]. intros t Ht.
  rewrite H in Hp, Ht. apply bool_decide_eq_true in Hp, Ht. congruence.
Qed.

(** ** What the statements do *)

Section statements.
Context {ok : kstate -> Prop} {l : lens kstate bool} (Hl : other_lock ok l).

Lemma spin_acquire_inv (k : lens kstate bool) s s' :
  spin_acquire k s = Ret tt s' -> lget k s = false /\ s' = lset k true s.
Proof. unfold spin_acquire, bind, gets, modify. destruct (lget k s); [done|]. by intros [= <-]. Qed.
Lemma spin_release_inv (k : lens kstate bool) s s' :
  spin_release k s = Ret tt s' -> lget k s = true /\ s' = lset k false s.
Proof. unfold spin_release, bind, gets, modify. destruct (lget k s); [|done]. by intros [= <-]. Qed.

Lemma pupd_inv p g s s' : pupd p g s = Ret tt s' -> exists x, procs s !! p = Some x /\ s' = pset p (g x) s.
Proof.
  unfold pupd, proc_at, bind, gets, of_option, modify. destruct (procs s !! p) as [x|]; [|done].
  intros [= <-]. by exists x.
Qed.
Lemma proc_lock_inv p b s x : procs s !! p = Some x -> lset (proc_lk p) b s = pset p (set_p_lock b x) s.
Proof. apply proc_lk_set. Qed.

Lemma proc_lk_pset p y s q : lget (proc_lk q) (pset p y s) = if decide (q = p) then p_lock y else lget (proc_lk q) s.
Proof.
  cbn. unfold pset. case_decide as E; [subst; by rewrite lookup_insert_eq|by rewrite lookup_insert_ne].
Qed.
End statements.

(** ** Every step keeps the invariant *)

Section preserve.
Variables (ok : kstate -> Prop) (l : lens kstate bool) (chan : Z) (cond : kstate -> bool).
Hypotheses (Hl : other_lock ok l) (Hcp : forall m s, cond (set_procs m s) = cond s)
  (Hcl : forall b s, ok s -> cond (lset l b s) = cond s).
Variables (s : kstate) (f f' : Z -> position) (p : Z).
Hypotheses (Hinv : minv ok l chan cond (s, f)) (Hf : forall t, t <> p -> f' t = f t).
Hypothesis (Hp : is_Some (procs s !! p)).

(** Sleepers stay in the waker's reach: none commits, and the ones that [p] was to
    visit it still is. *)
Definition reach (s' : kstate) : Prop := cond s = true -> forall q z, procs s' !! q = Some z -> committed (f' q) z ->
  (exists z0, procs s !! q = Some z0 /\ committed (f q) z0) /\ (pending q (f p) -> pending q (f' p)).

Lemma reach_wake s' : cond s' = cond s -> reach s' -> cond s' = true ->
  forall q z, procs s' !! q = Some z -> committed (f' q) z -> exists t, pending q (f' t).
Proof.
  intros Hc Hr Ht q z Hz Hq. rewrite Hc in Ht. destruct (Hr Ht q z Hz Hq) as [(z0 & Hz0 & Hq0) Hpend].
  destruct (mi_wake _ _ _ _ _ Hinv Ht q z0 Hz0 Hq0) as [t Hp0]. exists t. cbn in Hp0.
  destruct (decide (t = p)) as [->|Hne]; [by apply Hpend|by rewrite Hf].
Qed.

(** The record of one process changes. *)
Lemma minv_pset q x y : procs s !! q = Some x -> holds (f' p) = holds (f p) ->
  (forall r, owned_by (lget (proc_lk r) (pset q y s)) (fun t => claims r t (f' t))) ->
  (forall z, procs (pset q y s) !! p = Some z -> at_ok chan (cond s) (f' p) z) ->
  (q <> p -> at_ok chan (cond s) (f q) y) -> reach (pset q y s) ->
  minv ok l chan cond (pset q y s, f').
Proof.
  intros Hx Hh Hpl Ha Hq Hr. destruct Hinv as [H1 H2 H3 H4 H5 H6 H7]. cbn [fst snd] in *.
  assert (Hdom : forall i, is_Some (procs (pset q y s) !! i) <-> is_Some (procs s !! i)).
  { intros i. rewrite procs_pset. case_decide as E; [subst; rewrite Hx|done]. by split; eexists. }
  constructor; cbn [fst snd].
  - by apply (ol_ok_procs _ _ Hl).
  - intros i. by rewrite Hdom.
  - unfold pset. rewrite (ol_set_procs _ _ Hl). apply (owned_keep p (fun t => holds (f t))); [|done|done].
    intros t Ht. by rewrite Hf.
  - exact Hpl.
  - intros t Ht. rewrite Hdom. destruct (decide (t = p)) as [->|Hne]; [done|]. apply H5. by rewrite <- Hf.
  - intros t z Hz. unfold pset. rewrite Hcp. destruct (decide (t = p)) as [->|Hne]; [by apply Ha|].
    rewrite Hf by done. rewrite procs_pset in Hz. case_decide as E; [|by apply H6].
    subst t. injection Hz as <-. by apply Hq.
  - apply reach_wake; [by unfold pset; rewrite Hcp|done].
Qed.

(** The lock [l] changes, or nothing but the position. *)
Lemma minv_same s' : ok s' -> procs s' = procs s -> cond s' = cond s ->
  owned_by (lget l s') (fun t => holds (f' t)) -> (forall r, claims r p (f' p) = claims r p (f p)) ->
  (forall x, procs s !! p = Some x -> at_ok chan (cond s) (f' p) x) -> reach s' ->
  minv ok l chan cond (s', f').
Proof.
  intros Hok Hps Hc Hown Hcl' Ha Hr. destruct Hinv as [H1 H2 H3 H4 H5 H6 H7]. cbn [fst snd] in *.
  constructor; cbn [fst snd].
  - done.
  - by rewrite Hps.
  - done.
  - intros r. replace (lget (proc_lk r) s') with (lget (proc_lk r) s) by (cbn; by rewrite Hps).
    apply (owned_keep p (fun t => claims r t (f t))); [|done|done]. intros t Ht. by rewrite Hf.
  - intros t Ht. rewrite Hps. destruct (decide (t = p)) as [->|Hne]; [done|]. apply H5. by rewrite <- Hf.
  - intros t z. rewrite Hps, Hc. destruct (decide (t = p)) as [->|Hne]; [by apply Ha|].
    rewrite Hf by done. apply H6.
  - by apply reach_wake.
Qed.

(** The locks of the processes after a step of [p] on process [q]. *)
Lemma plocks_keep q x y : procs s !! q = Some x -> p_lock y = p_lock x ->
  (forall r, claims r p (f' p) = claims r p (f p)) ->
  forall r, owned_by (lget (proc_lk r) (pset q y s)) (fun t => claims r t (f' t)).
Proof.
  intros Hx Hy Hc r. rewrite proc_lk_pset.
  apply (owned_keep p (fun t => claims r t (f t))); [intros t Ht; by rewrite Hf|done|].
  pose proof (mi_plock _ _ _ _ _ Hinv r) as H. cbn [fst snd] in H. case_decide as E; [|done].
  subst. by rewrite Hy, <- (proc_lk_get s q x Hx).
Qed.
Lemma plocks_acquire q x : procs s !! q = Some x -> p_lock x = false -> claims q p (f' p) = true ->
  (forall r, r <> q -> claims r p (f' p) = claims r p (f p)) ->
  forall r, owned_by (lget (proc_lk r) (pset q (set_p_lock true x) s)) (fun t => claims r t (f' t)).
Proof.
  intros Hx Hy Hc Hr r. rewrite proc_lk_pset. pose proof (mi_plock _ _ _ _ _ Hinv r) as H. cbn [fst snd] in H.
  case_decide as E.
  - subst. rewrite (proc_lk_get s q x Hx), Hy in H.
    apply (owned_acquire p (fun t => claims q t (f t))); [intros t Ht; by rewrite Hf|done|done].
  - apply (owned_keep p (fun t => claims r t (f t))); [intros t Ht; by rewrite Hf|by apply Hr|done].
Qed.
Lemma plocks_release q x : procs s !! q = Some x -> claims q p (f p) = true -> claims q p (f' p) = false ->
  (forall r, r <> q -> claims r p (f' p) = claims r p (f p)) ->
  forall r, owned_by (lget (proc_lk r) (pset q (set_p_lock false x) s)) (fun t => claims r t (f' t)).
Proof.
  intros Hx Hc Hc' Hr r. rewrite proc_lk_pset. pose proof (mi_plock _ _ _ _ _ Hinv r) as H. cbn [fst snd] in H.
  case_decide as E.
  - subst. destruct (owned_held _ _ p H Hc) as [Eb _]. rewrite Eb in H.
    apply (owned_release p (fun t => claims q t (f t))); [intros t Ht; by rewrite Hf|done..].
  - apply (owned_keep p (fun t => claims r t (f t))); [intros t Ht; by rewrite Hf|by apply Hr|done].
Qed.
End preserve.

Section steps.
Context {ok : kstate -> Prop} {l : lens kstate bool} {chan : Z} {cond : kstate -> bool}.
Hypotheses (Hl : other_lock ok l) (Hcp : forall m s, cond (set_procs m s) = cond s)
  (Hcl : forall b s, ok s -> cond (lset l b s) = cond s).
Variables (s : kstate) (f : Z -> position) (p : Z).
Hypothesis (Hinv : minv ok l chan cond (s, f)).

Lemma insert_other (a : position) t : t <> p -> <[p := a]> f t = f t.
Proof. intros H. by apply fn_lookup_insert_ne. Qed.

Lemma at_pos : f p <> Away -> exists x, procs s !! p = Some x /\ at_ok chan (cond s) (f p) x.
Proof.
  intros H. destruct (mi_pos _ _ _ _ _ Hinv p H) as [x Hx]. exists x. split; [done|].
  by apply (mi_at _ _ _ _ _ Hinv).
Qed.

(** A statement that takes or frees [l]. *)
Lemma step_lock a b : is_Some (procs s !! p) ->
  owned_by b (fun t => holds (<[p := a]> f t)) -> (forall r, claims r p a = claims r p (f p)) ->
  (forall x, procs s !! p = Some x -> at_ok chan (cond s) a x) -> reach cond s f (<[p := a]> f) p s ->
  minv ok l chan cond (lset l b s, <[p := a]> f).
Proof.
  intros Hp Hown Hc Ha Hr. pose proof (mi_ok _ _ _ _ _ Hinv) as Hok. cbn in Hok.
  apply (minv_same ok l chan cond s f (<[p := a]> f) p Hinv); rewrite ?fn_lookup_insert; try done.
  - apply insert_other.
  - by apply (ol_ok_lset _ _ Hl).
  - apply (ol_lset_procs _ _ Hl).
  - by apply Hcl.
  - by rewrite (ol_get _ _ Hl).
  - unfold reach in *. by rewrite (ol_lset_procs _ _ Hl).
Qed.

(** Only the position changes. *)
Lemma step_pos a : is_Some (procs s !! p) -> holds a = holds (f p) ->
  (forall r, claims r p a = claims r p (f p)) ->
  (forall x, procs s !! p = Some x -> at_ok chan (cond s) a x) -> reach cond s f (<[p := a]> f) p s ->
  minv ok l chan cond (s, <[p := a]> f).
Proof.
  intros Hp Hh Hc Ha Hr.
  apply (minv_same ok l chan cond s f (<[p := a]> f) p Hinv); rewrite ?fn_lookup_insert; try done.
  - apply insert_other.
  - apply (mi_ok _ _ _ _ _ Hinv).
  - apply (owned_keep p (fun t => holds (f t))); [intros t Ht; by rewrite insert_other|by rewrite fn_lookup_insert|].
    apply (mi_lock _ _ _ _ _ Hinv).
Qed.

(** Where nobody is sent to sleep and nothing is taken off the waker's way. *)
Lemma reach_keep s' a : procs s' = procs s ->
  (cond s = true -> forall z, committed a z -> committed (f p) z) ->
  (cond s = true -> forall q, 0 <= q < NPROC -> pending q (f p) -> pending q a) ->
  reach cond s f (<[p := a]> f) p s'.
Proof.
  intros Hps Hc Hpd Ht q z. rewrite Hps. intros Hz Hq. rewrite fn_lookup_insert. split.
  - exists z. split; [done|]. destruct (decide (q = p)) as [->|Hne].
    + rewrite fn_lookup_insert in Hq. by apply Hc.
    + by rewrite insert_other in Hq.
  - apply (Hpd Ht). apply (mi_procs _ _ _ _ _ Hinv q). by exists z.
Qed.

(** The step changes the record of process [q]; what it makes of a sleeper. *)
Lemma reach_pset q y a : (cond s = true -> forall z, committed a z -> p <> q -> committed (f p) z) ->
  (cond s = true -> p <> q -> forall z, procs s !! q = Some z -> committed (f q) y -> committed (f q) z) ->
  (cond s = true -> p = q -> committed a y -> forall z, procs s !! q = Some z -> committed (f q) z) ->
  (cond s = true -> forall r, r <> q \/ committed (<[p := a]> f q) y -> pending r (f p) -> pending r a) ->
  is_Some (procs s !! q) -> reach cond s f (<[p := a]> f) p (pset q y s).
Proof.
  intros H1 H2 H3 H4 [x Hx] Ht r z. rewrite procs_pset, fn_lookup_insert. case_decide as E.
  - subst r. intros [= <-] Hq. split; [exists x; split; [done|]|by apply H4; auto].
    destruct (decide (q = p)) as [->|Hne].
    + rewrite fn_lookup_insert in Hq. by eapply H3.
    + rewrite insert_other in Hq by done. by eapply H2.
  - intros Hz Hq. split; [exists z; split; [done|]|by apply H4; auto].
    destruct (decide (r = p)) as [->|Hne]; [rewrite fn_lookup_insert in Hq|by rewrite insert_other in Hq].
    apply H1; [done|done|congruence].
Qed.

Lemma held_by_p : holds (f p) = true -> lget l s = true /\ forall t, holds (f t) = true -> t = p.
Proof. intros H. exact (owned_held _ _ p (mi_lock _ _ _ _ _ Hinv) H). Qed.
Lemma claimed_by_p q : claims q p (f p) = true -> lget (proc_lk q) s = true /\ forall t, claims q t (f t) = true -> t = p.
Proof. intros H. exact (owned_held _ _ p (mi_plock _ _ _ _ _ Hinv q) H). Qed.

Lemma owned_take a : holds a = true -> lget l s = false -> owned_by true (fun t => holds (<[p := a]> f t)).
Proof.
  intros Ha Hf. pose proof (mi_lock _ _ _ _ _ Hinv) as H. cbn [fst snd] in H. rewrite Hf in H.
  apply (owned_acquire p (fun t => holds (f t))); [|by rewrite fn_lookup_insert|done].
  intros t Ht. by rewrite insert_other.
Qed.
Lemma owned_drop a : holds (f p) = true -> holds a = false -> owned_by false (fun t => holds (<[p := a]> f t)).
Proof.
  intros Hp Ha. pose proof (mi_lock _ _ _ _ _ Hinv) as H. cbn [fst snd] in H.
  rewrite (proj1 (held_by_p Hp)) in H.
  apply (owned_release p (fun t => holds (f t))); [|done|by rewrite fn_lookup_insert|done].
  intros t Ht. by rewrite insert_other.
Qed.

(** A statement of [p] on its own record that leaves its lock. *)
Lemma step_self a x y : procs s !! p = Some x -> holds a = holds (f p) -> p_lock y = p_lock x ->
  (forall r, claims r p a = claims r p (f p)) -> at_ok chan (cond s) a y ->
  (cond s = true -> committed a y -> committed (f p) x) ->
  (cond s = true -> forall r, pending r (f p) -> pending r a) ->
  minv ok l chan cond (pset p y s, <[p := a]> f).
Proof.
  intros Hx Hh Hy Hc Ha Hcm Hpd.
  apply (minv_pset ok l chan cond Hl Hcp s f (<[p := a]> f) p Hinv (insert_other a) (ex_intro _ x Hx) p x y Hx);
    rewrite ?fn_lookup_insert; try done.
  - eapply (plocks_keep ok l chan cond s f _ p Hinv (insert_other a)); [done|done|by rewrite fn_lookup_insert].
  - rewrite procs_pset, decide_True by done. by intros z [= <-].
  - apply reach_pset; [done|done| |by intros Ht r _; apply Hpd|by eexists].
    intros Ht _ Hq z Hz. rewrite Hx in Hz. injection Hz as <-. by apply Hcm.
Qed.
(** [p] takes or frees its own lock. *)
Lemma step_self_acquire a x : procs s !! p = Some x -> p_lock x = false -> holds a = holds (f p) ->
  claims p p a = true -> (forall r, r <> p -> claims r p a = claims r p (f p)) ->
  at_ok chan (cond s) a (set_p_lock true x) ->
  (cond s = true -> committed a (set_p_lock true x) -> committed (f p) x) ->
  (cond s = true -> forall r, pending r (f p) -> pending r a) ->
  minv ok l chan cond (pset p (set_p_lock true x) s, <[p := a]> f).
Proof.
  intros Hx Hx0 Hh Hc Hc' Ha Hcm Hpd.
  apply (minv_pset ok l chan cond Hl Hcp s f (<[p := a]> f) p Hinv (insert_other a) (ex_intro _ x Hx) p x _ Hx);
    rewrite ?fn_lookup_insert; try done.
  - eapply (plocks_acquire ok l chan cond s f _ p Hinv (insert_other a)); rewrite ?fn_lookup_insert; done.
  - rewrite procs_pset, decide_True by done. by intros z [= <-].
  - apply reach_pset; [done|done| |by intros Ht r _; apply Hpd|by eexists].
    intros Ht _ Hq z Hz. rewrite Hx in Hz. injection Hz as <-. by apply Hcm.
Qed.
Lemma step_self_release a x : procs s !! p = Some x -> holds a = holds (f p) ->
  claims p p (f p) = true -> claims p p a = false -> (forall r, r <> p -> claims r p a = claims r p (f p)) ->
  at_ok chan (cond s) a (set_p_lock false x) ->
  (cond s = true -> committed a (set_p_lock false x) -> committed (f p) x) ->
  (cond s = true -> forall r, pending r (f p) -> pending r a) ->
  minv ok l chan cond (pset p (set_p_lock false x) s, <[p := a]> f).
Proof.
  intros Hx Hh Hc Hca Hc' Ha Hcm Hpd.
  apply (minv_pset ok l chan cond Hl Hcp s f (<[p := a]> f) p Hinv (insert_other a) (ex_intro _ x Hx) p x _ Hx);
    rewrite ?fn_lookup_insert; try done.
  - eapply (plocks_release ok l chan cond s f _ p Hinv (insert_other a)); rewrite ?fn_lookup_insert; done.
  - rewrite procs_pset, decide_True by done. by intros z [= <-].
  - apply reach_pset; [done|done| |by intros Ht r _; apply Hpd|by eexists].
    intros Ht _ Hq z Hz. rewrite Hx in Hz. injection Hz as <-. by apply Hcm.
Qed.

Lemma committed_lock a b x : committed a (set_p_lock b x) <-> committed a x.
Proof. by destruct a, x. Qed.

Lemma keep_sleep_step k st s' : f p = InSleep k -> sleep_steps p chan (Some l) !! k = Some st ->
  st s = Ret tt s' -> minv ok l chan cond (s', <[p := InSleep (S k)]> f).
Proof.
  intros Hf Hst E. destruct at_pos as (x & Hx & Ha); [by rewrite Hf|]. rewrite Hf in Ha. cbn in Ha.
  destruct Ha as (Hk & Hc & Hch & Hstate).
  destruct k as [|[|[|[|k]]]]; cbn in Hst; [injection Hst as <-..|done].
  - apply spin_acquire_inv in E as [Hlk ->]. rewrite (proc_lk_get s p x Hx) in Hlk.
    rewrite (proc_lk_set s p x _ Hx). apply step_self_acquire; rewrite ?Hf; try done.
    + cbn. by rewrite Z.eqb_refl.
    + intros r Hr. cbn. by rewrite !andb_false_r, (proj2 (Z.eqb_neq p r)).
    + cbn. split; [lia|]. split; [intros _; apply Hc; lia|]. by split; [lia|].
    + cbn. lia.
  - apply spin_release_inv in E as [_ ->]. apply step_lock; rewrite ?Hf; try done.
    + apply (owned_drop (InSleep 2)); [by rewrite Hf|done].
    + intros z Hz. rewrite Hx in Hz. injection Hz as <-. cbn. by repeat split; try lia.
    + intros Ht. rewrite Hc in Ht by lia. done.
  - apply pupd_inv in E as (z & Hz & ->). rewrite Hx in Hz. injection Hz as <-.
    apply (step_self _ x); rewrite ?Hf; try done; cbn; [|lia].
    by repeat split; try lia.
  - apply pupd_inv in E as (z & Hz & ->). rewrite Hx in Hz. injection Hz as <-.
    apply (step_self _ x); rewrite ?Hf; try done; cbn; [|lia].
    by repeat split; try lia.
Qed.

Lemma keep_switch s' : f p = InSleep (length (sleep_steps p chan (Some l))) ->
  spin_release (proc_lk p) s = Ret tt s' -> minv ok l chan cond (s', <[p := Parked]> f).
Proof.
  intros Hf E. destruct at_pos as (x & Hx & Ha); [by rewrite Hf|]. rewrite Hf in Ha. cbn in Ha, Hf.
  destruct Ha as (_ & _ & Hch & Hstate). apply spin_release_inv in E as [_ ->]. rewrite (proc_lk_set s p x _ Hx).
  apply step_self_release; rewrite ?Hf; try done; cbn.
  - by rewrite Z.eqb_refl.
  - intros r Hr. by rewrite (proj2 (Z.eqb_neq p r)).
  - split; [apply Hch; lia|by left].
  - lia.
Qed.

Lemma keep_visit s' : f p = Parked -> spin_acquire (proc_lk p) s = Ret tt s' ->
  minv ok l chan cond (s', <[p := Visited]> f).
Proof.
  intros Hf E. destruct at_pos as (x & Hx & Ha); [by rewrite Hf|]. rewrite Hf in Ha.
  apply spin_acquire_inv in E as [Hlk ->]. rewrite (proc_lk_get s p x Hx) in Hlk. rewrite (proc_lk_set s p x _ Hx).
  apply step_self_acquire; rewrite ?Hf; try done; cbn.
  - apply Z.eqb_refl.
  - intros r Hr. by apply Z.eqb_neq.
Qed.

Lemma keep_pass x s' : f p = Visited -> procs s !! p = Some x ->
  spin_release (proc_lk p) s = Ret tt s' -> minv ok l chan cond (s', <[p := Parked]> f).
Proof.
  intros Hf Hx E. pose proof (mi_at _ _ _ _ _ Hinv p x Hx) as Ha. cbn [fst snd] in Ha. rewrite Hf in Ha.
  apply spin_release_inv in E as [_ ->]. rewrite (proc_lk_set s p x _ Hx).
  apply step_self_release; rewrite ?Hf; try done; cbn.
  - apply Z.eqb_refl.
  - intros r Hr. symmetry. by apply Z.eqb_neq.
Qed.

Lemma keep_run s' : f p = Visited -> pupd p (set_p_state RUNNING) s = Ret tt s' ->
  minv ok l chan cond (s', <[p := InReturn 0]> f).
Proof.
  intros Hf E. apply pupd_inv in E as (x & Hx & ->).
  apply (step_self _ x); rewrite ?Hf; try done; cbn.
  - intros r. by rewrite andb_true_r.
  - by split; [|lia].
Qed.

Lemma keep_return_step k st s' : f p = InReturn k -> sleep_return_steps p (Some l) !! k = Some st ->
  st s = Ret tt s' -> minv ok l chan cond (s', <[p := InReturn (S k)]> f).
Proof.
  intros Hf Hst E. destruct at_pos as (x & Hx & Ha); [by rewrite Hf|]. rewrite Hf in Ha. cbn in Ha.
  destruct Ha as [Hstate Hk]. destruct k as [|[|[|k]]]; cbn in Hst; [injection Hst as <-..|done].
  - apply pupd_inv in E as (z & Hz & ->). rewrite Hx in Hz. injection Hz as <-.
    apply (step_self _ x); rewrite ?Hf; try done; cbn. by split; [|lia].
  - apply spin_release_inv in E as [_ ->]. rewrite (proc_lk_set s p x _ Hx).
    apply step_self_release; rewrite ?Hf; try done; cbn.
    + by rewrite Z.eqb_refl.
    + by rewrite andb_false_r.
    + intros r Hr. by rewrite (proj2 (Z.eqb_neq p r)).
    + by split; [|lia].
  - apply spin_acquire_inv in E as [Hlk ->]. apply step_lock; rewrite ?Hf; try done.
    + by apply (owned_take (InReturn 3)).
    + intros z Hz. rewrite Hx in Hz. injection Hz as <-. cbn. by split; [|lia].
    + apply reach_keep; [done|done|]. rewrite Hf. done.
Qed.

(** [wakeup]'s visit to a process [i]: it takes its lock, ... *)
Lemma keep_wakeup_lock i x : f p = InWakeup i 0 -> 0 <= i < NPROC -> procs s !! i = Some x -> p_lock x = false ->
  minv ok l chan cond (pset i (set_p_lock true x) s, <[p := InWakeup i 1]> f).
Proof.
  intros Hf Hi Hx Hlk. destruct at_pos as (xp & Hxp & Ha); [by rewrite Hf|]. rewrite Hf in Ha.
  pose proof (mi_at _ _ _ _ _ Hinv i x Hx) as Hai. cbn [fst snd] in Hai. destruct Ha as (Hstate & _).
  apply (minv_pset ok l chan cond Hl Hcp s f _ p Hinv (insert_other _) (ex_intro _ xp Hxp) i x _ Hx);
    rewrite ?fn_lookup_insert, ?Hf; try done.
  - apply (plocks_acquire ok l chan cond s f _ p Hinv (insert_other _)); rewrite ?fn_lookup_insert, ?Hf; try done; cbn.
    + by rewrite Z.eqb_refl.
    + intros r Hri. by rewrite (proj2 (Z.eqb_neq i r)).
  - intros z Hz. rewrite procs_pset in Hz. cbn. repeat split; try lia.
    case_decide as Ei; [injection Hz as <-; cbn; subst|]; congruence.
  - apply reach_pset; rewrite ?Hf; try done.
    + intros _ _ z Hz. rewrite Hx in Hz. injection Hz as <-. by rewrite committed_lock.
    + cbn. intros _ r _ [?|[-> _]]; [by left|right; split; [done|lia]].
Qed.

(** ... makes it runnable if it sleeps on the channel: the lock is [wakeup]'s, so
    the process is not on its way into [sleep] or out of it, ... *)
Lemma woken_ok i k x : f p = InWakeup i k -> k = 1%nat \/ k = 2%nat -> i <> p -> procs s !! i = Some x ->
  at_ok chan (cond s) (f i) (wake chan x) /\ ~ committed (f i) (wake chan x).
Proof.
  intros Hf Hk Hne Hx. pose proof (mi_at _ _ _ _ _ Hinv i x Hx) as Ha. cbn [fst snd] in Ha.
  destruct held_by_p as [_ Hh]; [by rewrite Hf|].
  destruct (claimed_by_p i) as [_ Hcl1]; [rewrite Hf; cbn; rewrite Z.eqb_refl; by destruct Hk as [->| ->]|].
  assert (N0 : f i <> InSleep 0) by (intros Hfi; apply Hne, Hh; by rewrite Hfi).
  assert (Nc : claims i i (f i) = false) by (destruct (claims i i (f i)) eqn:Ec; [by apply Hcl1 in Ec|done]).
  unfold wake. destruct (f i) as [| |m| | |m|j m] eqn:Efi; cbn in Ha, Nc |- *.
  - split; [|by intros []]. destruct (p_state x) eqn:Es; try (intros H; congruence).
    rewrite (proj2 (Z.eqb_neq _ _)) by (by apply Ha). by rewrite Es.
  - rewrite Ha. by split; [|intros []].
  - exfalso. rewrite Z.eqb_refl in Nc. by destruct m.
  - destruct Ha as [Ec [Es|Es]]; rewrite Es.
    + rewrite Ec, Z.eqb_refl. cbn. split; [by split; [|right]|done].
    + rewrite Es. split; [by split; [|right]|done].
  - by rewrite Z.eqb_refl in Nc.
  - destruct Ha as [Es ?]. rewrite Es. by split; [|intros []].
  - destruct Ha as [Es ?]. rewrite Es. by split; [|intros []].
Qed.
Lemma keep_wakeup_wake i x : f p = InWakeup i 1 -> 0 <= i < NPROC -> procs s !! i = Some x ->
  minv ok l chan cond (pset i (wake chan x) s, <[p := InWakeup i 2]> f).
Proof.
  intros Hf Hi Hx. destruct at_pos as (xp & Hxp & Ha); [by rewrite Hf|]. rewrite Hf in Ha. destruct Ha as (Hstate & _).
  assert (Hw : i <> p -> at_ok chan (cond s) (f i) (wake chan x) /\ ~ committed (f i) (wake chan x))
    by (intros Hne; apply (woken_ok i 1); auto).
  apply (minv_pset ok l chan cond Hl Hcp s f _ p Hinv (insert_other _) (ex_intro _ xp Hxp) i x _ Hx);
    rewrite ?fn_lookup_insert, ?Hf; try done.
  - apply (plocks_keep ok l chan cond s f _ p Hinv (insert_other _) i x); [done|by rewrite wake_lock|].
    intros r. by rewrite fn_lookup_insert, Hf.
  - intros z Hz. rewrite procs_pset in Hz. cbn. repeat split; try lia.
    case_decide as Ei; [|congruence]. injection Hz as <-. subst i. rewrite Hxp in Hx. injection Hx as <-.
    unfold wake. by rewrite Hstate.
  - intros Hne. by apply Hw.
  - apply reach_pset; rewrite ?Hf; try done.
    + intros _ Hne z Hz Hcm. exfalso. eapply Hw; [by intros ->|exact Hcm].
    + cbn. intros _ r Hor [?|[<- _]]; [by left|]. exfalso. destruct Hor as [?|Hcm]; [done|].
      destruct (decide (i = p)) as [->|Hne]; [by rewrite fn_lookup_insert in Hcm|].
      rewrite insert_other in Hcm by done. by eapply Hw.
Qed.

(** ... and frees the lock. *)
Lemma keep_wakeup_unlock i x : f p = InWakeup i 2 -> 0 <= i < NPROC -> procs s !! i = Some x ->
  minv ok l chan cond (pset i (set_p_lock false x) s, <[p := InWakeup i 3]> f).
Proof.
  intros Hf Hi Hx. destruct at_pos as (xp & Hxp & Ha); [by rewrite Hf|]. rewrite Hf in Ha.
  pose proof (mi_at _ _ _ _ _ Hinv i x Hx) as Hai. cbn [fst snd] in Hai. destruct Ha as (Hstate & _).
  apply (minv_pset ok l chan cond Hl Hcp s f _ p Hinv (insert_other _) (ex_intro _ xp Hxp) i x _ Hx);
    rewrite ?fn_lookup_insert, ?Hf; try done.
  - apply (plocks_release ok l chan cond s f _ p Hinv (insert_other _)); rewrite ?fn_lookup_insert, ?Hf; try done; cbn.
    + by rewrite Z.eqb_refl.
    + by rewrite andb_false_r.
    + intros r Hri. by rewrite (proj2 (Z.eqb_neq i r)).
  - intros z Hz. rewrite procs_pset in Hz. cbn. repeat split; try lia.
    case_decide as Ei; [injection Hz as <-; cbn; subst|]; congruence.
  - apply reach_pset; rewrite ?Hf; try done.
    + intros _ _ z Hz. rewrite Hx in Hz. injection Hz as <-. by rewrite committed_lock.
    + cbn. intros _ r _ [?|[_ ?]]; [by left|lia].
Qed.
Lemma keep_wakeup_step i k st s' : f p = InWakeup i k -> i < NPROC -> wakeup_visit chan i !! k = Some st ->
  st s = Ret tt s' -> minv ok l chan cond (s', <[p := InWakeup i (S k)]> f).
Proof.
  intros Hf Hi Hst E. destruct at_pos as (xp & Hxp & Ha); [by rewrite Hf|]. rewrite Hf in Ha. cbn in Ha.
  destruct Ha as (_ & Hr & _). destruct (proj2 (mi_procs _ _ _ _ _ Hinv i)) as [x Hx]; [lia|]. cbn [fst] in Hx.
  destruct k as [|[|[|k]]]; cbn in Hst; [injection Hst as <-..|done].
  - apply spin_acquire_inv in E as [Hlk ->]. rewrite (proc_lk_get s i x Hx) in Hlk. rewrite (proc_lk_set s i x _ Hx).
    by apply keep_wakeup_lock; [|lia|..].
  - apply pupd_inv in E as (z & Hz & ->). rewrite Hx in Hz. injection Hz as <-. by apply keep_wakeup_wake; [|lia|].
  - apply spin_release_inv in E as [_ ->]. rewrite (proc_lk_set s i x _ Hx). by apply keep_wakeup_unlock; [|lia|].
Qed.

(** ** The other steps *)

Lemma keep_acquire x s' : f p = Away -> procs s !! p = Some x -> p_state x = RUNNING ->
  spin_acquire l s = Ret tt s' -> minv ok l chan cond (s', <[p := Holding false]> f).
Proof.
  intros Hf Hx Hs E. apply spin_acquire_inv in E as [Hlk ->]. apply step_lock; rewrite ?Hf; try done.
  - by apply (owned_take (Holding false)).
  - intros z Hz. rewrite Hx in Hz. by injection Hz as <-.
  - by apply reach_keep; rewrite ?Hf.
Qed.

Lemma keep_release d s' : f p = Holding d -> (cond s = true -> d = false) ->
  spin_release l s = Ret tt s' -> minv ok l chan cond (s', <[p := Away]> f).
Proof.
  intros Hf Hd E. destruct at_pos as (x & Hx & Ha); [by rewrite Hf|]. rewrite Hf in Ha. cbn in Ha.
  apply spin_release_inv in E as [_ ->]. apply step_lock; rewrite ?Hf; try done.
  - apply (owned_drop Away); [by rewrite Hf|done].
  - intros z Hz. rewrite Hx in Hz. injection Hz as <-. cbn. congruence.
  - apply reach_keep; rewrite ?Hf; try done. cbn. intros Hc q _ ->. by discriminate Hd.
Qed.

Lemma keep_sleep d : f p = Holding d -> cond s = false -> minv ok l chan cond (s, <[p := InSleep 0]> f).
Proof.
  intros Hf Hc. destruct at_pos as (x & Hx & Ha); [by rewrite Hf|]. rewrite Hf in Ha. cbn in Ha.
  apply step_pos; rewrite ?Hf; try done.
  - intros r. cbn. by rewrite andb_false_r.
  - intros z Hz. rewrite Hx in Hz. injection Hz as <-. cbn. by repeat split; try lia.
  - intros Ht. congruence.
Qed.

Lemma keep_returned : f p = InReturn (length (sleep_return_steps p (Some l))) ->
  minv ok l chan cond (s, <[p := Holding false]> f).
Proof.
  intros Hf. destruct at_pos as (x & Hx & Ha); [by rewrite Hf|]. rewrite Hf in Ha. cbn in Ha, Hf.
  apply step_pos; rewrite ?Hf; try done.
  - intros r. cbn. by rewrite andb_false_r.
  - intros z Hz. rewrite Hx in Hz. injection Hz as <-. apply Ha.
  - by apply reach_keep; rewrite ?Hf.
Qed.

Lemma keep_wakeup d : f p = Holding d -> minv ok l chan cond (s, <[p := InWakeup 0 0]> f).
Proof.
  intros Hf. destruct at_pos as (x & Hx & Ha); [by rewrite Hf|]. rewrite Hf in Ha. cbn in Ha.
  apply step_pos; rewrite ?Hf; try done.
  - intros r. cbn. by rewrite andb_false_r.
  - intros z Hz. rewrite Hx in Hz. injection Hz as <-. cbn. by repeat split; try lia.
  - apply reach_keep; rewrite ?Hf; try done. cbn. lia.
Qed.

Lemma keep_wakeup_next i : f p = InWakeup i (length (wakeup_visit chan i)) ->
  minv ok l chan cond (s, <[p := InWakeup (i + 1) 0]> f).
Proof.
  intros Hf. destruct at_pos as (x & Hx & Ha); [by rewrite Hf|]. rewrite Hf in Ha. cbn in Ha, Hf.
  destruct Ha as (Hs & Hi & _ & Hn). apply step_pos; rewrite ?Hf; try done.
  - intros r. cbn. by rewrite !andb_false_r.
  - intros z Hz. rewrite Hx in Hz. injection Hz as <-. cbn.
    assert (i <> NPROC) by (by intros ?%Hn). by repeat split; try lia.
  - apply reach_keep; rewrite ?Hf; try done. cbn. lia.
Qed.

Lemma keep_woken : f p = InWakeup NPROC 0 -> minv ok l chan cond (s, <[p := Holding false]> f).
Proof.
  intros Hf. destruct at_pos as (x & Hx & Ha); [by rewrite Hf|]. rewrite Hf in Ha. cbn in Ha.
  apply step_pos; rewrite ?Hf; try done.
  - intros r. cbn. by rewrite andb_false_r.
  - intros z Hz. rewrite Hx in Hz. injection Hz as <-. apply Ha.
  - apply reach_keep; rewrite ?Hf; try done. cbn. lia.
Qed.

(** The critical section: only the holder changes the condition. *)
Lemma keep_update d s' : f p = Holding d -> procs s' = procs s -> lget l s' = lget l s -> ok s' ->
  minv ok l chan cond (s', <[p := Holding (d || (negb (cond s) && cond s'))]> f).
Proof.
  intros Hf Hps Hlk Hok. destruct at_pos as (x & Hx & Ha); [by rewrite Hf|]. rewrite Hf in Ha. cbn in Ha.
  destruct held_by_p as [_ Hh]; [by rewrite Hf|]. destruct Hinv as [H1 H2 H3 H4 H5 H6 H7]. cbn [fst snd] in *.
  set (a := Holding _). constructor; cbn [fst snd].
  - done.
  - by rewrite Hps.
  - rewrite Hlk. apply (owned_keep p (fun t => holds (f t))); [intros t Ht; by rewrite insert_other| |done].
    by rewrite fn_lookup_insert, Hf.
  - intros r. replace (lget (proc_lk r) s') with (lget (proc_lk r) s) by (cbn; by rewrite Hps).
    apply (owned_keep p (fun t => claims r t (f t))); [intros t Ht; by rewrite insert_other| |done].
    by rewrite fn_lookup_insert, Hf.
  - intros t. rewrite Hps. destruct (decide (t = p)) as [->|Hne]; [by eexists|]. rewrite insert_other by done. apply H5.
  - intros t z. rewrite Hps. intros Hz. destruct (decide (t = p)) as [->|Hne].
    + rewrite fn_lookup_insert. rewrite Hx in Hz. by injection Hz as <-.
    + rewrite insert_other by done. specialize (H6 t z Hz). destruct (f t) as [| |k| | | |] eqn:Eft; try done.
      destruct H6 as (E1 & _ & E3). split; [exact E1|]. split; [|exact E3]. intros Hk. exfalso. apply Hne, Hh.
      rewrite Eft. unfold holds. apply Nat.ltb_lt. lia.
  - intros Ht q z. rewrite Hps. intros Hz Hq. destruct (decide (q = p)) as [->|Hne]; [by rewrite fn_lookup_insert in Hq|].
    rewrite insert_other in Hq by done. exists p. rewrite fn_lookup_insert. unfold a. cbn. rewrite Ht, andb_true_r.
    destruct (cond s) eqn:Ec; [|by rewrite orb_true_r]. destruct (H7 eq_refl q z Hz Hq) as [t Hpd].
    assert (t = p) as -> by (apply Hh; by destruct (f t)). rewrite Hf in Hpd. cbn in Hpd. by rewrite Hpd.
Qed.
End steps.

Section preserve_all.
Context {ok : kstate -> Prop} {l : lens kstate bool} {chan : Z} {cond : kstate -> bool}.
Hypotheses (Hl : other_lock ok l) (Hcp : forall m s, cond (set_procs m s) = cond s)
  (Hcl : forall b s, ok s -> cond (lset l b s) = cond s).

(** A process whose lock is free, changed by the rest of the kernel. *)
Lemma keep_changed s f p x y : minv ok l chan cond (s, f) -> procs s !! p = Some x -> p_lock x = false ->
  p_lock y = false -> at_ok chan (cond s) (f p) y -> (committed (f p) y -> committed (f p) x) ->
  minv ok l chan cond (pset p y s, f).
Proof.
  intros Hinv Hx Hlx Hly Ha Hc.
  apply (minv_pset ok l chan cond Hl Hcp s f f p Hinv (fun _ _ => eq_refl) (ex_intro _ x Hx) p x y Hx); try done.
  - apply (plocks_keep ok l chan cond s f f p Hinv (fun _ _ => eq_refl) p x); [done|congruence|done].
  - rewrite procs_pset, decide_True by done. by intros z [= <-].
  - intros Ht q z. rewrite procs_pset. case_decide as E; [|by eauto]. subst q. intros [= <-] Hq. split; [by eauto|done].
Qed.

Lemma mstep_inv m m' : minv ok l chan cond m -> mstep ok l chan cond m m' -> minv ok l chan cond m'.
Proof.
  intros Hinv Hst. destruct Hst.
  - by eapply keep_acquire.
  - by eapply keep_update.
  - by eapply keep_release.
  - by eapply keep_sleep.
  - by eapply keep_sleep_step.
  - by eapply keep_switch.
  - by eapply keep_visit.
  - by eapply keep_pass.
  - by eapply keep_run.
  - by eapply keep_return_step.
  - by eapply keep_returned.
  - by eapply keep_wakeup.
  - by eapply keep_wakeup_step.
  - by eapply keep_wakeup_next.
  - by eapply keep_woken.
  - eapply keep_changed; try done; [by rewrite H|by rewrite H].
  - assert (Ha : at_ok chan (cond s) (f p) x) by (by apply (mi_at _ _ _ _ _ Hinv)).
    pose proof (mi_plock _ _ _ _ _ Hinv p) as Hfree. cbn [fst snd] in Hfree. rewrite (proc_lk_get s p x H), H0 in Hfree.
    eapply keep_changed; [done|done|done|by destruct x| |].
    + specialize (Hfree p). unfold claims in Hfree. destruct (f p) as [| |k| | |k|i k]; cbn in Ha |- *; try done; try congruence.
      * rewrite Z.eqb_refl in Hfree. destruct k as [|k]; [|done]. destruct Ha as (_ & _ & _ & Ha). cbn in Ha. congruence.
      * destruct Ha as [? _]. by split; [|right].
      * by rewrite Z.eqb_refl in Hfree.
      * destruct Ha. congruence.
      * destruct Ha. congruence.
    + by destruct (f p).
  - destruct Hinv as [I1 I2 I3 I4 I5 I6 I7]. cbn [fst snd] in *. constructor; cbn [fst snd]; try done.
    + by rewrite H.
    + by rewrite H0.
    + intros q. replace (lget (proc_lk q) s') with (lget (proc_lk q) s) by (cbn; by rewrite H). apply I4.
    + by rewrite H.
    + rewrite H, H2. done.
    + rewrite H, H2. done.
Qed.
Lemma msteps_inv m m' : rtc (mstep ok l chan cond) m m' -> minv ok l chan cond m -> minv ok l chan cond m'.
Proof. induction 1 as [|x y z Hxy _ IH]; [done|]. intros H. by eapply IH, mstep_inv. Qed.
End preserve_all.

(** ** No wakeup is lost *)

(** C21: [sleep] and [wakeup] lose no wakeup.  However their statements, those of
    the scheduler and the rest of the kernel interleave: when the lock is free and
    the condition is true, no process sleeps on the channel or is on its way into
    [sleep]; while [wakeup] is at work, none that it has visited sleeps; whoever is
    back from [sleep] holds the lock, alone; and a process on its way into [sleep]
    past the first statement is never stopped, so that [wakeup], which needs its
    lock, is not either. *)
Theorem no_lost_wakeup ok l chan cond s0 s f :
  other_lock ok l -> (forall m s, cond (set_procs m s) = cond s) -> (forall b s, ok s -> cond (lset l b s) = cond s) ->
  ok s0 -> procs_ok s0 -> lget l s0 = false ->
  (forall p x, procs s0 !! p = Some x -> p_state x = SLEEPING -> p_chan x <> chan) ->
  rtc (mstep ok l chan cond) (s0, fun _ => Away) (s, f) ->
  let sleeps q := exists x, procs s !! q = Some x /\ p_state x = SLEEPING /\ p_chan x = chan in
  (lget l s = false -> cond s = true -> forall q, ~ sleeps q /\ forall k, f q <> InSleep k) /\
  (forall t i k q, f t = InWakeup i k -> cond s = true -> q < i -> ~ sleeps q) /\
  (forall p d, f p = Holding d -> lget l s = true /\ forall t, holds (f t) = true -> t = p) /\
  (forall p k, f p = InSleep (S k) -> exists s' a, mstep ok l chan cond (s, f) (s', <[p := a]> f)).
Proof.
  intros Hl Hcp Hcl Hok [Hd Hf] Hfree Hns Hr sleeps.
  assert (Hinv : minv ok l chan cond (s, f)).
  { apply (msteps_inv Hl Hcp Hcl) in Hr; [exact Hr|]. constructor; cbn [fst snd]; try done.
    - by rewrite Hfree.
    - intros q. cbn. destruct (procs s0 !! q) as [x|] eqn:Hx; [|done]. cbn. by rewrite (Hf q x Hx). }
  assert (Hcom : forall q, sleeps q -> exists x, procs s !! q = Some x /\ committed (f q) x).
  { intros q (x & Hx & Hs & Hch). exists x. split; [done|]. pose proof (mi_at _ _ _ _ _ Hinv q x Hx) as Ha.
    cbn [fst snd] in Ha. destruct (f q) as [| |k| | |k|i k]; cbn [at_ok committed] in Ha |- *; try done.
    - by apply (Ha Hs).
    - congruence.
    - destruct Ha as (_ & _ & _ & Ha). destruct (Nat.eqb_spec k 4); [lia|congruence].
    - destruct Ha; congruence.
    - destruct Ha; congruence. }
  assert (Hwake : cond s = true -> forall q x, procs s !! q = Some x -> committed (f q) x ->
    exists t, holds (f t) = true /\ pending q (f t)).
  { intros Ht q x Hx Hq. destruct (mi_wake _ _ _ _ _ Hinv Ht q x Hx Hq) as [t Hp]. exists t. cbn in Hp.
    split; [by destruct (f t)|done]. }
  assert (Hno : lget l s = false -> forall t, holds (f t) = false).
  { intros Hlf. pose proof (mi_lock _ _ _ _ _ Hinv) as H. cbn [fst snd] in H. by rewrite Hlf in H. }
  split; [|split; [|split]].
  - intros Hlf Ht q. split.
    + intros (x & Hx & Hq)%Hcom. destruct (Hwake Ht q x Hx Hq) as (t & Hh & _). by rewrite Hno in Hh.
    + intros k Hk. destruct (decide (k < 2)%nat) as [Hk2|Hk2].
      * pose proof (Hno Hlf q) as H. rewrite Hk in H. unfold holds in H. apply Nat.ltb_ge in H. lia.
      * destruct (mi_pos _ _ _ _ _ Hinv q) as [x Hx]; [cbn; by rewrite Hk|]. cbn [fst] in Hx.
        destruct (Hwake Ht q x Hx) as (t & Hh & _); [rewrite Hk; cbn; lia|]. by rewrite Hno in Hh.
  - intros t i k q Ht Hc Hqi (x & Hx & Hq)%Hcom. destruct (Hwake Hc q x Hx Hq) as (t' & Hh & Hp).
    destruct (owned_held _ _ t (mi_lock _ _ _ _ _ Hinv)) as [_ Hu]; [cbn; by rewrite Ht|].
    apply Hu in Hh as ->. rewrite Ht in Hp. cbn in Hp. lia.
  - intros p d Hp. apply (owned_held _ _ p (mi_lock _ _ _ _ _ Hinv)). cbn. by rewrite Hp.
  - intros p k Hp. destruct (mi_pos _ _ _ _ _ Hinv p) as [x Hx]; [cbn; by rewrite Hp|]. cbn [fst] in Hx.
    pose proof (mi_at _ _ _ _ _ Hinv p x Hx) as Ha. cbn [fst snd] in Ha. rewrite Hp in Ha. destruct Ha as [Hk _].
    assert (Hu : forall g, pupd p g s = Ret tt (pset p (g x) s)).
    { intros g. unfold pupd, proc_at, bind, gets, of_option. by rewrite Hx. }
    destruct k as [|[|[|[|k]]]]; [..|lia].
    + exists (lset l false s), (InSleep 2). eapply m_sleep_step; [exact Hp|reflexivity|].
      destruct (owned_held _ _ p (mi_lock _ _ _ _ _ Hinv)) as [Hlk _]; [cbn; by rewrite Hp|]. cbn [fst] in Hlk.
      unfold spin_release, bind, gets, modify. by rewrite Hlk.
    + do 2 eexists. eapply m_sleep_step; [exact Hp|reflexivity|apply Hu].
    + do 2 eexists. eapply m_sleep_step; [exact Hp|reflexivity|apply Hu].
    + do 2 eexists. eapply m_switch; [exact Hp|]. apply (proc_release s p x Hx).
      rewrite <- (proc_lk_get s p x Hx). eapply (owned_held _ _ p (mi_plock _ _ _ _ _ Hinv p)).
      cbn. rewrite Hp. cbn. by rewrite Z.eqb_refl.
Qed.

(** ** An instance: the clock *)

Lemma ticks_other : other_lock (fun _ => True) ticks_lk.
Proof. by constructor. Qed.
(** What [sys_sleep(1)] of a process that starts at tick 0 waits for. *)
Definition ticked (s : kstate) : bool := 1 <=? ticks s.
Abbreviation tick_step := (mstep (fun _ => True) ticks_lk TICKS_CHAN ticked).

Lemma pset_run s p g x : procs s !! p = Some x -> pupd p g s = Ret tt (pset p (g x) s).
Proof. intros Hx. unfold pupd, proc_at, bind, gets, of_option. by rewrite Hx. Qed.

(** [p] tests the condition and goes to sleep. *)
Lemma falls_asleep s f p x : f p = Away -> procs s !! p = Some x -> p_state x = RUNNING -> p_lock x = false ->
  tickslock s = false -> ticks s = 0 -> exists f', rtc tick_step (s, f) (pset p (asleep TICKS_CHAN x) s, f') /\
    f' p = Parked /\ forall t, t <> p -> f' t = f t.
Proof.
  intros Hf Hx Hs Hlk Ht Hn. exists (<[p := Parked]> (<[p := InSleep 4]> (<[p := InSleep 3]> (<[p := InSleep 2]>
    (<[p := InSleep 1]> (<[p := InSleep 0]> (<[p := Holding false]> f))))))).
  split; [|split; [apply fn_lookup_insert|intros t Hne; by rewrite !fn_lookup_insert_ne]].
  eapply rtc_l; [apply (m_acquire _ _ _ _ p x s f (set_tickslock true s)); [done..|]|].
  { unfold spin_acquire, bind, gets, modify. cbn. by rewrite Ht. }
  eapply rtc_l; [eapply m_sleep; [apply fn_lookup_insert|unfold ticked; cbn; by rewrite Hn]|].
  eapply rtc_l; [eapply m_sleep_step; [apply fn_lookup_insert|reflexivity|apply proc_acquire; [exact Hx|done]]|].
  eapply rtc_l; [eapply m_sleep_step; [apply fn_lookup_insert|reflexivity|reflexivity]|].
  eapply rtc_l; [eapply m_sleep_step; [apply fn_lookup_insert|reflexivity|apply pset_run, lookup_insert_eq]|].
  eapply rtc_l; [eapply m_sleep_step; [apply fn_lookup_insert|reflexivity|apply pset_run, lookup_insert_eq]|].
  apply rtc_once. eapply m_switch; [apply fn_lookup_insert|].
  erewrite proc_release; [|apply lookup_insert_eq|done]. f_equal. unfold pset, set_procs. cbn.
  rewrite !insert_insert_eq. rewrite Ht. do 3 f_equal. by destruct x; cbn in *; subst.
Qed.

(** [wakeup] from process [i] on, while nobody else moves. *)
Lemma wakes_all n p s f : f p = InWakeup (NPROC - Z.of_nat n) 0 -> (Z.of_nat n <= NPROC) ->
  procs_ok s -> exists s' f', rtc tick_step (s, f) (s', f') /\ f' p = InWakeup NPROC 0 /\
    (forall t, t <> p -> f' t = f t) /\ tickslock s' = tickslock s /\ ticks s' = ticks s /\ procs_ok s'.
Proof.
  revert s f. induction n as [|n IH]; intros s f Hf Hn Hok.
  { exists s, f. split; [apply rtc_refl|]. rewrite Z.sub_0_r in Hf. done. }
  set (i := NPROC - Z.of_nat (S n)) in *. destruct (proj2 (proj1 Hok i)) as [x Hx]; [lia|].
  assert (Hlk : p_lock x = false) by (by apply (proj2 Hok i)).
  set (f1 := <[p := InWakeup (i + 1) 0]> (<[p := InWakeup i 3]> (<[p := InWakeup i 2]> (<[p := InWakeup i 1]> f)))).
  assert (Hsteps : rtc tick_step (s, f) (pset i (wake TICKS_CHAN x) s, f1)).
  { eapply rtc_l; [eapply m_wakeup_step; [exact Hf|lia|reflexivity|by apply proc_acquire]|].
    eapply rtc_l; [eapply m_wakeup_step; [apply fn_lookup_insert|lia|reflexivity|apply pset_run, lookup_insert_eq]|].
    eapply rtc_l; [eapply m_wakeup_step; [apply fn_lookup_insert|lia|reflexivity|]|].
    { apply proc_release; [apply lookup_insert_eq|by rewrite wake_lock]. }
    rewrite !pset_pset, wake_unlock by done. apply rtc_once, m_wakeup_next, fn_lookup_insert. }
  destruct (IH (pset i (wake TICKS_CHAN x) s) f1) as (s' & f' & Hr & Hp & Ho & E1 & E2 & Hok').
  { unfold f1. rewrite fn_lookup_insert. f_equal. lia. }
  { lia. }
  { split; intros j; rewrite procs_pset; case_decide as E; subst; try apply Hok.
    - split; [intros _; lia|by eexists].
    - intros y [= <-]. by rewrite wake_lock. }
  exists s', f'. split; [by etrans|]. split; [done|]. split; [|done].
  intros t Ht. rewrite Ho by done. unfold f1. by rewrite !fn_lookup_insert_ne.
Qed.

(** Process 5 sleeps; the clock interrupt on the CPU of process 6 counts and wakes. *)
Definition w_running : proc := set_p_state RUNNING bss_proc.
Definition w_clock : kstate := pset 6 w_running (pset 5 w_running (kernel_boot ∅ small_boot 5)).

Lemma w_procs_ok : procs_ok w_clock.
Proof. do 2 (apply procs_ok_pset; [|unfold NPROC; lia|done]). by apply boot_procs_ok. Qed.

Lemma no_lost_wakeup_witness : exists s f, rtc tick_step (w_clock, fun _ => Away) (s, f) /\
  ticked s = true /\ tickslock s = false /\ f 5 = Parked /\
  ~ (exists x, procs s !! 5 = Some x /\ p_state x = SLEEPING /\ p_chan x = TICKS_CHAN).
Proof.
  assert (H5 : procs w_clock !! 5 = Some w_running) by reflexivity.
  assert (H6 : procs w_clock !! 6 = Some w_running) by reflexivity.
  destruct (falls_asleep w_clock (fun _ => Away) 5 w_running) as (f1 & R1 & P5 & O1); try done.
  set (s1 := pset 5 (asleep TICKS_CHAN w_running) w_clock) in *.
  set (s2 := set_ticks 1 (set_tickslock true s1)).
  set (f2 := <[6 := InWakeup 0 0]> (<[6 := Holding true]> (<[6 := Holding false]> f1))).
  assert (R2 : rtc tick_step (s1, f1) (s2, f2)).
  { eapply rtc_l; [apply (m_acquire _ _ _ _ 6 w_running s1 f1 (set_tickslock true s1)); [by rewrite O1|reflexivity..]|].
    eapply rtc_l; [apply (m_update _ _ _ _ 6 false _ _ s2); [apply fn_lookup_insert|done..]|].
    apply rtc_once. eapply m_wakeup. apply fn_lookup_insert. }
  destruct (wakes_all 64 6 s2 f2) as (s3 & f3 & R3 & P6 & O3 & E1 & E2 & _); [apply fn_lookup_insert|done| |].
  { destruct w_procs_ok as [W1 W2]. split; intros i; change (procs s2) with (procs s1); unfold s1; rewrite procs_pset;
      case_decide as E; subst; [split; [intros _; unfold NPROC; lia|by eexists]|apply W1|by intros x [= <-]|apply W2]. }
  set (s4 := set_tickslock false s3). set (f4 := <[6 := Away]> (<[6 := Holding false]> f3)).
  assert (R4 : rtc tick_step (s3, f3) (s4, f4)).
  { eapply rtc_l; [by apply m_woken|]. apply rtc_once. eapply m_release; [apply fn_lookup_insert|done|].
    unfold spin_release, bind, gets, modify. cbn. by rewrite E1. }
  assert (R : rtc tick_step (w_clock, fun _ => Away) (s4, f4)) by (etrans; [exact R1|]; etrans; [exact R2|]; by etrans).
  exists s4, f4. split; [exact R|]. split; [unfold ticked, s4; cbn; by rewrite E2|]. split; [done|].
  split; [unfold f4; rewrite !fn_lookup_insert_ne, O3 by done; unfold f2; by rewrite !fn_lookup_insert_ne|].
  destruct (no_lost_wakeup (fun _ => True) ticks_lk TICKS_CHAN ticked w_clock s4 f4) as [H _];
    [exact ticks_other|done|done|done|exact w_procs_ok|done| |exact R|].
  - intros p x. unfold w_clock. rewrite !procs_pset. repeat case_decide; [by intros [= <-]..|].
    change (procs _) with (table NPROC bss_proc). by intros [_ ->]%lookup_table_inv.
  - apply (H eq_refl); unfold ticked, s4; cbn; by rewrite E2.
Defined.
