(* ===== verification/Pipes.v ===== *)
(** Pipes are queues, pipe.c: what [pipewrite] and [piperead] do, from a call or
    from where [sleep] returned, until they return or sleep. *)
From S2P Require Import Prelude Bytes Locks Kalloc Vm Umem Bio Log Kernel Fs File Proc Txn Wakeup.

(** ** The ring *)

(** The bytes in the pipe, the oldest first. *)
Record pipe_rep (x : pipe) (q : list Z) : Prop := {
  pr_data : length (pi_data x) = Z.to_nat PIPESIZE;
  pr_nread : 0 <= pi_nread x < 2 ^ 32;
  pr_size : Z.of_nat (length q) <= PIPESIZE;
  pr_nwrite : pi_nwrite x = u32 (pi_nread x + Z.of_nat (length q));
  pr_bytes : forall i c, q !! i = Some c ->
    pi_data x !! Z.to_nat ((pi_nread x + Z.of_nat i) mod PIPESIZE) = Some c;
  pr_range : Forall (fun c => 0 <= c < 256) q
}.

Lemma u32_mod_pipe x : u32 x mod PIPESIZE = x mod PIPESIZE.
Proof.
  unfold u32, PIPESIZE. change (2 ^ 32) with (512 * 2 ^ 23).
  rewrite Z.rem_mul_r by lia. rewrite (Z.mul_comm 512), Z.mod_add by lia. by rewrite Z.mod_mod.
Qed.

Lemma mod_pipe_inj a i j :
  0 <= i < PIPESIZE -> 0 <= j < PIPESIZE -> (a + i) mod PIPESIZE = (a + j) mod PIPESIZE -> i = j.
Proof. unfold PIPESIZE. intros. zlia. Qed.

Lemma pipe_full_spec x q :
  pipe_rep x q -> pipe_full x = bool_decide (Z.of_nat (length q) = PIPESIZE).
Proof.
  intros [H1 H2 H3 H4 H5 H6]. unfold pipe_full. rewrite H4. unfold PIPESIZE, u32 in *.
  destruct (bool_decide_reflect (Z.of_nat (length q) = 512)) as [->|Hne]; [apply Z.eqb_refl|].
  apply Z.eqb_neq. intros Heq. apply Hne. zlia.
Qed.

Lemma pipe_empty_spec x q : pipe_rep x q -> pipe_empty x = bool_decide (q = []).
Proof.
  intros [H1 H2 H3 H4 H5 H6]. unfold pipe_empty. rewrite H4. unfold PIPESIZE, u32 in *.
  destruct q as [|c q]; simpl.
  - rewrite Z.add_0_r, Z.mod_small by done. apply Z.eqb_refl.
  - apply Z.eqb_neq. simpl in H3. zlia.
Qed.

Lemma pipe_put_rep x q c : 0 <= c < 256 ->
  pipe_rep x q -> Z.of_nat (length q) < PIPESIZE -> pipe_rep (pipe_put c x) (q ++ [c]).
Proof.
  intros Hc [H1 H2 H3 H4 H5 H6] Hlt. unfold pipe_put.
  assert (Hidx : pi_nwrite x mod PIPESIZE = (pi_nread x + Z.of_nat (length q)) mod PIPESIZE)
    by (rewrite H4; apply u32_mod_pipe).
  assert (Hb : 0 <= pi_nwrite x mod PIPESIZE < PIPESIZE) by (apply Z.mod_pos_bound; done).
  constructor; cbn [pi_data pi_nread pi_nwrite set_pi_nwrite set_pi_data].
  - by rewrite length_insert.
  - done.
  - rewrite length_app. simpl. lia.
  - rewrite H4, u32_add_u32, length_app. simpl. f_equal. lia.
  - intros i d Hi. apply lookup_app_Some in Hi as [Hi|[Hge Hi]].
    + pose proof (lookup_lt_Some _ _ _ Hi). rewrite list_lookup_insert_ne; [by apply H5|].
      rewrite Hidx. intros Heq. apply Z2Nat.inj in Heq; [|rewrite <- Hidx; lia|
        apply Z.mod_pos_bound; done]. apply mod_pipe_inj in Heq; lia.
    + destruct (i - length q)%nat as [|k] eqn:Hk; [|by destruct k].
      assert (i = length q) as -> by lia. injection Hi as ->. rewrite Hidx.
      apply list_lookup_insert_eq. rewrite H1, <- Hidx. lia.
  - apply Forall_app. by split; [|constructor].
Qed.

Lemma pipe_get_rep x c q :
  pipe_rep x (c :: q) -> (pipe_get x).1 = c /\ pipe_rep (pipe_get x).2 q.
Proof.
  intros [H1 H2 H3 H4 H5 H6]. simpl in H3, H4. unfold pipe_get. cbn [fst snd]. split.
  - specialize (H5 O c eq_refl). rewrite Z.add_0_r in H5. by rewrite H5.
  - constructor; cbn [pi_data pi_nread pi_nwrite set_pi_nread]; try done.
    + apply u32_range.
    + lia.
    + rewrite H4, u32_add_u32. f_equal. lia.
    + intros i d Hi. specialize (H5 (S i) d Hi).
      rewrite <- H5. f_equal. f_equal.
      rewrite <- (u32_mod_pipe (u32 (pi_nread x + 1) + Z.of_nat i)), u32_add_u32, u32_mod_pipe.
      f_equal. lia.
    + by apply list.Forall_cons in H6 as [_ H6].
Qed.

(** ** The state *)

Definition set_pipe (pi : Z) (y : pipe) (s : kstate) : kstate := set_pipes (<[pi := y]> (pipes s)) s.

Lemma set_pipe_twice pi y y' s : set_pipe pi y (set_pipe pi y' s) = set_pipe pi y s.
Proof. unfold set_pipe, set_pipes. cbn. by rewrite insert_insert_eq. Qed.
Lemma set_pipe_id pi y s : pipes s !! pi = Some y -> set_pipe pi y s = s.
Proof. intros H. unfold set_pipe, set_pipes. rewrite insert_id by done. by destruct s. Qed.
Lemma pipes_set_pipe pi y s : pipes (set_pipe pi y s) !! pi = Some y.
Proof. apply lookup_insert_eq. Qed.

Lemma wp_pipe_at s pi y (Q : pipe -> kstate -> Prop) : pipes s !! pi = Some y -> Q y s -> wp (pipe_at pi) s Q.
Proof. intros H HQ. apply wp_eq with y s; [|done]. unfold pipe_at, bind, gets, of_option. by rewrite H. Qed.
Lemma wp_piupd s pi y g (Q : unit -> kstate -> Prop) : pipes s !! pi = Some y ->
  Q tt (set_pipe pi (g y) s) -> wp (piupd pi g) s Q.
Proof. intros H HQ. unfold piupd. apply wp_bind. eapply wp_pipe_at; [done|]. by apply wp_modify. Qed.

Lemma pipe_lk_set s pi y b : pipes s !! pi = Some y -> lset (pipe_lk pi) b s = set_pipe pi (set_pi_lock b y) s.
Proof.
  intros H. cbn. unfold set_pipe. f_equal. apply map_eq. intros j. destruct (decide (j = pi)) as [->|Hne].
  - by rewrite lookup_alter_eq, lookup_insert_eq, H.
  - by rewrite lookup_alter_ne, lookup_insert_ne.
Qed.
Lemma wp_pipe_release s pi y (Q : unit -> kstate -> Prop) : pipes s !! pi = Some y -> pi_lock y = true ->
  Q tt (set_pipe pi (set_pi_lock false y) s) -> wp (spin_release (pipe_lk pi)) s Q.
Proof.
  intros H Hl HQ. unfold spin_release. apply wp_bind, wp_gets. cbn [pipe_lk lget]. rewrite H. cbn [from_option].
  rewrite Hl. apply wp_modify. change (Q tt (lset (pipe_lk pi) false s)). by rewrite (pipe_lk_set s pi y).
Qed.
Lemma wp_pipe_acquire s pi y (Q : unit -> kstate -> Prop) : pipes s !! pi = Some y -> pi_lock y = false ->
  Q tt (set_pipe pi (set_pi_lock true y) s) -> wp (spin_acquire (pipe_lk pi)) s Q.
Proof.
  intros H Hl HQ. unfold spin_acquire. apply wp_bind, wp_gets. cbn [pipe_lk lget]. rewrite H. cbn [from_option].
  rewrite Hl. apply wp_modify. change (Q tt (lset (pipe_lk pi) true s)). by rewrite (pipe_lk_set s pi y).
Qed.

(** [sleep] with the lock of the pipe. *)
Lemma wps_pipe_sleep {A} s pi y chan p x (Q : A -> kstate -> Prop) (R : kstate -> Prop) :
  pipes s !! pi = Some y -> pi_lock y = true -> cur s = p -> procs s !! p = Some x -> p_lock x = false ->
  R (pset p (set_p_lock true (asleep chan x)) (set_pipe pi (set_pi_lock false y) s)) ->
  wps (sleep chan (Some (pipe_lk pi))) s Q R.
Proof.
  intros Hy Hly Hc Hx Hlx HR. unfold sleep, myproc. apply wps_bind_wp, wp_gets. rewrite Hc.
  apply wps_bind_wp. unfold run_steps, sleep_steps. cbn [app for_all].
  apply wp_bind. eapply wp_proc_acquire; [done|done|]. apply wp_bind. eapply wp_pipe_release; [done|done|].
  apply wp_bind. eapply wp_pupd; [apply lookup_insert_eq|]. apply wp_bind. eapply wp_pupd; [apply lookup_insert_eq|].
  apply wp_ret. unfold sched, myproc. apply wps_bind_wp, wp_gets. cbn [cur pset set_procs set_pipe set_pipes]. rewrite Hc.
  apply wps_bind_wp. eapply wp_proc_at; [apply lookup_insert_eq|].
  match goal with |- wps _ ?u _ _ => replace u with
    (pset p (set_p_lock true (asleep chan x)) (set_pipe pi (set_pi_lock false y) s)) end; [exact HR|].
  unfold pset, set_pipe, set_procs, set_pipes. cbn. by rewrite !insert_insert_eq.
Qed.

(** ** [pipewrite] *)

Section calls.
Context `{Linker}.
Context (Hkend : KERNBASE <= kend <= PHYSTOP).
Variables (pi p addr : Z) (x : proc) (l : list Z).
Notation pt := (p_pagetable x).

(** The process that calls. *)
Record caller (s : kstate) : Prop := {
  ca_cur : cur s = p;
  ca_proc : procs s !! p = Some x;
  ca_runs : p_state x = RUNNING;
  ca_procs : procs_ok s;
  ca_user : user_ok (mem s) pt l
}.

Lemma caller_set_pipe y s : caller s -> caller (set_pipe pi y s).
Proof. by intros [H1 H2 H3 H4 H5]. Qed.
Lemma caller_wake c s : caller s -> procs (set_procs (wake c <$> procs s) s) !! p = Some x.
Proof. intros [_ H2 H3 _ _]. cbn. rewrite lookup_fmap, H2. unfold wake. cbn. by rewrite H3. Qed.

Lemma wp_my_pagetable s Q : caller s -> Q pt s -> wp my_pagetable s Q.
Proof.
  intros Hca HQ. unfold my_pagetable, myproc. apply wp_bind, wp_gets. rewrite (ca_cur _ Hca).
  apply wp_bind. eapply wp_proc_at; [apply Hca|]. by apply wp_ret.
Qed.
Lemma wp_my_killed s Q : caller s -> Q (p_killed x) s -> wp my_killed s Q.
Proof.
  intros Hca HQ. unfold my_killed, myproc. apply wp_bind, wp_gets. rewrite (ca_cur _ Hca).
  apply wp_bind. eapply wp_proc_at; [apply Hca|]. by apply wp_ret.
Qed.

Lemma umem_byte s r v b : umem s r v = Some b -> 0 <= b < 256.
Proof. unfold umem. destruct (_ =? 0); [done|]. apply byte_range. Qed.

(** [bs] are the bytes of the caller from [a] on. *)
Definition sent (s : kstate) (a : Z) (bs : list Z) : Prop :=
  forall j, 0 <= j < Z.of_nat (length bs) -> umem (mem s) pt (a + j) = bs !! Z.to_nat j.

Lemma sent_nil s a : sent s a [].
Proof. intros j Hj. simpl in Hj. lia. Qed.
Lemma sent_cons s a c bs : umem (mem s) pt a = Some c -> sent s (a + 1) bs -> sent s a (c :: bs).
Proof.
  intros Hc Hs j Hj. simpl in Hj. destruct (decide (j = 0)) as [->|Hne]; [by rewrite Z.add_0_r|].
  replace (Z.to_nat j) with (S (Z.to_nat (j - 1))) by lia. simpl. rewrite <- Hs by lia. f_equal. lia.
Qed.

(** The state in which the writer sleeps: the readers are awake, its lock is the
    scheduler's. *)
Definition writer_asleep (y : pipe) (s : kstate) : kstate :=
  pset p (set_p_lock true (asleep (nwrite_chan pi) x))
    (set_procs (wake (nread_chan pi) <$> procs s) (set_pipe pi y s)).

(** What the loop of [pipewrite] gives after at most [k] bytes: the bytes [bs] have
    been appended to [q]. *)
Definition wrote (s : kstate) (y : pipe) (q : list Z) (i k : Z) (bs : list Z) (y' : pipe) : Prop :=
  sent s (addr + i) bs /\ pipe_rep y' (q ++ bs) /\ Z.of_nat (length bs) <= k /\
  pi_readopen y' = pi_readopen y /\ pi_writeopen y' = pi_writeopen y /\ pi_lock y' = true.
Definition full (q bs : list Z) : Prop := Z.of_nat (length (q ++ bs)) = PIPESIZE.

Lemma wrote_cons s y q i k bs y' c : wrote s (pipe_put c y) (q ++ [c]) (i + 1) k bs y' ->
  umem (mem s) pt (addr + i) = Some c -> wrote s y q i (k + 1) (c :: bs) y'.
Proof.
  intros (H1 & H2 & H3 & H4 & H5 & H6) Hc. rewrite <- (assoc_L (++)) in H2. split; [|split; [done|]].
  - apply sent_cons; [done|]. by replace (addr + i + 1) with (addr + (i + 1)) by lia.
  - split; [simpl; lia|done].
Qed.
Lemma full_cons q c bs : full (q ++ [c]) bs <-> full q (c :: bs).
Proof. unfold full. by rewrite <- (assoc_L (++)). Qed.

Lemma pipewrite_iter k : forall i y q s, caller s -> pipes s !! pi = Some y -> pi_lock y = true -> pipe_rep y q ->
  0 <= addr -> 0 <= i -> addr + i + Z.of_nat k < 2 ^ 63 ->
  wps (for_each (seqZ i (Z.of_nat k)) (fun i =>
    let! x := pipe_at pi in
    let! killed := my_killed in
    if pipe_full x then
      if negb (pi_readopen x) || killed then
        spin_release (pipe_lk pi) ;;; ret (Some (inl (-1)))
      else
        wakeup (nread_chan pi) ;;;
        sleep (nwrite_chan pi) (Some (pipe_lk pi))
    else
      let! '(r, ch) := in_mem (copyin pt (u64 (addr + i)) 1) in
      if r =? -1 then ret (Some (inr i)) else
      piupd pi (pipe_put (hd 0 ch)) ;;;
      ret None)) s
  (fun r s' => exists bs y', wrote s y q i (Z.of_nat k) bs y' /\
    match r with
    | None => Z.of_nat (length bs) = Z.of_nat k /\ s' = set_pipe pi y' s
    | Some (inr j) => j = i + Z.of_nat (length bs) /\ Z.of_nat (length bs) < Z.of_nat k /\ ~ full q bs /\
        umem (mem s) pt (addr + j) = None /\ s' = set_pipe pi y' s
    | Some (inl v) => v = -1 /\ Z.of_nat (length bs) < Z.of_nat k /\ full q bs /\
        negb (pi_readopen y) || p_killed x = true /\ s' = set_pipe pi (set_pi_lock false y') s
    end)
  (fun s' => exists bs y', wrote s y q i (Z.of_nat k) bs y' /\ Z.of_nat (length bs) < Z.of_nat k /\ full q bs /\
    negb (pi_readopen y) || p_killed x = false /\ s' = writer_asleep (set_pi_lock false y') s).
Proof.
  induction k as [|k IH]; intros i y q s Hca Hy Hly Hrep Haddr Hi Hend.
  { exists [], y. rewrite set_pipe_id by done. split; [|done]. split; [apply sent_nil|].
    rewrite app_nil_r. by split_and!. }
  assert (Hw0 : wrote s y q i (Z.of_nat (S k)) [] y).
  { split; [apply sent_nil|]. rewrite app_nil_r. split_and!; [done|apply Nat2Z.is_nonneg|done..]. }
  rewrite seqZ_cons by lia. cbn [for_each]. apply wps_bind. apply wps_bind_wp. eapply wp_pipe_at; [exact Hy|].
  apply wps_bind_wp. apply wp_my_killed; [done|]. rewrite (pipe_full_spec y q Hrep).
  destruct (bool_decide_reflect (Z.of_nat (length q) = PIPESIZE)) as [Hfull|Hroom].
  - assert (Hf : full q []) by (unfold full; by rewrite app_nil_r).
    destruct (negb (pi_readopen y) || p_killed x) eqn:Hgo.
    + apply wps_bind_wp. eapply wp_pipe_release; [exact Hy|done|]. apply wps_wp, wp_ret, wp_ret.
      exists [], y. split; [done|]. split_and!; [done|cbn [length]; lia|done..].
    + apply wps_bind_wp. apply wakeup_spec; [apply Hca|].
      eapply wps_pipe_sleep; [exact Hy|done|apply Hca|by apply caller_wake|by eapply (ca_procs _ Hca); apply Hca|].
      exists [], y. split; [done|]. split_and!; [cbn [length]; lia|done..].
  - apply wps_bind_wp. apply wp_zoom. unfold u64. rewrite Z.mod_small by lia.
    destruct (copyin_correct Hkend (mem s) pt l (addr + i) 1 (ca_user _ Hca)) as (res & ch & E & Hch & Hres); [lia|lia|].
    eapply wp_eq; [exact E|]. cbv beta.
    replace (set_mem (mem s) s) with s by (by destruct s).
    destruct Hres as [(-> & Hl)|(-> & Hl & Hnone)].
    + destruct ch as [|c [|? ?]]; [simpl in Hl; lia| |simpl in Hl; lia].
      specialize (Hch 0 ltac:(simpl; lia)). rewrite Z.add_0_r in Hch. simpl in Hch.
      pose proof (umem_byte _ _ _ _ Hch) as Hc.
      change (0 =? -1) with false. cbv iota. apply wps_bind_wp. eapply wp_piupd; [exact Hy|].
      apply wps_wp, wp_ret. cbn [hd].
      replace (Z.succ i) with (i + 1) by lia. replace (Z.pred (Z.of_nat (S k))) with (Z.of_nat k) by lia.
      assert (Hlen : Z.of_nat (length q) < PIPESIZE) by (pose proof (pr_size _ _ Hrep); lia).
      replace (Z.of_nat (S k)) with (Z.of_nat k + 1) by lia.
      eapply wps_mono; [apply (IH (i + 1) (pipe_put c y) (q ++ [c]))|..].
      * by apply caller_set_pipe.
      * apply pipes_set_pipe.
      * done.
      * by apply pipe_put_rep.
      * done.
      * lia.
      * lia.
      * intros r s' (bs & y' & Hw & Hr). exists (c :: bs), y'. split; [by apply wrote_cons|].
        destruct r as [[v|j]|]; rewrite set_pipe_twice in Hr; cbn [length].
        -- destruct Hr as (-> & Hlt & Hf & Hgo & ->). rewrite full_cons in Hf. split_and!; [done|lia|done..].
        -- destruct Hr as (-> & Hlt & Hf & Hno & ->). rewrite full_cons in Hf.
           split_and!; [lia|lia|done| |done]. by rewrite <- Hno at 1.
        -- destruct Hr as (Hlt & ->). split; [lia|done].
      * intros s' (bs & y' & Hw & Hlt & Hf & Hgo & ->). exists (c :: bs), y'. rewrite full_cons in Hf.
        split; [by apply wrote_cons|]. cbn [length]. split_and!; [lia|done|done|].
        unfold writer_asleep. cbn. by rewrite set_pipe_twice.
    + assert (ch = []) as -> by (destruct ch; [done|simpl in Hl; lia]). cbn [length] in *. rewrite Z.add_0_r in Hnone.
      change (-1 =? -1) with true. cbv iota. apply wps_wp, wp_ret, wp_ret.
      exists [], y. rewrite set_pipe_id by done. split; [done|]. cbn [length].
      split_and!; [lia|lia|unfold full; by rewrite app_nil_r|done|done].
Qed.

(** ** Theorem for [pipewrite] *)

(** What a writer leaves when it returns [r]: the bytes [bs] went into the pipe. *)
Definition writer_returns (s : kstate) (y : pipe) (q : list Z) (i n r : Z) (bs : list Z) (y' : pipe) (s' : kstate) : Prop :=
  r = -1 /\ i + Z.of_nat (length bs) < n /\ full q bs /\ negb (pi_readopen y) || p_killed x = true /\
    s' = set_pipe pi (set_pi_lock false y') s \/
  r = i + Z.of_nat (length bs) /\
    (r = Z.max n i \/ r < n /\ ~ full q bs /\ umem (mem s) pt (addr + r) = None) /\
    s' = set_procs (wake (nread_chan pi) <$> procs s) (set_pipe pi (set_pi_lock false y') s).

Lemma writer_leaves {A} (v : A) y' s Q R : caller s -> pi_lock y' = true ->
  Q v (set_procs (wake (nread_chan pi) <$> procs s) (set_pipe pi (set_pi_lock false y') s)) ->
  wps (wakeup (nread_chan pi) ;;; spin_release (pipe_lk pi) ;;; ret v) (set_pipe pi y' s) Q R.
Proof.
  intros Hca Hl HQ. apply wps_bind_wp. apply wakeup_spec; [apply Hca|].
  apply wps_bind_wp. eapply wp_pipe_release; [apply pipes_set_pipe|done|]. apply wps_wp, wp_ret.
  cbn in *. unfold set_pipe, set_procs, set_pipes in *. cbn in *. by rewrite insert_insert_eq.
Qed.

Lemma pipewrite_whole i n y q s : caller s -> pipes s !! pi = Some y -> pi_lock y = true -> pipe_rep y q ->
  0 <= addr -> 0 <= i -> addr + Z.max n i < 2 ^ 63 ->
  wps (pipewrite_loop pi addr n i) s
  (fun r s' => exists bs y', sent s (addr + i) bs /\ pipe_rep y' (q ++ bs) /\
    pi_readopen y' = pi_readopen y /\ pi_writeopen y' = pi_writeopen y /\ writer_returns s y q i n r bs y' s')
  (fun s' => exists bs y', sent s (addr + i) bs /\ pipe_rep y' (q ++ bs) /\
    pi_readopen y' = pi_readopen y /\ pi_writeopen y' = pi_writeopen y /\
    i + Z.of_nat (length bs) < n /\ full q bs /\ negb (pi_readopen y) || p_killed x = false /\
    s' = writer_asleep (set_pi_lock false y') s).
Proof.
  intros Hca Hy Hl Hrep Haddr Hi Hend. unfold pipewrite_loop.
  apply wps_bind_wp. apply wp_my_pagetable; [done|].
  replace (seqZ i (n - i)) with (seqZ i (Z.of_nat (Z.to_nat (n - i))))
    by (destruct (decide (0 <= n - i)); [by rewrite Z2Nat.id by done|by rewrite !seqZ_nil by lia]).
  apply wps_bind. eapply wps_mono; [apply (pipewrite_iter _ i y q s); try done; lia|..].
  - intros r s' (bs & y' & (H1 & H2 & H3 & H4 & H5 & H6) & Hr). destruct r as [[v|j]|].
    + destruct Hr as (-> & Hlt & Hf & Hgo & ->). apply wps_wp, wp_ret. exists bs, y'. split_and!; try done.
      left. split_and!; [done|lia|done..].
    + destruct Hr as (-> & Hlt & Hf & Hno & ->). apply writer_leaves; [done..|].
      exists bs, y'. split_and!; try done. right. split; [done|]. split; [|done]. right. split; [lia|done].
    + destruct Hr as (Hlt & ->). apply writer_leaves; [done..|].
      exists bs, y'. split_and!; try done. right. split; [lia|]. split; [|done]. left. lia.
  - intros s' (bs & y' & (H1 & H2 & H3 & H4 & H5 & H6) & Hlt & Hf & Hgo & ->).
    exists bs, y'. split_and!; try done. lia.
Qed.

(** C26: [pipewrite] puts the bytes of the caller into the pipe in order and stops
    for the reasons it should.  Let the pipe hold [q], with counters anywhere in
    32 bits.  From the call on, or from byte [i] on with the lock held (where
    [sleep] returns to), it does not panic, and the pipe holds [q ++ bs] in the
    end, where [bs] are the bytes of the caller from [addr + i] on.  Then either
    all [n] bytes are in and the result is [n]; or there is room but the next
    byte is not mapped, and the result is the number of bytes put; or the pipe is
    full and nobody reads any more or the caller was killed, and the result is -1;
    or the pipe is full and the caller sleeps on [nwrite] with the lock of the
    pipe given up.  The readers are awake, except in the case of -1. *)
Theorem pipewrite_correct i n y q s m : caller s -> pipes s !! pi = Some y -> pipe_rep y q ->
  0 <= addr -> 0 <= i -> addr + Z.max n i < 2 ^ 63 ->
  m = pipewrite pi addr n /\ i = 0 /\ pi_lock y = false \/ m = pipewrite_loop pi addr n i /\ pi_lock y = true ->
  wps m s
  (fun r s' => exists bs y', sent s (addr + i) bs /\ pipe_rep y' (q ++ bs) /\
    pi_readopen y' = pi_readopen y /\ pi_writeopen y' = pi_writeopen y /\ writer_returns s y q i n r bs y' s')
  (fun s' => exists bs y', sent s (addr + i) bs /\ pipe_rep y' (q ++ bs) /\
    pi_readopen y' = pi_readopen y /\ pi_writeopen y' = pi_writeopen y /\
    i + Z.of_nat (length bs) < n /\ full q bs /\ negb (pi_readopen y) || p_killed x = false /\
    s' = writer_asleep (set_pi_lock false y') s).
Proof.
  intros Hca Hy Hrep Haddr Hi Hend Hm. destruct Hm as [(-> & -> & Hl)|(-> & Hl)].
  - unfold pipewrite. apply wps_bind_wp. eapply wp_pipe_acquire; [exact Hy|done|].
    eapply wps_mono; [apply (pipewrite_whole 0 n (set_pi_lock true y) q (set_pipe pi (set_pi_lock true y) s));
      solve [done|apply pipes_set_pipe|by apply caller_set_pipe|by destruct Hrep]|..].
    + intros r s' (bs & y' & H1 & H2 & H3 & H4 & H5). exists bs, y'. split_and!; try done.
      unfold writer_returns in *. by rewrite set_pipe_twice in H5.
    + intros s' (bs & y' & H1 & H2 & H3 & H4 & H5 & H6 & H7 & ->). exists bs, y'. split_and!; try done.
      unfold writer_asleep. cbn. by rewrite set_pipe_twice.
  - by apply pipewrite_whole.
Qed.

(** ** [piperead] *)

(** The caller sees [bs] at [a] in [ph], and what it saw in [s] elsewhere. *)
Definition got (s : kstate) (ph : phys) (a : Z) (bs : list Z) : Prop :=
  user_ok ph pt l /\ own_step (mem s) pt l ph l /\
  (forall v, xlate (words ph) pt v = xlate (words (mem s)) pt v) /\
  forall v, 0 <= v -> umem ph pt v =
    if decide (a <= v < a + Z.of_nat (length bs)) then bs !! Z.to_nat (v - a) else umem (mem s) pt v.

Lemma got_nil s a : user_ok (mem s) pt l -> got s (mem s) a [].
Proof.
  intros Hu. split; [done|]. split; [apply own_step_refl|]. split; [done|]. intros v Hv. simpl. by rewrite decide_False by lia.
Qed.
Lemma got_cons s ph ph' a c bs y' : got s ph a [c] -> got (set_mem ph (set_pipe pi y' s)) ph' (a + 1) bs ->
  got s ph' a (c :: bs).
Proof.
  intros (_ & Ho1 & Hx1 & Hs1) (Hu & Ho2 & Hx2 & Hs2). split; [done|]. split; [by eapply own_step_trans|].
  split; [intros v; by rewrite Hx2, <- Hx1|].
  intros v Hv. rewrite Hs2 by done. cbn [mem set_mem length]. rewrite Hs1 by done. cbn [length].
  destruct (decide (v = a)) as [->|Hne].
  - rewrite decide_False by lia. rewrite !decide_True by lia. by rewrite Z.sub_diag.
  - destruct (decide (a + 1 <= v < a + 1 + Z.of_nat (length bs))) as [Hin|Hout].
    + rewrite decide_True by lia. by replace (Z.to_nat (v - a)) with (S (Z.to_nat (v - (a + 1)))) by lia.
    + by rewrite !decide_False by lia.
Qed.

(** Why the loop of [piperead] stops at byte [j] with [rest] in the pipe. *)
Definition read_ends (s : kstate) (j : Z) (lost rest : list Z) : Prop :=
  lost = [] /\ rest = [] \/ exists c, lost = [c] /\ umem (mem s) pt (addr + j) = None.

Lemma piperead_iter k : forall i y q s, caller s -> pipes s !! pi = Some y -> pipe_rep y q ->
  0 <= addr -> 0 <= i -> addr + i + Z.of_nat k < 2 ^ 63 ->
  wp (for_each (seqZ i (Z.of_nat k)) (fun i =>
      let! x := pipe_at pi in
      if pipe_empty x then ret (Some i) else
      let ch := (pipe_get x).1 in
      piupd pi (fun x => (pipe_get x).2) ;;;
      let! r := in_mem (copyout pt (u64 (addr + i)) [ch] 1) in
      if r =? -1 then ret (Some i) else ret None)) s
  (fun r s' => exists bs lost rest y' ph, q = bs ++ lost ++ rest /\ pipe_rep y' rest /\
    got s ph (addr + i) bs /\ s' = set_mem ph (set_pipe pi y' s) /\
    pi_readopen y' = pi_readopen y /\ pi_writeopen y' = pi_writeopen y /\ pi_lock y' = pi_lock y /\
    match r with
    | None => lost = [] /\ Z.of_nat (length bs) = Z.of_nat k
    | Some j => j = i + Z.of_nat (length bs) /\ Z.of_nat (length bs) < Z.of_nat k /\ read_ends s j lost rest
    end).
Proof.
  induction k as [|k IH]; intros i y q s Hca Hy Hrep Haddr Hi Hend.
  { exists [], [], q, y, (mem s). rewrite set_pipe_id by done. split_and!; try done; [|by destruct s].
    apply got_nil, Hca. }
  rewrite seqZ_cons by lia. cbn [for_each]. apply wp_bind, wp_bind. eapply wp_pipe_at; [exact Hy|].
  rewrite (pipe_empty_spec y q Hrep). destruct (bool_decide_reflect (q = [])) as [->|Hne].
  { apply wp_ret, wp_ret. exists [], [], [], y, (mem s). rewrite set_pipe_id by done.
    split_and!; try solve [done|cbn [length]; lia|apply got_nil, Hca|by destruct s|by left]. }
  destruct q as [|c q]; [done|]. destruct (pipe_get_rep y c q Hrep) as [Hc Hrep'].
  pose proof (pr_range _ _ Hrep) as Hr. apply list.Forall_cons in Hr as [Hcb _].
  cbv zeta. rewrite Hc. apply wp_bind. eapply wp_piupd; [exact Hy|]. apply wp_bind, wp_zoom.
  unfold u64. rewrite Z.mod_small by lia.
  destruct (copyout_eq Hkend (mem s) pt l (addr + i) [c] (ca_user _ Hca)) as
    (res & ph & k1 & E & Hu & Hx & Ho & Hk1 & Hs & Hres); [lia|done|by constructor|].
  cbn [length] in *. change (Z.of_nat 1) with 1 in *. cbn [mem set_pipe set_pipes]. eapply wp_eq; [exact E|].
  destruct Hres as [(-> & ->)|(-> & Hlt & Hno)].
  - change (0 =? -1) with false. cbv iota. apply wp_ret.
    replace (Z.succ i) with (i + 1) by lia. replace (Z.pred (Z.of_nat (S k))) with (Z.of_nat k) by lia.
    replace (Z.of_nat (S k)) with (Z.of_nat k + 1) by lia.
    set (y1 := (pipe_get y).2) in *.
    assert (Hg : got s ph (addr + i) [c]) by (split; [done|]; split; [done|]; by split).
    eapply wp_mono; [apply (IH (i + 1) y1 q (set_mem ph (set_pipe pi y1 s)))|].
    + destruct Hca as [C1 C2 C3 C4 C5]. by constructor.
    + apply pipes_set_pipe.
    + done.
    + done.
    + lia.
    + lia.
    + intros r s' (bs & lost & rest & y' & ph' & -> & Hrep1 & Hg' & -> & H1 & H2 & H3 & H4).
      exists (c :: bs), lost, rest, y', ph'. split_and!; try done.
      * eapply got_cons; [exact Hg|]. by replace (addr + i + 1) with (addr + (i + 1)) by lia.
      * unfold set_pipe, set_pipes, set_mem. cbn. by rewrite insert_insert_eq.
      * destruct r as [j|]; cbn [length].
        -- destruct H4 as (-> & Hk & Hl). split; [lia|]. split; [lia|].
           destruct Hl as [Hl|(c1 & -> & Hn)]; [by left|]. right. exists c1. split; [done|].
           destruct Hg as (_ & _ & _ & Hs1). cbn [mem set_mem] in Hn. rewrite Hs1 in Hn by lia.
           cbn [length] in Hn. rewrite decide_False in Hn by lia. by rewrite <- Hn.
        -- destruct H4 as (-> & Hk). split; [done|lia].
  - change (-1 =? -1) with true. cbv iota. apply wp_ret, wp_ret.
    assert (k1 = 0) as -> by lia. rewrite Z.add_0_r in Hno.
    exists [], [c], q, (pipe_get y).2, ph. split_and!; try solve [done|cbn [length]; lia].
    + split; [done|]. split; [done|]. split; [done|]. intros v Hv. rewrite Hs by done. cbn [length]. by rewrite !decide_False by lia.
    + right. by exists c.
Qed.

(** What a reader leaves when it returns [r]. *)
Definition reader_returns (s : kstate) (y : pipe) (q : list Z) (n r : Z) (s' : kstate) : Prop :=
  q = [] /\ pi_writeopen y = true /\ p_killed x = true /\ r = -1 /\ s' = set_pipe pi (set_pi_lock false y) s \/
  (q = [] -> pi_writeopen y = false) /\
  exists bs lost rest y' ph, q = bs ++ lost ++ rest /\ pipe_rep y' rest /\ got s ph addr bs /\
    pi_readopen y' = pi_readopen y /\ pi_writeopen y' = pi_writeopen y /\ r = Z.of_nat (length bs) /\
    (r = Z.max n 0 /\ lost = [] \/ r < n /\ read_ends s r lost rest) /\
    s' = set_procs (wake (nwrite_chan pi) <$> procs s) (set_mem ph (set_pipe pi (set_pi_lock false y') s)).
Definition reader_sleeps (s : kstate) (y : pipe) (q : list Z) (s' : kstate) : Prop :=
  q = [] /\ pi_writeopen y = true /\ p_killed x = false /\
  s' = pset p (set_p_lock true (asleep (nread_chan pi) x)) (set_pipe pi (set_pi_lock false y) s).

Lemma piperead_whole n y q s : caller s -> pipes s !! pi = Some y -> pi_lock y = true -> pipe_rep y q ->
  0 <= addr -> addr + Z.max n 0 < 2 ^ 63 ->
  wps (piperead_loop pi addr n) s (reader_returns s y q n) (reader_sleeps s y q).
Proof.
  intros Hca Hy Hl Hrep Haddr Hend. unfold piperead_loop.
  apply wps_bind_wp. apply wp_my_pagetable; [done|]. apply wps_bind_wp. eapply wp_pipe_at; [exact Hy|].
  apply wps_bind_wp. apply wp_my_killed; [done|]. rewrite (pipe_empty_spec y q Hrep).
  destruct (bool_decide (q = []) && pi_writeopen y) eqn:Hw.
  - apply andb_true_iff in Hw as [Hq Hw]. apply bool_decide_eq_true in Hq.
    destruct (p_killed x) eqn:Hk.
    + apply wps_bind_wp. eapply wp_pipe_release; [exact Hy|done|]. apply wps_wp, wp_ret. by left.
    + eapply wps_pipe_sleep; [exact Hy|done|apply Hca|apply Hca| |].
      * eapply (ca_procs _ Hca). apply Hca.
      * done.
  - assert (Hq : q = [] -> pi_writeopen y = false).
    { intros ->. by rewrite bool_decide_eq_true_2 in Hw. }
    replace (seqZ 0 n) with (seqZ 0 (Z.of_nat (Z.to_nat n)))
      by (destruct (decide (0 <= n)); [by rewrite Z2Nat.id by done|by rewrite !seqZ_nil by lia]).
    apply wps_bind_wp. eapply wp_mono; [apply (piperead_iter _ 0 y q s); try done; lia|].
    intros r s' (bs & lost & rest & y' & ph & H1 & H2 & H3 & -> & H4 & H5 & H6 & Hr).
    rewrite Z.add_0_r in H3.
    apply wps_bind_wp. apply wakeup_spec; [apply Hca|].
    apply wps_bind_wp. eapply wp_pipe_release; [apply pipes_set_pipe|by rewrite H6|]. apply wps_wp, wp_ret.
    right. split; [done|]. exists bs, lost, rest, y', ph. split_and!; try done.
    + destruct r as [j|]; simpl; lia.
    + destruct r as [j|]; simpl in *; [|left; split; [done|]; by destruct Hr].
      destruct Hr as (-> & Hr & He). right. split; [lia|exact He].
    + unfold set_pipe, set_procs, set_pipes, set_mem. cbn. by rewrite insert_insert_eq.
Qed.

(** C27: [piperead] takes the bytes of the pipe in order.  Let the pipe hold [q],
    with counters anywhere in 32 bits.  From the call on, or with the lock held
    (where [sleep] returns to), it does not panic.  If the pipe is empty and
    somebody can still write, the result is -1 for a killed caller, and any other
    caller sleeps on [nread] with the lock of the pipe given up.  Otherwise the
    first [r] bytes [bs] of [q] are at [addr] in the memory of the caller, which
    sees no other change, and the result is [r]: [n], or less when the pipe is
    empty then, or when the next address is not mapped.  In the last case the next
    byte is gone from the pipe too, and nobody gets it; else the pipe holds what
    follows [bs].  The writers are awake. *)
Theorem piperead_correct n y q s m : caller s -> pipes s !! pi = Some y -> pipe_rep y q ->
  0 <= addr -> addr + Z.max n 0 < 2 ^ 63 ->
  m = piperead pi addr n /\ pi_lock y = false \/ m = piperead_loop pi addr n /\ pi_lock y = true ->
  wps m s (reader_returns s y q n) (reader_sleeps s y q).
Proof.
  intros Hca Hy Hrep Haddr Hend [(-> & Hl)|(-> & Hl)]; [|by apply piperead_whole].
  unfold piperead. apply wps_bind_wp. eapply wp_pipe_acquire; [exact Hy|done|].
  eapply wps_mono; [apply (piperead_whole n (set_pi_lock true y) q (set_pipe pi (set_pi_lock true y) s));
    solve [done|apply pipes_set_pipe|by apply caller_set_pipe|by destruct Hrep]|..].
  - intros r s' [(H1 & H2 & H3 & H4 & H5)|(H1 & bs & lost & rest & y' & ph & H2)].
    + left. rewrite set_pipe_twice in H5. by split_and!.
    + right. split; [exact H1|]. exists bs, lost, rest, y', ph. by rewrite set_pipe_twice in H2.
  - intros s' (H1 & H2 & H3 & H4). split_and!; try done. by rewrite set_pipe_twice in H4.
Qed.
End calls.

(** ** Examples *)

#[local] Existing Instance fork_linker.

(** A pipe that holds 1 and 2; its counter of writes has wrapped around. *)
Definition w_pipe : pipe := Pipe false (<[511%nat := 1]> (<[0%nat := 2]> (replicate 512 0))) (2 ^ 32 - 1) 1 true true.
Definition w_end : Z := 7.
Definition w_user : proc := set_p_pagetable parent_table (set_p_state RUNNING bss_proc).
Definition w_piped : kstate := set_pipe w_end w_pipe (set_mem with_text (pset 5 w_user (kernel_boot ∅ small_boot 5))).

Lemma piped_rep : pipe_rep w_pipe [1; 2].
Proof.
  constructor; [reflexivity|cbn; lia|discriminate|reflexivity| |repeat constructor; lia].
  intros [|[|i]] c Hi; [injection Hi as <-; reflexivity..|discriminate Hi].
Qed.

Lemma piped_mem : mem w_piped = with_text.
Proof. reflexivity. Qed.
Lemma piped_pt : p_pagetable w_user = parent_table.
Proof. reflexivity. Qed.
Lemma pipe_left m pi y s : pipes (set_procs m (set_pipe pi y s)) !! pi = Some y.
Proof. apply pipes_set_pipe. Qed.
Lemma pipe_left_mem m ph pi y s : pipes (set_procs m (set_mem ph (set_pipe pi y s))) !! pi = Some y.
Proof. apply pipes_set_pipe. Qed.

Lemma piped_caller l : user_ok with_text parent_table l -> caller 5 w_user l w_piped.
Proof.
  intros Hu. assert (Hok : procs_ok (pset 5 w_user (kernel_boot ∅ small_boot 5))).
  { apply procs_ok_pset; [by apply boot_procs_ok|unfold NPROC; lia|done]. }
  constructor; [reflexivity..|exact Hok|by rewrite piped_mem, piped_pt].
Qed.

(** The two bytes at 4095, the last of one page and the first of the next. *)
Lemma pipewrite_correct_witness : wps (pipewrite w_end 4095 2) w_piped
  (fun r s' => r = 2 /\ exists y', pipes s' !! w_end = Some y' /\ pipe_rep y' ([1; 2] ++ greeting))
  (fun _ => False).
Proof.
  destruct with_text_ok as (l & Hok & Hu).
  eapply wps_mono; [apply (pipewrite_correct fork_kend w_end 5 4095 w_user l 0 2 w_pipe [1; 2] w_piped);
    [by apply piped_caller|apply pipes_set_pipe|exact piped_rep|lia|lia|lia|left; done]|..].
  - intros r s' (bs & y' & Hs & Hrep & _ & _ & Hr). cbn beta in Hr.
    destruct Hr as [(-> & Hlt & Hf & _)|(-> & Hr & ->)].
    { unfold full, PIPESIZE in Hf. rewrite length_app in Hf. cbn [length] in Hf. lia. }
    assert (Hl : Z.of_nat (length bs) = 2).
    { destruct Hr as [Hr|(Hlt & _ & Hno)]; [lia|]. exfalso.
      rewrite ?piped_mem, ?piped_pt in Hno.
      rewrite Hu in Hno by lia. assert (length bs = 0 \/ length bs = 1)%nat as [E|E] by lia; rewrite E in Hno; done. }
    assert (bs = greeting) as ->.
    { destruct bs as [|a [|b [|? ?]]]; simpl in Hl; try lia.
      pose proof (Hs 0 ltac:(simpl; lia)) as H0. pose proof (Hs 1 ltac:(simpl; lia)) as H1.
      rewrite ?piped_mem, ?piped_pt in *.
      rewrite Hu in H0, H1 by lia. by injection H0 as <-; injection H1 as <-. }
    split; [done|]. exists (set_pi_lock false y'). split; [apply pipe_left|by destruct Hrep].
  - intros s' (bs & y' & _ & _ & _ & _ & Hlt & Hf & _). unfold full, PIPESIZE in Hf.
    rewrite length_app in Hf. cbn [length] in Hf. lia.
Defined.

(** Two bytes to 8191, the last address of the process: the first arrives, the
    second is lost. *)
Lemma piperead_correct_witness : wps (piperead w_end 8191 2) w_piped
  (fun r s' => r = 1 /\ umem (mem s') parent_table 8191 = Some 1 /\
    exists y', pipes s' !! w_end = Some y' /\ pipe_rep y' [])
  (fun _ => False).
Proof.
  destruct with_text_ok as (l & Hok & Hu).
  eapply wps_mono; [apply (piperead_correct fork_kend w_end 5 8191 w_user l 2 w_pipe [1; 2] w_piped);
    [by apply piped_caller|apply pipes_set_pipe|exact piped_rep|lia|lia|left; done]|..].
  - intros r s' [(H & _)|(_ & bs & lost & rest & y' & ph & Hq & Hrep & (_ & _ & Hx & Hg) & _ & _ & -> & Hr & ->)]; [done|].
    rewrite ?piped_mem, ?piped_pt in *.
    assert (E : bs = [1] /\ rest = []).
    { destruct bs as [|a [|b bs]].
      - destruct Hr as [[Hr _]|[_ [[-> ->]|(c & -> & Hno)]]]; [simpl in Hr; lia|done|].
        rewrite ?piped_mem, ?piped_pt in Hno.
        rewrite Hu in Hno by (simpl; lia). done.
      - injection Hq as <- Hq. split; [done|]. destruct Hr as [[Hr _]|[_ [[-> ->]|(c & -> & _)]]]; [simpl in Hr; lia|done|].
        by injection Hq.
      - exfalso. assert (umem ph parent_table 8192 = None) as Hn.
        { apply unmapped_none. intros _. rewrite Hx. by vm_compute. }
        rewrite Hg in Hn by lia. rewrite decide_True in Hn by (cbn [length]; lia). done. }
    destruct E as [-> ->]. split; [done|]. split; [cbn [mem set_procs set_mem]; by rewrite Hg by lia|].
    exists (set_pi_lock false y'). split; [apply pipe_left_mem|by destruct Hrep].
  - by intros s' (H & _).
Defined.
