(* ===== verification/Wait.v ===== *)
(** The life of a process, proc.c: [proc_pagetable] makes its memory out of free
    pages, [freeproc] gives every page back, and [wait] collects the first child
    that has exited.  The last section runs them on the machine of [Umem]. *)
From S2P Require Import Prelude Bytes Locks Kalloc Vm Umem Bio Log Kernel Fs File Proc Txn Wakeup Reap.

Section life.
Context `{Linker}.
Context (Hkend : KERNBASE <= kend <= PHYSTOP).

(** ** [freeproc] *)

(** The kernel with these processes and this memory. *)
Definition with_pm (P : gmap Z proc) (m : phys) (s : kstate) : kstate := set_procs P (set_mem m s).
Lemma with_pm_id s : with_pm (procs s) (mem s) s = s.
Proof. by destruct s. Qed.

Lemma wp_in_mem {A} (m : M phys A) P ph s (Q : A -> kstate -> Prop) :
  wp m ph (fun a ph' => Q a (with_pm P ph' s)) -> wp (in_mem m) (with_pm P ph s) Q.
Proof. intros Hm. apply wp_zoom. exact Hm. Qed.

Lemma wp_pupd_pm p f P ph s x (Q : unit -> kstate -> Prop) : P !! p = Some x ->
  Q tt (with_pm (<[p := f x]> P) ph s) -> wp (pupd p f) (with_pm P ph s) Q.
Proof. intros Hx HQ. eapply wp_pupd; [exact Hx|exact HQ]. Qed.

(** A process after [freeproc]. *)
Definition reaped (x : proc) : proc :=
  Proc (p_lock x) UNUSED NULL 0 false 0 0 (p_kstack x) 0 0 0 (p_context x) (p_ofile x) (p_cwd x) [].

Lemma freeproc_eq P ph s np y l : P !! np = Some y ->
  proc_mem ph l (p_pagetable y) (p_sz y) (p_trapframe y) ->
  wp (freeproc np) (with_pm P ph s) (fun _ s' => exists ph' l', s' = with_pm (<[np := reaped y]> P) ph' s /\
    given_back ph (p_pagetable y) l ph' l').
Proof.
  intros Hy Hpm. unfold freeproc. apply wp_bind. eapply wp_proc_at; [exact Hy|].
  destruct (ram_page_high Hkend _ (pm_ram _ _ _ _ _ Hpm)) as [_ Htf].
  assert (Hr : 0 < p_pagetable y).
  { destruct (pi_ram _ _ _ (uo_pt _ _ _ (pm_ok _ _ _ _ _ Hpm)) [] (p_pagetable y)) as [Hr _];
      [apply root_path|done|]. by apply ram_page_high in Hr as [_ [? _]]. }
  rewrite (proj2 (Z.eqb_neq (p_trapframe y) 0)), (proj2 (Z.eqb_neq (p_pagetable y) 0)) by lia. cbn [negb when].
  apply wp_bind, wp_in_mem. eapply wp_mono; [by eapply kfree_trapframe|]. cbn beta. intros _ ph1 H1.
  apply wp_bind. eapply wp_pupd_pm; [exact Hy|].
  pose proof (free_process Hkend _ _ _ _ _ ph1 Hpm H1) as Hw. apply wp_bind_inv in Hw.
  unfold proc_freepagetable. apply wp_bind.
  apply wp_bind, wp_in_mem. eapply wp_mono; [exact Hw|]. cbn beta. clear Hw. intros _ ph2 Hw. apply wp_bind_inv in Hw.
  apply wp_bind, wp_in_mem. eapply wp_mono; [exact Hw|]. cbn beta. clear Hw. intros _ ph3 Hw.
  apply wp_in_mem. eapply wp_mono; [exact Hw|]. cbn beta. intros _ ph4 (l4 & H4).
  repeat first [eapply wp_pupd_pm; [apply lookup_insert_eq|]; rewrite insert_insert_eq
               |apply wp_bind; eapply wp_pupd_pm; [apply lookup_insert_eq|]; rewrite insert_insert_eq].
  by exists ph4, l4.
Qed.
(** ** [proc_pagetable] *)

Section space.
Context (Htr : page_aligned trampoline) (Htb : KERNBASE <= trampoline < kend).

(** [proc_pagetable] makes the memory of a process without bytes, out of free
    pages; or, when these run out, it leaves the pages that were free free. *)
Definition space_made (ph : phys) (l : list Z) (tf r : Z) (ph' : phys) (l' : list Z) : Prop :=
  (if r =? 0 then kmem_inv ph' l' /\ forall q, q ∈ l' <-> q ∈ l
   else proc_mem ph' l' r 0 tf /\ forall q, q ∈ l' \/ owned ph' r q <-> q = tf \/ q ∈ l) /\
  forall i, (forall q, q = tf \/ q ∈ l -> ~ in_page q i) -> words ph' !! i = words ph !! i.

(** A space that failed is given back. *)
Lemma space_undone ph l tf ph1 r l1 ph2 l2 :
  (forall q, q ∈ l1 \/ owned ph1 r q <-> q ∈ l) ->
  (forall i, (forall q, q ∈ l -> ~ in_page q i) -> words ph1 !! i = words ph !! i) ->
  given_back ph1 r l1 ph2 l2 -> space_made ph l tf 0 ph2 l2.
Proof.
  intros Hl Hw (Hk & Hl2 & Hw2). split; [split; [done|]; intros q; by rewrite Hl2|].
  intros i Hi. rewrite Hw2, Hw; [done| |]; intros q Hq; apply Hi; right; [done|by apply Hl].
Qed.

Lemma proc_pagetable_eq P ph s p x l : P !! p = Some x -> kmem_inv ph l -> ram_page (p_trapframe x) ->
  p_trapframe x ∉ l ->
  wp (proc_pagetable p) (with_pm P ph s) (fun r s' => exists ph' l', s' = with_pm P ph' s /\
    space_made ph l (p_trapframe x) r ph' l').
Proof.
  intros Hx Hk Htf Hnl. unfold proc_pagetable. apply wp_bind, wp_in_mem.
  eapply wp_mono; [by apply (uvmcreate_fresh Hkend)|]. cbn beta.
  intros pg ph1 [(-> & -> & Hw & Hk1)|(Hne & l0 & -> & Hok1 & Hno1 & Ho1 & Hw1)].
  { apply wp_ret. exists ph1, []. split; [done|]. split; [done|]. intros i _. by rewrite Hw. }
  rewrite (proj2 (Z.eqb_neq pg 0)) by done. apply wp_bind, wp_in_mem.
  eapply wp_mono; [by apply (map_trampoline Hkend Htr Htb)|]. cbn beta. intros res ph2 (l2 & Hok2 & [Hl2 Hw2] & Hres).
  assert (Hl : forall q, q ∈ l2 \/ owned ph2 pg q <-> q ∈ pg :: l0).
  { intros q. rewrite Hl2, Ho1, elem_of_cons. tauto. }
  assert (Hw : forall i, (forall q, q ∈ pg :: l0 -> ~ in_page q i) -> words ph2 !! i = words ph !! i).
  { intros i Hi. rewrite Hw2, Hw1; [done|apply Hi, list_elem_of_here|]. intros q Hq. apply Hi, Hl.
    by apply Hl2. }
  destruct (res <? 0).
  { apply wp_bind, wp_in_mem. eapply wp_mono; [apply (uvmfree_eq Hkend ph2 pg l2 0 Hok2); [done| |]|].
    - intros k Hkk. change (PGROUNDUP 0 / PGSIZE) with 0 in Hkk. lia.
    - intros v Hv. apply Hres. by change (PGROUNDUP 0) with 0 in Hv.
    - cbn beta. intros _ ph3 (l3 & H3). apply wp_ret. exists ph3, l3. split; [done|]. by eapply space_undone. }
  apply wp_bind. eapply wp_proc_at; [exact Hx|]. apply wp_bind, wp_in_mem.
  eapply wp_mono; [apply (map_trapframe Hkend Htr Htb ph2 pg l2 (p_trapframe x) Hok2 Hres Htf)|].
  - intros Hin. apply Hnl, Hl. by left.
  - intros q Hq E. apply Hnl, Hl. right. left. by exists q.
  - cbn beta. intros res2 ph3 (l3 & H3). destruct (res2 <? 0).
    + destruct H3 as (Hok3 & [Hl3 Hw3] & Hm3).
      pose proof (free_tramp Hkend Htr Htb ph3 pg l3 Hok3 Hm3) as Hf. apply wp_bind_inv in Hf.
      apply wp_bind, wp_in_mem. eapply wp_mono; [exact Hf|]. cbn beta. clear Hf. intros _ ph4 Hf.
      apply wp_bind, wp_in_mem. eapply wp_mono; [exact Hf|]. cbn beta. intros _ ph5 (l5 & H5).
      apply wp_ret. exists ph5, l5. split; [done|]. eapply space_undone; [| |exact H5].
      * intros q. by rewrite Hl3, Hl.
      * intros i Hi. rewrite Hw3, Hw; [done|done|]. intros q Hq. by apply Hi, Hl.
    + destruct H3 as [Hpm [Hl3 Hw3]]. apply wp_ret. exists ph3, l3. split; [done|]. split.
      * rewrite (proj2 (Z.eqb_neq pg 0)) by done. split; [done|]. intros q. rewrite Hl3, <- Hl, elem_of_cons. tauto.
      * intros i Hi. rewrite Hw3, Hw; [done| |].
        -- intros q Hq. apply Hi. by right.
        -- intros q [[->|Hq]%elem_of_cons|Hq]; apply Hi; [by left|right; apply Hl..]; tauto.
Qed.
(** A new process beside another: it uses none of its pages. *)
Lemma space_apart ph l tf r ph' l' r1 : user_ok ph r1 l -> Umem.unused ph r1 tf -> page_aligned tf -> r <> 0 ->
  space_made ph l tf r ph' l' -> proc_mem ph' l' r 0 tf /\ user_ok ph' r1 l' /\ apart ph' r r1 l' /\
  (forall v, xlate (words ph') r1 v = xlate (words ph) r1 v) /\ forall v, 0 <= v -> umem ph' r1 v = umem ph r1 v.
Proof.
  intros Hok Hun Hal Hne [Hm Hw]. rewrite (proj2 (Z.eqb_neq r 0)) in Hm by done. destruct Hm as [Hpm Hl].
  assert (Hfree : forall q, q = tf \/ q ∈ l -> page_aligned q /\ Umem.unused ph r1 q).
  { intros q [->|Hq]; [done|]. split; [|by eapply unused_free].
    by apply (inv_free _ _ (pi_kmem _ _ _ (uo_pt _ _ _ Hok))) in Hq as [? _]. }
  destruct (user_same ph ph' r1 l l' Hok) as [Hok' Hs].
  - apply (uo_pt _ _ _ (pm_ok _ _ _ _ _ Hpm)).
  - intros q Hq. apply Hfree, Hl. by left.
  - intros i Hi. apply Hw. intros q Hq. by apply Hi; apply Hfree.
  - split; [done|]. split; [done|]. split; [|split; [apply Hs|apply Hs]].
    apply apart_sym; [done|apply Hpm|]. intros q Hq. apply (same_user_unused ph ph'); [done|]. by apply Hfree, Hl.
Qed.
End space.

(** ** [wait] *)

Definition child_of (p : Z) (P : gmap Z proc) (j : Z) : bool :=
  match P !! j with Some y => p_parent y =? p | None => false end.
Definition zombie_of (p : Z) (P : gmap Z proc) (j : Z) : bool :=
  match P !! j with
  | Some y => (p_parent y =? p) && match p_state y with ZOMBIE => true | _ => false end
  | None => false
  end.
(** The child that [wait] finds. *)
Definition first_zombie (p : Z) (P : gmap Z proc) : option Z := List.find (zombie_of p P) (seqZ 0 NPROC).
Definition has_children (p : Z) (P : gmap Z proc) : bool := existsb (child_of p P) (seqZ 0 NPROC).

(** The status arrives at [addr], the process is gone and its memory is free. *)
Definition collected (s : kstate) (l : list Z) (x y : proc) (np addr r : Z) (s' : kstate) : Prop :=
  exists ph' l', r = p_pid y /\ s' = with_pm (<[np := reaped y]> (procs s)) ph' s /\
    user_ok ph' (p_pagetable x) l' /\ (forall q, q ∈ l' <-> q ∈ l \/ owned (mem s) (p_pagetable y) q) /\
    forall v, 0 <= v -> umem ph' (p_pagetable x) v =
      if decide (addr <> 0 /\ addr <= v < addr + 4) then le_bytes 4 (p_xstate y) !! Z.to_nat (v - addr)
      else umem (mem s) (p_pagetable x) v.
(** The status cannot be stored: the child stays as it is. *)
Definition refused (s : kstate) (x : proc) (addr r : Z) (s' : kstate) : Prop :=
  r = -1 /\ addr <> 0 /\ (exists k, 0 <= k < 4 /\ umem (mem s) (p_pagetable x) (addr + k) = None) /\
  exists ph', s' = with_pm (procs s) ph' s.

(** The steps of [proc_mem] that only look at the translation. *)
Lemma proc_mem_same s s' l l' r sz tf : proc_mem s l r sz tf -> user_ok s' r l' ->
  (forall v, xlate (words s') r v = xlate (words s) r v) -> proc_mem s' l' r sz tf.
Proof.
  intros [H1 H2 H3 H4 H5 H6 H7] Hok Hx. constructor; try done; rewrite ?Hx; try done.
  - intros k Hk. rewrite Hx. by apply H6.
  - intros v Hv. rewrite Hx. by apply H7.
Qed.

(** Freeing a process is nothing to another. *)
Lemma given_back_apart s r1 r2 l s' l' : user_ok s r1 l -> user_ok s r2 l -> apart s r1 r2 l ->
  given_back s r2 l s' l' -> user_ok s' r1 l' /\ forall v, 0 <= v -> umem s' r1 v = umem s r1 v.
Proof.
  intros Hok1 Hok2 Hap (Hk & Hl & Hw). destruct (user_same s s' r1 l l' Hok1 Hk) as [Hok' (_ & _ & Hu)].
  - intros q Hq. apply Hap. by apply Hl.
  - intros i Hi. apply Hw. intros q Hq. apply Hi; [by eapply owned_aligned|by apply Hap].
  - done.
Qed.

(** The copy of the status. *)
Lemma copy_status s l x y addr : user_ok s (p_pagetable x) l ->
  proc_mem s l (p_pagetable y) (p_sz y) (p_trapframe y) -> apart s (p_pagetable y) (p_pagetable x) l -> 0 <= addr ->
  wp (if addr =? 0 then ret 0 else copyout (p_pagetable x) addr (le_bytes 4 (p_xstate y)) 4) s (fun r s' =>
    user_ok s' (p_pagetable x) l /\ proc_mem s' l (p_pagetable y) (p_sz y) (p_trapframe y) /\
    apart s' (p_pagetable x) (p_pagetable y) l /\
    (forall q, owned s' (p_pagetable y) q <-> owned s (p_pagetable y) q) /\
    if r <? 0 then addr <> 0 /\ exists k, 0 <= k < 4 /\ umem s (p_pagetable x) (addr + k) = None
    else forall v, 0 <= v -> umem s' (p_pagetable x) v =
      if decide (addr <> 0 /\ addr <= v < addr + 4) then le_bytes 4 (p_xstate y) !! Z.to_nat (v - addr)
      else umem s (p_pagetable x) v).
Proof.
  intros Hok Hpm Hap Ha. pose proof (pm_ok _ _ _ _ _ Hpm) as Hoky.
  destruct (Z.eqb_spec addr 0) as [->|Hne].
  { apply wp_ret. split; [done|]. split; [done|]. split; [by apply apart_sym|]. split; [done|].
    intros v Hv. by rewrite decide_False by tauto. }
  destruct (copyout_eq Hkend s _ l addr (le_bytes 4 (p_xstate y)) Hok Ha) as
    (res & s' & k & E & Hok' & _ & Hown & Hk & Hu & Hres); [by rewrite length_le_bytes|by apply le_bytes_is_bytes|].
  rewrite length_le_bytes in *. change (Z.of_nat 4) with 4 in *. eapply wp_eq; [exact E|].
  destruct (isolated s s' (p_pagetable y) (p_pagetable x) l l l Hoky Hok Hap Hown) as (Hoky' & Hs & Hap');
    [apply Hok'|done|].
  split; [done|]. split; [by eapply proc_mem_same; [| |apply Hs]|]. split; [by apply apart_sym|].
  split; [intros q; by apply same_user_owned|].
  destruct Hres as [[-> ->]|(-> & Hlt & Hnone)]; cbn.
  - intros v Hv. rewrite Hu by done.
    destruct (decide (addr <= v < addr + 4)); [by rewrite decide_True|by rewrite decide_False by tauto].
  - split; [done|]. exists k. by split; [lia|].
Qed.
Lemma wp_run {A} (m m' : KM A) s s' Q : m s = m' s' -> wp m' s' Q -> wp m s Q.
Proof. unfold wp. by intros ->. Qed.

Lemma proc_at_eq s p x : procs s !! p = Some x -> proc_at p s = Ret x s.
Proof. intros Hx. unfold proc_at, bind, gets, of_option. by rewrite Hx. Qed.
Lemma pupd_eq s p x f : procs s !! p = Some x -> pupd p f s = Ret tt (pset p (f x) s).
Proof. intros Hx. unfold pupd. by rewrite (bind_eq _ _ _ _ _ (proc_at_eq s p x Hx)). Qed.

Section wait.
Context (s : kstate) (p : Z) (x : proc) (addr : Z).
Context (Hok : procs_ok s) (Hcur : cur s = p) (Hx : procs s !! p = Some x) (Hself : p_parent x <> p).

(** The state of the scan: the lock of the parent is held. *)
Definition scanning : kstate := with_pm (<[p := set_p_lock true x]> (procs s)) (mem s) s.

Lemma set_p_lock_id (y : proc) : p_lock y = false -> set_p_lock false (set_p_lock true y) = y.
Proof. destruct y. cbn. by intros ->. Qed.

Lemma release_pm q (y : proc) P ph (Q : unit -> kstate -> Prop) : P !! q = Some y -> p_lock y = true ->
  Q tt (with_pm (<[q := set_p_lock false y]> P) ph s) -> wp (spin_release (proc_lk q)) (with_pm P ph s) Q.
Proof. intros Hy Hl HQ. eapply wp_proc_release; [exact Hy|exact Hl|exact HQ]. Qed.

Lemma acquire_pm q (y : proc) P ph (Q : unit -> kstate -> Prop) : P !! q = Some y -> p_lock y = false ->
  Q tt (with_pm (<[q := set_p_lock true y]> P) ph s) -> wp (spin_acquire (proc_lk q)) (with_pm P ph s) Q.
Proof. intros Hy Hl HQ. eapply wp_proc_acquire; [exact Hy|exact Hl|exact HQ]. Qed.

Lemma scanning_other np y : np <> p -> procs s !! np = Some y ->
  <[p := set_p_lock true x]> (procs s) !! np = Some y.
Proof. intros Hne Hy. by rewrite lookup_insert_ne. Qed.

(** A process that is no zombie of the parent. *)
Lemma visit_other np hk : 0 <= np < NPROC -> zombie_of p (procs s) np = false ->
  wp (wait_visit p addr (np, hk)) scanning (fun r s' => s' = scanning /\
    r = inl (np + 1, child_of p (procs s) np || hk)).
Proof.
  intros Hnp Hz. unfold wait_visit. rewrite (proj2 (Z.ltb_lt np NPROC)) by lia.
  destruct (proj2 (proj1 Hok np) Hnp) as [y Hy]. unfold zombie_of in Hz. unfold child_of. rewrite Hy in *.
  destruct (decide (np = p)) as [->|Hne].
  { rewrite Hx in Hy. injection Hy as <-. apply wp_bind. eapply wp_proc_at; [apply lookup_insert_eq|].
    cbn [p_parent set_p_lock]. rewrite (proj2 (Z.eqb_neq _ _) Hself). by apply wp_ret. }
  pose proof (scanning_other np y Hne Hy) as Hy'. apply wp_bind. eapply wp_proc_at; [exact Hy'|].
  destruct (p_parent y =? p) eqn:Hpar; [|by apply wp_ret].
  pose proof (proj2 Hok np y Hy) as Hl. apply wp_bind. eapply acquire_pm; [exact Hy'|done|].
  assert (Hrel : wp (spin_release (proc_lk np) ;;; ret (inl (np + 1, true)))
    (with_pm (<[np := set_p_lock true y]> (<[p := set_p_lock true x]> (procs s))) (mem s) s)
    (fun (r : Z * bool + (Z + bool)) s' => s' = scanning /\ r = inl (np + 1, true || hk))).
  { apply wp_bind. eapply release_pm; [apply lookup_insert_eq|done|]. apply wp_ret. split; [|done].
    by rewrite insert_insert_eq, set_p_lock_id, insert_id. }
  destruct (p_state y); done.
Qed.

(** A zombie child. *)
Lemma visit_zombie np hk y l : procs s !! np = Some y -> p_parent y = p -> p_state y = ZOMBIE -> 0 <= np < NPROC ->
  user_ok (mem s) (p_pagetable x) l -> proc_mem (mem s) l (p_pagetable y) (p_sz y) (p_trapframe y) ->
  apart (mem s) (p_pagetable y) (p_pagetable x) l -> 0 <= addr ->
  wp (wait_visit p addr (np, hk)) scanning (fun r s' => exists v, r = inr (inl v) /\
    (collected s l x y np addr v s' \/ refused s x addr v s')).
Proof.
  intros Hy Hpar Hst Hnp Hu Hpm Hap Haddr. unfold wait_visit. rewrite (proj2 (Z.ltb_lt np NPROC)) by lia.
  assert (Hne : np <> p) by (intros ->; congruence).
  pose proof (scanning_other np y Hne Hy) as Hy'. apply wp_bind. eapply wp_proc_at; [exact Hy'|].
  rewrite Hpar, Z.eqb_refl, Hst. pose proof (proj2 Hok np y Hy) as Hl. pose proof (proj2 Hok p x Hx) as Hlx.
  apply wp_bind. eapply acquire_pm; [exact Hy'|done|]. set (P1 := <[np := set_p_lock true y]> _).
  assert (Hp1 : P1 !! p = Some (set_p_lock true x)) by (unfold P1; rewrite lookup_insert_ne by done; apply lookup_insert_eq).
  assert (Hn1 : P1 !! np = Some (set_p_lock true y)) by apply lookup_insert_eq.
  assert (Hback : forall z,
    <[p := x]> (<[np := z]> P1) = <[np := z]> (procs s)).
  { intros z. unfold P1. rewrite insert_insert_eq, insert_insert_ne, insert_insert_eq by done.
    by rewrite (insert_id (procs s)). }
  apply wp_bind. eapply wp_proc_at; [exact Hp1|]. cbn [p_pagetable set_p_lock].
  apply wp_bind. apply (wp_mono _ _ (fun r s' => exists ph, s' = with_pm P1 ph s /\ user_ok ph (p_pagetable x) l /\
    proc_mem ph l (p_pagetable y) (p_sz y) (p_trapframe y) /\ apart ph (p_pagetable x) (p_pagetable y) l /\
    (forall q, owned ph (p_pagetable y) q <-> owned (mem s) (p_pagetable y) q) /\
    if r <? 0 then addr <> 0 /\ exists k, 0 <= k < 4 /\ umem (mem s) (p_pagetable x) (addr + k) = None
    else forall v, 0 <= v -> umem ph (p_pagetable x) v =
      if decide (addr <> 0 /\ addr <= v < addr + 4) then le_bytes 4 (p_xstate y) !! Z.to_nat (v - addr)
      else umem (mem s) (p_pagetable x) v)).
  { pose proof (copy_status (mem s) l x y addr Hu Hpm Hap Haddr) as Hc. destruct (addr =? 0).
    - apply wp_ret. by exists (mem s).
    - apply wp_in_mem. eapply wp_mono; [exact Hc|]. cbv beta. intros r ph Hr. by exists ph. }
  intros r s1 (ph & -> & Hu1 & Hpm1 & Hap1 & Ho1 & Hr). destruct (r <? 0).
  - destruct Hr as [Hne0 Hk]. apply wp_bind. eapply release_pm; [exact Hn1|done|]. apply wp_bind.
    eapply release_pm; [rewrite lookup_insert_ne by done; exact Hp1|done|]. apply wp_ret. exists (-1).
    split; [done|]. right. split; [done|]. split; [done|]. split; [done|]. exists ph.
    rewrite !set_p_lock_id by done. rewrite Hback. by rewrite insert_id.
  - apply wp_bind. eapply wp_mono; [by eapply (freeproc_eq P1 ph s np (set_p_lock true y) l)|].
    cbn [p_pagetable set_p_lock]. intros _ s2 (ph2 & l2 & -> & Hg).
    apply wp_bind. eapply release_pm; [apply lookup_insert_eq|done|]. apply wp_bind. rewrite insert_insert_eq.
    eapply release_pm; [rewrite lookup_insert_ne by done; exact Hp1|done|]. apply wp_ret. exists (p_pid y).
    split; [done|]. left.
    destruct (given_back_apart ph (p_pagetable x) (p_pagetable y) l ph2 l2) as [Hu2 Hum]; [done|apply Hpm1|done|done|].
    exists ph2, l2. split; [done|]. split; [|split; [done|split]].
    + rewrite set_p_lock_id by done. rewrite Hback. f_equal. f_equal. unfold reaped, set_p_lock. cbn. by rewrite Hl.
    + intros q. destruct Hg as (_ & Hg & _). by rewrite Hg, Ho1.
    + intros v Hv. rewrite Hum by done. by apply Hr.
Qed.
(** The scan when [np0] is the first zombie, and when there is none. *)
Lemma scan_found np0 y l : 0 <= np0 < NPROC -> zombie_of p (procs s) np0 = true ->
  (forall j, 0 <= j < np0 -> zombie_of p (procs s) j = false) -> procs s !! np0 = Some y ->
  user_ok (mem s) (p_pagetable x) l -> proc_mem (mem s) l (p_pagetable y) (p_sz y) (p_trapframe y) ->
  apart (mem s) (p_pagetable y) (p_pagetable x) l -> 0 <= addr ->
  wp (loop (0, false) (wait_visit p addr)) scanning (fun r s' => exists v, r = inl v /\
    (collected s l x y np0 addr v s' \/ refused s x addr v s')).
Proof.
  intros Hnp Hz Hbefore Hy Hu Hpm Hap Haddr.
  apply (wp_loop (fun '(np, hk) s' => s' = scanning /\ 0 <= np <= np0) (fun '(np, hk) => NPROC - np)).
  - split; [done|lia].
  - done.
  - intros [np hk] s' [_ Hr]. lia.
  - intros [np hk] s' [-> Hr]. destruct (decide (np = np0)) as [->|Hne].
    + unfold zombie_of in Hz. rewrite Hy in Hz. apply andb_true_iff in Hz as [Hpar Hst].
      eapply wp_mono; [eapply (visit_zombie np0 hk y l); try done; [by apply Z.eqb_eq|by destruct (p_state y)]|].
      intros r s' (v & -> & H'). by exists v.
    + eapply wp_mono; [apply visit_other; [lia|apply Hbefore; lia]|]. intros r s' [-> ->]. split; [split; [done|lia]|lia].
Qed.

Lemma scan_none : (forall j, 0 <= j < NPROC -> zombie_of p (procs s) j = false) ->
  wp (loop (0, false) (wait_visit p addr)) scanning (fun r s' => s' = scanning /\ r = inr (has_children p (procs s))).
Proof.
  intros Hno.
  apply (wp_loop (fun '(np, hk) s' => s' = scanning /\ 0 <= np <= NPROC /\
    hk = existsb (child_of p (procs s)) (seqZ 0 np)) (fun '(np, hk) => NPROC - np)).
  - by split_and!.
  - done.
  - intros [np hk] s' (_ & Hr & _). lia.
  - intros [np hk] s' (-> & Hr & ->). destruct (decide (np = NPROC)) as [->|Hne].
    + by apply wp_ret.
    + eapply wp_mono; [apply visit_other; [lia|apply Hno; lia]|]. intros r s' [-> ->].
      split; [split; [done|split; [lia|]]|lia].
      rewrite seqZ_app by lia. rewrite existsb_app. change (0 + np) with np.
      assert (seqZ np 1 = [np]) as -> by (rewrite seqZ_cons, seqZ_nil by lia; done). cbn. by rewrite orb_false_r, orb_comm.
Qed.
End wait.

(** C23: [wait] of a process that is not its own parent.  If one of its children
    is a zombie, it finds the first in the table: it returns its process id, its
    exit status is stored at [addr] (no byte of the parent is written but these
    four, and none when [addr] is 0), its slot is free again and every page that it
    used, its page table and trap frame included, is on the free list, while no
    other process changes; or, when the parent cannot store at [addr], [wait]
    returns -1 and the child stays as it is.  Without a zombie, it returns -1 when
    there is no child or the parent was killed, and sleeps on itself otherwise. *)
Theorem wait_correct s p x addr : procs_ok s -> cur s = p -> procs s !! p = Some x -> p_parent x <> p -> 0 <= addr ->
  match first_zombie p (procs s) with
  | Some np => forall y l, procs s !! np = Some y ->
      user_ok (mem s) (p_pagetable x) l -> proc_mem (mem s) l (p_pagetable y) (p_sz y) (p_trapframe y) ->
      apart (mem s) (p_pagetable y) (p_pagetable x) l ->
      wp (wait addr) s (fun r s' => collected s l x y np addr r s' \/ refused s x addr r s')
  | None =>
      if has_children p (procs s) && negb (p_killed x)
      then wait addr s = Sleep (pset p (set_p_lock true (asleep (proc_chan p) x)) s)
      else wait addr s = Ret (-1) s
  end.
Proof.
  intros Hok Hcur Hx Hself Haddr. pose proof (proj2 Hok p x Hx) as Hlx.
  assert (Hstart : wait addr s = (let! r := loop (0, false) (wait_visit p addr) in
      match r with
      | inl r => ret r
      | inr havekids => let! x := proc_at p in
          if negb havekids || p_killed x then spin_release (proc_lk p) ;;; ret (-1) else sleep (proc_chan p) None
      end) (scanning s p x)).
  { unfold wait. unfold bind at 1, myproc, gets. rewrite Hcur. by rewrite (bind_eq _ _ _ _ _ (proc_acquire s p x Hx Hlx)). }
  destruct (first_zombie p (procs s)) as [np|] eqn:Ef.
  - intros y l Hy Hu Hpm Hap. apply find_seqZ in Ef as (Hnp & Hz & Hbefore).
    apply (wp_run _ _ _ _ _ Hstart). apply wp_bind. eapply wp_mono; [by eapply (scan_found s p x addr)|]. intros r s' (v & -> & H'). by apply wp_ret.
  - rewrite Hstart. assert (Hno : forall j, 0 <= j < NPROC -> zombie_of p (procs s) j = false).
    { intros j Hj. apply (List.find_none _ _ Ef). apply list_elem_of_In, elem_of_seqZ. lia. }
    destruct (wp_inv _ _ _ (scan_none s p x addr Hok Hx Hself Hno)) as (r & s' & E & -> & ->).
    rewrite (bind_eq _ _ _ _ _ E). clear E Hstart.
    assert (Hp : procs (scanning s p x) !! p = Some (set_p_lock true x)) by apply lookup_insert_eq.
    rewrite (bind_eq _ _ _ _ _ (proc_at_eq _ p _ Hp)). cbn [p_killed set_p_lock].
    assert (Hback : forall z, pset p z (scanning s p x) = pset p z s).
    { intros z. unfold scanning, pset, with_pm. cbn [procs set_procs set_mem]. rewrite insert_insert_eq. by destruct s. }
    assert (Hret : (spin_release (proc_lk p) ;;; ret (-1)) (scanning s p x) = Ret (-1) s).
    { rewrite (bind_eq _ _ _ _ _ (proc_release _ p _ Hp eq_refl)), Hback, set_p_lock_id by done.
      unfold pset, ret. rewrite insert_id by done. by destruct s. }
    destruct (has_children p (procs s)), (p_killed x); cbn [negb orb andb]; [exact Hret| |exact Hret|exact Hret].
    unfold sleep. rewrite (bind_eq _ _ _ p (scanning s p x)) by (unfold myproc, gets; by rewrite <- Hcur).
    rewrite (bind_eq _ _ _ tt (pset p (asleep (proc_chan p) (set_p_lock true x)) s)).
    2:{ unfold run_steps, sleep_steps. cbn [app for_all].
      rewrite (bind_eq _ _ _ _ _ (pupd_eq _ p _ (set_p_chan (proc_chan p)) Hp)).
      rewrite (bind_eq _ _ _ _ _ (pupd_eq _ p _ (set_p_state SLEEPING) (lookup_insert_eq _ _ _))), pset_pset, Hback. done. }
    unfold sched. rewrite (bind_eq _ _ _ p (pset p _ s)) by (unfold myproc, gets; by rewrite <- Hcur).
    rewrite (bind_eq _ _ _ _ _ (proc_at_eq _ p _ (lookup_insert_eq _ _ _))). rewrite Hcur. reflexivity.
Qed.
End life.

(** ** An instance: the process 3, whose child 4 has exited with status 7 *)

Section family.
#[local] Existing Instance fork_linker.

Definition first_page : Z := PHYSTOP - PGSIZE.
Definition with_frame : phys := final after_boot (kalloc after_boot).
Definition fam_parent (tf r : Z) : proc :=
  Proc false RUNNING NULL 0 false 0 3 0 0 r tf (zeros 14) (replicate (Z.to_nat NOFILE) NULL) NULL [].
Definition fam_child (tf r : Z) : proc :=
  Proc false ZOMBIE 3 0 false 7 4 0 0 r tf (zeros 14) (replicate (Z.to_nat NOFILE) NULL) NULL [].
Definition fam_table (tf r tf' r' : Z) : gmap Z proc :=
  <[4 := fam_child tf' r']> (<[3 := fam_parent tf r]> (table NPROC bss_proc)).
Definition fam_kernel : kstate := kernel_boot ∅ after_boot 3.
Definition fam_at (P : gmap Z proc) (m : phys) : kstate := with_pm P m fam_kernel.

(** The page table of the parent, then the trap frame and the page table of the
    child. *)
Definition fam1 : kstate := fam_at (fam_table first_page 0 0 0) with_frame.
Definition root1 : Z := PHYSTOP - 2 * PGSIZE.
Definition mem2 : phys := mem (final fam1 (proc_pagetable 3 fam1)).
Definition frame2 : Z := PHYSTOP - 5 * PGSIZE.
Definition mem3 : phys := final mem2 (kalloc mem2).
Definition fam3 : kstate := fam_at (fam_table first_page root1 frame2 0) mem3.
Definition root2 : Z := PHYSTOP - 6 * PGSIZE.
Definition mem4 : phys := mem (final fam3 (proc_pagetable 4 fam3)).
Definition family : kstate := fam_at (fam_table first_page root1 frame2 root2) mem4.

Lemma fam_runs : result (kalloc after_boot) = Some first_page /\ result (proc_pagetable 3 fam1) = Some root1 /\
  result (kalloc mem2) = Some frame2 /\ result (proc_pagetable 4 fam3) = Some root2.
Proof. split_and!; vm_compute; reflexivity. Qed.
Lemma fam_linker : page_aligned trampoline /\ KERNBASE <= trampoline < kend.
Proof. split; [reflexivity|]. split; vm_compute; congruence. Qed.

Lemma run_result {S A} (m : M S A) s a a' s' : result (m s) = Some a -> m s = Ret a' s' -> a' = a /\ final s (m s) = s'.
Proof. intros H1 H2. rewrite H2 in *. by injection H1 as ->. Qed.

Lemma fam_boot : exists l, kmem_inv with_frame l /\ ram_page first_page /\ first_page ∉ l.
Proof.
  destruct (wp_inv _ _ _ (kinit_eq fork_kend fork_boot fork_boot_ram)) as ([] & s0 & E0 & Hinv).
  assert (exists l, reverse all_pages = first_page :: l) as (l & Hl) by (eexists; vm_compute; reflexivity).
  rewrite Hl in Hinv. assert (after_boot = s0) as E1 by (unfold after_boot; by rewrite E0).
  destruct (kalloc_eq fork_kend s0 _ Hinv) as (r & s1 & E & _ & -> & Hk & _). exists l.
  unfold with_frame. rewrite E1, E. split; [done|]. split; [apply (inv_free _ _ Hinv), list_elem_of_here|].
  by pose proof (inv_nodup _ _ Hinv) as [? _]%list.NoDup_cons.
Qed.

Lemma family_ok : exists l, user_ok mem4 root1 l /\ proc_mem mem4 l root2 0 frame2 /\ apart mem4 root2 root1 l.
Proof.
  destruct fam_boot as (l0 & Hk0 & Hr0 & Hn0). destruct fam_linker as [Htr Htb].
  destruct fam_runs as (_ & R1 & R2 & R3).
  destruct (wp_inv _ _ _ (proc_pagetable_eq fork_kend Htr Htb (fam_table first_page 0 0 0) with_frame fam_kernel 3
    (fam_parent first_page 0) l0 eq_refl Hk0 Hr0 Hn0)) as (r1 & s1 & E1 & ph2 & l2 & -> & [Hm1 _]).
  destruct (run_result _ _ _ _ _ R1 E1) as [-> F1]. destruct Hm1 as [Hpm1 _].
  assert (mem2 = ph2) as E2 by (unfold mem2; rewrite F1; reflexivity). rewrite <- E2 in Hpm1. clear E1 F1 E2.
  pose proof (pm_ok _ _ _ _ _ Hpm1) as Hok1. destruct l2 as [|pa l2].
  { destruct (kalloc_none fork_kend mem2 root1 Hok1) as (s3 & E & _).
    destruct (run_result _ _ _ _ _ R2 E) as [E0 _]. by vm_compute in E0. }
  destruct (kalloc_user fork_kend mem2 root1 pa l2 Hok1) as (s3 & E & Hok3 & Hr & Hn & Hun & _).
  destruct (run_result _ _ _ _ _ R2 E) as [-> F2]. assert (mem3 = s3) as E3 by exact F2.
  rewrite <- E3 in *. clear E F2 E3.
  destruct (wp_inv _ _ _ (proc_pagetable_eq fork_kend Htr Htb (fam_table first_page root1 frame2 0) mem3 fam_kernel 4
    (fam_child frame2 0) l2 eq_refl (pi_kmem _ _ _ (uo_pt _ _ _ Hok3)) Hr Hn)) as (r2 & s4 & E4 & ph4 & l4 & -> & Hm2).
  destruct (run_result _ _ _ _ _ R3 E4) as [-> F4]. assert (mem4 = ph4) as E5 by (unfold mem4; rewrite F4; reflexivity).
  rewrite <- E5 in *. clear E4 F4 E5. exists l4.
  destruct (space_apart mem3 l2 frame2 root2 mem4 l4 root1 Hok3 Hun) as (H1 & H2 & H3 & _); [apply Hr| |exact Hm2|]; [by vm_compute|].
  split; [exact H2|]. split; [exact H1|exact H3].
Qed.

Lemma family_procs : procs_ok family.
Proof.
  assert (Hp : procs family = fam_table first_page root1 frame2 root2) by reflexivity. unfold fam_table in Hp.
  split; intros i; rewrite Hp.
  - rewrite !lookup_insert_is_Some'. split.
    + intros [<-|[<-|[x Hx]]]; [split; [discriminate|reflexivity]..|]. apply lookup_table_inv in Hx as [Hi _]. exact Hi.
    + intros Hi. right. right. exists bss_proc. by apply lookup_table.
  - intros x. rewrite !lookup_insert_Some. intros [[_ <-]|[_ [[_ <-]|[_ [_ ->]%lookup_table_inv]]]]; done.
Qed.

Lemma wait_correct_witness : exists l y, procs family !! 4 = Some y /\ p_xstate y = 7 /\
  wp (wait 0) family (fun r s' => collected family l (fam_parent first_page root1) y 4 0 r s').
Proof.
  destruct family_ok as (l & Hu & Hpm & Hap). exists l, (fam_child frame2 root2). split; [reflexivity|]. split; [reflexivity|].
  assert (Hz : first_zombie 3 (procs family) = Some 4) by (vm_compute; reflexivity).
  pose proof (wait_correct fork_kend family 3 (fam_parent first_page root1) 0 family_procs eq_refl eq_refl) as H.
  rewrite Hz in H. eapply wp_mono; [apply H; [discriminate|discriminate|reflexivity|exact Hu|exact Hpm|exact Hap]|].
  cbv beta. intros r s' [H'|(_ & H' & _)]; [exact H'|]. destruct (H' eq_refl).
Defined.
End family.
