(* ===== verification/Trunc.v ===== *)
(** Freeing files, fs.c: [itrunc] frees the blocks of a file, and only those;
    [iput] frees the file when its last reference and its last link are gone. *)
From S2P Require Import Prelude CString Bytes Locks Kalloc Vm Bio Log Kernel Fs Txn Blocks Files Writes File Proc Wakeup.

Lemma length_bit_off a d : length (bit_off a d) = length d.
Proof. unfold bit_off, set_byte. by rewrite length_insert. Qed.

(** ** Freeing several blocks *)

(** The blocks [l] were freed since the state with [V], [d] and [bl]. *)
Record freed (sbk : superblock) (V : Z -> option block) (d : block) (bl : list Z) (l : list Z)
    (V' : Z -> option block) (d' : block) (bl' : list Z) : Prop := {
  fr_bm : bitmap_in sbk V' d';
  fr_other : forall c, c <> BBLOCK 0 sbk -> V' c = V c;
  fr_bits : forall b, 0 <= b -> bit_set d' b = if decide (b ∈ l) then false else bit_set d b;
  fr_logs : forall c, c ∈ bl' -> c ∈ bl \/ c = BBLOCK 0 sbk
}.

Lemma freed_nothing sbk V d bl : bitmap_in sbk V d -> freed sbk V d bl [] V d bl.
Proof. intros B. constructor; try done. by left. Qed.

Lemma freed_length sbk V d bl l V' d' bl' : freed sbk V d bl l V' d' bl' -> NoDup bl' ->
  Z.of_nat (length bl') <= Z.of_nat (length bl) + 1.
Proof.
  intros F Hnd. assert (Hs : bl' ⊆+ bl ++ [BBLOCK 0 sbk]).
  { apply NoDup_submseteq; [done|]. intros c Hc. rewrite elem_of_app, list_elem_of_singleton. by apply (fr_logs _ _ _ _ _ _ _ _ F). }
  apply submseteq_length in Hs. rewrite length_app in Hs. simpl in Hs. lia.
Qed.

(** [bfree] of one more. *)
Lemma bfree_freed {bl H V} s d l V1 d1 bl1 b s1 (Q : unit -> kstate -> Prop) :
  freed (sb s) V d bl l V1 d1 bl1 -> ktxn bl1 H ∅ V1 s1 -> sb s1 = sb s ->
  H !! BBLOCK 0 (sb s) = None -> Z.of_nat (length bl) + Z.of_nat (size H) + 1 < NBUF -> log_room 2 bl ->
  0 <= b < sb_size (sb s) -> b ∉ l -> bit_set d b = true ->
  (forall s2 V2 d2 bl2, kframe s1 s2 -> ktxn bl2 H ∅ V2 s2 -> freed (sb s) V d bl (l ++ [b]) V2 d2 bl2 -> Q tt s2) ->
  wp (bfree ROOTDEV b) s1 Q.
Proof.
  intros F T Es Hni Hroom Hlog Hb Hl Hset HQ. pose proof (freed_length _ _ _ _ _ _ _ _ F (tn_nodup _ _ _ _ _ T)) as Hlen.
  pose proof (fr_bm _ _ _ _ _ _ _ _ F) as [B1 B2 B3 B4]. rewrite LOGICAL_eq in B4.
  assert (HB : 0 <= b < BPB) by (unfold BPB; rewrite BSIZE_eq; lia).
  assert (Hs1 : bit_set d1 b = true) by (rewrite (fr_bits _ _ _ _ _ _ _ _ F), decide_False by (done || lia); done).
  eapply (bfree_spec s1 d1 b); rewrite ?Es; [exact T|by constructor|done|apply not_elem_of_empty| | |done|done|].
  { unfold room. lia. } { unfold log_room in *. lia. }
  intros s2 F2 T2. eapply HQ; [exact F2|exact T2|]. constructor.
  - constructor; [done| |by rewrite length_bit_off|done]. unfold vset. by rewrite decide_True.
  - intros c Hc. unfold vset. rewrite decide_False by congruence. by apply (fr_other _ _ _ _ _ _ _ _ F).
  - intros c Hc. rewrite bit_set_off by (try done; unfold BPB in *; lia).
    destruct (decide (c = b)) as [->|Hne].
    + rewrite decide_True; [done|]. apply elem_of_app. right. apply list_elem_of_here.
    + rewrite (fr_bits _ _ _ _ _ _ _ _ F) by done. destruct (decide (c ∈ l)) as [Hin|Hin].
      * rewrite decide_True; [done|]. apply elem_of_app. by left.
      * rewrite decide_False; [done|]. rewrite elem_of_app, list_elem_of_singleton. tauto.
  - intros c [->|Hc]%elem_of_log_add; [by right|]. by apply (fr_logs _ _ _ _ _ _ _ _ F).
Qed.

(** ** The blocks of a file, in order *)

Definition blocks_upto (V : Z -> option block) (x : inode) (n : Z) : list Z := omap (file_addr V x) (seqZ 0 n).

Lemma blocks_upto_succ V x n : 0 <= n ->
  blocks_upto V x (n + 1) = blocks_upto V x n ++ match file_addr V x n with Some a => [a] | None => [] end.
Proof.
  intros Hn. unfold blocks_upto. rewrite seqZ_app, omap_app by lia. by f_equal.
Qed.

Lemma elem_of_blocks_upto V x n a : a ∈ blocks_upto V x n <-> exists bn, 0 <= bn < n /\ file_addr V x bn = Some a.
Proof. unfold blocks_upto. rewrite list_elem_of_omap. setoid_rewrite elem_of_seqZ. rewrite Z.add_0_l. done. Qed.

Lemma blocks_upto_fresh sbk V d x n a : file_ok sbk V d x -> file_range n -> file_addr V x n = Some a ->
  a ∉ blocks_upto V x n.
Proof.
  intros FO [Hn1 Hn2] Ha (bn & Hb & Hbn)%elem_of_blocks_upto.
  pose proof (fo_inj _ _ _ _ FO bn n a) as E. unfold file_range in E. rewrite E in Hb by (done || lia). lia.
Qed.

(** ** [itrunc] *)

(** The file with its first [n] addresses cleared. *)
Definition cleared (n : Z) (x : inode) : inode :=
  set_i_addrs (replicate (Z.to_nat n) 0 ++ drop (Z.to_nat n) (i_addrs x)) x.

Lemma cleared_0 x : cleared 0 x = x.
Proof. by destruct x. Qed.

Lemma cleared_step n x : 0 <= n < Z.of_nat (length (i_addrs x)) -> set_addr n 0 (cleared n x) = cleared (n + 1) x.
Proof.
  intros Hn. unfold set_addr, cleared. cbn [i_addrs set_i_addrs]. unfold set_i_addrs. cbn. f_equal.
  rewrite insert_app_r_alt, length_replicate, Nat.sub_diag by (rewrite length_replicate; lia).
  destruct (lookup_lt_is_Some_2 (i_addrs x) (Z.to_nat n)) as [a Ha]; [lia|]. rewrite (drop_S _ _ _ Ha). cbn.
  rewrite Z.add_1_r, Z2Nat.inj_succ, replicate_S_end by lia. rewrite <- app_assoc. done.
Qed.

Lemma addr_cleared n x j : 0 <= n <= j -> n <= Z.of_nat (length (i_addrs x)) -> addr_of (cleared n x) j = addr_of x j.
Proof.
  intros Hn Hl. unfold addr_of, cleared. cbn [i_addrs set_i_addrs].
  rewrite lookup_app_r, length_replicate, lookup_drop by (rewrite length_replicate; lia). do 2 f_equal. lia.
Qed.

(** An address that is zero is clear. *)
Lemma cleared_zero n x : 0 <= n < Z.of_nat (length (i_addrs x)) -> addr_of x n = 0 -> cleared n x = cleared (n + 1) x.
Proof.
  intros Hn H0. rewrite <- cleared_step by done. unfold set_addr.
  rewrite list_insert_id; [by destruct x|]. rewrite <- (addr_cleared n x n) in H0 by lia. unfold addr_of in H0.
  destruct (i_addrs (cleared n x) !! Z.to_nat n) as [a|] eqn:E; [by rewrite <- H0|].
  apply lookup_ge_None in E. unfold cleared in E. cbn [i_addrs set_i_addrs] in E.
  rewrite length_app, length_replicate, length_drop in E. lia.
Qed.

Section itrunc.
Context {bl : list Z} {V : Z -> option block} {s : kstate} {ip : Z} {x : inode} {d : block}.
Hypotheses (T : ktxn bl ∅ ∅ V s) (Hx : icache s !! ip = Some x) (F : fs_ok (sb s) V d)
  (FO : file_ok (sb s) V d x) (Hroom : Z.of_nat (length bl) + 2 < NBUF) (Hlog : log_room 2 bl).
Notation bm := (BBLOCK 0 (sb s)).

(** Block [n] of the file is freed. *)
Lemma itrunc_bfree {H} n a V1 d1 bl1 s1 (Q : unit -> kstate -> Prop) :
  freed (sb s) V d bl (blocks_upto V x n) V1 d1 bl1 -> ktxn bl1 H ∅ V1 s1 -> sb s1 = sb s -> H !! bm = None ->
  (size H <= 1)%nat -> file_range n -> file_addr V x n = Some a ->
  (forall s2 V2 d2 bl2, kframe s1 s2 -> ktxn bl2 H ∅ V2 s2 ->
     freed (sb s) V d bl (blocks_upto V x (n + 1)) V2 d2 bl2 -> Q tt s2) ->
  wp (bfree (i_dev x) a) s1 Q.
Proof.
  intros Fr T1 Es HH Hsz Hn Ha HQ. pose proof (fo_addr _ _ _ _ FO n a Hn Ha) as D. rewrite (fo_dev _ _ _ _ FO).
  eapply (bfree_freed s d); [exact Fr|exact T1|exact Es|exact HH|lia|exact Hlog|apply D|by eapply blocks_upto_fresh|apply D|].
  intros s2 V2 d2 bl2 F2 T2 Fr2. eapply HQ; [exact F2|exact T2|]. rewrite blocks_upto_succ, Ha by apply Hn. exact Fr2.
Qed.

Lemma freed_none n V1 d1 bl1 : 0 <= n -> file_addr V x n = None ->
  freed (sb s) V d bl (blocks_upto V x n) V1 d1 bl1 -> freed (sb s) V d bl (blocks_upto V x (n + 1)) V1 d1 bl1.
Proof. intros Hn Ha. by rewrite blocks_upto_succ, Ha, app_nil_r. Qed.

Lemma itrunc_direct :
  wp (for_all (seqZ 0 NDIRECT) (fun i =>
    let! x := iget_at ip in
    when (negb (addr_of x i =? 0))
      (bfree (i_dev x) (addr_of x i) ;;;
       iupd ip (set_addr i 0)))) s (fun _ s1 => exists V1 d1 bl1,
    kframe (iset ip (cleared NDIRECT x) s) s1 /\ ktxn bl1 ∅ ∅ V1 s1 /\
    freed (sb s) V d bl (blocks_upto V x NDIRECT) V1 d1 bl1).
Proof.
  pose proof (fo_len _ _ _ _ FO) as Hl.
  apply (wp_for_seq (fun n s1 => exists V1 d1 bl1, kframe (iset ip (cleared n x) s) s1 /\ ktxn bl1 ∅ ∅ V1 s1 /\
    freed (sb s) V d bl (blocks_upto V x n) V1 d1 bl1)); [|done|].
  - exists V, d, bl. rewrite cleared_0, iset_id by done. split; [done|]. split; [done|]. apply freed_nothing, F.
  - intros k s1 Hk (V1 & d1 & bl1 & F1 & T1 & Fr).
    assert (Hkl : 0 <= k < Z.of_nat (length (i_addrs x))) by (rewrite Hl; unfold NDIRECT in *; lia).
    assert (Hr : file_range k) by (unfold file_range; rewrite MAXFILE_eq; unfold NDIRECT in Hk; lia).
    assert (Ea : file_addr V x k = nonzero (addr_of x k)) by (by rewrite file_addr_eq, (proj2 (Z.ltb_lt _ _)) by lia).
    assert (Hx1 : icache s1 !! ip = Some (cleared k x)) by (rewrite (kframe_icache _ _ F1); apply icache_iset).
    apply wp_bind. eapply wp_iget_at; [exact Hx1|]. rewrite addr_cleared by lia.
    unfold nonzero in Ea. destruct (Z.eqb_spec (addr_of x k) 0) as [E0|E0]; cbn [negb when].
    + apply wp_ret. exists V1, d1, bl1. rewrite <- cleared_zero by done. split; [done|]. split; [done|].
      by apply freed_none; [lia| |].
    + change (i_dev (cleared k x)) with (i_dev x). apply wp_bind.
      eapply itrunc_bfree; [exact Fr|exact T1|apply (kframe_sb _ _ F1)|done|by rewrite map_size_empty; lia|exact Hr|exact Ea|].
      intros s2 V2 d2 bl2 F2 T2 Fr2.
      assert (Hx2 : icache s2 !! ip = Some (cleared k x)) by (rewrite (kframe_icache _ _ F2); exact Hx1).
      eapply wp_iupd; [exact Hx2|]. rewrite cleared_step by done. exists V2, d2, bl2.
      split; [|split; [exact T2|exact Fr2]]. apply (kframe_iset_set ip (cleared k x)). by etransitivity.
Qed.

Lemma itrunc_entries s1 i e V1 d1 bl1 : kframe (iset ip (cleared NDIRECT x) s) s1 ->
  ktxn bl1 {[addr_of x NDIRECT := i]} ∅ V1 s1 -> freed (sb s) V d bl (blocks_upto V x NDIRECT) V1 d1 bl1 ->
  addr_of x NDIRECT <> 0 -> V (addr_of x NDIRECT) = Some e ->
  wp (for_all (seqZ 0 NINDIRECT) (fun j =>
       let! a := getd i in
       when (negb (uint_at a j =? 0)) (bfree (i_dev (cleared NDIRECT x)) (uint_at a j)))) s1 (fun _ s2 => exists V2 d2 bl2,
    kframe (iset ip (cleared NDIRECT x) s) s2 /\ ktxn bl2 {[addr_of x NDIRECT := i]} ∅ V2 s2 /\
    freed (sb s) V d bl (blocks_upto V x MAXFILE) V2 d2 bl2).
Proof.
  intros F1 T1 Fr1 Hi He. pose proof (fo_ind _ _ _ _ FO Hi) as Di. pose proof (db_bm _ _ _ _ Di) as Hbm.
  change MAXFILE with (NDIRECT + NINDIRECT).
  apply (wp_for_seq (fun j s2 => exists V2 d2 bl2, kframe (iset ip (cleared NDIRECT x) s) s2 /\
    ktxn bl2 {[addr_of x NDIRECT := i]} ∅ V2 s2 /\ freed (sb s) V d bl (blocks_upto V x (NDIRECT + j)) V2 d2 bl2)); [|done|].
  - exists V1, d1, bl1. by rewrite Z.add_0_r.
  - intros j s2 Hj (V2 & d2 & bl2 & F2 & T2 & Fr2).
    assert (Hr : file_range (NDIRECT + j)) by (unfold file_range, MAXFILE, NDIRECT in *; lia).
    assert (Ea : file_addr V x (NDIRECT + j) = nonzero (uint_at e j)).
    { rewrite file_addr_eq, (proj2 (Z.ltb_ge _ _)), (proj2 (Z.eqb_neq _ _) Hi), He by lia.
      by replace (NDIRECT + j - NDIRECT) with j by lia. }
    apply wp_bind. eapply (k_getd _ (addr_of x NDIRECT)); [exact T2|apply lookup_singleton_eq| |].
    { by rewrite (fr_other _ _ _ _ _ _ _ _ Fr2) by done. }
    intros s3 F3 T3. assert (F03 : kframe (iset ip (cleared NDIRECT x) s) s3) by (by etransitivity).
    unfold nonzero in Ea. rewrite Z.add_assoc. destruct (Z.eqb_spec (uint_at e j) 0) as [E0|E0]; cbn [negb when].
    + apply wp_ret. exists V2, d2, bl2. split; [done|]. split; [done|]. apply freed_none; [unfold NDIRECT; lia|done|done].
    + change (i_dev (cleared NDIRECT x)) with (i_dev x).
      eapply itrunc_bfree; [exact Fr2|exact T3|apply (kframe_sb _ _ F03)| |by rewrite map_size_singleton|exact Hr|exact Ea|].
      { by rewrite lookup_singleton_ne by done. }
      intros s4 V4 d4 bl4 F4 T4 Fr4. exists V4, d4, bl4. split; [by etransitivity|done].
Qed.
End itrunc.

(** The blocks that [itrunc] frees. *)
Definition all_blocks (V : Z -> option block) (x : inode) : list Z :=
  blocks_upto V x MAXFILE ++ (if addr_of x NDIRECT =? 0 then [] else [addr_of x NDIRECT]).

Lemma elem_of_all_blocks V x b : b ∈ all_blocks V x <-> file_uses V x b.
Proof.
  unfold all_blocks. rewrite elem_of_app, elem_of_blocks_upto. unfold file_uses, file_range.
  destruct (Z.eqb_spec (addr_of x NDIRECT) 0) as [E|E].
  - rewrite elem_of_nil. split; [intros [H|[]]; by right|]. intros [[-> Hn]|H]; [done|by left].
  - rewrite list_elem_of_singleton. split; [intros [H| ->]; [by right|by left]|]. intros [[-> Hn]|H]; [by right|by left].
Qed.

Lemma blocks_upto_direct V x : addr_of x NDIRECT = 0 -> blocks_upto V x MAXFILE = blocks_upto V x NDIRECT.
Proof.
  intros H0. unfold blocks_upto. change MAXFILE with (NDIRECT + NINDIRECT). rewrite seqZ_app, omap_app by done.
  assert (E : forall l, (forall a, a ∈ l -> NDIRECT <= a) -> omap (file_addr V x) l = []).
  { induction l as [|a l IH]; intros Hl; [done|]. simpl. rewrite file_addr_eq, (proj2 (Z.ltb_ge _ _)), H0.
    - cbn [Z.eqb]. apply IH. intros b Hb. apply Hl. by apply list_elem_of_further.
    - apply Hl, list_elem_of_here. }
  rewrite (E (seqZ (0 + NDIRECT) NINDIRECT)), app_nil_r; [done|]. intros a [Ha _]%elem_of_seqZ. lia.
Qed.

Section itrunc.
Context {bl : list Z} {V : Z -> option block} {s : kstate} {ip : Z} {x : inode} {d : block}.
Hypotheses (T : ktxn bl ∅ ∅ V s) (Hx : icache s !! ip = Some x) (F : fs_ok (sb s) V d)
  (FO : file_ok (sb s) V d x) (Hroom : Z.of_nat (length bl) + 2 < NBUF) (Hlog : log_room 2 bl).
Notation bm := (BBLOCK 0 (sb s)).

(** The part for the indirect block. *)
Lemma itrunc_indirect s1 V1 d1 bl1 : kframe (iset ip (cleared NDIRECT x) s) s1 ->
  ktxn bl1 ∅ ∅ V1 s1 -> freed (sb s) V d bl (blocks_upto V x NDIRECT) V1 d1 bl1 ->
  wp (let! x := iget_at ip in
      when (negb (addr_of x NDIRECT =? 0))
        (let! bp := in_bc (bread (i_dev x) (addr_of x NDIRECT)) in
         for_all (seqZ 0 NINDIRECT) (fun j =>
           let! a := getd bp in
           when (negb (uint_at a j =? 0)) (bfree (i_dev x) (uint_at a j))) ;;;
         in_bc (brelse bp) ;;;
         bfree (i_dev x) (addr_of x NDIRECT) ;;;
         iupd ip (set_addr NDIRECT 0))) s1 (fun _ s2 => exists V2 d2 bl2,
    kframe (iset ip (cleared (NDIRECT + 1) x) s) s2 /\ ktxn bl2 ∅ ∅ V2 s2 /\
    freed (sb s) V d bl (all_blocks V x) V2 d2 bl2).
Proof.
  intros F1 T1 Fr1. pose proof (fo_len _ _ _ _ FO) as Hl. pose proof (kframe_sb _ _ F1) as Es1.
  assert (Hnd : 0 <= NDIRECT < Z.of_nat (length (i_addrs x))) by (rewrite Hl; unfold NDIRECT; lia).
  assert (Hx1 : icache s1 !! ip = Some (cleared NDIRECT x)) by (rewrite (kframe_icache _ _ F1); apply icache_iset).
  apply wp_bind. eapply wp_iget_at; [exact Hx1|]. rewrite addr_cleared by lia. unfold all_blocks.
  destruct (Z.eqb_spec (addr_of x NDIRECT) 0) as [E0|Hi]; cbn [negb when].
  { apply wp_ret. exists V1, d1, bl1. rewrite <- cleared_zero, app_nil_r, blocks_upto_direct by done. done. }
  change (i_dev (cleared NDIRECT x)) with (i_dev x). rewrite (fo_dev _ _ _ _ FO).
  pose proof (fo_ind _ _ _ _ FO Hi) as Di. destruct (db_data _ _ _ _ Di) as (e & He & Hle).
  pose proof (db_bm _ _ _ _ Di) as Hbm. pose proof (freed_length _ _ _ _ _ _ _ _ Fr1 (tn_nodup _ _ _ _ _ T1)) as Hlen.
  apply wp_bind. eapply (k_bread s1 (addr_of x NDIRECT)); [exact T1|done|eapply is_block_data; [apply F|apply Di]|
    apply not_elem_of_empty|unfold room; rewrite map_size_empty; lia|by rewrite (fr_other _ _ _ _ _ _ _ _ Fr1)|].
  intros i s2 F2 T2. assert (F02 : kframe (iset ip (cleared NDIRECT x) s) s2) by (by etransitivity).
  apply wp_bind. eapply wp_mono.
  { rewrite <- (fo_dev _ _ _ _ FO). change (i_dev x) with (i_dev (cleared NDIRECT x)).
    apply (itrunc_entries (V := V) (ip := ip) FO Hroom Hlog s2 i e V1 d1 bl1); done. }
  intros [] s3 (V3 & d3 & bl3 & F3 & T3 & Fr3).
  apply wp_bind. eapply (k_brelse s3 (addr_of x NDIRECT)); [exact T3|apply lookup_singleton_eq|apply not_elem_of_empty|].
  intros s4 F4 T4. rewrite delete_singleton_eq in T4. assert (F04 : kframe (iset ip (cleared NDIRECT x) s) s4) by (by etransitivity).
  apply wp_bind. eapply (bfree_freed s d); [exact Fr3|exact T4|apply (kframe_sb _ _ F04)|done|rewrite map_size_empty; lia|
    exact Hlog|apply Di| |apply Di|].
  { rewrite elem_of_blocks_upto. intros (bn & Hb & Hbn). by apply (fo_apart _ _ _ _ FO bn Hb). }
  intros s5 V5 d5 bl5 F5 T5 Fr5.
  assert (F05 : kframe (iset ip (cleared NDIRECT x) s) s5) by (by etransitivity).
  assert (Hx5 : icache s5 !! ip = Some (cleared NDIRECT x)) by (rewrite (kframe_icache _ _ F05); apply icache_iset).
  eapply wp_iupd; [exact Hx5|]. rewrite cleared_step by done. exists V5, d5, bl5.
  split; [|split; [exact T5|exact Fr5]]. by apply (kframe_iset_set ip (cleared NDIRECT x)).
Qed.
End itrunc.

(** The file with no blocks. *)
Definition emptied (x : inode) : inode := set_i_size 0 (set_i_addrs (replicate (Z.to_nat (NDIRECT + 1)) 0) x).

Lemma cleared_all x : length (i_addrs x) = Z.to_nat (NDIRECT + 1) -> set_i_size 0 (cleared (NDIRECT + 1) x) = emptied x.
Proof. intros Hl. unfold cleared, emptied. by rewrite drop_ge, app_nil_r by lia. Qed.

Lemma emptied_addr x i : addr_of (emptied x) i = 0.
Proof.
  unfold addr_of, emptied. cbn [i_addrs set_i_size set_i_addrs].
  destruct (replicate _ _ !! _) as [a|] eqn:E; [|done]. by apply lookup_replicate in E as [-> _].
Qed.

Lemma emptied_file V x bn : file_addr V (emptied x) bn = None.
Proof. rewrite file_addr_eq, !emptied_addr. by case_match. Qed.

Lemma emptied_ok sbk V d x V' d' : file_ok sbk V d x -> file_ok sbk V' d' (emptied x).
Proof.
  intros FO. constructor; try done.
  - apply (fo_dev _ _ _ _ FO).
  - intros bn a _. by rewrite emptied_file.
  - intros bn bn' a _ _. by rewrite emptied_file.
  - intros bn _. by rewrite emptied_file.
  - intros bn [Hb _]. change (i_size (emptied x)) with 0. rewrite BSIZE_eq. lia.
Qed.

Lemma emptied_dinode x : dinode_ok (dinode_of x) -> dinode_ok (dinode_of (emptied x)).
Proof. intros [H1 H2 H3 H4 _ _ _]. constructor; try done. cbn. repeat constructor; lia. Qed.

Lemma wp_bind_assoc {A B C} (m : KM A) (k : A -> KM B) (h : B -> KM C) s Q :
  wp (bind (bind m k) h) s Q -> wp (bind m (fun a => bind (k a) h)) s Q.
Proof. unfold wp. by rewrite bind_assoc. Qed.

Lemma file_uses_nonzero V x b : file_uses V x b -> b <> 0.
Proof. intros [[_ Hb]|(bn & _ & Hb)]; [done|by eapply file_addr_nonzero]. Qed.

Lemma emptied_fs V s x d bl bl2 V2 d2 : fs_ok (sb s) V d -> file_ok (sb s) V d x ->
  freed (sb s) V d bl (all_blocks V x) V2 d2 bl2 -> fs_ok (sb s) V2 d2.
Proof.
  intros F FO Fr. constructor; [apply Fr|].
  intros b Hb. rewrite (fr_bits _ _ _ _ _ _ _ _ Fr) by lia. intros Hbit.
    assert (G : b <> BBLOCK 0 (sb s) /\ b <> 0 /\ is_Some (V b)).
    { destruct (decide (b ∈ all_blocks V x)) as [Hin|Hin]; [|by apply (fk_free _ _ _ F)].
      apply elem_of_all_blocks in Hin. pose proof (file_uses_data _ _ _ _ _ FO Hin) as [_ _ D3 (e' & D4 & _)].
      split; [done|]. split; [by eapply file_uses_nonzero|by exists e']. }
    destruct G as (G1 & G2 & G3). split; [done|]. split; [done|]. by rewrite (fr_other _ _ _ _ _ _ _ _ Fr).
Qed.

Lemma vset_fs sbk V d b e : fs_ok sbk V d -> b <> BBLOCK 0 sbk -> fs_ok sbk (vset V b e) d.
Proof.
  intros [[B1 B2 B3 B4] Hf] Hne. constructor.
  - constructor; try done. unfold vset. by rewrite decide_False by congruence.
  - intros a Ha Hc. destruct (Hf a Ha Hc) as (H1 & H2 & H3). split_and!; try done. unfold vset. by case_decide.
Qed.

(** The file [x] was freed, and its inode on the disk is [y]: the bitmap lost the
    bits of exactly the blocks that the file used; every block but the bitmap
    and the inode's own is as it was, and so is every other inode; at most
    these two blocks were logged. *)
Record erased (sbk : superblock) (V : Z -> option block) (d : block) (bl : list Z) (x : inode) (y : dinode)
    (V' : Z -> option block) (d' : block) (bl' : list Z) : Prop := {
  er_fs : fs_ok sbk V' d';
  er_bits : forall b, 0 <= b -> (file_uses V x b -> bit_set d' b = false) /\
    (~ file_uses V x b -> bit_set d' b = bit_set d b);
  er_keep : forall c, c <> BBLOCK 0 sbk -> c <> IBLOCK (i_inum x) sbk -> V' c = V c;
  er_inode : inode_at sbk V' (i_inum x) = Some y;
  er_others : forall j, 0 <= j < 2 ^ 32 -> j <> i_inum x -> IBLOCK j sbk <> BBLOCK 0 sbk ->
    inode_at sbk V' j = inode_at sbk V j;
  er_logs : forall c, c ∈ bl' -> c ∈ bl \/ c = BBLOCK 0 sbk \/ c = IBLOCK (i_inum x) sbk;
  er_block : exists e, V' (IBLOCK (i_inum x) sbk) = Some e /\ length e = Z.to_nat BSIZE
}.

(** A file that shares no block with it is the same. *)
Lemma erased_other sbk V d bl x y V' d' bl' z : erased sbk V d bl x y V' d' bl' -> file_ok sbk V d z ->
  (forall c, file_uses V z c -> ~ file_uses V x c /\ c <> IBLOCK (i_inum x) sbk) ->
  file_ok sbk V' d' z /\ forall i, in_file i -> file_byte V' z i = file_byte V z i.
Proof.
  intros E FOz Hz. assert (HV : forall c, file_uses V z c -> V' c = V c).
  { intros c Hc. apply (er_keep _ _ _ _ _ _ _ _ _ E); [apply (file_uses_data _ _ _ _ _ FOz Hc)|by apply Hz]. }
  split; [|intros i; by apply frame_byte]. apply (frame_file HV (d := d)); [|done]. intros c Hc [D1 D2 D3 D4].
  constructor; [done| |done|by rewrite HV]. rewrite (proj2 (er_bits _ _ _ _ _ _ _ _ _ E c (proj1 D1))); [done|]. by apply Hz.
Qed.

(** The inode's block is written once more. *)
Lemma erased_rewrite sbk V d bl x y V' d' bl' z e : erased sbk V d bl x y V' d' bl' ->
  IBLOCK (i_inum x) sbk <> BBLOCK 0 sbk -> 0 <= i_inum x < 2 ^ 32 -> dinode_ok z ->
  V' (IBLOCK (i_inum x) sbk) = Some e -> length e = Z.to_nat BSIZE ->
  erased sbk V d bl x z (vset V' (IBLOCK (i_inum x) sbk) (put_dinode e (dinode_off (i_inum x)) z)) d'
    (log_add (IBLOCK (i_inum x) sbk) bl').
Proof.
  intros [E1 E2 E3 E4 E5 E6 E7] Hne Hnum Hz He Hle. pose proof (dinode_off_range (i_inum x)) as Hoff. constructor.
  - by apply vset_fs.
  - exact E2.
  - intros c Hc1 Hc2. unfold vset. rewrite decide_False by done. by apply E3.
  - unfold inode_at, vset. rewrite decide_True by done. cbn [fmap option_fmap option_map]. f_equal.
    apply get_put_dinode; [done|lia].
  - intros j Hj Hne' Hjb. rewrite <- E5 by done. unfold inode_at, vset.
    destruct (decide (IBLOCK j sbk = IBLOCK (i_inum x) sbk)) as [E|E]; [|done].
    rewrite E, He. cbn [fmap option_fmap option_map]. f_equal. apply get_put_dinode_other; [apply Hz|lia|].
    apply or_comm, dinode_off_apart. intros Em. apply Hne'. symmetry. by eapply inode_place.
  - intros c [->|Hc]%elem_of_log_add; [by right; right|by apply E6].
  - eexists. split; [unfold vset; by rewrite decide_True|]. rewrite length_put_dinode; [done|apply Hz|lia].
Qed.

Lemma itrunc_spec bl V s ip x d (Q : unit -> kstate -> Prop) :
  ktxn bl ∅ ∅ V s -> icache s !! ip = Some x -> fs_ok (sb s) V d -> file_ok (sb s) V d x -> dinode_ok (dinode_of x) ->
  0 <= i_inum x < 2 ^ 32 -> data_block (sb s) V d (IBLOCK (i_inum x) (sb s)) ->
  ~ file_uses V x (IBLOCK (i_inum x) (sb s)) -> Z.of_nat (length bl) + 2 < NBUF -> log_room 2 bl ->
  (forall bl' V' d' s', kframe (iset ip (emptied x) s) s' -> ktxn bl' ∅ ∅ V' s' ->
     erased (sb s) V d bl x (dinode_of (emptied x)) V' d' bl' -> Q tt s') ->
  wp (itrunc ip) s Q.
Proof.
  intros T Hx F FO Hok Hnum Hib Hnu Hroom Hlog HQ. set (ib := IBLOCK (i_inum x) (sb s)) in *.
  unfold itrunc. pose proof (fo_len _ _ _ _ FO) as Hl.
  apply wp_bind. eapply wp_mono; [by apply (itrunc_direct T Hx F FO)|]. intros [] s1 (V1 & d1 & bl1 & F1 & T1 & Fr1).
  apply wp_bind_assoc, wp_bind. eapply wp_mono; [by apply (itrunc_indirect F FO Hroom Hlog s1 V1 d1 bl1)|].
  intros [] s2 (V2 & d2 & bl2 & F2 & T2 & Fr2). set (x13 := cleared (NDIRECT + 1) x) in *.
  assert (Hx2 : icache s2 !! ip = Some x13) by (rewrite (kframe_icache _ _ F2); apply icache_iset).
  apply wp_bind. eapply wp_iupd; [exact Hx2|]. unfold x13. rewrite cleared_all by done. fold x13.
  assert (F3 : kframe (iset ip (emptied x) s) (iset ip (emptied x) s2)) by by apply (kframe_iset_set ip x13).
  assert (Es : sb (iset ip (emptied x) s2) = sb s) by apply (kframe_sb _ _ F3).
  destruct (db_data _ _ _ _ Hib) as (e & He & Hle). pose proof (db_bm _ _ _ _ Hib) as Hne.
  assert (He2 : V2 ib = Some e) by (by rewrite (fr_other _ _ _ _ _ _ _ _ Fr2)).
  pose proof (freed_length _ _ _ _ _ _ _ _ Fr2 (tn_nodup _ _ _ _ _ T2)) as Hlen.
  pose proof (emptied_dinode x Hok) as Hok'.
  assert (Hbits : forall b, 0 <= b -> (file_uses V x b -> bit_set d2 b = false) /\
    (~ file_uses V x b -> bit_set d2 b = bit_set d b)).
  { intros b Hb. rewrite (fr_bits _ _ _ _ _ _ _ _ Fr2), <- elem_of_all_blocks by done.
    split; intros Hin; [by rewrite decide_True|by rewrite decide_False]. }
  assert (E2 : erased (sb s) V d bl x (get_dinode e (dinode_off (i_inum x))) V2 d2 bl2).
  { constructor; [by apply (emptied_fs V s x d bl bl2 V2 d2)|exact Hbits| | | | |by exists e].
    - intros c Hc _. by apply (fr_other _ _ _ _ _ _ _ _ Fr2).
    - unfold inode_at. fold ib. by rewrite He2.
    - intros j _ _ Hjb. unfold inode_at. by rewrite (fr_other _ _ _ _ _ _ _ _ Fr2).
    - intros c Hc. apply (fr_logs _ _ _ _ _ _ _ _ Fr2) in Hc as [Hc|Hc]; auto. }
  eapply (iupdate_spec (iset ip (emptied x) s2) ip (emptied x) e); rewrite ?Es; try done.
  { apply icache_iset. } { apply (fo_dev _ _ _ _ FO). }
  { eapply is_block_data; [exact F|apply Hib]. } { unfold room. rewrite map_size_empty. lia. } { unfold log_room in *. lia. }
  change (i_inum (emptied x)) with (i_inum x). intros s4 F4 T4. eapply HQ; [by etransitivity|exact T4|].
  by apply (erased_rewrite _ _ _ _ _ _ _ _ _ _ _ E2).
Qed.

(** ** [iput] *)

Lemma procs_ok_frame s s' : kframe s s' -> procs_ok s -> procs_ok s'.
Proof.
  intros (c & l & -> & _) [H1 H2]. unfold deliver, set_procs, set_lo. split; cbn.
  - intros i. rewrite lookup_fmap, fmap_is_Some. apply H1.
  - intros i y. rewrite lookup_fmap. destruct (procs s !! i) as [z|] eqn:E; [|done]. intros [= <-].
    assert (Hw : forall ch p, p_lock (wake ch p) = p_lock p) by (intros ch p; unfold wake; by repeat case_match).
    induction c as [|ch c IH]; simpl; [by apply (H2 i)|]. by rewrite Hw.
Qed.

Lemma inode_spin_get s ip x : icache s !! ip = Some x -> lget (lk_lens (inode_lock ip)) s = sl_lk (i_lock x).
Proof. intros Hx. cbn. by rewrite Hx. Qed.

Lemma inode_spin_set s ip x b : icache s !! ip = Some x ->
  lset (lk_lens (inode_lock ip)) b s =
    iset ip (set_i_lock (Sleeplock (sl_locked (i_lock x)) b (sl_pid (i_lock x))) x) s.
Proof.
  intros Hx. unfold lk_lens. cbn [lset]. rewrite (inode_lock_set s ip x) by done. cbn [lget inode_lock]. by rewrite Hx.
Qed.

Lemma inode_release s ip x (Q : unit -> kstate -> Prop) :
  procs_ok s -> icache s !! ip = Some x -> sl_lk (i_lock x) = false ->
  (forall s', kframe (iset ip (set_i_lock no_lock x) s) s' -> lo s' = lo s -> Q tt s') ->
  wp (releasesleep (inode_lock ip) (inode_chan ip)) s Q.
Proof.
  intros Hp Hx Hl HQ. unfold releasesleep, spin_acquire, spin_release.
  apply wp_bind, wp_bind, wp_gets. rewrite (inode_spin_get s ip x), Hl by done. apply wp_modify.
  rewrite (inode_spin_set s ip x) by done. set (x1 := set_i_lock _ x).
  apply wp_bind, wp_gets. apply wp_bind, wp_modify. rewrite (inode_lock_set _ ip x1) by apply icache_iset.
  rewrite iset_iset. set (x2 := set_i_lock _ x1).
  apply wp_bind. apply wakeup_spec; [exact Hp|]. set (s2 := set_procs _ _).
  assert (Hx2 : icache s2 !! ip = Some x2) by apply icache_iset.
  apply wp_bind, wp_gets. rewrite (inode_spin_get s2 ip x2) by done. cbn [i_lock set_i_lock x2 x1 sl_lk].
  assert (Hk : sl_lk (lget (inode_lock ip) (iset ip x1 s)) = true) by (cbn; by rewrite lookup_insert_eq).
  rewrite Hk. apply wp_modify. rewrite (inode_spin_set s2 ip x2) by done. apply HQ; [|done].
  exists [inode_chan ip], (lo s). split; [|done].
  unfold s2, iset, deliver, set_procs, set_icache, set_lo. cbn. f_equal. by rewrite insert_insert_eq.
Qed.

(** The inode slot after the last reference to a file without links is dropped. *)
Definition dropped (x : inode) : inode := set_i_ref 0 (set_i_valid false (set_i_type 0 (emptied x))).

Lemma erased_length sbk V d bl x y V' d' bl' : erased sbk V d bl x y V' d' bl' -> NoDup bl' ->
  Z.of_nat (length bl') <= Z.of_nat (length bl) + 2.
Proof.
  intros E Hnd. assert (Hs : bl' ⊆+ bl ++ [BBLOCK 0 sbk; IBLOCK (i_inum x) sbk]).
  { apply NoDup_submseteq; [done|]. intros c Hc. rewrite elem_of_app.
    destruct (er_logs _ _ _ _ _ _ _ _ _ E c Hc) as [?|[-> | ->]]; [by left|right; apply list_elem_of_here|].
    right. apply list_elem_of_further, list_elem_of_here. }
  apply submseteq_length in Hs. rewrite length_app in Hs. simpl in Hs. lia.
Qed.

Lemma iput_cached s ip x : icache s !! ip = Some x -> icache_lock s = false ->
  (i_ref x =? 1) && i_valid x && (i_nlink x =? 0) = false ->
  iput ip s = Ret tt (iset ip (set_i_ref (s32 (i_ref x - 1)) x) s).
Proof.
  intros Hx Hl Hc. enough (Hw : wp (iput ip) s (fun _ s' => s' = iset ip (set_i_ref (s32 (i_ref x - 1)) x) s)).
  { by apply wp_inv in Hw as ([] & s' & E & ->). }
  unfold iput. apply wp_bind, wp_icache_acquire; [done|]. apply wp_bind. eapply wp_iget_at; [exact Hx|].
  rewrite Hc. cbn [when]. apply wp_bind, wp_ret. apply wp_bind. eapply wp_iupd; [exact Hx|].
  apply wp_icache_release; [done|]. by apply set_icache_lock_id.
Qed.

Lemma iput_free bl V s ip x d :
  ktxn bl ∅ ∅ V s -> icache s !! ip = Some x -> icache_lock s = false -> procs_ok s -> i_lock x = no_lock ->
  i_ref x = 1 -> i_valid x = true -> i_nlink x = 0 ->
  fs_ok (sb s) V d -> file_ok (sb s) V d x -> dinode_ok (dinode_of x) -> 0 <= i_inum x < 2 ^ 32 ->
  data_block (sb s) V d (IBLOCK (i_inum x) (sb s)) -> ~ file_uses V x (IBLOCK (i_inum x) (sb s)) ->
  Z.of_nat (length bl) + 2 < NBUF -> log_room 3 bl ->
  wp (iput ip) s (fun _ s' => exists bl' V' d', kframe (iset ip (dropped x) s) s' /\ ktxn bl' ∅ ∅ V' s' /\
    erased (sb s) V d bl x (dinode_of (dropped x)) V' d' bl').
Proof.
  intros T Hx Hlk Hp Hil Hr Hv Hn F FO Hok Hnum Hib Hnu Hroom Hlog.
  unfold iput. apply wp_bind, wp_icache_acquire; [done|]. apply wp_bind. eapply wp_iget_at; [exact Hx|].
  rewrite Hr, Hv, Hn. cbn [Z.eqb Pos.eqb andb when]. apply wp_bind.
  apply wp_bind. eapply wp_eq; [by apply (inode_acquire (set_icache_lock true s) ip x)|].
  apply wp_bind, wp_icache_release; [done|]. rewrite set_icache_lock_id by done.
  change (kpid (set_icache_lock true s)) with (kpid s). set (x1 := set_i_lock (held (kpid s)) x).
  apply wp_bind. eapply (itrunc_spec bl V (iset ip x1 s) ip x1 d); [exact T|apply icache_iset|exact F|by destruct FO|
    exact Hok|exact Hnum|exact Hib|exact Hnu|exact Hroom|unfold log_room in *; lia|].
  intros bl2 V2 d2 s2 F2 T2 E2. rewrite iset_iset in F2. change (sb (iset ip x1 s)) with (sb s) in E2.
  assert (Hx2 : icache s2 !! ip = Some (emptied x1)) by (rewrite (kframe_icache _ _ F2); apply icache_iset).
  apply wp_bind. eapply wp_iupd; [exact Hx2|]. set (x3 := set_i_type 0 (emptied x1)).
  assert (F3 : kframe (iset ip x3 s) (iset ip x3 s2)) by by apply (kframe_iset_set ip (emptied x1)).
  assert (Es : sb (iset ip x3 s2) = sb s) by apply (kframe_sb _ _ F3).
  destruct (er_block _ _ _ _ _ _ _ _ _ E2) as (e & He & Hle). change (i_inum x1) with (i_inum x) in He.
  pose proof (erased_length _ _ _ _ _ _ _ _ _ E2 (tn_nodup _ _ _ _ _ T2)) as Hlen.
  assert (Hok3 : dinode_ok (dinode_of x3)).
  { pose proof (emptied_dinode x Hok) as [O1 O2 O3 O4 O5 O6 O7]. constructor; try done. }
  apply wp_bind. eapply (iupdate_spec (iset ip x3 s2) ip x3 e); rewrite ?Es; try done.
  { apply icache_iset. } { apply (fo_dev _ _ _ _ FO). } { eapply is_block_data; [exact F|apply Hib]. }
  { unfold room. rewrite map_size_empty. lia. } { unfold log_room in *. lia. }
  change (i_inum x3) with (i_inum x). intros s4 F4 T4.
  apply (erased_rewrite _ _ _ _ _ _ _ _ _ (dinode_of x3) e) in E2; [|apply Hib|exact Hnum|exact Hok3|exact He|exact Hle].
  change (i_inum x1) with (i_inum x) in E2. set (V4 := vset V2 _ _) in *. set (bl4 := log_add _ bl2) in *.
  assert (F04 : kframe (iset ip x3 s) s4) by (by etransitivity).
  assert (Hx4 : icache s4 !! ip = Some x3) by (rewrite (kframe_icache _ _ F04); apply icache_iset).
  apply wp_bind. eapply wp_iupd; [exact Hx4|]. set (x5 := set_i_valid false x3).
  assert (F05 : kframe (iset ip x5 s) (iset ip x5 s4)) by by apply (kframe_iset_set ip x3).
  apply wp_bind. eapply inode_release; [by apply (procs_ok_frame _ _ F05)|apply icache_iset|done|].
  intros s6 F6 El. rewrite iset_iset in F6. set (x6 := set_i_lock no_lock x5) in *.
  assert (F06 : kframe (iset ip x6 s) s6) by (transitivity (iset ip x6 s4); [by apply (kframe_iset_set ip x3)|done]).
  apply wp_icache_acquire; [by rewrite (proj1 (proj2 (kframe_eqs _ _ F06)))|].
  assert (Hx6 : icache (set_icache_lock true s6) !! ip = Some x6) by (rewrite <- (icache_iset ip x6 s); by rewrite <- (kframe_icache _ _ F06)).
  apply wp_bind. eapply wp_iupd; [exact Hx6|]. apply wp_icache_release; [done|].
  rewrite set_icache_lock_id by (by rewrite (proj1 (proj2 (kframe_eqs _ _ F06)))).
  assert (E7 : set_i_ref (s32 (i_ref x6 - 1)) x6 = dropped x).
  { change (i_ref x6) with (i_ref x). rewrite Hr. change (s32 (1 - 1)) with 0. unfold dropped, x6, x5, x3, x1.
    destruct x; cbn in *; subst; done. }
  rewrite E7. exists bl4, V4, d2. split; [|split].
  - by apply (kframe_iset_set ip x6).
  - unfold ktxn in *. change (lo (iset ip (dropped x) s6)) with (lo s6). by rewrite El.
  - destruct E2. by constructor.
Qed.

(** C10: [iput] drops a reference to an inode, and frees the file with the last
    one.  Unless the reference is the last, the inode is valid and the file has
    no links, it only decrements the count.  Otherwise it truncates the file and
    frees its inode: the bitmap loses the bits of exactly the blocks that the
    file used, its indirect block included; the inode on the disk has type 0
    and no blocks, and its slot no reference; every block but the bitmap and the
    inode's own is as it was, hence every other inode and every file that
    shares no block with this one; the file system stays well formed, the
    sleep lock is free again, and at most two blocks are logged. *)
Theorem iput_correct bl V s ip x d
    (T : ktxn bl ∅ ∅ V s) (Hx : icache s !! ip = Some x) (Hlk : icache_lock s = false) (Hp : procs_ok s)
    (Hil : i_lock x = no_lock) (F : fs_ok (sb s) V d) (FO : file_ok (sb s) V d x) (Hok : dinode_ok (dinode_of x))
    (Hnum : 0 <= i_inum x < 2 ^ 32) (Hib : data_block (sb s) V d (IBLOCK (i_inum x) (sb s)))
    (Hnu : ~ file_uses V x (IBLOCK (i_inum x) (sb s))) (Hroom : Z.of_nat (length bl) + 2 < NBUF) (Hlog : log_room 3 bl) :
  if (i_ref x =? 1) && i_valid x && (i_nlink x =? 0)
  then wp (iput ip) s (fun _ s' => exists bl' V' d',
    kframe (iset ip (dropped x) s) s' /\ ktxn bl' ∅ ∅ V' s' /\
    erased (sb s) V d bl x (dinode_of (dropped x)) V' d' bl' /\
    (forall y, file_ok (sb s) V d y ->
       (forall c, file_uses V y c -> ~ file_uses V x c /\ c <> IBLOCK (i_inum x) (sb s)) ->
       file_ok (sb s) V' d' y /\ forall i, in_file i -> file_byte V' y i = file_byte V y i))
  else iput ip s = Ret tt (iset ip (set_i_ref (s32 (i_ref x - 1)) x) s).
Proof.
  destruct ((i_ref x =? 1) && i_valid x && (i_nlink x =? 0)) eqn:E; [|by apply iput_cached].
  apply andb_true_iff in E as [[Er%Z.eqb_eq Ev]%andb_true_iff En%Z.eqb_eq].
  eapply wp_mono; [by apply (iput_free bl V s ip x d)|]. intros [] s' (bl' & V' & d' & F' & T' & E'). exists bl', V', d'.
  split; [done|]. split; [done|]. split; [done|]. intros y. by apply (erased_other _ _ _ _ _ _ _ _ _ _ E').
Qed.

(** A file with one block, 50, and an indirect block, 51. *)
Definition w_file : inode := Inode ROOTDEV 7 1 no_lock true T_FILE 0 3 0 1000 (50 :: zeros 11 ++ [51]).

Lemma w_file_zero bn : 0 < bn < NDIRECT -> addr_of w_file bn = 0.
Proof.
  intros Hb. unfold NDIRECT in Hb. unfold addr_of, w_file. cbn [i_addrs]. destruct (Z.to_nat bn) as [|n] eqn:E; [lia|].
  change ((50 :: zeros 11 ++ [51]) !! S n) with ((zeros 11 ++ [51]) !! n). unfold zeros.
  rewrite lookup_app_l, lookup_replicate_2 by (rewrite ?length_replicate; lia). done.
Qed.

Lemma w_file_addr bn : file_range bn ->
  file_addr (fun b => Some (w_blocks b)) w_file bn = if bn =? 0 then Some 50 else None.
Proof.
  intros Hr. rewrite file_addr_eq. destruct (Z.ltb_spec bn NDIRECT) as [Hlt|Hge].
  - destruct (Z.eqb_spec bn 0) as [->|Hn]; [done|]. rewrite w_file_zero; [done|]. destruct Hr. lia.
  - rewrite (proj2 (Z.eqb_neq bn 0)) by (unfold NDIRECT in Hge; lia). change (addr_of w_file NDIRECT) with 51.
    cbn [Z.eqb mbind option_bind]. change (w_blocks 51) with zero_data.
    by rewrite uint_at_zero by by apply file_range_indirect.
Qed.

Lemma w_file_data a : a = 50 \/ a = 51 -> data_block w_sb (fun b => Some (w_blocks b)) w_bitmap a.
Proof. intros [-> | ->]; (constructor; [by split|reflexivity|discriminate|exists zero_data; split; reflexivity]). Qed.

Lemma w_file_ok : file_ok w_sb (fun b => Some (w_blocks b)) w_bitmap w_file.
Proof.
  constructor; try reflexivity; try (split; [discriminate|discriminate]).
  - intros bn a Hr. rewrite w_file_addr by done. case_match; [|done]. intros [= <-]. apply w_file_data. by left.
  - intros _. apply w_file_data. by right.
  - intros bn bn' a Hr Hr'. rewrite !w_file_addr by done.
    destruct (Z.eqb_spec bn 0), (Z.eqb_spec bn' 0); congruence.
  - intros bn Hr. rewrite w_file_addr by done. by case_match.
  - intros bn Hr Hs. rewrite w_file_addr by done. change (i_size w_file) with 1000 in Hs. rewrite BSIZE_eq in Hs.
    destruct Hr. by rewrite (proj2 (Z.eqb_eq bn 0)) by lia.
Qed.

Lemma w_file_dinode : dinode_ok (dinode_of w_file).
Proof. constructor; try (split; [discriminate|reflexivity]); [reflexivity|]. repeat constructor; lia. Qed.

Lemma w_file_uses : file_uses (fun b => Some (w_blocks b)) w_file 50 /\ file_uses (fun b => Some (w_blocks b)) w_file 51 /\
  ~ file_uses (fun b => Some (w_blocks b)) w_file 32 /\ ~ file_uses (fun b => Some (w_blocks b)) w_file 52.
Proof.
  assert (Hn : forall c, c <> 50 -> c <> 51 -> ~ file_uses (fun b => Some (w_blocks b)) w_file c).
  { intros c H1 H2 [[Hc _]|(bn & Hr & Hc)]; [by apply H2|]. rewrite w_file_addr in Hc by done. case_match; congruence. }
  split; [right; exists 0; split; [by split|by rewrite w_file_addr]|]. split; [by left|]. split; by apply Hn.
Qed.

Lemma iput_correct_witness : exists s, icache s !! 0 = Some w_file /\
  wp (iput 0) s (fun _ s' => exists V' d', inode_at w_sb V' 7 = Some (dinode_of (dropped w_file)) /\
    bit_set d' 50 = false /\ bit_set d' 51 = false /\ bit_set d' 52 = true).
Proof.
  destruct (open_txn w_blocks w_sb) as (s0 & T & Hsb & _ & Hlk & Hpr & _). set (s := iset 0 w_file s0).
  assert (Hi : icache s !! 0 = Some w_file) by apply icache_iset. assert (Hsb' : sb s = w_sb) by exact Hsb.
  assert (Hlk' : icache_lock s = false) by exact Hlk. assert (Hpr' : procs s = table NPROC bss_proc) by exact Hpr.
  destruct w_file_uses as (U1 & U2 & U3 & U4).
  exists s. split; [exact Hi|]. pose proof (iput_correct [] (fun b => Some (w_blocks b)) s 0 w_file w_bitmap T) as Hc.
  rewrite Hsb' in Hc. clearbody s. change ((i_ref w_file =? 1) && i_valid w_file && (i_nlink w_file =? 0)) with true in Hc.
  cbv iota in Hc. eapply wp_mono; [apply Hc|].
  - exact Hi.
  - exact Hlk'.
  - exact (boot_procs_ok s Hpr').
  - reflexivity.
  - by apply w_fs_ok.
  - exact w_file_ok.
  - exact w_file_dinode.
  - split; [discriminate|reflexivity].
  - constructor; [by split|reflexivity|discriminate|eexists; split; reflexivity].
  - exact U3.
  - reflexivity.
  - discriminate.
  - cbv beta. intros _ s' (bl' & V' & d' & _ & _ & [_ Hb _ Hin _ _ _] & _). exists V', d'. split; [exact Hin|].
    split; [apply (Hb 50); [discriminate|exact U1]|]. split; [apply (Hb 51); [discriminate|exact U2]|].
    rewrite (proj2 (Hb 52 ltac:(discriminate)) U4). reflexivity.
Defined.
