(* ===== verification/Keeps.v ===== *)
(** What the kernel leaves alone: the functions that change neither the file table
    nor a descriptor.

    [fview] is what the code for descriptors works on: for each entry of the file
    table its reference count and type, for each process its descriptors, and
    whether it has ended.  A function that [keeps] it changes none of this,
    whether it returns or switches to the scheduler; [keeps_tac] proves it by a
    walk through the body, for the console, the file system, [exec] and most
    system calls. *)
From S2P Require Import Prelude CString Bytes Locks Kalloc Vm Bio Log Kernel Console Fs File Proc Exec Sysfile.

(** A process that has ended, or a free slot. *)
Definition is_dead (st : procstate) : bool :=
  match st with UNUSED | ZOMBIE => true | _ => false end.

Record fview := FView {
  fv_files : gmap Z (Z * ftype);
  fv_tabs : gmap Z (list Z * bool);
  fv_cur : Z
}.
Definition file_view (x : file) : Z * ftype := (f_ref x, f_type x).
Definition proc_view (x : proc) : list Z * bool := (p_ofile x, is_dead (p_state x)).
Definition fds (s : kstate) : fview :=
  FView (file_view <$> ftable s) (proc_view <$> procs s) (cur s).

(** The process that runs exists and has not ended. *)
Definition live (v : fview) : Prop := exists l, fv_tabs v !! fv_cur v = Some (l, false).

(** What holds if a run returns, and if it switches to the scheduler. *)
Definition wlps {A} (m : KM A) (s : kstate) (Q : A -> kstate -> Prop) (R : kstate -> Prop) : Prop :=
  match m s with Ret a s' => Q a s' | Sleep s' => R s' | _ => True end.

Lemma wlps_bind {A B} (m : KM A) (k : A -> KM B) s Q R :
  wlps m s (fun a s' => wlps (k a) s' Q R) R -> wlps (bind m k) s Q R.
Proof. unfold wlps, bind. by destruct (m s). Qed.

Lemma wlps_mono {A} (m : KM A) s (Q1 Q2 : A -> kstate -> Prop) (R1 R2 : kstate -> Prop) :
  wlps m s Q1 R1 -> (forall a s', Q1 a s' -> Q2 a s') -> (forall s', R1 s' -> R2 s') -> wlps m s Q2 R2.
Proof. unfold wlps. destruct (m s); naive_solver. Qed.

(** [m] changes neither the file table nor the descriptors, and does not switch
    to the scheduler unless [sw] holds. *)
Definition kept (sw : Prop) {A} (m : KM A) : Prop := forall s, live (fds s) ->
  wlps m s (fun _ s' => fds s' = fds s) (fun s' => sw /\ fds s' = fds s).
Abbreviation keeps := (kept True).

(** ** The state *)

Lemma proc_view_wake c x : proc_view (wake c x) = proc_view x.
Proof. unfold wake. destruct (p_state x) eqn:E; try done. case_match; [|done]. unfold proc_view. cbn. by rewrite E. Qed.

Lemma fds_set_procs s m : proc_view <$> m = proc_view <$> procs s -> fds (set_procs m s) = fds s.
Proof. intros E. unfold fds. cbn. by rewrite E. Qed.

Lemma fds_set_ftable s m : file_view <$> m = file_view <$> ftable s -> fds (set_ftable m s) = fds s.
Proof. intros E. unfold fds. cbn. by rewrite E. Qed.

Lemma alter_view {X Y} (f : X -> Y) (g : X -> X) (m : gmap Z X) i :
  (forall x, f (g x) = f x) -> f <$> alter g i m = f <$> m.
Proof.
  intros H. apply map_eq. intros j. rewrite !lookup_fmap. destruct (decide (j = i)) as [->|Hne].
  - rewrite lookup_alter_eq. destruct (m !! i); cbn; [by rewrite H|done].
  - by rewrite lookup_alter_ne.
Qed.

Lemma insert_view {X Y} (f : X -> Y) (m : gmap Z X) i x y :
  m !! i = Some x -> f y = f x -> f <$> <[i := y]> m = f <$> m.
Proof.
  intros Hx H. apply map_eq. intros j. rewrite !lookup_fmap. destruct (decide (j = i)) as [->|Hne].
  - rewrite lookup_insert_eq, Hx. cbn. by rewrite H.
  - by rewrite lookup_insert_ne.
Qed.

(** A lens on another part of the state. *)
Definition off_fds {A} (l : lens kstate A) : Prop := forall b s, fds (lset l b s) = fds s.

Lemma off_inode_lock ip : off_fds (inode_lock ip).
Proof. done. Qed.

Lemma off_pipe_lk pi : off_fds (pipe_lk pi).
Proof. done. Qed.

Lemma off_proc_lk p : off_fds (proc_lk p).
Proof. intros b s. apply fds_set_procs. by apply alter_view. Qed.

(** ** The constructs of the model *)

Section kept.
Context (sw : Prop).

Lemma kept_ret {A} (a : A) : kept sw (ret a).
Proof. by intros s _. Qed.

Lemma kept_panic {A} msg : kept sw (panic (A := A) msg).
Proof. by intros s _. Qed.

Lemma kept_fuel {A} : kept sw (fun _ => Fuel (A := A)).
Proof. by intros s _. Qed.

Lemma kept_gets {A} (f : kstate -> A) : kept sw (gets f).
Proof. by intros s _. Qed.

Lemma kept_modify f : (forall s, fds (f s) = fds s) -> kept sw (modify f).
Proof. intros Hf s _. apply Hf. Qed.

Lemma kept_of_option {A} msg (o : option A) : kept sw (of_option msg o).
Proof. by destruct o. Qed.

Lemma kept_bind {A B} (m : KM A) (k : A -> KM B) : kept sw m -> (forall a, kept sw (k a)) -> kept sw (bind m k).
Proof.
  intros Hm Hk s Hl. apply wlps_bind. eapply wlps_mono; [by apply Hm| |done].
  intros a s' E. cbv beta. rewrite <- E. apply Hk. by rewrite E.
Qed.

Lemma kept_when c (m : KM unit) : kept sw m -> kept sw (when c m).
Proof. intros Hm. destruct c; [done|apply kept_ret]. Qed.

Lemma kept_for_each {X R} (l : list X) (body : X -> KM (option R)) :
  (forall x, kept sw (body x)) -> kept sw (for_each l body).
Proof.
  intros Hb. induction l as [|x l IH]; cbn [for_each]; [apply kept_ret|].
  apply kept_bind; [done|]. intros [r|]; [apply kept_ret|done].
Qed.

Lemma kept_for_all {X} (l : list X) (body : X -> KM unit) :
  (forall x, kept sw (body x)) -> kept sw (for_all l body).
Proof. intros Hb. induction l as [|x l IH]; cbn [for_all]; [apply kept_ret|]. by apply kept_bind. Qed.

Lemma kept_loop {A R} (a : A) (body : A -> KM (A + R)) : (forall a, kept sw (body a)) -> kept sw (loop a body).
Proof.
  intros Hb. unfold loop. apply kept_bind.
  - generalize 64%nat. intros n. revert a. induction n as [|n IH]; intros a; cbn [while_log]; [done|].
    apply kept_bind; [done|]. intros [a'|r]; [done|apply kept_ret].
  - intros [a'|r]; [apply kept_fuel|apply kept_ret].
Qed.

Lemma kept_acquire l : off_fds l -> kept sw (spin_acquire l).
Proof. intros H. apply kept_bind; [apply kept_gets|]. intros []; [apply kept_panic|by apply kept_modify]. Qed.

Lemma kept_release l : off_fds l -> kept sw (spin_release l).
Proof. intros H. apply kept_bind; [apply kept_gets|]. intros []; [by apply kept_modify|apply kept_panic]. Qed.

Lemma kept_pupd p g : (forall x, proc_view (g x) = proc_view x) -> kept sw (pupd p g).
Proof.
  intros Hg s _. unfold pupd, proc_at, bind, gets, of_option, wlps. destruct (procs s !! p) eqn:E; [|done].
  cbn. apply fds_set_procs. by eapply insert_view.
Qed.

Lemma kept_fupd f g : (forall x, file_view (g x) = file_view x) -> kept sw (fupd f g).
Proof.
  intros Hg s _. unfold fupd, file_at, bind, gets, of_option, wlps. destruct (ftable s !! f) eqn:E; [|done].
  cbn. apply fds_set_ftable. by eapply insert_view.
Qed.

Lemma kept_iupd ip g : kept sw (iupd ip g).
Proof. intros s _. unfold iupd, iget_at, bind, gets, of_option, wlps. by destruct (icache s !! ip). Qed.

Lemma kept_piupd pi g : kept sw (piupd pi g).
Proof. intros s _. unfold piupd, pipe_at, bind, gets, of_option, wlps. by destruct (pipes s !! pi). Qed.

Lemma kept_iget_at ip : kept sw (iget_at ip).
Proof. apply kept_bind; [apply kept_gets|intros m; apply kept_of_option]. Qed.
Lemma kept_file_at f : kept sw (file_at f).
Proof. apply kept_bind; [apply kept_gets|intros m; apply kept_of_option]. Qed.
Lemma kept_pipe_at pi : kept sw (pipe_at pi).
Proof. apply kept_bind; [apply kept_gets|intros m; apply kept_of_option]. Qed.
Lemma kept_proc_at p : kept sw (proc_at p).
Proof. apply kept_bind; [apply kept_gets|intros m; apply kept_of_option]. Qed.
Lemma kept_myproc : kept sw myproc.
Proof. apply kept_gets. Qed.

Lemma kept_mem {A} (m : M phys A) : (forall t t', m t = Sleep t' -> sw) -> kept sw (in_mem m).
Proof. intros H s _. unfold wlps, in_mem, zoom. specialize (H (mem s)). destruct (m (mem s)); naive_solver. Qed.
End kept.

Lemma keeps_switch {A} : keeps (fun s => Sleep (A := A) s).
Proof. by intros s _. Qed.

Lemma keeps_in_lo {A} (m : M lstate A) : keeps (in_lo m).
Proof.
  intros s _. unfold wlps, in_lo. destruct (m (lo s)) as [a l| |l|]; try done.
  unfold fds, deliver. f_equal. cbn [procs set_procs set_lo]. rewrite <- map_fmap_compose. apply map_fmap_ext.
  intros i x _. cbn. induction (new_wakeups _ _) as [|c cs IH]; [done|]. cbn [fold_right].
  by rewrite proc_view_wake.
Qed.

Lemma keeps_in_bc {A} (m : M bstate A) : keeps (in_bc m).
Proof. apply keeps_in_lo. Qed.

Lemma keeps_in_mem {A} (m : M phys A) : keeps (in_mem m).
Proof. by apply kept_mem. Qed.

(** [keeps_tac] walks through a function: a call is closed by a lemma of the
    database, a condition or a result by cases. *)
Create HintDb keeps.
#[export] Hint Resolve kept_ret kept_panic kept_fuel kept_gets kept_of_option kept_iupd kept_piupd
  kept_iget_at kept_file_at kept_pipe_at kept_proc_at kept_myproc kept_modify kept_acquire kept_release
  kept_pupd kept_fupd : keeps.
#[export] Hint Resolve keeps_switch keeps_in_lo keeps_in_bc keeps_in_mem : keeps.
#[export] Hint Resolve off_proc_lk off_pipe_lk off_inode_lock proc_view_wake : keeps.
#[export] Hint Extern 1 (fds _ = fds _) => reflexivity : keeps.
#[export] Hint Extern 1 (off_fds _) => intros ? ?; reflexivity : keeps.
#[export] Hint Extern 1 (proc_view _ = proc_view _) => reflexivity : keeps.
#[export] Hint Extern 1 (file_view _ = file_view _) => reflexivity : keeps.

Ltac keeps_tac := cbv zeta; repeat first
  [ solve [auto 3 with keeps nocore]
  | match goal with
    | |- forall _, _ => intros ?
    | |- kept _ (let _ := _ in _) => cbv zeta
    | |- kept _ (bind _ _) => apply kept_bind
    | |- kept _ (when _ _) => apply kept_when
    | |- kept _ (for_each _ _) => apply kept_for_each
    | |- kept _ (for_all _ _) => apply kept_for_all
    | |- kept _ (loop _ _) => apply kept_loop
    | |- kept _ (match (if ?c then _ else _) with _ => _ end) => destruct c
    | |- kept _ (match ?x with _ => _ end) => destruct x
    end ].

(** A call that keeps the descriptors, at the head of a computation. *)
Lemma wlps_kept {A} sw (m : KM A) s (Q : A -> kstate -> Prop) (R : kstate -> Prop) :
  kept sw m -> live (fds s) -> (forall a s', fds s' = fds s -> Q a s') ->
  (forall s', sw -> fds s' = fds s -> R s') -> wlps m s Q R.
Proof. intros Hm Hl HQ HR. eapply wlps_mono; [by apply Hm|exact HQ|intros s' []; by apply HR]. Qed.

(** ** Sleeping *)

Lemma keeps_sched {A} : keeps (sched (A := A)).
Proof. unfold sched, myproc. keeps_tac. Qed.
#[export] Hint Resolve keeps_sched : keeps.

(** A change of the state of a process that stays dead, or stays alive. *)
Lemma wlps_set_state p st s (Q : unit -> kstate -> Prop) R l :
  fv_tabs (fds s) !! p = Some (l, is_dead st) -> (forall s', fds s' = fds s -> Q tt s') ->
  wlps (pupd p (set_p_state st)) s Q R.
Proof.
  intros Hl HQ. cbn in Hl. rewrite lookup_fmap in Hl. unfold pupd, proc_at, bind, gets, of_option, wlps.
  destruct (procs s !! p) as [x|] eqn:E; [|done]. cbn. apply HQ, fds_set_procs. eapply insert_view; [exact E|].
  unfold proc_view in *. cbn in *. by injection Hl as -> ->.
Qed.

Lemma keeps_sleep {A} chan lk : (forall l, lk = Some l -> off_fds l) -> keeps (sleep (A := A) chan lk).
Proof.
  intros Hlk s [l Hl]. set (v := fds s) in *. unfold sleep, myproc. apply wlps_bind. cbn [gets wlps].
  apply wlps_bind. unfold run_steps, sleep_steps.
  assert (Hend : forall s1, fds s1 = v -> wlps
    (for_all [pupd (cur s) (set_p_chan chan); pupd (cur s) (set_p_state SLEEPING)] (fun m => m)) s1
    (fun _ s2 => wlps (sched (A := A)) s2 (fun _ s' => fds s' = v) (fun s' => True /\ fds s' = v))
    (fun s' => True /\ fds s' = v)).
  { intros s1 E1. cbn [for_all]. apply wlps_bind.
    eapply wlps_kept; [by apply (kept_pupd True (cur s) (set_p_chan chan))|rewrite E1; by exists l| |].
    2:{ intros s' _ E. split; [done|congruence]. }
    intros a2 s2 E2. rewrite E1 in E2. apply wlps_bind. apply wlps_set_state with l; [by rewrite E2|].
    intros s3 E3. rewrite E2 in E3. cbn [ret wlps].
    eapply wlps_kept; [apply keeps_sched|rewrite E3; by exists l|congruence|].
    intros s' _ E. split; [done|congruence]. }
  destruct lk as [k|]; [|by apply Hend]. cbn [app]. cbn [for_all].
  assert (H1 : keeps (spin_acquire (proc_lk (cur s)))) by keeps_tac.
  assert (H2 : keeps (spin_release k)) by (by apply kept_release, Hlk).
  apply wlps_bind. eapply wlps_kept; [exact H1|by exists l| |done]. intros a1 s1 E1. fold v in E1.
  apply wlps_bind. eapply wlps_kept; [exact H2|rewrite E1; by exists l| |by intros s' _ E; split; [|congruence]].
  intros a2 s2 E2. apply Hend. congruence.
Qed.

Lemma keeps_sleep_lk {A} chan l : off_fds l -> keeps (sleep (A := A) chan (Some l)).
Proof. intros H. apply keeps_sleep. by intros ? [= <-]. Qed.

Lemma keeps_sleep_self {A} chan : keeps (sleep (A := A) chan None).
Proof. by apply keeps_sleep. Qed.

Lemma kept_wakeup sw chan : kept sw (wakeup chan).
Proof. unfold wakeup, run_steps, wakeup_visit. cbn [for_all]. keeps_tac. Qed.
#[export] Hint Resolve keeps_sleep_lk keeps_sleep_self kept_wakeup : keeps.

Lemma keeps_acquiresleep ip : keeps (acquiresleep (inode_lock ip)).
Proof. unfold acquiresleep. keeps_tac. Qed.
Lemma keeps_releasesleep ip chan : keeps (releasesleep (inode_lock ip) chan).
Proof. unfold releasesleep. keeps_tac. Qed.
Lemma keeps_holdingsleep ip : keeps (holdingsleep (inode_lock ip)).
Proof. unfold holdingsleep. keeps_tac. Qed.
#[export] Hint Resolve keeps_acquiresleep keeps_releasesleep keeps_holdingsleep : keeps.

(** ** Console and copies *)

Lemma keeps_updu f : keeps (updu f).
Proof. unfold updu. keeps_tac. Qed.
Lemma keeps_updc f : keeps (updc f).
Proof. unfold updc. keeps_tac. Qed.
#[export] Hint Resolve keeps_updu keeps_updc : keeps.

Lemma keeps_uartputc c : keeps (uartputc c).
Proof. unfold uartputc, uartstart, WriteTHR. keeps_tac. Qed.
Lemma keeps_consputc c : keeps (consputc c).
Proof. unfold consputc, uartputc_sync, WriteTHR. keeps_tac. Qed.
#[export] Hint Resolve keeps_uartputc keeps_consputc : keeps.

Lemma keeps_printint xx base sign : keeps (printint xx base sign).
Proof. unfold printint. keeps_tac. Qed.
Lemma keeps_printptr x : keeps (printptr x).
Proof. unfold printptr. keeps_tac. Qed.
#[export] Hint Resolve keeps_printint keeps_printptr : keeps.

Lemma keeps_printf_loop fmt ap : keeps (printf_loop fmt ap).
Proof.
  remember (length fmt) as n eqn:Hn. revert fmt ap Hn. induction n as [n IH] using lt_wf_ind.
  intros [|c [|d fmt]] ap Hn; cbn [printf_loop]; [keeps_tac..|].
  assert (H1 : forall ap, keeps (printf_loop fmt ap)) by (intros ap'; eapply IH; [|done]; subst n; cbn; lia).
  assert (H2 : forall ap, keeps (printf_loop (d :: fmt) ap)) by (intros ap'; eapply IH; [|done]; subst n; cbn; lia).
  cbn [printf_loop] in H2. keeps_tac.
Qed.
#[export] Hint Resolve keeps_printf_loop : keeps.

Lemma keeps_printf fmt ap : keeps (printf fmt ap).
Proof. unfold printf. keeps_tac. Qed.

Lemma kept_my_pagetable sw : kept sw my_pagetable.
Proof. unfold my_pagetable. keeps_tac. Qed.
#[export] Hint Resolve keeps_printf kept_my_pagetable : keeps.

Lemma keeps_either_copyout dst src len : keeps (either_copyout dst src len).
Proof. unfold either_copyout. keeps_tac. Qed.
Lemma keeps_either_copyin src len : keeps (either_copyin src len).
Proof. unfold either_copyin. keeps_tac. Qed.
#[export] Hint Resolve keeps_either_copyout keeps_either_copyin : keeps.

Lemma keeps_consolewrite src n : keeps (consolewrite src n).
Proof. unfold consolewrite. keeps_tac. Qed.
Lemma keeps_consoleread dst n : keeps (consoleread dst n).
Proof. unfold consoleread. keeps_tac. Qed.
#[export] Hint Resolve keeps_consolewrite keeps_consoleread : keeps.

(** ** The file system *)

Lemma keeps_getsb {A} (f : superblock -> A) : keeps (getsb f).
Proof. apply kept_gets. Qed.
Lemma keeps_getd bp : keeps (getd bp).
Proof. unfold getd. keeps_tac. Qed.
Lemma keeps_updd bp f : keeps (updd bp f).
Proof. unfold updd. keeps_tac. Qed.
#[export] Hint Resolve keeps_getsb keeps_getd keeps_updd : keeps.

Lemma keeps_bfree dev b : keeps (bfree dev b).
Proof. unfold bfree. keeps_tac. Qed.
Lemma keeps_balloc dev : keeps (balloc dev).
Proof. unfold balloc, bzero. keeps_tac. Qed.
Lemma keeps_iget dev inum : keeps (iget dev inum).
Proof. unfold iget. keeps_tac. Qed.
#[export] Hint Resolve keeps_bfree keeps_balloc keeps_iget : keeps.

Lemma keeps_ialloc dev type : keeps (ialloc dev type).
Proof. unfold ialloc. keeps_tac. Qed.
Lemma keeps_iupdate ip : keeps (iupdate ip).
Proof. unfold iupdate. keeps_tac. Qed.
Lemma kept_idup sw ip : kept sw (idup ip).
Proof. unfold idup. keeps_tac. Qed.
Lemma keeps_ilock ip : keeps (ilock ip).
Proof. unfold ilock. keeps_tac. Qed.
Lemma keeps_iunlock ip : keeps (iunlock ip).
Proof. unfold iunlock. keeps_tac. Qed.
Lemma keeps_bmap ip bn : keeps (bmap ip bn).
Proof. unfold bmap. keeps_tac. Qed.
#[export] Hint Resolve keeps_ialloc keeps_iupdate kept_idup keeps_ilock keeps_iunlock keeps_bmap : keeps.

Lemma keeps_itrunc ip : keeps (itrunc ip).
Proof. unfold itrunc. keeps_tac. Qed.
#[export] Hint Resolve keeps_itrunc : keeps.

Lemma keeps_iput ip : keeps (iput ip).
Proof. unfold iput. keeps_tac. Qed.
#[export] Hint Resolve keeps_iput : keeps.

Lemma keeps_iunlockput ip : keeps (iunlockput ip).
Proof. unfold iunlockput. keeps_tac. Qed.
Lemma keeps_readi ip dst off n : keeps (readi ip dst off n).
Proof. unfold readi. keeps_tac. Qed.
Lemma keeps_writei ip src off n : keeps (writei ip src off n).
Proof. unfold writei. keeps_tac. Qed.
#[export] Hint Resolve keeps_iunlockput keeps_readi keeps_writei : keeps.

Lemma keeps_dirlookup dp name : keeps (dirlookup dp name).
Proof. unfold dirlookup. keeps_tac. Qed.
#[export] Hint Resolve keeps_dirlookup : keeps.

Lemma keeps_dirlink dp name inum : keeps (dirlink dp name inum).
Proof. unfold dirlink. keeps_tac. Qed.
#[export] Hint Resolve keeps_dirlink : keeps.

Lemma keeps_namex depth path parent name : keeps (namex depth path parent name).
Proof.
  revert path parent name. induction depth as [|depth IH]; intros path parent name; cbn [namex]; keeps_tac.
Qed.
#[export] Hint Resolve keeps_namex : keeps.

Lemma keeps_namei depth path : keeps (namei depth path).
Proof. unfold namei. keeps_tac. Qed.
Lemma keeps_nameiparent depth path : keeps (nameiparent depth path).
Proof. unfold nameiparent. keeps_tac. Qed.
#[export] Hint Resolve keeps_namei keeps_nameiparent : keeps.

(** ** Arguments, and the calls that leave the descriptors alone *)

Lemma keeps_fetchaddr addr : keeps (fetchaddr addr).
Proof. unfold fetchaddr. keeps_tac. Qed.
Lemma keeps_fetchstr addr max : keeps (fetchstr addr max).
Proof. unfold fetchstr. keeps_tac. Qed.
Lemma keeps_argraw n : keeps (argraw n).
Proof. unfold argraw. keeps_tac. Qed.
#[export] Hint Resolve keeps_fetchaddr keeps_fetchstr keeps_argraw : keeps.

Lemma keeps_argint n : keeps (argint n).
Proof. unfold argint. keeps_tac. Qed.
Lemma keeps_argaddr n : keeps (argaddr n).
Proof. unfold argaddr. keeps_tac. Qed.
#[export] Hint Resolve keeps_argint keeps_argaddr : keeps.

Lemma keeps_argstr n max : keeps (argstr n max).
Proof. unfold argstr. keeps_tac. Qed.
Lemma keeps_my_killed : keeps my_killed.
Proof. unfold my_killed. keeps_tac. Qed.
#[export] Hint Resolve keeps_argstr keeps_my_killed : keeps.

Lemma keeps_piperead pi addr n : keeps (piperead pi addr n).
Proof. unfold piperead, piperead_loop. keeps_tac. Qed.
Lemma keeps_pipewrite pi addr n : keeps (pipewrite pi addr n).
Proof. unfold pipewrite, pipewrite_loop. keeps_tac. Qed.
#[export] Hint Resolve keeps_piperead keeps_pipewrite : keeps.

Lemma keeps_fileread f addr n : keeps (fileread f addr n).
Proof. unfold fileread, devsw_read. keeps_tac. Qed.
Lemma keeps_filewrite f addr n : keeps (filewrite f addr n).
Proof. unfold filewrite, devsw_write. keeps_tac. Qed.
#[export] Hint Resolve keeps_fileread keeps_filewrite : keeps.

Section calls.
Context `{LK : Linker} `{CP : Compiler} `{PS : ProcSymbols} (depth : nat).

Lemma keeps_filestat f addr : keeps (filestat f addr).
Proof. unfold filestat, stati. keeps_tac. Qed.
Lemma keeps_proc_freepagetable pt sz : keeps (proc_freepagetable pt sz).
Proof. unfold proc_freepagetable. keeps_tac. Qed.
Lemma keeps_proc_pagetable p : keeps (proc_pagetable p).
Proof. unfold proc_pagetable. keeps_tac. Qed.
Lemma keeps_growproc n : keeps (growproc n).
Proof. unfold growproc. keeps_tac. Qed.
#[local] Hint Resolve keeps_filestat keeps_proc_freepagetable keeps_proc_pagetable keeps_growproc : keeps.

Lemma keeps_exec path argv : keeps (exec depth path argv).
Proof. unfold exec, exec_load, exec_push, exec_bad, loadseg, readi_page. keeps_tac. Qed.

Lemma keeps_create path type major minor : keeps (create depth path type major minor).
Proof. unfold create. keeps_tac. Qed.
Lemma keeps_follow_links ip stop : keeps (follow_links depth ip stop).
Proof. unfold follow_links. keeps_tac. Qed.
Lemma keeps_argfd n : keeps (argfd n).
Proof. unfold argfd. keeps_tac. Qed.
#[local] Hint Resolve keeps_exec keeps_create keeps_follow_links keeps_argfd : keeps.

Lemma keeps_open_inode path omode : keeps (open_inode depth path omode).
Proof. unfold open_inode. keeps_tac. Qed.

Lemma keeps_sys_exec : keeps (sys_exec depth).
Proof. unfold sys_exec, fetch_argv, free_pages. keeps_tac. Qed.
Lemma keeps_sys_read : keeps sys_read.
Proof. unfold sys_read. keeps_tac. Qed.
Lemma keeps_sys_write : keeps sys_write.
Proof. unfold sys_write. keeps_tac. Qed.
Lemma keeps_sys_fstat : keeps sys_fstat.
Proof. unfold sys_fstat. keeps_tac. Qed.
Lemma keeps_sys_link : keeps (sys_link depth).
Proof. unfold sys_link. keeps_tac. Qed.
Lemma keeps_sys_unlink : keeps (sys_unlink depth).
Proof. unfold sys_unlink, isdirempty. keeps_tac. Qed.
Lemma keeps_sys_mkdir : keeps (sys_mkdir depth).
Proof. unfold sys_mkdir. keeps_tac. Qed.
Lemma keeps_sys_mknod : keeps (sys_mknod depth).
Proof. unfold sys_mknod. keeps_tac. Qed.
Lemma keeps_sys_chdir : keeps (sys_chdir depth).
Proof. unfold sys_chdir. keeps_tac. Qed.
Lemma keeps_sys_chmod : keeps (sys_chmod depth).
Proof. unfold sys_chmod. keeps_tac. Qed.
Lemma keeps_sys_symlink : keeps (sys_symlink depth).
Proof. unfold sys_symlink. keeps_tac. Qed.
Lemma keeps_sys_raw_read : keeps sys_raw_read.
Proof. unfold sys_raw_read. keeps_tac. Qed.
Lemma keeps_sys_raw_write : keeps sys_raw_write.
Proof. unfold sys_raw_write. keeps_tac. Qed.
Lemma keeps_sys_get_disk_lbn : keeps sys_get_disk_lbn.
Proof. unfold sys_get_disk_lbn. keeps_tac. Qed.
Lemma keeps_sys_getpid : keeps sys_getpid.
Proof. unfold sys_getpid. keeps_tac. Qed.
Lemma keeps_sys_sbrk : keeps sys_sbrk.
Proof. unfold sys_sbrk. keeps_tac. Qed.
Lemma keeps_sys_sleep : keeps sys_sleep.
Proof. unfold sys_sleep. keeps_tac. Qed.
Lemma keeps_sys_uptime : keeps sys_uptime.
Proof. unfold sys_uptime. keeps_tac. Qed.
Lemma keeps_sys_force_fail : keeps sys_force_fail.
Proof. unfold sys_force_fail. keeps_tac. Qed.
Lemma keeps_sys_force_disk_fail : keeps sys_force_disk_fail.
Proof. unfold sys_force_disk_fail. keeps_tac. Qed.
End calls.
