(* ===== verification/Fds.v ===== *)
(** File descriptors and the reference counts of the file table: the functions
    of file.c, sysfile.c and proc.c that change them, on the view of [Keeps], and the
    invariant that every system call preserves. *)
From S2P Require Import Prelude CString Bytes Locks Kalloc Vm Bio Log Kernel Console Fs File Proc Exec Sysfile Keeps.

(** ** The operations on the view *)

Definition set_entry (f : Z) (e : Z * ftype) (v : fview) : fview :=
  FView (<[f := e]> (fv_files v)) (fv_tabs v) (fv_cur v).
Definition set_tab (p : Z) (e : list Z * bool) (v : fview) : fview :=
  FView (fv_files v) (<[p := e]> (fv_tabs v)) (fv_cur v).

(** How often [f] is among the descriptors [l], and among those of all processes. *)
Definition count (f : Z) (l : list Z) : Z := Z.of_nat (count_occ Z.eq_dec l f).
Definition tab (v : fview) (p : Z) : list Z := from_option fst [] (fv_tabs v !! p).
Definition refs (v : fview) (f : Z) : Z := sumZ (fun p => count f (tab v p)) (seqZ 0 NPROC).

(** The invariant.  Each entry of the file table counts the descriptors that
    refer to it, and [d] more references, which the running code holds; a
    descriptor is [NULL] or an entry, an entry without references has no type, and a
    process that has ended has no descriptors, nor has a free slot, but for the
    process [q] that is being made. *)
Record fd_inv (q : Z) (d : Z -> Z) (v : fview) : Prop := {
  fi_files : forall f, is_Some (fv_files v !! f) <-> 0 <= f < NFILE;
  fi_tabs : forall p, is_Some (fv_tabs v !! p) <-> 0 <= p < NPROC;
  fi_len : forall p l b, fv_tabs v !! p = Some (l, b) -> length l = Z.to_nat NOFILE;
  fi_range : forall p l b f, fv_tabs v !! p = Some (l, b) -> f ∈ l -> f = NULL \/ 0 <= f < NFILE;
  fi_dead : forall p l f, fv_tabs v !! p = Some (l, true) -> p <> q -> f ∈ l -> f = NULL;
  fi_count : forall f n t, fv_files v !! f = Some (n, t) -> n = refs v f + d f;
  fi_free : forall f t, fv_files v !! f = Some (0, t) -> t = FD_NONE
}.

Lemma fd_inv_ext q d d' v : (forall f, 0 <= f < NFILE -> d f = d' f) -> fd_inv q d v -> fd_inv q d' v.
Proof.
  intros Hd [H1 H2 H3 H4 H5 H6 H7]. constructor; try done. intros f n t Hf.
  rewrite (H6 f n t Hf). rewrite Hd; [done|]. apply H1. by eexists.
Qed.

Lemma count_cons f x l : count f (x :: l) = delta x f + count f l.
Proof.
  unfold count, delta. cbn [count_occ]. destruct (Z.eq_dec x f), (Z.eqb_spec f x); lia.
Qed.

Lemma count_insert f l i (new old : Z) : l !! i = Some old ->
  count f (<[i := new]> l) = count f l + delta new f - delta old f.
Proof.
  revert i. induction l as [|x l IH]; intros [|i] Hi; try done.
  - injection Hi as ->. change (<[0%nat := new]> (old :: l)) with (new :: l). rewrite !count_cons. lia.
  - change (<[S i := new]> (x :: l)) with (x :: <[i := new]> l). rewrite !count_cons, (IH i Hi). lia.
Qed.

Lemma count_pos f l : f ∈ l -> 1 <= count f l.
Proof.
  intros H%list_elem_of_In%(count_occ_In Z.eq_dec). unfold count. lia.
Qed.

Lemma count_zero f l : f ∉ l -> count f l = 0.
Proof.
  intros H. unfold count. rewrite (proj1 (count_occ_not_In Z.eq_dec l f)); [done|]. by rewrite <- list_elem_of_In.
Qed.

Lemma count_bound f l : 0 <= count f l <= Z.of_nat (length l).
Proof. unfold count. pose proof (count_occ_bound Z.eq_dec f l). lia. Qed.

Lemma refs_set_entry f e v g : refs (set_entry f e v) g = refs v g.
Proof. done. Qed.

Lemma refs_set_tab p l l' b b' v f : fv_tabs v !! p = Some (l, b) -> 0 <= p < NPROC ->
  refs (set_tab p (l', b') v) f = refs v f + count f l' - count f l.
Proof.
  intros Hp Hr. unfold refs. rewrite (sumZ_change _ (fun p => count f (tab v p)) _ p).
  - unfold tab at 2 3. cbn [fv_tabs set_tab]. by rewrite lookup_insert_eq, Hp.
  - apply NoDup_seqZ.
  - apply elem_of_seqZ. lia.
  - intros x Hx. unfold tab. cbn [fv_tabs set_tab]. by rewrite lookup_insert_ne.
Qed.

(** A reference is taken or dropped. *)
Lemma fd_inv_entry q d v f n t k t' : fd_inv q d v -> fv_files v !! f = Some (n, t) ->
  (n + k = 0 -> t' = FD_NONE) -> fd_inv q (fun g => d g + k * delta f g) (set_entry f (n + k, t') v).
Proof.
  intros [H1 H2 H3 H4 H5 H6 H7] Hf Ht. constructor; try done.
  - intros g. rewrite <- H1. cbn [fv_files set_entry]. destruct (decide (g = f)) as [->|Hne].
    + rewrite lookup_insert_eq, Hf. split; intros _; by eexists.
    + by rewrite lookup_insert_ne.
  - intros g m u. cbn [fv_files set_entry]. rewrite refs_set_entry. unfold delta. destruct (decide (g = f)) as [->|Hne].
    + rewrite lookup_insert_eq. intros [= <- <-]. rewrite (H6 f n t Hf), Z.eqb_refl. lia.
    + rewrite lookup_insert_ne by done. intros Hg. rewrite (H6 g m u Hg), (proj2 (Z.eqb_neq g f)) by done. lia.
  - intros g u. cbn [fv_files set_entry]. destruct (decide (g = f)) as [->|Hne].
    + rewrite lookup_insert_eq. intros [= E <-]. by apply Ht.
    + rewrite lookup_insert_ne by done. apply H7.
Qed.

(** The type of an entry that is in use. *)
Lemma fd_inv_type q d v f n t t' : fd_inv q d v -> fv_files v !! f = Some (n, t) -> n <> 0 ->
  fd_inv q d (set_entry f (n, t') v).
Proof.
  intros Hv Hf Hn. pose proof (fd_inv_entry q d v f n t 0 t' Hv Hf) as H. rewrite Z.add_0_r in H.
  eapply fd_inv_ext; [|by apply H]. cbv beta. lia.
Qed.

(** A descriptor changes. *)
Lemma fd_inv_tab q d v p l b i old new : fd_inv q d v -> fv_tabs v !! p = Some (l, b) -> l !! i = Some old ->
  (new = NULL \/ 0 <= new < NFILE) -> (b = true -> p = q \/ new = NULL) ->
  fd_inv q (fun g => d g + delta old g - delta new g) (set_tab p (<[i := new]> l, b) v).
Proof.
  intros [H1 H2 H3 H4 H5 H6 H7] Hp Hi Hn Hb.
  assert (Hr : 0 <= p < NPROC) by (apply H2; by eexists). constructor; try done; cbn [fv_tabs set_tab].
  - intros x. rewrite <- H2. destruct (decide (x = p)) as [->|Hne]; [|by rewrite lookup_insert_ne].
    rewrite lookup_insert_eq, Hp. split; intros _; by eexists.
  - intros x l' b'. destruct (decide (x = p)) as [->|Hne]; [|rewrite lookup_insert_ne by done; apply H3].
    rewrite lookup_insert_eq. intros [= <- <-]. rewrite length_insert. by eapply H3.
  - intros x l' b' f. destruct (decide (x = p)) as [->|Hne]; [|rewrite lookup_insert_ne by done; apply H4].
    rewrite lookup_insert_eq. intros [= <- <-] [j Hj]%list_elem_of_lookup.
    apply list_lookup_insert_Some in Hj as [(_ & -> & _)|(_ & Hj)]; [done|].
    eapply H4; [exact Hp|]. by eapply list_elem_of_lookup_2.
  - intros x l' f. destruct (decide (x = p)) as [->|Hne]; [|rewrite lookup_insert_ne by done; apply H5].
    rewrite lookup_insert_eq. intros [= <- ->] Hq [j Hj]%list_elem_of_lookup.
    apply list_lookup_insert_Some in Hj as [(_ & <- & _)|(_ & Hj)]; [by destruct (Hb eq_refl)|].
    eapply H5; [exact Hp|done|]. by eapply list_elem_of_lookup_2.
  - intros f n t Hf. rewrite (refs_set_tab p l _ b), (count_insert f l i new old) by done.
    rewrite (H6 f n t Hf). lia.
Qed.

(** A process ends, or is made. *)
Lemma fd_inv_state q d v p l b b' : fd_inv q d v -> fv_tabs v !! p = Some (l, b) ->
  (b' = true -> p <> q -> forall f, f ∈ l -> f = NULL) -> fd_inv q d (set_tab p (l, b') v).
Proof.
  intros [H1 H2 H3 H4 H5 H6 H7] Hp Hb.
  assert (Hr : 0 <= p < NPROC) by (apply H2; by eexists). constructor; try done; cbn [fv_tabs set_tab].
  - intros x. rewrite <- H2. destruct (decide (x = p)) as [->|Hne]; [|by rewrite lookup_insert_ne].
    rewrite lookup_insert_eq, Hp. split; intros _; by eexists.
  - intros x l' c. destruct (decide (x = p)) as [->|Hne]; [|rewrite lookup_insert_ne by done; apply H3].
    rewrite lookup_insert_eq. intros [= <- <-]. by eapply H3.
  - intros x l' c f. destruct (decide (x = p)) as [->|Hne]; [|rewrite lookup_insert_ne by done; apply H4].
    rewrite lookup_insert_eq. intros [= <- <-]. by eapply H4.
  - intros x l' f. destruct (decide (x = p)) as [->|Hne]; [|rewrite lookup_insert_ne by done; apply H5].
    rewrite lookup_insert_eq. intros [= <- ->] Hq. by apply Hb.
  - intros f n t Hf. rewrite (refs_set_tab p l l b) by done. rewrite (H6 f n t Hf). lia.
Qed.

Lemma fd_inv_begin q d v : fd_inv NULL d v -> fd_inv q d v.
Proof.
  intros [H1 H2 H3 H4 H5 H6 H7]. constructor; try done. intros p l f Hp _. apply (H5 p l f Hp).
  intros ->. assert (H : 0 <= NULL < NPROC) by (apply H2; by eexists). unfold NULL in H. lia.
Qed.

Lemma fd_inv_end q d v l : fd_inv q d v -> fv_tabs v !! q = Some (l, false) -> fd_inv NULL d v.
Proof.
  intros [H1 H2 H3 H4 H5 H6 H7] Hq. constructor; try done. intros p l' f Hp _. apply (H5 p l' f Hp).
  intros ->. by rewrite Hq in Hp.
Qed.

Lemma fd_inv_refs q d v f : fd_inv q d v -> 0 <= refs v f <= NPROC * NOFILE.
Proof.
  intros [H1 H2 H3 H4 H5 H6 H7]. unfold refs.
  pose proof (sumZ_bound (fun p => count f (tab v p)) (seqZ 0 NPROC) NOFILE) as Hb.
  rewrite length_seqZ in Hb. apply Hb. intros p Hp%elem_of_seqZ.
  destruct (proj2 (H2 p) ltac:(lia)) as [[l b] Hl]. unfold tab. rewrite Hl. cbn.
  pose proof (count_bound f l) as H. rewrite (H3 p l b Hl) in H. done.
Qed.

(** A file that a process has open is referenced. *)
Lemma fd_inv_open q d v p l b f : fd_inv q d v -> fv_tabs v !! p = Some (l, b) -> f ∈ l -> f <> NULL ->
  exists n t, fv_files v !! f = Some (n, t) /\ 1 + d f <= n <= NPROC * NOFILE + d f.
Proof.
  intros Hv Hp Hf Hn. pose proof Hv as [H1 H2 H3 H4 H5 H6 H7].
  destruct (H4 p l b f Hp Hf) as [|Hr]; [done|]. destruct (proj2 (H1 f) Hr) as [[n t] E].
  exists n, t. split; [done|]. rewrite (H6 f n t E). pose proof (fd_inv_refs _ _ _ f Hv).
  assert (Hc : count f (tab v p) <= refs v f).
  { apply (sumZ_ge (fun p => count f (tab v p))); [intros x _; apply count_bound|].
    apply elem_of_seqZ. assert (0 <= p < NPROC) by (apply H2; by eexists). lia. }
  unfold tab in Hc. rewrite Hp in Hc. cbn in Hc. pose proof (count_pos f l Hf). lia.
Qed.

(** ** What the functions do to the view *)

Lemma wlps_proc_at p s (Q : proc -> kstate -> Prop) R :
  (forall x, procs s !! p = Some x -> Q x s) -> wlps (proc_at p) s Q R.
Proof.
  intros H. unfold proc_at, bind, gets, of_option, wlps. destruct (procs s !! p) as [x|]; [by apply H|done].
Qed.

Lemma wlps_file_at f s (Q : file -> kstate -> Prop) R :
  (forall x, ftable s !! f = Some x -> Q x s) -> wlps (file_at f) s Q R.
Proof.
  intros H. unfold file_at, bind, gets, of_option, wlps. destruct (ftable s !! f) as [x|]; [by apply H|done].
Qed.

Lemma fds_file s f x : ftable s !! f = Some x -> fv_files (fds s) !! f = Some (file_view x).
Proof. intros H. cbn. by rewrite lookup_fmap, H. Qed.

Lemma fds_proc s p x : procs s !! p = Some x -> fv_tabs (fds s) !! p = Some (proc_view x).
Proof. intros H. cbn. by rewrite lookup_fmap, H. Qed.

Lemma wlps_fupd f g s (Q : unit -> kstate -> Prop) R :
  (forall x s', ftable s !! f = Some x -> fds s' = set_entry f (file_view (g x)) (fds s) -> Q tt s') ->
  wlps (fupd f g) s Q R.
Proof.
  intros H. unfold fupd. apply wlps_bind, wlps_file_at. intros x Hx. apply (H x); [done|].
  unfold fds, set_entry. cbn. by rewrite fmap_insert.
Qed.

Lemma wlps_pupd p g s (Q : unit -> kstate -> Prop) R :
  (forall x s', procs s !! p = Some x -> fds s' = set_tab p (proc_view (g x)) (fds s) -> Q tt s') ->
  wlps (pupd p g) s Q R.
Proof.
  intros H. unfold pupd. apply wlps_bind, wlps_proc_at. intros x Hx. apply (H x); [done|].
  unfold fds, set_tab. cbn. by rewrite fmap_insert.
Qed.

Lemma wlps_for_each {X B} (l : list X) (body : X -> KM (option B)) s (I : kstate -> Prop) (P : B -> kstate -> Prop) R :
  I s -> (forall x s', x ∈ l -> I s' ->
    wlps (body x) s' (fun r s'' => match r with Some b => P b s'' | None => I s'' end) R) ->
  wlps (for_each l body) s (fun r s' => match r with Some b => P b s' | None => I s' end) R.
Proof.
  revert s. induction l as [|x l IH]; intros s Hs Hb; cbn [for_each]; [done|]. apply wlps_bind.
  eapply wlps_mono; [by apply Hb; [apply list_elem_of_here|]| |done]. intros [b|] s' H; [done|].
  apply IH; [done|]. intros y t Hy. apply Hb. by apply list_elem_of_further.
Qed.

(** The rule of a call that keeps the descriptors, on a view [v]. *)
Ltac kept_step := apply wlps_bind; eapply wlps_kept; [keeps_tac|try done|
  let a := fresh "a" in let s := fresh "s" in let E := fresh "E" in intros a s E|].

Lemma live_set_entry f e v : live (set_entry f e v) <-> live v.
Proof. done. Qed.

Lemma filealloc_spec s (Q : Z -> kstate -> Prop) R : live (fds s) ->
  (forall s', fds s' = fds s -> Q NULL s') ->
  (forall f t s', fv_files (fds s) !! f = Some (0, t) -> fds s' = set_entry f (1, t) (fds s) -> Q f s') ->
  wlps filealloc s Q R.
Proof.
  intros Hl HN HS. unfold filealloc. set (v := fds s) in *.
  apply wlps_bind. eapply wlps_kept with (sw := False); [keeps_tac|done| |done]. intros [] s1 E1. fold v in E1.
  apply wlps_bind. eapply wlps_mono; [apply (wlps_for_each _ _ s1 (fun s' => fds s' = v)
    (fun f s' => exists t, fv_files v !! f = Some (0, t) /\ fds s' = set_entry f (1, t) v)); [done|]| |done].
  - intros f s2 _ E2. apply wlps_bind, wlps_file_at. intros x Hx. pose proof (fds_file _ _ _ Hx) as Hf.
    rewrite E2 in Hf. unfold file_view in Hf. destruct (Z.eqb_spec (f_ref x) 0) as [E0|]; [|done].
    apply wlps_bind, wlps_fupd. intros y s3 Hy E3. rewrite Hx in Hy. injection Hy as <-. rewrite E2 in E3.
    unfold file_view in E3. cbn in E3. apply wlps_bind. eapply wlps_kept with (sw := False); [keeps_tac|by rewrite E3| |done].
    intros [] s4 E4. exists (f_type x). rewrite <- E0 at 1. split; [done|]. by rewrite E4, E3.
  - intros [f|] s2.
    + intros (t & Hf & E2). by apply (HS f t).
    + intros E2. apply wlps_bind. eapply wlps_kept with (sw := False); [keeps_tac|by rewrite E2| |done].
      intros [] s3 E3. apply HN. by rewrite E3, E2.
Qed.

Lemma filedup_spec f n t s (Q : Z -> kstate -> Prop) R : live (fds s) -> fv_files (fds s) !! f = Some (n, t) ->
  (forall s', fds s' = set_entry f (s32 (n + 1), t) (fds s) -> Q f s') -> wlps (filedup f) s Q R.
Proof.
  intros Hl Hf HQ. unfold filedup.
  apply wlps_bind. eapply wlps_kept with (sw := False); [keeps_tac|done| |done]. intros [] s1 E1.
  apply wlps_bind, wlps_file_at. intros x Hx. destruct (Z.ltb_spec (f_ref x) 1); [done|].
  pose proof (fds_file _ _ _ Hx) as Hf1. rewrite E1, Hf in Hf1. injection Hf1 as -> ->.
  apply wlps_bind, wlps_fupd. intros y s2 Hy E2. rewrite Hx in Hy. injection Hy as <-. rewrite E1 in E2.
  apply wlps_bind. eapply wlps_kept with (sw := False); [keeps_tac|by rewrite E2| |done].
  intros [] s3 E3. apply HQ. by rewrite E3, E2.
Qed.

(** A run that never switches to the scheduler. *)
Definition steady {S A} (m : M S A) : Prop := forall t t', m t <> Sleep t'.

Lemma steady_bind {S A B} (m : M S A) (k : A -> M S B) : steady m -> (forall a, steady (k a)) -> steady (bind m k).
Proof.
  intros Hm Hk t t'. unfold bind. pose proof (Hm t) as H. destruct (m t) as [a u| |u|]; [apply Hk|done| |done].
  by destruct (H u).
Qed.

Lemma steady_store64 a v : steady (store64 a v).
Proof. intros t t'. unfold store64. by repeat case_match. Qed.

Lemma kept_kfree `{Linker} sw pa : kept sw (in_mem (kfree pa)).
Proof.
  apply kept_mem. intros t t' E. exfalso. revert t t' E. change (steady (kfree pa)).
  assert (Hf : forall n a v, steady (fill n a v)).
  { induction n as [|n IH]; intros a v; cbn [fill]; [done|]. apply steady_bind; [apply steady_store64|done]. }
  unfold kfree. case_match; [done|]. apply steady_bind; [apply Hf|intros _].
  apply steady_bind; [unfold acquire_kmem; apply steady_bind; [done|by intros []]|intros _].
  apply steady_bind; [done|intros u]. apply steady_bind; [apply steady_store64|intros _].
  apply steady_bind; [done|intros _]. unfold release_kmem. apply steady_bind; [done|by intros []].
Qed.

Definition dropped (n : Z) (t : ftype) : Z * ftype := (n - 1, if 0 <? n - 1 then t else FD_NONE).

Lemma set_entry_twice f e e' v : set_entry f e (set_entry f e' v) = set_entry f e v.
Proof. unfold set_entry. cbn. by rewrite insert_insert_eq. Qed.

Section ops.
Context `{LK : Linker} `{CP : Compiler} `{PS : ProcSymbols} (depth : nat).

Lemma kept_pipeclose sw pi writable : kept sw (pipeclose pi writable).
Proof. unfold pipeclose. keeps_tac. apply kept_kfree. Qed.
#[local] Hint Resolve kept_pipeclose : keeps.

Lemma fileclose_spec f n t s (Q : unit -> kstate -> Prop) (R : kstate -> Prop) :
  live (fds s) -> fv_files (fds s) !! f = Some (n, t) ->
  (forall s', 1 <= n -> fds s' = set_entry f (dropped n t) (fds s) -> Q tt s') ->
  (forall s', 1 <= n -> t <> FD_NONE -> t <> FD_PIPE -> fds s' = set_entry f (dropped n t) (fds s) -> R s') ->
  wlps (fileclose f) s Q R.
Proof.
  intros Hl Hf HQ HR. unfold fileclose, dropped in *.
  apply wlps_bind. eapply wlps_kept with (sw := False); [keeps_tac|done| |done]. intros [] s1 E1.
  apply wlps_bind, wlps_file_at. intros x Hx. destruct (Z.ltb_spec (f_ref x) 1) as [|Hn]; [done|].
  pose proof (fds_file _ _ _ Hx) as Hf1. rewrite E1, Hf in Hf1. injection Hf1 as -> ->.
  apply wlps_bind, wlps_fupd. intros y s2 Hy E2. rewrite Hx in Hy. injection Hy as <-. rewrite E1 in E2.
  unfold file_view in E2. cbn in E2. destruct (Z.ltb_spec 0 (f_ref x - 1)) as [Hp|Hp].
  - eapply wlps_kept with (sw := False); [keeps_tac|by rewrite E2| |done]. intros [] s3 E3. apply HQ; [lia|].
    by rewrite E3, E2.
  - apply wlps_bind, wlps_file_at. intros z Hz.
    assert (Ez : f_type z = f_type x /\ f_ref z = f_ref x - 1).
    { pose proof (fds_file _ _ _ Hz) as Hf2. rewrite E2 in Hf2. cbn in Hf2. rewrite lookup_insert_eq in Hf2.
      by injection Hf2 as <- <-. }
    destruct Ez as [Et En].
    apply wlps_bind, wlps_fupd. intros y s3 Hy E3. rewrite Hz in Hy. injection Hy as <-.
    rewrite E2, set_entry_twice in E3.
    apply wlps_bind, wlps_fupd. intros w s4 Hw E4.
    assert (Er : f_ref w = f_ref x - 1).
    { pose proof (fds_file _ _ _ Hw) as Hf2. rewrite E3 in Hf2. cbn in Hf2. rewrite lookup_insert_eq in Hf2.
      injection Hf2 as <- _. lia. }
    rewrite E3, set_entry_twice in E4. unfold file_view in E4. cbn in E4. rewrite Er in E4.
    apply wlps_bind. eapply wlps_kept with (sw := False); [keeps_tac|by rewrite E4| |done]. intros [] s5 E5.
    rewrite E4 in E5. assert (Hl5 : live (fds s5)) by by rewrite E5. rewrite Et. destruct (f_type x) eqn:Etx.
    + apply HQ; [lia|done].
    + eapply wlps_kept with (sw := False); [keeps_tac|done| |done]. intros [] s6 E6. apply HQ; [lia|]. by rewrite E6, E5.
    + eapply wlps_kept with (sw := True); [keeps_tac|done| |].
      * intros [] s6 E6. apply HQ; [lia|]. by rewrite E6, E5.
      * intros s6 _ E6. apply HR; [lia|done..|]. by rewrite E6, E5.
    + eapply wlps_kept with (sw := True); [keeps_tac|done| |].
      * intros [] s6 E6. apply HQ; [lia|]. by rewrite E6, E5.
      * intros s6 _ E6. apply HR; [lia|done..|]. by rewrite E6, E5.
Qed.

Lemma set_ofile_spec fd f l b s (Q : unit -> kstate -> Prop) R : fv_tabs (fds s) !! fv_cur (fds s) = Some (l, b) ->
  (forall s', fds s' = set_tab (fv_cur (fds s)) (<[Z.to_nat fd := f]> l, b) (fds s) -> Q tt s') ->
  wlps (set_ofile fd f) s Q R.
Proof.
  intros Hl HQ. unfold set_ofile, myproc. apply wlps_bind. cbn [gets wlps]. apply wlps_pupd. intros x s' Hx E.
  pose proof (fds_proc _ _ _ Hx) as Hp. change (cur s) with (fv_cur (fds s)) in Hp.
  rewrite Hl in Hp. unfold proc_view in Hp. injection Hp as -> ->. by apply HQ.
Qed.

Lemma argfd_spec n s (Q : Z * Z * Z -> kstate -> Prop) (R : kstate -> Prop) : live (fds s) ->
  (forall fd s', fds s' = fds s -> Q (-1, fd, NULL) s') ->
  (forall fd f l s', fds s' = fds s -> fv_tabs (fds s) !! fv_cur (fds s) = Some (l, false) -> 0 <= fd < NOFILE ->
    l !! Z.to_nat fd = Some f -> f <> NULL -> Q (0, fd, f) s') ->
  (forall s', fds s' = fds s -> R s') -> wlps (argfd n) s Q R.
Proof.
  intros [l Hl] HN HS HR. unfold argfd, myproc. apply wlps_bind.
  eapply wlps_kept; [apply keeps_argint|by exists l| |]. 2:{ intros s' _ E. by apply HR. }
  intros fd s1 E1. destruct (Z.ltb_spec fd 0); [by apply HN|]. destruct (Z.leb_spec NOFILE fd); [by apply HN|].
  cbn [orb]. apply wlps_bind. cbn [gets wlps]. apply wlps_bind, wlps_proc_at. intros x Hx.
  pose proof (fds_proc _ _ _ Hx) as Hp. change (cur s1) with (fv_cur (fds s1)) in Hp. rewrite E1, Hl in Hp.
  unfold proc_view in Hp. injection Hp as -> Hb. destruct (p_ofile x !! Z.to_nat fd) as [f|] eqn:Ef; cbn [default from_option id].
  - destruct (Z.eqb_spec f NULL); [by apply HN|]. apply (HS fd f (p_ofile x)); [done| |lia|done..]. by rewrite Hl, Hb.
  - by apply HN.
Qed.

(** The lowest free descriptor, of the process that runs. *)
Lemma fdalloc_spec f l s (Q : Z -> kstate -> Prop) R :
  fv_tabs (fds s) !! fv_cur (fds s) = Some (l, false) -> length l = Z.to_nat NOFILE ->
  (forall s', fds s' = fds s -> Q (-1) s') ->
  (forall fd s', 0 <= fd < NOFILE -> l !! Z.to_nat fd = Some NULL ->
    fds s' = set_tab (fv_cur (fds s)) (<[Z.to_nat fd := f]> l, false) (fds s) -> Q fd s') ->
  wlps (fdalloc f) s Q R.
Proof.
  intros Hl Hlen HN HS. unfold fdalloc, myproc. apply wlps_bind. cbn [gets wlps]. apply wlps_bind.
  eapply wlps_mono; [apply (wlps_for_each _ _ s (fun s' => fds s' = fds s)
    (fun fd s' => 0 <= fd < NOFILE /\ l !! Z.to_nat fd = Some NULL /\
       fds s' = set_tab (fv_cur (fds s)) (<[Z.to_nat fd := f]> l, false) (fds s))); [done|]| |done].
  - intros fd s1 Hfd%elem_of_seqZ E1. apply wlps_bind, wlps_proc_at. intros x Hx. pose proof (fds_proc _ _ _ Hx) as Hp.
    change (cur s) with (fv_cur (fds s)) in Hp. rewrite E1, Hl in Hp. unfold proc_view in Hp. injection Hp as -> Hb.
    destruct (lookup_lt_is_Some_2 (p_ofile x) (Z.to_nat fd)) as [g Hg]; [unfold NOFILE in *; lia|]. rewrite Hg. cbn [default from_option id].
    destruct (Z.eqb_spec g NULL) as [->|]; [|done]. apply wlps_bind.
    eapply set_ofile_spec; [by rewrite E1|]. intros s2 E2. rewrite E1 in E2. split; [lia|]. by split.
  - intros [fd|] s1; [intros (Hfd & Hn & E1); by apply (HS fd)|intros E1; by apply HN].
Qed.

(** ** The calls *)

Definition zero (_ : Z) : Z := 0.
Definition fd_ok (s : kstate) : Prop := fd_inv NULL zero (fds s) /\ live (fds s).

(** [exit] has dropped the reference of a descriptor and not yet cleared it. *)
Definition closing (v : fview) : Prop := exists i l, fv_tabs v !! fv_cur v = Some (l, false) /\
  fd_inv NULL zero (set_tab (fv_cur v) (<[i := NULL]> l, false) v).

Definition parked (s : kstate) : Prop := fd_inv NULL zero (fds s) \/ closing (fds s).
Definition call_ok {A} (m : KM A) : Prop := forall s, fd_ok s -> wlps m s (fun _ s' => fd_ok s') parked.

Lemma fd_ok_eq s s' : fds s' = fds s -> fd_ok s -> fd_ok s'.
Proof. unfold fd_ok. by intros ->. Qed.

Lemma fd_ok_parked s s' : fds s' = fds s -> fd_ok s -> parked s'.
Proof. intros E [Hi _]. left. by rewrite E. Qed.

Lemma call_ok_kept {A} sw (m : KM A) : kept sw m -> call_ok m.
Proof.
  intros Hm s Hs. eapply wlps_kept; [exact Hm|apply Hs| |].
  - intros a s' E. by eapply fd_ok_eq.
  - intros s' _ E. by eapply fd_ok_parked.
Qed.

Lemma call_ok_bind {A B} (m : KM A) (k : A -> KM B) : call_ok m -> (forall a, call_ok (k a)) -> call_ok (bind m k).
Proof. intros Hm Hk s Hs. apply wlps_bind. eapply wlps_mono; [by apply Hm|intros a s'; apply Hk|done]. Qed.

Lemma call_ok_run {A} (m : KM A) s : call_ok m -> fd_ok s -> wlps m s (fun _ s' => fd_ok s') parked.
Proof. intros H. apply H. Qed.

Lemma live_set_tab l v : live (set_tab (fv_cur v) (l, false) v).
Proof. exists l. cbn. by rewrite lookup_insert_eq. Qed.

Lemma delta_null f : 0 <= f < NFILE -> delta NULL f = 0.
Proof. unfold delta, NULL. destruct (Z.eqb_spec f (-1)); lia. Qed.

Lemma fd_inv_drop q d v f n t : fd_inv q d v -> fv_files v !! f = Some (n, t) ->
  fd_inv q (fun g => d g - delta f g) (set_entry f (dropped n t) v).
Proof.
  intros Hv Hf. unfold dropped. replace (n - 1) with (n + -1) by lia. eapply fd_inv_ext; [|eapply fd_inv_entry; [done..|]].
  - cbv beta. lia.
  - intros E. by rewrite E.
Qed.

Lemma fd_inv_dup q d v f n t : fd_inv q d v -> fv_files v !! f = Some (n, t) -> 0 <= n ->
  fd_inv q (fun g => d g + delta f g) (set_entry f (n + 1, t) v).
Proof.
  intros Hv Hf Hn. eapply fd_inv_ext; [|eapply fd_inv_entry; [done..|]]; [cbv beta|]; lia.
Qed.

Lemma call_ok_sys_dup : call_ok sys_dup.
Proof.
  intros s Hs. pose proof Hs as [Hi Hl]. unfold sys_dup. apply wlps_bind. apply argfd_spec; [done|..].
  { intros fd s1 E1. by eapply fd_ok_eq. } 2:{ intros s1 E1. by eapply fd_ok_parked. }
  intros fd f l s1 E1 Hcur Hfd Hf Hnf. cbn [Z.ltb Z.compare]. apply wlps_bind.
  assert (Hin : f ∈ l) by by eapply list_elem_of_lookup_2.
  destruct (fd_inv_open _ _ _ _ _ _ f Hi Hcur Hin Hnf) as (n & t & Hn & Hb). unfold zero in Hb.
  eapply fdalloc_spec; [by rewrite E1|by eapply fi_len| |].
  - intros s2 E2. change (-1 <? 0) with true. cbv iota. apply (fd_ok_eq s); [by rewrite E2|done].
  - intros fd' s2 Hfd' Hnull E2. rewrite (proj2 (Z.ltb_ge fd' 0)) by lia. rewrite E1 in E2. apply wlps_bind.
    assert (Hr : 0 <= f < NFILE) by (eapply fi_files; [done|by eexists]).
    eapply filedup_spec; [rewrite E2; apply live_set_tab|by rewrite E2|]. intros s3 E3.
    rewrite s32_small in E3 by (unfold is_int, INT_MIN, INT_MAX, NPROC, NOFILE in *; lia). rewrite E2 in E3.
    split; rewrite E3; [|apply live_set_tab].
    eapply fd_inv_ext; [|eapply fd_inv_dup; [eapply fd_inv_tab; [done..|by right|done]|done|lia]].
    intros g Hg. cbv beta. rewrite delta_null by done. unfold zero. lia.
Qed.

Lemma call_ok_sys_close : call_ok sys_close.
Proof.
  intros s Hs. pose proof Hs as [Hi Hl]. unfold sys_close. apply wlps_bind. apply argfd_spec; [done|..].
  { intros fd s1 E1. by eapply fd_ok_eq. } 2:{ intros s1 E1. by eapply fd_ok_parked. }
  intros fd f l s1 E1 Hcur Hfd Hf Hnf. cbn [Z.ltb Z.compare]. apply wlps_bind.
  assert (Hin : f ∈ l) by by eapply list_elem_of_lookup_2.
  destruct (fd_inv_open _ _ _ _ _ _ f Hi Hcur Hin Hnf) as (n & t & Hn & Hb).
  eapply set_ofile_spec; [by rewrite E1|]. intros s2 E2. rewrite E1 in E2. apply wlps_bind.
  assert (Hv : fd_inv NULL zero (set_entry f (dropped n t) (fds s2))).
  { rewrite E2. eapply fd_inv_ext; [|eapply fd_inv_drop; [eapply fd_inv_tab; [done..|by left|done]|done]].
    intros g Hg. cbv beta. rewrite delta_null by done. unfold zero. lia. }
  apply (fileclose_spec f n t); [rewrite E2; apply live_set_tab|by rewrite E2|..].
  - intros s3 _ E3. split; rewrite E3; [done|]. rewrite E2. apply live_set_tab.
  - intros s3 _ _ _ E3. left. by rewrite E3.
Qed.

#[local] Hint Resolve keeps_filestat keeps_proc_freepagetable keeps_proc_pagetable keeps_growproc keeps_exec
  keeps_create keeps_follow_links keeps_argfd keeps_open_inode : keeps.

Lemma call_ok_sys_open : call_ok (sys_open depth).
Proof.
  assert (Hk : forall A (m : KM A), keeps m -> call_ok m) by (intros A m; apply call_ok_kept).
  unfold sys_open. apply call_ok_bind; [apply Hk; keeps_tac|]. intros [n path]. case_match; [apply Hk; keeps_tac|].
  apply call_ok_bind; [apply Hk; keeps_tac|]. intros omode. apply call_ok_bind; [apply Hk; keeps_tac|]. intros _.
  apply call_ok_bind; [apply Hk; keeps_tac|]. intros [ip|]; [|apply Hk; keeps_tac].
  apply call_ok_bind; [apply Hk; keeps_tac|]. intros x. cbv zeta. case_match; [apply Hk; keeps_tac|].
  intros s Hs. pose proof Hs as [Hi Hl]. apply wlps_bind. apply filealloc_spec; [done|..].
  { intros s1 E1. change (NULL =? NULL) with true. cbv iota. apply Hk; [keeps_tac|by eapply fd_ok_eq]. }
  intros f t s1 Hf E1. pose proof (fi_free _ _ _ Hi f t Hf) as ->.
  assert (Hr : 0 <= f < NFILE) by (eapply fi_files; [done|by eexists]).
  rewrite (proj2 (Z.eqb_neq f NULL)) by (unfold NULL; lia).
  pose proof (fd_inv_dup _ _ _ _ _ _ Hi Hf ltac:(done)) as Hi1. change (0 + 1) with 1 in Hi1. rewrite <- E1 in Hi1.
  assert (Hf1 : fv_files (fds s1) !! f = Some (1, FD_NONE)) by (rewrite E1; apply lookup_insert_eq).
  assert (Hl1 : live (fds s1)) by by rewrite E1. destruct Hl1 as [l Hl1].
  apply wlps_bind. eapply fdalloc_spec; [exact Hl1|by eapply fi_len| |].
  - intros s2 E2. change (-1 <? 0) with true. cbv iota. apply wlps_bind.
    apply (fileclose_spec f 1 FD_NONE); [rewrite E2; by exists l|by rewrite E2| |done].
    intros s3 _ E3. apply Hk; [keeps_tac|]. rewrite E2 in E3. split; rewrite E3; [|by exists l].
    eapply fd_inv_ext; [|eapply fd_inv_drop; [exact Hi1|exact Hf1]]. intros g _. cbv beta. lia.
  - intros fd s2 Hfd Hnull E2. rewrite (proj2 (Z.ltb_ge fd 0)) by lia.
    assert (Hi2 : fd_inv NULL zero (fds s2)).
    { rewrite E2. eapply fd_inv_ext; [|eapply fd_inv_tab; [exact Hi1|exact Hl1|exact Hnull|by right|done]].
      intros g Hg. cbv beta. rewrite delta_null by done. unfold zero. lia. }
    assert (Hf2 : fv_files (fds s2) !! f = Some (1, FD_NONE)) by by rewrite E2.
    apply wlps_bind, wlps_fupd. intros y s3 Hy E3. apply Hk; [keeps_tac|].
    assert (Ey : file_view (open_file ip omode x y) = (1, f_type (open_file ip omode x y))).
    { pose proof (fds_file _ _ _ Hy) as Hfy. rewrite Hf2 in Hfy. unfold file_view in *. injection Hfy as Hr1 _. rewrite Hr1.
      f_equal. unfold open_file. by repeat case_match. }
    rewrite Ey in E3. split; rewrite E3; [by eapply fd_inv_type|]. rewrite live_set_entry, E2. apply live_set_tab.
Qed.


Lemma steady_kalloc : steady kalloc.
Proof.
  assert (Hf : forall n a v, steady (fill n a v)).
  { induction n as [|n IH]; intros a v; cbn [fill]; [done|]. apply steady_bind; [apply steady_store64|done]. }
  unfold kalloc. apply steady_bind; [unfold acquire_kmem; apply steady_bind; [done|by intros []]|intros _].
  apply steady_bind; [done|intros r]. apply steady_bind; [|intros _].
  - unfold when. case_match; [|done]. apply steady_bind; [intros t t'; unfold load64; by repeat case_match|done].
  - apply steady_bind; [unfold release_kmem; apply steady_bind; [done|by intros []]|intros _].
    apply steady_bind; [unfold when; case_match; [apply Hf|done]|done].
Qed.

Lemma kept_kalloc sw : kept sw (in_mem kalloc).
Proof. apply kept_mem. intros t t' E. by destruct (steady_kalloc t t'). Qed.
#[local] Hint Resolve kept_kalloc : keeps.

(** [fileclose] of an entry that has just been allocated gives it back. *)
Lemma fileclose_fresh f s (Q : unit -> kstate -> Prop) R d : fd_inv NULL d (fds s) -> live (fds s) ->
  (exists t, fv_files (fds s) !! f = Some (1, t) /\ (t = FD_NONE \/ t = FD_PIPE)) ->
  (forall s', fd_inv NULL (fun g => d g - delta f g) (fds s') -> fds s' = set_entry f (0, FD_NONE) (fds s) -> Q tt s') ->
  wlps (fileclose f) s Q R.
Proof.
  intros Hi Hl (t & Hf & Ht) HQ. eapply fileclose_spec; [done|exact Hf| |].
  - intros s' _ E. apply HQ; [|exact E]. rewrite E. by eapply fd_inv_drop.
  - intros s' _ H1 H2. by destruct Ht.
Qed.

Lemma wlps_file_type f t t' n s (Q : unit -> kstate -> Prop) R : fv_files (fds s) !! f = Some (n, t) ->
  (forall s', fds s' = set_entry f (n, t') (fds s) -> Q tt s') -> wlps (fupd f (set_f_type t')) s Q R.
Proof.
  intros Hf HQ. apply wlps_fupd. intros x s' Hx E. pose proof (fds_file _ _ _ Hx) as H. rewrite Hf in H.
  injection H as -> ->. by apply HQ.
Qed.

Lemma pipealloc_spec s (Q : Z * Z * Z -> kstate -> Prop) R : fd_ok s ->
  (forall f0 f1 s', fd_ok s' -> Q (-1, f0, f1) s') ->
  (forall f0 f1 s', f0 <> f1 -> fd_inv NULL (fun g => delta f0 g + delta f1 g) (fds s') -> live (fds s') ->
    fv_files (fds s') !! f0 = Some (1, FD_PIPE) -> fv_files (fds s') !! f1 = Some (1, FD_PIPE) -> Q (0, f0, f1) s') ->
  wlps pipealloc s Q R.
Proof.
  intros Hs HB HS. pose proof Hs as [Hi Hl]. unfold pipealloc. cbv zeta. apply wlps_bind, filealloc_spec; [done|..].
  { intros s1 E1. change (NULL =? NULL) with true. cbn [negb when]. apply HB. by eapply fd_ok_eq. }
  intros f0 t0 s1 Hf0 E1. pose proof (fi_free _ _ _ Hi f0 t0 Hf0) as ->.
  assert (Hn0 : f0 <> NULL).
  { intros ->. assert (H : 0 <= NULL < NFILE) by (eapply fi_files; [done|by eexists]). unfold NULL in H. lia. }
  rewrite (proj2 (Z.eqb_neq f0 NULL)) by done. cbn [negb when].
  pose proof (fd_inv_dup _ _ _ _ _ _ Hi Hf0 ltac:(done)) as Hi1. change (0 + 1) with 1 in Hi1. rewrite <- E1 in Hi1.
  assert (H10 : fv_files (fds s1) !! f0 = Some (1, FD_NONE)) by (rewrite E1; apply lookup_insert_eq).
  assert (Hl1 : live (fds s1)) by by rewrite E1.
  apply wlps_bind, filealloc_spec; [done|..].
  { intros s2 E2. change (NULL =? NULL) with true. cbn [negb when]. apply wlps_bind.
    apply fileclose_fresh with (d := fun g => zero g + delta f0 g); [by rewrite E2|by rewrite E2|rewrite E2; eauto|].
    intros s3 Hi3 E3. apply HB. split; [|rewrite E3, E2; done]. eapply fd_inv_ext; [|exact Hi3]. intros g _. cbv beta. lia. }
  intros f1 t1 s2 Hf1 E2. pose proof (fi_free _ _ _ Hi1 f1 t1 Hf1) as ->.
  assert (Hn1 : f1 <> NULL).
  { intros ->. assert (H : 0 <= NULL < NFILE) by (eapply fi_files; [exact Hi1|by eexists]). unfold NULL in H. lia. }
  assert (Hne : f0 <> f1) by (intros ->; by rewrite H10 in Hf1).
  rewrite (proj2 (Z.eqb_neq f1 NULL)) by done. cbn [negb when].
  pose proof (fd_inv_dup _ _ _ _ _ _ Hi1 Hf1 ltac:(done)) as Hi2. change (0 + 1) with 1 in Hi2. rewrite <- E2 in Hi2.
  assert (H20 : fv_files (fds s2) !! f0 = Some (1, FD_NONE)) by (rewrite E2; cbn; by rewrite lookup_insert_ne).
  assert (H21 : fv_files (fds s2) !! f1 = Some (1, FD_NONE)) by (rewrite E2; apply lookup_insert_eq).
  assert (Hl2 : live (fds s2)) by by rewrite E2.
  apply wlps_bind. eapply wlps_kept with (sw := False); [keeps_tac|done| |done]. intros pi s3 E3. rewrite <- E3 in Hi2, Hl2, H20, H21.
  clear E3. destruct (pi =? 0).
  { apply wlps_bind. eapply fileclose_fresh; [exact Hi2|done|eauto|]. intros s4 Hi4 E4. apply wlps_bind.
    assert (H41 : fv_files (fds s4) !! f1 = Some (1, FD_NONE)) by (rewrite E4; cbn; by rewrite lookup_insert_ne).
    eapply fileclose_fresh; [exact Hi4|by rewrite E4|eauto|]. intros s5 Hi5 E5. apply HB. split; [|by rewrite E5, E4].
    eapply fd_inv_ext; [|exact Hi5]. intros g _. cbv beta. lia. }
  apply wlps_bind. eapply wlps_kept with (sw := False); [keeps_tac|done| |done]. intros [] s4 E4. rewrite <- E4 in Hi2, Hl2, H20, H21.
  clear E4. apply wlps_bind. eapply wlps_file_type; [exact H20|]. intros s5 E5.
  do 3 (apply wlps_bind; eapply wlps_kept with (sw := False); [keeps_tac|by rewrite E5| |done];
    let s := fresh "s" in let E := fresh "E" in intros [] s E; rewrite <- E in E5; clear E).
  apply wlps_bind. eapply (wlps_file_type f1 FD_NONE FD_PIPE 1); [rewrite E5; cbn; by rewrite lookup_insert_ne|].
  intros s9 E9. rewrite E5 in E9.
  do 3 (apply wlps_bind; eapply wlps_kept with (sw := False); [keeps_tac|by rewrite E9| |done];
    let s := fresh "s" in let E := fresh "E" in intros [] s E; rewrite <- E in E9; clear E).
  apply HS; [done|rewrite E9; eapply fd_inv_type; [eapply fd_inv_type; [|exact H20|done]| |done]|by rewrite E9| |].
  - eapply fd_inv_ext; [|exact Hi2]. intros g _. unfold zero. lia.
  - cbn. by rewrite lookup_insert_ne.
  - rewrite E9. cbn. rewrite lookup_insert_ne by done. apply lookup_insert_eq.
  - rewrite E9. apply lookup_insert_eq.
Qed.

Lemma call_ok_sys_pipe : call_ok sys_pipe.
Proof.
  unfold sys_pipe. apply call_ok_bind; [apply (call_ok_kept True); keeps_tac|]. intros fdarray s Hs.
  apply wlps_bind, pipealloc_spec; [done|by intros|]. intros rf wf s1 Hne Hi1 Hl1 Hr1 Hw1. cbn [Z.ltb Z.compare].
  apply wlps_bind. eapply wlps_kept with (sw := False); [keeps_tac|done| |done]. intros pt s2 E2.
  rewrite <- E2 in Hi1, Hl1, Hr1, Hw1. clear E2 s1 Hs. cbv zeta.
  assert (Rr : 0 <= rf < NFILE) by (eapply fi_files; [exact Hi1|by eexists]).
  assert (Rw : 0 <= wf < NFILE) by (eapply fi_files; [exact Hi1|by eexists]).
  set (close := fileclose rf ;;; fileclose wf ;;; ret (-1)).
  assert (Hclose : forall s3, fd_inv NULL (fun g => delta rf g + delta wf g) (fds s3) -> live (fds s3) ->
    fv_files (fds s3) = fv_files (fds s2) -> wlps close s3 (fun _ s' => fd_ok s') parked).
  { intros s3 Hi3 Hl3 E3. unfold close. apply wlps_bind.
    eapply fileclose_fresh; [exact Hi3|done|rewrite E3; eauto|]. intros s4 Hi4 E4. apply wlps_bind.
    assert (H4 : fv_files (fds s4) !! wf = Some (1, FD_PIPE)) by (rewrite E4; cbn [fv_files set_entry]; by rewrite lookup_insert_ne, E3).
    eapply fileclose_fresh; [exact Hi4|by rewrite E4|eauto|]. intros s5 Hi5 E5. split; [|by rewrite E5, E4].
    eapply fd_inv_ext; [|exact Hi5]. intros g _. unfold zero. lia. }
  clearbody close. destruct Hl1 as [l Hl1]. assert (Hlen : length l = Z.to_nat NOFILE) by (by eapply fi_len).
  apply wlps_bind. eapply fdalloc_spec; [exact Hl1|done| |].
  { intros s3 E3. change (-1 <? 0) with true. cbv iota. apply Hclose; rewrite E3; [done|by exists l|done]. }
  intros fd0 s3 Hfd0 Hn0 E3. rewrite (proj2 (Z.ltb_ge fd0 0)) by lia.
  pose proof (fd_inv_tab _ _ _ _ _ _ _ _ rf Hi1 Hl1 Hn0 (or_intror Rr) ltac:(done)) as Hi3. rewrite <- E3 in Hi3.
  set (l1 := <[Z.to_nat fd0 := rf]> l) in *.
  assert (Hl3 : fv_tabs (fds s3) !! fv_cur (fds s3) = Some (l1, false)) by (rewrite E3; apply lookup_insert_eq).
  assert (Ec3 : fv_cur (fds s3) = fv_cur (fds s2)) by by rewrite E3.
  assert (H10 : l1 !! Z.to_nat fd0 = Some rf).
  { apply list_lookup_insert_eq. rewrite Hlen. unfold NOFILE in *. lia. }
  apply wlps_bind. eapply fdalloc_spec; [exact Hl3|by eapply fi_len| |].
  { intros s4 E4. change (-1 <? 0) with true. cbv iota. apply wlps_bind. eapply set_ofile_spec; [rewrite E4; exact Hl3|].
    intros s5 E5. rewrite E4 in E5. apply Hclose; rewrite E5; [|apply live_set_tab|by rewrite E3].
    eapply fd_inv_ext; [|eapply fd_inv_tab; [exact Hi3|exact Hl3|exact H10|by left|done]].
    intros g Hg. cbv beta. rewrite !delta_null by done. lia. }
  intros fd1 s4 Hfd1 Hn1 E4. rewrite (proj2 (Z.ltb_ge fd1 0)) by lia.
  pose proof (fd_inv_tab _ _ _ _ _ _ _ _ wf Hi3 Hl3 Hn1 (or_intror Rw) ltac:(done)) as Hi4. rewrite <- E4 in Hi4.
  set (l2 := <[Z.to_nat fd1 := wf]> l1) in *.
  assert (Hl4 : fv_tabs (fds s4) !! fv_cur (fds s4) = Some (l2, false)) by (rewrite E4; apply lookup_insert_eq).
  assert (Hd : fd0 <> fd1).
  { intros <-. rewrite H10 in Hn1. injection Hn1 as ->. unfold NULL in Rr. lia. }
  assert (H20 : l2 !! Z.to_nat fd0 = Some rf) by (unfold l2; rewrite list_lookup_insert_ne by lia; done).
  assert (H21 : l2 !! Z.to_nat fd1 = Some wf).
  { apply list_lookup_insert_eq. unfold l1. rewrite length_insert, Hlen. unfold NOFILE in *. lia. }
  assert (Hok : fd_ok s4).
  { split; [|by exists l2]. eapply fd_inv_ext; [|exact Hi4]. intros g Hg. cbv beta. rewrite delta_null by done. unfold zero. lia. }
  assert (Ef : fv_files (fds s4) = fv_files (fds s2)) by (by rewrite E4, E3).
  apply wlps_bind. eapply wlps_kept with (sw := True); [keeps_tac|apply Hok| |].
  2:{ intros s5 _ E5. by eapply fd_ok_parked. }
  intros r1 s5 E5. apply wlps_bind. eapply wlps_kept with (sw := True); [keeps_tac|rewrite E5; apply Hok| |].
  2:{ intros s6 _ E6. eapply fd_ok_parked; [|exact Hok]. by rewrite E6, E5. }
  intros r2 s6 E6. rewrite E5 in E6. clear E5 s5. destruct (r2 <? 0).
  2:{ by eapply fd_ok_eq. }
  apply wlps_bind. eapply set_ofile_spec; [rewrite E6; exact Hl4|]. intros s7 E7. rewrite E6 in E7.
  apply wlps_bind. eapply set_ofile_spec; [rewrite E7; apply lookup_insert_eq|]. intros s8 E8.
  assert (Hi7 : fd_inv NULL (fun g => delta rf g) (fds s7)).
  { rewrite E7. eapply fd_inv_ext; [|eapply fd_inv_tab; [apply Hok|exact Hl4|exact H20|by left|done]].
    intros g Hg. cbv beta. rewrite delta_null by done. unfold zero. lia. }
  apply Hclose; rewrite E8; [|apply live_set_tab|by rewrite E7].
  eapply fd_inv_ext; [|eapply (fd_inv_tab _ _ _ _ _ _ _ wf NULL); [exact Hi7|rewrite E7; apply lookup_insert_eq| |by left|done]].
  - intros g Hg. cbv beta. rewrite delta_null by done. unfold zero. lia.
  - rewrite list_lookup_insert_ne by lia. exact H21.
Qed.


(** The next statement keeps the view, which is [v] at the state [s] of [E]. *)
Ltac kept_next sw' E :=
  apply wlps_bind; eapply wlps_kept with (sw := sw'); [keeps_tac|by rewrite E| |];
  [let s := fresh "s" in let E' := fresh "E" in intros ? s E'; rewrite E in E'; clear E; rename E' into E
  |let s := fresh "s" in let E' := fresh "E" in intros s ? E'; rewrite E in E'].

Lemma fds_name s : exists v, fds s = v.
Proof. by eexists. Qed.

(** The slot of a dead process is freed. *)
Lemma freeproc_spec p l s (Q : unit -> kstate -> Prop) (R : kstate -> Prop) : live (fds s) ->
  fv_tabs (fds s) !! p = Some (l, true) -> (forall s', fds s' = fds s -> Q tt s') ->
  (forall s', fds s' = fds s -> R s') -> wlps (freeproc p) s Q R.
Proof.
  intros Hl Hp HQ HR. unfold freeproc. destruct (fds_name s) as [v E]. rewrite E in Hl, Hp, HQ, HR.
  do 12 (kept_next True E; [|by apply HR]).
  eapply wlps_set_state; [rewrite E; exact Hp|]. intros s' E'. apply HQ. by rewrite E', E.
Qed.

Lemma keeps_kill pid : keeps (kill pid).
Proof.
  unfold kill. apply kept_bind; [|keeps_tac]. apply kept_for_each. intros p. apply kept_bind; [keeps_tac|intros _].
  intros s Hl. apply wlps_bind, wlps_proc_at. intros x Hx.
  pose proof (fds_proc _ _ _ Hx) as Hp. destruct (fds_name s) as [v E]. rewrite E in Hl, Hp |- *. clear Hx.
  destruct (p_pid x =? pid); [|kept_next True E; done].
  kept_next True E; [|done]. unfold proc_view in Hp. apply wlps_bind.
  assert (K : forall s', fds s' = v -> wlps (spin_release (proc_lk p) ;;; ret (Some 0)) s'
    (fun _ s' => fds s' = v) (fun s' => True /\ fds s' = v)).
  { intros s' E'. kept_next True E'; done. }
  destruct (p_state x); try (by apply K). eapply wlps_set_state; [rewrite E; exact Hp|].
  intros s' E'. apply K. by rewrite E', E.
Qed.

Lemma kept_allocpid sw : kept sw allocpid.
Proof. unfold allocpid. keeps_tac. Qed.
#[local] Hint Resolve kept_allocpid : keeps.

(** A new process is dead, and has no descriptors. *)
Lemma allocproc_spec s (Q : Z -> kstate -> Prop) (R : kstate -> Prop) : live (fds s) ->
  (forall s', fds s' = fds s -> Q NULL s') ->
  (forall p l s', fds s' = fds s -> fv_tabs (fds s) !! p = Some (l, true) -> Q p s') ->
  (forall s', fds s' = fds s -> R s') -> wlps allocproc s Q R.
Proof.
  intros Hl HN HS HR. unfold allocproc. destruct (fds_name s) as [v E0]. rewrite E0 in *. apply wlps_bind.
  eapply wlps_mono; [apply (wlps_for_each _ _ s (fun s' => fds s' = v)
    (fun p s' => fds s' = v /\ exists l, fv_tabs v !! p = Some (l, true)) R); [done|]| |done].
  - intros p s1 _ E. kept_next True E; [|by apply HR]. apply wlps_bind, wlps_proc_at. intros x Hx.
    pose proof (fds_proc _ _ _ Hx) as Hp. rewrite E in Hp. unfold proc_view in Hp.
    destruct (p_state x); try (kept_next True E; [done|by apply HR]). split; [done|]. by exists (p_ofile x).
  - intros [p|] s1; [|intros E; by apply HN]. intros (E & l & Hp).
    do 2 (kept_next True E; [|by apply HR]). kept_next True E; [|by apply HR].
    kept_next True E; [|by apply HR]. case_match; [kept_next True E; [by apply HN|by apply HR]|].
    kept_next True E; [|by apply HR]. kept_next True E; [|by apply HR]. case_match.
    + apply wlps_bind. apply (freeproc_spec p l); [by rewrite E|by rewrite E| |].
      * intros s' E'. rewrite E in E'. kept_next True E'; [by apply HN|by apply HR].
      * intros s' E'. apply HR. by rewrite E', E.
    + kept_next True E; [|by apply HR]. kept_next True E; [|by apply HR]. by apply (HS p l).
Qed.

Lemma call_ok_sys_wait : call_ok sys_wait.
Proof.
  apply (call_ok_kept True). unfold sys_wait. apply kept_bind; [keeps_tac|intros addr]. unfold wait.
  apply kept_bind; [keeps_tac|intros p]. apply kept_bind; [keeps_tac|intros _]. apply kept_bind; [|keeps_tac].
  apply kept_loop. intros [np havekids]. unfold wait_visit. case_match; [|keeps_tac].
  intros s Hl. apply wlps_bind, wlps_proc_at. intros y Hy. pose proof (fds_proc _ _ _ Hy) as Hp.
  destruct (fds_name s) as [v E]. rewrite E in Hl, Hp |- *. clear Hy. unfold proc_view in Hp.
  case_match; [|done]. kept_next True E; [|done].
  destruct (p_state y); try (kept_next True E; done).
  kept_next True E; [|done]. kept_next True E; [|done].
  case_match; [do 2 (kept_next True E; [|done]); done|].
  apply wlps_bind. eapply freeproc_spec; [by rewrite E|rewrite E; exact Hp| |].
  - intros s' E'. rewrite E in E'. do 2 (kept_next True E'; [|done]). done.
  - intros s' E'. split; [done|]. by rewrite E', E.
Qed.


(** A [for] loop whose counter runs up to [n]. *)
Lemma wlps_for_seq n (body : Z -> KM unit) s (I : Z -> kstate -> Prop) R : 0 <= n -> I 0 s ->
  (forall k s', 0 <= k < n -> I k s' -> wlps (body k) s' (fun _ s'' => I (k + 1) s'') R) ->
  wlps (for_all (seqZ 0 n) body) s (fun _ s' => I n s') R.
Proof.
  intros Hn Hs Hb. assert (H : forall m k s', m = Z.to_nat (n - k) -> 0 <= k <= n -> I k s' ->
    wlps (for_all (seqZ k (Z.of_nat m)) body) s' (fun _ s'' => I n s'') R).
  { induction m as [|m IH]; intros k s' Hm Hk Hs'.
    - cbn. by replace n with k by lia.
    - rewrite seqZ_cons by lia. cbn [for_all]. apply wlps_bind. eapply wlps_mono; [apply Hb; [lia|done]| |done].
      intros u s'' H'. replace (Z.pred (Z.of_nat (S m))) with (Z.of_nat m) by lia. apply IH; [lia..|done]. }
  specialize (H (Z.to_nat n) 0 s). rewrite Z2Nat.id in H by lia. apply H; [f_equal; lia|lia|done].
Qed.

(** The loop of [fork] over the descriptors of the parent, up to the [k]-th. *)
Record forking (np : Z) (lx : list Z) (k : Z) (v : fview) : Prop := {
  fk_inv : fd_inv np zero v;
  fk_cur : fv_tabs v !! fv_cur v = Some (lx, false);
  fk_new : exists l, fv_tabs v !! np = Some (l, true) /\ forall i, k <= Z.of_nat i < NOFILE -> l !! i = Some NULL
}.

Lemma fork_copies np lx x k s : p_ofile x = lx -> 0 <= k < NOFILE -> forking np lx k (fds s) -> fv_cur (fds s) <> np ->
  wlps (let f := default NULL (p_ofile x !! Z.to_nat k) in
        when (negb (f =? NULL))
          (let! f := filedup f in
           pupd np (fun y => set_p_ofile (<[Z.to_nat k := f]> (p_ofile y)) y))) s
    (fun _ s' => forking np lx (k + 1) (fds s') /\ fv_cur (fds s') = fv_cur (fds s)) (fun _ => False).
Proof.
  intros Hx Hk [Hi Hc (l & Hl & Hn)] Hne. cbv zeta. rewrite Hx.
  assert (Hlx : length lx = Z.to_nat NOFILE) by (by eapply fi_len).
  destruct (lookup_lt_is_Some_2 lx (Z.to_nat k)) as [f Hf]; [unfold NOFILE in *; lia|]. rewrite Hf. cbn [default from_option id].
  assert (Hk0 : l !! Z.to_nat k = Some NULL) by (apply Hn; lia).
  destruct (Z.eqb_spec f NULL) as [->|Hnf]; cbn [negb when].
  { split; [|done]. constructor; [done..|]. exists l. split; [done|]. intros i Hi'. apply Hn. lia. }
  assert (Hin : f ∈ lx) by by eapply list_elem_of_lookup_2.
  destruct (fd_inv_open _ _ _ _ _ _ f Hi Hc Hin Hnf) as (n & t & En & Hb). unfold zero in Hb.
  assert (Hr : 0 <= f < NFILE) by (eapply fi_files; [exact Hi|by eexists]).
  apply wlps_bind. eapply filedup_spec; [by exists lx|exact En|]. intros s1 E1.
  rewrite s32_small in E1 by (unfold is_int, INT_MIN, INT_MAX, NPROC, NOFILE in *; lia).
  apply wlps_pupd. intros y s2 Hy E2. pose proof (fds_proc _ _ _ Hy) as Hp. rewrite E1 in Hp. cbn [fv_tabs set_entry] in Hp.
  rewrite Hl in Hp. unfold proc_view in Hp. injection Hp as -> Hd. unfold proc_view in E2. cbn [p_ofile p_state set_p_ofile] in E2.
  rewrite <- Hd, E1 in E2. rewrite E2. split; [|done]. constructor.
  - eapply fd_inv_ext; [|eapply fd_inv_tab; [eapply fd_inv_dup; [exact Hi|exact En|lia]|exact Hl|exact Hk0|by right|by left]].
    intros g Hg. cbv beta. rewrite delta_null by done. unfold zero. lia.
  - cbn. by rewrite lookup_insert_ne.
  - eexists. split; [apply lookup_insert_eq|]. intros i Hi'. rewrite list_lookup_insert_ne by lia. apply Hn. lia.
Qed.

Lemma forking_eq np lx k v v' : v' = v -> forking np lx k v -> forking np lx k v'.
Proof. by intros ->. Qed.

Lemma call_ok_fork : call_ok fork.
Proof.
  intros s Hs. pose proof Hs as [Hi Hl]. unfold fork, myproc. apply wlps_bind. cbn [gets wlps].
  apply wlps_bind, allocproc_spec; [done| | |by intros s' E; eapply fd_ok_parked].
  { intros s1 E1. change (NULL =? NULL) with true. cbv iota. by eapply fd_ok_eq. }
  intros np l s1 E1 Hnp. assert (Hnr : 0 <= np < NPROC) by (eapply fi_tabs; [exact Hi|by eexists]).
  rewrite (proj2 (Z.eqb_neq np NULL)) by (unfold NULL; lia).
  apply wlps_bind, wlps_proc_at. intros x Hx. pose proof (fds_proc _ _ _ Hx) as Hp.
  change (cur s) with (fv_cur (fds s)) in Hp. rewrite E1 in Hp. destruct Hl as [lx Hlx]. rewrite Hlx in Hp.
  unfold proc_view in Hp. injection Hp as Hxl _.
  assert (Hne : fv_cur (fds s) <> np) by (intros E; rewrite E, Hnp in Hlx; done).
  destruct (fds_name s) as [v Ev]. rewrite Ev in *. assert (Hlv : live v) by by exists lx.
  assert (HP : forall s', fds s' = v -> parked s') by (intros s' E; left; by rewrite E).
  apply wlps_bind, wlps_proc_at. intros y Hy. clear Hx Hy. kept_next True E1; [|by apply HP].
  case_match.
  { apply wlps_bind. eapply freeproc_spec; [by rewrite E1|rewrite E1; exact Hnp| |].
    - intros s' E'. rewrite E1 in E'. kept_next True E'; [|by apply HP]. split; by rewrite E'.
    - intros s' E'. apply HP. by rewrite E', E1. }
  do 4 (kept_next True E1; [|by apply HP]).
  apply wlps_bind. eapply wlps_mono.
  { apply (wlps_for_seq NOFILE _ _ (fun k s' => forking np lx k (fds s') /\ fv_cur (fds s') = fv_cur v) (fun _ => False)); [done| |].
    - split; [|by rewrite E1]. rewrite E1. constructor; [by apply fd_inv_begin|done|]. exists l. split; [done|].
      intros i Hir. destruct (lookup_lt_is_Some_2 l i) as [f Hf].
      { rewrite (fi_len _ _ _ Hi _ _ _ Hnp). unfold NOFILE in *. lia. }
      rewrite Hf. f_equal. eapply (fi_dead _ _ _ Hi np); [exact Hnp|unfold NULL; lia|by eapply list_elem_of_lookup_2].
    - intros k s' Hk [Hfk Hcur]. eapply wlps_mono; [by apply (fork_copies np lx); [| | |rewrite Hcur]| |done].
      intros u s'' [H1 H2]. split; [done|congruence]. }
  2:{ done. }
  intros [] t2 [[Hi2 Hc2 (l2 & Hl2 & _)] Hcur]. cbn beta. assert (Hlv2 : live (fds t2)) by by exists lx.
  destruct (fds_name t2) as [w Ew]. rewrite Ew in *.
  kept_next False Ew; [|done]. do 2 (kept_next False Ew; [|done]).
  apply wlps_bind, wlps_proc_at. intros z _. cbv zeta. apply wlps_bind, wlps_pupd. intros u t3 Hu E3.
  pose proof (fds_proc _ _ _ Hu) as Hp. rewrite Ew, Hl2 in Hp. unfold proc_view in Hp. injection Hp as -> Hd.
  unfold proc_view in E3. cbn [p_ofile p_state set_p_state is_dead] in E3. rewrite Ew in E3.
  apply (call_ok_kept True); [keeps_tac|]. rewrite <- Hcur in Hne. split; rewrite E3.
  - eapply fd_inv_end; [eapply fd_inv_state; [exact Hi2|exact Hl2|done]|]. cbn. apply lookup_insert_eq.
  - exists lx. cbn. by rewrite lookup_insert_ne.
Qed.


(** The loop of [exit] over the descriptors. *)
Record exiting (p k : Z) (v : fview) : Prop := {
  ex_inv : fd_inv NULL zero v;
  ex_cur : fv_cur v = p;
  ex_null : exists l, fv_tabs v !! p = Some (l, false) /\ forall i, 0 <= Z.of_nat i < k -> l !! i = Some NULL
}.

Lemma exit_closes p fd s : 0 <= fd < NOFILE -> exiting p fd (fds s) ->
  wlps (let! x := proc_at p in
        let f := default NULL (p_ofile x !! Z.to_nat fd) in
        when (negb (f =? NULL))
          (fileclose f ;;;
           pupd p (fun x => set_p_ofile (<[Z.to_nat fd := NULL]> (p_ofile x)) x))) s
    (fun _ s' => exiting p (fd + 1) (fds s')) parked.
Proof.
  intros Hfd [Hi Hc (l & Hl & Hn)]. apply wlps_bind, wlps_proc_at. intros x Hx. pose proof (fds_proc _ _ _ Hx) as Hp.
  rewrite Hl in Hp. unfold proc_view in Hp. injection Hp as -> Hd. cbv zeta.
  assert (Hlen : length (p_ofile x) = Z.to_nat NOFILE) by (by eapply fi_len).
  destruct (lookup_lt_is_Some_2 (p_ofile x) (Z.to_nat fd)) as [f Hf]; [unfold NOFILE in *; lia|].
  rewrite Hf. cbn [default from_option id]. destruct (Z.eqb_spec f NULL) as [->|Hnf]; cbn [negb when].
  { constructor; [done..|]. exists (p_ofile x). split; [done|]. intros i Hi'.
    destruct (decide (Z.of_nat i < fd)); [apply Hn; lia|]. by replace i with (Z.to_nat fd) by lia. }
  assert (Hin : f ∈ p_ofile x) by by eapply list_elem_of_lookup_2.
  destruct (fd_inv_open _ _ _ _ _ _ f Hi Hl Hin Hnf) as (n & t & En & Hb).
  assert (Hlv : live (fds s)) by (exists (p_ofile x); by rewrite Hc).
  assert (Hv : forall v, v = set_entry f (dropped n t) (fds s) ->
    fd_inv NULL zero (set_tab p (<[Z.to_nat fd := NULL]> (p_ofile x), false) v)).
  { intros v ->. eapply fd_inv_ext; [|eapply fd_inv_tab; [eapply fd_inv_drop; [exact Hi|exact En]|exact Hl|exact Hf|by left|done]].
    intros g Hg. cbv beta. rewrite delta_null by done. unfold zero. lia. }
  apply wlps_bind. eapply fileclose_spec; [done|exact En| |].
  - intros s1 _ E1. apply wlps_pupd. intros y s2 Hy E2. pose proof (fds_proc _ _ _ Hy) as Hp. rewrite E1 in Hp.
    cbn [fv_tabs set_entry] in Hp. rewrite Hl in Hp. unfold proc_view in *. injection Hp as Ho Hd2.
    cbn [p_ofile p_state set_p_ofile] in E2. rewrite <- Ho, <- Hd2, E1 in E2. rewrite E2. constructor; [by apply Hv|done|].
    eexists. split; [apply lookup_insert_eq|]. intros i Hi'. destruct (decide (Z.of_nat i < fd)).
    + rewrite list_lookup_insert_ne by lia. apply Hn. lia.
    + replace i with (Z.to_nat fd) by lia. apply list_lookup_insert_eq. rewrite Hlen. unfold NOFILE in *. lia.
  - intros s1 _ _ _ E1. right. exists (Z.to_nat fd), (p_ofile x). rewrite E1. cbn [fv_tabs fv_cur set_entry]. rewrite Hc.
    split; [done|]. by apply Hv.
Qed.

Lemma wlps_release l s (Q : unit -> kstate -> Prop) R : off_fds l -> (forall s', fds s' = fds s -> Q tt s') ->
  wlps (spin_release l) s Q R.
Proof. intros Hl HQ. unfold spin_release, bind, gets, modify, wlps. destruct (lget l s); [apply HQ, Hl|done]. Qed.

Lemma wlps_sched {A} s (Q : A -> kstate -> Prop) (R : kstate -> Prop) : R s -> wlps sched s Q R.
Proof.
  intros HR. unfold sched, myproc. apply wlps_bind. cbn [gets wlps]. apply wlps_bind, wlps_proc_at. intros x _.
  case_match; [done|]. by case_match.
Qed.

Lemma kept_wakeup1 sw p : kept sw (wakeup1 p).
Proof. unfold wakeup1. keeps_tac. Qed.
Lemma kept_reparent sw p : kept sw (reparent p).
Proof. unfold reparent. keeps_tac. Qed.
#[local] Hint Resolve kept_wakeup1 kept_reparent : keeps.

Lemma call_ok_exit {A} status : call_ok (exit (A := A) status).
Proof.
  intros s [Hi [l Hl]]. unfold exit, myproc. apply wlps_bind. cbn [gets wlps]. apply wlps_bind. cbn [gets wlps].
  case_match; [done|]. apply wlps_bind.
  eapply wlps_mono; [apply (wlps_for_seq NOFILE _ _ (fun k s' => exiting (cur s) k (fds s')) parked); [done| |]| |done].
  { constructor; [done..|]. exists l. split; [done|]. lia. }
  { intros k s' Hk Hs'. by apply exit_closes. }
  intros [] t [Hti Htc (lt & Htl & Htn)]. cbv beta. set (p := cur s) in *.
  assert (Hlv : live (fds t)) by (exists lt; by rewrite Htc). destruct (fds_name t) as [v E]. rewrite E in *.
  assert (HP : forall s', fds s' = v -> parked s') by (intros s' E'; left; by rewrite E').
  do 16 (kept_next True E; [|by apply HP]).
  apply wlps_bind, wlps_pupd. intros x t1 Hx E1. pose proof (fds_proc _ _ _ Hx) as Hp. rewrite E, Htl in Hp.
  unfold proc_view in *. injection Hp as -> Hd. cbn [p_ofile p_state set_p_state is_dead] in E1. rewrite E in E1.
  apply wlps_bind, wlps_release; [apply off_proc_lk|]. intros t2 E2. apply wlps_sched. left. rewrite E2, E1.
  eapply fd_inv_state; [exact Hti|exact Htl|]. intros _ _ f [i Hf]%list_elem_of_lookup.
  assert (Hi2 : (i < Z.to_nat NOFILE)%nat).
  { rewrite <- (fi_len _ _ _ Hti _ _ _ Htl). by eapply lookup_lt_Some. }
  rewrite (Htn i) in Hf by (unfold NOFILE in *; lia). by injection Hf.
Qed.

#[local] Hint Resolve keeps_kill keeps_sys_exec keeps_sys_read keeps_sys_write keeps_sys_fstat keeps_sys_link
  keeps_sys_unlink keeps_sys_mkdir keeps_sys_mknod keeps_sys_chdir keeps_sys_chmod keeps_sys_symlink keeps_sys_raw_read
  keeps_sys_raw_write keeps_sys_get_disk_lbn keeps_sys_getpid keeps_sys_sbrk keeps_sys_sleep keeps_sys_uptime
  keeps_sys_force_fail keeps_sys_force_disk_fail : keeps.

Lemma keeps_sys_kill : keeps sys_kill.
Proof. unfold sys_kill. keeps_tac. Qed.
Lemma keeps_sys_get_force_fail : keeps sys_get_force_fail.
Proof. apply kept_gets. Qed.
#[local] Hint Resolve keeps_sys_kill keeps_sys_get_force_fail : keeps.

Lemma call_ok_sys_exit : call_ok sys_exit.
Proof. apply call_ok_bind; [apply (call_ok_kept True); keeps_tac|intros n; apply call_ok_exit]. Qed.

Lemma call_ok_syscalls num c : syscalls depth num = Some c -> call_ok c.
Proof.
  intros H%nth_error_In. repeat (destruct H as [<-|H]; [first
    [ apply call_ok_fork | apply call_ok_sys_exit | apply call_ok_sys_wait | apply call_ok_sys_pipe
    | apply call_ok_sys_dup | apply call_ok_sys_open | apply call_ok_sys_close
    | apply (call_ok_kept True); solve [auto 2 with keeps nocore] ]|]). destruct H.
Qed.

Lemma call_ok_syscall : call_ok (syscall depth).
Proof.
  assert (Hk : forall A (m : KM A), keeps m -> call_ok m) by (intros A m; apply call_ok_kept).
  unfold syscall. do 3 (apply call_ok_bind; [apply Hk; keeps_tac|intros ?]).
  destruct (if 0 <? _ then _ else _) as [c|] eqn:Ec; [|apply Hk; keeps_tac].
  destruct (0 <? _); [|done]. apply call_ok_bind; [by eapply call_ok_syscalls|intros r]. apply Hk; keeps_tac.
Qed.
End ops.

(** The tables of the kernel when it starts. *)
Lemma boot_fd_inv dk m p : fd_inv NULL zero (fds (kernel_boot dk m p)).
Proof.
  assert (Hp : forall i e, fv_tabs (fds (kernel_boot dk m p)) !! i = Some e ->
    0 <= i < NPROC /\ e.1 = replicate (Z.to_nat NOFILE) NULL).
  { intros i e He. cbn in He. rewrite lookup_fmap in He. destruct (table NPROC bss_proc !! i) as [x|] eqn:E; [|done].
    apply lookup_table_inv in E as [Hi ->]. by injection He as <-. }
  assert (Hf : forall f e, fv_files (fds (kernel_boot dk m p)) !! f = Some e -> 0 <= f < NFILE /\ e = (0, FD_NONE)).
  { intros i e He. cbn in He. rewrite lookup_fmap in He. destruct (table NFILE bss_file !! i) as [x|] eqn:E; [|done].
    apply lookup_table_inv in E as [Hi ->]. by injection He as <-. }
  constructor.
  - intros f. split; [intros [e He]; by destruct (Hf f e He)|]. intros Hr. exists (0, FD_NONE). cbn. rewrite lookup_fmap.
    by rewrite lookup_table.
  - intros i. split; [intros [e He]; by destruct (Hp i e He)|]. intros Hr. eexists. cbn. rewrite lookup_fmap.
    by rewrite lookup_table.
  - intros i l b H. apply Hp in H as [_ H]; change (l = replicate (Z.to_nat NOFILE) NULL) in H; subst l. by rewrite length_replicate.
  - intros i l b f H Hl. apply Hp in H as [_ H]; change (l = replicate (Z.to_nat NOFILE) NULL) in H; subst l. left. by apply elem_of_replicate_inv in Hl.
  - intros i l f H _ Hl. apply Hp in H as [_ H]; change (l = replicate (Z.to_nat NOFILE) NULL) in H; subst l. by apply elem_of_replicate_inv in Hl.
  - intros f n t H. apply Hf in H as [Hr [= -> ->]]. unfold zero, refs. rewrite (sumZ_ext _ (fun _ => 0)).
    + by rewrite sumZ_zero.
    + intros i Hi. unfold tab. destruct (fv_tabs _ !! i) as [[l b]|] eqn:E; [|done]. apply Hp in E as [_ E]; change (l = replicate (Z.to_nat NOFILE) NULL) in E; subst l.
      cbn [from_option fst]. apply count_zero. intros Hin. apply elem_of_replicate_inv in Hin as ->. unfold NULL in Hr. lia.
  - intros f t H. by apply Hf in H as [_ [= ->]].
Qed.

(** C24: Reference counts of the file table. In a state where each entry counts
    the descriptors of all processes that refer to it, every descriptor refers to
    an entry in use, and so it is when a system call, whichever it is, returns or
    switches to the scheduler: also when it fails half way, as [pipe] may, and
    when it copies all descriptors ([fork]) or closes them ([exit]). The one
    exception is an [exit] that waits for the log after it has dropped the
    reference of a descriptor that it is about to clear. *)
Theorem syscall_counts_references `{Linker} `{Compiler} `{ProcSymbols} depth s (Hs : fd_ok s) :
  (forall p x f, procs s !! p = Some x -> f ∈ p_ofile x -> f <> NULL ->
     exists y, ftable s !! f = Some y /\ 1 <= f_ref y) /\
  match syscall depth s with
  | Ret _ s' => fd_ok s'
  | Sleep s' => fd_inv NULL zero (fds s') \/ closing (fds s')
  | _ => True
  end.
Proof.
  split.
  - intros p x f Hx Hf Hn. destruct Hs as [Hi _].
    destruct (fd_inv_open _ _ _ _ _ _ f Hi (fds_proc _ _ _ Hx) Hf Hn) as (n & t & E & Hb & _).
    cbn in E. rewrite lookup_fmap in E. destruct (ftable s !! f) as [y|]; [|done]. exists y. split; [done|].
    unfold file_view, zero in *. cbn in E. injection E as <- _. lia.
  - change (wlps (syscall depth) s (fun _ s' => fd_ok s') parked). revert s Hs. change (call_ok (syscall depth)). apply call_ok_syscall.
Qed.


(** Process 5 calls [dup(0)], where descriptor 0 is the file 7. *)
Definition w_caller : proc :=
  set_p_trapframe 4096 (set_p_ofile (<[0%nat := 7]> (replicate (Z.to_nat NOFILE) NULL)) (set_p_state RUNNING bss_proc)).
Definition w_dup : kstate :=
  let s := kernel_boot ∅ (Phys (list_to_map [(526, 0); (533, 10)]) 0 false 0) 5 in
  set_ftable (<[7 := set_f_type FD_PIPE (set_f_ref 1 bss_file)]> (ftable s)) (set_procs (<[5 := w_caller]> (procs s)) s).

Lemma w_dup_ok : fd_ok w_dup.
Proof.
  assert (E : fds w_dup = set_entry 7 (0 + 1, FD_PIPE) (set_tab 5 (p_ofile w_caller, false)
    (set_tab 5 (p_ofile bss_proc, false) (fds (kernel_boot ∅ (Phys (list_to_map [(526, 0); (533, 10)]) 0 false 0) 5))))).
  { unfold w_dup, fds, set_entry, set_tab. cbv zeta. cbn [ftable set_ftable procs set_procs cur fv_files fv_tabs fv_cur].
    by rewrite !fmap_insert, insert_insert_eq. }
  split; rewrite E; [|eexists; apply lookup_insert_eq].
  eapply fd_inv_ext; [|eapply (fd_inv_entry _ _ _ 7 0 FD_NONE); [|by vm_compute|done]].
  2:{ eapply (fd_inv_tab _ _ _ 5 _ _ 0%nat NULL 7); [eapply (fd_inv_state _ _ _ 5); [apply boot_fd_inv|by vm_compute|done]|
      apply lookup_insert_eq|done|by right|done]. }
  intros f Hf. cbv beta. rewrite delta_null by done. unfold zero. lia.
Qed.

Lemma syscall_counts_references_witness :
  let _ := {| stat_pad1 := zeros 4; stat_pad2 := zeros 6 |} : Compiler in
  let _ := {| forkret_addr := 0 |} : ProcSymbols in
  exists s', syscall 9 w_dup = Ret tt s' /\ fd_ok s' /\ f_ref <$> ftable s' !! 7 = Some 2.
Proof.
  intros C P. exists (final w_dup (syscall 9 w_dup)).
  assert (E : syscall 9 w_dup = Ret tt (final w_dup (syscall 9 w_dup))) by (apply run_eq; by vm_compute).
  split; [exact E|]. destruct (syscall_counts_references 9 w_dup w_dup_ok) as [_ H]. rewrite E in H.
  split; [exact H|by vm_compute].
Defined.
