(* ===== verification/Namex.v ===== *)
(** [namex] of fs.c: the resolution of a path against the directory tree on the
    disk, and the references it takes in the inode cache. *)
From S2P Require Import Prelude CString Bytes Locks Kalloc Vm Bio Log Kernel Console Fs Txn Blocks Files Writes Paths Proc Wakeup Trunc.

(** ** The directory tree *)

(** An inode of the disk as the functions on directories take it. *)
Definition as_inode (d : dinode) : inode := load_dinode d (Inode ROOTDEV 0 0 no_lock true 0 0 0 0 0 []).

(** A directory that may be searched, and the inode that it has under a name. *)
Definition searchable (d : dinode) : bool := (d_type d =? T_DIR) && negb (Z.land (d_minor d) M_READ =? 0).
Definition child (V : Z -> option block) (d : dinode) (name : list Z) : option Z :=
  (fun k => de_inum (dir_entry V (as_inode d) k)) <$> dir_find V (as_inode d) name.

Definition empty {A} (l : list A) : bool := match l with [] => true | _ => false end.

Section tree.
Context (sbk : superblock) (V : Z -> option block) (parent : bool).

(** The inode that the components [ws] lead to from [inum]; for [nameiparent], the
    directory of the last one. *)
Fixpoint walk (inum : Z) (ws : list (list Z)) : option Z :=
  match ws with
  | [] => if parent then None else Some inum
  | w :: ws' =>
      d ← inode_at sbk V inum;
      if searchable d then
        if parent && empty ws' then Some inum else n ← child V d w; walk n ws'
      else None
  end.

(** An inode that can be read, with a link to it. *)
Definition node_ok (inum : Z) (d : dinode) : Prop :=
  inode_at sbk V inum = Some d /\ d_type d <> 0 /\ d_nlink d <> 0 /\ is_block (IBLOCK inum sbk).

(** The inodes on the way are like this, the directories that are searched have
    their blocks, and none on the way is a symbolic link. *)
Fixpoint walk_ok (inum : Z) (ws : list (list Z)) : Prop :=
  exists d, node_ok inum d /\
  match ws with
  | [] => True
  | w :: ws' =>
      d_type d <> T_SYMLINK /\
      (searchable d = true -> parent && empty ws' = false ->
       dir_ok ∅ ∅ V (as_inode d) /\ forall n, child V d w = Some n -> walk_ok n ws')
  end.
End tree.

(** Only these fields matter for the contents. *)
Lemma dir_find_inode V x name : dir_find V x name = dir_find V (as_inode (dinode_of x)) name.
Proof. by destruct x. Qed.

Lemma dir_entry_inode V x k : dir_entry V x k = dir_entry V (as_inode (dinode_of x)) k.
Proof. by destruct x. Qed.

Lemma dir_ok_inode V x : i_dev x = ROOTDEV -> dir_ok ∅ ∅ V (as_inode (dinode_of x)) -> dir_ok ∅ ∅ V x.
Proof. intros Hd (H1 & H2 & [F1 F2 F3 F4]). destruct x. cbn in Hd. subst. by split_and!. Qed.

Lemma dir_find_name V x a b : dir_name a = dir_name b -> dir_find V x a = dir_find V x b.
Proof.
  intros E. unfold dir_find. apply find_ext. intros k _. apply eq_bool_prop_intro. rewrite !Is_true_true.
  rewrite !dir_match_spec. unfold dir_named. by rewrite E.
Qed.

(** ** The inode cache as a table of references *)

Definition ssum (g : inode -> Z) (s : kstate) : Z :=
  sumZ (fun ip => from_option g 0 (icache s !! ip)) (seqZ 0 NINODE).
(** The references to an inode, and the number of free slots. *)
Definition share (i : Z) (x : inode) : Z := if i_inum x =? i then i_ref x else 0.
Definition cref (i : Z) (s : kstate) : Z := ssum (share i) s.
Definition is_free (x : inode) : Z := if i_ref x =? 0 then 1 else 0.
Definition nslots (s : kstate) : Z := ssum is_free s.

Lemma ssum_iset g s ip x y : icache s !! ip = Some x -> 0 <= ip < NINODE ->
  ssum g (iset ip y s) = ssum g s + g y - g x.
Proof.
  intros Hx Hr. unfold ssum. rewrite (sumZ_change _ (fun ip => from_option g 0 (icache s !! ip)) _ ip).
  - rewrite icache_iset, Hx. done.
  - apply NoDup_seqZ.
  - apply elem_of_seqZ. lia.
  - intros p Hp. unfold iset. cbn. by rewrite lookup_insert_ne.
Qed.

Lemma ssum_icache g s s' : icache s' = icache s -> ssum g s' = ssum g s.
Proof. unfold ssum. by intros ->. Qed.

Lemma ssum_ge g s ip x : (forall x, 0 <= g x) -> icache s !! ip = Some x -> 0 <= ip < NINODE -> g x <= ssum g s.
Proof.
  intros Hg Hx Hr. unfold ssum. pose proof (sumZ_ge (fun ip => from_option g 0 (icache s !! ip)) (seqZ 0 NINODE) ip) as H.
  cbn beta in H. rewrite Hx in H. apply H; [|apply elem_of_seqZ; lia]. intros p _. destruct (icache s !! p); [apply Hg|done].
Qed.

Lemma kpid_frame s s' : kframe s s' -> kpid s' = kpid s.
Proof. intros (c & l & -> & (_ & _ & _ & H & _) & _). exact H. Qed.

(** The cache between two operations inside a transaction: nothing is locked but
    the slot [L], what is valid is what the disk says, and [C] counts the
    references to each inode. *)
Record tree_st (bl : list Z) (V : Z -> option block) (C : Z -> Z) (L : option Z) (s : kstate) : Prop := {
  ts_txn : ktxn bl ∅ ∅ V s;
  ts_lock : icache_lock s = false;
  ts_dom : forall ip, is_Some (icache s !! ip) <-> 0 <= ip < NINODE;
  ts_ref : forall ip x, icache s !! ip = Some x -> 0 <= i_ref x;
  ts_disk : forall ip x, icache s !! ip = Some x -> 0 < i_ref x -> i_dev x = ROOTDEV /\
    (i_valid x = true -> inode_at (sb s) V (i_inum x) = Some (dinode_of x));
  ts_held : forall ip x, icache s !! ip = Some x ->
    i_lock x = if decide (L = Some ip) then held (kpid s) else no_lock;
  ts_procs : procs_ok s;
  ts_count : forall i, cref i s = C i
}.

Lemma tree_frame bl V C L s s' : kframe s s' -> ktxn bl ∅ ∅ V s' -> tree_st bl V C L s -> tree_st bl V C L s'.
Proof.
  intros F T [_ H2 H3 H4 H5 H6 H7 H8]. pose proof (kframe_eqs _ _ F) as (E1 & E2 & E3 & _). constructor; rewrite ?E1, ?E2, ?E3; try done.
  - by rewrite (kpid_frame _ _ F).
  - by eapply procs_ok_frame.
  - intros i. rewrite <- H8. by apply ssum_icache.
Qed.

Lemma tree_iset bl V C C' L L' s ip x y : tree_st bl V C L s -> icache s !! ip = Some x -> 0 <= i_ref y ->
  (0 < i_ref y -> i_dev y = ROOTDEV /\ (i_valid y = true -> inode_at (sb s) V (i_inum y) = Some (dinode_of y))) ->
  i_lock y = (if decide (L' = Some ip) then held (kpid s) else no_lock) ->
  (forall jp, jp <> ip -> L = Some jp <-> L' = Some jp) ->
  (forall i, C' i = C i + share i y - share i x) -> tree_st bl V C' L' (iset ip y s).
Proof.
  intros [H1 H2 H3 H4 H5 H6 H7 H8] Hx Hr Hd Hl HL HC.
  assert (Hip : 0 <= ip < NINODE) by (apply H3; by eexists). constructor; try done; unfold iset at 1; cbn [icache set_icache].
  - intros jp. rewrite <- H3. destruct (decide (jp = ip)) as [->|Hne].
    + rewrite lookup_insert_eq, Hx. split; intros _; by eexists.
    + by rewrite lookup_insert_ne.
  - intros jp z. destruct (decide (jp = ip)) as [->|Hne].
    + rewrite lookup_insert_eq. by intros [= <-].
    + rewrite lookup_insert_ne by done. apply H4.
  - intros jp z. destruct (decide (jp = ip)) as [->|Hne].
    + rewrite lookup_insert_eq. by intros [= <-].
    + rewrite lookup_insert_ne by done. apply H5.
  - intros jp z. change (kpid (iset ip y s)) with (kpid s). destruct (decide (jp = ip)) as [->|Hne].
    + rewrite lookup_insert_eq. by intros [= <-].
    + rewrite lookup_insert_ne by done. intros Hz. rewrite (H6 jp z Hz). by apply decide_ext, HL.
  - intros i. change (ssum (share i) (iset ip y s) = C' i). rewrite (ssum_iset _ _ _ x) by done. by rewrite HC, <- H8.
Qed.

Lemma share_delta inum x k : i_inum x = inum -> forall i,
  share i (set_i_ref (i_ref x + k) x) = share i x + k * delta inum i.
Proof.
  intros <- i. unfold share, delta. cbn [i_inum i_ref set_i_ref].
  destruct (Z.eqb_spec (i_inum x) i), (Z.eqb_spec i (i_inum x)); lia.
Qed.

Lemma tree_ok bl V C L s : tree_st bl V C L s -> icache_ok s.
Proof. intros T. split; [apply T|]. intros ip Hip. by apply (ts_dom _ _ _ _ _ T). Qed.

Lemma tree_range bl V C L s ip x : tree_st bl V C L s -> icache s !! ip = Some x -> 0 <= ip < NINODE.
Proof. intros T Hx. apply (ts_dom _ _ _ _ _ T). by eexists. Qed.

Lemma tree_nonnull bl V C L s ip x : tree_st bl V C L s -> icache s !! ip = Some x -> ip <> NULL.
Proof. intros T Hx. pose proof (tree_range _ _ _ _ _ _ _ T Hx). unfold NULL. lia. Qed.

(** The count of a slot is part of the count of its inode. *)
Lemma tree_bound bl V C L s ip x : tree_st bl V C L s -> icache s !! ip = Some x -> i_ref x <= C (i_inum x).
Proof.
  intros T Hx. pose proof (tree_range _ _ _ _ _ _ _ T Hx) as Hr. rewrite <- (ts_count _ _ _ _ _ T).
  assert (Hg : forall p, p ∈ seqZ 0 NINODE -> 0 <= from_option (share (i_inum x)) 0 (icache s !! p)).
  { intros p _. destruct (icache s !! p) as [y|] eqn:E; [|done]. cbn. unfold share. case_match; [|done].
    by eapply (ts_ref _ _ _ _ _ T). }
  pose proof (sumZ_ge _ _ ip Hg) as H. cbv beta in H. rewrite Hx in H. cbn [from_option] in H. unfold share in H at 1. rewrite Z.eqb_refl in H.
  apply H, elem_of_seqZ. lia.
Qed.

Lemma free_slot s : (forall ip, is_Some (icache s !! ip) <-> 0 <= ip < NINODE) -> 1 <= nslots s ->
  exists ip x, icache_free s = Some ip /\ icache s !! ip = Some x /\ i_ref x = 0.
Proof.
  intros Hdom Hn. destruct (icache_free s) as [ip|] eqn:E.
  - pose proof (List.find_some _ _ E) as [_ Hf]. unfold slot_free in Hf.
    destruct (icache s !! ip) as [x|] eqn:Hx; [|done]. exists ip, x. by apply Z.eqb_eq in Hf.
  - exfalso. assert (H0 : nslots s = sumZ (fun _ => 0) (seqZ 0 NINODE)).
    { apply sumZ_ext. intros p Hp. pose proof (List.find_none _ _ E p) as Hf. rewrite <- list_elem_of_In in Hf.
      specialize (Hf Hp). unfold slot_free in Hf. destruct (icache s !! p) as [x|]; [|done]. cbn. unfold is_free. by rewrite Hf. }
    rewrite H0, sumZ_zero in Hn. lia.
Qed.

(** [iget] takes a reference, in the slot of the inode or in a free one. *)
Lemma iget_tree bl V C L s inum : tree_st bl V C L s -> C inum + 1 <= INT_MAX -> 1 <= nslots s ->
  exists ip y, iget_slot s ROOTDEV inum = Some (ip, y) /\ tree_st bl V (fun i => C i + delta inum i) L (iset ip y s) /\
    i_inum y = inum /\ 1 <= i_ref y /\ nslots (iset ip y s) = nslots s - (if i_ref y =? 1 then 1 else 0) /\
    (forall x, icache s !! ip = Some x -> 1 <= i_ref x -> y = set_i_ref (i_ref x + 1) x).
Proof.
  intros T Hc Hn. unfold iget_slot. destruct (icache_find s ROOTDEV inum) as [ip|] eqn:Ef.
  - pose proof (List.find_some _ _ Ef) as [_ Hf]. unfold slot_is in Hf.
    destruct (icache s !! ip) as [x|] eqn:Hx; [|done]. apply andb_true_iff in Hf as [[Hr%Z.ltb_lt Hd%Z.eqb_eq]%andb_true_iff Hi%Z.eqb_eq].
    pose proof (tree_range _ _ _ _ _ _ _ T Hx) as Hip. pose proof (tree_bound _ _ _ _ _ _ _ T Hx) as Hb. rewrite Hi in Hb.
    assert (Es : s32 (i_ref x + 1) = i_ref x + 1) by (apply s32_small; unfold is_int, INT_MIN, INT_MAX in *; lia).
    exists ip, (set_i_ref (i_ref x + 1) x). cbn [fmap option_fmap option_map]. rewrite Es. split; [done|].
    split; [|split; [done|split; [cbn; lia|split]]].
    + eapply tree_iset; [exact T|exact Hx|cbn; lia| |exact (ts_held _ _ _ _ _ T ip x Hx)|done|].
      * intros _. exact (ts_disk _ _ _ _ _ T ip x Hx Hr).
      * intros i. rewrite (share_delta inum) by done. lia.
    + unfold nslots. rewrite (ssum_iset _ _ _ x) by done. unfold is_free. cbn [i_ref set_i_ref].
      rewrite (proj2 (Z.eqb_neq (i_ref x) 0)), (proj2 (Z.eqb_neq (i_ref x + 1) 0)), (proj2 (Z.eqb_neq (i_ref x + 1) 1)) by lia. lia.
    + intros x' Hx' _. try rewrite Hx in Hx'. by injection Hx' as <-.
  - destruct (free_slot s (ts_dom _ _ _ _ _ T) Hn) as (ip & x & -> & Hx & Hr). cbn [mbind option_bind]. rewrite Hx.
    pose proof (tree_range _ _ _ _ _ _ _ T Hx) as Hip. exists ip, (fresh_inode ROOTDEV inum x). split; [done|].
    split; [|split; [done|split; [done|split]]].
    + eapply tree_iset; [exact T|exact Hx|done| |exact (ts_held _ _ _ _ _ T ip x Hx)|done|]; [done|].
      intros i. unfold share, delta. cbn [i_inum i_ref fresh_inode set_i_valid set_i_ref set_i_inum set_i_dev]. rewrite Hr.
      destruct (Z.eqb_spec inum i), (Z.eqb_spec i inum), (i_inum x =? i); lia.
    + unfold nslots. rewrite (ssum_iset _ _ _ x) by done. unfold is_free. cbn [i_ref fresh_inode set_i_valid set_i_ref]. rewrite Hr. cbn. lia.
    + intros x' Hx' H1. rewrite Hx in Hx'. injection Hx' as <-. lia.
Qed.

Section ops.
Context {bl : list Z} {V : Z -> option block}.

Lemma ilock_tree C s ip x d (Q : unit -> kstate -> Prop) : tree_st bl V C None s -> icache s !! ip = Some x ->
  1 <= i_ref x -> node_ok (sb s) V (i_inum x) d -> room bl ∅ ->
  (forall s' y, tree_st bl V C (Some ip) s' -> icache s' = <[ip := y]> (icache s) -> dinode_of y = d -> i_valid y = true ->
     i_inum y = i_inum x -> i_ref y = i_ref x -> i_dev y = ROOTDEV -> sb s' = sb s -> nslots s' = nslots s -> Q tt s') ->
  wp (ilock ip) s Q.
Proof.
  intros T Hx Hr (Hd & Hty & Hnl & Hb) Hroom HQ. pose proof (tree_nonnull _ _ _ _ _ _ _ T Hx) as Hnn.
  pose proof (tree_range _ _ _ _ _ _ _ T Hx) as Hip. pose proof (ts_held _ _ _ _ _ T ip x Hx) as Hl.
  rewrite decide_False in Hl by done. destruct (ts_disk _ _ _ _ _ T ip x Hx ltac:(lia)) as [Hdev Hv].
  assert (Hn : forall y, i_ref y = i_ref x -> nslots (iset ip y s) = nslots s).
  { intros y E. unfold nslots. rewrite (ssum_iset _ _ _ x) by done. unfold is_free. rewrite E. lia. }
  assert (HT : forall y, i_lock y = held (kpid s) -> i_ref y = i_ref x -> i_inum y = i_inum x -> i_dev y = ROOTDEV ->
    dinode_of y = d -> tree_st bl V C (Some ip) (iset ip y s)).
  { intros y E1 E2 E3 E4 E5. eapply tree_iset; [exact T|exact Hx|lia| | | |].
    - intros _. split; [done|]. intros _. by rewrite E3, E5.
    - by rewrite decide_True.
    - intros jp Hne. split; [done|]. by intros [= ->].
    - intros i. unfold share. rewrite E2, E3. lia. }
  destruct (i_valid x) eqn:Ev.
  - apply (ilock_valid s ip x); [done..|]. assert (Ed : dinode_of x = d) by (rewrite (Hv eq_refl) in Hd; by injection Hd).
    apply (HQ _ (set_i_lock (held (kpid s)) x)); try done; [by apply HT|by apply Hn].
  - eapply (ilock_load s ip x d); [apply T|done..|]. intros s' F T'.
    pose proof (kframe_eqs _ _ F) as (E1 & _ & E3 & _).
    apply (HQ _ (loaded (kpid s) d x)); try done.
    + eapply tree_frame; [exact F|exact T'|]. apply HT; try done. by destruct d.
    + by destruct d.
    + unfold nslots. rewrite (ssum_icache _ _ _ E3). by apply Hn.
Qed.

Lemma iunlock_tree C s ip x (Q : unit -> kstate -> Prop) : tree_st bl V C (Some ip) s -> icache s !! ip = Some x ->
  1 <= i_ref x ->
  (forall s', tree_st bl V C None s' -> icache s' = <[ip := set_i_lock no_lock x]> (icache s) -> sb s' = sb s ->
     nslots s' = nslots s -> Q tt s') ->
  wp (iunlock ip) s Q.
Proof.
  intros T Hx Hr HQ. pose proof (tree_nonnull _ _ _ _ _ _ _ T Hx) as Hnn. pose proof (tree_range _ _ _ _ _ _ _ T Hx) as Hip.
  pose proof (ts_held _ _ _ _ _ T ip x Hx) as Hl. rewrite decide_True in Hl by done.
  unfold iunlock. rewrite (proj2 (Z.eqb_neq ip NULL)) by done. apply wp_bind.
  assert (Hg : lget (inode_lock ip) s = held (kpid s)) by (cbn; by rewrite Hx).
  eapply wp_eq; [apply holdingsleep_free|].
  - intros k. rewrite (inode_lock_set s ip x) by done. cbn. by rewrite lookup_insert_eq.
  - intros j k. rewrite (inode_lock_set s ip x k) by done. rewrite (inode_lock_set _ ip (set_i_lock k x)) by apply icache_iset.
    rewrite iset_iset. by rewrite (inode_lock_set s ip x).
  - done.
  - rewrite (inode_lock_set s ip x) by done. rewrite Hg, <- Hl. apply iset_id. rewrite Hx. by destruct x.
  - by rewrite Hg.
  - rewrite Hg. apply wp_bind. eapply wp_iget_at; [exact Hx|]. change (myproc_pid s) with (kpid s). cbn [held sl_locked sl_pid].
    rewrite Z.eqb_refl, (proj2 (Z.ltb_ge (i_ref x) 1)) by lia. cbn [andb negb orb].
    eapply inode_release; [apply T|exact Hx|by rewrite Hl|]. intros s' F El. pose proof (kframe_eqs _ _ F) as (E1 & _ & E3 & _).
    apply HQ; [|exact E3|exact E1|].
    + eapply tree_frame; [exact F|unfold ktxn; rewrite El; apply T|]. eapply tree_iset; [exact T|exact Hx| | |done| |].
      * cbn. lia.
      * apply (ts_disk _ _ _ _ _ T ip x Hx).
      * intros jp Hne. split; [by intros [= ->]|done].
      * intros i. unfold share. cbn. lia.
    + unfold nslots. rewrite (ssum_icache _ _ _ E3). rewrite (ssum_iset _ _ _ x) by done. unfold is_free. cbn. lia.
Qed.

Lemma iput_tree C s ip x (Q : unit -> kstate -> Prop) : tree_st bl V C None s -> icache s !! ip = Some x ->
  1 <= i_ref x -> (i_valid x = true -> i_nlink x <> 0) -> C (i_inum x) <= INT_MAX ->
  (forall s', tree_st bl V (fun i => C i - delta (i_inum x) i) None s' ->
     icache s' = <[ip := set_i_ref (i_ref x - 1) x]> (icache s) -> sb s' = sb s ->
     nslots s' = nslots s + (if i_ref x =? 1 then 1 else 0) -> Q tt s') ->
  wp (iput ip) s Q.
Proof.
  intros T Hx Hr Hnl Hc HQ. pose proof (tree_range _ _ _ _ _ _ _ T Hx) as Hip. pose proof (tree_bound _ _ _ _ _ _ _ T Hx) as Hb.
  eapply wp_eq; [apply (iput_cached s ip x); [done|apply T|]|].
  - destruct (i_valid x); [|by rewrite andb_false_r]. rewrite (proj2 (Z.eqb_neq (i_nlink x) 0)) by auto. by rewrite andb_false_r.
  - rewrite s32_small by (unfold is_int, INT_MIN, INT_MAX in *; lia). apply HQ; try done.
    + eapply tree_iset; [exact T|exact Hx|cbn; lia| |exact (ts_held _ _ _ _ _ T ip x Hx)|done|].
      * intros _. apply (ts_disk _ _ _ _ _ T ip x Hx). lia.
      * intros i. replace (i_ref x - 1) with (i_ref x + -1) by lia. rewrite (share_delta (i_inum x)) by done. lia.
    + unfold nslots. rewrite (ssum_iset _ _ _ x) by done. unfold is_free. cbn [i_ref set_i_ref].
      destruct (Z.eqb_spec (i_ref x - 1) 0), (Z.eqb_spec (i_ref x) 0), (Z.eqb_spec (i_ref x) 1); lia.
Qed.

Lemma iunlockput_tree C s ip x (Q : unit -> kstate -> Prop) : tree_st bl V C (Some ip) s -> icache s !! ip = Some x ->
  1 <= i_ref x -> i_nlink x <> 0 -> C (i_inum x) <= INT_MAX ->
  (forall s', tree_st bl V (fun i => C i - delta (i_inum x) i) None s' ->
     icache s' = <[ip := set_i_ref (i_ref x - 1) (set_i_lock no_lock x)]> (icache s) -> sb s' = sb s ->
     nslots s' = nslots s + (if i_ref x =? 1 then 1 else 0) -> Q tt s') ->
  wp (iunlockput ip) s Q.
Proof.
  intros T Hx Hr Hnl Hc HQ. unfold iunlockput. apply wp_bind. eapply iunlock_tree; [exact T|exact Hx|done|].
  intros s1 T1 E1 Esb1 En1. eapply (iput_tree C s1 ip (set_i_lock no_lock x)); [done|rewrite E1; apply lookup_insert_eq|done|done|done|].
  intros s2 T2 E2 Esb2 En2. apply HQ; [exact T2| |congruence|by rewrite En2, En1].
  by rewrite E2, E1, insert_insert_eq.
Qed.

(** The slots that are free, or will be when the only reference to [x] is dropped. *)
Definition spare (x : inode) (s : kstate) : Z := nslots s + (if i_ref x =? 1 then 1 else 0).

(** [dirlookup] in a locked directory, and then its release: the reference moves on
    to the inode that was found. *)
Lemma dirlookup_tree C s ip x name (Q : Z * Z -> kstate -> Prop) : tree_st bl V C (Some ip) s ->
  icache s !! ip = Some x -> 1 <= i_ref x -> i_dev x = ROOTDEV -> dir_ok ∅ ∅ V (as_inode (dinode_of x)) ->
  room bl ∅ -> (forall i, C i + 1 <= INT_MAX) -> 2 <= spare x s ->
  match child V (dinode_of x) name with
  | None => forall off s', tree_st bl V C (Some ip) s' -> icache s' = icache s -> sb s' = sb s -> Q (NULL, off) s'
  | Some n => forall nx off s' y z, tree_st bl V (fun i => C i + delta n i) (Some ip) s' -> sb s' = sb s ->
      icache s' !! nx = Some y -> i_inum y = n -> 1 <= i_ref y ->
      icache s' !! ip = Some z -> i_inum z = i_inum x -> 1 <= i_ref z -> dinode_of z = dinode_of x ->
      (nx = ip -> 2 <= i_ref z) ->
      2 <= nslots s' + (if i_ref z =? 1 then 1 else 0) + (if i_ref (if decide (nx = ip) then set_i_ref (i_ref z - 1) z else y) =? 1 then 1 else 0) ->
      Q (nx, off) s'
  end -> wp (dirlookup ip name) s Q.
Proof.
  intros T Hx Hr Hdev Hdir Hroom Hc Hsp HQ. apply dir_ok_inode in Hdir; [|done]. unfold spare in Hsp.
  pose proof (tree_range _ _ _ _ _ _ _ T Hx) as Hip.
  eapply dirlookup_spec; [apply T|exact Hx|exact Hdir|unfold room in Hroom; lia|by eapply tree_ok|].
  unfold child in HQ. rewrite <- dir_find_inode in HQ. destruct (dir_find V x name) as [k|].
  2:{ intros s' F T'. pose proof (kframe_eqs _ _ F) as (E1 & _ & E3 & _). apply HQ; [|done..]. by eapply tree_frame. }
  cbn [fmap option_fmap option_map] in HQ. rewrite <- dir_entry_inode in HQ. set (n := de_inum (dir_entry V x k)) in *. rewrite Hdev.
  destruct (iget_tree bl V C (Some ip) s n T (Hc n)) as (nx & y & Hs & T1 & Ey & Hry & Hns & Hold); [case_match; lia|].
  exists nx, y. split; [exact Hs|]. intros s' F T'. pose proof (kframe_eqs _ _ F) as (E1 & _ & E3 & _).
  assert (Hns' : nslots s' = nslots (iset nx y s)) by by apply ssum_icache.
  destruct (decide (nx = ip)) as [->|Hne].
  - rewrite (Hold x Hx Hr) in *. apply (HQ ip _ s' (set_i_ref (i_ref x + 1) x) (set_i_ref (i_ref x + 1) x)); try done.
    + by eapply tree_frame.
    + rewrite E3. apply icache_iset.
    + rewrite E3. apply icache_iset.
    + cbn. lia.
    + rewrite decide_True by done. rewrite Hns', Hns. cbn [i_ref set_i_ref].
      destruct (Z.eqb_spec (i_ref x) 1), (Z.eqb_spec (i_ref x + 1) 1), (Z.eqb_spec (i_ref x + 1 - 1) 1); lia.
  - apply (HQ nx _ s' y x); try done.
    + by eapply tree_frame.
    + rewrite E3. apply icache_iset.
    + rewrite E3. unfold iset. cbn. by rewrite lookup_insert_ne.
    + rewrite decide_False by done. rewrite Hns', Hns. destruct (Z.eqb_spec (i_ref y) 1), (Z.eqb_spec (i_ref x) 1); lia.
Qed.

Lemma leave_tree C s ip nx y z n (Q : unit -> kstate -> Prop) : tree_st bl V (fun i => C i + delta n i) (Some ip) s ->
  icache s !! nx = Some y -> i_inum y = n -> 1 <= i_ref y -> icache s !! ip = Some z -> 1 <= i_ref z -> i_nlink z <> 0 ->
  (forall i, C i + 1 <= INT_MAX) -> (nx = ip -> 2 <= i_ref z) ->
  2 <= nslots s + (if i_ref z =? 1 then 1 else 0) + (if i_ref (if decide (nx = ip) then set_i_ref (i_ref z - 1) z else y) =? 1 then 1 else 0) ->
  (forall s' y', tree_st bl V (fun i => C i - delta (i_inum z) i + delta n i) None s' -> sb s' = sb s -> icache s' !! nx = Some y' ->
     i_inum y' = n -> 1 <= i_ref y' -> 2 <= spare y' s' -> Q tt s') ->
  wp (iunlockput ip) s Q.
Proof.
  intros T Hy Hn Hry Hz Hrz Hnl Hc Heq Hsp HQ.
  eapply iunlockput_tree; [exact T|exact Hz|done|done| |].
  { cbv beta. unfold delta. specialize (Hc (i_inum z)). destruct (Z.eqb_spec (i_inum z) n); lia. }
  intros s' T' E Esb En. destruct (decide (nx = ip)) as [->|Hne].
  - apply (HQ s' (set_i_ref (i_ref z - 1) (set_i_lock no_lock z))); try done.
    + destruct T' as [t1 t2 t3 t4 t5 t6 t7 t8]. constructor; try done. intros i. rewrite t8. lia.
    + rewrite E. apply lookup_insert_eq.
    + cbn. rewrite Hz in Hy. injection Hy as <-. done.
    + cbn. specialize (Heq eq_refl). lia.
    + unfold spare. rewrite En. cbn [i_ref set_i_ref] in *. lia.
  - apply (HQ s' y); try done.
    + destruct T' as [t1 t2 t3 t4 t5 t6 t7 t8]. constructor; try done. intros i. rewrite t8. lia.
    + rewrite E. by rewrite lookup_insert_ne.
    + unfold spare. rewrite En. lia.
Qed.

End ops.

Lemma child_name V d a b : dir_name a = dir_name b -> child V d a = child V d b.
Proof. intros E. unfold child. by rewrite (dir_find_name V _ a b). Qed.

Lemma tree_ext bl V C C' L s : (forall i, C i = C' i) -> tree_st bl V C L s -> tree_st bl V C' L s.
Proof. intros E [t1 t2 t3 t4 t5 t6 t7 t8]. constructor; try done. intros i. by rewrite t8. Qed.

Section namex.
Context {bl : list Z} {V : Z -> option block} (parent : bool) (sbk : superblock) (C0 : Z -> Z).
Hypotheses (Hroom : room bl ∅) (HC0 : forall i, C0 i + 3 <= INT_MAX).

(** What [namex] returns for the path [ws0] that leads to [w0]: a reference to that
    inode more, or none. *)
Definition resolved (ws0 : list (list Z)) (w0 : option Z) (r : Z * list Z) (s : kstate) : Prop :=
  sb s = sbk /\
  match w0 with
  | Some inum => exists x, icache s !! r.1 = Some x /\ i_inum x = inum /\ 1 <= i_ref x /\
      tree_st bl V (fun i => C0 i + delta inum i) None s /\
      (parent = true -> exists w, list.last ws0 = Some w /\ dir_name r.2 = dir_name w)
  | None => r.1 = NULL /\ tree_st bl V C0 None s
  end.

(** The loop: [ip] is referenced, and the rest of the path leads from it to [w0]. *)
Definition visiting (ws0 : list (list Z)) (w0 : option Z) (a : Z * list Z * list Z) (s : kstate) : Prop :=
  let '(ip, path, name) := a in exists inum x,
  tree_st bl V (fun i => C0 i + delta inum i) None s /\ sb s = sbk /\
  icache s !! ip = Some x /\ i_inum x = inum /\ 1 <= i_ref x /\ 2 <= spare x s /\
  walk_ok sbk V parent inum (components path) /\ walk sbk V parent inum (components path) = w0 /\
  length name = Z.to_nat DIRSIZ /\ Forall (fun c => c <> 0) path /\ exists pre, ws0 = pre ++ components path.

Lemma held_bound inum i : C0 i + delta inum i + 1 <= INT_MAX.
Proof using HC0. pose proof (delta_range inum i). specialize (HC0 i). lia. Qed.

Lemma walk_ok_node inum ws : walk_ok sbk V parent inum ws -> exists d, node_ok sbk V inum d.
Proof using. destruct ws; intros (d & H & _); by exists d. Qed.

Lemma namex_fail {B} ws0 s ip y name (Q : B + Z * list Z -> kstate -> Prop) :
  tree_st bl V (fun i => C0 i + delta (i_inum y) i) (Some ip) s -> sb s = sbk ->
  icache s !! ip = Some y -> 1 <= i_ref y -> i_nlink y <> 0 ->
  (forall s', resolved ws0 None (NULL, name) s' -> Q (inr (NULL, name)) s') ->
  wp (iunlockput ip ;;; ret (inr (NULL, name))) s Q.
Proof using HC0.
  intros T Esb Hy Hr Hnl HQ. apply wp_bind. eapply iunlockput_tree; [exact T|exact Hy|done|done| |].
  - pose proof (held_bound (i_inum y) (i_inum y)). cbv beta. lia.
  - intros s' T' _ Es _. apply wp_ret, HQ. split; [congruence|]. split; [done|]. eapply tree_ext; [|exact T'].
    intros i. cbv beta. lia.
Qed.

(** A directory on the way, locked: the search for the next component, and the move
    to the inode that it names. *)
Lemma namex_step ws0 w0 w ws' name s ip y (Q : Z * list Z * list Z + Z * list Z -> kstate -> Prop) (K : Z -> KM (Z * list Z * list Z + Z * list Z)) :
  tree_st bl V (fun i => C0 i + delta (i_inum y) i) (Some ip) s -> sb s = sbk -> icache s !! ip = Some y ->
  1 <= i_ref y -> i_nlink y <> 0 -> i_dev y = ROOTDEV -> 2 <= spare y s ->
  dir_ok ∅ ∅ V (as_inode (dinode_of y)) -> (forall n, child V (dinode_of y) w = Some n -> walk_ok sbk V parent n ws') ->
  (n ← child V (dinode_of y) w; walk sbk V parent n ws') = w0 -> dir_name name = dir_name w ->
  (w0 = None -> forall s', resolved ws0 None (NULL, name) s' -> Q (inr (NULL, name)) s') ->
  (forall n nx z s', walk_ok sbk V parent n ws' -> walk sbk V parent n ws' = w0 ->
     tree_st bl V (fun i => C0 i + delta n i) (Some nx) s' -> sb s' = sbk -> icache s' !! nx = Some z -> i_inum z = n ->
     1 <= i_ref z -> 2 <= spare z s' -> node_ok sbk V n (dinode_of z) -> wp (K nx) s' Q) ->
  wp (let! '(next, _) := dirlookup ip name in
      if next =? NULL then iunlockput ip ;;; ret (inr (NULL, name)) else
      iunlockput ip ;;; ilock next ;;; K next) s Q.
Proof using Hroom HC0.
  intros T Esb Hy Hr Hnl Hdev Hsp Hdir Hch Hw Hname HN HK. apply wp_bind.
  eapply dirlookup_tree; [exact T|exact Hy|done|exact Hdev|exact Hdir|exact Hroom|apply held_bound|exact Hsp|].
  rewrite (child_name _ _ name w Hname). destruct (child V (dinode_of y) w) as [n|]; cbn [mbind option_bind] in Hw.
  - intros nx off s1 u z T1 E1 Hu Hui Hur Hz Hzi Hzr Hzd Heq Hsp1.
    rewrite (proj2 (Z.eqb_neq nx NULL)) by (by eapply tree_nonnull).
    assert (Hznl : i_nlink z <> 0) by (change (i_nlink z) with (d_nlink (dinode_of z)); by rewrite Hzd).
    apply wp_bind. eapply leave_tree; [exact T1|exact Hu|exact Hui|done|exact Hz|done|done|apply held_bound|exact Heq|exact Hsp1|].
    intros s2 u2 T2 E2 Hu2 Hui2 Hur2 Hsp2. destruct (walk_ok_node n ws' (Hch n eq_refl)) as [d Hd].
    assert (T2' : tree_st bl V (fun i => C0 i + delta n i) None s2).
    { eapply tree_ext; [|exact T2]. intros i. cbv beta. rewrite Hzi. lia. }
    apply wp_bind. eapply ilock_tree; [exact T2'|exact Hu2|done|rewrite Hui2, E2, E1, Esb; exact Hd|done|].
    intros s3 v T3 E3 Evd _ Evi Evr _ Es3 En3. subst d. eapply (HK n nx v s3); [by apply Hch|done|exact T3|congruence| | | | |exact Hd].
    + rewrite E3. apply lookup_insert_eq.
    + congruence.
    + lia.
    + unfold spare in *. by rewrite En3, Evr.
  - intros off s1 T1 E1 Es1. change (NULL =? NULL) with true. cbv iota.
    eapply (namex_fail ws0 s1 ip y); [exact T1|congruence|by rewrite E1|done|done|]. apply HN. by subst w0.
Qed.

(** Where a path starts: at the root, or in the directory of the process. *)
Definition starts (s : kstate) (path : list Z) (inum : Z) : Prop :=
  match path with
  | c :: _ => if c =? SLASH then inum = ROOTINO else
      exists p x, procs s !! cur s = Some p /\ icache s !! p_cwd p = Some x /\ i_inum x = inum /\ 1 <= i_ref x
  | [] => exists p x, procs s !! cur s = Some p /\ icache s !! p_cwd p = Some x /\ i_inum x = inum /\ 1 <= i_ref x
  end.

Lemma root_start s (Q : Z -> kstate -> Prop) : tree_st bl V C0 None s -> 2 <= nslots s ->
  (forall ip y, tree_st bl V (fun i => C0 i + delta ROOTINO i) None (iset ip y s) -> i_inum y = ROOTINO -> 1 <= i_ref y ->
     2 <= spare y (iset ip y s) -> Q ip (iset ip y s)) -> wp (iget ROOTDEV ROOTINO) s Q.
Proof using HC0.
  intros T Hn HQ. pose proof (HC0 ROOTINO).
  destruct (iget_tree bl V C0 None s ROOTINO T) as (ip & y & Hs & T1 & Ey & Hry & Hns & _); [lia..|].
  eapply iget_spec; [by eapply tree_ok|exact Hs|]. apply HQ; [done..|]. unfold spare. lia.
Qed.

Lemma cwd_start s inum (Q : Z -> kstate -> Prop) : tree_st bl V C0 None s -> 2 <= nslots s ->
  (exists p x, procs s !! cur s = Some p /\ icache s !! p_cwd p = Some x /\ i_inum x = inum /\ 1 <= i_ref x) ->
  (forall ip y, tree_st bl V (fun i => C0 i + delta inum i) None (iset ip y s) -> i_inum y = inum -> 1 <= i_ref y ->
     2 <= spare y (iset ip y s) -> Q ip (iset ip y s)) ->
  wp (let! p := myproc in let! x := proc_at p in idup (p_cwd x)) s Q.
Proof using HC0.
  intros T Hn (p & x & Hp & Hx & Hi & Hr) HQ. unfold myproc. apply wp_bind, wp_gets. apply wp_bind.
  eapply wp_proc_at; [exact Hp|]. pose proof (tree_bound _ _ _ _ _ _ _ T Hx) as Hb. rewrite Hi in Hb. pose proof (HC0 inum) as Hc.
  pose proof (tree_range _ _ _ _ _ _ _ T Hx) as Hip.
  assert (Es : s32 (i_ref x + 1) = i_ref x + 1) by (apply s32_small; unfold is_int, INT_MIN, INT_MAX in *; lia).
  unfold idup. apply wp_bind, wp_icache_acquire; [apply T|]. apply wp_bind. eapply wp_iupd; [exact Hx|].
  apply wp_bind, wp_icache_release; [done|]. apply wp_ret. rewrite Es.
  rewrite set_icache_lock_id by apply T. apply HQ; [|done|cbn; lia|].
  - eapply tree_iset; [exact T|exact Hx|cbn; lia| |exact (ts_held _ _ _ _ _ T _ x Hx)|done|].
    + intros _. apply (ts_disk _ _ _ _ _ T _ x Hx). lia.
    + intros i. rewrite (share_delta inum) by done. lia.
  - unfold spare, nslots. rewrite (ssum_iset _ _ _ x) by done. fold (nslots s). unfold is_free. cbn [i_ref set_i_ref].
    destruct (Z.eqb_spec (i_ref x + 1) 0), (Z.eqb_spec (i_ref x) 0), (Z.eqb_spec (i_ref x + 1) 1); lia.
Qed.

(** The end of the path. *)
Lemma namex_end ws0 n x s ip name (Q : Z * list Z * list Z + Z * list Z -> kstate -> Prop) :
  tree_st bl V (fun i => C0 i + delta n i) None s -> sb s = sbk -> icache s !! ip = Some x -> i_inum x = n -> 1 <= i_ref x ->
  walk_ok sbk V parent n [] ->
  (forall v s', resolved ws0 (walk sbk V parent n []) v s' -> Q (inr v) s') ->
  wp (if parent then iput ip ;;; ret (inr (NULL, name)) else ret (inr (ip, name))) s Q.
Proof using HC0.
  intros T Esb Hx Hi Hr (d & (Hd & _ & Hnl & _) & _) HQ. cbn [walk] in HQ. destruct parent eqn:Epa.
  - apply wp_bind. eapply iput_tree; [exact T|exact Hx|done| | |].
    + intros Hv. destruct (ts_disk _ _ _ _ _ T ip x Hx ltac:(lia)) as [_ Hdx]. specialize (Hdx Hv).
      rewrite Hi, Esb, Hd in Hdx. injection Hdx as ->. exact Hnl.
    + pose proof (held_bound n (i_inum x)). cbv beta. lia.
    + intros s' T' _ Es _. apply wp_ret, HQ. split; [congruence|]. split; [done|].
      eapply tree_ext; [|exact T']. intros i. cbv beta. rewrite Hi. lia.
  - apply wp_ret, HQ. split; [done|]. exists x. split; [exact Hx|]. split; [exact Hi|]. split; [exact Hr|].
    split; [exact T|]. by rewrite Epa.
Qed.

(** [namex] refines the walk in the tree. *)
Lemma namex_walk depth path name s inum :
  tree_st bl V C0 None s -> sb s = sbk -> 2 <= nslots s -> starts s path inum ->
  walk_ok sbk V parent inum (components path) -> length name = Z.to_nat DIRSIZ -> Forall (fun c => c <> 0) path ->
  Z.of_nat (length path) < 2 ^ 64 ->
  wp (namex (S depth) path parent name) s (resolved (components path) (walk sbk V parent inum (components path))).
Proof using Hroom HC0.
  intros T Esb Hns Hst Hok Hn Hp Hlen. set (ws0 := components path) in *. set (w0 := walk sbk V parent inum ws0).
  cbn [namex]. apply wp_bind. eapply wp_mono with (Q1 := fun ip s' => visiting ws0 w0 (ip, path, name) s').
  { assert (HV : forall ip y, tree_st bl V (fun i => C0 i + delta inum i) None (iset ip y s) -> i_inum y = inum -> 1 <= i_ref y ->
      2 <= spare y (iset ip y s) -> visiting ws0 w0 (ip, path, name) (iset ip y s)).
    { intros ip y T1 Hi Hr Hsp. exists inum, y. split_and!; try done; [apply icache_iset|by exists []]. }
    unfold starts in Hst. destruct path as [|c p]; [by eapply cwd_start|]. destruct (c =? SLASH); [|by eapply cwd_start].
    subst inum. by apply root_start. }
  intros ip0 s0 Hvis. clearbody w0 ws0.
  apply (wp_loop (visiting ws0 w0) (fun '(_, path, _) => Z.of_nat (length path))); [done|lia|intros [[? ?] ?]; lia|].
  clear - Hroom HC0. intros [[ip path] name] s (n & x & T & Esb & Hx & Hi & Hr & Hsp & Hok & Hw & Hn & Hp & pre & Hpre).
  destruct (skipelem path name) as [[path' name']|] eqn:Ek.
  2:{ apply skipelem_none in Ek. rewrite Ek in Hok, Hw. subst w0. by eapply (namex_end _ n). }
  destruct (skipelem_some _ _ _ _ Hn Hp Ek) as (w & Ec & Hdn & Hn' & Hp' & Hlt & Hnil). rewrite Ec in *.
  destruct Hok as (d & Hnode & Hnosym & Hdir). cbn [walk] in Hw. rewrite (proj1 Hnode) in Hw. cbn [mbind option_bind] in Hw.
  apply wp_bind. eapply ilock_tree; [exact T|exact Hx|done|rewrite Hi, Esb; exact Hnode|done|].
  intros s1 y T1 E1 Ed _ Hyi Hyr Hyd Es1 En1. subst d n. rewrite <- Hyi in T1. rewrite <- Hyr in Hr.
  assert (Hy : icache s1 !! ip = Some y) by (rewrite E1; apply lookup_insert_eq).
  assert (Esb1 : sb s1 = sbk) by congruence. assert (Hynl : i_nlink y <> 0) by apply Hnode.
  assert (Hsp1 : 2 <= spare y s1) by (unfold spare in *; by rewrite En1, Hyr).
  clear T Hx E1 Es1 En1. apply wp_bind. eapply wp_iget_at; [exact Hy|].
  assert (Hfail : searchable (dinode_of y) = false -> wp (iunlockput ip ;;; ret (inr (NULL, name'))) s1
    (fun r s' => match r with inl a => visiting ws0 w0 a s' /\ (let '(_, p, _) := a in Z.of_nat (length p)) < Z.of_nat (length path)
                 | inr v => resolved ws0 w0 v s' end)).
  { intros Hf. rewrite Hf in Hw. subst w0. eapply (namex_fail ws0); [exact T1|done|exact Hy|done|done|done]. }
  unfold searchable in Hdir, Hw, Hfail. change (d_type (dinode_of y)) with (i_type y) in *. change (d_minor (dinode_of y)) with (i_minor y) in *.
  destruct (Z.eqb_spec (i_type y) T_DIR) as [Ety|]; [|by apply Hfail]. cbn [negb andb] in *.
  unfold inode_get_mode. rewrite Ety in *. change (T_DIR =? T_DEVICE) with false. cbn [negb andb].
  destruct (Z.land (i_minor y) M_READ =? 0); [by apply Hfail|]. cbn [negb] in Hdir, Hw. clear Hfail.
  assert (El : match path' with [] => true | _ :: _ => false end = empty (components path')).
  { destruct path' as [|c p']; [by rewrite (proj1 Hnil)|]. destruct (components (c :: p')); [|done]. by discriminate (proj2 Hnil). }
  rewrite El. destruct (parent && empty (components path')) eqn:Epar.
  - apply wp_bind. eapply iunlock_tree; [exact T1|exact Hy|done|]. intros s2 T2 E2 Es2 _. apply wp_ret. subst w0.
    split; [congruence|]. eexists. split; [rewrite E2; apply lookup_insert_eq|]. split; [done|]. split; [done|].
    split; [by rewrite <- Hyi|]. intros _. exists w. apply andb_true_iff in Epar as [_ Hemp].
    destruct (components path'); [|done]. rewrite Hpre. split; [apply last_snoc|done].
  - destruct (Hdir eq_refl eq_refl) as [Hdok Hchild]. clear Hdir.
    eapply (namex_step ws0 w0 w (components path')); [exact T1|exact Esb1|exact Hy|done|done|done|done|exact Hdok|exact Hchild|exact Hw|done| |].
    + intros -> s' Hres. exact Hres.
    + intros n nx z s2 Hwok Hw2 T2 Es2 Hz Hzi Hzr Hzsp Hznode. apply wp_bind. eapply wp_iget_at; [exact Hz|].
      assert (Hsym : (i_type z =? T_SYMLINK) && negb (empty (components path')) = false).
      { destruct (components path') as [|w2 ws2]; [by rewrite andb_false_r|]. destruct Hwok as (d & (Hd & _) & Hns & _).
        rewrite (proj1 Hznode) in Hd. injection Hd as <-. by rewrite (proj2 (Z.eqb_neq (i_type z) T_SYMLINK)). }
      rewrite Hsym. apply wp_bind. eapply iunlock_tree; [exact T2|exact Hz|done|]. intros s3 T3 E3 Es3 En3. apply wp_ret.
      split; [|lia]. exists n, (set_i_lock no_lock z). split_and!; try done.
      * congruence.
      * rewrite E3. apply lookup_insert_eq.
      * unfold spare in *. by rewrite En3.
      * exists (pre ++ [w]). by rewrite <- app_assoc.
Qed.
End namex.

(** C12: [namex] resolves a path in the directory tree on the disk. From the root
    for a path that starts with a slash, and from the directory of the process
    otherwise, it follows the components of the path; for [nameiparent] it stops in
    the directory of the last one, and returns this one's name. It returns 0 when
    an inode on the way is no directory, may not be read, or has no such entry.
    Nothing is written and no buffer or inode stays locked, and it has taken one
    reference to the inode it returns and no other. The inodes on the way are
    linked, and none of them is a symbolic link; two slots of the cache are free. *)
Theorem namex_resolves depth bl V parent C s start path name
    (T : tree_st bl V C None s) (Hroom : room bl ∅) (HC : forall i, C i + 3 <= INT_MAX) (Hslots : 2 <= nslots s)
    (Hstart : starts s path start) (Hok : walk_ok (sb s) V parent start (components path))
    (Hname : length name = Z.to_nat DIRSIZ) (Hpath : Forall (fun c => c <> 0) path) (Hlen : Z.of_nat (length path) < 2 ^ 64) :
  wp (namex (S depth) path parent name) s (fun r s' => sb s' = sb s /\
    match walk (sb s) V parent start (components path) with
    | Some inum => exists x, icache s' !! r.1 = Some x /\ i_inum x = inum /\ 1 <= i_ref x /\
        tree_st bl V (fun i => C i + delta inum i) None s' /\
        (parent = true -> exists w, list.last (components path) = Some w /\ dir_name r.2 = dir_name w)
    | None => r.1 = NULL /\ tree_st bl V C None s'
    end).
Proof. by apply namex_walk. Qed.

(** The directory of [Files.w_dir] as the root, with the file "ab". *)
Definition w_ab : inode := Inode ROOTDEV 7 1 no_lock true T_FILE 0 3 1 0 (zeros 13).
Definition w_tree_inodes : block :=
  put_dinode (put_dinode zero_data (dinode_off 1) (dinode_of w_dir)) (dinode_off 7) (dinode_of w_ab).
Definition w_tree (b : Z) : block := if b =? 32 then w_tree_inodes else w_dir_blocks b.

Lemma w_tree_walk : walk_ok w_sb (fun b => Some (w_tree b)) false ROOTINO [[46]; [97; 98]].
Proof.
  assert (H1 : node_ok w_sb (fun b => Some (w_tree b)) 1 (dinode_of w_dir)).
  { split; [vm_compute; reflexivity|]. split; [discriminate|]. split; [discriminate|by vm_compute]. }
  assert (Hd : dir_ok ∅ ∅ (fun b => Some (w_tree b)) (as_inode (dinode_of w_dir))).
  { split; [reflexivity|]. split; [reflexivity|]. destruct (w_dir_mapped (fun b => Some (w_tree b)) eq_refl). by constructor. }
  exists (dinode_of w_dir). split; [exact H1|]. split; [discriminate|]. intros _ _. split; [exact Hd|].
  intros n Hn. vm_compute in Hn. injection Hn as <-. exists (dinode_of w_dir). split; [exact H1|]. split; [discriminate|].
  intros _ _. split; [exact Hd|]. intros n Hn. vm_compute in Hn. injection Hn as <-.
  exists (dinode_of w_ab). split; [|exact I]. split; [vm_compute; reflexivity|]. split; [discriminate|]. split; [discriminate|by vm_compute].
Qed.

Definition no_refs (_ : Z) : Z := 0.

Lemma boot_tree bl V s : ktxn bl ∅ ∅ V s -> icache_lock s = false -> icache s = table NINODE bss_inode ->
  procs s = table NPROC bss_proc -> tree_st bl V no_refs None s.
Proof.
  intros T Hl Hi Hp. assert (Hs : forall ip x, icache s !! ip = Some x -> 0 <= ip < NINODE /\ x = bss_inode).
  { intros ip x. rewrite Hi. apply lookup_table_inv. }
  constructor; [done|done| | | | |by apply boot_procs_ok|].
  - intros ip. split; [by intros [x [H _]%Hs]|]. intros H. rewrite Hi. exists bss_inode. by apply lookup_table.
  - by intros ip x [_ ->]%Hs.
  - by intros ip x [_ ->]%Hs.
  - by intros ip x [_ ->]%Hs.
  - intros i. unfold cref, ssum, no_refs. rewrite (sumZ_ext _ (fun _ => 0)).
    + apply sumZ_zero.
    + intros p _. destruct (icache s !! p) as [x|] eqn:E; [|done]. apply Hs in E as [_ ->]. cbn. unfold share. by case_match.
Qed.

(** "/.//ab" *)
Lemma namex_resolves_witness : exists s, icache s = table NINODE bss_inode /\
  wp (namex 1 [47; 46; 47; 47; 97; 98] false no_name) s (fun r s' =>
    exists x, icache s' !! r.1 = Some x /\ i_inum x = 7 /\ cref 7 s' = 1).
Proof.
  destruct (open_txn w_tree w_sb) as (s & T & Hsb & Hi & Hl & Hp & _). exists s. split; [exact Hi|].
  eapply wp_mono; [apply (namex_resolves 0 [] (fun b => Some (w_tree b)) false no_refs s ROOTINO)|].
  - by apply boot_tree.
  - reflexivity.
  - intros i. vm_compute. discriminate.
  - unfold nslots, ssum. rewrite Hi. vm_compute. discriminate.
  - reflexivity.
  - rewrite Hsb. exact w_tree_walk.
  - reflexivity.
  - repeat constructor; discriminate.
  - reflexivity.
  - intros r s' (_ & H). rewrite Hsb in H.
    assert (E : walk w_sb (fun b => Some (w_tree b)) false ROOTINO (components [47; 46; 47; 47; 97; 98]) = Some 7) by (vm_compute; reflexivity).
    rewrite E in H. destruct H as (x & Hx & Hin & _ & T' & _). exists x. split; [exact Hx|]. split; [exact Hin|].
    apply (ts_count _ _ _ _ _ T').
Defined.
