(* ===== verification/Virtio.v ===== *)
(** The driver of the virtio disk, FileSystem-RAID/kernel/virtio_disk.c, with
    the descriptor table and the two rings that it shares with the device.

    [virtio_disk_rw] is split at its second [sleep]: [virtio_submit] runs
    until the request is with the device and [virtio_finish] after
    [virtio_disk_intr] has cleared [b->disk].  [Bio.virtio_disk_rw] is the
    whole transfer, as the buffer cache sees it. *)
From S2P Require Import Prelude Locks Kalloc Bio.

Definition NUM : Z := 8.
Definition VRING_DESC_F_NEXT : Z := 1.
Definition VRING_DESC_F_WRITE : Z := 2.
Definition VIRTIO_BLK_T_IN : Z := 0.
Definition VIRTIO_BLK_T_OUT : Z := 1.

(** [struct virtio_blk_outhdr]. *)
Record outhdr := Outhdr { oh_type : Z; oh_reserved : Z; oh_sector : Z }.

(** [struct VRingDesc]. *)
Record vdesc := Vdesc {
  vd_addr : Z;
  vd_len : Z;
  vd_flags : Z;
  vd_next : Z
}.

Definition set_vd_addr (v : Z) (s : vdesc) : vdesc :=
  Vdesc v (vd_len s) (vd_flags s) (vd_next s).
Definition set_vd_len (v : Z) (s : vdesc) : vdesc :=
  Vdesc (vd_addr s) v (vd_flags s) (vd_next s).
Definition set_vd_flags (v : Z) (s : vdesc) : vdesc :=
  Vdesc (vd_addr s) (vd_len s) v (vd_next s).
Definition set_vd_next (v : Z) (s : vdesc) : vdesc :=
  Vdesc (vd_addr s) (vd_len s) (vd_flags s) v.

(** [disk] of virtio_disk.c.  [b_disk] holds the buffers with [b->disk] set,
    [v_regs] the writes to the device's registers and [v_wakeups] the calls of
    [wakeup] (latest first). *)
Record vdisk := Vdisk {
  v_desc : list vdesc;
  v_avail : list Z;
  v_used_id : Z;
  v_used_elems : list Z;
  v_free : list bool;
  v_used_idx : Z;
  v_info_b : list Z;
  v_info_status : list Z;
  vdisk_lock : bool;
  b_disk : gset Z;
  v_regs : list (Z * Z);
  v_wakeups : list Z;
  v_hdrs : gmap Z outhdr
}.

Definition set_v_desc (v : list vdesc) (s : vdisk) : vdisk :=
  Vdisk v (v_avail s) (v_used_id s) (v_used_elems s) (v_free s) (v_used_idx s) (v_info_b s)
    (v_info_status s) (vdisk_lock s) (b_disk s) (v_regs s) (v_wakeups s) (v_hdrs s).
Definition set_v_avail (v : list Z) (s : vdisk) : vdisk :=
  Vdisk (v_desc s) v (v_used_id s) (v_used_elems s) (v_free s) (v_used_idx s) (v_info_b s)
    (v_info_status s) (vdisk_lock s) (b_disk s) (v_regs s) (v_wakeups s) (v_hdrs s).
Definition set_v_used_id (v : Z) (s : vdisk) : vdisk :=
  Vdisk (v_desc s) (v_avail s) v (v_used_elems s) (v_free s) (v_used_idx s) (v_info_b s)
    (v_info_status s) (vdisk_lock s) (b_disk s) (v_regs s) (v_wakeups s) (v_hdrs s).
Definition set_v_used_elems (v : list Z) (s : vdisk) : vdisk :=
  Vdisk (v_desc s) (v_avail s) (v_used_id s) v (v_free s) (v_used_idx s) (v_info_b s)
    (v_info_status s) (vdisk_lock s) (b_disk s) (v_regs s) (v_wakeups s) (v_hdrs s).
Definition set_v_free (v : list bool) (s : vdisk) : vdisk :=
  Vdisk (v_desc s) (v_avail s) (v_used_id s) (v_used_elems s) v (v_used_idx s) (v_info_b s)
    (v_info_status s) (vdisk_lock s) (b_disk s) (v_regs s) (v_wakeups s) (v_hdrs s).
Definition set_v_used_idx (v : Z) (s : vdisk) : vdisk :=
  Vdisk (v_desc s) (v_avail s) (v_used_id s) (v_used_elems s) (v_free s) v (v_info_b s)
    (v_info_status s) (vdisk_lock s) (b_disk s) (v_regs s) (v_wakeups s) (v_hdrs s).
Definition set_v_info_b (v : list Z) (s : vdisk) : vdisk :=
  Vdisk (v_desc s) (v_avail s) (v_used_id s) (v_used_elems s) (v_free s) (v_used_idx s) v
    (v_info_status s) (vdisk_lock s) (b_disk s) (v_regs s) (v_wakeups s) (v_hdrs s).
Definition set_v_info_status (v : list Z) (s : vdisk) : vdisk :=
  Vdisk (v_desc s) (v_avail s) (v_used_id s) (v_used_elems s) (v_free s) (v_used_idx s)
    (v_info_b s) v (vdisk_lock s) (b_disk s) (v_regs s) (v_wakeups s) (v_hdrs s).
Definition set_vdisk_lock (v : bool) (s : vdisk) : vdisk :=
  Vdisk (v_desc s) (v_avail s) (v_used_id s) (v_used_elems s) (v_free s) (v_used_idx s)
    (v_info_b s) (v_info_status s) v (b_disk s) (v_regs s) (v_wakeups s) (v_hdrs s).
Definition set_b_disk (v : gset Z) (s : vdisk) : vdisk :=
  Vdisk (v_desc s) (v_avail s) (v_used_id s) (v_used_elems s) (v_free s) (v_used_idx s)
    (v_info_b s) (v_info_status s) (vdisk_lock s) v (v_regs s) (v_wakeups s) (v_hdrs s).
Definition set_v_regs (v : list (Z * Z)) (s : vdisk) : vdisk :=
  Vdisk (v_desc s) (v_avail s) (v_used_id s) (v_used_elems s) (v_free s) (v_used_idx s)
    (v_info_b s) (v_info_status s) (vdisk_lock s) (b_disk s) v (v_wakeups s) (v_hdrs s).
Definition set_v_wakeups (v : list Z) (s : vdisk) : vdisk :=
  Vdisk (v_desc s) (v_avail s) (v_used_id s) (v_used_elems s) (v_free s) (v_used_idx s)
    (v_info_b s) (v_info_status s) (vdisk_lock s) (b_disk s) (v_regs s) v (v_hdrs s).
Definition set_v_hdrs (v : gmap Z outhdr) (s : vdisk) : vdisk :=
  Vdisk (v_desc s) (v_avail s) (v_used_id s) (v_used_elems s) (v_free s) (v_used_idx s)
    (v_info_b s) (v_info_status s) (vdisk_lock s) (b_disk s) (v_regs s) (v_wakeups s) v.

Abbreviation VM := (M vdisk) (only parsing).

(** Registers. *)
Definition VIRTIO_MMIO_MAGIC_VALUE : Z := 0.
Definition VIRTIO_MMIO_VERSION : Z := 4.
Definition VIRTIO_MMIO_DEVICE_ID : Z := 8.
Definition VIRTIO_MMIO_VENDOR_ID : Z := 12.
Definition VIRTIO_MMIO_DEVICE_FEATURES : Z := 16.
Definition VIRTIO_MMIO_DRIVER_FEATURES : Z := 32.
Definition VIRTIO_MMIO_GUEST_PAGE_SIZE : Z := 40.
Definition VIRTIO_MMIO_QUEUE_SEL : Z := 48.
Definition VIRTIO_MMIO_QUEUE_NUM_MAX : Z := 52.
Definition VIRTIO_MMIO_QUEUE_NUM : Z := 56.
Definition VIRTIO_MMIO_QUEUE_PFN : Z := 64.
Definition VIRTIO_MMIO_QUEUE_NOTIFY : Z := 80.
Definition VIRTIO_MMIO_INTERRUPT_STATUS : Z := 96.
Definition VIRTIO_MMIO_INTERRUPT_ACK : Z := 100.
Definition VIRTIO_MMIO_STATUS : Z := 112.

Definition write_reg (r v : Z) : VM unit := modify (fun s => set_v_regs ((r, v) :: v_regs s) s).
Definition vlk : lens vdisk bool := Lens vdisk_lock set_vdisk_lock.
Definition wakeup_v (chan : Z) : VM unit :=
  modify (fun s => set_v_wakeups (chan :: v_wakeups s) s).
(** [&disk.free[0]] as a channel; a buffer is its own. *)
Definition FREE_CHAN : Z := 1001.

(** [l[i]], and [l[i] = v], of an array of the driver. *)
Definition arr_get {A} (f : vdisk -> list A) (i : Z) : VM A :=
  let! l := gets f in of_option "fault" (if i <? 0 then None else l !! Z.to_nat i).
Definition desc_upd (i : Z) (f : vdesc -> vdesc) : VM unit :=
  let! d := arr_get v_desc i in
  modify (fun s => set_v_desc (<[Z.to_nat i := f d]> (v_desc s)) s).
Definition free_set (i : Z) (b : bool) : VM unit :=
  let! _ := arr_get v_free i in
  modify (fun s => set_v_free (<[Z.to_nat i := b]> (v_free s)) s).
Definition info_set (i b : Z) : VM unit :=
  modify (fun s => set_v_info_b (<[Z.to_nat i := b]> (v_info_b s)) s).

(** The device's registers are read through [R]; [pages] is the address of
    [disk.pages]. *)
Definition virtio_disk_init (R : Z -> Z) (pages : Z) : VM unit :=
  modify (set_vdisk_lock false) ;;;
  if negb (R VIRTIO_MMIO_MAGIC_VALUE =? 1953655158) || negb (R VIRTIO_MMIO_VERSION =? 1) ||
     negb (R VIRTIO_MMIO_DEVICE_ID =? 2) || negb (R VIRTIO_MMIO_VENDOR_ID =? 1431127377)
  then panic "could not find virtio disk" else
  write_reg VIRTIO_MMIO_STATUS 1 ;;;
  write_reg VIRTIO_MMIO_STATUS 3 ;;;
  let features := R VIRTIO_MMIO_DEVICE_FEATURES in
  let features := fold_left (fun f bit => Z.land f (Z.lnot (Z.shiftl 1 bit)))
    [5; 7; 11; 12; 27; 29; 28] features in
  write_reg VIRTIO_MMIO_DRIVER_FEATURES features ;;;
  write_reg VIRTIO_MMIO_STATUS 11 ;;;
  write_reg VIRTIO_MMIO_STATUS 15 ;;;
  write_reg VIRTIO_MMIO_GUEST_PAGE_SIZE PGSIZE ;;;
  write_reg VIRTIO_MMIO_QUEUE_SEL 0 ;;;
  let max := R VIRTIO_MMIO_QUEUE_NUM_MAX in
  if max =? 0 then panic "virtio disk has no queue 0" else
  if max <? NUM then panic "virtio disk max queue too short" else
  write_reg VIRTIO_MMIO_QUEUE_NUM NUM ;;;
  modify (set_v_desc (replicate (Z.to_nat NUM) (Vdesc 0 0 0 0))) ;;;
  modify (set_v_avail (replicate (Z.to_nat (2 + NUM)) 0)) ;;;
  modify (set_v_used_id 0) ;;;
  modify (set_v_used_elems (replicate (Z.to_nat NUM) 0)) ;;;
  write_reg VIRTIO_MMIO_QUEUE_PFN (Z.shiftr pages PGSHIFT) ;;;
  modify (set_v_free (replicate (Z.to_nat NUM) true)).

Definition alloc_desc : VM Z :=
  let! r := for_each (seqZ 0 NUM) (fun i =>
    let! free := arr_get v_free i in
    if free then free_set i false ;;; ret (Some i) else ret None) in
  ret (default (-1) r).

Definition free_desc (i : Z) : VM unit :=
  if NUM <=? i then panic "virtio_disk_intr 1" else
  let! free := arr_get v_free i in
  if free then panic "virtio_disk_intr 2" else
  desc_upd i (set_vd_addr 0) ;;;
  free_set i true ;;;
  wakeup_v FREE_CHAN.

Definition free_chain (i : Z) : VM unit :=
  loop i (fun i =>
    free_desc i ;;;
    let! d := arr_get v_desc i in
    if negb (Z.land (vd_flags d) VRING_DESC_F_NEXT =? 0) then ret (inl (vd_next d))
    else ret (inr tt)).

(** The three descriptors, or [None]. *)
Definition alloc3_desc : VM (option (list Z)) :=
  loop (0, []) (fun '(i, idx) =>
    if i <? 3 then
      let! d := alloc_desc in
      if d <? 0 then
        for_all idx free_desc ;;;
        ret (inr None)
      else ret (inl (i + 1, idx ++ [d]))
    else ret (inr (Some idx))).

(** [hdr_pa] is the physical address of the caller's [buf0], [data_pa] that of
    [b->data] and [status_pa i] that of [disk.info[i].status]. *)
Section rw.
Variables (hdr_pa data_pa : Z) (status_pa : Z -> Z).

(** The three descriptors of a request. *)
Definition format_desc (idx0 idx1 idx2 : Z) (write : bool) : VM unit :=
  desc_upd idx0 (set_vd_addr hdr_pa) ;;;
  desc_upd idx0 (set_vd_len 16) ;;;
  desc_upd idx0 (set_vd_flags VRING_DESC_F_NEXT) ;;;
  desc_upd idx0 (set_vd_next idx1) ;;;
  desc_upd idx1 (set_vd_addr data_pa) ;;;
  desc_upd idx1 (set_vd_len BSIZE) ;;;
  desc_upd idx1 (set_vd_flags (if write then 0 else VRING_DESC_F_WRITE)) ;;;
  desc_upd idx1 (fun d => set_vd_flags (Z.lor (vd_flags d) VRING_DESC_F_NEXT) d) ;;;
  desc_upd idx1 (set_vd_next idx2) ;;;
  modify (fun s => set_v_info_status (<[Z.to_nat idx0 := 0]> (v_info_status s)) s) ;;;
  desc_upd idx2 (set_vd_addr (status_pa idx0)) ;;;
  desc_upd idx2 (set_vd_len 1) ;;;
  desc_upd idx2 (set_vd_flags VRING_DESC_F_WRITE) ;;;
  desc_upd idx2 (set_vd_next 0).

(** The first descriptor of the request; the lock is held until [sleep]
    releases it. *)
Definition virtio_submit (b blockno : Z) (write : bool) : VM Z :=
  let sector := u32 (blockno * (BSIZE / 512)) in
  spin_acquire vlk ;;;
  let! idx := alloc3_desc in
  match idx with
  | Some [idx0; idx1; idx2] =>
      modify (fun s => set_v_hdrs (<[hdr_pa :=
        Outhdr (if write then VIRTIO_BLK_T_OUT else VIRTIO_BLK_T_IN) 0 sector]> (v_hdrs s)) s) ;;;
      format_desc idx0 idx1 idx2 write ;;;
      modify (fun s => set_b_disk ({[b]} ∪ b_disk s) s) ;;;
      info_set idx0 b ;;;
      let! n := arr_get v_avail 1 in
      modify (fun s => set_v_avail (<[Z.to_nat (2 + n mod NUM) := idx0]> (v_avail s)) s) ;;;
      modify (fun s => set_v_avail (<[1%nat := u16 (n + 1)]> (v_avail s)) s) ;;;
      write_reg VIRTIO_MMIO_QUEUE_NOTIFY 0 ;;;
      spin_release vlk ;;;
      ret idx0
  | _ => spin_release vlk ;;; (fun s => Sleep s)
  end.

(** The rest, when [sleep] has returned; it sleeps again while the device owns
    the buffer. *)
Definition virtio_finish (b idx0 : Z) : VM unit :=
  spin_acquire vlk ;;;
  let! owned := gets b_disk in
  if bool_decide (b ∈ owned) then spin_release vlk ;;; (fun s => Sleep s) else
  info_set idx0 (-1) ;;;
  free_chain idx0 ;;;
  spin_release vlk.
End rw.

(** [status] is what the interrupt status register holds. *)
Definition virtio_disk_intr (status : Z) : VM unit :=
  spin_acquire vlk ;;;
  loop tt (fun _ =>
    let! s := get in
    if negb (v_used_idx s mod NUM =? v_used_id s mod NUM) then
      let! id := arr_get v_used_elems (v_used_idx s) in
      let! st := arr_get v_info_status id in
      if negb (st =? 0) then panic "virtio_disk_intr status" else
      let! b := arr_get v_info_b id in
      if b =? -1 then panic "fault" else
      modify (fun s => set_b_disk (b_disk s ∖ {[b]}) s) ;;;
      wakeup_v b ;;;
      modify (set_v_used_idx ((v_used_idx s + 1) mod NUM)) ;;;
      ret (inl tt)
    else ret (inr tt)) ;;;
  write_reg VIRTIO_MMIO_INTERRUPT_ACK (Z.land status 3) ;;;
  spin_release vlk.

(** ** The descriptors are conserved *)

(** A request that is with the device: the buffer and its descriptors. *)
Record req := Req { rq_buf : Z; rq_0 : Z; rq_1 : Z; rq_2 : Z }.
Definition req_descs (r : req) : list Z := [rq_0 r; rq_1 r; rq_2 r].
Definition in_use (rs : list req) : list Z := concat (req_descs <$> rs).

Definition next_flag (d : vdesc) : bool := negb (Z.land (vd_flags d) VRING_DESC_F_NEXT =? 0).
Definition desc_at (s : vdisk) (i : Z) : option vdesc := v_desc s !! Z.to_nat i.

(** The chain of a request in the descriptor table. *)
Definition chained (s : vdisk) (r : req) : Prop :=
  exists d0 d1 d2, desc_at s (rq_0 r) = Some d0 /\ desc_at s (rq_1 r) = Some d1 /\
    desc_at s (rq_2 r) = Some d2 /\ next_flag d0 = true /\ vd_next d0 = rq_1 r /\
    next_flag d1 = true /\ vd_next d1 = rq_2 r /\ next_flag d2 = false.

Definition valid_desc (i : Z) : Prop := 0 <= i < NUM.

(** The requests [rs] are with the device, and the descriptors [hs] are
    allocated to a request that is being made or taken apart. *)
Record vinv (s : vdisk) (rs : list req) (hs : list Z) : Prop := {
  vi_desc : length (v_desc s) = Z.to_nat NUM;
  vi_free_len : length (v_free s) = Z.to_nat NUM;
  vi_avail : length (v_avail s) = Z.to_nat (2 + NUM);
  vi_free : forall i, valid_desc i ->
    v_free s !! Z.to_nat i = Some (bool_decide (i ∉ hs ++ in_use rs));
  vi_range : forall i, i ∈ hs ++ in_use rs -> valid_desc i;
  vi_nodup : NoDup (hs ++ in_use rs);
  vi_chain : forall r, r ∈ rs -> chained s r
}.

(** The parts of the state that the invariant speaks of. *)
Lemma vinv_same s s' rs hs :
  vinv s rs hs -> v_desc s' = v_desc s -> v_free s' = v_free s -> v_avail s' = v_avail s ->
  vinv s' rs hs.
Proof.
  intros [H1 H2 H3 H4 H5 H6 H7] E1 E2 E3. constructor; rewrite ?E1, ?E2, ?E3; try done.
  intros r Hr. destruct (H7 r Hr) as (d0 & d1 & d2 & Hd). exists d0, d1, d2.
  unfold desc_at in *. by rewrite E1.
Qed.

Lemma chained_desc s s' r :
  chained s r -> (forall i, i ∈ req_descs r -> desc_at s' i = desc_at s i) -> chained s' r.
Proof.
  intros (d0 & d1 & d2 & H0 & H1 & H2 & H) He. exists d0, d1, d2.
  rewrite !He by (unfold req_descs; set_solver). done.
Qed.

Lemma in_use_elem rs r i : r ∈ rs -> i ∈ req_descs r -> i ∈ in_use rs.
Proof.
  intros Hr Hi. unfold in_use. apply list_elem_of_In, List.in_concat. exists (req_descs r).
  split; apply list_elem_of_In; [|done]. by apply list_elem_of_fmap_2.
Qed.

Lemma arr_get_eq {A} (f : vdisk -> list A) i s x :
  0 <= i -> f s !! Z.to_nat i = Some x -> arr_get f i s = Ret x s.
Proof.
  intros Hi Hx. unfold arr_get, bind, gets, of_option.
  rewrite (proj2 (Z.ltb_ge i 0)) by done. by rewrite Hx.
Qed.

Lemma wp_arr_get {A} (f : vdisk -> list A) i s x (Q : A -> vdisk -> Prop) :
  0 <= i -> f s !! Z.to_nat i = Some x -> Q x s -> wp (arr_get f i) s Q.
Proof. intros Hi Hx HQ. unfold wp. by rewrite (arr_get_eq f i s x). Qed.

Lemma wlp_arr_get {A} (f : vdisk -> list A) i s (Q : A -> vdisk -> Prop) :
  (forall x, Q x s) -> wlp (arr_get f i) s Q.
Proof.
  intros HQ. unfold arr_get, wlp, bind, gets, of_option.
  destruct (if i <? 0 then None else f s !! Z.to_nat i); [apply HQ|done].
Qed.

(** Changing a descriptor that no request uses. *)
Lemma desc_upd_spec s rs hs i f :
  vinv s rs hs -> i ∈ hs -> wp (desc_upd i f) s (fun _ s' =>
    vinv s' rs hs /\ vdisk_lock s' = vdisk_lock s /\ b_disk s' = b_disk s /\
    (exists d, desc_at s i = Some d /\ desc_at s' i = Some (f d)) /\
    forall j, 0 <= j -> j <> i -> desc_at s' j = desc_at s j).
Proof.
  intros H Hi. assert (Hr : valid_desc i) by (apply (vi_range _ _ _ H); set_solver).
  unfold valid_desc in Hr.
  destruct (lookup_lt_is_Some_2 (v_desc s) (Z.to_nat i)) as [d Hd];
    [rewrite (vi_desc _ _ _ H); lia|].
  unfold desc_upd. apply wp_bind. apply wp_arr_get with d; [lia|done|]. apply wp_modify.
  assert (Hne : forall j, 0 <= j -> j <> i ->
    <[Z.to_nat i := f d]> (v_desc s) !! Z.to_nat j = v_desc s !! Z.to_nat j).
  { intros j Hj Hji. apply list_lookup_insert_ne. lia. }
  split; [|split; [done|split; [done|split]]].
  - destruct H as [H1 H2 H3 H4 H5 H6 H7]. constructor; try done.
    + cbn. by rewrite length_insert.
    + intros r Hrs. eapply chained_desc; [by apply H7|]. intros j Hj.
      assert (Hju : j ∈ in_use rs) by by eapply in_use_elem.
      apply Hne; [destruct (H5 j); [set_solver|lia]|]. intros ->.
      apply list.NoDup_app in H6 as (_ & Hd' & _). by apply (Hd' i).
  - exists d. split; [done|]. unfold desc_at. cbn. apply list_lookup_insert_eq.
    rewrite (vi_desc _ _ _ H). lia.
  - intros j Hj Hji. by apply Hne.
Qed.

Lemma alloc_desc_spec s rs hs :
  vinv s rs hs -> wp alloc_desc s (fun r s' =>
    vdisk_lock s' = vdisk_lock s /\ b_disk s' = b_disk s /\ v_desc s' = v_desc s /\
    ((r = -1 /\ s' = s /\ forall i, valid_desc i -> i ∈ hs ++ in_use rs) \/
     (valid_desc r /\ vinv s' rs (hs ++ [r])))).
Proof.
  intros H. unfold alloc_desc.
  set (I := fun k s' => s' = s /\ forall i, 0 <= i < k -> i ∈ hs ++ in_use rs).
  set (Q := fun r s' => valid_desc r /\ vinv s' rs (hs ++ [r]) /\
    vdisk_lock s' = vdisk_lock s /\ b_disk s' = b_disk s /\ v_desc s' = v_desc s).
  apply wp_bind. eapply wp_mono; [apply (wp_for_each_seq I Q)|].
  - split; [done|]. lia.
  - done.
  - intros k s' Hk [-> HI]. assert (Hv : valid_desc k) by (unfold valid_desc; lia).
    apply wp_bind. apply wp_arr_get with (bool_decide (k ∉ hs ++ in_use rs));
      [lia|by apply (vi_free _ _ _ H)|].
    destruct (bool_decide_reflect (k ∉ hs ++ in_use rs)) as [Hni|Hin].
    2:{ apply wp_ret. split; [done|]. intros i Hi. destruct (decide (i = k)) as [->|];
        [by destruct (decide (k ∈ hs ++ in_use rs))|apply HI; lia]. }
    apply wp_bind. unfold free_set. apply wp_bind.
    apply wp_arr_get with true; [lia|rewrite (vi_free _ _ _ H) by done; by rewrite bool_decide_eq_true_2|].
    apply wp_modify, wp_ret. split; [done|]. split; [|done].
    assert (Hperm : forall i, i ∈ (hs ++ [k]) ++ in_use rs <-> i = k \/ i ∈ hs ++ in_use rs)
      by (intros i; set_solver).
    destruct H as [H1 H2 H3 H4 H5 H6 H7]. constructor; try done.
    + cbn. by rewrite length_insert.
    + intros i Hi. cbn. unfold valid_desc, NUM in *. destruct (decide (i = k)) as [->|Hne].
      * rewrite list_lookup_insert_eq by (rewrite H2; lia). f_equal. symmetry.
        apply bool_decide_eq_false_2. rewrite Hperm. tauto.
      * rewrite list_lookup_insert_ne by lia. rewrite H4 by done. f_equal.
        apply bool_decide_ext. rewrite Hperm. tauto.
    + intros i Hi. apply Hperm in Hi as [->|Hi]; auto.
    + rewrite <- app_assoc. simpl.
      rewrite <- (Permutation_middle hs (in_use rs) k). by constructor.
  - intros [r|] s'; unfold I, Q.
    + intros (Hv & Hi & E1 & E2 & E3). apply wp_ret. simpl. auto 6.
    + intros [-> HI]. apply wp_ret. simpl. do 3 (split; [done|]). left.
      split; [done|]. split; [done|]. intros i Hi. apply HI. done.
Qed.

Lemma not_in_rest (i : Z) hs1 hs2 l :
  NoDup ((hs1 ++ i :: hs2) ++ l) -> i ∉ (hs1 ++ hs2) ++ l.
Proof.
  intros Hnd Hin. rewrite <- app_assoc in Hnd. simpl in Hnd.
  rewrite <- (Permutation_middle hs1 (hs2 ++ l) i) in Hnd. apply list.NoDup_cons in Hnd as [Hni _].
  apply Hni. by rewrite app_assoc.
Qed.

(** Freeing a descriptor; the flags and the link stay in the table. *)
Lemma free_desc_spec s rs hs1 i hs2 :
  vinv s rs (hs1 ++ i :: hs2) -> wp (free_desc i) s (fun _ s' =>
    vinv s' rs (hs1 ++ hs2) /\ vdisk_lock s' = vdisk_lock s /\ b_disk s' = b_disk s /\
    forall j d, 0 <= j -> desc_at s j = Some d -> exists d', desc_at s' j = Some d' /\
      vd_flags d' = vd_flags d /\ vd_next d' = vd_next d).
Proof.
  intros H. assert (Hv : valid_desc i) by (apply (vi_range _ _ _ H); set_solver).
  pose proof Hv as Hv'. unfold valid_desc in Hv'.
  unfold free_desc. rewrite (proj2 (Z.leb_gt NUM i)) by lia.
  apply wp_bind. apply wp_arr_get with false; [lia|rewrite (vi_free _ _ _ H) by done;
    rewrite bool_decide_eq_false_2; [done|set_solver]|].
  apply wp_bind. eapply wp_mono; [apply (desc_upd_spec s rs _ i _ H); set_solver|].
  intros [] s1 (H1 & E1 & E2 & (d & Hd & Hd') & Hne).
  apply wp_bind. unfold free_set. apply wp_bind.
  apply wp_arr_get with false; [lia|rewrite (vi_free _ _ _ H1) by done;
    rewrite bool_decide_eq_false_2; [done|set_solver]|].
  apply wp_modify, wp_modify. split; [|split; [done|split; [done|]]].
  - pose proof (not_in_rest i hs1 hs2 (in_use rs) (vi_nodup _ _ _ H1)) as Hni.
    assert (Hperm : forall j, j ∈ (hs1 ++ i :: hs2) ++ in_use rs <->
      j = i \/ j ∈ (hs1 ++ hs2) ++ in_use rs) by (intros j; set_solver).
    destruct H1 as [A1 A2 A3 A4 A5 A6 A7]. constructor; try done.
    + cbn. by rewrite length_insert.
    + intros j Hj. cbn. unfold valid_desc, NUM in *. destruct (decide (j = i)) as [->|Hji].
      * rewrite list_lookup_insert_eq by (rewrite A2; lia). f_equal. symmetry.
        by apply bool_decide_eq_true_2.
      * rewrite list_lookup_insert_ne by lia. rewrite A4 by done. f_equal.
        apply bool_decide_ext. rewrite Hperm. tauto.
    + intros j Hj. apply A5. set_solver.
    + rewrite <- app_assoc in *. simpl in A6.
      rewrite <- (Permutation_middle hs1 (hs2 ++ in_use rs) i) in A6.
      apply list.NoDup_cons in A6 as [_ A6]. exact A6.
  - intros j d1 Hj Hd1. destruct (decide (j = i)) as [->|Hji].
    + exists (set_vd_addr 0 d). rewrite Hd in Hd1. injection Hd1 as <-. done.
    + exists d1. split; [|done]. rewrite <- Hd1. by apply Hne.
Qed.

(** The descriptors that [alloc3_desc] took are given back when it fails. *)
Lemma free_all_spec s rs hs l :
  vinv s rs (hs ++ l) -> wp (for_all l free_desc) s (fun _ s' =>
    vinv s' rs hs /\ vdisk_lock s' = vdisk_lock s /\ b_disk s' = b_disk s).
Proof.
  revert s. induction l as [|i l IH]; intros s H; simpl.
  { rewrite app_nil_r in H. by apply wp_ret. }
  apply wp_bind. eapply wp_mono; [by apply free_desc_spec|].
  intros [] s1 (H1 & E1 & E2 & _). eapply wp_mono; [by apply IH|].
  intros [] s2 (H2 & F1 & F2). by rewrite F1, F2.
Qed.

Lemma alloc3_desc_spec s rs :
  vinv s rs [] -> wp alloc3_desc s (fun r s' =>
    vdisk_lock s' = vdisk_lock s /\ b_disk s' = b_disk s /\
    match r with
    | Some l => exists i0 i1 i2, l = [i0; i1; i2] /\ vinv s' rs [i0; i1; i2]
    | None => vinv s' rs [] /\ NUM < 3 + Z.of_nat (length (in_use rs))
    end).
Proof.
  intros H. unfold alloc3_desc.
  apply (wp_loop (fun a s' => a.1 = Z.of_nat (length a.2) /\ a.1 <= 3 /\ vinv s' rs a.2 /\
    vdisk_lock s' = vdisk_lock s /\ b_disk s' = b_disk s) (fun a => 3 - a.1)).
  - done.
  - simpl. lia.
  - intros [i idx] s1 (_ & H1 & _). simpl in *. lia.
  - intros [i idx] s1 (Hi & H3 & Hv & E1 & E2). cbn [fst snd] in *.
    destruct (Z.ltb_spec i 3) as [Hlt|Hge].
    2:{ apply wp_ret. split; [done|split; [done|]].
        destruct idx as [|i0 [|i1 [|i2 [|]]]]; simpl in Hi; try lia. eauto. }
    apply wp_bind. eapply wp_mono; [by apply alloc_desc_spec|].
    intros r s2 (F1 & F2 & F3 & [(-> & -> & Hall)|(Hr & Hv2)]).
    + change (-1 <? 0) with true. cbv iota. apply wp_bind.
      eapply wp_mono; [by apply (free_all_spec s1 rs [] idx)|].
      intros [] s3 (Hv3 & G1 & G2). apply wp_ret. split; [congruence|]. split; [congruence|].
      split; [done|].
      assert (Hsub : seqZ 0 NUM ⊆+ idx ++ in_use rs).
      { apply NoDup_submseteq; [apply NoDup_seqZ|]. intros j Hj. apply Hall.
        apply elem_of_seqZ in Hj. unfold valid_desc. lia. }
      apply submseteq_length in Hsub. rewrite length_seqZ, length_app in Hsub. unfold NUM in *. lia.
    + unfold valid_desc in Hr. rewrite (proj2 (Z.ltb_ge r 0)) by lia. apply wp_ret.
      cbn [fst snd]. rewrite length_app. simpl. split; [|lia].
      split; [lia|]. split; [lia|]. split; [done|]. split; congruence.
Qed.

Lemma length_in_use rs : length (in_use rs) = (3 * length rs)%nat.
Proof.
  induction rs as [|r rs IH]; [done|]. unfold in_use in *. rewrite fmap_cons. simpl concat.
  rewrite !length_cons, IH. lia.
Qed.

(** The descriptors being made, as a function. *)
Definition desc_fun (s0 s : vdisk) (rs : list req) (hs : list Z) (g : Z -> vdesc) : Prop :=
  vinv s rs hs /\ vdisk_lock s = vdisk_lock s0 /\ b_disk s = b_disk s0 /\
  forall i, i ∈ hs -> desc_at s i = Some (g i).
Definition fun_upd (i : Z) (f : vdesc -> vdesc) (g : Z -> vdesc) : Z -> vdesc :=
  fun j => if decide (j = i) then f (g j) else g j.

Lemma fun_upd_eq i f g : fun_upd i f g i = f (g i).
Proof. unfold fun_upd. by rewrite decide_True. Qed.

Lemma fun_upd_ne i j f g : j <> i -> fun_upd i f g j = g j.
Proof. intros H. unfold fun_upd. by rewrite decide_False. Qed.

Lemma desc_upd_fun s0 s rs hs g i f :
  desc_fun s0 s rs hs g -> i ∈ hs ->
  wp (desc_upd i f) s (fun _ s' => desc_fun s0 s' rs hs (fun_upd i f g)).
Proof.
  intros (H & E1 & E2 & Hg) Hi. eapply wp_mono; [by apply (desc_upd_spec s rs hs i f H)|].
  intros [] s' (H' & F1 & F2 & (d & Hd & Hd') & Hne). split; [done|].
  split; [congruence|]. split; [congruence|]. intros j Hj. unfold fun_upd.
  destruct (decide (j = i)) as [->|Hji].
  - rewrite Hd'. f_equal. f_equal. rewrite (Hg i Hi) in Hd. congruence.
  - rewrite Hne; [by apply Hg| |done].
    destruct (vi_range _ _ _ H j); [set_solver|done].
Qed.

Lemma desc_fun_same s0 s s' rs hs g :
  desc_fun s0 s rs hs g -> v_desc s' = v_desc s -> v_free s' = v_free s ->
  v_avail s' = v_avail s -> vdisk_lock s' = vdisk_lock s -> b_disk s' = b_disk s ->
  desc_fun s0 s' rs hs g.
Proof.
  intros (G1 & G2 & G3 & G4) E1 E2 E3 E4 E5. split; [by apply (vinv_same s)|].
  split; [congruence|]. split; [congruence|]. intros i Hi. unfold desc_at. rewrite E1. by apply G4.
Qed.

Lemma desc_fun_start s rs hs : vinv s rs hs ->
  exists g, desc_fun s s rs hs g.
Proof.
  intros H. exists (fun i => default (Vdesc 0 0 0 0) (desc_at s i)). split_and!; try done.
  intros i Hi. destruct (vi_range _ _ _ H i) as [H0 H1]; [set_solver|].
  destruct (lookup_lt_is_Some_2 (v_desc s) (Z.to_nat i)) as [d Hd];
    [rewrite (vi_desc _ _ _ H); lia|].
  unfold desc_at. by rewrite Hd.
Qed.

(** The allocated descriptors become a request. *)
Lemma vinv_request s rs b i0 i1 i2 :
  vinv s rs [i0; i1; i2] -> chained s (Req b i0 i1 i2) -> vinv s (Req b i0 i1 i2 :: rs) [].
Proof.
  intros [H1 H2 H3 H4 H5 H6 H7] Hc. constructor; try done.
  intros r Hr. apply elem_of_cons in Hr as [->|Hr]; auto.
Qed.

Lemma format_desc_spec hdr_pa data_pa status_pa s rs i0 i1 i2 b write :
  vinv s rs [i0; i1; i2] ->
  wp (format_desc hdr_pa data_pa status_pa i0 i1 i2 write) s (fun _ s' =>
    vinv s' (Req b i0 i1 i2 :: rs) [] /\ vdisk_lock s' = vdisk_lock s /\ b_disk s' = b_disk s).
Proof.
  intros H. destruct (desc_fun_start s rs _ H) as [g Hg].
  assert (Hd : i0 <> i1 /\ i0 <> i2 /\ i1 <> i2).
  { pose proof (vi_nodup _ _ _ H) as Hnd. simpl in Hnd.
    apply list.NoDup_cons in Hnd as [H0 Hnd]. apply list.NoDup_cons in Hnd as [H1 _].
    set_solver. }
  destruct Hd as (Hd01 & Hd02 & Hd12).
  assert (M0 : i0 ∈ [i0; i1; i2]) by set_solver.
  assert (M1 : i1 ∈ [i0; i1; i2]) by set_solver.
  assert (M2 : i2 ∈ [i0; i1; i2]) by set_solver.
  unfold format_desc.
  do 9 (apply wp_bind; eapply wp_mono;
    [by eapply (desc_upd_fun s)|cbv beta; clear Hg; intros [] ? Hg]).
  apply wp_bind, wp_modify.
  match type of Hg with desc_fun _ ?t _ _ _ =>
    apply (desc_fun_same _ _ (set_v_info_status (<[Z.to_nat i0 := 0]> (v_info_status t)) t)) in Hg;
    [|done..] end.
  do 3 (apply wp_bind; eapply wp_mono;
    [by eapply (desc_upd_fun s)|cbv beta; clear Hg; intros [] ? Hg]).
  eapply wp_mono; [by eapply (desc_upd_fun s)|cbv beta; clear Hg; intros [] ? Hg].
  destruct Hg as (G1 & G2 & G3 & G4). split; [|done].
  apply vinv_request; [done|].
  eexists _, _, _. split; [by apply G4|]. split; [by apply G4|]. split; [by apply G4|].
  cbn [rq_1 rq_2 rq_0].
  repeat first [rewrite fun_upd_eq | rewrite fun_upd_ne by congruence].
  by destruct write.
Qed.

Lemma virtio_submit_spec hdr_pa data_pa status_pa b blockno write s rs :
  vinv s rs [] -> vdisk_lock s = false ->
  wps (virtio_submit hdr_pa data_pa status_pa b blockno write) s
    (fun i0 s' => exists i1 i2, vinv s' (Req b i0 i1 i2 :: rs) [] /\ vdisk_lock s' = false /\
       b_disk s' = {[b]} ∪ b_disk s)
    (fun s' => vinv s' rs [] /\ vdisk_lock s' = false /\ b_disk s' = b_disk s /\
       (2 <= length rs)%nat).
Proof.
  intros H Hl. unfold virtio_submit. apply wps_bind_wp. unfold spin_acquire.
  apply wp_bind, wp_gets. cbn [lget vlk]. rewrite Hl. apply wp_modify. cbn [lset vlk].
  set (s1 := set_vdisk_lock true s).
  assert (H1 : vinv s1 rs []) by by apply (vinv_same s).
  apply wps_bind_wp. eapply wp_mono; [by apply alloc3_desc_spec|].
  intros [l|] s2 (E1 & E2 & H2).
  - destruct H2 as (i0 & i1 & i2 & -> & H2). apply wps_wp. apply wp_bind, wp_modify.
    match goal with |- wp _ ?t _ => set (s3 := t) end.
    assert (H3 : vinv s3 rs [i0; i1; i2]) by by apply (vinv_same s2).
    apply wp_bind. eapply wp_mono; [by apply (format_desc_spec hdr_pa data_pa status_pa s3 rs i0 i1 i2 b)|].
    intros [] s4 (H4 & F1 & F2).
    apply wp_bind, wp_modify, wp_bind, wp_modify.
    match goal with |- wp _ ?t _ => set (s5 := t) end.
    assert (H5 : vinv s5 (Req b i0 i1 i2 :: rs) []) by by apply (vinv_same s4).
    destruct (lookup_lt_is_Some_2 (v_avail s5) 1) as [n Hn];
      [rewrite (vi_avail _ _ _ H5); unfold NUM; lia|].
    apply wp_bind. apply wp_arr_get with n; [lia|exact Hn|].
    do 3 apply wp_bind, wp_modify. unfold spin_release. apply wp_bind, wp_bind, wp_gets.
    cbn [lget lset vlk vdisk_lock set_v_regs set_v_avail].
    assert (Hl5 : vdisk_lock s5 = true) by (unfold s5; cbn; rewrite F1; unfold s3; cbn; by rewrite E1).
    rewrite Hl5. apply wp_modify, wp_ret. exists i1, i2. split; [|split; [done|]].
    + destruct H5 as [A1 A2 A3 A4 A5 A6 A7]. constructor; try done.
      cbn. by rewrite !length_insert.
    + unfold s5. cbn. rewrite F2. unfold s3. cbn. by rewrite E2.
  - destruct H2 as [H2 Hn]. apply wps_bind_wp. unfold spin_release.
    apply wp_bind, wp_gets. cbn [lget vlk]. rewrite E1. change (vdisk_lock s1) with true. cbv iota. apply wp_modify, wps_sleep.
    split; [by apply (vinv_same s2)|]. split; [done|]. split; [cbn; by rewrite E2|].
    rewrite length_in_use in Hn. unfold NUM in Hn. lia.
Qed.

(** A chain of descriptors in the table, through the [next] fields. *)
Fixpoint linked (s : vdisk) (l : list Z) : Prop :=
  match l with
  | [] => True
  | i :: l' => exists d, desc_at s i = Some d /\
      match l' with
      | [] => next_flag d = false
      | j :: _ => next_flag d = true /\ vd_next d = j
      end /\ linked s l'
  end.

Lemma linked_same s s' l :
  (forall j d, 0 <= j -> desc_at s j = Some d -> exists d', desc_at s' j = Some d' /\
     vd_flags d' = vd_flags d /\ vd_next d' = vd_next d) ->
  (forall i, i ∈ l -> 0 <= i) -> linked s l -> linked s' l.
Proof.
  intros Hs. induction l as [|i l IH]; intros Hp Hl; [done|].
  destruct Hl as (d & Hd & Hm & Hl). destruct (Hs i d) as (d' & Hd' & E1 & E2);
    [apply Hp; set_solver|done|].
  exists d'. split; [done|]. split; [|apply IH; [intros j Hj; apply Hp; set_solver|done]].
  unfold next_flag in *. by rewrite E1, E2.
Qed.

Lemma free_linked s rs i l :
  vinv s rs (i :: l) -> linked s (i :: l) -> wp (free_chain i) s (fun _ s' =>
    vinv s' rs [] /\ vdisk_lock s' = vdisk_lock s /\ b_disk s' = b_disk s).
Proof.
  intros H Hl. unfold free_chain.
  apply (wp_loop_idx (fun n i s1 => exists l, n = Z.of_nat (length l) /\
    vinv s1 rs (i :: l) /\ linked s1 (i :: l) /\ vdisk_lock s1 = vdisk_lock s /\
    b_disk s1 = b_disk s) _ _ (Z.of_nat (length l))).
  - by exists l.
  - assert (Hs : i :: l ⊆+ seqZ 0 NUM).
    { apply NoDup_submseteq.
      - apply list.NoDup_app with (1 := vi_nodup _ _ _ H).
      - intros j Hj. apply elem_of_seqZ. destruct (vi_range _ _ _ H j); [set_solver|lia]. }
    apply submseteq_length in Hs. rewrite length_seqZ in Hs. simpl in Hs. unfold NUM in Hs. lia.
  - intros k j s1 (l1 & -> & _). lia.
  - clear. intros k i s1 (l & -> & H & Hl & E1 & E2).
    pose proof (vi_range _ _ _ H) as Hr.
    apply wp_bind. eapply wp_mono; [apply (free_desc_spec s1 rs [] i l H)|].
    intros [] s2 (H2 & F1 & F2 & Hs). simpl in H2.
    apply (linked_same s1 s2) in Hl; [|done|intros j Hj; destruct (Hr j); [set_solver|lia]].
    destruct Hl as (d & Hd & Hm & Hl).
    apply wp_bind. apply wp_arr_get with d; [destruct (Hr i); [set_solver|lia]|done|].
    change (negb (Z.land (vd_flags d) VRING_DESC_F_NEXT =? 0)) with (next_flag d).
    destruct l as [|j l].
    + rewrite Hm. apply wp_ret. split; [done|]. split; congruence.
    + destruct Hm as [Hm ->]. rewrite Hm. apply wp_ret. exists (Z.of_nat (length l)).
      split; [|simpl; lia]. exists l. split; [done|]. split; [done|]. split; [done|].
      split; congruence.
Qed.

(** The chain of a request is given back to the free descriptors. *)
Lemma free_chain_spec s rs1 r rs2 :
  vinv s (rs1 ++ r :: rs2) [] -> wp (free_chain (rq_0 r)) s (fun _ s' =>
    vinv s' (rs1 ++ rs2) [] /\ vdisk_lock s' = vdisk_lock s /\ b_disk s' = b_disk s).
Proof.
  intros H. assert (Hp : in_use (rs1 ++ r :: rs2) ≡ₚ req_descs r ++ in_use (rs1 ++ rs2)).
  { unfold in_use. rewrite !fmap_app, fmap_cons, !concat_app. cbn [concat].
    by rewrite Permutation_app_swap_app. }
  assert (Hc : chained s r) by (apply (vi_chain _ _ _ H); set_solver).
  assert (Hv : vinv s (rs1 ++ rs2) (req_descs r)).
  { destruct H as [H1 H2 H3 H4 H5 H6 H7]. cbn [app] in *. constructor; try done.
    - intros i Hi. rewrite H4 by done. f_equal. apply bool_decide_ext. by rewrite Hp.
    - intros i Hi. apply H5. by rewrite Hp.
    - by rewrite <- Hp.
    - intros r' Hr'. apply H7. set_solver. }
  apply free_linked with (l := [rq_1 r; rq_2 r]); [done|].
  destruct Hc as (d0 & d1 & d2 & C0 & C1 & C2 & N0 & L0 & N1 & L1 & N2).
  cbn [linked]. eauto 12.
Qed.

Lemma virtio_finish_spec s rs1 r rs2 :
  vinv s (rs1 ++ r :: rs2) [] -> vdisk_lock s = false ->
  wps (virtio_finish (rq_buf r) (rq_0 r)) s
    (fun _ s' => vinv s' (rs1 ++ rs2) [] /\ vdisk_lock s' = false /\ rq_buf r ∉ b_disk s)
    (fun s' => vinv s' (rs1 ++ r :: rs2) [] /\ vdisk_lock s' = false /\ rq_buf r ∈ b_disk s).
Proof.
  intros H Hl. unfold virtio_finish. apply wps_bind_wp. unfold spin_acquire.
  apply wp_bind, wp_gets. cbn [lget vlk]. rewrite Hl. apply wp_modify. cbn [lset vlk].
  apply wps_bind_wp, wp_gets. cbn [b_disk set_vdisk_lock].
  destruct (bool_decide_reflect (rq_buf r ∈ b_disk s)) as [Hin|Hni].
  - apply wps_bind_wp. unfold spin_release. apply wp_bind, wp_gets.
    cbn [lget vlk vdisk_lock set_vdisk_lock]. apply wp_modify, wps_sleep.
    split; [by apply (vinv_same s)|done].
  - apply wps_wp. unfold info_set. apply wp_bind, wp_modify, wp_bind.
    eapply wp_mono; [apply free_chain_spec; by apply (vinv_same s)|].
    intros [] s1 (H1 & E1 & _). unfold spin_release. apply wp_bind, wp_gets.
    cbn [lget vlk]. rewrite E1. cbn [vdisk_lock set_vdisk_lock set_v_info_b].
    apply wp_modify. split; [by apply (vinv_same s1)|done].
Qed.

(** An interrupt takes no descriptor and leaves the chains alone. *)
Lemma virtio_disk_intr_frame status s rs :
  vinv s rs [] -> vdisk_lock s = false ->
  wlp (virtio_disk_intr status) s (fun _ s' => vinv s' rs [] /\ vdisk_lock s' = false).
Proof.
  intros H Hl. unfold virtio_disk_intr. apply wlp_bind, wlp_wp. unfold spin_acquire.
  apply wp_bind, wp_gets. cbn [lget vlk]. rewrite Hl. apply wp_modify. cbn [lset vlk].
  apply wlp_bind. eapply wlp_mono.
  - apply (wlp_loop (fun _ s' => vinv s' rs [] /\ vdisk_lock s' = true)
      (fun _ s' => vinv s' rs [] /\ vdisk_lock s' = true)); [|by split; [apply (vinv_same s)|]].
    clear. intros [] s [H Hl]. apply wlp_bind, wlp_wp, wp_get.
    destruct (negb _); [|by apply wlp_wp, wp_ret].
    apply wlp_bind, wlp_arr_get. intros id. apply wlp_bind, wlp_arr_get. intros st.
    destruct (negb _); [done|]. apply wlp_bind, wlp_arr_get. intros b.
    destruct (b =? -1); [done|]. unfold wakeup_v. do 3 apply wlp_bind, wlp_wp, wp_modify. apply wlp_wp, wp_ret.
    split; [by apply (vinv_same s)|done].
  - intros [] s1 [H1 Hl1]. apply wlp_bind. unfold write_reg. apply wlp_wp, wp_modify, wlp_wp.
    unfold spin_release. apply wp_bind, wp_gets. cbn [lget vlk set_v_regs vdisk_lock].
    rewrite Hl1. apply wp_modify. split; [by apply (vinv_same s1)|done].
Qed.

Lemma virtio_disk_init_spec R pages s :
  wlp (virtio_disk_init R pages) s (fun _ s' => vinv s' [] [] /\ vdisk_lock s' = false).
Proof.
  unfold virtio_disk_init, write_reg. apply wlp_bind, wlp_wp, wp_modify.
  destruct (negb _ || _ || _ || _); [done|].
  do 2 apply wlp_bind, wlp_wp, wp_modify. do 5 apply wlp_bind, wlp_wp, wp_modify.
  destruct (_ =? 0); [done|]. destruct (_ <? NUM); [done|].
  do 6 apply wlp_bind, wlp_wp, wp_modify. apply wlp_wp, wp_modify.
  split; [|done]. constructor; try done.
  - intros i Hi. cbn [v_free set_v_free app in_use concat fmap list_fmap].
    unfold valid_desc in Hi. rewrite lookup_replicate_2 by lia. f_equal.
  - intros i Hi. by apply elem_of_nil in Hi.
  - constructor.
  - intros r Hr. by apply elem_of_nil in Hr.
Qed.

(** The request that [virtio_submit] made, read off the descriptor table. *)
Definition next_of (s : vdisk) (i : Z) : Z :=
  match desc_at s i with Some d => vd_next d | None => -1 end.
Definition request_of (s : vdisk) (b idx0 : Z) : req :=
  Req b idx0 (next_of s idx0) (next_of s (next_of s idx0)).

(** The driver and its device: [vreach R pages s rs] when the requests [rs] are
    with the device after some sequence of calls of the driver from
    [virtio_disk_init] on, each running under [disk.vdisk_lock] to its end or
    to its [sleep], and of writes of the device to the used ring and to the
    status bytes. *)
Inductive vreach (R : Z -> Z) (pages : Z) : vdisk -> list req -> Prop :=
  | VInit s s' : virtio_disk_init R pages s = Ret tt s' -> vreach R pages s' []
  | VSubmit hp dp sp b bn w s rs i0 s' :
      vreach R pages s rs -> virtio_submit hp dp sp b bn w s = Ret i0 s' ->
      vreach R pages s' (request_of s' b i0 :: rs)
  | VSubmitSleep hp dp sp b bn w s rs s' :
      vreach R pages s rs -> virtio_submit hp dp sp b bn w s = Sleep s' -> vreach R pages s' rs
  | VFinish s rs1 r rs2 s' :
      vreach R pages s (rs1 ++ r :: rs2) -> virtio_finish (rq_buf r) (rq_0 r) s = Ret tt s' ->
      vreach R pages s' (rs1 ++ rs2)
  | VFinishSleep s rs1 r rs2 s' :
      vreach R pages s (rs1 ++ r :: rs2) -> virtio_finish (rq_buf r) (rq_0 r) s = Sleep s' ->
      vreach R pages s' (rs1 ++ r :: rs2)
  | VIntr status s rs s' :
      vreach R pages s rs -> virtio_disk_intr status s = Ret tt s' -> vreach R pages s' rs
  | VDevice id elems st s rs :
      vreach R pages s rs ->
      vreach R pages (set_v_used_id id (set_v_used_elems elems (set_v_info_status st s))) rs.

Lemma vinv_request_of s b i0 i1 i2 rs hs :
  vinv s (Req b i0 i1 i2 :: rs) hs -> request_of s b i0 = Req b i0 i1 i2.
Proof.
  intros H. destruct (vi_chain _ _ _ H (Req b i0 i1 i2)) as (d0 & d1 & d2 & C0 & C1 & C2 & E);
    [set_solver|]. cbn [rq_0 rq_1 rq_2] in *. unfold request_of, next_of.
  destruct E as (_ & E0 & _ & E1 & _). by rewrite C0, E0, C1, E1.
Qed.

Lemma vreach_inv R pages s rs : vreach R pages s rs -> vinv s rs [] /\ vdisk_lock s = false.
Proof.
  induction 1 as [s s' E|hp dp sp b bn w s rs i0 s' _ [H Hl] E|hp dp sp b bn w s rs s' _ [H Hl] E
    |s rs1 r rs2 s' _ [H Hl] E|s rs1 r rs2 s' _ [H Hl] E|status s rs s' _ [H Hl] E
    |id elems st s rs _ [H Hl]].
  - exact (wlp_inv _ _ _ _ _ (virtio_disk_init_spec R pages s) E).
  - pose proof (virtio_submit_spec hp dp sp b bn w s rs H Hl) as Hs.
    unfold wps in Hs. rewrite E in Hs. destruct Hs as (i1 & i2 & H' & Hl' & _).
    by rewrite (vinv_request_of _ _ _ _ _ _ _ H').
  - pose proof (virtio_submit_spec hp dp sp b bn w s rs H Hl) as Hs.
    unfold wps in Hs. rewrite E in Hs. tauto.
  - pose proof (virtio_finish_spec s rs1 r rs2 H Hl) as Hs. unfold wps in Hs.
    rewrite E in Hs. tauto.
  - pose proof (virtio_finish_spec s rs1 r rs2 H Hl) as Hs. unfold wps in Hs.
    rewrite E in Hs. tauto.
  - exact (wlp_inv _ _ _ _ _ (virtio_disk_intr_frame status s rs H Hl) E).
  - split; [by apply (vinv_same s)|done].
Qed.

(** The descriptors whose [free] flag is set. *)
Definition free_descs (s : vdisk) : list Z :=
  base.filter (fun i => v_free s !! Z.to_nat i = Some true) (seqZ 0 NUM).

(** C25: in every state the driver reaches, whatever the device writes to the
    used ring, the free descriptors and the descriptors of the outstanding
    requests partition the eight descriptors: none is lost, none is in two
    requests.  [virtio_disk_rw] hands its buffer to the device or, only when at
    least two requests are outstanding, sleeps; when woken it frees the chain of
    its own request or sleeps on while the device owns the buffer.  None of
    these panics ("virtio_disk_intr 1", "virtio_disk_intr 2"). *)
Theorem virtio_descriptors_conserved R pages s rs (Hr : vreach R pages s rs) :
  free_descs s ++ in_use rs ≡ₚ seqZ 0 NUM /\
  (forall hp dp sp b bn w, match virtio_submit hp dp sp b bn w s with
     | Ret i0 s' => b ∈ b_disk s' /\ exists r, request_of s' b i0 = r /\
         forall i, i ∈ req_descs r -> i ∈ free_descs s
     | Sleep s' => (2 <= length rs)%nat
     | _ => False
     end) /\
  (forall r, r ∈ rs -> match virtio_finish (rq_buf r) (rq_0 r) s with
     | Ret _ s' => rq_buf r ∉ b_disk s
     | Sleep s' => rq_buf r ∈ b_disk s
     | _ => False
     end).
Proof.
  apply vreach_inv in Hr as [H Hl].
  assert (Hf : forall s rs, vinv s rs [] -> forall i,
    i ∈ free_descs s <-> valid_desc i /\ i ∉ in_use rs).
  { clear. intros s rs H i. unfold free_descs. rewrite list_elem_of_filter, elem_of_seqZ.
    split.
    - intros [E Hi]. rewrite (vi_free _ _ _ H) in E by done. injection E as E.
      by apply bool_decide_eq_true in E.
    - intros [Hi Hn]. rewrite (vi_free _ _ _ H) by done.
      by rewrite bool_decide_eq_true_2. }
  split; [|split].
  - apply NoDup_Permutation; [|apply NoDup_seqZ|].
    + apply list.NoDup_app. split; [apply list.NoDup_filter, NoDup_seqZ|].
      split; [|exact (vi_nodup _ _ _ H)]. intros i Hi. by apply (Hf s rs H).
    + intros i. rewrite elem_of_app, (Hf s rs H), elem_of_seqZ.
      destruct (decide (i ∈ in_use rs)) as [Hi|Hi]; [|unfold valid_desc; rewrite Z.add_0_l; tauto].
      split; [intros _; by apply (vi_range _ _ _ H)|by right].
  - intros hp dp sp b bn w. pose proof (virtio_submit_spec hp dp sp b bn w s rs H Hl) as Hs.
    unfold wps in Hs. destruct (virtio_submit hp dp sp b bn w s) as [i0 s'| | |];
      [|done|tauto|done].
    destruct Hs as (i1 & i2 & H' & _ & E). rewrite E. split; [set_solver|].
    rewrite (vinv_request_of _ _ _ _ _ _ _ H'). eexists. split; [done|].
    intros i Hi. apply (Hf s rs H). split; [apply (vi_range _ _ _ H')|].
    + unfold in_use. rewrite fmap_cons. cbn [concat]. set_solver.
    + pose proof (vi_nodup _ _ _ H') as Hn. unfold in_use in Hn. rewrite fmap_cons in Hn.
      cbn [concat] in Hn. apply list.NoDup_app in Hn as (_ & _ & Hn).
      apply list.NoDup_app in Hn as (_ & Hn & _). by apply Hn.
  - intros r Hin. apply list_elem_of_split in Hin as (rs1 & rs2 & ->).
    pose proof (virtio_finish_spec s rs1 r rs2 H Hl) as Hs. unfold wps in Hs.
    destruct (virtio_finish (rq_buf r) (rq_0 r) s); tauto.
Qed.

(** A device that answers as QEMU's does, and the driver after it made two
    requests. *)
Definition qemu_reg (r : Z) : Z :=
  if r =? VIRTIO_MMIO_MAGIC_VALUE then 1953655158 else if r =? VIRTIO_MMIO_VERSION then 1
  else if r =? VIRTIO_MMIO_DEVICE_ID then 2 else if r =? VIRTIO_MMIO_VENDOR_ID then 1431127377
  else if r =? VIRTIO_MMIO_QUEUE_NUM_MAX then 1024 else 0.
Definition vdisk_off : vdisk :=
  Vdisk [] [] 0 [] [] 0 (replicate 8 (-1)) (replicate 8 0) false ∅ [] [] ∅.
Definition two_requests : outcome vdisk (Z * Z) :=
  (virtio_disk_init qemu_reg 4096 ;;;
   let! i := virtio_submit 0 0 (fun _ => 0) 500 7 true in
   let! j := virtio_submit 0 0 (fun _ => 0) 600 8 false in
   ret (i, j)) vdisk_off.

Lemma virtio_descriptors_conserved_witness :
  exists s rs, length rs = 2%nat /\ free_descs s ++ in_use rs ≡ₚ seqZ 0 NUM.
Proof.
  set (s := final vdisk_off two_requests).
  exists s, [request_of s 600 3; request_of s 500 0]. split; [reflexivity|].
  assert (H : vreach qemu_reg 4096 s [request_of s 600 3; request_of s 500 0]).
  { set (s1 := final vdisk_off (virtio_disk_init qemu_reg 4096 vdisk_off)).
    set (s2 := final vdisk_off (virtio_submit 0 0 (fun _ => 0) 500 7 true s1)).
    replace (request_of s 500 0) with (request_of s2 500 0) by (vm_compute; reflexivity).
    apply (VSubmit _ _ 0 0 (fun _ => 0) 600 8 false s2); [|vm_compute; reflexivity].
    apply (VSubmit _ _ 0 0 (fun _ => 0) 500 7 true s1); [|vm_compute; reflexivity].
    apply (VInit _ _ vdisk_off). vm_compute. reflexivity. }
  exact (proj1 (virtio_descriptors_conserved _ _ _ _ H)).
Defined.
