(* ===== verification/Umalloc.v ===== *)
(** The allocator of user programs, umalloc.c: a circular list of free blocks in
    address order, next fit, with neighbours joined by [free].  The heap is
    described by the sequence of its chunks. *)
From S2P Require Import Prelude.

(** ** State

    The headers are at byte addresses; a header takes 16 bytes, and sizes count
    headers.  [u_brk] is the size of the process, where [sbrk] adds memory. *)

Record ustate := UState {
  u_ptr : gmap Z Z; u_size : gmap Z Z; u_freep : Z; u_brk : Z
}.
Definition UM := M ustate.
Definition sizeof_Header : Z := 16.

Definition set_u_ptr (v : gmap Z Z) (s : ustate) : ustate := UState v (u_size s) (u_freep s) (u_brk s).
Definition set_u_size (v : gmap Z Z) (s : ustate) : ustate := UState (u_ptr s) v (u_freep s) (u_brk s).
Definition set_u_freep (v : Z) (s : ustate) : ustate := UState (u_ptr s) (u_size s) v (u_brk s).
Definition set_u_brk (v : Z) (s : ustate) : ustate := UState (u_ptr s) (u_size s) (u_freep s) v.

(** The kernel maps whole pages ([uvmalloc], [uvmdealloc]): the memory can be used
    up to the end of the page of the break. *)
Definition mapped_end (brk : Z) : Z := (brk + 4095) / 4096 * 4096.

(** An access to the header at [a] faults when a byte of it is not mapped. *)
Definition access (a : Z) : UM unit :=
  let! b := gets u_brk in
  if (0 <=? a) && (a + sizeof_Header <=? mapped_end b) then ret tt else panic "usertrap(): unexpected scause".
Definition get_ptr (a : Z) : UM Z :=
  access a ;;; let! m := gets u_ptr in of_option "not initialised" (m !! a).
Definition get_size (a : Z) : UM Z :=
  access a ;;; let! m := gets u_size in of_option "not initialised" (m !! a).
Definition put_ptr (a v : Z) : UM unit :=
  access a ;;; modify (fun s => set_u_ptr (<[a := v]> (u_ptr s)) s).
Definition put_size (a v : Z) : UM unit :=
  access a ;;; modify (fun s => set_u_size (<[a := u32 v]> (u_size s)) s).

Section umalloc.
(** Where [base] is linked, and whether the kernel has the memory to grow the
    process from one size to another. *)
Variables (base : Z) (grow : Z -> Z -> bool).

(** [sbrk]: [growproc] computes with [uint]s; memory that is given back is lost. *)
Definition sbrk (n : Z) : UM Z :=
  let! old := gets u_brk in
  let new := u32 (old + n) in
  if 0 <? n then
    if new <? old then ret old else
    if grow old new then modify (set_u_brk new) ;;; ret old else ret (-1)
  else if (n <? 0) && (new <? old) then modify (set_u_brk new) ;;; ret old
  else ret old.

(** Whether [bp] belongs behind [p], whose successor is [q]: the test that ends
    the loop of [free]. *)
Definition place (bp p q : Z) : bool :=
  ((p <? bp) && (bp <? q)) || ((q <=? p) && ((p <? bp) || (bp <? q))).

Definition free (ap : Z) : UM unit :=
  let bp := ap - sizeof_Header in
  let! p0 := gets u_freep in
  let! p := loop p0 (fun p =>
    let! q := get_ptr p in
    if place bp p q then ret (inr p) else ret (inl q)) in
  let! bsize := get_size bp in
  let! q := get_ptr p in
  (if bp + sizeof_Header * bsize =? q then
     let! qsize := get_size q in
     put_size bp (bsize + qsize) ;;;
     let! qptr := get_ptr q in
     put_ptr bp qptr
   else put_ptr bp q) ;;;
  let! psize := get_size p in
  (if p + sizeof_Header * psize =? bp then
     let! bsize := get_size bp in
     put_size p (psize + bsize) ;;;
     let! bptr := get_ptr bp in
     put_ptr p bptr
   else put_ptr p bp) ;;;
  modify (set_u_freep p).

Definition morecore (nu : Z) : UM Z :=
  let nu := if nu <? 4096 then 4096 else nu in
  let! p := sbrk (s32 (nu * sizeof_Header)) in
  if p =? -1 then ret 0 else
  put_size p nu ;;;
  free (p + sizeof_Header) ;;;
  gets u_freep.

(** The body of the loop of [malloc]: [malloc_take] when [p] is large enough. *)
Definition malloc_take (nunits prevp p size : Z) : UM Z :=
  let! r :=
    (if size =? nunits then
       let! q := get_ptr p in
       put_ptr prevp q ;;;
       ret p
     else
       put_size p (size - nunits) ;;;
       let p' := p + sizeof_Header * u32 (size - nunits) in
       put_size p' nunits ;;;
       ret p') in
  modify (set_u_freep prevp) ;;;
  ret (r + sizeof_Header).

Definition malloc_scan (nunits : Z) '((prevp, p) : Z * Z) : UM ((Z * Z) + Z) :=
  let! size := get_size p in
  if nunits <=? size then
    let! r := malloc_take nunits prevp p size in ret (inr r)
  else
    let! freep := gets u_freep in
    if p =? freep then
      let! p := morecore nunits in
      if p =? 0 then ret (inr 0) else
      let! q := get_ptr p in ret (inl (p, q))
    else let! q := get_ptr p in ret (inl (p, q)).

Definition malloc (nbytes : Z) : UM Z :=
  let nunits := u32 ((nbytes + sizeof_Header - 1) / sizeof_Header + 1) in
  let! freep := gets u_freep in
  let! prevp :=
    (if freep =? 0 then
       modify (set_u_freep base) ;;;
       put_ptr base base ;;;
       put_size base 0 ;;;
       ret base
     else ret freep) in
  let! p := get_ptr prevp in
  loop (prevp, p) (malloc_scan nunits).
End umalloc.

(** ** The chunks of the heap

    From the start of the heap on, each chunk has a size in headers and is used
    or free. *)

Notation chunk := (Z * bool)%type.

Definition units (cs : list chunk) : Z := foldr (fun c n => c.1 + n) 0 cs.
(** The address behind the chunks [cs] that start at [a]. *)
Definition after (a : Z) (cs : list chunk) : Z := a + sizeof_Header * units cs.

(** The addresses of the free chunks. *)
Fixpoint frees (a : Z) (cs : list chunk) : list Z :=
  match cs with
  | [] => []
  | (n, used) :: cs' => (if used then [] else [a]) ++ frees (a + sizeof_Header * n) cs'
  end.

(** No two neighbours are free. *)
Fixpoint coalesced (cs : list chunk) : Prop :=
  match cs with
  | (_, false) :: ((_, false) :: _) as cs' => False
  | _ :: cs' => coalesced cs'
  | [] => True
  end.

(** The list of free chunks: each one points to the next. *)
Fixpoint linked (m : gmap Z Z) (l : list Z) (z : Z) : Prop :=
  match l with
  | [] => True
  | a :: l' => m !! a = Some (hd z l') /\ linked m l' z
  end.
Definition ring (m : gmap Z Z) (l : list Z) : Prop := linked m l (hd 0 l).

Lemma units_app c1 c2 : units (c1 ++ c2) = units c1 + units c2.
Proof. induction c1 as [|[n u] c1 IH]; simpl; lia. Qed.

Lemma units_cons n u cs : units ((n, u) :: cs) = n + units cs.
Proof. done. Qed.

Lemma after_app a c1 c2 : after a (c1 ++ c2) = after (after a c1) c2.
Proof. unfold after. rewrite units_app. lia. Qed.

Lemma after_snoc a cs n u : after a (cs ++ [(n, u)]) = after a cs + sizeof_Header * n.
Proof. unfold after. rewrite units_app, units_cons. change (units []) with 0. lia. Qed.

Lemma frees_app a c1 c2 : frees a (c1 ++ c2) = frees a c1 ++ frees (after a c1) c2.
Proof.
  revert a. induction c1 as [|[n u] c1 IH]; intros a; simpl.
  - unfold after. simpl. by rewrite Z.mul_0_r, Z.add_0_r.
  - rewrite IH, (assoc_L (++)). do 2 f_equal. unfold after. simpl. lia.
Qed.

Definition positive (cs : list chunk) : Prop := Forall (fun c => 0 < c.1) cs.

Lemma units_nonneg cs : positive cs -> 0 <= units cs.
Proof. induction 1; simpl; lia. Qed.

Lemma frees_range a cs x : positive cs -> x ∈ frees a cs -> a <= x < after a cs.
Proof.
  intros H. revert a. induction H as [|[n u] cs Hn Hcs IH]; intros a Hx; simpl in *.
  { by apply not_elem_of_nil in Hx. }
  pose proof (units_nonneg cs Hcs). unfold after, sizeof_Header in *. simpl.
  apply elem_of_app in Hx as [Hx|Hx].
  - destruct u; [by apply not_elem_of_nil in Hx|]. apply list_elem_of_singleton in Hx. lia.
  - specialize (IH _ Hx). lia.
Qed.

Lemma coalesced_app c1 c2 : coalesced (c1 ++ c2) -> coalesced c1 /\ coalesced c2.
Proof.
  induction c1 as [|[n u] c1 IH]; [done|]. intros H.
  assert (H' : coalesced (c1 ++ c2)) by (simpl in H; destruct u, c1 as [|[? []]], c2 as [|[? []]]; simpl in *; done).
  destruct (IH H') as [H1 H2]. split; [|done]. destruct u, c1 as [|[? []]]; simpl in *; done.
Qed.

(** *** Rings *)

Lemma linked_app m l1 l2 z : linked m (l1 ++ l2) z <-> linked m l1 (hd z l2) /\ linked m l2 z.
Proof.
  induction l1 as [|a l1 IH]; simpl; [tauto|]. rewrite IH.
  destruct l1; simpl; tauto.
Qed.

Lemma ring_rotate m l1 l2 : ring m (l1 ++ l2) -> ring m (l2 ++ l1).
Proof.
  unfold ring. destruct l1 as [|a l1]; [by rewrite app_nil_r|]. destruct l2 as [|b l2]; [by rewrite app_nil_r|].
  rewrite !linked_app. simpl. tauto.
Qed.

Lemma linked_insert m l z a v : a ∉ l -> linked m l z -> linked (<[a := v]> m) l z.
Proof.
  induction l as [|b l IH]; intros Ha H; [done|]. destruct H as [H1 H2]. split.
  - rewrite lookup_insert_ne; [done|]. intros ->. apply Ha, list_elem_of_here.
  - apply IH; [|done]. intros Hin. by apply Ha, list_elem_of_further.
Qed.

(** A node is put behind the first one, or the second one taken out. *)
Lemma ring_add m p b l : b <> p -> b ∉ l -> p ∉ l -> ring m (p :: l) ->
  ring (<[p := b]> (<[b := hd p l]> m)) (p :: b :: l).
Proof.
  intros Hbp Hb Hp [H1 H2]. unfold ring. simpl in *. split; [by rewrite lookup_insert_eq|].
  split; [by rewrite lookup_insert_ne, lookup_insert_eq by done|].
  by apply linked_insert, linked_insert.
Qed.

Lemma ring_remove m p b l : b <> p -> p ∉ l -> ring m (p :: b :: l) ->
  ring (<[p := hd p l]> m) (p :: l).
Proof.
  intros Hbp Hp (H1 & H2 & H3). unfold ring. simpl in *. split; [by rewrite lookup_insert_eq|].
  by apply linked_insert.
Qed.

(** *** Headers *)

Fixpoint headers (m : gmap Z Z) (a : Z) (cs : list chunk) : Prop :=
  match cs with
  | [] => True
  | (n, _) :: cs' => m !! a = Some n /\ headers m (a + sizeof_Header * n) cs'
  end.

Lemma headers_app m a c1 c2 : headers m a (c1 ++ c2) <-> headers m a c1 /\ headers m (after a c1) c2.
Proof.
  revert a. induction c1 as [|[n u] c1 IH]; intros a; simpl.
  - unfold after. simpl. rewrite Z.mul_0_r, Z.add_0_r. tauto.
  - rewrite IH. replace (after (a + sizeof_Header * n) c1) with (after a ((n, u) :: c1))
      by (unfold after; simpl; lia). tauto.
Qed.

Lemma headers_insert m a cs x v : positive cs -> x < a \/ after a cs <= x ->
  headers m a cs -> headers (<[x := v]> m) a cs.
Proof.
  intros Hp. revert a. induction Hp as [|[n u] cs Hn Hcs IH]; intros a Hx H; [done|].
  destruct H as [H1 H2]. pose proof (units_nonneg cs Hcs). unfold after, sizeof_Header in *.
  change (units ((n, u) :: cs)) with (n + units cs) in Hx. cbn [fst] in Hn.
  split; [rewrite lookup_insert_ne; [done|lia]|]. apply IH; [unfold sizeof_Header; lia|done].
Qed.

Lemma after_mono a cs : positive cs -> a <= after a cs.
Proof. intros H%units_nonneg. unfold after, sizeof_Header. lia. Qed.

(** *** What [free] makes of the chunks around a used one of [n] headers *)

Definition merge_right (n : Z) (c2 : list chunk) : Z * list chunk :=
  match c2 with (k, false) :: c2' => (n + k, c2') | _ => (n, c2) end.
Definition merge_left (c1 : list chunk) (n : Z) : list chunk * Z :=
  match reverse c1 with (k, false) :: r => (reverse r, k + n) | _ => (c1, n) end.
Definition freed (c1 : list chunk) (n : Z) (c2 : list chunk) : list chunk :=
  let '(n, c2) := merge_right n c2 in
  let '(c1, n) := merge_left c1 n in
  c1 ++ (n, false) :: c2.

(** The chunk next to a free one is used, or there is none. *)
Definition used_first (cs : list chunk) : Prop := match cs with (_, false) :: _ => False | _ => True end.

Lemma coalesced_cons n cs : coalesced cs -> used_first cs -> coalesced ((n, false) :: cs).
Proof. destruct cs as [|[k []] cs]; simpl; tauto. Qed.

Lemma coalesced_tail n cs : coalesced ((n, false) :: cs) -> coalesced cs /\ used_first cs.
Proof. destruct cs as [|[k []] cs]; simpl; tauto. Qed.

Lemma coalesced_used n cs : coalesced ((n, true) :: cs) <-> coalesced cs.
Proof. done. Qed.

Lemma used_last_cases (c1 : list chunk) :
  (c1 = [] \/ (exists c k, c1 = c ++ [(k, true)])) \/ exists c k, c1 = c ++ [(k, false)].
Proof.
  destruct c1 as [|x c1] using rev_ind; [by left; left|]. destruct x as [k []]; [left; right|right]; eauto.
Qed.

Lemma merge_left_used c k n : merge_left (c ++ [(k, true)]) n = (c ++ [(k, true)], n).
Proof. unfold merge_left. by rewrite reverse_snoc. Qed.
Lemma merge_left_free c k n : merge_left (c ++ [(k, false)]) n = (c, k + n).
Proof. unfold merge_left. by rewrite reverse_snoc, reverse_involutive. Qed.

Lemma coalesced_glue c1 c2 : coalesced c1 -> coalesced c2 ->
  c1 = [] \/ (exists c k, c1 = c ++ [(k, true)]) \/ used_first c2 -> coalesced (c1 ++ c2).
Proof.
  induction c1 as [|[n u] c1 IH]; intros H1 H2 H; [done|].
  assert (Hc1 : coalesced c1) by (destruct u, c1 as [|[? []]]; simpl in *; done).
  destruct c1 as [|x c1].
  - destruct u; [exact H2|]. apply coalesced_cons; [done|].
    destruct H as [?|[(c & k & E)|?]]; [done| |done].
    destruct c as [|? []]; simplify_eq/=.
  - assert (H' : coalesced ((x :: c1) ++ c2)).
    { apply IH; [done..|]. destruct H as [?|[(c & k & E)|?]]; [done| |by do 2 right].
      right. left. destruct c as [|y c]; [done|]. apply (f_equal tail) in E. by exists c, k. }
    destruct x as [k [|]], u; simpl in *; done.
Qed.

Lemma coalesced_snoc c k : coalesced (c ++ [(k, false)]) ->
  coalesced c /\ (c = [] \/ exists c' j, c = c' ++ [(j, true)]).
Proof.
  intros H. destruct (coalesced_app _ _ H) as [Hc _]. split; [done|].
  destruct (used_last_cases c) as [?|(c' & j & ->)]; [done|]. rewrite <- (assoc_L (++)) in H.
  by apply coalesced_app in H as [_ []].
Qed.

Lemma freed_coalesced c1 n c2 : coalesced (c1 ++ (n, true) :: c2) -> coalesced (freed c1 n c2).
Proof.
  intros [H1 H2]%coalesced_app. rewrite coalesced_used in H2. unfold freed.
  assert (Hr : exists m c, merge_right n c2 = (m, c) /\ coalesced c /\ used_first c).
  { unfold merge_right. destruct c2 as [|[k []] c2]; [by eexists _, _|by eexists _, _|].
    apply coalesced_tail in H2. by eexists _, _. }
  destruct Hr as (m & c & -> & Hc & Hu). destruct (used_last_cases c1) as [Hl|(c' & k & ->)].
  - assert (E : merge_left c1 m = (c1, m)).
    { destruct Hl as [->|(c' & k & ->)]; [done|apply merge_left_used]. }
    rewrite E. apply coalesced_glue; [done|by apply coalesced_cons|].
    destruct Hl as [->|Hl]; auto.
  - rewrite merge_left_free. apply coalesced_snoc in H1 as [H1 Hl].
    apply coalesced_glue; [done|by apply coalesced_cons|]. destruct Hl; auto.
Qed.

Lemma merge_left_used_last c1 n : c1 = [] \/ (exists c k, c1 = c ++ [(k, true)]) ->
  merge_left c1 n = (c1, n).
Proof. intros [->|(c & k & ->)]; [done|apply merge_left_used]. Qed.

Lemma units_freed c1 n c2 : units (freed c1 n c2) = units (c1 ++ (n, true) :: c2).
Proof.
  unfold freed. assert (Hr : units (merge_right n c2).2 + (merge_right n c2).1 = n + units c2).
  { unfold merge_right. destruct c2 as [|[k []] c2]; cbn [fst snd]; rewrite ?units_cons; lia. }
  destruct (merge_right n c2) as [m c]. cbn [fst snd] in Hr.
  destruct (used_last_cases c1) as [Hl|(c' & k & ->)].
  - rewrite merge_left_used_last by done. rewrite !units_app, !units_cons. lia.
  - rewrite merge_left_free, !units_app, !units_cons. change (units []) with 0. lia.
Qed.

Lemma freed_positive c1 n c2 : positive (c1 ++ (n, true) :: c2) -> positive (freed c1 n c2).
Proof.
  unfold positive. intros [H1 H2]%Forall_app. apply list.Forall_cons in H2 as [Hn H2]. simpl in Hn.
  assert (Hr : 0 < (merge_right n c2).1 /\ Forall (fun c : chunk => 0 < c.1) (merge_right n c2).2).
  { unfold merge_right. destruct c2 as [|[k []] c2]; simpl; [done|done|].
    apply list.Forall_cons in H2 as [Hk H2]. simpl in Hk. split; [lia|done]. }
  unfold freed. destruct (merge_right n c2) as [m c]. simpl in Hr. destruct Hr as [Hm Hc].
  destruct (used_last_cases c1) as [Hl|(c' & k & ->)].
  - rewrite merge_left_used_last by done. apply Forall_app. split; [done|]. by constructor.
  - rewrite merge_left_free. apply Forall_app in H1 as [H1 Hk]. apply list.Forall_cons in Hk as [Hk _]. simpl in Hk.
    apply Forall_app. split; [done|]. constructor; [cbn [fst] in *; lia|done].
Qed.

(** ** The heap *)

(** The memory of the machine bounds the memory of a process. *)
Definition RAM : Z := 128 * 1024 * 1024.

Lemma mapped_end_ge b : b <= mapped_end b.
Proof. unfold mapped_end. zlia. Qed.

(** The end of a page is where the mapping ends. *)
Lemma mapped_end_aligned b : (4096 | b) -> mapped_end b = b.
Proof.
  intros [k ->]. unfold mapped_end. replace (k * 4096 + 4095) with (4095 + k * 4096) by lia.
  by rewrite Z.div_add.
Qed.
Lemma mapped_end_mono a b : a <= b -> mapped_end a <= mapped_end b.
Proof. intros H. unfold mapped_end. apply Z.mul_le_mono_nonneg_r; [lia|]. apply Z.div_le_mono; lia. Qed.

Section heap.
Variables (base : Z) (grow : Z -> Z -> bool).

(** The process's memory from [h0] on holds the chunks [cs]. *)
Record heap (h0 : Z) (cs : list chunk) (s : ustate) : Prop := {
  hp_base : 0 < base /\ base + sizeof_Header <= h0;
  hp_brk : u_brk s = after h0 cs;
  hp_ram : u_brk s <= RAM;
  hp_pos : positive cs;
  hp_coalesced : coalesced cs;
  hp_bsize : u_size s !! base = Some 0;
  hp_headers : headers (u_size s) h0 cs;
  hp_ring : ring (u_ptr s) (base :: frees h0 cs);
  hp_freep : u_freep s ∈ base :: frees h0 cs
}.

(** Increasing lists. *)
Definition sorted (l : list Z) : Prop := forall l1 x l2 y, l = l1 ++ x :: l2 -> y ∈ l2 -> x < y.

Lemma frees_sorted a cs : positive cs -> sorted (frees a cs).
Proof.
  intros Hp. revert a. induction Hp as [|[n u] cs Hn Hcs IH]; intros a l1 x l2 y E Hy; simpl in E.
  { by destruct l1. }
  destruct u; simpl in E; [by eapply IH|]. destruct l1 as [|z l1]; simplify_eq/=; [|by eapply IH].
  apply frees_range in Hy; [|done]. unfold sizeof_Header in Hy. lia.
Qed.

Lemma linked_next m l z x : linked m l z -> x ∈ l ->
  exists l1 l2, l = l1 ++ x :: l2 /\ m !! x = Some (hd z l2).
Proof.
  intros H Hx. apply list_elem_of_split in Hx as (l1 & l2 & ->). exists l1, l2. split; [done|].
  apply linked_app in H as [_ [H _]]. done.
Qed.

Lemma place_ring m bp A p B x q : hd p A = base -> base < bp -> ring m (A ++ p :: B) ->
  (forall y, y ∈ A ++ [p] -> base <= y < bp) -> (forall y, y ∈ B -> bp < y) ->
  sorted (A ++ [p]) -> sorted B ->
  x ∈ A ++ p :: B -> m !! x = Some q -> place bp x q = bool_decide (x = p).
Proof.
  intros Hhd Hb Hr HA HB SA SB Hx Hq.
  assert (Hz : hd 0 (A ++ p :: B) = base) by (by destruct A).
  unfold ring in Hr. rewrite Hz in Hr. apply linked_app in Hr as [HrA [Hp HrB]].
  assert (Hpx : base <= p < bp) by (apply HA; set_solver). unfold place.
  apply elem_of_app in Hx as [Hx|Hx]; [|apply elem_of_cons in Hx as [->|Hx]].
  - destruct (linked_next _ _ _ _ HrA Hx) as (l1 & l2 & -> & E). rewrite E in Hq. injection Hq as <-.
    simpl. assert (Hl : (l1 ++ x :: l2) ++ [p] = l1 ++ x :: (l2 ++ [p])) by by rewrite <- (assoc_L (++)).
    assert (Hlt : x < hd p l2 < bp).
    { split; [|apply HA; destruct l2; set_solver].
      apply (SA _ _ _ _ Hl). destruct l2; set_solver. }
    assert (Hxp : x < p) by (apply (SA _ _ _ _ Hl); set_solver).
    rewrite bool_decide_false by lia. lia.
  - rewrite Hp in Hq. injection Hq as <-. rewrite bool_decide_true by done.
    destruct B as [|y B]; simpl; [lia|]. assert (bp < y) by (apply HB, list_elem_of_here). lia.
  - pose proof (HB x Hx). rewrite bool_decide_false by lia.
    destruct (linked_next _ _ _ _ HrB Hx) as (l1 & l2 & -> & E). rewrite E in Hq. injection Hq as <-.
    destruct l2 as [|y l2]; simpl; [lia|].
    assert (x < y) by (eapply SB; [done|apply list_elem_of_here]). lia.
Qed.

(** *** Accesses *)

Definition in_mem (s : ustate) (a : Z) : Prop := 0 <= a /\ a + sizeof_Header <= u_brk s.

Lemma wp_access s a (Q : unit -> ustate -> Prop) : in_mem s a -> Q tt s -> wp (access a) s Q.
Proof.
  intros [H1 H2] HQ. unfold access. apply wp_bind, wp_gets. pose proof (mapped_end_ge (u_brk s)).
  rewrite (proj2 (Z.leb_le _ _) H1), (proj2 (Z.leb_le _ _)) by lia. by apply wp_ret.
Qed.

Lemma wp_get_ptr s a v (Q : Z -> ustate -> Prop) :
  in_mem s a -> u_ptr s !! a = Some v -> Q v s -> wp (get_ptr a) s Q.
Proof.
  intros Ha Hv HQ. unfold get_ptr. apply wp_bind, wp_access; [done|]. apply wp_bind, wp_gets.
  eapply wp_eq; [|exact HQ]. by rewrite Hv.
Qed.

Lemma wp_get_size s a v (Q : Z -> ustate -> Prop) :
  in_mem s a -> u_size s !! a = Some v -> Q v s -> wp (get_size a) s Q.
Proof.
  intros Ha Hv HQ. unfold get_size. apply wp_bind, wp_access; [done|]. apply wp_bind, wp_gets.
  eapply wp_eq; [|exact HQ]. by rewrite Hv.
Qed.

Lemma wp_put_ptr s a v (Q : unit -> ustate -> Prop) :
  in_mem s a -> Q tt (set_u_ptr (<[a := v]> (u_ptr s)) s) -> wp (put_ptr a v) s Q.
Proof. intros Ha HQ. unfold put_ptr. apply wp_bind, wp_access; [done|]. by apply wp_modify. Qed.

Lemma wp_put_size s a v (Q : unit -> ustate -> Prop) : in_mem s a -> 0 <= v < 2 ^ 32 ->
  Q tt (set_u_size (<[a := v]> (u_size s)) s) -> wp (put_size a v) s Q.
Proof.
  intros Ha Hv HQ. unfold put_size. apply wp_bind, wp_access; [done|]. apply wp_modify.
  by rewrite u32_small.
Qed.

(** The walk along the ring. *)
Lemma wp_walk s L x0 p bp (Q : Z -> ustate -> Prop) :
  ring (u_ptr s) L -> x0 ∈ L -> p ∈ L -> (forall x, x ∈ L -> in_mem s x) ->
  (forall x q, x ∈ L -> u_ptr s !! x = Some q -> place bp x q = bool_decide (x = p)) ->
  Z.of_nat (length L) < 2 ^ 64 -> Q p s ->
  wp (loop x0 (fun p => let! q := get_ptr p in
    if place bp p q then ret (inr p) else ret (inl q))) s Q.
Proof.
  intros Hr Hx0 Hp Hacc Hstop Hlen HQ.
  apply list_elem_of_split in Hx0 as (l1 & l2 & ->). apply ring_rotate in Hr.
  assert (Hin : forall x, x ∈ (x0 :: l2) ++ l1 -> x ∈ l1 ++ x0 :: l2) by set_solver.
  assert (Hp' : p ∈ (x0 :: l2) ++ l1) by set_solver.
  assert (Hlen' : Z.of_nat (length ((x0 :: l2) ++ l1)) < 2 ^ 64) by (rewrite length_app in *; lia).
  set (R := (x0 :: l2) ++ l1) in *. assert (Hhd : hd 0 R = x0) by done. clearbody R. clear Hp Hlen.
  apply (wp_loop_idx (fun k x s' => s' = s /\ exists r1 r2, R = r1 ++ x :: r2 /\ p ∈ x :: r2 /\
    k = Z.of_nat (length r2)) _ _ (Z.of_nat (length R) - 1)).
  - split; [done|]. destruct R as [|y R]; [by apply not_elem_of_nil in Hp'|]. simpl in Hhd. subst y.
    exists [], R. split; [done|]. split; [done|]. simpl. lia.
  - lia.
  - intros k x s' (_ & r1 & r2 & _ & _ & ->). lia.
  - intros k x s' (-> & r1 & r2 & E & Hpx & ->). unfold ring in Hr. rewrite E in Hr.
    apply linked_app in Hr as [_ [Hq _]]. rewrite <- E in Hq.
    assert (Hx : x ∈ l1 ++ x0 :: l2) by (apply Hin; rewrite E; set_solver).
    apply wp_bind. eapply wp_get_ptr; [by apply Hacc|exact Hq|].
    rewrite (Hstop x _ Hx Hq). destruct (decide (x = p)) as [->|Hne].
    + rewrite bool_decide_true by done. by apply wp_ret.
    + rewrite bool_decide_false by done. apply wp_ret. apply elem_of_cons in Hpx as [?|Hpx]; [done|].
      destruct r2 as [|y r2]; [by apply not_elem_of_nil in Hpx|]. simpl.
      exists (Z.of_nat (length r2)). split; [|lia]. split; [done|].
      exists (r1 ++ [x]), r2. rewrite <- (assoc_L (++)). done.
Qed.

(** *** [free] *)

Lemma frees_chunk a cs x : x ∈ frees a cs ->
  exists d1 k d2, cs = d1 ++ (k, false) :: d2 /\ x = after a d1.
Proof.
  revert a. induction cs as [|[n u] cs IH]; intros a Hx; simpl in Hx.
  { by apply not_elem_of_nil in Hx. }
  apply elem_of_app in Hx as [Hx|Hx].
  - destruct u; [by apply not_elem_of_nil in Hx|]. apply list_elem_of_singleton in Hx as ->.
    exists [], n, cs. split; [done|]. unfold after. simpl. lia.
  - destruct (IH _ Hx) as (d1 & k & d2 & -> & ->). exists ((n, u) :: d1), k, d2. split; [done|].
    unfold after. rewrite units_cons. lia.
Qed.

Lemma length_frees a cs : positive cs -> Z.of_nat (length (frees a cs)) <= units cs.
Proof.
  intros Hp. revert a. induction Hp as [|[n u] cs Hn Hcs IH]; intros a; [done|].
  simpl frees. rewrite length_app, units_cons. cbn [fst] in Hn. specialize (IH (a + sizeof_Header * n)).
  destruct u; simpl; lia.
Qed.

(** A chunk of the heap. *)
Lemma chunk_in_heap h0 s c1 n u c2 : heap h0 (c1 ++ (n, u) :: c2) s ->
  0 < n /\ 0 < base < h0 /\ h0 <= after h0 c1 /\
  after h0 c1 + sizeof_Header * n <= u_brk s /\ u_brk s <= RAM /\
  positive c1 /\ positive c2 /\ in_mem s (after h0 c1) /\ u_size s !! after h0 c1 = Some n.
Proof.
  intros H. pose proof (hp_pos _ _ _ H) as Hp. apply Forall_app in Hp as [Hp1 Hp2].
  apply list.Forall_cons in Hp2 as [Hn Hp2]. cbn [fst] in Hn.
  pose proof (hp_brk _ _ _ H) as Hb. rewrite after_app in Hb. destruct (hp_base _ _ _ H) as [B1 B2].
  pose proof (after_mono h0 c1 Hp1). pose proof (units_nonneg c2 Hp2).
  assert (Hb' : after h0 c1 + sizeof_Header * n <= u_brk s).
  { rewrite Hb. unfold after at 2. rewrite units_cons. unfold sizeof_Header. lia. }
  pose proof (hp_headers _ _ _ H) as Hh. apply headers_app in Hh as [_ [Hh _]].
  unfold in_mem, sizeof_Header in *. split_and!; try done; try lia. apply H.
Qed.

Lemma node_in_mem h0 cs s x : heap h0 cs s -> x ∈ base :: frees h0 cs -> in_mem s x.
Proof.
  intros H [->|Hx]%elem_of_cons.
  - destruct (hp_base _ _ _ H) as [B1 B2]. pose proof (hp_brk _ _ _ H).
    pose proof (after_mono h0 cs (hp_pos _ _ _ H)). unfold in_mem. lia.
  - apply frees_chunk in Hx as (d1 & k & d2 & -> & ->). by eapply chunk_in_heap.
Qed.

(** The used chunk that [free] gets, between the free ones. *)
Record between (h0 : Z) (c1 : list chunk) (n : Z) (c2 : list chunk) (s : ustate) (A : list Z)
    (p : Z) : Prop := {
  bt_heap : heap h0 (c1 ++ (n, true) :: c2) s;
  bt_left : base :: frees h0 c1 = A ++ [p];
  bt_ring : ring (u_ptr s) (A ++ p :: frees (after h0 c1 + sizeof_Header * n) c2)
}.

Lemma between_exists h0 c1 n c2 s : heap h0 (c1 ++ (n, true) :: c2) s ->
  exists A p, between h0 c1 n c2 s A p.
Proof.
  intros H. destruct (exists_last (l := base :: frees h0 c1)) as (A & p & E); [done|].
  exists A, p. constructor; [done|done|].
  pose proof (hp_ring _ _ _ H) as Hr. rewrite frees_app in Hr. simpl in Hr.
  rewrite app_comm_cons, E, <- (assoc_L (++)) in Hr. exact Hr.
Qed.

Section free.
Context {h0 : Z} {c1 : list chunk} {n : Z} {c2 : list chunk} {s : ustate} {A : list Z} {p : Z}.
Hypothesis Bt : between h0 c1 n c2 s A p.
Notation bp := (after h0 c1).
Notation B := (frees (after h0 c1 + sizeof_Header * n) c2).

Let H := bt_heap _ _ _ _ _ _ _ Bt.

Lemma left_range x : x ∈ A ++ [p] -> base <= x < bp.
Proof.
  destruct (chunk_in_heap _ _ _ _ _ _ H) as (C1 & C2 & C3 & C4 & C5 & C6 & C7 & _).
  rewrite <- (bt_left _ _ _ _ _ _ _ Bt). intros [->|Hx]%elem_of_cons; [lia|].
  apply frees_range in Hx; [lia|done].
Qed.

Lemma right_range x : x ∈ B -> bp < x.
Proof.
  destruct (chunk_in_heap _ _ _ _ _ _ H) as (C1 & C2 & C3 & C4 & C5 & C6 & C7 & _).
  intros Hx. apply frees_range in Hx; [|done]. unfold sizeof_Header in Hx. lia.
Qed.

Lemma left_sorted : sorted (A ++ [p]).
Proof.
  destruct (chunk_in_heap _ _ _ _ _ _ H) as (C1 & C2 & C3 & C4 & C5 & C6 & C7 & _).
  rewrite <- (bt_left _ _ _ _ _ _ _ Bt). intros l1 x l2 y E Hy.
  destruct l1 as [|z l1]; simplify_eq/=.
  - apply frees_range in Hy; [lia|done].
  - by eapply (frees_sorted h0 c1).
Qed.

Lemma hd_left : hd p A = base.
Proof. pose proof (bt_left _ _ _ _ _ _ _ Bt) as E. destruct A; simpl in *; congruence. Qed.

Lemma between_place x q : x ∈ A ++ p :: B -> u_ptr s !! x = Some q ->
  place bp x q = bool_decide (x = p).
Proof.
  destruct (chunk_in_heap _ _ _ _ _ _ H) as (C1 & C2 & C3 & C4 & C5 & C6 & C7 & _).
  intros Hx Hq. apply (place_ring (u_ptr s) bp A p B).
  - apply hd_left.
  - lia.
  - apply Bt.
  - apply left_range.
  - apply right_range.
  - apply left_sorted.
  - by apply frees_sorted.
  - done.
  - done.
Qed.

Lemma nodes_eq : A ++ p :: B = base :: frees h0 (c1 ++ (n, true) :: c2).
Proof.
  rewrite frees_app. simpl. rewrite app_comm_cons, (bt_left _ _ _ _ _ _ _ Bt), <- (assoc_L (++)). done.
Qed.

Lemma right_linked : linked (u_ptr s) (p :: B) base.
Proof.
  pose proof (bt_ring _ _ _ _ _ _ _ Bt) as Hr. unfold ring in Hr.
  replace (hd 0 (A ++ p :: B)) with base in Hr; [by apply linked_app in Hr as [_ Hr]|].
  pose proof hd_left. by destruct A.
Qed.

(** The state after the first [if] of [free]. *)
Definition joined_right (n1 : Z) (c2' : list chunk) : ustate :=
  set_u_ptr (<[bp := hd base (frees (bp + sizeof_Header * n1) c2')]> (u_ptr s))
    (set_u_size (<[bp := n1]> (u_size s)) s).

Lemma wp_join_right (Q : unit -> ustate -> Prop) :
  Q tt (joined_right (merge_right n c2).1 (merge_right n c2).2) ->
  wp (if bp + sizeof_Header * n =? hd base B then
        let! qsize := get_size (hd base B) in
        put_size bp (n + qsize) ;;;
        let! qptr := get_ptr (hd base B) in
        put_ptr bp qptr
      else put_ptr bp (hd base B)) s Q.
Proof.
  destruct (chunk_in_heap _ _ _ _ _ _ H) as (C1 & C2 & C3 & C4 & C5 & C6 & C7 & C8 & C9).
  destruct right_linked as [_ Hl]. intros HQ.
  assert (Hnot : bp + sizeof_Header * n <> hd base B -> merge_right n c2 = (n, c2) ->
    wp (put_ptr bp (hd base B)) s Q).
  { intros _ E. rewrite E in HQ. apply wp_put_ptr; [done|]. unfold joined_right in HQ. cbn [fst snd] in HQ.
    rewrite (insert_id (u_size s)) in HQ by done. by destruct s. }
  destruct c2 as [|[k [|]] c2']; simpl hd in *; simpl merge_right in *.
  - rewrite (proj2 (Z.eqb_neq _ _)) by (unfold sizeof_Header; lia). apply Hnot; [unfold sizeof_Header; lia|done].
  - apply list.Forall_cons in C7 as [Hk C7]. cbn [fst] in Hk.
    assert (Hne : bp + sizeof_Header * n <> hd base (frees (bp + sizeof_Header * n + sizeof_Header * k) c2')).
    { destruct (frees _ c2') as [|y l] eqn:E; simpl; [unfold sizeof_Header; lia|].
      assert (Hy : y ∈ frees (bp + sizeof_Header * n + sizeof_Header * k) c2')
        by (rewrite E; apply list_elem_of_here).
      apply frees_range in Hy; [unfold sizeof_Header in *; lia|done]. }
    rewrite (proj2 (Z.eqb_neq _ _)) by done. by apply Hnot.
  - rewrite Z.eqb_refl. destruct Hl as [Hq _].
    assert (H' : heap h0 ((c1 ++ [(n, true)]) ++ (k, false) :: c2') s)
      by (rewrite <- (assoc_L (++)); exact H).
    destruct (chunk_in_heap _ _ _ _ _ _ H') as (D1 & D2 & D3 & D4 & D5 & D6 & D7 & D8 & D9).
    rewrite after_snoc in D3, D4, D8, D9.
    apply wp_bind. eapply wp_get_size; [exact D8|exact D9|]. apply wp_bind.
    apply wp_put_size; [done|unfold sizeof_Header, RAM in *; lia|]. apply wp_bind.
    eapply wp_get_ptr; [exact D8|exact Hq|]. apply wp_put_ptr; [done|].
    unfold joined_right in HQ. cbn [fst snd] in HQ.
    replace (bp + sizeof_Header * (n + k)) with (bp + sizeof_Header * n + sizeof_Header * k) in HQ by lia.
    exact HQ.
Qed.

(** What is to the right after the first [if]. *)
Record right_facts (n1 : Z) (c2' : list chunk) : Prop := {
  rf_n : 0 < n1;
  rf_pos : positive c2';
  rf_units : n1 + units c2' = n + units c2;
  rf_headers : headers (u_size s) (bp + sizeof_Header * n1) c2';
  rf_linked : linked (u_ptr s) (frees (bp + sizeof_Header * n1) c2') base;
  rf_range : forall x, x ∈ frees (bp + sizeof_Header * n1) c2' -> bp < x
}.

Lemma merge_right_facts : right_facts (merge_right n c2).1 (merge_right n c2).2.
Proof.
  destruct (chunk_in_heap _ _ _ _ _ _ H) as (C1 & C2 & C3 & C4 & C5 & C6 & C7 & C8 & C9).
  destruct right_linked as [_ Hl].
  pose proof (hp_headers _ _ _ H) as Hh. apply headers_app in Hh as [_ [_ Hh]].
  pose proof right_range as Hr.
  assert (Hsame : merge_right n c2 = (n, c2) -> right_facts (merge_right n c2).1 (merge_right n c2).2).
  { intros ->. by constructor. }
  destruct c2 as [|[k [|]] c2'] eqn:Ec; [by apply Hsame|by apply Hsame|]. simpl merge_right. cbn [fst snd].
  apply list.Forall_cons in C7 as [Hk C7]. cbn [fst] in Hk. destruct Hl as [_ Hl]. destruct Hh as [_ Hh].
  assert (E : bp + sizeof_Header * (n + k) = bp + sizeof_Header * n + sizeof_Header * k) by lia.
  constructor; rewrite ?E; [lia|exact C7|rewrite Ec, units_cons; lia|exact Hh|exact Hl|].
  intros x Hx. apply Hr. simpl. by apply list_elem_of_further.
Qed.

(** The heap after [free], when the chunk to the left is used and when it is
    free. *)
Lemma heap_after_used n1 c2' : right_facts n1 c2' ->
  coalesced (c1 ++ (n1, false) :: c2') -> positive (c1 ++ (n1, false) :: c2') ->
  heap h0 (c1 ++ (n1, false) :: c2')
    (set_u_freep p (set_u_ptr (<[p := bp]> (u_ptr (joined_right n1 c2'))) (joined_right n1 c2'))).
Proof.
  intros [R1 R2 R3 R4 R5 R6] Hco Hpo.
  destruct (chunk_in_heap _ _ _ _ _ _ H) as (C1 & C2 & C3 & C4 & C5 & C6 & C7 & C8 & C9).
  destruct H as [H1 H2 H3 H4 H5 H6 H7 H8 H9].
  assert (Hl : forall x, x ∈ A -> x < p).
  { intros x Hx. apply list_elem_of_split in Hx as (l1 & l2 & E). apply (left_sorted l1 x (l2 ++ [p])).
    - by rewrite E, <- (assoc_L (++)).
    - set_solver. }
  pose proof (left_range p ltac:(set_solver)) as Hp.
  assert (HA : forall x, x ∈ A -> x < bp) by (intros x Hx; specialize (Hl x Hx); lia).
  assert (E : base :: frees h0 (c1 ++ (n1, false) :: c2') =
    A ++ p :: bp :: frees (bp + sizeof_Header * n1) c2').
  { rewrite frees_app. simpl. by rewrite app_comm_cons, (bt_left _ _ _ _ _ _ _ Bt), <- (assoc_L (++)). }
  constructor; cbn [u_brk u_size u_ptr u_freep set_u_freep set_u_ptr joined_right set_u_size]; try done.
  - rewrite H2. unfold after. rewrite !units_app, !units_cons. lia.
  - rewrite lookup_insert_ne; [done|lia].
  - apply headers_app in H7 as [H7 _]. apply headers_app. split.
    + apply headers_insert; [done|by right|done].
    + split; [by rewrite lookup_insert_eq|]. apply headers_insert; [done| |done].
      left. unfold sizeof_Header. lia.
  - rewrite E. unfold ring. replace (hd 0 (A ++ p :: _)) with base
      by (pose proof hd_left; by destruct A).
    pose proof (bt_ring _ _ _ _ _ _ _ Bt) as Hr. unfold ring in Hr. apply linked_app in Hr as [Hr _].
    apply linked_app. split; [|split; [|split]].
    + apply linked_insert; [intros Hx; specialize (Hl _ Hx); lia|].
      apply linked_insert; [intros Hx; specialize (HA _ Hx); lia|exact Hr].
    + by rewrite lookup_insert_eq.
    + rewrite lookup_insert_ne by lia. by rewrite lookup_insert_eq.
    + apply linked_insert; [intros Hx; specialize (R6 _ Hx); lia|].
      apply linked_insert; [intros Hx; specialize (R6 _ Hx); lia|done].
  - rewrite E. set_solver.
Qed.

Lemma heap_after_free c' k n1 c2' : c1 = c' ++ [(k, false)] -> right_facts n1 c2' ->
  coalesced (c' ++ (k + n1, false) :: c2') -> positive (c' ++ (k + n1, false) :: c2') ->
  p = after h0 c' /\
  heap h0 (c' ++ (k + n1, false) :: c2')
    (set_u_freep p (set_u_ptr
      (<[p := hd base (frees (bp + sizeof_Header * n1) c2')]> (u_ptr (joined_right n1 c2')))
      (set_u_size (<[p := k + n1]> (u_size (joined_right n1 c2'))) (joined_right n1 c2')))).
Proof.
  intros Ec [R1 R2 R3 R4 R5 R6] Hco Hpo.
  pose proof (bt_left _ _ _ _ _ _ _ Bt) as El. rewrite Ec, frees_app in El. simpl in El.
  rewrite app_comm_cons in El. apply app_inj_tail in El as [EA Ep]. split; [done|].
  destruct (chunk_in_heap _ _ _ _ _ _ H) as (C1 & C2 & C3 & C4 & C5 & C6 & C7 & C8 & C9).
  destruct H as [H1 H2 H3 H4 H5 H6 H7 H8 H9]. rewrite Ec in C6.
  apply Forall_app in C6 as [P1 P2]. apply list.Forall_cons in P2 as [Hk _]. cbn [fst] in Hk.
  assert (Hbp : bp = p + sizeof_Header * k) by (by rewrite Ec, after_snoc, Ep).
  assert (Hend : bp + sizeof_Header * n1 = p + sizeof_Header * (k + n1)) by lia.
  pose proof (left_range p ltac:(set_solver)) as Hp.
  assert (HA : forall x, x ∈ A -> x < p).
  { intros x Hx. apply list_elem_of_split in Hx as (l1 & l2 & E). apply (left_sorted l1 x (l2 ++ [p])).
    - by rewrite E, <- (assoc_L (++)).
    - set_solver. }
  assert (E : base :: frees h0 (c' ++ (k + n1, false) :: c2') =
    A ++ p :: frees (bp + sizeof_Header * n1) c2').
  { rewrite frees_app. simpl. rewrite app_comm_cons, EA, Ep, Hend. done. }
  constructor; cbn [u_brk u_size u_ptr u_freep set_u_freep set_u_ptr joined_right set_u_size]; try done.
  - rewrite H2. unfold after. rewrite Ec, <- (assoc_L (++)), !units_app. rewrite !units_cons. change (units []) with 0. lia.
  - pose proof (after_mono h0 c' P1). rewrite !lookup_insert_ne by (rewrite ?Ep; lia). done.
  - rewrite Ec, <- (assoc_L (++)) in H7. apply headers_app in H7 as [H7 _].
    apply headers_app. split; [|split].
    + apply headers_insert; [done|right; lia|]. apply headers_insert; [done| |done]. right.
      unfold sizeof_Header in *. lia.
    + rewrite <- Ep. by rewrite lookup_insert_eq.
    + rewrite Ep, <- Hend. unfold sizeof_Header in *.
      apply headers_insert; [done|left; lia|]. apply headers_insert; [done|left; lia|done].
  - rewrite E. unfold ring. replace (hd 0 (A ++ p :: _)) with base
      by (pose proof hd_left; by destruct A).
    pose proof (bt_ring _ _ _ _ _ _ _ Bt) as Hr. unfold ring in Hr. apply linked_app in Hr as [Hr _].
    apply linked_app. split; [|split].
    + apply linked_insert; [intros Hx; specialize (HA _ Hx); lia|].
      apply linked_insert; [intros Hx; specialize (HA _ Hx); lia|exact Hr].
    + by rewrite lookup_insert_eq.
    + apply linked_insert; [intros Hx; specialize (R6 _ Hx); lia|].
      apply linked_insert; [intros Hx; specialize (R6 _ Hx); lia|done].
  - rewrite E. set_solver.
Qed.
End free.

Lemma free_spec h0 c1 n c2 s (Q : unit -> ustate -> Prop) :
  heap h0 (c1 ++ (n, true) :: c2) s ->
  (forall s', heap h0 (freed c1 n c2) s' -> u_brk s' = u_brk s -> Q tt s') ->
  wp (free (after h0 c1 + sizeof_Header)) s Q.
Proof.
  intros H HQ. destruct (between_exists _ _ _ _ _ H) as (A & p & Bt).
  destruct (chunk_in_heap _ _ _ _ _ _ H) as (C1 & C2 & C3 & C4 & C5 & C6 & C7 & C8 & C9).
  set (bp := after h0 c1) in *. unfold free. replace (bp + sizeof_Header - sizeof_Header) with bp by lia.
  pose proof (nodes_eq Bt) as En. fold bp in En.
  apply wp_bind, wp_gets. apply wp_bind.
  eapply (wp_walk s (base :: frees h0 (c1 ++ (n, true) :: c2)) _ p bp);
    [apply H|apply H|rewrite <- En; set_solver| | | |].
  { intros x Hx. by eapply node_in_mem. }
  { rewrite <- En. apply (between_place Bt). }
  { simpl length. pose proof (length_frees h0 _ (hp_pos _ _ _ H)).
    pose proof (hp_brk _ _ _ H) as Hb. unfold after, sizeof_Header in *. unfold RAM in *. lia. }
  apply wp_bind. eapply wp_get_size; [exact C8|exact C9|].
  destruct (right_linked Bt) as [Hq Hl]. fold bp in Hq, Hl.
  assert (Hpm : in_mem s p).
  { eapply node_in_mem; [exact H|]. rewrite <- En. set_solver. }
  apply wp_bind. eapply wp_get_ptr; [exact Hpm|exact Hq|].
  apply wp_bind. apply (wp_join_right Bt). fold bp.
  pose proof (merge_right_facts Bt) as Rf.
  pose proof (freed_coalesced _ _ _ (hp_coalesced _ _ _ H)) as Hco.
  pose proof (freed_positive _ _ _ (hp_pos _ _ _ H)) as Hpo. unfold freed in HQ, Hco, Hpo.
  destruct (merge_right n c2) as [n1 c2']. cbn [fst snd] in *.
  set (s1 := joined_right n1 c2').
  assert (Hm1 : forall x, in_mem s x -> in_mem s1 x) by done.
  assert (Hp1 : u_ptr s1 !! bp = Some (hd base (frees (bp + sizeof_Header * n1) c2'))).
  { unfold s1, joined_right. cbn. apply lookup_insert_eq. }
  assert (Hb1 : u_size s1 !! bp = Some n1) by apply lookup_insert_eq.
  pose proof (left_range Bt p ltac:(set_solver)) as Hpr. fold bp in Hpr.
  assert (Hsp : u_size s1 !! p = u_size s !! p) by (apply lookup_insert_ne; lia).
  pose proof (bt_left _ _ _ _ _ _ _ Bt) as El.
  destruct (used_last_cases c1) as [Hu|(c' & k & Ec)].
  - rewrite merge_left_used_last in HQ, Hco, Hpo by done.
    assert (Hps : exists j, u_size s !! p = Some j /\ p + sizeof_Header * j <> bp).
    { assert (Hpin : p ∈ base :: frees h0 c1) by (rewrite El; set_solver).
      apply elem_of_cons in Hpin as [->|Hpin]; [exists 0; split; [apply H|lia]|].
      apply frees_chunk in Hpin as (d1 & j & d2 & E1 & E2). exists j.
      assert (Hd2 : d2 <> []).
      { intros ->. destruct Hu as [->|(c & i & Ec)]; [by destruct d1|].
        rewrite Ec in E1. apply app_inj_tail in E1 as [_ E1]. done. }
      rewrite E1, <- (assoc_L (++)) in H.
      destruct (chunk_in_heap _ _ _ _ _ _ H) as (_ & _ & _ & _ & _ & _ & D7 & _ & D9).
      rewrite E2. split; [done|]. unfold bp. rewrite E1.
      replace (d1 ++ (j, false) :: d2) with ((d1 ++ [(j, false)]) ++ d2) by by rewrite <- (assoc_L (++)).
      rewrite after_app, after_snoc. apply Forall_app in D7 as [D7 _].
      destruct d2 as [|[i u] d2]; [done|]. apply list.Forall_cons in D7 as [Hi D7]. cbn [fst] in Hi.
      pose proof (units_nonneg d2 D7). unfold after, sizeof_Header. rewrite units_cons. lia. }
    destruct Hps as (j & Hj & Hne).
    apply wp_bind. eapply wp_get_size; [by apply Hm1|by rewrite Hsp|].
    rewrite (proj2 (Z.eqb_neq _ _)) by done. apply wp_bind, wp_put_ptr; [by apply Hm1|].
    apply wp_modify. apply HQ; [|done]. by apply (heap_after_used Bt).
  - rewrite Ec, merge_left_free in HQ, Hco, Hpo.
    destruct (heap_after_free Bt c' k n1 c2' Ec Rf Hco Hpo) as [Ep Hh].
    assert (Hpk : u_size s !! p = Some k).
    { rewrite Ec, <- (assoc_L (++)) in H.
      destruct (chunk_in_heap _ _ _ _ _ _ H) as (_ & _ & _ & _ & _ & _ & _ & _ & D9). by rewrite Ep. }
    apply wp_bind. eapply wp_get_size; [by apply Hm1|by rewrite Hsp|].
    assert (Hbp : p + sizeof_Header * k = bp) by (unfold bp; by rewrite Ec, after_snoc, Ep).
    rewrite (proj2 (Z.eqb_eq _ _) Hbp).
    apply wp_bind, wp_bind. eapply wp_get_size; [by apply Hm1|exact Hb1|].
    pose proof (hp_brk _ _ _ Hh) as Hbrk. cbn [u_brk set_u_freep set_u_ptr set_u_size joined_right] in Hbrk.
    apply wp_bind. apply wp_put_size; [by apply Hm1| |].
    { unfold positive in Hpo. apply Forall_app in Hpo as [Q1 Q2]. apply list.Forall_cons in Q2 as [Q2 Q3].
      cbn [fst] in Q2. pose proof (units_nonneg _ Q1). pose proof (units_nonneg _ Q3).
      unfold after in Hbrk. rewrite units_app, units_cons in Hbrk. unfold sizeof_Header, RAM in *. lia. }
    apply wp_bind. eapply wp_get_ptr; [by apply Hm1|exact Hp1|]. apply wp_put_ptr; [by apply Hm1|].
    apply wp_modify. by apply HQ.
Qed.

(** *** [morecore] *)

Lemma heap_grow h0 cs n s : heap h0 cs s -> 0 < n -> u_brk s + sizeof_Header * n <= RAM ->
  heap h0 (cs ++ [(n, true)])
    (set_u_size (<[u_brk s := n]> (u_size s)) (set_u_brk (u_brk s + sizeof_Header * n) s)).
Proof.
  intros [H1 H2 H3 H4 H5 H6 H7 H8 H9] Hn Hr.
  assert (E : frees h0 (cs ++ [(n, true)]) = frees h0 cs) by (rewrite frees_app; simpl; apply app_nil_r).
  pose proof (after_mono h0 cs H4).
  constructor; cbn [u_brk u_size u_ptr u_freep set_u_brk set_u_size]; rewrite ?E; try done.
  - by rewrite after_snoc, H2.
  - apply Forall_app. split; [done|]. by constructor.
  - apply coalesced_glue; [done|done|]. by right; right.
  - rewrite lookup_insert_ne; [done|]. rewrite H2. unfold sizeof_Header in *. lia.
  - apply headers_app. split; [apply headers_insert; [done|right; lia|done]|].
    split; [|done]. rewrite <- H2. apply lookup_insert_eq.
Qed.

(** What [sbrk] grants stays within the machine's memory. *)
Hypothesis grow_ram : forall old new, grow old new = true -> new <= RAM.

Lemma morecore_spec h0 cs nu s (Q : Z -> ustate -> Prop) :
  heap h0 cs s -> 0 < nu < 2 ^ 27 ->
  (grow (u_brk s) (u_brk s + sizeof_Header * Z.max nu 4096) = false -> Q 0 s) ->
  (forall s', grow (u_brk s) (u_brk s + sizeof_Header * Z.max nu 4096) = true ->
     heap h0 (freed cs (Z.max nu 4096) []) s' -> Q (u_freep s') s') ->
  wp (morecore grow nu) s Q.
Proof.
  intros H Hnu HQ0 HQ1. unfold morecore.
  replace (if nu <? 4096 then 4096 else nu) with (Z.max nu 4096)
    by (destruct (Z.ltb_spec nu 4096); lia).
  set (n := Z.max nu 4096) in *. assert (Hn : 4096 <= n < 2 ^ 27) by (unfold n; lia).
  pose proof (hp_ram _ _ _ H) as Hram. unfold RAM in Hram.
  destruct (node_in_mem h0 cs s base H (list_elem_of_here _ _)) as [_ Hb].
  destruct (hp_base _ _ _ H) as [B1 B2]. unfold sizeof_Header in *.
  unfold sbrk. rewrite s32_small by (unfold is_int, INT_MIN, INT_MAX; lia).
  apply wp_bind, wp_bind, wp_gets. rewrite (u32_small (u_brk s + n * 16)) by lia.
  rewrite (proj2 (Z.ltb_lt 0 _)), (proj2 (Z.ltb_ge _ _)) by lia. replace (n * 16) with (16 * n) by lia.
  destruct (grow (u_brk s) (u_brk s + 16 * n)) eqn:Hg.
  - apply wp_bind, wp_modify, wp_ret. rewrite (proj2 (Z.eqb_neq (u_brk s) (-1))) by lia.
    apply wp_bind. apply wp_put_size.
    { unfold in_mem, sizeof_Header. cbn. lia. }
    { lia. }
    pose proof (heap_grow h0 cs n s H ltac:(lia) (grow_ram _ _ Hg)) as Hh.
    apply wp_bind. unfold sizeof_Header in *.
    assert (E : u_brk s + 16 = after h0 cs + sizeof_Header) by (by rewrite (hp_brk _ _ _ H)).
    rewrite E. eapply free_spec; [exact Hh|]. intros s' H' _. apply wp_gets. by apply HQ1.
  - apply wp_ret. rewrite Z.eqb_refl. apply wp_ret. by apply HQ0.
Qed.

(** *** The ring *)

Lemma sorted_nodup l : sorted l -> NoDup l.
Proof.
  induction l as [|x l IH]; intros Hs; [constructor|]. apply list.NoDup_cons. split.
  - intros Hx. pose proof (Hs [] x l x eq_refl Hx). lia.
  - apply IH. intros l1 y l2 z E. apply (Hs (x :: l1)). by rewrite E.
Qed.

Lemma nodes_sorted h0 cs s : heap h0 cs s -> sorted (base :: frees h0 cs).
Proof.
  intros H l1 x l2 y E Hy. destruct (hp_base _ _ _ H) as [B1 B2].
  destruct l1 as [|z l1]; simplify_eq/=.
  - apply frees_range in Hy; [unfold sizeof_Header in *; lia|apply H].
  - eapply frees_sorted; [apply H|done|done].
Qed.

(** A node has one predecessor. *)
Lemma ring_pred m l x y v : ring m l -> NoDup l -> x ∈ l -> y ∈ l ->
  m !! x = Some v -> m !! y = Some v -> x = y.
Proof.
  intros Hr Hnd Hx Hy Ex Ey. unfold ring in Hr.
  destruct (linked_next _ _ _ _ Hr Hx) as (l1 & l2 & E1 & F1).
  destruct (linked_next _ _ _ _ Hr Hy) as (k1 & k2 & E2 & F2).
  assert (Hh : hd (hd 0 l) l2 = hd (hd 0 l) k2) by congruence. clear F1 F2 Ex Ey Hr.
  assert (Hne : forall j1 w j2 j, l = j1 ++ w :: j2 -> j2 = hd 0 l :: j -> False).
  { intros j1 w j2 j E ->. destruct l as [|z l]; [by destruct j1|]. simpl in E.
    apply list.NoDup_cons in Hnd as [Hni _]. apply Hni.
    destruct j1; simplify_eq/=; set_solver. }
  destruct l2 as [|u l2], k2 as [|w k2]; simpl in Hh.
  - rewrite E1 in E2. apply app_inj_tail in E2. tauto.
  - exfalso. eapply (Hne _ _ _ k2 E2). congruence.
  - exfalso. eapply (Hne _ _ _ l2 E1). congruence.
  - subst w. assert (L1 : l !! length (l1 ++ [x]) = Some u).
    { rewrite E1. replace (l1 ++ x :: u :: l2) with ((l1 ++ [x]) ++ u :: l2) by (by rewrite <- (assoc_L (++))).
      by apply list_lookup_middle. }
    assert (L2 : l !! length (k1 ++ [y]) = Some u).
    { rewrite E2. replace (k1 ++ y :: u :: k2) with ((k1 ++ [y]) ++ u :: k2) by (by rewrite <- (assoc_L (++))).
      by apply list_lookup_middle. }
    pose proof (proj1 (NoDup_alt l) Hnd _ _ _ L1 L2) as HL. rewrite !length_app in HL. simpl in HL.
    rewrite E1 in E2. apply app_inj_1 in E2 as [_ E2]; [|lia]. congruence.
Qed.

(** *** Taking a chunk *)

(** [n] headers from the end of a free chunk of [k]. *)
Definition carve (k n : Z) : list chunk :=
  if k =? n then [(n, true)] else [(k - n, false); (n, true)].

Lemma chunk_nodes h0 d1 n d2 s : heap h0 (d1 ++ (n, false) :: d2) s ->
  exists X q0, base :: frees h0 d1 = X ++ [q0] /\ hd q0 X = base /\
    base :: frees h0 (d1 ++ (n, false) :: d2) =
      X ++ q0 :: after h0 d1 :: frees (after h0 d1 + sizeof_Header * n) d2.
Proof.
  intros H. destruct (exists_last (l := base :: frees h0 d1)) as (X & q0 & E); [done|].
  exists X, q0. split; [done|]. split; [destruct X; simpl in *; congruence|].
  rewrite frees_app. simpl. by rewrite app_comm_cons, E, <- (assoc_L (++)).
Qed.

Lemma take_whole h0 d1 n d2 s prevp q : heap h0 (d1 ++ (n, false) :: d2) s ->
  prevp ∈ base :: frees h0 (d1 ++ (n, false) :: d2) -> u_ptr s !! prevp = Some (after h0 d1) ->
  u_ptr s !! after h0 d1 = Some q ->
  heap h0 (d1 ++ (n, true) :: d2) (set_u_freep prevp (set_u_ptr (<[prevp := q]> (u_ptr s)) s)).
Proof.
  intros H Hin Hpr Hq. destruct (chunk_nodes _ _ _ _ _ H) as (X & q0 & EX & Ehd & EN).
  pose proof (sorted_nodup _ (nodes_sorted _ _ _ H)) as Hnd. pose proof (hp_ring _ _ _ H) as Hr.
  rewrite EN in Hnd, Hr, Hin. pose proof Hr as Hl. unfold ring in Hl.
  replace (hd 0 (X ++ q0 :: _)) with base in Hl by (by destruct X).
  apply linked_app in Hl as (Hl1 & Hq0 & Hp & Hl2).
  assert (prevp = q0) as ->.
  { eapply ring_pred; [exact Hr|exact Hnd|exact Hin|set_solver|exact Hpr|exact Hq0]. }
  rewrite Hp in Hq. injection Hq as <-.
  assert (EN' : base :: frees h0 (d1 ++ (n, true) :: d2) =
    X ++ q0 :: frees (after h0 d1 + sizeof_Header * n) d2).
  { rewrite frees_app. simpl. by rewrite app_comm_cons, EX, <- (assoc_L (++)). }
  destruct H as [H1 H2 H3 H4 H5 H6 H7 H8 H9].
  constructor; cbn [u_brk u_size u_ptr u_freep set_u_freep set_u_ptr]; try done.
  - rewrite H2. unfold after. by rewrite !units_app, !units_cons.
  - apply Forall_app in H4 as [P1 P2]. apply list.Forall_cons in P2 as [P2 P3].
    apply Forall_app. split; [done|]. by constructor.
  - apply coalesced_app in H5 as [G1 G2]. apply coalesced_tail in G2 as [G2 _].
    apply coalesced_glue; [done|done|]. by do 2 right.
  - apply headers_app in H7 as [G1 G2]. by apply headers_app.
  - rewrite EN'. unfold ring. replace (hd 0 (X ++ q0 :: _)) with base by (by destruct X).
    apply list.NoDup_app in Hnd as (_ & D1 & D2). apply list.NoDup_cons in D2 as [D2 D3].
    apply linked_app. split; [|split].
    + apply linked_insert; [|done]. intros Hx. apply (D1 _ Hx), list_elem_of_here.
    + apply lookup_insert_eq.
    + apply linked_insert; [set_solver|done].
  - rewrite EN'. set_solver.
Qed.

Lemma take_part h0 d1 k n d2 s prevp : heap h0 (d1 ++ (k, false) :: d2) s -> 0 < n < k ->
  prevp ∈ base :: frees h0 (d1 ++ (k, false) :: d2) ->
  heap h0 (d1 ++ (k - n, false) :: (n, true) :: d2)
    (set_u_freep prevp (set_u_size (<[after h0 d1 + sizeof_Header * (k - n) := n]>
      (<[after h0 d1 := k - n]> (u_size s))) s)).
Proof.
  intros H Hn Hin.
  destruct (chunk_in_heap _ _ _ _ _ _ H) as (C1 & C2 & C3 & C4 & C5 & C6 & C7 & C8 & C9).
  assert (Eend : after h0 d1 + sizeof_Header * (k - n) + sizeof_Header * n =
    after h0 d1 + sizeof_Header * k) by lia.
  assert (EN : frees h0 (d1 ++ (k - n, false) :: (n, true) :: d2) = frees h0 (d1 ++ (k, false) :: d2)).
  { rewrite !frees_app. simpl. by rewrite Eend. }
  destruct H as [H1 H2 H3 H4 H5 H6 H7 H8 H9].
  constructor; cbn [u_brk u_size u_ptr u_freep set_u_freep set_u_size]; rewrite ?EN; try done.
  - rewrite H2. unfold after. rewrite !units_app, !units_cons. lia.
  - apply Forall_app in H4 as [P1 P2]. apply list.Forall_cons in P2 as [P2 P3].
    apply Forall_app. split; [done|]. constructor; [cbn; lia|]. constructor; [cbn; lia|done].
  - destruct (coalesced_app _ _ H5) as [G1 [G2 _]%coalesced_tail].
    destruct (used_last_cases d1) as [Hu|(c & j & Ed)].
    + apply coalesced_glue; [done|done|]. destruct Hu; auto.
    + exfalso. rewrite Ed, <- (assoc_L (++)) in H5. by apply coalesced_app in H5 as [_ []].
  - unfold sizeof_Header in *. rewrite !lookup_insert_ne by lia. done.
  - apply headers_app in H7 as [G1 [_ G2]]. unfold sizeof_Header in *. apply headers_app. split; [|split; [|split]].
    + apply headers_insert; [done|right; lia|]. apply headers_insert; [done|right; lia|done].
    + rewrite lookup_insert_ne by lia. apply lookup_insert_eq.
    + apply lookup_insert_eq.
    + unfold sizeof_Header. rewrite Eend. apply headers_insert; [done|left; lia|].
      apply headers_insert; [done|left; lia|done].
Qed.

(** *** [malloc] *)

(** No free chunk has [n] headers. *)
Definition none_fits (cs : list chunk) (n : Z) : Prop := forall k, (k, false) ∈ cs -> k < n.

Lemma freed_last cs n : positive cs -> exists c m, freed cs n [] = c ++ [(m, false)] /\ n <= m.
Proof.
  intros Hp. unfold freed. simpl merge_right. cbv iota beta.
  destruct (used_last_cases cs) as [Hu|(c & k & ->)].
  - rewrite merge_left_used_last by done. by exists cs, n.
  - rewrite merge_left_free. apply Forall_app in Hp as [_ Hk]. apply list.Forall_cons in Hk as [Hk _].
    cbn [fst] in Hk. exists c, (k + n). split; [done|lia].
Qed.

Lemma linked_step m l z d x y r : linked m l z -> l ++ [z] = d ++ x :: y :: r -> m !! x = Some y.
Proof.
  revert d. induction l as [|a l IH]; intros d H E; simpl in *.
  - destruct d as [|? [|]]; simplify_eq/=.
  - destruct H as [H1 H2]. destruct d as [|b d]; simplify_eq/=; [|by eapply IH].
    rewrite H1. destruct l; simplify_eq/=; done.
Qed.

Lemma in_front (l : list Z) z X y q r : l ++ [z] = X ++ y :: q :: r -> y ∈ l.
Proof.
  destruct (exists_last (l := q :: r)) as (r' & w & E); [done|]. rewrite E, app_comm_cons, (assoc_L (++)).
  intros [-> _]%app_inj_tail. set_solver.
Qed.

(** The nodes in the order in which [malloc] visits them: [T] and [freep]. *)
Lemma rotated h0 cs s : heap h0 cs s -> exists T,
  linked (u_ptr s) (u_freep s :: T) (u_freep s) /\ NoDup (u_freep s :: T) /\
  forall x, x ∈ u_freep s :: T <-> x ∈ base :: frees h0 cs.
Proof.
  intros H. pose proof (hp_ring _ _ _ H) as Hr.
  pose proof (sorted_nodup _ (nodes_sorted _ _ _ H)) as Hnd.
  pose proof (hp_freep _ _ _ H) as Hf. apply list_elem_of_split in Hf as (l1 & l2 & E).
  rewrite E in *. exists (l2 ++ l1). apply ring_rotate in Hr. split; [exact Hr|]. split.
  - change (u_freep s :: l2 ++ l1) with ((u_freep s :: l2) ++ l1). by rewrite (Permutation_app_comm _ l1).
  - intros x. set_solver.
Qed.

Lemma node_size h0 cs s x : heap h0 cs s -> x ∈ base :: frees h0 cs ->
  (x = base /\ u_size s !! x = Some 0) \/
  exists d1 n d2, cs = d1 ++ (n, false) :: d2 /\ x = after h0 d1 /\ u_size s !! x = Some n.
Proof.
  intros H [->|Hx]%elem_of_cons; [left; split; [done|apply H]|right].
  apply frees_chunk in Hx as (d1 & n & d2 & -> & ->). exists d1, n, d2. split_and!; try done.
  by eapply chunk_in_heap.
Qed.

Lemma chunk_node h0 d1 n d2 : after h0 d1 ∈ base :: frees h0 (d1 ++ (n, false) :: d2).
Proof. rewrite frees_app. simpl. set_solver. Qed.

(** A position of the loop: [prevp] and [p], of which [d] were visited. *)
Record visiting (h0 : Z) (cs : list chunk) (s : ustate) (nunits prevp p : Z) (r : list Z) : Prop := {
  vi_heap : heap h0 cs s;
  vi_order : exists T d, linked (u_ptr s) (u_freep s :: T) (u_freep s) /\ NoDup (u_freep s :: T) /\
    (forall x, x ∈ u_freep s :: T <-> x ∈ base :: frees h0 cs) /\
    (u_freep s :: T) ++ [u_freep s] = d ++ prevp :: p :: r /\
    forall x n, x ∈ tail (d ++ [prevp]) -> u_size s !! x = Some n -> n < nunits
}.

Lemma visiting_start h0 cs s nunits : heap h0 cs s -> exists p r,
  u_ptr s !! u_freep s = Some p /\ visiting h0 cs s nunits (u_freep s) p r /\
  Z.of_nat (length r) < 2 ^ 30.
Proof.
  intros H. destruct (rotated _ _ _ H) as (T & Hl & Hnd & Hiff).
  assert (Hlen : Z.of_nat (length T) < 2 ^ 30).
  { assert (Hs : u_freep s :: T ≡ₚ base :: frees h0 cs).
    { apply NoDup_Permutation; [done|apply sorted_nodup; by eapply nodes_sorted|done]. }
    apply Permutation_length in Hs. simpl in Hs.
    pose proof (length_frees h0 cs (hp_pos _ _ _ H)). pose proof (hp_brk _ _ _ H) as Hb.
    pose proof (hp_ram _ _ _ H). destruct (hp_base _ _ _ H). unfold after, sizeof_Header, RAM in *. lia. }
  assert (E : exists p r, (u_freep s :: T) ++ [u_freep s] = [] ++ u_freep s :: p :: r /\
    (length r <= length T)%nat).
  { destruct T as [|p T]; simpl; [by exists (u_freep s), []|].
    exists p, (T ++ [u_freep s]). split; [done|]. rewrite length_app. simpl. lia. }
  destruct E as (p & r & E & Hr). exists p, r. split; [by eapply linked_step|]. split; [|lia].
  constructor; [done|]. exists T, []. split_and!; try done.
  intros x n Hx. by apply not_elem_of_nil in Hx.
Qed.

Lemma visiting_in h0 cs s nunits prevp p r : visiting h0 cs s nunits prevp p r ->
  prevp ∈ base :: frees h0 cs /\ p ∈ base :: frees h0 cs /\ u_ptr s !! prevp = Some p.
Proof.
  intros [H (T & d & Hl & Hnd & Hiff & E & Hs)].
  assert (Hin : forall x, x ∈ d ++ prevp :: p :: r -> x ∈ base :: frees h0 cs).
  { intros x Hx. rewrite <- E in Hx. apply Hiff. set_solver. }
  split_and!; [apply Hin; set_solver|apply Hin; set_solver|by eapply linked_step].
Qed.

(** The next position, or all nodes were visited. *)
Lemma visiting_next h0 cs s nunits prevp p r n : visiting h0 cs s nunits prevp p r ->
  u_size s !! p = Some n -> n < nunits ->
  (p = u_freep s /\ none_fits cs nunits) \/
  (p <> u_freep s /\ exists q r', r = q :: r' /\ u_ptr s !! p = Some q /\
     visiting h0 cs s nunits p q r').
Proof.
  intros [H (T & d & Hl & Hnd & Hiff & E & Hs)] Hn Hlt.
  assert (Hs' : forall x n, x ∈ tail (d ++ [prevp]) ++ [p] -> u_size s !! x = Some n -> n < nunits).
  { intros x n' [Hx|Hx%list_elem_of_singleton]%elem_of_app Hx'; [by eapply Hs|]. subst x. congruence. }
  destruct r as [|q r'].
  - left. assert (E' : (u_freep s :: T) ++ [u_freep s] = (d ++ [prevp]) ++ [p])
      by (by rewrite E, <- (assoc_L (++))).
    apply app_inj_tail in E' as [E1 E2]. split; [done|]. intros k Hk.
    apply list_elem_of_split in Hk as (d1 & d2 & ->).
    assert (Hx : after h0 d1 ∈ u_freep s :: T) by (apply Hiff, chunk_node).
    apply (Hs' (after h0 d1)); [|by eapply chunk_in_heap].
    apply elem_of_app. apply elem_of_cons in Hx as [Hx|Hx].
    + right. apply list_elem_of_singleton. congruence.
    + left. rewrite <- E1. exact Hx.
  - right. split.
    + intros ->. assert (Hx : u_freep s ∈ T).
      { destruct d as [|b d]; simpl in E; injection E as E1 E.
        - by apply (in_front T (u_freep s) [] (u_freep s) q r').
        - apply (in_front T (u_freep s) (d ++ [prevp]) (u_freep s) q r'). by rewrite E, <- (assoc_L (++)). }
      by apply list.NoDup_cons in Hnd as [? _].
    + exists q, r'. split; [done|]. split.
      * apply (linked_step _ _ _ (d ++ [prevp]) p q r' Hl). by rewrite E, <- (assoc_L (++)).
      * constructor; [done|]. exists T, (d ++ [prevp]). split_and!; try done.
        -- by rewrite E, <- (assoc_L (++)).
        -- destruct d; exact Hs'.
Qed.

(** What [malloc] of [n] headers returns, and the heap it leaves: a part of a
    free chunk, after [morecore] when no chunk was large enough. *)
Definition malloc_post (h0 : Z) (cs : list chunk) (n : Z) (r : Z) (s' : ustate) : Prop :=
  let more := Z.max n 4096 in
  (r = 0 /\ none_fits cs n /\ heap h0 cs s' /\
   grow (after h0 cs) (after h0 cs + sizeof_Header * more) = false) \/
  (exists cs1 d1 k d2, (cs1 = cs \/ none_fits cs n /\ cs1 = freed cs more []) /\
     cs1 = d1 ++ (k, false) :: d2 /\ n <= k /\
     r = after h0 d1 + sizeof_Header * (k - n) + sizeof_Header /\
     heap h0 (d1 ++ carve k n ++ d2) s').

Lemma wp_take h0 cs cs1 s n prevp p size r (Q : Z -> ustate -> Prop) :
  visiting h0 cs1 s n prevp p r -> 0 < n -> u_size s !! p = Some size -> n <= size ->
  cs1 = cs \/ none_fits cs n /\ cs1 = freed cs (Z.max n 4096) [] ->
  (forall v s', malloc_post h0 cs n v s' -> Q v s') ->
  wp (malloc_take n prevp p size) s Q.
Proof.
  intros Hv Hn Hsz Hle Hcs HQ. unfold malloc_take. pose proof (vi_heap _ _ _ _ _ _ _ Hv) as H.
  destruct (visiting_in _ _ _ _ _ _ _ Hv) as (Hp1 & Hp2 & Hp3).
  destruct (node_size _ _ _ _ H Hp2) as [[-> Hz]|(d1 & k & d2 & E & -> & Hk)]; [rewrite Hsz in Hz; injection Hz; lia|].
  rewrite Hsz in Hk. injection Hk as ->.
  assert (Hpost : forall s', heap h0 (d1 ++ carve k n ++ d2) s' ->
    malloc_post h0 cs n (after h0 d1 + sizeof_Header * (k - n) + sizeof_Header) s').
  { intros s' H'. right. exists cs1, d1, k, d2. by split_and!. }
  unfold carve in Hpost. rewrite E in H, Hp1.
  destruct (chunk_in_heap _ _ _ _ _ _ H) as (C1 & C2 & C3 & C4 & C5 & C6 & C7 & C8 & C9).
  destruct (Z.eqb_spec k n) as [->|Hne].
  - destruct (chunk_nodes _ _ _ _ _ H) as (X & q0 & EX & Ehd & EN).
    pose proof (hp_ring _ _ _ H) as Hr. rewrite EN in Hr. unfold ring in Hr.
    apply linked_app in Hr as (_ & _ & Hq & _).
    apply wp_bind, wp_bind. eapply wp_get_ptr; [exact C8|exact Hq|]. apply wp_bind.
    apply wp_put_ptr; [by eapply node_in_mem|]. apply wp_ret. apply wp_bind, wp_modify, wp_ret.
    apply HQ. replace (after h0 d1 + sizeof_Header) with
      (after h0 d1 + sizeof_Header * (n - n) + sizeof_Header) by lia.
    apply Hpost. eapply take_whole; [exact H|exact Hp1|exact Hp3|exact Hq].
  - assert (Hsmall : 0 <= k - n < 2 ^ 32 /\ n < 2 ^ 32 /\
      after h0 d1 + sizeof_Header * (k - n) + sizeof_Header <= u_brk s)
      by (unfold sizeof_Header, RAM in *; lia).
    destruct Hsmall as (Hs1 & Hs2 & Hs3). rewrite u32_small by exact Hs1.
    apply wp_bind, wp_bind. apply wp_put_size; [exact C8|exact Hs1|].
    apply wp_bind. apply wp_put_size; [|lia|].
    { split; [unfold sizeof_Header; lia|exact Hs3]. }
    apply wp_ret. apply wp_bind, wp_modify, wp_ret. apply HQ, Hpost.
    assert (Hlt : n < k) by lia. exact (take_part h0 d1 k n d2 s prevp H (conj Hn Hlt) Hp1).
Qed.

Lemma malloc_loop h0 cs s n p0 :
  heap h0 cs s -> 0 < n < 2 ^ 27 -> u_ptr s !! u_freep s = Some p0 ->
  wp (loop (u_freep s, p0) (malloc_scan grow n)) s (malloc_post h0 cs n).
Proof.
  intros H Hn Hp0. destruct (visiting_start _ _ _ n H) as (p & r & Hp & Hv & Hlen).
  rewrite Hp0 in Hp. injection Hp as <-.
  apply (wp_loop_idx (fun k '(prevp, p) s' => exists cs1 r,
    visiting h0 cs1 s' n prevp p r /\
    ((s' = s /\ cs1 = cs /\ k = 2 ^ 32 + Z.of_nat (length r)) \/
     (none_fits cs n /\ cs1 = freed cs (Z.max n 4096) [] /\ k = Z.of_nat (length r))))
    _ _ (2 ^ 32 + Z.of_nat (length r))).
  - exists cs, r. split; [done|]. by left.
  - lia.
  - intros k [prevp p] s' (cs1 & r' & _ & [(_ & _ & ->)|(_ & _ & ->)]); lia.
  - intros k [prevp p] s' (cs1 & r' & Hv' & Hph). pose proof (vi_heap _ _ _ _ _ _ _ Hv') as H'.
    destruct (visiting_in _ _ _ _ _ _ _ Hv') as (Hp1 & Hp2 & Hp3).
    assert (Hsz : exists size, u_size s' !! p = Some size).
    { destruct (node_size _ _ _ _ H' Hp2) as [[-> Hz]|(d1 & i & d2 & E & -> & Hz)]; by eexists. }
    destruct Hsz as [size Hsz]. pose proof (node_in_mem _ _ _ _ H' Hp2) as Hpm.
    unfold malloc_scan. apply wp_bind. eapply wp_get_size; [exact Hpm|exact Hsz|].
    destruct (Z.leb_spec n size) as [Hfit|Hsmall].
    { apply wp_bind. eapply (wp_take h0 cs cs1); [exact Hv'|lia|exact Hsz|exact Hfit| |].
      2:{ intros v s2 Hpost. by apply wp_ret. }
      destruct Hph as [(_ & E & _)|(Hno & E & _)]; auto. }
    apply wp_bind, wp_gets.
    destruct (visiting_next _ _ _ _ _ _ _ _ Hv' Hsz Hsmall) as [[E Hno]|(Hne & q & r2 & -> & Hq & Hv2)].
    + rewrite (proj2 (Z.eqb_eq _ _) E). destruct Hph as [(-> & -> & ->)|(_ & -> & _)].
      2:{ destruct (freed_last cs (Z.max n 4096) (hp_pos _ _ _ H)) as (c & m & Ec & Hm).
          rewrite Ec in Hno. assert (m < n) by (apply Hno; set_solver). lia. }
      apply wp_bind. eapply morecore_spec; [exact H|exact Hn| |].
      * intros Hg. cbn [Z.eqb]. apply wp_ret. left. rewrite (hp_brk _ _ _ H) in Hg. by split_and!.
      * intros s2 _ H2. destruct (visiting_start _ _ _ n H2) as (p2 & r2 & Hp2' & Hv2 & Hlen2).
        pose proof (node_in_mem _ _ _ _ H2 (hp_freep _ _ _ H2)) as Hfm.
        assert (Hf0 : u_freep s2 <> 0).
        { pose proof (hp_freep _ _ _ H2) as Hf. destruct (hp_base _ _ _ H2).
          destruct (node_size _ _ _ _ H2 Hf) as [[-> _]|(d1 & i & d2 & Ei & -> & _)]; [lia|].
          rewrite Ei in H2. destruct (chunk_in_heap _ _ _ _ _ _ H2) as (_ & D2 & D3 & _). lia. }
        rewrite (proj2 (Z.eqb_neq _ _)) by done.
        apply wp_bind. eapply wp_get_ptr; [exact Hfm|exact Hp2'|]. apply wp_ret.
        exists (Z.of_nat (length r2)). split; [|lia].
        exists (freed cs (Z.max n 4096) []), r2. split; [done|]. by right.
    + rewrite (proj2 (Z.eqb_neq _ _)) by done. apply wp_bind. eapply wp_get_ptr; [exact Hpm|exact Hq|].
      apply wp_ret. destruct Hph as [(-> & -> & ->)|(Hno & -> & ->)].
      * exists (2 ^ 32 + Z.of_nat (length r2)). split; [|simpl; lia]. exists cs, r2. split; [done|]. by left.
      * exists (Z.of_nat (length r2)). split; [|simpl; lia]. eexists _, r2. split; [exact Hv2|]. by right.
Qed.

(** *** The whole of [malloc] *)

(** The header and the units of [nbytes]. *)
Definition nunits (nbytes : Z) : Z := (nbytes + sizeof_Header - 1) / sizeof_Header + 1.

(** The largest request for which [nu * sizeof(Header)] is a positive [int]. *)
Definition MAX_ALLOC : Z := 2 ^ 31 - 32.

(** Before the first [malloc], [freep] is null and the heap is empty. *)
Definition fresh (h0 : Z) (s : ustate) : Prop :=
  u_freep s = 0 /\ 0 < base /\ base + sizeof_Header <= h0 /\ u_brk s = h0 /\ h0 <= RAM.
Definition arena (h0 : Z) (cs : list chunk) (s : ustate) : Prop :=
  heap h0 cs s \/ cs = [] /\ fresh h0 s.

Lemma nunits_bounds n : 0 <= n <= MAX_ALLOC ->
  0 < nunits n < 2 ^ 27 /\ n <= sizeof_Header * (nunits n - 1).
Proof.
  unfold nunits, sizeof_Header, MAX_ALLOC. intros Hn.
  pose proof (Z.div_mod (n + 16 - 1) 16 ltac:(lia)). pose proof (Z.mod_pos_bound (n + 16 - 1) 16 ltac:(lia)). lia.
Qed.

Lemma heap_init h0 s : fresh h0 s ->
  heap h0 [] (set_u_size (<[base := 0]> (u_size s))
    (set_u_ptr (<[base := base]> (u_ptr s)) (set_u_freep base s))).
Proof.
  intros (H1 & H2 & H3 & H4 & H5). constructor; cbn [u_brk u_size u_ptr u_freep set_u_freep set_u_ptr set_u_size].
  - done.
  - rewrite H4. unfold after. change (units []) with 0. lia.
  - lia.
  - constructor.
  - done.
  - apply lookup_insert_eq.
  - done.
  - split; [apply lookup_insert_eq|done].
  - apply list_elem_of_here.
Qed.

Lemma heap_freep_ptr h0 cs s : heap h0 cs s ->
  u_freep s <> 0 /\ in_mem s (u_freep s) /\ exists p, u_ptr s !! u_freep s = Some p.
Proof.
  intros H. pose proof (hp_freep _ _ _ H) as Hf. destruct (hp_base _ _ _ H) as [B1 B2].
  split; [|split].
  - destruct (node_size _ _ _ _ H Hf) as [[-> _]|(d1 & k & d2 & E & -> & _)]; [lia|].
    rewrite E in H. destruct (chunk_in_heap _ _ _ _ _ _ H) as (_ & D2 & D3 & _). lia.
  - by eapply node_in_mem.
  - destruct (visiting_start _ _ _ 0 H) as (p & r & Hp & _). by exists p.
Qed.

Lemma malloc_wp h0 cs s nbytes (Q : Z -> ustate -> Prop) :
  arena h0 cs s -> 0 <= nbytes <= MAX_ALLOC ->
  (forall r s', malloc_post h0 cs (nunits nbytes) r s' -> Q r s') ->
  wp (malloc base grow nbytes) s Q.
Proof.
  intros Ha Hn HQ. destruct (nunits_bounds _ Hn) as [Hu _]. unfold malloc. fold (nunits nbytes).
  rewrite u32_small by lia. apply wp_bind, wp_gets. apply wp_bind.
  assert (Hrun : forall s, heap h0 cs s ->
    wp (let! p := get_ptr (u_freep s) in loop (u_freep s, p) (malloc_scan grow (nunits nbytes))) s Q).
  { intros s1 H. destruct (heap_freep_ptr _ _ _ H) as (_ & Hm & p & Hp).
    apply wp_bind. eapply wp_get_ptr; [exact Hm|exact Hp|].
    eapply wp_mono; [by apply (malloc_loop h0 cs)|exact HQ]. }
  destruct Ha as [H|[-> Hf]].
  - destruct (heap_freep_ptr _ _ _ H) as (Hf & _ & _). rewrite (proj2 (Z.eqb_neq _ _)) by done.
    apply wp_ret. by apply Hrun.
  - pose proof (heap_init _ _ Hf) as H. destruct Hf as (H1 & H2 & H3 & H4 & H5).
    rewrite H1. cbn [Z.eqb]. apply wp_bind, wp_modify. apply wp_bind, wp_put_ptr; [split; cbn; lia|].
    apply wp_bind, wp_put_size; [split; cbn; lia|lia|]. apply wp_ret. exact (Hrun _ H).
Qed.

(** ** Programs

    The blocks that [malloc] returned and the program has not freed, with the
    bytes it asked for.  The program writes what it likes into its blocks. *)

(** The payloads of the used chunks, with the chunks' sizes. *)
Fixpoint useds (a : Z) (cs : list chunk) : list (Z * Z) :=
  match cs with
  | [] => []
  | (n, used) :: cs' =>
      (if used then [(a + sizeof_Header, n)] else []) ++ useds (a + sizeof_Header * n) cs'
  end.

(** Only headers that overlap the [n] bytes at [r] change. *)
Definition overwritten (r n : Z) (s s' : ustate) : Prop :=
  u_freep s' = u_freep s /\ u_brk s' = u_brk s /\
  forall x, x + sizeof_Header <= r \/ r + n <= x ->
    u_ptr s' !! x = u_ptr s !! x /\ u_size s' !! x = u_size s !! x.

Inductive ustep : ustate * list (Z * Z) -> ustate * list (Z * Z) -> Prop :=
| ustep_malloc s live n r s' : 0 <= n <= MAX_ALLOC -> malloc base grow n s = Ret r s' ->
    ustep (s, live) (s', if r =? 0 then live else (r, n) :: live)
| ustep_free s l1 r n l2 s' : free r s = Ret tt s' -> ustep (s, l1 ++ (r, n) :: l2) (s', l1 ++ l2)
| ustep_write s live r n s' : (r, n) ∈ live -> overwritten r n s s' -> ustep (s, live) (s', live).

Definition allocated (h0 : Z) (s : ustate) (live : list (Z * Z)) : Prop :=
  Forall (fun b => 0 <= b.2 <= MAX_ALLOC) live /\
  exists cs, arena h0 cs s /\ useds h0 cs ≡ₚ map (fun b => (b.1, nunits b.2)) live.

Lemma after_one a n u : after a [(n, u)] = a + sizeof_Header * n.
Proof. unfold after. simpl. lia. Qed.

Lemma after_chunk a n u cs : after a ((n, u) :: cs) = after (a + sizeof_Header * n) cs.
Proof. unfold after. simpl. lia. Qed.

Lemma useds_app a c1 c2 : useds a (c1 ++ c2) = useds a c1 ++ useds (after a c1) c2.
Proof.
  revert a. induction c1 as [|[n u] c1 IH]; intros a; simpl.
  - unfold after. simpl. by rewrite Z.mul_0_r, Z.add_0_r.
  - rewrite IH, (assoc_L (++)). do 2 f_equal. unfold after. simpl. lia.
Qed.

Lemma useds_cons a n u cs :
  useds a ((n, u) :: cs) = (if u then [(a + sizeof_Header, n)] else []) ++ useds (after a [(n, u)]) cs.
Proof. simpl. do 2 f_equal. unfold after. simpl. lia. Qed.

Lemma useds_in a cs r n : (r, n) ∈ useds a cs ->
  exists c1 c2, cs = c1 ++ (n, true) :: c2 /\ r = after a c1 + sizeof_Header.
Proof.
  revert a. induction cs as [|[k u] cs IH]; intros a H; [by apply not_elem_of_nil in H|].
  rewrite useds_cons in H. apply elem_of_app in H as [H|H].
  - destruct u; [|by apply not_elem_of_nil in H]. apply list_elem_of_singleton in H as [= -> ->].
    exists [], cs. split; [done|]. unfold after. change (units []) with 0. lia.
  - apply IH in H as (c1 & c2 & -> & ->). exists ((k, u) :: c1), c2. split; [done|].
    by rewrite <- after_app.
Qed.

Lemma useds_used a c1 n c2 : useds a (c1 ++ (n, true) :: c2) =
  useds a c1 ++ (after a c1 + sizeof_Header, n) :: useds (after (after a c1) [(n, true)]) c2.
Proof. by rewrite useds_app, useds_cons. Qed.

Lemma useds_free a c1 n c2 : useds a (c1 ++ (n, false) :: c2) =
  useds a c1 ++ useds (after (after a c1) [(n, true)]) c2.
Proof. by rewrite useds_app, useds_cons. Qed.

Lemma useds_merged a c1 n m c2 :
  useds a (c1 ++ (n, false) :: (m, false) :: c2) = useds a (c1 ++ (n + m, false) :: c2).
Proof.
  rewrite !useds_app, !useds_cons. simpl. do 2 f_equal. unfold after. simpl. lia.
Qed.

Lemma useds_freed a c1 n c2 : useds a (freed c1 n c2) = useds a (c1 ++ (n, false) :: c2).
Proof.
  assert (Hl : forall n c2, useds a (let '(c1', n) := merge_left c1 n in c1' ++ (n, false) :: c2) =
    useds a (c1 ++ (n, false) :: c2)).
  { clear. intros n c2. destruct (used_last_cases c1) as [Hu|(c & k & ->)].
    - by rewrite merge_left_used_last.
    - rewrite merge_left_free, <- (assoc_L (++)). simpl. by rewrite useds_merged. }
  unfold freed. destruct c2 as [|[k []] c2]; simpl; [apply Hl|apply Hl|].
  etransitivity; [apply Hl|]. by rewrite useds_merged.
Qed.

Lemma useds_carve a d1 k n d2 : useds a (d1 ++ carve k n ++ d2) ≡ₚ
  (after a d1 + sizeof_Header * (k - n) + sizeof_Header, n) :: useds a (d1 ++ (k, false) :: d2).
Proof.
  rewrite useds_free. unfold carve. destruct (Z.eqb_spec k n) as [->|Hne]; simpl.
  - rewrite useds_used, <- Permutation_middle.
    by replace (after a d1 + sizeof_Header * (n - n)) with (after a d1) by lia.
  - rewrite !useds_app, !useds_cons. simpl. rewrite <- Permutation_middle, !after_one.
    by replace (after a d1 + sizeof_Header * (k - n) + sizeof_Header * n)
      with (after a d1 + sizeof_Header * k) by lia.
Qed.

(** *** Writes into a block *)

Lemma headers_ext m m' a cs : positive cs ->
  (forall x, a <= x -> x + sizeof_Header <= after a cs -> m' !! x = m !! x) ->
  headers m a cs -> headers m' a cs.
Proof.
  intros Hp. revert a. induction Hp as [|[n u] cs Hn Hcs IH]; intros a Hx H; [done|].
  pose proof (units_nonneg cs Hcs). cbn [fst] in Hn. unfold after in *. rewrite units_cons in Hx.
  destruct H as [H1 H2]. split; [rewrite Hx; [done|lia|unfold sizeof_Header; lia]|].
  apply IH; [|done]. intros x Hx1 Hx2. apply Hx; unfold sizeof_Header in *; lia.
Qed.

Lemma linked_ext m m' l z : (forall x, x ∈ l -> m' !! x = m !! x) -> linked m l z -> linked m' l z.
Proof.
  induction l as [|a l IH]; intros Hx H; [done|]. destruct H as [H1 H2]. split.
  - rewrite Hx; [done|apply list_elem_of_here].
  - apply IH; [|done]. intros x Hin. apply Hx. by apply list_elem_of_further.
Qed.

Lemma node_outside h0 c1 n c2 s b x : heap h0 (c1 ++ (n, true) :: c2) s ->
  b <= sizeof_Header * (n - 1) -> x ∈ base :: frees h0 (c1 ++ (n, true) :: c2) ->
  x + sizeof_Header <= after h0 c1 + sizeof_Header \/ after h0 c1 + sizeof_Header + b <= x.
Proof.
  intros H Hb Hx. destruct (chunk_in_heap _ _ _ _ _ _ H) as (C1 & C2 & C3 & C4 & C5 & C6 & C7 & C8 & C9).
  apply elem_of_cons in Hx as [->|Hx]; [left; lia|]. rewrite frees_app in Hx. simpl in Hx.
  apply elem_of_app in Hx as [Hx|Hx].
  - left. pose proof (frees_range _ _ _ C6 Hx). lia.
  - right. pose proof (frees_range _ _ _ C7 Hx). unfold sizeof_Header in *. lia.
Qed.

Lemma heap_overwritten h0 c1 n c2 s s' b : heap h0 (c1 ++ (n, true) :: c2) s ->
  b <= sizeof_Header * (n - 1) -> overwritten (after h0 c1 + sizeof_Header) b s s' ->
  heap h0 (c1 ++ (n, true) :: c2) s'.
Proof.
  intros H Hb (Hf & Hbrk & Hsame). pose proof (node_outside _ _ _ _ _ b base H Hb (list_elem_of_here _ _)) as Hbase.
  destruct (chunk_in_heap _ _ _ _ _ _ H) as (C1 & C2 & C3 & C4 & C5 & C6 & C7 & C8 & C9).
  assert (Hnodes : forall x, x ∈ base :: frees h0 (c1 ++ (n, true) :: c2) -> u_ptr s' !! x = u_ptr s !! x).
  { intros x Hx. apply Hsame. by eapply node_outside. }
  destruct H as [H1 H2 H3 H4 H5 H6 H7 H8 H9]. constructor; rewrite ?Hf, ?Hbrk; try done.
  - by rewrite (proj2 (Hsame _ Hbase)).
  - apply headers_app in H7 as [G1 [G2 G3]]. apply headers_app. split; [|split].
    + apply (headers_ext (u_size s)); [done| |done]. intros x _ Hx. apply Hsame. left. unfold sizeof_Header in *. lia.
    + rewrite (proj2 (Hsame _ ltac:(left; reflexivity))). done.
    + apply (headers_ext (u_size s)); [done| |done]. intros x Hx _. apply Hsame. right. unfold sizeof_Header in *. lia.
  - by apply (linked_ext (u_ptr s)).
Qed.

(** *** The steps of a program *)

Lemma live_chunk h0 s live r n : allocated h0 s live -> (r, n) ∈ live -> exists c1 c2,
  0 < nunits n < 2 ^ 27 /\ n <= sizeof_Header * (nunits n - 1) /\
  heap h0 (c1 ++ (nunits n, true) :: c2) s /\ r = after h0 c1 + sizeof_Header /\
  useds h0 (c1 ++ (nunits n, true) :: c2) ≡ₚ map (fun b => (b.1, nunits b.2)) live.
Proof.
  intros (Hb & cs & Ha & Hp) Hin. rewrite list.Forall_forall in Hb. specialize (Hb _ Hin).
  destruct (nunits_bounds n Hb) as [Hb1 Hb2]. assert (Hu : (r, nunits n) ∈ useds h0 cs).
  { rewrite Hp. apply list_elem_of_fmap. by exists (r, n). }
  destruct Ha as [H|[-> _]]; [|by apply not_elem_of_nil in Hu].
  apply useds_in in Hu as (c1 & c2 & -> & ->). by exists c1, c2.
Qed.

Lemma allocated_malloc h0 s live n : allocated h0 s live -> 0 <= n <= MAX_ALLOC ->
  wp (malloc base grow n) s (fun r s' => allocated h0 s' (if r =? 0 then live else (r, n) :: live)).
Proof.
  intros (Hb & cs & Ha & Hp) Hn. eapply malloc_wp; [exact Ha|exact Hn|].
  intros r s' [(-> & _ & H & _)|(cs1 & d1 & k & d2 & Hcs & E & Hle & -> & H)].
  - split; [done|]. exists cs. split; [by left|done].
  - assert (Hu : useds h0 cs1 = useds h0 cs).
    { destruct Hcs as [->|[_ ->]]; [done|]. by rewrite useds_freed, useds_free, app_nil_r. }
    destruct (hp_base _ _ _ H) as [B1 B2]. pose proof (hp_pos _ _ _ H) as Hpos.
    apply Forall_app in Hpos as [Hpos _]. apply (after_mono h0) in Hpos.
    destruct (nunits_bounds n Hn) as [Hu1 _].
    rewrite (proj2 (Z.eqb_neq _ _)) by (unfold sizeof_Header in *; lia).
    split; [by constructor|]. exists (d1 ++ carve k (nunits n) ++ d2). split; [by left|].
    rewrite useds_carve, <- E, Hu, Hp. done.
Qed.

Lemma allocated_free h0 s l1 r n l2 : allocated h0 s (l1 ++ (r, n) :: l2) ->
  wp (free r) s (fun _ s' => allocated h0 s' (l1 ++ l2)).
Proof.
  intros Hall. assert (Hin : (r, n) ∈ l1 ++ (r, n) :: l2) by set_solver.
  destruct (live_chunk _ _ _ _ _ Hall Hin) as (c1 & c2 & _ & _ & H & -> & Hp).
  eapply free_spec; [exact H|]. intros s' H' _. destruct Hall as [Hb _]. split.
  { apply Forall_app in Hb as [Hb1 Hb2]. apply list.Forall_cons in Hb2 as [_ Hb2]. by apply Forall_app. }
  eexists. split; [left; exact H'|].
  rewrite useds_freed, useds_free. rewrite useds_used, <- Permutation_middle in Hp.
  rewrite map_app in Hp. simpl in Hp. rewrite <- Permutation_middle in Hp.
  apply Permutation_cons_inv in Hp. by rewrite map_app.
Qed.

Lemma allocated_step h0 c c' : ustep c c' -> allocated h0 c.1 c.2 -> allocated h0 c'.1 c'.2.
Proof.
  intros [s live n r s' Hn E|s l1 r n l2 s' E|s live r n s' Hin Ho] Ha; cbn [fst snd] in *.
  - exact (wlp_inv _ _ _ _ _ (wlp_wp _ _ _ (allocated_malloc _ _ _ _ Ha Hn)) E).
  - exact (wlp_inv _ _ _ _ _ (wlp_wp _ _ _ (allocated_free _ _ _ _ _ _ Ha)) E).
  - destruct (live_chunk _ _ _ _ _ Ha Hin) as (c1 & c2 & _ & Hb & H & -> & Hp).
    split; [apply Ha|]. eexists. split; [left|exact Hp]. by eapply heap_overwritten.
Qed.

Lemma allocated_steps h0 c c' : rtc ustep c c' -> allocated h0 c.1 c.2 -> allocated h0 c'.1 c'.2.
Proof. induction 1 as [|c1 c2 c3 Hs _ IH]; intros Ha; [done|]. apply IH. by eapply allocated_step. Qed.

Lemma allocated_fresh h0 s : fresh h0 s -> allocated h0 s [].
Proof. intros H. split; [done|]. exists []. split; [by right|done]. Qed.

Lemma useds_disjoint h0 s cs x n y m rest : heap h0 cs s ->
  useds h0 cs ≡ₚ (x, n) :: (y, m) :: rest ->
  x + sizeof_Header * n <= y \/ y + sizeof_Header * m <= x.
Proof.
  intros H Hp. assert (Hx : (x, n) ∈ useds h0 cs) by (rewrite Hp; set_solver).
  apply useds_in in Hx as (c1 & c2 & -> & ->). rewrite useds_used, <- Permutation_middle in Hp.
  apply Permutation_cons_inv in Hp. pose proof (hp_pos _ _ _ H) as Hpos.
  apply Forall_app in Hpos as [P1 P2]. apply list.Forall_cons in P2 as [P2 P3]. cbn [fst] in P2.
  rewrite after_one in Hp. unfold sizeof_Header in *.
  assert (Hy : (y, m) ∈ useds h0 c1 ++ useds (after h0 c1 + 16 * n) c2) by (rewrite Hp; set_solver).
  apply elem_of_app in Hy as [Hy|Hy]; apply useds_in in Hy as (d1 & d2 & -> & ->).
  - right. rewrite after_app. apply Forall_app in P1 as [_ P1]. apply list.Forall_cons in P1 as [_ P1].
    pose proof (after_mono (after h0 d1 + 16 * m) d2 P1). rewrite after_chunk.
    unfold sizeof_Header in *. lia.
  - left. apply Forall_app in P3 as [P3 _].
    pose proof (after_mono (after h0 c1 + 16 * n) d1 P3). unfold sizeof_Header in *. lia.
Qed.

Lemma coalesced_unused h0 cs : coalesced cs -> useds h0 cs = [] -> cs = [] \/ exists n, cs = [(n, false)].
Proof.
  intros Hc Hu. destruct cs as [|[n []] cs]; [by left|done|]. right. exists n. f_equal.
  destruct cs as [|[k []] cs]; [done|done|by destruct Hc].
Qed.

(** C34: In every state that a program reaches by calling [malloc] and [free] and by
    writing into its blocks: the blocks do not overlap, not even with each
    other's headers; they lie inside the memory of the process, aligned to
    headers; [malloc] and [free] return; and when every block is freed, the
    heap is one free block again. *)
Theorem umalloc_safe h0 s0 s live : fresh h0 s0 -> rtc ustep (s0, []) (s, live) ->
  (forall i j a n b m, (i < j)%nat -> live !! i = Some (a, n) -> live !! j = Some (b, m) ->
     a + n + sizeof_Header <= b \/ b + m + sizeof_Header <= a) /\
  (forall a n, (a, n) ∈ live ->
     h0 + sizeof_Header <= a /\ a + n <= u_brk s /\ (sizeof_Header | a - h0)) /\
  (forall n, 0 <= n <= MAX_ALLOC -> exists r s', malloc base grow n s = Ret r s') /\
  (forall a n, (a, n) ∈ live -> exists s', free a s = Ret tt s') /\
  (live = [] -> u_brk s = h0 \/
     u_size s !! h0 = Some ((u_brk s - h0) / sizeof_Header) /\
     u_ptr s !! base = Some h0 /\ u_ptr s !! h0 = Some base).
Proof.
  intros Hf Hr. pose proof (allocated_steps h0 _ _ Hr (allocated_fresh _ _ Hf)) as Ha.
  cbn [fst snd] in Ha. split; [|split; [|split; [|split]]].
  - intros i j a n b m Hij Hi Hj. pose proof (delete_Permutation _ _ _ Hi) as Hd.
    assert (Hb : (b, m) ∈ delete i live).
    { apply (list_elem_of_lookup_2 _ (j - 1)). rewrite list_lookup_delete_ge by lia.
      by replace (S (j - 1)) with j by lia. }
    apply list_elem_of_split in Hb as (k1 & k2 & Hb). rewrite Hb, <- Permutation_middle in Hd.
    destruct (live_chunk _ _ _ _ _ Ha (list_elem_of_lookup_2 _ _ _ Hi)) as (c1 & c2 & _ & Hn & H & _ & Hp).
    destruct (live_chunk _ _ _ _ _ Ha (list_elem_of_lookup_2 _ _ _ Hj)) as (_ & _ & _ & Hm & _ & _ & _).
    rewrite Hd in Hp. destruct (useds_disjoint _ _ _ _ _ _ _ _ H Hp); [left|right];
      unfold sizeof_Header in *; cbn [fst snd] in *; lia.
  - intros a n Hin. destruct (live_chunk _ _ _ _ _ Ha Hin) as (c1 & c2 & _ & Hn & H & -> & _).
    destruct (chunk_in_heap _ _ _ _ _ _ H) as (_ & _ & C3 & C4 & _).
    unfold after, sizeof_Header in *. split; [lia|split; [lia|]]. exists (units c1 + 1). lia.
  - intros n Hn. destruct (wp_inv _ _ _ (allocated_malloc _ _ _ _ Ha Hn)) as (r & s' & E & _). eauto.
  - intros a n Hin. apply list_elem_of_split in Hin as (l1 & l2 & ->).
    destruct (wp_inv _ _ _ (allocated_free _ _ _ _ _ _ Ha)) as ([] & s' & E & _). eauto.
  - intros ->. destruct Ha as (_ & cs & Ha & Hp). destruct Ha as [H|[-> Hf']]; [|left; apply Hf'].
    apply Permutation_nil_r in Hp.
    destruct (coalesced_unused _ _ (hp_coalesced _ _ _ H) Hp) as [->|[n ->]].
    + left. rewrite (hp_brk _ _ _ H). unfold after. simpl. lia.
    + right. rewrite (hp_brk _ _ _ H), after_one. pose proof (hp_ring _ _ _ H) as (R1 & R2 & _).
      split; [|by split]. destruct (hp_headers _ _ _ H) as [-> _]. f_equal.
      replace (h0 + sizeof_Header * n - h0) with (n * sizeof_Header) by lia. by rewrite Z.div_mul.
Qed.

(** Where [malloc] takes the block from: the end of a free chunk that is large
    enough, the rest of which stays free; [morecore] adds at least 4096 units
    at the end, and only when no chunk is large enough; 0 means that [sbrk]
    failed, and nothing has changed. *)
Theorem malloc_correct h0 cs s nbytes : arena h0 cs s -> 0 <= nbytes <= MAX_ALLOC ->
  exists r s', malloc base grow nbytes s = Ret r s' /\ malloc_post h0 cs (nunits nbytes) r s'.
Proof.
  intros Ha Hn. destruct (wp_inv _ _ _ (malloc_wp h0 cs s nbytes (malloc_post h0 cs (nunits nbytes)) Ha Hn (fun _ _ H => H)))
    as (r & s' & E & H). eauto.
Qed.
End heap.

(** *** Requests that are too large *)

Section huge.
Variables (base : Z) (grow : Z -> Z -> bool).

(** The state after the first call has set up [base]. *)
Definition inited (s : ustate) : ustate :=
  set_u_size (<[base := 0]> (u_size s)) (set_u_ptr (<[base := base]> (u_ptr s)) (set_u_freep base s)).

Lemma malloc_fresh h0 s nbytes : fresh base h0 s ->
  malloc base grow nbytes s = loop (base, base)
    (malloc_scan grow (u32 ((nbytes + sizeof_Header - 1) / sizeof_Header + 1))) (inited s).
Proof.
  intros (H1 & H2 & H3 & H4 & H5).
  pose proof (mapped_end_ge (u_brk s)).
  assert (Ha : (0 <=? base) && (base + sizeof_Header <=? mapped_end (u_brk s)) = true) by lia.
  unfold malloc. rewrite (bind_eq _ _ s (u_freep s) s) by done. rewrite H1. cbn [Z.eqb].
  rewrite (bind_eq _ _ s base (inited s)).
  - rewrite (bind_eq _ _ (inited s) base (inited s)); [done|].
    unfold get_ptr, access, bind, gets. cbn. rewrite Ha. cbn. by rewrite lookup_insert_eq.
  - unfold put_ptr, put_size, access, bind, modify, gets, ret. cbn. rewrite Ha. cbn. by rewrite Ha.
Qed.

Lemma scan_base h0 s n : fresh base h0 s -> 0 < n ->
  malloc_scan grow n (base, base) (inited s) =
  (let! p := morecore grow n in
   if p =? 0 then ret (inr 0) else let! q := get_ptr p in ret (inl (p, q))) (inited s).
Proof.
  intros (H1 & H2 & H3 & H4 & H5) Hn. unfold malloc_scan.
  rewrite (bind_eq _ _ (inited s) 0 (inited s)).
  - rewrite (proj2 (Z.leb_gt n 0)) by lia. rewrite (bind_eq _ _ _ base (inited s)) by done.
    by rewrite Z.eqb_refl.
  - unfold get_size, access, bind, gets. cbn. rewrite (proj2 (Z.leb_le 0 base)) by lia.
    pose proof (mapped_end_ge (u_brk s)). rewrite (proj2 (Z.leb_le _ _)) by lia. cbn. by rewrite lookup_insert_eq.
Qed.

(** A size that is not positive as an [int] makes [morecore] write behind the
    end of the memory, when that is the end of a page. *)
Lemma morecore_faults n s : 2 ^ 27 <= n <= 2 ^ 28 -> 0 <= u_brk s <= RAM -> (4096 | u_brk s) ->
  morecore grow n s = Panic "usertrap(): unexpected scause".
Proof.
  intros Hn Hb Hal. unfold morecore. rewrite (proj2 (Z.ltb_ge n 4096)) by lia.
  assert (Hs : s32 (n * sizeof_Header) <= 0).
  { unfold s32, sizeof_Header. pose proof (Z.div_mod (n * 16 + 2 ^ 31) (2 ^ 32) ltac:(lia)).
    pose proof (Z.mod_pos_bound (n * 16 + 2 ^ 31) (2 ^ 32) ltac:(lia)). nia. }
  assert (exists s', sbrk grow (s32 (n * sizeof_Header)) s = Ret (u_brk s) s' /\ u_brk s' <= u_brk s) as (s' & E & Hb').
  { unfold sbrk, bind, gets. rewrite (proj2 (Z.ltb_ge 0 _)) by done.
    destruct ((_ <? 0) && _) eqn:Hc; [|by exists s].
    apply andb_prop in Hc as [_ Hc]. eexists. split; [done|]. cbn. lia. }
  rewrite (bind_eq _ _ _ _ _ E). rewrite (proj2 (Z.eqb_neq _ _)) by lia.
  unfold put_size, access, bind, gets. rewrite (proj2 (Z.leb_le 0 _)) by lia.
  apply mapped_end_mono in Hb'. rewrite (mapped_end_aligned (u_brk s)) in Hb' by done.
  rewrite (proj2 (Z.leb_gt _ _)) by (unfold sizeof_Header; lia). done.
Qed.

(** The first free block, of [h0]. *)
Lemma free_first h0 s n (Q : unit -> ustate -> Prop) :
  0 < base /\ base + sizeof_Header <= h0 -> u_brk s = h0 + sizeof_Header -> u_freep s = base ->
  u_ptr s !! base = Some base -> u_size s !! base = Some 0 -> u_size s !! h0 = Some n -> 0 < n ->
  (forall s', u_freep s' = base -> u_brk s' = u_brk s -> u_size s' = u_size s ->
     u_ptr s' !! base = Some h0 -> u_ptr s' !! h0 = Some base -> Q tt s') ->
  wp (free (h0 + sizeof_Header)) s Q.
Proof.
  intros Hb Hbrk Hf Hp Hs0 Hsn Hn HQ. assert (Hbm : in_mem s base)
    by (unfold in_mem, sizeof_Header in *; lia).
  unfold sizeof_Header in *. assert (Hhm : in_mem s h0) by (unfold in_mem, sizeof_Header; lia).
  unfold free, sizeof_Header. replace (h0 + 16 - 16) with h0 by lia.
  apply wp_bind, wp_gets. apply wp_bind. rewrite Hf.
  apply (wp_walk grow s [base] base base h0);
    [by split|apply list_elem_of_here|apply list_elem_of_here| | |simpl; lia|].
  { by intros x ->%list_elem_of_singleton. }
  - intros x q Hx Hq. apply list_elem_of_singleton in Hx as ->. rewrite Hp in Hq. injection Hq as <-.
    rewrite bool_decide_true by done. unfold place. lia.
  - apply wp_bind. eapply wp_get_size; [exact Hhm|exact Hsn|].
    apply wp_bind. eapply wp_get_ptr; [exact Hbm|exact Hp|].
    rewrite (proj2 (Z.eqb_neq _ _)) by lia. apply wp_bind, wp_put_ptr; [exact Hhm|].
    apply wp_bind. eapply wp_get_size; [exact Hbm|exact Hs0|].
    rewrite (proj2 (Z.eqb_neq _ _)) by lia. apply wp_bind, wp_put_ptr; [exact Hbm|].
    apply wp_modify, HQ; cbn; try done.
    + apply lookup_insert_eq.
    + rewrite lookup_insert_ne by lia. apply lookup_insert_eq.
Qed.

(** [nu * sizeof(Header)] wraps to 16. *)
Lemma morecore_wraps h0 s (Q : Z -> ustate -> Prop) :
  fresh base h0 s -> grow h0 (h0 + 16) = true -> h0 + 16 < 2 ^ 32 ->
  (forall s', u_freep s' = base -> u_brk s' = h0 + 16 -> u_size s' !! h0 = Some (2 ^ 28 + 1) ->
     u_ptr s' !! base = Some h0 -> u_ptr s' !! h0 = Some base -> Q base s') ->
  wp (morecore grow (2 ^ 28 + 1)) (inited s) Q.
Proof.
  intros (H1 & H2 & H3 & H4 & H5) Hg Hram HQ. unfold sizeof_Header in *.
  assert (E : sbrk grow (s32 ((2 ^ 28 + 1) * 16)) (inited s) = Ret h0 (set_u_brk (h0 + 16) (inited s))).
  { change (s32 ((2 ^ 28 + 1) * 16)) with 16. unfold sbrk, bind, gets. cbn [Z.ltb Z.compare].
    change (u_brk (inited s)) with (u_brk s). rewrite H4, u32_small, (proj2 (Z.ltb_ge _ _)), Hg by lia. done. }
  unfold morecore, sizeof_Header. change (2 ^ 28 + 1 <? 4096) with false. cbv iota.
  apply wp_bind. eapply wp_eq; [exact E|]. rewrite (proj2 (Z.eqb_neq h0 (-1))) by lia.
  apply wp_bind, wp_put_size; [unfold in_mem, sizeof_Header; cbn; lia|lia|]. apply wp_bind.
  apply (free_first h0 _ (2 ^ 28 + 1)); cbn; unfold sizeof_Header; try done; try lia.
  - apply lookup_insert_eq.
  - rewrite lookup_insert_ne by lia. apply lookup_insert_eq.
  - apply lookup_insert_eq.
  - intros s' F1 F2 F3 F4 F5. apply wp_gets. rewrite F1. apply HQ; try done.
    rewrite F3. cbn. apply lookup_insert_eq.
Qed.

(** C38: [malloc] of a size above [MAX_ALLOC] in a fresh process, whose memory ends
    at the end of a page, as [exec] leaves it.  [morecore] passes
    [nu * sizeof(Header)] to [sbrk] as an [int], which is not positive up to
    2^32 - 16 bytes: instead of returning 0, [malloc] writes behind the end of
    the memory and the process is killed.  Above that, the product wraps to 16:
    [malloc] returns the address where the memory of the process ends, having
    asked for the 16 bytes of the header only. *)
Theorem malloc_overflow h0 s n : fresh base h0 s -> (4096 | h0) -> MAX_ALLOC < n < 2 ^ 32 ->
  (n <= 2 ^ 32 - 16 -> malloc base grow n s = Panic "usertrap(): unexpected scause") /\
  (2 ^ 32 - 16 < n -> grow h0 (h0 + 16) = true -> h0 + 16 < 2 ^ 32 ->
     exists s', malloc base grow n s = Ret (h0 + 16) s' /\ u_brk s' = h0 + 16).
Proof.
  intros Hf Hal Hn. unfold MAX_ALLOC in Hn. rewrite (malloc_fresh h0) by done.
  pose proof (Z.div_mod (n + sizeof_Header - 1) 16 ltac:(lia)) as Hd.
  pose proof (Z.mod_pos_bound (n + sizeof_Header - 1) 16 ltac:(lia)) as Hm.
  fold sizeof_Header in Hd, Hm. set (q := (n + sizeof_Header - 1) / sizeof_Header) in *.
  unfold sizeof_Header in Hd, Hm. rewrite u32_small by lia.
  pose proof Hf as (H1 & H2 & H3 & H4 & H5). split.
  - intros Hle. apply loop_panics. rewrite (scan_base h0) by (done || lia).
    unfold bind. rewrite morecore_faults; [done|lia|cbn; unfold sizeof_Header in *; lia|].
    cbn. by rewrite H4.
  - intros Hgt Hg Hram. assert (q + 1 = 2 ^ 28 + 1) as -> by lia.
    enough (Hw : wp (loop (base, base) (malloc_scan grow (2 ^ 28 + 1))) (inited s)
      (fun r s' => r = h0 + 16 /\ u_brk s' = h0 + 16)).
    { destruct (wp_inv _ _ _ Hw) as (r & s' & E & -> & Hb). eauto. }
    apply (wp_loop_idx (fun k a s' => k = 1 /\ a = (base, base) /\ s' = inited s \/
      k = 0 /\ a = (base, h0) /\ u_size s' !! h0 = Some (2 ^ 28 + 1) /\
      u_ptr s' !! h0 = Some base /\ u_brk s' = h0 + 16) _ _ 1); [by left|lia|lia|].
    intros k a s' [(-> & -> & ->)|(-> & -> & Hsz & Hp & Hb)].
    + unfold wp. rewrite (scan_base h0) by (done || lia). apply wp_bind.
      apply (morecore_wraps h0); [done|done|done|].
      intros s2 F1 F2 F3 F4 F5. rewrite (proj2 (Z.eqb_neq base 0)) by lia.
      apply wp_bind. eapply wp_get_ptr; [|exact F4|].
      { unfold in_mem, sizeof_Header in *. lia. }
      apply wp_ret. exists 0. split; [right; by split_and!|lia].
    + unfold malloc_scan, malloc_take. assert (Hhm : in_mem s' h0) by (unfold in_mem, sizeof_Header in *; lia).
      apply wp_bind. eapply wp_get_size; [exact Hhm|exact Hsz|]. rewrite Z.leb_refl, Z.eqb_refl.
      apply wp_bind, wp_bind, wp_bind. eapply wp_get_ptr; [exact Hhm|exact Hp|].
      apply wp_bind, wp_put_ptr; [unfold in_mem, sizeof_Header in *; lia|].
      apply wp_ret. apply wp_bind, wp_modify. by repeat apply wp_ret.
Qed.
End huge.

Definition some_process : ustate := UState ∅ ∅ 0 0x4000.
Definition some_grow (old new : Z) : bool := new <=? 0x100000.

Lemma some_grow_ram old new : some_grow old new = true -> new <= RAM.
Proof. unfold some_grow, RAM. intros H%Z.leb_le. lia. Qed.

Lemma some_process_fresh : fresh 0x3000 0x4000 some_process.
Proof. unfold fresh, some_process, sizeof_Header, RAM. cbn. lia. Qed.

Definition s_one := final some_process (malloc 0x3000 some_grow 100 some_process).
Definition s_two := final some_process (malloc 0x3000 some_grow 5000 s_one).

Lemma some_run : result (malloc 0x3000 some_grow 100 some_process) = Some 0x13F90 /\
  result (malloc 0x3000 some_grow 5000 s_one) = Some 0x12BF0 /\
  result (free 0x13F90 s_two) = Some tt.
Proof. split_and!; vm_compute; reflexivity. Qed.

Lemma some_steps : rtc (ustep 0x3000 some_grow) (some_process, []) (s_two, [(0x12BF0, 5000); (0x13F90, 100)]).
Proof.
  destruct some_run as (R1 & R2 & _). apply (run_eq some_process) in R1, R2.
  eapply rtc_l; [by apply (ustep_malloc _ _ _ [] 100 0x13F90 s_one)|].
  apply rtc_once. by apply (ustep_malloc _ _ _ [(0x13F90, 100)] 5000 0x12BF0 s_two).
Qed.

Lemma umalloc_safe_witness :
  fresh 0x3000 0x4000 some_process /\
  (0x12BF0 + 5000 + 16 <= 0x13F90 \/ 0x13F90 + 100 + 16 <= 0x12BF0) /\
  exists s', free 0x12BF0 s_two = Ret tt s'.
Proof.
  destruct (umalloc_safe 0x3000 some_grow some_grow_ram 0x4000 some_process s_two _
    some_process_fresh some_steps) as (H1 & _ & _ & H2 & _).
  split; [exact some_process_fresh|]. split.
  - exact (H1 0%nat 1%nat _ _ _ _ (le_n 1) eq_refl eq_refl).
  - exact (H2 0x12BF0 5000 (list_elem_of_here _ _)).
Defined.

Lemma malloc_correct_witness : exists r s',
  malloc 0x3000 some_grow 100 some_process = Ret r s' /\
  malloc_post 0x3000 some_grow 0x4000 [] (nunits 100) r s'.
Proof.
  apply (malloc_correct 0x3000 some_grow some_grow_ram 0x4000 [] some_process 100).
  - right. split; [reflexivity|exact some_process_fresh].
  - unfold MAX_ALLOC. lia.
Defined.

Lemma malloc_overflow_witness :
  malloc 0x3000 some_grow (2 ^ 31) some_process = Panic "usertrap(): unexpected scause" /\
  exists s', malloc 0x3000 some_grow (2 ^ 32 - 1) some_process = Ret 0x4010 s' /\ u_brk s' = 0x4010.
Proof.
  split.
  - apply (malloc_overflow 0x3000 some_grow 0x4000 some_process (2 ^ 31) some_process_fresh);
      [by exists 4|unfold MAX_ALLOC; lia|lia].
  - apply (malloc_overflow 0x3000 some_grow 0x4000 some_process (2 ^ 32 - 1) some_process_fresh);
      [by exists 4|unfold MAX_ALLOC; lia|lia|reflexivity|lia].
Defined.
