(* ===== verification/Ulib.v ===== *)
(** The library of the user programs, FileSystem-RAID/user/ulib.c and printf.c.

    The routines run on the bytes of the process ([CString]).  A call of [read] on
    the console takes a byte of the input that is left, and [write] of a
    character appends it to what was written, with its descriptor.  [char] is
    unsigned, as on RISC-V.  A string is a list without its NUL. *)
From S2P Require Import Prelude Bytes Locks Kalloc Vm Bio Log Kernel Console CString.

(** ** ulib.c *)

Definition strcpy (s t : Z) : CM Z :=
  let os := s in
  loop (s, t) (fun '(s, t) =>
    let! c := load t in
    store s c ;;;
    if negb (c =? 0) then ret (inl (s + 1, t + 1)) else ret (inr tt)) ;;;
  ret os.

Definition strcmp (p q : Z) : CM Z :=
  loop (p, q) (fun '(p, q) =>
    let! a := load p in
    let! b := load q in
    if negb (a =? 0) && (a =? b) then ret (inl (p + 1, q + 1)) else ret (inr (a - b))).

Definition strlen (s : Z) : CM Z :=
  let! n := loop 0 (fun n =>
    let! c := load (s + n) in
    if negb (c =? 0) then ret (inl (s32 (n + 1))) else ret (inr n)) in
  ret (u32 n).

Definition memset (dst c n : Z) : CM Z :=
  memset_loop (Z.to_nat n) dst c ;;;
  ret dst.

Definition strchr (s c : Z) : CM Z :=
  loop s (fun s =>
    let! a := load s in
    if negb (a =? 0) then if a =? c then ret (inr s) else ret (inl (s + 1))
    else ret (inr 0)).

(** The process, and the input that it has not read. *)
Record uproc := UProc { um : gmap Z Z; input : list Z }.
Definition in_um {A} (m : CM A) : M uproc A := zoom um (fun u s => UProc u (input s)) m.
(** [read(0, &c, 1)]: the result and [c] *)
Definition read_char : M uproc (Z * Z) := fun s =>
  match input s with
  | c :: l => Ret (1, c) (UProc (um s) l)
  | [] => Ret (0, 0) s
  end.

Definition gets (buf max : Z) : M uproc Z :=
  let! i := loop 0 (fun i =>
    if s32 (i + 1) <? max then
      let! '(cc, c) := read_char in
      if cc <? 1 then ret (inr i) else
      in_um (store (buf + i) c) ;;;
      if (c =? 10) || (c =? 13) then ret (inr (i + 1)) else ret (inl (i + 1))
    else ret (inr i)) in
  in_um (store (buf + i) 0) ;;;
  ret buf.

Definition atoi (s : Z) : CM Z :=
  loop (s, 0) (fun '(s, n) =>
    let! c := load s in
    if (48 <=? c) && (c <=? 57) then ret (inl (s + 1, s32 (n * 10 + c - 48))) else ret (inr n)).

Definition memmove (dst src n : Z) : CM Z :=
  (if dst <? src then copy_up (Z.to_nat n) dst src
   else copy_down (Z.to_nat n) (dst + n) (src + n)) ;;;
  ret dst.

Definition memcmp (s1 s2 n : Z) : CM Z :=
  loop (s1, s2, n) (fun '(p1, p2, n) =>
    if 0 <? n then
      let! a := load p1 in
      let! b := load p2 in
      if negb (a =? b) then ret (inr (a - b)) else ret (inl (p1 + 1, p2 + 1, n - 1))
    else ret (inr 0)).

Definition memcpy (dst src n : Z) : CM Z := memmove dst src (s32 n).

(** ** printf.c *)

(** What was written, latest last, with the descriptors. *)
Abbreviation WM := (M (list (Z * Z))) (only parsing).
Definition putc (fd c : Z) : WM unit := modify (fun l => l ++ [(fd, u8 c)]).

(** [digits[d]] *)
Definition digits (d : Z) : Z := if d <? 10 then 48 + d else 65 + (d - 10).

(** The digits of [x], the last one first; the buffer takes 16 characters. *)
Fixpoint udigits_of (fuel : nat) (x base : Z) : list Z :=
  match fuel with
  | O => []
  | S n => digits (x mod base) :: (if negb (x / base =? 0) then udigits_of n (x / base) base else [])
  end.

Definition uprintint_buf (xx base : Z) (sgn : bool) : list Z :=
  let neg := sgn && (xx <? 0) in
  let x := if neg then u32 (- xx) else u32 xx in
  udigits_of 16 x base ++ (if neg then [45] else []).
Definition uprintint (fd xx base : Z) (sgn : bool) : WM unit :=
  for_all (reverse (uprintint_buf xx base sgn)) (putc fd).

Definition uprintptr (fd x : Z) : WM unit :=
  putc fd 48 ;;; putc fd 120 ;;;
  for_all (seqZ 0 16) (fun i => putc fd (digits (Z.shiftr (u64 (Z.shiftl x (4 * i))) (64 - 4)))).

(** An argument: an [int], an [uint64], or a string, [None] for the null pointer. *)
Inductive uarg := UInt (x : Z) | UWord (x : Z) | UStr (s : option (list Z)).

(** The loop over the format; [state] is 0 or [%].  An argument of the wrong type
    is undefined behaviour. *)
Fixpoint vprintf_loop (fd : Z) (fmt : list Z) (state : Z) (ap : list uarg) : WM unit :=
  match fmt with
  | [] => ret tt
  | c :: fmt =>
      if state =? 0 then
        if c =? 37 then vprintf_loop fd fmt 37 ap
        else putc fd c ;;; vprintf_loop fd fmt 0 ap
      else if state =? 37 then
        if c =? 100 then
          match ap with
          | UInt x :: ap => uprintint fd x 10 true ;;; vprintf_loop fd fmt 0 ap
          | _ => panic "fault"
          end
        else if c =? 108 then
          match ap with
          | UWord x :: ap => uprintint fd (s32 x) 10 false ;;; vprintf_loop fd fmt 0 ap
          | _ => panic "fault"
          end
        else if c =? 120 then
          match ap with
          | UInt x :: ap => uprintint fd x 16 false ;;; vprintf_loop fd fmt 0 ap
          | _ => panic "fault"
          end
        else if c =? 112 then
          match ap with
          | UWord x :: ap => uprintptr fd x ;;; vprintf_loop fd fmt 0 ap
          | _ => panic "fault"
          end
        else if c =? 115 then
          match ap with
          | UStr o :: ap => for_all (default (str "(null)") o) (putc fd) ;;; vprintf_loop fd fmt 0 ap
          | _ => panic "fault"
          end
        else if c =? 99 then
          match ap with
          | UInt x :: ap => putc fd x ;;; vprintf_loop fd fmt 0 ap
          | _ => panic "fault"
          end
        else if c =? 37 then putc fd c ;;; vprintf_loop fd fmt 0 ap
        else putc fd 37 ;;; putc fd c ;;; vprintf_loop fd fmt 0 ap
      else vprintf_loop fd fmt state ap
  end.
Definition vprintf (fd : Z) (fmt : list Z) (ap : list uarg) : WM unit := vprintf_loop fd fmt 0 ap.
Definition fprintf (fd : Z) (fmt : list Z) (ap : list uarg) : WM unit := vprintf fd fmt ap.
Definition uprintf (fmt : list Z) (ap : list uarg) : WM unit := vprintf 1 fmt ap.

Example printf_example : uprintf (str "%d/%x: %s%c%") [UInt (-5); UInt 255; UStr None; UInt 33] [] =
  Ret tt ((fun c => (1, c)) <$> str "-5/FF: (null)!").
Proof. reflexivity. Qed.

(** ** [printf] *)

(** A format is a sequence of characters and conversions. *)
Inductive piece := Lit (c : Z) | Conv (c : Z).
Fixpoint pieces (fmt : list Z) : list piece :=
  match fmt with
  | [] => []
  | c :: fmt =>
      if c =? 37 then match fmt with [] => [] | d :: fmt => Conv d :: pieces fmt end
      else Lit c :: pieces fmt
  end.

Definition int_text (x base : Z) (sgn : bool) : list Z := reverse (uprintint_buf x base sgn).
Definition ptr_text (x : Z) : list Z :=
  [48; 120] ++ ((fun i => digits (Z.shiftr (u64 (Z.shiftl x (4 * i))) (64 - 4))) <$> seqZ 0 16).

(** What a conversion writes, and the arguments that it leaves. *)
Definition conversion (c : Z) (ap : list uarg) : option (list Z * list uarg) :=
  if c =? 100 then match ap with UInt x :: ap => Some (int_text x 10 true, ap) | _ => None end
  else if c =? 108 then match ap with UWord x :: ap => Some (int_text (s32 x) 10 false, ap) | _ => None end
  else if c =? 120 then match ap with UInt x :: ap => Some (int_text x 16 false, ap) | _ => None end
  else if c =? 112 then match ap with UWord x :: ap => Some (ptr_text x, ap) | _ => None end
  else if c =? 115 then match ap with UStr o :: ap => Some (default (str "(null)") o, ap) | _ => None end
  else if c =? 99 then match ap with UInt x :: ap => Some ([x], ap) | _ => None end
  else if c =? 37 then Some ([37], ap)
  else Some ([37; c], ap).

Fixpoint render (ps : list piece) (ap : list uarg) : option (list Z) :=
  match ps with
  | [] => Some []
  | Lit c :: ps => l ← render ps ap; Some (c :: l)
  | Conv c :: ps => '(out, ap) ← conversion c ap; l ← render ps ap; Some (out ++ l)
  end.

Definition to_fd (fd : Z) (l : list Z) : list (Z * Z) := (fun c => (fd, u8 c)) <$> l.

Lemma putc_all fd l out : for_all l (putc fd) out = Ret tt (out ++ to_fd fd l).
Proof.
  revert out. induction l as [|c l IH]; intros out; cbn [for_all].
  - by rewrite app_nil_r.
  - unfold bind at 1, putc at 1, modify. rewrite IH, <- app_assoc. done.
Qed.

Lemma uprintptr_eq fd x out : uprintptr fd x out = Ret tt (out ++ to_fd fd (ptr_text x)).
Proof.
  unfold uprintptr, ptr_text. unfold bind at 1, putc at 1, modify. unfold bind at 1, putc at 1, modify.
  rewrite <- !app_assoc. generalize (seqZ 0 16). intros l.
  assert (H : forall out, for_all l (fun i => putc fd (digits (Z.shiftr (u64 (Z.shiftl x (4 * i))) (64 - 4)))) out =
    Ret tt (out ++ to_fd fd ((fun i => digits (Z.shiftr (u64 (Z.shiftl x (4 * i))) (64 - 4))) <$> l))).
  { induction l as [|i l IH]; intros o; cbn [for_all]; [by rewrite app_nil_r|].
    unfold bind at 1, putc at 1, modify. rewrite IH, <- app_assoc. done. }
  rewrite H. by rewrite <- !app_assoc.
Qed.

(** One conversion in the loop. *)
Lemma vprintf_conv fd c fmt ap out :
  vprintf_loop fd (c :: fmt) 37 ap out = match conversion c ap with
    | Some (l, ap) => vprintf_loop fd fmt 0 ap (out ++ to_fd fd l)
    | None => Panic "fault"
    end.
Proof.
  cbn [vprintf_loop]. change (37 =? 0) with false. change (37 =? 37) with true. cbv iota. unfold conversion.
  repeat (match goal with |- context [c =? ?k] => destruct (Z.eqb_spec c k) end;
    [subst c; try (destruct ap as [|[x|x|o] ap]; try done);
     unfold bind, uprintint, int_text; rewrite ?putc_all, ?uprintptr_eq; done|]).
  unfold bind, putc, modify. by rewrite <- app_assoc.
Qed.

(** [vprintf] splits its format into characters and conversions and writes
    what each of them stands for, to the descriptor it was given; a [%] at the
    end writes nothing, and an unknown conversion is written as it is. *)
Theorem vprintf_renders fd fmt ap out :
  vprintf fd fmt ap out = match render (pieces fmt) ap with
    | Some l => Ret tt (out ++ to_fd fd l)
    | None => Panic "fault"
    end.
Proof.
  unfold vprintf. remember (length fmt) as n eqn:Hn. revert fmt ap out Hn.
  induction n as [n IH] using lt_wf_ind. intros [|c fmt] ap out Hn; [cbn; by rewrite app_nil_r|].
  cbn [vprintf_loop pieces]. change (0 =? 0) with true. cbv iota. destruct (Z.eqb_spec c 37) as [->|Hc].
  - destruct fmt as [|d fmt]; [cbn; by rewrite app_nil_r|]. rewrite vprintf_conv. cbn [render].
    destruct (conversion d ap) as [[l ap']|]; [|done]. cbn [mbind option_bind].
    rewrite (IH (length fmt)) by (subst; cbn; lia || done). destruct (render (pieces fmt) ap') as [l'|]; [|done].
    cbn. unfold to_fd. by rewrite fmap_app, app_assoc.
  - unfold bind at 1, putc at 1, modify. rewrite (IH (length fmt)) by (subst; cbn; lia || done). cbn [render].
    destruct (render (pieces fmt) ap) as [l'|]; [|done]. cbn. by rewrite <- app_assoc.
Qed.

(** ** [atoi] *)

Definition is_dec (c : Z) : Prop := 48 <= c <= 57.
Definition dec_val (l : list Z) : Z := fold_left (fun n c => n * 10 + (c - 48)) l 0.

Lemma dec_val_snoc l c : dec_val (l ++ [c]) = dec_val l * 10 + (c - 48).
Proof. unfold dec_val. by rewrite fold_left_app. Qed.

Lemma dec_val_nonneg l : Forall is_dec l -> 0 <= dec_val l.
Proof.
  induction l as [|c l IH] using rev_ind; intros Hl; [done|]. apply Forall_app in Hl as [Hl Hc].
  rewrite list.Forall_singleton in Hc. rewrite dec_val_snoc. unfold is_dec in Hc. specialize (IH Hl). lia.
Qed.

Lemma dec_val_prefix l1 l2 : Forall is_dec (l1 ++ l2) -> dec_val l1 <= dec_val (l1 ++ l2).
Proof.
  induction l2 as [|c l2 IH] using rev_ind; intros Hl; [by rewrite app_nil_r|].
  rewrite app_assoc in *. apply Forall_app in Hl as [Hl Hc]. rewrite list.Forall_singleton in Hc.
  rewrite dec_val_snoc. pose proof (dec_val_nonneg _ Hl). specialize (IH Hl). unfold is_dec in Hc. lia.
Qed.

(** [atoi] reads the digits up to the first character that is none. *)
Lemma atoi_eq m p ds c : arr m p (ds ++ [c]) -> Forall is_dec ds -> ~ is_dec c -> dec_val ds <= INT_MAX ->
  Z.of_nat (length ds) < 2 ^ 64 -> atoi p m = Ret (dec_val ds) m.
Proof.
  intros Ha Hd Hc Hmax Hlen. enough (Hw : wp (atoi p) m (fun r m' => m' = m /\ r = dec_val ds)).
  { by apply wp_inv in Hw as (r & m' & E & -> & ->). }
  unfold atoi. apply (wp_loop (fun '(s, n) m' => m' = m /\ exists l1 l2, ds = l1 ++ l2 /\
    s = p + Z.of_nat (length l1) /\ n = dec_val l1) (fun '(s, _) => Z.of_nat (length ds) - (s - p))).
  - split; [done|]. exists [], ds. split; [done|]. split; [cbn; lia|done].
  - lia.
  - intros [s n] m' (_ & l1 & l2 & -> & -> & _). rewrite length_app. lia.
  - intros [s n] m' (-> & l1 & l2 & E & -> & ->). subst ds. rewrite <- app_assoc in Ha. apply arr_app in Ha as [_ Ha].
    destruct l2 as [|d l2].
    + apply arr_cons in Ha as [Hp _]. apply wp_bind. eapply wp_eq; [by apply load_run|].
      rewrite app_nil_r. destruct (Z.leb_spec 48 c), (Z.leb_spec c 57); cbn [andb]; try (by apply wp_ret).
      destruct Hc. unfold is_dec. lia.
    + apply arr_cons in Ha as [Hp _]. apply wp_bind. eapply wp_eq; [by apply load_run|].
      assert (Hdd : is_dec d) by (apply Forall_app in Hd as [_ [Hdd _]%list.Forall_cons]; done). unfold is_dec in Hdd.
      rewrite (proj2 (Z.leb_le 48 d)), (proj2 (Z.leb_le d 57)) by lia. cbn [andb]. apply wp_ret.
      assert (El : l1 ++ d :: l2 = (l1 ++ [d]) ++ l2) by by rewrite <- app_assoc.
      rewrite El in *. split; [|rewrite !length_app; cbn [length]; lia]. split; [done|].
      exists (l1 ++ [d]), l2. split; [done|]. split; [rewrite length_app; cbn [length]; lia|].
      pose proof (dec_val_prefix _ _ Hd) as Hle. apply Forall_app in Hd as [Hd1 _].
      pose proof (dec_val_nonneg _ Hd1) as Hnn. rewrite dec_val_snoc in *.
      replace (dec_val l1 * 10 + d - 48) with (dec_val l1 * 10 + (d - 48)) by lia. apply s32_small.
      unfold is_int, INT_MIN, INT_MAX in *. lia.
Qed.

(** The digits of a number. *)
Lemma udigits_dec fuel x : 0 <= x < 10 ^ Z.of_nat fuel ->
  Forall is_dec (udigits_of fuel x 10) /\ (fuel <> 0%nat -> dec_val (reverse (udigits_of fuel x 10)) = x).
Proof.
  revert x. induction fuel as [|n IH]; intros x Hx; [split; [constructor|done]|]. cbn [udigits_of].
  rewrite Nat2Z.inj_succ, Z.pow_succ_r in Hx by lia. pose proof (Z.mod_pos_bound x 10 ltac:(lia)) as Hm.
  assert (Hd : digits (x mod 10) = 48 + x mod 10) by (unfold digits; by rewrite (proj2 (Z.ltb_lt _ _)) by lia).
  destruct (Z.eqb_spec (x / 10) 0) as [E|E]; cbn [negb].
  - split; [constructor; [unfold is_dec; lia|constructor]|]. intros _. rewrite reverse_singleton. unfold dec_val. cbn [fold_left]. zlia.
  - destruct (IH (x / 10)) as [H1 H2]; [zlia|]. split; [constructor; [unfold is_dec; lia|done]|]. intros _.
    rewrite reverse_cons, dec_val_snoc, H2; [zlia|]. intros ->. cbn in Hx. zlia.
Qed.

(** [atoi] reads back what [printf] writes for [%d].  [printint] in base 10
    writes the text of the number to the descriptor; for a number that is not
    negative, [atoi] of this text, followed in memory by any character that is
    not a digit, returns the number; for a negative one it returns 0, since it
    does not know the sign. *)
Theorem atoi_printint fd x out m p c (Hx : is_int x) (Hc : ~ is_dec c) (Ha : arr m p (int_text x 10 true ++ [c])) :
  uprintint fd x 10 true out = Ret tt (out ++ to_fd fd (int_text x 10 true)) /\
  atoi p m = Ret (Z.max 0 x) m.
Proof.
  split; [apply putc_all|]. unfold is_int, INT_MIN, INT_MAX in Hx. unfold int_text, uprintint_buf in Ha. cbn [andb] in Ha.
  destruct (Z.ltb_spec x 0) as [Hneg|Hpos].
  - rewrite reverse_app in Ha. change (reverse [45] ++ ?l) with (45 :: l) in Ha. rewrite <- app_comm_cons in Ha.
    rewrite Z.max_l by lia. change 0 with (dec_val []). apply (atoi_eq m p [] 45); try done.
    + apply arr_cons in Ha as [Ha _]. apply arr_cons. split; [done|by intros i b].
    + unfold is_dec. lia.
  - rewrite app_nil_r, u32_small in Ha by lia. rewrite Z.max_r by lia.
    destruct (udigits_dec 16 x) as [H1 H2]; [change (10 ^ Z.of_nat 16) with 10000000000000000; lia|].
    assert (Hl : (length (udigits_of 16 x 10) <= 16)%nat).
    { clear. generalize 16%nat. intros n. revert x. induction n as [|n IH]; intros x; [done|]. cbn [udigits_of length].
      case_match; cbn [length]; [specialize (IH (x / 10))|]; lia. }
    rewrite <- (H2 ltac:(done)) at 1. apply (atoi_eq m p _ c); [done|by apply Forall_reverse|done| |].
    + rewrite H2 by done. unfold INT_MAX. lia.
    + rewrite length_reverse. lia.
Qed.

Lemma atoi_printint_witness :
  uprintint 1 (-7) 10 true [] = Ret tt (to_fd 1 [45; 55]) /\
  atoi 10 (list_to_map [(10, 52); (11, 50); (12, 0); (13, 9)]) = Ret 42 (list_to_map [(10, 52); (11, 50); (12, 0); (13, 9)]).
Proof.
  split.
  - refine (proj1 (atoi_printint 1 (-7) [] (list_to_map [(10, 45); (11, 55); (12, 0); (13, 9)]) 10 0 _ _ _)).
    + unfold is_int, INT_MIN, INT_MAX. lia.
    + unfold is_dec. lia.
    + arr_tac.
  - refine (proj2 (atoi_printint 1 42 [] (list_to_map [(10, 52); (11, 50); (12, 0); (13, 9)]) 10 0 _ _ _)).
    + unfold is_int, INT_MIN, INT_MAX. lia.
    + unfold is_dec. lia.
    + arr_tac.
Defined.

(** ** Strings *)

Definition text (l : list Z) : Prop := Forall (fun b => b <> 0) l.

Section string.
Context {m : gmap Z Z} {p : Z} {s : list Z}.
Hypotheses (Ha : arr m p (s ++ [0])) (Hs : text s) (Hlen : Z.of_nat (length s) < 2 ^ 31).

(** The character after [l1], and whether it is the NUL. *)
Lemma text_at l1 l2 : s = l1 ++ l2 -> m !! (p + Z.of_nat (length l1)) = Some (ch l2) /\ (ch l2 = 0 <-> l2 = []).
Proof.
  intros E. rewrite E, <- app_assoc in Ha. apply arr_app in Ha as [_ Ha']. split; [by apply arr_ch|].
  destruct l2 as [|c l2]; [done|]. rewrite E in Hs. apply Forall_app in Hs as [_ [Hc _]%list.Forall_cons]. by split.
Qed.

Lemma strlen_eq : strlen p m = Ret (Z.of_nat (length s)) m.
Proof.
  enough (Hw : wp (strlen p) m (fun r m' => m' = m /\ r = Z.of_nat (length s))).
  { by apply wp_inv in Hw as (r & m' & E & -> & ->). }
  unfold strlen. apply wp_bind. eapply wp_mono.
  { apply (wp_loop (fun n m' => m' = m /\ exists l1 l2, s = l1 ++ l2 /\ n = Z.of_nat (length l1))
      (fun n => Z.of_nat (length s) - n) _ (fun n m' => m' = m /\ n = Z.of_nat (length s))).
    - split; [done|]. by exists [], s.
    - lia.
    - intros n m' (_ & l1 & l2 & -> & ->). rewrite length_app. lia.
    - intros n m' (-> & l1 & l2 & E & ->). destruct (text_at l1 l2 E) as [Hc H0].
      apply wp_bind. eapply wp_eq; [by apply load_run|]. destruct (Z.eqb_spec (ch l2) 0) as [Ez|Ez]; cbn [negb].
      + apply wp_ret. apply H0 in Ez. subst l2. rewrite E, app_nil_r. done.
      + apply wp_ret. destruct l2 as [|c l2]; [by destruct Ez; apply H0|].
        assert (Hl : length s = (length l1 + S (length l2))%nat) by (by rewrite E, length_app).
        rewrite s32_small by (unfold is_int, INT_MIN, INT_MAX; lia). split; [|lia]. split; [done|].
        exists (l1 ++ [c]), l2. rewrite <- app_assoc. split; [done|]. rewrite length_app. cbn [length]. lia. }
  intros n m' [-> ->]. apply wp_ret. split; [done|]. apply u32_small. lia.
Qed.

(** The first occurrence of a character. *)
Fixpoint index_of (c : Z) (l : list Z) : option Z :=
  match l with
  | [] => None
  | a :: l => if a =? c then Some 0 else Z.succ <$> index_of c l
  end.

Lemma strchr_eq c : strchr p c m = Ret (match index_of c s with Some i => p + i | None => 0 end) m.
Proof.
  enough (Hw : wp (strchr p c) m (fun r m' => m' = m /\ r = match index_of c s with Some i => p + i | None => 0 end)).
  { by apply wp_inv in Hw as (r & m' & E & -> & ->). }
  unfold strchr. apply (wp_loop (fun q m' => m' = m /\ exists l1 l2, s = l1 ++ l2 /\ q = p + Z.of_nat (length l1) /\
      index_of c s = Z.add (Z.of_nat (length l1)) <$> index_of c l2) (fun q => Z.of_nat (length s) - (q - p))).
  - split; [done|]. exists [], s. split; [done|]. split; [cbn; lia|]. by destruct (index_of c s).
  - lia.
  - intros q m' (_ & l1 & l2 & -> & -> & _). rewrite length_app. lia.
  - intros q m' (-> & l1 & l2 & E & -> & Ei). destruct (text_at l1 l2 E) as [Hc H0].
    apply wp_bind. eapply wp_eq; [by apply load_run|]. destruct (Z.eqb_spec (ch l2) 0) as [Ez|Ez]; cbn [negb].
    + apply wp_ret. rewrite Ei. apply H0 in Ez. by subst l2.
    + destruct l2 as [|a l2]; [by destruct Ez; apply H0|]. change (ch (a :: l2)) with a in *. cbn [index_of] in *.
      destruct (Z.eqb_spec a c) as [Ea|Ea]; apply wp_ret; [rewrite Ei; cbn; split; [done|lia]|].
      assert (Hl : length s = (length l1 + S (length l2))%nat) by (by rewrite E, length_app). split; [|lia].
      split; [done|]. exists (l1 ++ [a]), l2. rewrite <- app_assoc, length_app. cbn [length].
      split; [done|]. split; [lia|]. rewrite Ei. destruct (index_of c l2); [|done]. cbn. f_equal. lia.
Qed.

Lemma l_strncmp_step n a b (c : bool) : negb (ch a =? 0) && (ch a =? ch b) = c ->
  l_strncmp (S n) a b = if c then l_strncmp n (tl a) (tl b) else ch a - ch b.
Proof. intros <-. done. Qed.

(** [strcmp] is [strncmp] of as many characters as the first string has. *)
Lemma strcmp_eq q t : arr m q (t ++ [0]) -> strcmp p q m = Ret (l_strncmp (S (length s)) s t) m.
Proof.
  intros Ht. enough (Hw : wp (strcmp p q) m (fun r m' => m' = m /\ r = l_strncmp (S (length s)) s t)).
  { by apply wp_inv in Hw as (r & m' & E & -> & ->). }
  unfold strcmp. apply (wp_loop (fun '(a, b) m' => m' = m /\ exists l1 l2 t2, s = l1 ++ l2 /\ a = p + Z.of_nat (length l1) /\
      arr m b (t2 ++ [0]) /\ l_strncmp (S (length s)) s t = l_strncmp (S (length l2)) l2 t2)
      (fun '(a, _) => Z.of_nat (length s) - (a - p))).
  - split; [done|]. exists [], s, t. split_and!; try done. cbn. lia.
  - lia.
  - intros [a b] m' (_ & l1 & l2 & t2 & -> & -> & _). rewrite length_app. lia.
  - intros [a b] m' (-> & l1 & l2 & t2 & E & -> & Ht2 & Ec). destruct (text_at l1 l2 E) as [Hc H0].
    apply wp_bind. eapply wp_eq; [by apply load_run|]. apply wp_bind. eapply wp_eq; [by apply load_run, arr_ch|].
    destruct (negb (ch l2 =? 0) && (ch l2 =? ch t2)) eqn:Eb; apply wp_ret.
    2:{ split; [done|]. rewrite Ec. by rewrite (l_strncmp_step _ _ _ _ Eb). }
    rewrite (l_strncmp_step _ _ _ _ Eb) in Ec. apply andb_true_iff in Eb as [Ez%negb_true_iff%Z.eqb_neq Eq%Z.eqb_eq].
    destruct l2 as [|c l2]; [by destruct Ez; apply H0|].
    assert (Hl : length s = (length l1 + S (length l2))%nat) by (by rewrite E, length_app). split; [|lia].
    split; [done|]. exists (l1 ++ [c]), l2, (tl t2). rewrite <- app_assoc, length_app. cbn [length].
    split; [done|]. split; [lia|]. split; [apply arr_tl; [done|congruence]|exact Ec].
Qed.
End string.

Lemma writes_next (m m1 : gmap Z Z) d l b :
  writes m m1 d l -> writes m (<[d + Z.of_nat (length l) := b]> m1) d (l ++ [b]).
Proof.
  intros [Ha Hs]. split.
  - apply arr_app. split; [apply arr_insert_ne; [done|lia]|]. apply arr_cons. split; [apply lookup_insert_eq|by intros i c].
  - rewrite length_app. cbn [length]. intros a Hout. rewrite lookup_insert_ne by lia. apply Hs. lia.
Qed.

(** What was written elsewhere does not change an array. *)
Lemma writes_arr (m m1 : gmap Z Z) d l p t : writes m m1 d l -> arr m p t ->
  d + Z.of_nat (length l) <= p \/ p + Z.of_nat (length t) <= d -> arr m1 p t.
Proof. intros [_ Hs] Ha Hd i c Hi. rewrite Hs; [by apply Ha|]. apply lookup_lt_Some in Hi. lia. Qed.

Lemma strcpy_eq (m : gmap Z Z) d q t : arr m q (t ++ [0]) -> bytes t -> text t -> Z.of_nat (length t) < 2 ^ 31 ->
  mapped m d (S (length t)) -> apart d (S (length t)) q t ->
  exists m', strcpy d q m = Ret d m' /\ writes m m' d (t ++ [0]).
Proof.
  intros Ha Hb Ht Hlen Hm Hd. enough (Hw : wp (strcpy d q) m (fun r m' => r = d /\ writes m m' d (t ++ [0]))).
  { apply wp_inv in Hw as (r & m' & E & -> & Hw'). by exists m'. }
  unfold strcpy. apply wp_bind. eapply wp_mono.
  { apply (wp_loop (fun '(a, b) m' => exists l1 l2, t = l1 ++ l2 /\ a = d + Z.of_nat (length l1) /\
      b = q + Z.of_nat (length l1) /\ writes m m' d l1)
      (fun '(a, _) => Z.of_nat (length t) - (a - d)) _ (fun _ m' => writes m m' d (t ++ [0]))).
    - exists [], t. split_and!; try (cbn; lia); [done|apply writes_nil].
    - lia.
    - intros [a b] m' (l1 & l2 & -> & -> & _). rewrite length_app. lia.
    - intros [a b] m1 (l1 & l2 & E & -> & -> & Hw1). pose proof (text_at Ha Ht l1 l2 E) as [Hc H0].
      assert (Hl : length t = (length l1 + length l2)%nat) by (by rewrite E, length_app).
      assert (Hc1 : m1 !! (q + Z.of_nat (length l1)) = Some (ch l2)).
      { rewrite (proj2 Hw1); [done|]. unfold apart in Hd. lia. }
      assert (Hp : is_Some (m1 !! (d + Z.of_nat (length l1)))) by (rewrite (proj2 Hw1) by lia; apply Hm; lia).
      assert (Hr : 0 <= ch l2 < 256).
      { destruct l2 as [|c l2]; [cbn; lia|]. rewrite E in Hb. by apply Forall_app in Hb as [_ [Hr _]%list.Forall_cons]. }
      apply wp_bind. eapply wp_eq; [by apply load_run|]. apply wp_bind. eapply wp_eq; [by apply store_run|].
      pose proof (writes_next m m1 d l1 (ch l2) Hw1) as Hw2.
      destruct (Z.eqb_spec (ch l2) 0) as [Ez|Ez]; cbn [negb]; apply wp_ret.
      + rewrite Ez in Hw2. rewrite Ez. apply H0 in Ez. subst l2. by rewrite E, app_nil_r.
      + destruct l2 as [|c l2]; [by destruct Ez; apply H0|]. cbn [length] in Hl. split; [|lia].
        exists (l1 ++ [c]), l2. rewrite <- app_assoc, length_app. cbn [length]. split_and!; [done|lia|lia|exact Hw2]. }
  intros r m' Hw'. by apply wp_ret.
Qed.

(** The string routines of the user library, on strings in memory. [strlen]
    is the length; [strcmp] is 0 exactly for equal strings; [strchr] is the
    address of the first occurrence, or 0; [strcpy] to an area of its own
    writes the string with its NUL and nothing else; and [memmove] copies
    correctly for every overlap of its areas. *)
Theorem ulib_strings m p q d s t c (Hs : arr m p (s ++ [0])) (Ht : arr m q (t ++ [0])) (Hbt : bytes t)
    (Hns : text s) (Hnt : text t) (Hls : Z.of_nat (length s) < 2 ^ 31) (Hlt : Z.of_nat (length t) < 2 ^ 31)
    (Hd : mapped m d (S (length t))) :
  strlen p m = Ret (Z.of_nat (length s)) m /\
  (exists r, strcmp p q m = Ret r m /\ (r = 0 <-> s = t)) /\
  strchr p c m = Ret (match index_of c s with Some i => p + i | None => 0 end) m /\
  (apart d (S (length t)) q t -> exists m', strcpy d q m = Ret d m' /\ writes m m' d (t ++ [0])) /\
  (exists m', memmove d q (Z.of_nat (length t)) m = Ret d m' /\ writes m m' d t).
Proof.
  split; [by apply strlen_eq|]. split; [|split; [by apply strchr_eq|split; [by apply strcpy_eq|]]].
  - eexists. split; [by apply (strcmp_eq Hs Hns Hls q t)|]. rewrite l_strncmp_eq, !c_str_nonzero by done.
    rewrite (take_ge (s ++ [0])) by (rewrite length_app; cbn [length]; lia). split.
    + intros E. destruct (decide (length t <= length s)%nat) as [Hle|Hgt].
      * rewrite take_ge in E by (rewrite length_app; cbn [length]; lia). by apply app_inj_tail in E as [-> _].
      * rewrite take_app_le in E by lia. assert (H0 : 0 ∈ t).
        { eapply subseteq_take. rewrite <- E. apply elem_of_app. right. apply list_elem_of_here. }
        unfold text in Hnt. rewrite list.Forall_forall in Hnt. by destruct (Hnt 0 H0).
    + intros ->. by rewrite take_ge by (rewrite length_app; cbn [length]; lia).
  - apply arr_app in Ht as [Ht _]. unfold memmove. rewrite Nat2Z.id.
    assert (Hm : mapped m d (length t)) by (intros i Hi; apply Hd; lia). destruct (Z.ltb_spec d q) as [Hlt'|Hge].
    + destruct (copy_up_run t m d q) as (m' & E & Hw); [done..|lia|]. rewrite (bind_eq _ _ _ _ _ E). by exists m'.
    + destruct (copy_down_run t m d q) as (m' & E & Hw); [done..|lia|]. rewrite (bind_eq _ _ _ _ _ E). by exists m'.
Qed.

Lemma ulib_strings_witness :
  strlen 10 w_mem = Ret 3 w_mem /\ strchr 10 98 w_mem = Ret 11 w_mem /\
  exists m', strcpy 30 20 w_mem = Ret 30 m' /\ writes w_mem m' 30 [97; 98; 100; 0].
Proof.
  destruct (ulib_strings w_mem 10 20 30 [97; 98; 99] [97; 98; 100] 98) as (H1 & _ & H2 & H3 & _).
  - arr_tac.
  - arr_tac.
  - repeat constructor; vm_compute; congruence.
  - repeat constructor; discriminate.
  - repeat constructor; discriminate.
  - reflexivity.
  - reflexivity.
  - intros i Hi. do 4 (destruct i as [|i]; [eexists; reflexivity|]). exfalso. cbn in Hi. lia.
  - split; [exact H1|]. split; [exact H2|]. apply H3. cbv [apart]. cbn. lia.
Defined.
