(* ===== verification/Chmod.v ===== *)
(** user/chmod.c: the change of permissions, of one file or of all below a
    directory, over the system calls it makes ([Calls]).  A string is a list
    without its NUL.  A recursive call has its own copy of the path, in a buffer on
    the stack; the size of the stack is not modelled. *)
From S2P Require Import Prelude CString Bytes Kernel Fs Sysfile Paths.

(** ** The calls *)

(** [open(path, omode)], [fstat(fd, &st)], [read(fd, &de, sizeof(de))] of a
    directory, [close(fd)] and [chmod(path, mode)], with what the call stores. *)
Class Calls (S : Type) := {
  u_open : list Z -> Z -> M S Z;
  u_fstat : Z -> M S (Z * stat);
  u_read : Z -> M S (Z * dirent);
  u_close : Z -> M S Z;
  u_chmod : list Z -> Z -> M S Z
}.

Definition dot : list Z := [46].
Definition dotdot : list Z := [46; 46].

(** ** The program *)

Section chmod.
Context {S : Type} {calls : Calls S}.

(** [de.name] as a string. *)
Definition entry_str (de : dirent) : list Z := c_str (take (Z.to_nat DIRSIZ) (de_name de)).
Definition is_dots (w : list Z) : bool := bool_decide (w = dot) || bool_decide (w = dotdot).
(** The size of [buf]. *)
Definition BUF : Z := 512.

(** The part of a symbolic link: whether it leads to a directory, [None] when
    its target cannot be opened. *)
Definition symlink_to_dir (path : list Z) : M S (option bool) :=
  let! fd := u_open path O_RDONLY in
  if fd <? 0 then ret None else
  let! '(r, target_st) := u_fstat fd in
  if r <? 0 then u_close fd ;;; ret None else
  let is_symlink_to_dir := st_type target_st =? T_DIR in
  u_close fd ;;;
  if is_symlink_to_dir then
    let! fd := u_open path O_RDONLY in
    if fd <? 0 then ret None else u_close fd ;;; ret (Some true)
  else ret (Some false).

(** The loop over the entries of the directory open at [fd]; [rec] is the
    recursive call. *)
Definition each_entry (rec : list Z -> Z -> M S Z) (fd : Z) (path : list Z) (mode : Z) : M S Z :=
  loop tt (fun _ =>
    let! '(n, de) := u_read fd in
    if n =? sizeof_dirent then
      if de_inum de =? 0 then ret (inl tt) else
      if is_dots (entry_str de) then ret (inl tt) else
      let! r := rec (path ++ SLASH :: entry_str de) mode in
      if r <? 0 then u_close fd ;;; ret (inr (-1)) else ret (inl tt)
    else ret (inr 0)).

(** A call of [chmod_recursive] makes the path longer, and the path of a directory
    that is read fits in [buf]: see [chmod_fuel_enough]. *)
Fixpoint chmod_recursive (fuel : nat) (path : list Z) (mode : Z) : M S Z :=
  match fuel with
  | O => fun _ => Fuel
  | Datatypes.S fuel =>
      let! fd := u_open path O_NOACCESS in
      if fd <? 0 then ret (-1) else
      let! '(r, st) := u_fstat fd in
      if r <? 0 then u_close fd ;;; ret (-1) else
      u_close fd ;;;
      let! link := (if st_type st =? T_SYMLINK then symlink_to_dir path else ret (Some false)) in
      match link with
      | None => ret (-1)
      | Some is_symlink_to_dir =>
          if (st_type st =? T_DIR) || is_symlink_to_dir then
            let will_have_read := negb (Z.land mode M_READ =? 0) in
            if negb will_have_read then
              let! fd := u_open path O_RDONLY in
              if fd <? 0 then
                let! r := u_chmod path mode in ret (if r <? 0 then -1 else 0)
              else if BUF <? Z.of_nat (length path) + 1 + DIRSIZ + 1 then u_close fd ;;; ret (-1) else
              let! r := each_entry (chmod_recursive fuel) fd path mode in
              if r <? 0 then ret (-1) else
              u_close fd ;;;
              let! r := u_chmod path mode in ret (if r <? 0 then -1 else 0)
            else
              let! r := u_chmod path mode in
              if r <? 0 then ret (-1) else
              let! fd := u_open path O_RDONLY in
              if fd <? 0 then ret (-1) else
              if BUF <? Z.of_nat (length path) + 1 + DIRSIZ + 1 then u_close fd ;;; ret (-1) else
              let! r := each_entry (chmod_recursive fuel) fd path mode in
              if r <? 0 then ret (-1) else
              u_close fd ;;; ret 0
          else
            let! r := u_chmod path mode in ret (if r <? 0 then -1 else 0)
      end
  end.

(** How [main] ends: with a message and status 1, or with status 0. *)
Inductive ending := Usage | Cannot (path : list Z) | Done.

(** [strcmp] with r, w, rw and wr: the bits that the letters name. *)
Definition permissions (perms : list Z) : option (bool * bool) :=
  if bool_decide (perms = [114]) then Some (true, false)
  else if bool_decide (perms = [119]) then Some (false, true)
  else if bool_decide (perms = [114; 119]) || bool_decide (perms = [119; 114]) then Some (true, true)
  else None.

Definition PLUS : Z := 43.
Definition MINUS : Z := 45.
Definition change (operation : Z) (read_perm write_perm : bool) (mode : Z) : Z :=
  if operation =? PLUS then
    let m := if read_perm then Z.lor mode M_READ else mode in
    if write_perm then Z.lor m M_WRITE else m
  else
    let m := if read_perm then Z.land mode (Z.lnot M_READ) else mode in
    if write_perm then Z.land m (Z.lnot M_WRITE) else m.

Definition chmod_main (argv : list (list Z)) : M S ending :=
  if (length argv <? 3)%nat then ret Usage else
  let recursive := (4 <=? length argv)%nat && bool_decide (argv !! 1%nat = Some [45; 82]) in
  let arg_idx := if recursive then 2%nat else 1%nat in
  let mode_str := default [] (argv !! arg_idx) in
  let path := default [] (argv !! (arg_idx + 1)%nat) in
  match mode_str with
  | operation :: perms =>
      if Z.of_nat (length mode_str) <? 2 then ret Usage else
      if negb (operation =? PLUS) && negb (operation =? MINUS) then ret Usage else
      match permissions perms with
      | None => ret Usage
      | Some (read_perm, write_perm) =>
          let! temp_fd := u_open path O_NOACCESS in
          if temp_fd <? 0 then ret (Cannot path) else
          let! '(r, st) := u_fstat temp_fd in
          if r <? 0 then u_close temp_fd ;;; ret (Cannot path) else
          u_close temp_fd ;;;
          let new_mode := change operation read_perm write_perm (st_mode st) in
          let! r := (if recursive then chmod_recursive (Z.to_nat BUF) path new_mode
                     else u_chmod path new_mode) in
          ret (if r <? 0 then Cannot path else Done)
      end
  | [] => ret Usage
  end.

(** *** The fuel is enough, whatever the calls do *)

Lemma bind_ext {A B} (m : M S A) (k k' : A -> M S B) s : (forall a s', k a s' = k' a s') -> bind m k s = bind m k' s.
Proof. intros H. unfold bind. destruct (m s); congruence. Qed.

Lemma while_log_ext {A R} n (body body' : A -> M S (A + R)) : (forall a s, body a s = body' a s) ->
  forall a s, while_log n a body s = while_log n a body' s.
Proof.
  intros H. induction n as [|n IH]; intros a s; [apply H|]. cbn [while_log]. unfold bind. rewrite IH.
  destruct (while_log n a body' s) as [[a'|v] s'|s'|msg|]; [apply IH|done..].
Qed.
Lemma loop_ext {A R} (body body' : A -> M S (A + R)) a s : (forall a s, body a s = body' a s) ->
  loop a body s = loop a body' s.
Proof. intros H. unfold loop. generalize 64%nat. intros n. unfold bind. by rewrite (while_log_ext n _ _ H). Qed.
Lemma each_entry_ext rec rec' fd path mode s :
  (forall a s', rec (path ++ SLASH :: a) mode s' = rec' (path ++ SLASH :: a) mode s') ->
  each_entry rec fd path mode s = each_entry rec' fd path mode s.
Proof.
  intros H. unfold each_entry. apply loop_ext.
  intros _ s'. apply bind_ext. intros [n de] t. destruct (n =? sizeof_dirent); [|done].
  destruct (de_inum de =? 0); [done|]. destruct (is_dots (entry_str de)); [done|].
  unfold bind. by rewrite H.
Qed.

Definition fuel_enough (fuel : nat) (path : list Z) : Prop :=
  (1 <= fuel)%nat /\ BUF <= Z.of_nat fuel + Z.of_nat (length path).
Lemma chmod_fuel_enough fuel fuel' path mode s : fuel_enough fuel path -> fuel_enough fuel' path ->
  chmod_recursive fuel path mode s = chmod_recursive fuel' path mode s.
Proof.
  revert fuel' path s. induction fuel as [|f IH]; intros [|f'] path s [H1 H2] [H3 H4]; try lia.
  assert (Hrec : forall fd t, (BUF <? Z.of_nat (length path) + 1 + DIRSIZ + 1) = false ->
    each_entry (chmod_recursive f) fd path mode t = each_entry (chmod_recursive f') fd path mode t).
  { intros fd t Hb%Z.ltb_ge. apply each_entry_ext. intros a t'. unfold BUF, DIRSIZ in *.
    apply IH; (split; [lia|rewrite length_app; cbn [length]; unfold BUF; lia]). }
  assert (Hrec2 : forall {B} fd (k : Z -> M S B) (e : M S B) t,
    (if BUF <? Z.of_nat (length path) + 1 + DIRSIZ + 1 then e else
      let! r := each_entry (chmod_recursive f) fd path mode in k r) t =
    (if BUF <? Z.of_nat (length path) + 1 + DIRSIZ + 1 then e else
      let! r := each_entry (chmod_recursive f') fd path mode in k r) t).
  { intros B fd k e t. destruct (BUF <? _) eqn:Hb; [done|]. unfold bind. by rewrite Hrec. }
  cbn [chmod_recursive]. apply bind_ext. intros fd t. destruct (fd <? 0); [done|].
  apply bind_ext. intros [r st] t1. destruct (r <? 0); [done|]. do 2 (apply bind_ext; intros).
  destruct a0 as [link|]; [|done]. destruct ((st_type st =? T_DIR) || link); [|done].
  destruct (negb (negb (Z.land mode M_READ =? 0))); apply bind_ext; intros r1 t2; destruct (r1 <? 0).
  - reflexivity.
  - apply Hrec2.
  - reflexivity.
  - apply bind_ext. intros fd2 t3. destruct (fd2 <? 0); [reflexivity|apply Hrec2].
Qed.
End chmod.

(** ** The new mode *)

(** The bits of the new mode: only those that the letters name change. *)
Lemma change_bits op rd wr m : op = PLUS \/ op = MINUS ->
  Z.testbit (change op rd wr m) 0 = (if rd then op =? PLUS else Z.testbit m 0) /\
  Z.testbit (change op rd wr m) 1 = (if wr then op =? PLUS else Z.testbit m 1).
Proof.
  intros [->| ->]; unfold change, M_READ, M_WRITE; cbn [Z.eqb PLUS MINUS Pos.eqb];
    destruct rd, wr; rewrite ?Z.lor_spec, ?Z.land_spec, ?Z.lnot_spec, ?Z.lor_spec, ?Z.land_spec, ?Z.lnot_spec by done;
    cbn; by rewrite ?orb_true_r, ?orb_false_r, ?andb_true_r, ?andb_false_r.
Qed.
