(* ===== verification/Grep.v ===== *)
(** user/grep.c: the matcher of Kernighan and Pike, and the buffer that cuts the
    input into lines.  A C string is the list of its characters before the NUL,
    and a pointer into it the rest of the list. *)
From S2P Require Import Prelude CString.

(** ** The matcher *)

Definition STAR : Z := 42.
Definition DOT : Z := 46.
Definition CARET : Z := 94.
Definition DOLLAR : Z := 36.
Definition NEWLINE : Z := 10.

(** [c*re] at the beginning of [text], where [here] is [matchhere re]. *)
Fixpoint matchstar (here : list Z -> bool) (c : Z) (text : list Z) : bool :=
  if here text then true else
  match text with
  | [] => false
  | t :: text' => if (t =? c) || (c =? DOT) then matchstar here c text' else false
  end.

Fixpoint matchhere (re text : list Z) : bool :=
  match re with
  | [] => true
  | c :: re1 =>
      let single :=
        if (c =? DOLLAR) && bool_decide (re1 = []) then bool_decide (text = []) else
        match text with
        | t :: text' => if (c =? DOT) || (c =? t) then matchhere re1 text' else false
        | [] => false
        end in
      match re1 with
      | x :: re2 => if x =? STAR then matchstar (matchhere re2) c text else single
      | [] => single
      end
  end.

(** The [do] loop of [match]. *)
Fixpoint match_from (re text : list Z) : bool :=
  if matchhere re text then true else
  match text with
  | [] => false
  | _ :: text' => match_from re text'
  end.

Definition grep_match (re text : list Z) : bool :=
  match re with
  | c :: re' => if c =? CARET then matchhere re' text else match_from re text
  | [] => match_from re text
  end.

(** ** The loop over the input

    [g_in] is what is left of the file and [g_out] what is written to standard
    output.  [size] is how many bytes a [read] of [n] bytes returns of the [len]
    that are left: any number, but 0 only at the end or for an empty request. *)

Record gstate := GState { g_in : list Z; g_out : list Z; g_buf : list Z }.
Definition GM := M gstate.
Definition set_g_in (v : list Z) (s : gstate) : gstate := GState v (g_out s) (g_buf s).
Definition set_g_out (v : list Z) (s : gstate) : gstate := GState (g_in s) v (g_buf s).
Definition set_g_buf (v : list Z) (s : gstate) : gstate := GState (g_in s) (g_out s) v.
Definition BUFSIZE : nat := 1024.

Section grep.
Variable size : nat -> nat -> nat.

Definition read (n : nat) : GM (list Z) :=
  let! l := gets g_in in
  let k := size (length l) n in
  modify (set_g_in (drop k l)) ;;;
  ret (take k l).
Definition write (l : list Z) : GM unit := modify (fun s => set_g_out (g_out s ++ l) s).
Definition updbuf (f : list Z -> list Z) : GM unit := modify (fun s => set_g_buf (f (g_buf s)) s).

(** The position of [c] in the C string at the start of [l]. *)
Fixpoint strchr (c : Z) (l : list Z) : option nat :=
  match l with
  | x :: l' => if x =? 0 then None else if x =? c then Some O else S <$> strchr c l'
  | [] => None
  end.

(** The loop over the complete lines in the buffer; it returns [p]. *)
Definition grep_line (pattern : list Z) (p : nat) : GM (nat + nat) :=
  let! buf := gets g_buf in
  match strchr NEWLINE (drop p buf) with
  | None => ret (inr p)
  | Some i =>
      let q := (p + i)%nat in
      updbuf (fun buf => <[q := 0]> buf) ;;;
      let! buf := gets g_buf in
      when (grep_match pattern (c_str (drop p buf)))
        (updbuf (fun buf => <[q := NEWLINE]> buf) ;;;
         let! buf := gets g_buf in
         write (take (q + 1 - p) (drop p buf))) ;;;
      ret (inl (q + 1)%nat)
  end.
Definition grep_lines (pattern : list Z) : GM nat := loop O (grep_line pattern).

Definition grep (pattern : list Z) : GM unit :=
  loop O (fun m =>
    let! bytes := read (BUFSIZE - m - 1) in
    updbuf (fun buf => splice buf m bytes) ;;;
    let n := length bytes in
    if bool_decide (n = O) then ret (inr tt) else
    let m := (m + n)%nat in
    updbuf (fun buf => <[m := 0]> buf) ;;;
    let! p := grep_lines pattern in
    if bool_decide (0 < m)%nat then
      let m := (m - p)%nat in
      updbuf (fun buf => splice buf O (take m (drop p buf))) ;;;
      ret (inl m)
    else ret (inl m)).
End grep.

(** ** What a pattern means *)

Inductive atom := Char (c : Z) | AnyChar.
Inductive item := One (a : atom) | Many (a : atom).

Definition stands_for (a : atom) (x : Z) : Prop :=
  match a with Char c => x = c | AnyChar => True end.

(** The strings that a sequence of items describes. *)
Inductive describes : list item -> list Z -> Prop :=
| describes_nil : describes [] []
| describes_one a l x w : stands_for a x -> describes l w -> describes (One a :: l) (x :: w)
| describes_many a l u w : Forall (stands_for a) u -> describes l w -> describes (Many a :: l) (u ++ w).

Record regex := Regex { at_start : bool; items : list item; at_end : bool }.

Definition atom_of (c : Z) : atom := if c =? DOT then AnyChar else Char c.

(** The items of a pattern without a leading ^, and whether it ends in $.  A $
    elsewhere, a ^ elsewhere and a leading * stand for themselves. *)
Fixpoint items_of (re : list Z) : list item * bool :=
  match re with
  | [] => ([], false)
  | c :: re1 =>
      let single :=
        if (c =? DOLLAR) && bool_decide (re1 = []) then ([], true)
        else let '(l, e) := items_of re1 in (One (atom_of c) :: l, e) in
      match re1 with
      | x :: re2 =>
          if x =? STAR then let '(l, e) := items_of re2 in (Many (atom_of c) :: l, e) else single
      | [] => single
      end
  end.

Definition regex_of (re : list Z) : regex :=
  let '(s, re') := match re with c :: re' => if c =? CARET then (true, re') else (false, re) | [] => (false, re) end in
  let '(l, e) := items_of re' in Regex s l e.

(** [text] contains a string that the pattern describes, where it must be. *)
Definition occurs (r : regex) (text : list Z) : Prop :=
  exists pre w post, text = pre ++ w ++ post /\ describes (items r) w /\
    (at_start r = true -> pre = []) /\ (at_end r = true -> post = []).

Definition prefix_of (p : list item * bool) (text : list Z) : Prop :=
  exists w post, text = w ++ post /\ describes p.1 w /\ (p.2 = true -> post = []).

Lemma stands_for_atom c x : stands_for (atom_of c) x <-> (c =? DOT) || (c =? x) = true.
Proof.
  unfold atom_of, stands_for. destruct (Z.eqb_spec c DOT) as [->|Hc]; simpl; [tauto|].
  rewrite Z.eqb_eq. split; congruence.
Qed.

Lemma prefix_one a l e text : prefix_of (One a :: l, e) text <->
  exists x text', text = x :: text' /\ stands_for a x /\ prefix_of (l, e) text'.
Proof.
  split.
  - intros (w & post & -> & H & He). simpl in H. inversion H as [|? ? x w' Hx Hw|]; subst.
    exists x, (w' ++ post). split; [done|]. split; [done|]. by exists w', post.
  - intros (x & text' & -> & Hx & w & post & -> & Hw & He). exists (x :: w), post.
    split; [done|]. split; [by constructor|done].
Qed.

Lemma prefix_many a l e text : prefix_of (Many a :: l, e) text <->
  exists u text', text = u ++ text' /\ Forall (stands_for a) u /\ prefix_of (l, e) text'.
Proof.
  split.
  - intros (w & post & -> & H & He). simpl in H. inversion H as [| |? ? u w' Hu Hw]; subst.
    exists u, (w' ++ post). split; [by rewrite (assoc_L (++))|]. split; [done|]. by exists w', post.
  - intros (u & text' & -> & Hu & w & post & -> & Hw & He). exists (u ++ w), post.
    split; [by rewrite (assoc_L (++))|]. split; [by constructor|done].
Qed.

Lemma matchstar_spec here c text : matchstar here c text = true <->
  exists u text', text = u ++ text' /\ Forall (stands_for (atom_of c)) u /\ here text' = true.
Proof.
  induction text as [|t text IH]; simpl.
  - destruct (here []) eqn:E.
    + split; [|done]. intros _. by exists [], [].
    + split; [done|]. intros (u & text' & Hu & _ & H). symmetry in Hu.
      apply app_nil in Hu as [-> ->]. congruence.
  - destruct (here (t :: text)) eqn:E.
    { split; [|done]. intros _. by exists [], (t :: text). }
    assert (Hc : (t =? c) || (c =? DOT) = true <-> stands_for (atom_of c) t).
    { rewrite stands_for_atom, (Z.eqb_sym t c), orb_comm. done. }
    destruct ((t =? c) || (c =? DOT)).
    + rewrite IH. split.
      * intros (u & text' & -> & Hu & H). exists (t :: u), text'. split; [done|].
        split; [|done]. constructor; [by apply Hc|done].
      * intros ([|x u] & text' & Hu & Hall & H); [simpl in Hu; subst; congruence|].
        injection Hu as <- ->. apply list.Forall_cons in Hall as [_ Hall]. by exists u, text'.
    + split; [done|]. intros ([|x u] & text' & Hu & Hall & H); [simpl in Hu; subst; congruence|].
      injection Hu as <- ->. apply list.Forall_cons in Hall as [Hx _]. by apply Hc in Hx.
Qed.

(** A single character in front of the rest of a pattern. *)
Lemma single_spec c re1 text :
  (forall text, matchhere re1 text = true <-> prefix_of (items_of re1) text) ->
  (if (c =? DOLLAR) && bool_decide (re1 = []) then bool_decide (text = []) else
   match text with
   | t :: text' => if (c =? DOT) || (c =? t) then matchhere re1 text' else false
   | [] => false
   end) = true <->
  prefix_of (if (c =? DOLLAR) && bool_decide (re1 = []) then ([], true)
    else let '(l, e) := items_of re1 in (One (atom_of c) :: l, e)) text.
Proof.
  intros IH. destruct ((c =? DOLLAR) && bool_decide (re1 = [])).
  - rewrite bool_decide_eq_true. split.
    + intros ->. exists [], []. split; [done|]. by split; [constructor|].
    + intros (w & post & -> & Hw & He). inversion Hw; subst. by rewrite He.
  - destruct (items_of re1) as [l e] eqn:E. rewrite prefix_one. split.
    + destruct text as [|t text]; [done|]. destruct (_ || _) eqn:Hc; [|done]. intros H.
      exists t, text. split; [done|]. split; [by apply stands_for_atom|by apply IH].
    + intros (x & text' & -> & Hx%stands_for_atom & H). rewrite Hx. by apply IH.
Qed.

Lemma matchhere_spec re text : matchhere re text = true <-> prefix_of (items_of re) text.
Proof.
  revert text. remember (length re) as n eqn:Hn. assert (Hle : (length re <= n)%nat) by lia. clear Hn.
  revert re Hle. induction n as [|n IH]; intros re Hle text.
  - destruct re; [|simpl in Hle; lia]. split; [|done]. intros _. exists [], text.
    split; [done|]. by split; [constructor|].
  - destruct re as [|c re1].
    { split; [|done]. intros _. exists [], text. split; [done|]. by split; [constructor|]. }
    simpl in Hle. assert (H1 := IH re1 ltac:(lia)). pose proof (single_spec c re1 text H1) as Hs.
    destruct re1 as [|x re2]; [exact Hs|]. simpl in Hle.
    cbn [matchhere items_of] in Hs |- *. destruct (x =? STAR); [|exact Hs].
    rewrite matchstar_spec. destruct (items_of re2) as [l e] eqn:E. rewrite prefix_many.
    pose proof (IH re2 ltac:(lia)) as H2. rewrite E in H2.
    split; intros (u & text' & -> & Hu & H); exists u, text'; (split; [done|]; split; [done|]); by apply H2.
Qed.

Lemma match_from_spec re text : match_from re text = true <->
  exists pre text', text = pre ++ text' /\ matchhere re text' = true.
Proof.
  induction text as [|t text IH]; simpl.
  - destruct (matchhere re []) eqn:E.
    + split; [|done]. intros _. by exists [], [].
    + split; [done|]. intros (pre & text' & Hp & H). symmetry in Hp. apply app_nil in Hp as [-> ->]. congruence.
  - destruct (matchhere re (t :: text)) eqn:E.
    { split; [|done]. intros _. by exists [], (t :: text). }
    rewrite IH. split.
    + intros (pre & text' & -> & H). by exists (t :: pre), text'.
    + intros ([|x pre] & text' & Hp & H); [simpl in Hp; subst; congruence|].
      injection Hp as -> ->. by exists pre, text'.
Qed.

(** C35: [match] decides what its pattern means, on every string: the pattern is
    a sequence of characters, each possibly repeated, a dot standing for any
    character; [match] finds a string that it describes anywhere in the text,
    at its beginning when the pattern starts with a caret, and up to its end
    when it ends with a dollar. *)
Theorem match_decides re text : grep_match re text = true <-> occurs (regex_of re) text.
Proof.
  assert (Hh : forall re', matchhere re' text = true <->
    occurs (let '(l, e) := items_of re' in Regex true l e) text).
  { intros re'. rewrite matchhere_spec. destruct (items_of re') as [l e]. split.
    - intros (w & post & -> & Hw & He). exists [], w, post. by split_and!.
    - intros (pre & w & post & -> & Hw & Hs & He). simpl in Hs. rewrite Hs by done.
      by exists w, post. }
  assert (Hf : match_from re text = true <-> occurs (let '(l, e) := items_of re in Regex false l e) text).
  { rewrite match_from_spec. destruct (items_of re) as [l e] eqn:E. split.
    - intros (pre & text' & -> & H). apply matchhere_spec in H as (w & post & -> & Hw & He).
      rewrite E in Hw, He. exists pre, w, post. by split_and!.
    - intros (pre & w & post & -> & Hw & Hs & He). exists pre, (w ++ post). split; [done|].
      apply matchhere_spec. exists w, post. by rewrite E. }
  unfold grep_match, regex_of. destruct re as [|c re']; [exact Hf|].
  destruct (c =? CARET); [apply Hh|exact Hf].
Qed.

(** ** The output *)

Section output.
Variable size : nat -> nat -> nat.
Hypothesis size_ok : forall len n, (size len n <= len)%nat /\ (size len n <= n)%nat /\
  ((0 < len)%nat -> (0 < n)%nat -> (0 < size len n)%nat).

(** The complete lines of [l], without their newlines, and what follows. *)
Fixpoint split_lines (l : list Z) : list (list Z) * list Z :=
  match l with
  | [] => ([], [])
  | x :: l' =>
      let '(ls, rest) := split_lines l' in
      if x =? NEWLINE then ([] :: ls, rest) else
      match ls with
      | [] => ([], x :: rest)
      | h :: ls' => ((x :: h) :: ls', rest)
      end
  end.

(** A line and its newline fit in the buffer with the NUL. *)
Definition fits (l : list Z) : bool := bool_decide (length l + 2 <= BUFSIZE)%nat.
Fixpoint fitting (ls : list (list Z)) : list (list Z) :=
  match ls with
  | l :: ls' => if fits l then l :: fitting ls' else []
  | [] => []
  end.

Definition unlines (ls : list (list Z)) : list Z := concat (map (fun l => l ++ [NEWLINE]) ls).
Definition selected (pattern : list Z) (ls : list (list Z)) : list Z :=
  unlines (List.filter (grep_match pattern) ls).

Definition no_newline (l : list Z) : Prop := Forall (fun x => x <> NEWLINE) l.

Lemma unlines_app l1 l2 : unlines (l1 ++ l2) = unlines l1 ++ unlines l2.
Proof. unfold unlines. by rewrite map_app, concat_app. Qed.

Lemma selected_snoc pattern ls l : selected pattern (ls ++ [l]) =
  selected pattern ls ++ if grep_match pattern l then l ++ [NEWLINE] else [].
Proof.
  unfold selected. rewrite List.filter_app, unlines_app. simpl.
  destruct (grep_match pattern l); unfold unlines; simpl; by rewrite ?app_nil_r.
Qed.

Lemma split_lines_none l : no_newline l -> split_lines l = ([], l).
Proof.
  induction 1 as [|x l Hx _ IH]; [done|]. simpl. rewrite IH. by rewrite (proj2 (Z.eqb_neq _ _)) by done.
Qed.

Lemma split_lines_one h l : no_newline h ->
  split_lines (h ++ NEWLINE :: l) = (h :: (split_lines l).1, (split_lines l).2).
Proof.
  induction 1 as [|x h Hx _ IH]; simpl; [destruct (split_lines l); by rewrite ?Z.eqb_refl|].
  rewrite IH. by rewrite (proj2 (Z.eqb_neq _ _)) by done.
Qed.

Lemma split_lines_unlines ls l : Forall no_newline ls ->
  split_lines (unlines ls ++ l) = (ls ++ (split_lines l).1, (split_lines l).2).
Proof.
  induction 1 as [|h ls Hh _ IH]; [exact (surjective_pairing (split_lines l))|].
  unfold unlines in *. simpl. rewrite <- !(assoc_L (++)). simpl.
  rewrite split_lines_one by done. by rewrite IH.
Qed.

Lemma fitting_app ls1 ls2 : Forall (fun l => fits l = true) ls1 ->
  fitting (ls1 ++ ls2) = ls1 ++ fitting ls2.
Proof. induction 1 as [|l ls H _ IH]; [done|]. simpl. by rewrite H, IH. Qed.

(** The first line of an input that begins with [h]. *)
Lemma split_lines_first h l : no_newline h ->
  split_lines (h ++ l) = match split_lines l with
    | ([], rest) => ([], h ++ rest)
    | (x :: ls, rest) => ((h ++ x) :: ls, rest)
    end.
Proof.
  induction 1 as [|x h Hx _ IH]; simpl; [by destruct (split_lines l) as [[|] ?]|].
  rewrite IH, (proj2 (Z.eqb_neq _ _)) by done. by destruct (split_lines l) as [[|] ?].
Qed.

Lemma split_lines_long h l : no_newline h -> (BUFSIZE <= length h + 1)%nat ->
  fitting (split_lines (h ++ l)).1 = [].
Proof.
  intros Hh Hlen. rewrite split_lines_first by done.
  destruct (split_lines l) as [[|x ls] rest]; [done|]. simpl. unfold fits.
  rewrite bool_decide_false; [done|]. rewrite length_app. lia.
Qed.

(** *** The buffer: the text [t], and a NUL behind it *)

Definition no_nul (l : list Z) : Prop := Forall (fun x => x <> 0) l.

Lemma strchr_none t l : no_nul t -> no_newline t -> strchr NEWLINE (t ++ 0 :: l) = None.
Proof.
  induction 1 as [|x t Hx _ IH]; intros Hn; [done|]. apply list.Forall_cons in Hn as [Hn1 Hn2]. simpl.
  by rewrite (proj2 (Z.eqb_neq _ _)), (proj2 (Z.eqb_neq _ _)), IH by done.
Qed.

Lemma strchr_some h l : no_nul h -> no_newline h -> strchr NEWLINE (h ++ NEWLINE :: l) = Some (length h).
Proof.
  induction 1 as [|x t Hx _ IH]; intros Hn; [done|]. apply list.Forall_cons in Hn as [Hn1 Hn2]. simpl.
  by rewrite (proj2 (Z.eqb_neq _ _)), (proj2 (Z.eqb_neq _ _)), IH by done.
Qed.

(** The first line of a text, if it has one. *)
Lemma first_line t : no_newline t \/ exists h l, no_newline h /\ t = h ++ NEWLINE :: l.
Proof.
  induction t as [|x t IH]; [left; constructor|]. destruct (Z.eq_dec x NEWLINE) as [->|Hx].
  - right. exists [], t. split; [constructor|done].
  - destruct IH as [H|(h & l & Hh & ->)]; [left; by constructor|].
    right. exists (x :: h), l. split; [by constructor|done].
Qed.

(** [grep_lines] on a buffer that holds [t] from [p] on: the output, and where
    the unfinished line starts. *)
Definition lines_done (pattern t rest : list Z) (s s' : gstate) (p p' : nat) : Prop :=
  let '(ls, t') := split_lines t in
  g_in s' = g_in s /\ length (g_buf s') = length (g_buf s) /\
  g_out s' = g_out s ++ selected pattern ls /\
  drop p' (g_buf s') = t' ++ 0 :: rest /\ (p' + length t' = p + length t)%nat.

Lemma wp_grep_lines pattern t rest p s (Q : nat -> gstate -> Prop) :
  no_nul t -> drop p (g_buf s) = t ++ 0 :: rest -> Z.of_nat (length t) < 2 ^ 32 ->
  (forall p' s', lines_done pattern t rest s s' p p' -> Q p' s') ->
  wp (loop p (grep_line pattern)) s Q.
Proof.
  intros Hnul Hdrop Hlen HQ.
  apply (wp_loop_idx (fun k p1 s1 => exists t1,
    k = Z.of_nat (length t1) /\ no_nul t1 /\ drop p1 (g_buf s1) = t1 ++ 0 :: rest /\
    forall p' s', lines_done pattern t1 rest s1 s' p1 p' -> lines_done pattern t rest s s' p p')
    _ _ (Z.of_nat (length t))).
  - by exists t.
  - lia.
  - intros k p1 s1 (t1 & -> & _). lia.
  - intros k p1 s1 (t1 & -> & Hn1 & Hd1 & Hst). unfold grep_line. apply wp_bind, wp_gets. rewrite Hd1.
    destruct (first_line t1) as [Hnl|(h & l & Hh & ->)].
    + rewrite strchr_none by done. apply wp_ret. apply HQ, Hst. unfold lines_done.
      rewrite split_lines_none by done. unfold selected, unlines. simpl. by rewrite app_nil_r.
    + apply Forall_app in Hn1 as [Hn1 Hn2]. apply list.Forall_cons in Hn2 as [_ Hn2].
      rewrite <- (assoc_L (++)). simpl. rewrite strchr_some by done. cbv zeta.
      rewrite <- (assoc_L (++)) in Hd1. simpl in Hd1.
      assert (Hb : g_buf s1 = take p1 (g_buf s1) ++ h ++ NEWLINE :: l ++ 0 :: rest)
        by (rewrite <- Hd1; by rewrite take_drop).
      assert (Hp1 : length (take p1 (g_buf s1)) = p1).
      { rewrite length_take. apply (f_equal length) in Hd1. rewrite length_drop, !length_app in Hd1. simpl in Hd1. lia. }
      set (b0 := take p1 (g_buf s1)) in *.
      assert (Hins : forall u v, <[(p1 + length h)%nat := v]> (b0 ++ h ++ u :: l ++ 0 :: rest) =
        b0 ++ h ++ v :: l ++ 0 :: rest).
      { intros u v. rewrite <- Hp1 at 1. rewrite insert_app_r. rewrite (insert_app_r_alt h) by lia.
        by rewrite Nat.sub_diag. }
      assert (Hdr : forall x, drop p1 (b0 ++ x) = x) by (intros x; by apply drop_app_length').
      apply wp_bind, wp_modify. cbn [g_buf set_g_buf]. apply wp_bind, wp_gets. cbn [g_buf set_g_buf].
      rewrite Hb, Hins, Hdr, c_str_text by done. apply wp_bind.
      assert (Hnext : forall w s2, g_in s2 = g_in s1 ->
        (exists v, g_buf s2 = b0 ++ h ++ v :: l ++ 0 :: rest) ->
        g_out s2 = g_out s1 ++ w -> w = selected pattern [h] ->
        wp (ret (inl (p1 + length h + 1)%nat)) s2 (fun r s' => match r with
          | inl a' => exists k', (exists t1, k' = Z.of_nat (length t1) /\ no_nul t1 /\
              drop a' (g_buf s') = t1 ++ 0 :: rest /\
              forall p' s2', lines_done pattern t1 rest s' s2' a' p' -> lines_done pattern t rest s s2' p p') /\
              k' < Z.of_nat (length (h ++ NEWLINE :: l))
          | inr v => Q v s'
          end)).
      { intros w s2 Hin [v Hbuf] Hout ->. apply wp_ret. exists (Z.of_nat (length l)).
        split; [|rewrite length_app; simpl; lia]. exists l. split; [done|]. split; [done|]. split.
        - rewrite Hbuf, (assoc_L (++)), cons_middle, (assoc_L (++)). apply drop_app_length'.
          rewrite !length_app, Hp1. simpl. lia.
        - intros p' s2' Hl. apply Hst. unfold lines_done in *. rewrite split_lines_one by done.
          destruct (split_lines l) as [ls t']. simpl. destruct Hl as (L1 & L2 & L3 & L4 & L5).
          split; [congruence|]. split; [|split; [|split; [done|]]].
          + rewrite L2, Hbuf, Hb, !length_app. simpl. rewrite !length_app. simpl. lia.
          + rewrite L3, Hout, <- (assoc_L (++)). f_equal. unfold selected. simpl.
            destruct (grep_match pattern h); unfold unlines; simpl; by rewrite ?app_nil_r, <- ?(assoc_L (++)).
          + rewrite length_app. simpl. lia. }
      destruct (grep_match pattern h) eqn:Hm; unfold when.
      * apply wp_bind, wp_modify. apply wp_bind, wp_gets. apply wp_modify. cbn [g_buf set_g_buf].
        rewrite Hins, Hdr. apply (Hnext (h ++ [NEWLINE])); cbn; try done.
        -- by exists NEWLINE.
        -- f_equal. rewrite (cons_middle NEWLINE), (assoc_L (++)). apply take_app_length'.
           rewrite length_app. simpl. lia.
        -- unfold selected. simpl. rewrite Hm. unfold unlines. simpl. by rewrite app_nil_r.
      * apply wp_ret, (Hnext []); cbn; try done.
        -- by exists 0.
        -- by rewrite app_nil_r.
        -- unfold selected. simpl. by rewrite Hm.
Qed.

(** *** The whole input *)

Lemma split_lines_parts l :
  l = unlines (split_lines l).1 ++ (split_lines l).2 /\
  Forall (fun h => no_newline h /\ (length h + 1 <= length l)%nat) (split_lines l).1 /\
  no_newline (split_lines l).2.
Proof.
  remember (length l) as n eqn:Hn. assert (Hle : (length l <= n)%nat) by lia.
  assert (Hg : l = unlines (split_lines l).1 ++ (split_lines l).2 /\
    Forall (fun h => no_newline h /\ (length h + 1 <= n)%nat) (split_lines l).1 /\
    no_newline (split_lines l).2); [|done]. clear Hn.
  revert l Hle. induction n as [|n IH]; intros l Hle.
  { destruct l; [|simpl in Hle; lia]. by split_and!; try constructor. }
  destruct (first_line l) as [H|(h & l' & Hh & ->)].
  { rewrite split_lines_none by done. split; [done|]. split; [constructor|done]. }
  rewrite length_app in Hle. simpl in Hle. destruct (IH l' ltac:(lia)) as (H1 & H2 & H3).
  rewrite split_lines_one by done. simpl. split; [|split; [|done]].
  - unfold unlines in *. simpl. rewrite <- !(assoc_L (++)). simpl. by rewrite <- H1.
  - constructor; [split; [done|lia]|]. eapply list.Forall_impl; [exact H2|]. intros x [? ?]. split; [done|lia].
Qed.

(** What [grep] has done when [m] bytes are left in the buffer. *)
Definition grepped (pattern input out0 : list Z) (m : nat) (s : gstate) : Prop :=
  exists ls t, input = unlines ls ++ t ++ g_in s /\
    Forall no_newline ls /\ Forall (fun l => fits l = true) ls /\ no_newline t /\
    length t = m /\ (m < BUFSIZE)%nat /\ take m (g_buf s) = t /\ length (g_buf s) = BUFSIZE /\
    g_out s = out0 ++ selected pattern ls.

Lemma grepped_end pattern input out0 m s : grepped pattern input out0 m s ->
  size (length (g_in s)) (BUFSIZE - m - 1) = O ->
  g_out s = out0 ++ selected pattern (fitting (split_lines input).1).
Proof.
  intros (ls & t & Hin & Hls & Hfit & Ht & Hlen & Hm & Hbuf & Hblen & Hout) H0.
  rewrite Hout, Hin, split_lines_unlines by done. simpl. rewrite fitting_app by done.
  assert (fitting (split_lines (t ++ g_in s)).1 = []) as ->; [|by rewrite app_nil_r].
  destruct (decide (length (g_in s) = O)) as [Hz|Hz].
  - apply nil_length_inv in Hz. rewrite Hz, app_nil_r. by rewrite split_lines_none.
  - apply split_lines_long; [done|]. destruct (size_ok (length (g_in s)) (BUFSIZE - m - 1)) as (_ & _ & Hp).
    destruct (decide (BUFSIZE - m - 1 = O)%nat); [lia|]. specialize (Hp ltac:(lia) ltac:(lia)). lia.
Qed.

(** The buffer after [read] and the NUL. *)
Lemma buffer_read (buf t bytes : list Z) m : take m buf = t -> length t = m -> length buf = BUFSIZE ->
  (m + length bytes < BUFSIZE)%nat ->
  exists rest, <[(m + length bytes)%nat := 0]> (splice buf m bytes) = (t ++ bytes) ++ 0 :: rest /\
    (length (t ++ bytes) + 1 + length rest = BUFSIZE)%nat.
Proof.
  intros Ht Hm Hb Hlt. unfold splice. rewrite Ht.
  destruct (drop (m + length bytes) buf) as [|x rest] eqn:E.
  { apply (f_equal length) in E. rewrite length_drop in E. simpl in E. lia. }
  exists rest. split.
  - rewrite (assoc_L (++)). rewrite insert_app_r_alt by (rewrite length_app; lia).
    by rewrite length_app, Hm, Nat.sub_diag.
  - apply (f_equal length) in E. rewrite length_drop in E. simpl in E. rewrite length_app. lia.
Qed.

Lemma grepped_round pattern input out0 m s s' bytes rest p :
  grepped pattern input out0 m s -> (length bytes <= length (g_in s))%nat ->
  (m + length bytes < BUFSIZE)%nat -> bytes = take (length bytes) (g_in s) ->
  lines_done pattern (take m (g_buf s) ++ bytes) rest
    (GState (drop (length bytes) (g_in s)) (g_out s) ((take m (g_buf s) ++ bytes) ++ 0 :: rest)) s' 0 p ->
  (length (take m (g_buf s) ++ bytes) + 1 + length rest = BUFSIZE)%nat ->
  grepped pattern input out0 (m + length bytes - p)
    (set_g_buf (splice (g_buf s') 0 (take (m + length bytes - p) (drop p (g_buf s')))) s').
Proof.
  intros (ls & t & Hin & Hls & Hfit & Ht & Hlen & Hm & Hbuf & Hblen & Hout) Hle Hlt Hby Hd Hrest.
  rewrite Hbuf in *. unfold lines_done in Hd.
  pose proof (split_lines_parts (t ++ bytes)) as (P1 & P2 & P3).
  destruct (split_lines (t ++ bytes)) as [ls2 t']. cbn [fst snd g_in g_out g_buf] in *.
  destruct Hd as (D1 & D2 & D3 & D4 & D5). rewrite length_app in D5.
  assert (m + length bytes - p = length t')%nat as -> by lia.
  assert (Htk : take (length t') (drop p (g_buf s')) = t') by (rewrite D4; apply take_app_length).
  assert (Hbl : length (g_buf s') = BUFSIZE) by (rewrite D2, length_app; simpl; lia).
  rewrite Htk. exists (ls ++ ls2), t'. cbn [g_in g_out g_buf set_g_buf]. rewrite length_app in Hrest.
  split_and!.
  - rewrite unlines_app, D1, Hin, <- (assoc_L (++)). f_equal.
    rewrite (assoc_L (++) (unlines ls2)), <- P1, <- (assoc_L (++)). f_equal.
    rewrite Hby at 1. by rewrite take_drop.
  - apply Forall_app. split; [done|]. eapply list.Forall_impl; [exact P2|]. by intros x [? _].
  - apply Forall_app. split; [done|]. eapply list.Forall_impl; [exact P2|]. intros x [_ Hx].
    unfold fits. rewrite bool_decide_true; [done|]. rewrite length_app in Hx. lia.
  - done.
  - done.
  - lia.
  - unfold splice. rewrite take_0. simpl. apply take_app_length.
  - rewrite length_splice; [done|]. rewrite Hbl. lia.
  - rewrite D3, Hout, <- (assoc_L (++)). f_equal. unfold selected. by rewrite List.filter_app, unlines_app.
Qed.

(** Whatever sizes the reads of the input have, [grep] returns and writes
    exactly the lines that match, in order and with their newlines, up to the
    first line of more than 1022 characters; a last line without a newline is
    not written. *)
Theorem grep_correct pattern s : no_nul (g_in s) -> length (g_buf s) = BUFSIZE ->
  Z.of_nat (length (g_in s)) < 2 ^ 32 ->
  exists s', grep size pattern s = Ret tt s' /\
    g_out s' = g_out s ++ selected pattern (fitting (split_lines (g_in s)).1).
Proof.
  intros Hn Hb Hlen. set (input := g_in s) in *. set (out0 := g_out s) in *.
  enough (Hw : wp (grep size pattern) s (fun _ s' =>
    g_out s' = out0 ++ selected pattern (fitting (split_lines input).1))).
  { destruct (wp_inv _ _ _ Hw) as ([] & s' & E & Ho). eauto. }
  unfold grep. apply (wp_loop_idx (fun k m s1 => k = Z.of_nat (length (g_in s1)) /\ k < 2 ^ 32 /\
    no_nul input /\ grepped pattern input out0 m s1) _ _ (Z.of_nat (length input))).
  - split; [done|]. split; [done|]. split; [done|]. exists [], []. unfold BUFSIZE in *.
    split_and!; try done; try constructor; [lia|]. by rewrite app_nil_r.
  - lia.
  - intros k m s1 (-> & _). lia.
  - intros k m s1 (-> & Hk & _ & Hg).
    destruct (size_ok (length (g_in s1)) (BUFSIZE - m - 1)) as (Z1 & Z2 & _).
    apply wp_bind. unfold read. apply wp_bind, wp_gets. apply wp_bind, wp_modify, wp_ret.
    remember (size (length (g_in s1)) (BUFSIZE - m - 1)) as j eqn:Hj.
    apply wp_bind, wp_modify. cbv zeta. rewrite length_take, Nat.min_l by done.
    destruct (decide (j = O)) as [->|Hj0].
    + rewrite bool_decide_true by done. apply wp_ret. cbn [g_out set_g_buf set_g_in].
      by apply (grepped_end pattern input out0 m s1 Hg).
    + rewrite bool_decide_false by done. apply wp_bind, wp_modify. apply wp_bind.
      cbn [g_out g_buf g_in set_g_buf set_g_in].
      pose proof Hg as (ls & t & Hin & Hls & Hfit & Ht & Htl & Hm & Hbuf & Hblen & Hout).
      assert (Hjl : length (take j (g_in s1)) = j) by (rewrite length_take; lia).
      destruct (buffer_read (g_buf s1) t (take j (g_in s1)) m Hbuf Htl Hblen ltac:(lia)) as (rest & Hr & Hrl).
      rewrite Hjl in Hr. rewrite Hr.
      assert (Hnul : no_nul (t ++ take j (g_in s1))).
      { unfold no_nul in *. fold input in Hn. rewrite Hin in Hn. apply Forall_app in Hn as [_ Hn].
        rewrite <- (take_drop j (g_in s1)), (assoc_L (++)) in Hn. by apply Forall_app in Hn as [Hn _]. }
      unfold grep_lines. eapply (wp_grep_lines pattern _ rest 0); [exact Hnul|done| |].
      { rewrite length_app in *. unfold BUFSIZE in *. lia. }
      intros p s' Hd. rewrite bool_decide_true by lia.
      apply wp_bind, wp_modify, wp_ret.
      exists (Z.of_nat (length (g_in s'))).
      assert (Hgin : g_in s' = drop j (g_in s1)).
      { unfold lines_done in Hd. destruct (split_lines _). by destruct Hd as (-> & _). }
      cbn [g_in set_g_buf]. rewrite Hgin, length_drop. split; [|lia].
      split; [done|]. split; [lia|]. split; [done|].
      rewrite <- Hbuf in Hd, Hrl. rewrite <- Hjl at 1 2.
      eapply grepped_round; [exact Hg|lia|lia|by rewrite Hjl|rewrite Hjl; exact Hd|exact Hrl].
Qed.
End output.

(** A [read] that returns at most three bytes. *)
Definition by_threes (len n : nat) : nat := Nat.min 3 (Nat.min len n).
Definition some_input : gstate :=
  GState [97; 98; 10; 98; 10; 97; 10; 97] [] (replicate BUFSIZE 0).

Lemma by_threes_ok len n : (by_threes len n <= len)%nat /\ (by_threes len n <= n)%nat /\
  ((0 < len)%nat -> (0 < n)%nat -> (0 < by_threes len n)%nat).
Proof. unfold by_threes. lia. Qed.

Lemma grep_correct_witness : no_nul (g_in some_input) /\
  exists s', grep by_threes [CARET; 97] some_input = Ret tt s' /\ g_out s' = [97; 98; 10; 97; 10].
Proof.
  assert (Hn : no_nul (g_in some_input)) by (repeat constructor; discriminate).
  split; [exact Hn|].
  destruct (grep_correct by_threes by_threes_ok [CARET; 97] some_input Hn eq_refl) as (s' & E & H).
  - reflexivity.
  - exists s'. split; [exact E|]. rewrite H. vm_compute. reflexivity.
Defined.
