(* ===== verification/Sh.v ===== *)
(** The parser of the shell, user/sh.c: recursive descent over a line of input,
    into trees whose words are pairs of positions in the line; [nulterminate]
    ends the words in place. *)
From S2P Require Import Prelude CString Sysfile.

(** ** Commands

    [W] is the type of the words: a pair of positions, the fields [argv[i]] and
    [eargv[i]] or [file] and [efile] of the C structs, or a string. *)

Inductive cmd (W : Type) :=
| EXEC (argv : list W)
| REDIR (c : cmd W) (file : W) (mode fd : Z)
| PIPE (left right : cmd W)
| LIST (left right : cmd W)
| BACK (c : cmd W).
Arguments EXEC {_} _.
Arguments REDIR {_} _ _ _ _.
Arguments PIPE {_} _ _.
Arguments LIST {_} _ _.
Arguments BACK {_} _.

Definition span : Type := nat * nat.
Definition MAXARGS : nat := 10.

Definition whitespace : list Z := [32; 9; 13; 10; 11].
Definition LESS : Z := 60.
Definition BAR : Z := 124.
Definition GREATER : Z := 62.
Definition AMP : Z := 38.
Definition SEMI : Z := 59.
Definition OPEN : Z := 40.
Definition CLOSE : Z := 41.
Definition symbols : list Z := [LESS; BAR; GREATER; AMP; SEMI; OPEN; CLOSE].

(** [strchr(l, c)] for [c] that is not NUL. *)
Definition among (l : list Z) (c : Z) : bool := existsb (Z.eqb c) l.
Definition is_space (c : Z) : bool := among whitespace c.
Definition is_word (c : Z) : bool := negb (among whitespace c) && negb (among symbols c).

(** How far a [while] loop over characters that satisfy [p] gets. *)
Fixpoint scan (p : Z -> bool) (l : list Z) : nat :=
  match l with
  | c :: l' => if p c then S (scan p l') else O
  | [] => O
  end.

(** ** Parsing

    The state of a computation is [*ps]; [buf] is the line without its NUL. *)

Section parser.
Variable buf : list Z.
Definition SM := M nat.
Definition char_at (s : nat) : Z := default 0 (buf !! s).
Definition skip (p : Z -> bool) (s : nat) : nat := (s + scan p (drop s buf))%nat.

Definition tok_a : Z := 97.
Definition tok_plus : Z := 43.

Definition gettoken : SM (Z * span) :=
  let! s := get in
  let q := skip is_space s in
  let c := char_at q in
  let '(r, s) :=
    if c =? 0 then (c, q)
    else if among [BAR; OPEN; CLOSE; SEMI; AMP; LESS] c then (c, S q)
    else if c =? GREATER then
      if char_at (S q) =? GREATER then (tok_plus, S (S q)) else (c, S q)
    else (tok_a, skip is_word q) in
  modify (fun _ => skip is_space s) ;;;
  ret (r, (q, s)).

Definition peek (toks : list Z) : SM bool :=
  let! s := get in
  let s := skip is_space s in
  modify (fun _ => s) ;;;
  ret (negb (char_at s =? 0) && among toks (char_at s)).

Definition parseredirs (c : cmd span) : SM (cmd span) :=
  loop c (fun c =>
    let! more := peek [LESS; GREATER] in
    if more then
      let! '(tok, _) := gettoken in
      let! '(t, w) := gettoken in
      if negb (t =? tok_a) then panic "missing file for redirection" else
      ret (inl
        (if tok =? LESS then REDIR c w O_RDONLY 0
         else if tok =? GREATER then REDIR c w (Z.lor (Z.lor O_WRONLY O_CREATE) O_TRUNC) 1
         else if tok =? tok_plus then REDIR c w (Z.lor O_WRONLY O_CREATE) 1
         else c))
    else ret (inr c)).

(** [parseexec] keeps a pointer to the command under the redirections, and
    writes its arguments there. *)
Fixpoint set_argv {W} (argv : list W) (c : cmd W) : cmd W :=
  match c with
  | REDIR c' f m fd => REDIR (set_argv argv c') f m fd
  | EXEC _ => EXEC argv
  | _ => c
  end.

(** [parseline] calls [parsepipe], [parsepipe] calls [parseexec] and
    [parseexec] calls [parseblock], which calls [parseline] again: [line] is
    that call. *)
Definition parseblock (line : SM (cmd span)) : SM (cmd span) :=
  let! b := peek [OPEN] in
  if negb b then panic "parseblock" else
  let! _ := gettoken in
  let! c := line in
  let! b := peek [CLOSE] in
  if negb b then panic "syntax - missing )" else
  let! _ := gettoken in
  parseredirs c.

Definition parseexec (line : SM (cmd span)) : SM (cmd span) :=
  let! b := peek [OPEN] in
  if b then parseblock line else
  let! r := parseredirs (EXEC []) in
  let! '(argv, r) := loop ([], r) (fun '(argv, r) =>
    let! stop := peek [BAR; CLOSE; AMP; SEMI] in
    if stop then ret (inr (argv, r)) else
    let! '(tok, w) := gettoken in
    if tok =? 0 then ret (inr (argv, r)) else
    if negb (tok =? tok_a) then panic "syntax" else
    let argv := argv ++ [w] in
    if bool_decide (MAXARGS <= length argv)%nat then panic "too many args" else
    let! r := parseredirs r in
    ret (inl (argv, r))) in
  ret (set_argv argv r).

Fixpoint parsepipe (fuel : nat) (line : SM (cmd span)) : SM (cmd span) :=
  match fuel with
  | O => fun _ => Fuel
  | S fuel' =>
      let! c := parseexec line in
      let! b := peek [BAR] in
      if b then
        let! _ := gettoken in
        let! c' := parsepipe fuel' line in
        ret (PIPE c c')
      else ret c
  end.

Fixpoint parseline (fuel : nat) : SM (cmd span) :=
  match fuel with
  | O => fun _ => Fuel
  | S fuel' =>
      let! c := parsepipe fuel (parseline fuel') in
      let! c := loop c (fun c =>
        let! b := peek [AMP] in
        if b then let! _ := gettoken in ret (inl (BACK c)) else ret (inr c)) in
      let! b := peek [SEMI] in
      if b then
        let! _ := gettoken in
        let! c' := parseline fuel' in
        ret (LIST c c')
      else ret c
  end.

(** The commands of a line; each call of [parseline] and [parsepipe] consumes a
    character of it. *)
Definition parse : SM (cmd span) :=
  let! c := parseline (S (length buf)) in
  let! _ := peek [] in
  let! s := get in
  if negb (s =? length buf)%nat then panic "syntax" else ret c.
End parser.

(** [nulterminate], on the characters of the line and its NUL. *)
Fixpoint nulterminate (c : cmd span) (l : list Z) : list Z :=
  match c with
  | EXEC argv => fold_left (fun l w => <[w.2 := 0]> l) argv l
  | REDIR c' f _ _ => <[f.2 := 0]> (nulterminate c' l)
  | PIPE c1 c2 | LIST c1 c2 => nulterminate c2 (nulterminate c1 l)
  | BACK c' => nulterminate c' l
  end.

(** [parsecmd] of the line [buf]: the command, and the characters in memory. *)
Definition parsecmd (buf : list Z) : SM (cmd span * list Z) :=
  let! c := parse buf in
  ret (c, nulterminate c (buf ++ [0])).

(** ** Words *)

Fixpoint words {W} (c : cmd W) : list W :=
  match c with
  | EXEC argv => argv
  | REDIR c' f _ _ => words c' ++ [f]
  | PIPE c1 c2 | LIST c1 c2 => words c1 ++ words c2
  | BACK c' => words c'
  end.

(** No command has more arguments than [argv] has room for, with the null. *)
Fixpoint args_fit {W} (c : cmd W) : Prop :=
  match c with
  | EXEC argv => (length argv < MAXARGS)%nat
  | REDIR c' _ _ _ | BACK c' => args_fit c'
  | PIPE c1 c2 | LIST c1 c2 => args_fit c1 /\ args_fit c2
  end.

Definition slice (buf : list Z) (w : span) : list Z := take (w.2 - w.1) (drop w.1 buf).

(** A word of the line: word characters, and not more of them behind it. *)
Definition word_ok (buf : list Z) (w : span) : Prop :=
  (w.1 < w.2 <= length buf)%nat /\ Forall (fun c => is_word c = true) (slice buf w) /\
  (w.2 = length buf \/ is_word (char_at buf w.2) = false).

Definition cmd_ok (buf : list Z) (c : cmd span) : Prop := Forall (word_ok buf) (words c) /\ args_fit c.

(** The messages of the parser. *)
Definition syntax_error (msg : string) : Prop :=
  msg ∈ ["syntax"; "syntax - missing )"; "missing file for redirection"; "too many args"].

Lemma scan_le p l : (scan p l <= length l)%nat.
Proof. induction l as [|c l IH]; simpl; [lia|]. destruct (p c); lia. Qed.

Lemma scan_all p l : Forall (fun c => p c = true) (take (scan p l) l).
Proof.
  induction l as [|c l IH]; simpl; [constructor|]. destruct (p c) eqn:E; simpl; [by constructor|constructor].
Qed.

Lemma scan_stop p l c : l !! scan p l = Some c -> p c = false.
Proof.
  induction l as [|x l IH]; simpl; [done|]. destruct (p x) eqn:E; simpl; [done|]. by intros [= <-].
Qed.

Lemma wpe_eq {S A} E (m : M S A) s (Q : A -> S -> Prop) a s' :
  m s = Ret a s' -> Q a s' -> wpe E m s Q.
Proof. intros H HQ. unfold wpe. by rewrite H. Qed.

Lemma peek_eq buf toks s : peek buf toks s =
  Ret (negb (char_at buf (skip buf is_space s) =? 0) && among toks (char_at buf (skip buf is_space s)))
    (skip buf is_space s).
Proof. done. Qed.

#[local] Opaque loop.

Section safety.
Variable buf : list Z.
Hypothesis no_nul : Forall (fun c => c <> 0) buf.
Hypothesis short : Z.of_nat (length buf) < 2 ^ 32.
Notation len := (length buf).
Notation sound := (wpe syntax_error).

Lemma char_at_nul s : char_at buf s = 0 <-> (len <= s)%nat.
Proof.
  unfold char_at. destruct (buf !! s) as [c|] eqn:E; simpl.
  - split; [|apply lookup_lt_Some in E; lia]. intros ->. rewrite Forall_lookup in no_nul.
    by apply no_nul in E.
  - apply lookup_ge_None in E. lia.
Qed.

Lemma skip_le p s : (s <= len)%nat -> (s <= skip buf p s <= len)%nat.
Proof. intros H. unfold skip. pose proof (scan_le p (drop s buf)) as Hs. rewrite length_drop in Hs. lia. Qed.

Lemma skip_stop p s : skip buf p s = len \/ p (char_at buf (skip buf p s)) = false \/ (len < s)%nat.
Proof.
  destruct (decide (len < s)%nat); [by right; right|].
  destruct (buf !! skip buf p s) as [c|] eqn:E.
  - right. left. unfold char_at. rewrite E. simpl. unfold skip in E. rewrite <- lookup_drop in E.
    by eapply scan_stop.
  - left. apply lookup_ge_None in E. pose proof (skip_le p s). lia.
Qed.

Lemma skip_word s : (s < len)%nat -> is_word (char_at buf s) = true ->
  word_ok buf (s, skip buf is_word s).
Proof.
  intros Hs Hc. pose proof (skip_le is_word s ltac:(lia)). unfold word_ok, slice. cbn [fst snd].
  assert (Hlt : (s < skip buf is_word s)%nat).
  { unfold skip. destruct (lookup_lt_is_Some_2 buf s Hs) as [c Ec].
    rewrite (drop_S _ _ _ Ec). unfold char_at in Hc. rewrite Ec in Hc. simpl in Hc. simpl. rewrite Hc. lia. }
  split; [lia|]. split.
  - replace (skip buf is_word s - s)%nat with (scan is_word (drop s buf)) by (unfold skip; lia).
    apply scan_all.
  - destruct (skip_stop is_word s) as [H1|[H1|H1]]; [by left|by right|lia].
Qed.

Lemma skip_skip s : (s <= len)%nat -> skip buf is_space (skip buf is_space s) = skip buf is_space s.
Proof.
  intros Hs. pose proof (skip_le is_space s Hs) as Hle. set (q := skip buf is_space s) in *.
  destruct (skip_stop is_space s) as [H|[H|H]]; [| |lia]; fold q in H.
  - pose proof (skip_le is_space q). lia.
  - unfold skip. destruct (buf !! q) as [c|] eqn:E.
    + rewrite (drop_S _ _ _ E). unfold char_at in H. rewrite E in H. simpl in *. rewrite H. lia.
    + apply lookup_ge_None in E. rewrite drop_ge by done. simpl. lia.
Qed.

Lemma is_word_char c : c <> GREATER -> is_space c = false ->
  among [BAR; OPEN; CLOSE; SEMI; AMP; LESS] c = false -> is_word c = true.
Proof.
  unfold is_word, is_space. intros Hg -> Hs. unfold among, symbols in *. simpl in *.
  rewrite (proj2 (Z.eqb_neq c GREATER)) by done. apply orb_false_elim in Hs as [-> Hs].
  apply orb_false_elim in Hs as [-> Hs]. apply orb_false_elim in Hs as [-> Hs].
  apply orb_false_elim in Hs as [-> Hs]. apply orb_false_elim in Hs as [-> Hs].
  by apply orb_false_elim in Hs as [-> Hs].
Qed.

(** A token is nonempty except at the end of the line. *)
Lemma gettoken_safe s (Q : Z * span -> nat -> Prop) : (s <= len)%nat ->
  (forall r w s', (s <= s' <= len)%nat -> (r = 0 <-> skip buf is_space s = len) ->
     (r <> 0 -> (s < s')%nat) -> (r = tok_a -> word_ok buf w) -> Q (r, w) s') ->
  sound (gettoken buf) s Q.
Proof.
  intros Hs HQ. unfold gettoken. apply wpe_bind. change (sound get s) with (fun Q : nat -> nat -> Prop => Q s s). cbv beta.
  pose proof (skip_le is_space s Hs) as Hq. set (q := skip buf is_space s) in *. cbv zeta.
  pose proof (char_at_nul q) as Hnul. set (c := char_at buf q) in *.
  assert (Hfin : forall r e, (q <= e <= len)%nat -> (r = 0 <-> q = len) -> (r <> 0 -> (q < e)%nat) ->
    (r = tok_a -> word_ok buf (q, e)) ->
    sound (modify (fun _ => skip buf is_space e) ;;; ret (r, (q, e))) s Q).
  { intros r e He H0 H1 H2. pose proof (skip_le is_space e ltac:(lia)).
    apply wpe_bind. change (Q (r, (q, e)) (skip buf is_space e)).
    apply HQ; [lia|done| |done]. intros Hr. specialize (H1 Hr). lia. }
  destruct (Z.eqb_spec c 0) as [Hc|Hc].
  { assert (q = len) by lia. apply Hfin; [lia|tauto|tauto|unfold tok_a; lia]. }
  assert (Hlt : (q < len)%nat) by lia.
  destruct (among [BAR; OPEN; CLOSE; SEMI; AMP; LESS] c) eqn:Ha.
  { apply Hfin; [lia|lia|lia|]. intros Hta. rewrite Hta in Ha. discriminate. }
  destruct (Z.eqb_spec c GREATER) as [Hg|Hg].
  { rewrite Hg. destruct (Z.eqb_spec (char_at buf (S q)) GREATER) as [Hg2|Hg2].
    - assert (S q < len)%nat.
      { destruct (decide (S q < len)%nat); [done|].
        assert (char_at buf (S q) = 0) by (apply char_at_nul; lia). unfold GREATER in *. lia. }
      apply Hfin; [lia| |lia|done]. unfold tok_plus. lia.
    - apply Hfin; [lia| |lia|done]. unfold GREATER. lia. }
  assert (Hw : is_word c = true).
  { apply is_word_char; [done| |done]. destruct (skip_stop is_space s) as [H|[H|H]]; [|done|lia].
    fold q in H. lia. }
  pose proof (skip_word q Hlt Hw) as Hok. destruct Hok as (Hb & _). cbn [fst snd] in Hb.
  apply Hfin; [lia|unfold tok_a; lia|lia|]. intros _. by apply skip_word.
Qed.

Lemma peek_safe toks s (Q : bool -> nat -> Prop) : (s <= len)%nat ->
  (forall b s', s' = skip buf is_space s -> (s <= s' <= len)%nat -> skip buf is_space s' = s' ->
     (b = true -> (s' < len)%nat /\ among toks (char_at buf s') = true) -> Q b s') ->
  sound (peek buf toks) s Q.
Proof.
  intros Hs HQ. unfold peek. apply wpe_bind.
  change (Q (negb (char_at buf (skip buf is_space s) =? 0) && among toks (char_at buf (skip buf is_space s)))
    (skip buf is_space s)).
  pose proof (skip_le is_space s Hs). apply HQ; [done|done|by apply skip_skip|].
  intros Hb. apply andb_prop in Hb as [H1 H2]. split; [|done].
  destruct (Z.eqb_spec (char_at buf (skip buf is_space s)) 0) as [|Hc]; [done|].
  rewrite char_at_nul in Hc. lia.
Qed.

(** A parser that consumes nothing or more and returns a command. *)
Definition parses (m : SM (cmd span)) (s : nat) : Prop :=
  sound m s (fun c s' => (s <= s' <= len)%nat /\ cmd_ok buf c).

Lemma cmd_ok_redir c w m fd : cmd_ok buf c -> word_ok buf w -> cmd_ok buf (REDIR c w m fd).
Proof. intros [H1 H2] Hw. split; [|done]. simpl. apply Forall_app. split; [done|by constructor]. Qed.

Lemma parseredirs_safe c s : (s <= len)%nat -> cmd_ok buf c -> parses (parseredirs buf c) s.
Proof.
  intros Hs Hc. unfold parses, parseredirs.
  apply (wpe_loop_idx _ (fun k c s' => k = Z.of_nat (len - s') /\ (s <= s' <= len)%nat /\ cmd_ok buf c)
    _ _ (Z.of_nat (len - s))); [split; [done|split; [lia|done]]|lia|lia|].
  clear c Hc. intros k c s1 (-> & Hs1 & Hc). apply wpe_bind, peek_safe; [lia|].
  intros [] s2 _ Hs2 Hsk Hb; [|apply wpe_ret; split; [lia|done]].
  destruct (Hb eq_refl) as [Hlt _]. apply wpe_bind, gettoken_safe; [lia|].
  intros tok w0 s3 Hs3 Hz Hpos _. rewrite Hsk in Hz. assert (Hs3' : (s2 < s3)%nat) by (apply Hpos; lia).
  apply wpe_bind, gettoken_safe; [lia|]. intros t w s4 Hs4 _ _ Hok.
  destruct (Z.eqb_spec t tok_a) as [Ht|Ht]; cbn [negb]; [|apply wpe_panic; unfold syntax_error; set_solver].
  apply wpe_ret. exists (Z.of_nat (len - s4)). split; [|lia]. split; [done|]. split; [lia|].
  specialize (Hok Ht). repeat case_match; [by apply cmd_ok_redir..|done].
Qed.

Lemma cmd_ok_set_argv argv c : Forall (word_ok buf) argv -> (length argv < MAXARGS)%nat ->
  cmd_ok buf c -> cmd_ok buf (set_argv argv c).
Proof.
  intros Ha Hl. induction c as [l|c IH w m fd|c1 _ c2 _|c1 _ c2 _|c _]; intros Hc; simpl; try done.
  destruct Hc as [H1 H2]. simpl in H1. apply Forall_app in H1 as [H1 H3].
  apply list.Forall_cons in H3 as [H3 _]. apply cmd_ok_redir; [by apply IH|done].
Qed.

Section line.
Variable line : SM (cmd span).

Lemma parseblock_safe s : (s <= len)%nat -> skip buf is_space s = s -> (s < len)%nat ->
  among [OPEN] (char_at buf s) = true -> (forall s1, (s < s1 <= len)%nat -> parses line s1) ->
  parses (parseblock buf line) s.
Proof.
  intros Hs Hsk Hlt Ho Hline. unfold parses, parseblock. apply wpe_bind.
  eapply wpe_eq; [apply peek_eq|].
  rewrite Hsk, Ho. destruct (Z.eqb_spec (char_at buf s) 0) as [Hz|_].
  { apply char_at_nul in Hz. lia. }
  cbn [negb andb]. apply wpe_bind, gettoken_safe; [lia|]. intros r w s1 Hs1 Hz Hpos _. rewrite Hsk in Hz.
  assert (Hs1' : (s < s1)%nat) by (apply Hpos; lia).
  apply wpe_bind. eapply wpe_mono; [apply Hline; lia|]. intros c s2 [Hs2 Hc].
  apply wpe_bind, peek_safe; [lia|]. intros [] s3 _ Hs3 Hsk3 Hb; cbn [negb].
  2:{ apply wpe_panic. unfold syntax_error. set_solver. }
  apply wpe_bind, gettoken_safe; [lia|]. intros r2 w2 s4 Hs4 _ _ _.
  eapply wpe_mono; [apply parseredirs_safe; [lia|done]|]. intros c2 s5 [Hs5 Hc2]. split; [lia|done].
Qed.

Lemma parseexec_safe s : (s <= len)%nat -> (forall s1, (s < s1 <= len)%nat -> parses line s1) ->
  parses (parseexec buf line) s.
Proof.
  intros Hs Hline. unfold parses, parseexec. apply wpe_bind, peek_safe; [lia|].
  intros [] s1 _ Hs1 Hsk Hb.
  { destruct (Hb eq_refl) as [Hlt Ho]. eapply wpe_mono; [apply parseblock_safe; try done; [lia|]|].
    - intros s2 Hs2. apply Hline. lia.
    - intros c s2 [Hs2 Hc]. split; [lia|done]. }
  apply wpe_bind. eapply wpe_mono; [apply parseredirs_safe; [lia|]|].
  { split; [constructor|]. unfold args_fit, MAXARGS. simpl. lia. }
  intros r s2 [Hs2 Hr]. apply wpe_bind.
  apply (wpe_loop_idx _ (fun k '(argv, r) s' => k = Z.of_nat (len - s') /\ (s <= s' <= len)%nat /\
    Forall (word_ok buf) argv /\ (length argv < MAXARGS)%nat /\ cmd_ok buf r)
    _ _ (Z.of_nat (len - s2))).
  - split_and!; try done; [lia|lia|]. unfold MAXARGS. simpl. lia.
  - lia.
  - intros k [argv c] s' (-> & _). lia.
  - intros k [argv c] s3 (-> & Hs3 & Hargv & Hfit & Hc). apply wpe_bind, peek_safe; [lia|].
    intros [] s4 _ Hs4 Hsk4 _.
    { apply wpe_ret, wpe_ret. split; [lia|]. by apply cmd_ok_set_argv. }
    apply wpe_bind, gettoken_safe; [lia|]. intros tok w s5 Hs5 _ Hpos Hok.
    destruct (Z.eqb_spec tok 0) as [Ht|Ht].
    { apply wpe_ret, wpe_ret. split; [lia|]. by apply cmd_ok_set_argv. }
    specialize (Hpos Ht). destruct (Z.eqb_spec tok tok_a) as [Ha|Ha]; cbn [negb].
    2:{ apply wpe_panic. unfold syntax_error. set_solver. }
    specialize (Hok Ha). destruct (bool_decide_reflect (MAXARGS <= length (argv ++ [w]))%nat) as [Hm|Hm].
    { apply wpe_panic. unfold syntax_error. set_solver. }
    apply wpe_bind. eapply wpe_mono; [apply parseredirs_safe; [lia|done]|].
    intros c2 s6 [Hs6 Hc2]. apply wpe_ret. exists (Z.of_nat (len - s6)). split; [|lia].
    split; [done|]. split; [lia|]. split; [|split; [lia|done]]. apply Forall_app. split; [done|by constructor].
Qed.

Lemma parsepipe_safe fuel s : (s <= len)%nat -> (len - s < fuel)%nat ->
  (forall s1, (s < s1 <= len)%nat -> parses line s1) -> parses (parsepipe buf fuel line) s.
Proof.
  revert s. induction fuel as [|fuel IH]; intros s Hs Hfuel Hline; [lia|].
  unfold parses. cbn [parsepipe]. apply wpe_bind. eapply wpe_mono; [by apply parseexec_safe|].
  intros c s1 [Hs1 Hc]. apply wpe_bind, peek_safe; [lia|]. intros [] s2 _ Hs2 Hsk Hb.
  2:{ apply wpe_ret. split; [lia|done]. }
  destruct (Hb eq_refl) as [Hlt _]. apply wpe_bind, gettoken_safe; [lia|].
  intros r w s3 Hs3 Hz Hpos _. rewrite Hsk in Hz. assert (Hs3' : (s2 < s3)%nat) by (apply Hpos; lia).
  apply wpe_bind. eapply wpe_mono; [apply IH; [lia|lia|]|].
  { intros s4 Hs4. apply Hline. lia. }
  intros c2 s4 [Hs4 Hc2]. apply wpe_ret. split; [lia|]. destruct Hc, Hc2. split; [by apply Forall_app|done].
Qed.
End line.

Lemma parseline_safe fuel s : (s <= len)%nat -> (len - s < fuel)%nat -> parses (parseline buf fuel) s.
Proof.
  revert s. induction fuel as [|fuel IH]; intros s Hs Hfuel; [lia|].
  unfold parses. cbn [parseline]. apply wpe_bind. eapply wpe_mono; [apply parsepipe_safe; [lia|lia|]|].
  { intros s1 Hs1. apply IH; lia. }
  intros c s1 [Hs1 Hc]. apply wpe_bind.
  apply (wpe_loop_idx _ (fun k c s' => k = Z.of_nat (len - s') /\ (s <= s' <= len)%nat /\ cmd_ok buf c)
    _ _ (Z.of_nat (len - s1))); [split; [done|split; [lia|done]]|lia|lia|].
  clear c Hc. intros k c s2 (-> & Hs2 & Hc). apply wpe_bind, peek_safe; [lia|].
  intros [] s3 _ Hs3 Hsk Hb.
  - destruct (Hb eq_refl) as [Hlt _]. apply wpe_bind, gettoken_safe; [lia|].
    intros r w s4 Hs4 Hz Hpos _. rewrite Hsk in Hz. assert (Hs4' : (s3 < s4)%nat) by (apply Hpos; lia).
    apply wpe_ret. exists (Z.of_nat (len - s4)). split; [|lia]. split; [done|]. split; [lia|done].
  - apply wpe_ret. apply wpe_bind, peek_safe; [lia|]. intros [] s4 _ Hs4 Hsk4 Hb4.
    2:{ apply wpe_ret. split; [lia|done]. }
    destruct (Hb4 eq_refl) as [Hlt _]. apply wpe_bind, gettoken_safe; [lia|].
    intros r w s5 Hs5 Hz Hpos _. rewrite Hsk4 in Hz. assert (Hs5' : (s4 < s5)%nat) by (apply Hpos; lia).
    apply wpe_bind. eapply wpe_mono; [apply IH; lia|]. intros c2 s6 [Hs6 Hc2].
    apply wpe_ret. split; [lia|]. destruct Hc, Hc2. split; [by apply Forall_app|done].
Qed.

Lemma parse_safe : sound (parse buf) 0%nat (fun c _ => cmd_ok buf c).
Proof.
  unfold parse. apply wpe_bind. eapply wpe_mono; [apply parseline_safe; lia|]. intros c s1 [Hs1 Hc].
  apply wpe_bind, peek_safe; [lia|]. intros b s2 _ Hs2 _ _. apply wpe_bind.
  change (sound (if negb (s2 =? len)%nat then panic "syntax" else ret c) s2 (fun c _ => cmd_ok buf c)).
  destruct (s2 =? len)%nat; cbn [negb]; [by apply wpe_ret|]. apply wpe_panic. unfold syntax_error. set_solver.
Qed.
End safety.

(** ** Words in memory *)

Lemma nulterminate_words c l : nulterminate c l = fold_left (fun l w => <[w.2 := 0]> l) (words c) l.
Proof.
  revert l. induction c as [argv|c IH w m fd|c1 IH1 c2 IH2|c1 IH1 c2 IH2|c IH]; intros l; simpl.
  - done.
  - by rewrite fold_left_app, IH.
  - by rewrite fold_left_app, IH1, IH2.
  - by rewrite fold_left_app, IH1, IH2.
  - apply IH.
Qed.

Lemma ended_lookup (ws : list span) l i :
  fold_left (fun l w => <[w.2 := 0]> l) ws l !! i =
  if decide (i ∈ map snd ws) then (if decide (i < length l)%nat then Some 0 else None) else l !! i.
Proof.
  revert l. induction ws as [|w ws IH]; intros l; simpl.
  { done. }
  rewrite IH, length_insert. destruct (decide (i ∈ map snd ws)) as [H|H].
  - rewrite (decide_True (P := i ∈ w.2 :: map snd ws)); [done|]. by apply list_elem_of_further.
  - destruct (decide (w.2 = i)) as [<-|Hne].
    + rewrite (decide_True (P := w.2 ∈ w.2 :: map snd ws)) by apply list_elem_of_here.
      destruct (decide (w.2 < length l)%nat); [by apply list_lookup_insert_eq|].
      apply lookup_ge_None. rewrite length_insert. lia.
    + rewrite (decide_False (P := i ∈ w.2 :: map snd ws)).
      * by apply list_lookup_insert_ne.
      * intros [->|?]%elem_of_cons; done.
Qed.

Lemma word_chars buf w i : word_ok buf w -> (w.1 <= i < w.2)%nat -> is_word (char_at buf i) = true.
Proof.
  intros (Hb & Hw & _) Hi. rewrite Forall_lookup in Hw. unfold char_at.
  destruct (lookup_lt_is_Some_2 buf i) as [c Ec]; [lia|]. rewrite Ec. simpl.
  apply (Hw (i - w.1)%nat). unfold slice. rewrite lookup_take_lt by lia. rewrite lookup_drop.
  by replace (w.1 + (i - w.1))%nat with i by lia.
Qed.

Lemma read_word buf c w : Forall (fun c => c <> 0) buf -> Forall (word_ok buf) (words c) -> w ∈ words c ->
  c_str (drop w.1 (nulterminate c (buf ++ [0]))) = slice buf w.
Proof.
  intros Hnul Hall Hw. pose proof Hall as Hok. rewrite list.Forall_forall in Hok.
  specialize (Hok w Hw). pose proof Hok as (Hb & _ & _).
  rewrite nulterminate_words. set (L := fold_left _ _ _).
  assert (Hlen : length (buf ++ [0]) = S (length buf)) by (rewrite length_app; simpl; lia).
  assert (Hend : L !! w.2 = Some 0).
  { unfold L. rewrite ended_lookup, Hlen, decide_True, decide_True; [done|lia|].
    apply list_elem_of_fmap. by exists w. }
  assert (Hmid : forall i, (w.1 <= i < w.2)%nat -> L !! i = buf !! i).
  { intros i Hi. unfold L. rewrite ended_lookup. destruct (decide (i ∈ map snd (words c))) as [H|_].
    - exfalso. apply list_elem_of_fmap in H as (w' & -> & Hw').
      rewrite list.Forall_forall in Hall. destruct (Hall w' Hw') as (_ & _ & Hstop).
      pose proof (word_chars buf w w'.2 Hok Hi). destruct Hstop; [lia|congruence].
    - apply lookup_app_l. lia. }
  assert (Hsl : take (w.2 - w.1) (drop w.1 L) = slice buf w).
  { unfold slice. apply list_eq. intros i. destruct (decide (i < w.2 - w.1)%nat).
    - rewrite !lookup_take_lt, !lookup_drop by done. apply Hmid. lia.
    - by rewrite !lookup_take_ge by lia. }
  rewrite <- (take_drop (w.2 - w.1) (drop w.1 L)), Hsl, drop_drop.
  replace (w.1 + (w.2 - w.1))%nat with w.2 by lia. rewrite (drop_S _ _ _ Hend).
  apply c_str_text. unfold slice. by apply Forall_take, Forall_drop.
Qed.

(** [parsecmd] on any line: it returns, with a command or with one of its
    messages about the syntax.  In the command each word, as the C string that
    is in memory after [nulterminate], consists of exactly the characters that
    the line had there, is not empty and has no separator in it; and the
    arguments fit in [argv]. *)
Theorem parsecmd_words buf : Forall (fun c => c <> 0) buf -> Z.of_nat (length buf) < 2 ^ 32 ->
  (exists msg, parsecmd buf 0%nat = Panic msg /\ syntax_error msg) \/
  (exists c l s, parsecmd buf 0%nat = Ret (c, l) s /\ args_fit c /\ length l = S (length buf) /\
     forall w, w ∈ words c ->
       c_str (drop w.1 l) = take (w.2 - w.1) (drop w.1 buf) /\
       c_str (drop w.1 l) <> [] /\ Forall (fun c => is_word c = true) (c_str (drop w.1 l))).
Proof.
  intros Hn Hl. pose proof (parse_safe buf Hn Hl) as H. unfold wpe in H. unfold parsecmd, bind.
  destruct (parse buf 0%nat) as [c s|msg|s|]; [right|left; by exists msg|done|done].
  destruct H as [Hw Ha]. exists c, (nulterminate c (buf ++ [0])), s. split; [done|]. split; [done|]. split.
  - rewrite nulterminate_words. generalize (words c). intros ws.
    assert (Hlen : forall l, length (fold_left (fun l w => <[w.2 := 0]> l) ws l) = length l).
    { clear. induction ws as [|w ws IH]; intros l; simpl; [done|]. by rewrite IH, length_insert. }
    rewrite Hlen, length_app. simpl. lia.
  - intros w Hin. rewrite (read_word buf c w Hn Hw Hin). rewrite list.Forall_forall in Hw.
    destruct (Hw w Hin) as (Hb & Hc & _). split; [done|]. split; [|done].
    intros E. apply (f_equal length) in E. unfold slice in E. rewrite length_take, length_drop in E. simpl in E. lia.
Qed.

(** ** Printing

    A command as text: a pipeline, a list or a background command is put in
    parentheses where the grammar does not allow it.  Every token is followed by
    a space. *)

Inductive token := Sym (c : Z) | Append | Word (w : list Z).

Definition chars (t : token) : list Z :=
  match t with Sym c => [c] | Append => [GREATER; GREATER] | Word w => w end.
Definition render (ts : list token) : list Z := concat (map (fun t => chars t ++ [32]) ts).

Lemma render_cons t ts : (length (render ts) < length (render (t :: ts)))%nat.
Proof. unfold render. simpl. rewrite !length_app. simpl. lia. Qed.

Definition redirection : Type := list Z * Z * Z.
Definition redir_token (m fd : Z) : token :=
  if fd =? 0 then Sym LESS else if m =? Z.lor O_WRONLY O_CREATE then Append else Sym GREATER.

(** The level of the grammar: 0 a line, 1 what may stand before ; or &, 2 a
    pipeline, 3 a part of one. *)
Definition paren (b : bool) (ts : list token) : list token :=
  if b then [Sym OPEN] ++ ts ++ [Sym CLOSE] else ts.
Fixpoint print (lv : nat) (c : cmd (list Z)) : list token :=
  match c with
  | EXEC argv => map Word argv
  | REDIR c' f m fd => print 3 c' ++ [redir_token m fd; Word f]
  | PIPE l r => paren (2 <? lv)%nat (print 3 l ++ [Sym BAR] ++ print 2 r)
  | LIST l r => paren (0 <? lv)%nat (print 1 l ++ [Sym SEMI] ++ print 0 r)
  | BACK c' => paren (1 <? lv)%nat (print 1 c' ++ [Sym AMP])
  end.

Definition valid_word (w : list Z) : Prop := w <> [] /\ Forall (fun c => c <> 0 /\ is_word c = true) w.
Definition valid_redir (m fd : Z) : Prop :=
  (m, fd) ∈ [(O_RDONLY, 0); (Z.lor (Z.lor O_WRONLY O_CREATE) O_TRUNC, 1); (Z.lor O_WRONLY O_CREATE, 1)].
Fixpoint valid (c : cmd (list Z)) : Prop :=
  match c with
  | EXEC argv => Forall valid_word argv /\ (length argv < MAXARGS)%nat
  | REDIR c' f m fd => valid c' /\ valid_word f /\ valid_redir m fd
  | PIPE l r | LIST l r => valid l /\ valid r
  | BACK c' => valid c'
  end.

Fixpoint cmd_map {V W} (f : V -> W) (c : cmd V) : cmd W :=
  match c with
  | EXEC argv => EXEC (map f argv)
  | REDIR c' w m fd => REDIR (cmd_map f c') (f w) m fd
  | PIPE l r => PIPE (cmd_map f l) (cmd_map f r)
  | LIST l r => LIST (cmd_map f l) (cmd_map f r)
  | BACK c' => BACK (cmd_map f c')
  end.

Definition token_ok (t : token) : Prop :=
  match t with Sym c => c ∈ symbols | Append => True | Word w => valid_word w end.

(** The code that [gettoken] gives a token, and its first character. *)
Definition code (t : token) : Z :=
  match t with Sym c => c | Append => tok_plus | Word _ => tok_a end.
Definition front (ts : list token) : Z :=
  match ts with t :: _ => hd 0 (chars t) | [] => 0 end.

Section print.
Variable buf : list Z.

(** The line goes on with [ts]. *)
Definition ahead (s : nat) (ts : list token) : Prop :=
  drop s buf = render ts /\ Forall token_ok ts /\ (s <= length buf)%nat.

Lemma ahead_char s ts : ahead s ts -> char_at buf s = front ts.
Proof.
  intros (H & Hok & Hle). unfold char_at. destruct ts as [|t ts].
  - apply (f_equal length) in H. rewrite length_drop in H. simpl in H.
    by rewrite (lookup_ge_None_2 buf s) by lia.
  - replace (buf !! s) with (drop s buf !! O) by (rewrite lookup_drop; f_equal; lia). rewrite H.
    apply list.Forall_cons in Hok as [Ht _]. destruct t as [c| |w]; simpl; [done|done|].
    destruct Ht as [Hw _]. by destruct w.
Qed.

Lemma token_front t : token_ok t -> hd 0 (chars t) <> 0.
Proof.
  destruct t as [c| |w]; simpl; [|done|].
  - unfold symbols. intros Ht. repeat (apply elem_of_cons in Ht as [->|Ht]; [done|]).
    by apply not_elem_of_nil in Ht.
  - intros [Hne Hw]. destruct w as [|c w]; [done|]. by apply list.Forall_cons in Hw as [[? _] _].
Qed.

Lemma front_not_space ts : Forall token_ok ts -> is_space (front ts) = false.
Proof.
  destruct ts as [|t ts]; [done|]. intros [Ht _]%list.Forall_cons. destruct t as [c| |w]; simpl.
  - simpl in Ht. unfold symbols in Ht. repeat (apply elem_of_cons in Ht as [->|Ht]; [done|]).
    by apply not_elem_of_nil in Ht.
  - done.
  - destruct Ht as [Hne Hw]. destruct w as [|c w]; [done|]. apply list.Forall_cons in Hw as [[_ Hw] _].
    simpl. unfold is_word in Hw. unfold is_space. by destruct (among whitespace c).
Qed.

Lemma ahead_skip s ts : ahead s ts -> skip buf is_space s = s.
Proof.
  intros H. pose proof (ahead_char _ _ H) as Hc. destruct H as (Hd & Hok & Hle).
  pose proof (front_not_space ts Hok) as Hsp. rewrite <- Hc in Hsp. unfold char_at in Hsp. unfold skip.
  destruct (buf !! s) as [c|] eqn:E.
  - rewrite (drop_S _ _ _ E). simpl in *. rewrite Hsp. lia.
  - rewrite Hd. destruct ts; [simpl; lia|]. apply lookup_ge_None in E.
    apply (f_equal length) in Hd. rewrite length_drop in Hd. unfold render in Hd.
    simpl in Hd. rewrite !length_app in Hd. simpl in Hd. lia.
Qed.

Lemma wp_peek toks s ts (Q : bool -> nat -> Prop) : ahead s ts ->
  Q (negb (front ts =? 0) && among toks (front ts)) s -> wp (peek buf toks) s Q.
Proof.
  intros H HQ. eapply wp_eq; [apply peek_eq|]. by rewrite (ahead_skip _ _ H), (ahead_char _ _ H).
Qed.

Lemma ahead_next s t ts : ahead s (t :: ts) ->
  drop (s + length (chars t)) buf = 32 :: render ts /\ ahead (s + length (chars t) + 1) ts /\
  slice buf (s, (s + length (chars t))%nat) = chars t.
Proof.
  intros (Hd & Hok & Hle). apply list.Forall_cons in Hok as [Ht Hok].
  unfold render in Hd. simpl in Hd. rewrite <- (assoc_L (++)) in Hd. simpl in Hd.
  assert (Hs : drop (s + length (chars t)) buf = 32 :: render ts).
  { rewrite <- drop_drop, Hd. apply drop_app_length. }
  split; [done|]. split.
  - split; [|split; [done|]].
    + rewrite <- drop_drop, Hs. done.
    + apply (f_equal length) in Hs. rewrite length_drop in Hs. simpl in Hs. lia.
  - unfold slice. cbn [fst snd]. rewrite Hd. replace (s + length (chars t) - s)%nat with (length (chars t)) by lia.
    apply take_app_length.
Qed.

Lemma skip_to_next s t ts : ahead s (t :: ts) ->
  skip buf is_space (s + length (chars t)) = (s + length (chars t) + 1)%nat.
Proof.
  intros H. destruct (ahead_next _ _ _ H) as (Hd & Hn & _).
  pose proof (ahead_skip _ _ Hn) as Hsk. unfold skip in *.
  assert (Hs : drop (s + length (chars t) + 1) buf = render ts) by apply Hn.
  rewrite Hs in Hsk. rewrite Hd. simpl. lia.
Qed.

Lemma scan_word w l : Forall (fun c => c <> 0 /\ is_word c = true) w -> scan is_word (w ++ 32 :: l) = length w.
Proof. induction 1 as [|c w [_ Hc] _ IH]; simpl; [done|]. by rewrite Hc, IH. Qed.

Lemma word_not_among toks c : is_word c = true -> forallb (among symbols) toks = true -> among toks c = false.
Proof.
  intros Hw Hs. destruct (among toks c) eqn:E; [|done]. exfalso.
  unfold among in E. apply existsb_exists in E as (x & Hx & Ex). apply Z.eqb_eq in Ex as <-.
  rewrite forallb_forall in Hs. apply Hs in Hx. unfold is_word in Hw. rewrite Hx in Hw.
  by rewrite andb_false_r in Hw.
Qed.

Lemma word_front w : valid_word w -> is_word (hd 0 w) = true /\ hd 0 w <> 0.
Proof. intros [Hne Hw]. destruct w as [|c w]; [done|]. by apply list.Forall_cons in Hw as [[? ?] _]. Qed.

Lemma wp_gettoken s t ts (Q : Z * span -> nat -> Prop) : ahead s (t :: ts) ->
  (forall w s', ahead s' ts -> (s < s')%nat -> slice buf w = chars t -> Q (code t, w) s') ->
  wp (gettoken buf) s Q.
Proof.
  intros H HQ. pose proof H as (Hd & Hok & Hle). apply list.Forall_cons in Hok as [Ht _].
  destruct (ahead_next _ _ _ H) as (Hdn & Hn & Hsl). pose proof (skip_to_next _ _ _ H) as Hsk.
  assert (E : gettoken buf s = Ret (code t, (s, (s + length (chars t))%nat)) (s + length (chars t) + 1)%nat).
  2:{ eapply wp_eq; [exact E|]. apply HQ; [done|lia|done]. }
  assert (Hnext : buf !! (s + length (chars t))%nat = Some 32).
  { apply (f_equal (lookup 0%nat)) in Hdn. rewrite lookup_drop, Nat.add_0_r in Hdn. exact Hdn. }
  unfold gettoken. rewrite (bind_eq _ _ s s s) by done. rewrite (ahead_skip _ _ H).
  rewrite (ahead_char _ _ H). cbv zeta. destruct t as [c| |w]; cbn [front chars hd code length] in *.
  - assert (Hc : c <> 0 /\ (among [BAR; OPEN; CLOSE; SEMI; AMP; LESS] c = true \/ c = GREATER)).
    { simpl in Ht. unfold symbols in Ht.
      repeat (apply elem_of_cons in Ht as [->|Ht]; [split; [done|by auto]|]). by apply not_elem_of_nil in Ht. }
    destruct Hc as [Hc0 Hc]. rewrite (proj2 (Z.eqb_neq c 0)) by done.
    replace (s + 1)%nat with (S s) in * by lia. destruct Hc as [->| ->].
    + unfold bind, modify. by rewrite Hsk.
    + change (among [BAR; OPEN; CLOSE; SEMI; AMP; LESS] GREATER) with false.
      rewrite Z.eqb_refl. unfold char_at. rewrite Hnext. change (default 0 (Some 32) =? GREATER) with false. cbv iota. unfold bind, modify. by rewrite Hsk.
  - assert (Hg : char_at buf (S s) = GREATER).
    { unfold char_at. replace (S s) with (s + 1)%nat by lia. rewrite <- lookup_drop, Hd. done. }
    rewrite Hg. change (GREATER =? 0) with false.
    change (among [BAR; OPEN; CLOSE; SEMI; AMP; LESS] GREATER) with false.
    rewrite Z.eqb_refl. cbv iota. replace (s + 2)%nat with (S (S s)) in * by lia. unfold bind, modify. by rewrite Hsk.
  - destruct (word_front w Ht) as [Hw Hw0]. rewrite (proj2 (Z.eqb_neq _ 0)) by done.
    rewrite (word_not_among _ _ Hw) by reflexivity.
    assert (hd 0 w <> GREATER) by (intros E; by rewrite E in Hw).
    rewrite (proj2 (Z.eqb_neq _ GREATER)) by done.
    assert (Hskw : skip buf is_word s = (s + length w)%nat).
    { unfold skip. rewrite Hd. unfold render. simpl. rewrite <- (assoc_L (++)). simpl.
      rewrite scan_word; [done|]. apply Ht. }
    rewrite Hskw. unfold bind, modify. by rewrite Hsk.
Qed.

Lemma wp_gettoken_end s (Q : Z * span -> nat -> Prop) : ahead s [] ->
  Q (0, (s, s)) s -> wp (gettoken buf) s Q.
Proof.
  intros H HQ. eapply wp_eq; [|exact HQ]. unfold gettoken. rewrite (bind_eq _ _ s s s) by done.
  rewrite (ahead_skip _ _ H), (ahead_char _ _ H). cbv zeta. cbn [front Z.eqb].
  unfold bind, modify. by rewrite (ahead_skip _ _ H).
Qed.

(** *** Redirections *)

Definition redirs (rs : list redirection) : list token :=
  concat (map (fun '(f, m, fd) => [redir_token m fd; Word f]) rs).
Definition wrap (c : cmd (list Z)) (rs : list redirection) : cmd (list Z) :=
  fold_left (fun c '(f, m, fd) => REDIR c f m fd) rs c.
Notation read := (cmd_map (slice buf)).

Lemma redir_token_code m fd : valid_redir m fd ->
  negb (hd 0 (chars (redir_token m fd)) =? 0) &&
    among [LESS; GREATER] (hd 0 (chars (redir_token m fd))) = true /\
  forall (c : cmd span) w,
    (if code (redir_token m fd) =? LESS then REDIR c w O_RDONLY 0
     else if code (redir_token m fd) =? GREATER then REDIR c w (Z.lor (Z.lor O_WRONLY O_CREATE) O_TRUNC) 1
     else if code (redir_token m fd) =? tok_plus then REDIR c w (Z.lor O_WRONLY O_CREATE) 1
     else c) = REDIR c w m fd.
Proof.
  unfold valid_redir. intros H.
  repeat (apply elem_of_cons in H as [[= -> ->]|H]; [done|]). by apply not_elem_of_nil in H.
Qed.

Lemma wp_parseredirs c x rs s ts (Q : cmd span -> nat -> Prop) :
  ahead s (redirs rs ++ ts) -> read c = x ->
  Forall (fun r => valid_redir r.1.2 r.2) rs -> among [LESS; GREATER] (front ts) = false ->
  Z.of_nat (length buf) < 2 ^ 32 ->
  (forall c' s', ahead s' ts -> (s <= s')%nat -> read c' = wrap x rs -> Q c' s') ->
  wp (parseredirs buf c) s Q.
Proof.
  intros H Hx Hrs Hf Hlen HQ. unfold parseredirs.
  apply (wp_loop_idx (fun k c s' => exists x' rs', k = Z.of_nat (length rs') /\ (s <= s')%nat /\
    ahead s' (redirs rs' ++ ts) /\ Forall (fun r => valid_redir r.1.2 r.2) rs' /\
    read c = x' /\ wrap x' rs' = wrap x rs) _ _ (Z.of_nat (length rs))).
  - exists x, rs. by split_and!.
  - assert (length rs <= length buf)%nat; [|lia].
    destruct H as (Hd & _ & Hle). apply (f_equal length) in Hd. rewrite length_drop in Hd.
    assert (Hr : (length rs <= length (render (redirs rs ++ ts)))%nat); [|lia].
    clear. induction rs as [|[[f m] fd] rs IH]; [simpl; lia|].
    change (redirs ((f, m, fd) :: rs) ++ ts) with (redir_token m fd :: Word f :: redirs rs ++ ts).
    pose proof (render_cons (redir_token m fd) (Word f :: redirs rs ++ ts)).
    pose proof (render_cons (Word f) (redirs rs ++ ts)). simpl length at 1. lia.
  - intros k c' s' (x' & rs' & -> & _). lia.
  - clear c Hx H Hrs. intros k c s1 (x' & rs' & -> & Hs1 & Ha & Hv & Hc & Hw).
    destruct rs' as [|[[f m] fd] rs'].
    + apply wp_bind. eapply wp_peek; [exact Ha|]. simpl app. rewrite Hf, andb_false_r.
      apply wp_ret. apply HQ; [exact Ha|done|]. by rewrite Hc.
    + apply list.Forall_cons in Hv as [Hv1 Hv]. cbn [fst snd] in Hv1.
      destruct (redir_token_code m fd Hv1) as [Hpk Hred].
      apply wp_bind. eapply wp_peek; [exact Ha|]. cbn [front]. simpl app. cbn [front]. rewrite Hpk.
      apply wp_bind. eapply wp_gettoken; [exact Ha|]. intros w0 s2 Ha2 Hs2 _.
      apply wp_bind. eapply wp_gettoken; [exact Ha2|]. intros w s3 Ha3 Hs3 Hsl.
      cbn [code]. rewrite Z.eqb_refl. cbn [negb]. apply wp_ret. rewrite Hred.
      exists (Z.of_nat (length rs')). split; [|simpl; lia]. exists (REDIR x' f m fd), rs'.
      split; [done|]. split; [lia|]. split; [done|]. split; [done|]. split; [|done].
      simpl. by rewrite Hc, Hsl.
Qed.

(** *** Commands *)

Hypothesis short : Z.of_nat (length buf) < 2 ^ 32.

Definition valid_redirs (rs : list redirection) : Prop :=
  Forall (fun r => valid_redir r.1.2 r.2) rs.

Lemma read_set_argv argv c : read (set_argv argv c) = set_argv (map (slice buf) argv) (read c).
Proof. induction c as [| c IH w m fd| | |]; simpl; [done|by rewrite IH|done..]. Qed.

Lemma wrap_snoc c rs f m fd : wrap c (rs ++ [(f, m, fd)]) = REDIR (wrap c rs) f m fd.
Proof. unfold wrap. by rewrite fold_left_app. Qed.

Lemma set_argv_wrap argv argv' rs : set_argv argv (wrap (EXEC argv') rs) = wrap (EXEC argv) rs.
Proof.
  induction rs as [|[[f m] fd] rs IH] using rev_ind; [done|].
  rewrite !wrap_snoc. cbn [set_argv]. by rewrite IH.
Qed.

Lemma front_word w ts : valid_word w -> forall toks,
  forallb (among symbols) toks = true -> among toks (front (Word w :: ts)) = false.
Proof. intros Hw toks Ht. apply word_not_among; [|done]. by apply word_front. Qed.

Lemma front_redirs rs ts : valid_redirs rs -> rs <> [] ->
  front (redirs rs ++ ts) = LESS \/ front (redirs rs ++ ts) = GREATER.
Proof.
  destruct rs as [|[[f m] fd] rs]; [done|]. intros Hv _. apply list.Forall_cons in Hv as [Hv _].
  unfold valid_redir in Hv. cbn [fst snd] in Hv.
  repeat (apply elem_of_cons in Hv as [[= -> ->]|Hv]; [by auto|]). by apply not_elem_of_nil in Hv.
Qed.

(** What may follow a part of a pipeline. *)
Definition follows3 (ts : list token) : Prop := front ts = 0 \/ among [BAR; CLOSE; AMP; SEMI] (front ts) = true.

Lemma follows3_not ts : follows3 ts -> among [LESS; GREATER] (front ts) = false /\ among [OPEN] (front ts) = false.
Proof.
  intros [->|H]; [done|]. unfold among in *. simpl in *. rewrite !orb_true_iff, !Z.eqb_eq in H.
  by destruct H as [->|[->|[->|[->|H]]]].
Qed.

(** The loop over the arguments; the redirections follow the last one. *)
Lemma wp_arguments argv rs todo done r s ts (Q : list span * cmd span -> nat -> Prop) :
  ahead s (map Word todo ++ (if bool_decide (todo = []) then [] else redirs rs) ++ ts) ->
  Forall valid_word todo -> valid_redirs rs -> follows3 ts -> (length argv < MAXARGS)%nat ->
  map (slice buf) done ++ todo = argv ->
  read r = (if bool_decide (todo = []) then wrap (EXEC []) rs else EXEC []) ->
  (forall done' r' s', ahead s' ts -> (s <= s')%nat -> map (slice buf) done' = argv ->
     read r' = wrap (EXEC []) rs -> Q (done', r') s') ->
  wp (loop (done, r) (fun '(argv, r) =>
    let! stop := peek buf [BAR; CLOSE; AMP; SEMI] in
    if stop then ret (inr (argv, r)) else
    let! '(tok, w) := gettoken buf in
    if tok =? 0 then ret (inr (argv, r)) else
    if negb (tok =? tok_a) then panic "syntax" else
    let argv := argv ++ [w] in
    if bool_decide (MAXARGS <= length argv)%nat then panic "too many args" else
    let! r := parseredirs buf r in
    ret (inl (argv, r)))) s Q.
Proof.
  intros Ha Htodo Hrs Hts Hfit Hargv Hr HQ.
  apply (wp_loop_idx (fun k '(done, r) s' => exists todo, k = Z.of_nat (length todo) /\ (s <= s')%nat /\
    ahead s' (map Word todo ++ (if bool_decide (todo = []) then [] else redirs rs) ++ ts) /\
    Forall valid_word todo /\ map (slice buf) done ++ todo = argv /\
    read r = (if bool_decide (todo = []) then wrap (EXEC []) rs else EXEC [])) _ _ (Z.of_nat (length todo))).
  - exists todo. by split_and!.
  - apply (f_equal length) in Hargv. rewrite length_app in Hargv. unfold MAXARGS in Hfit. lia.
  - intros k [d r'] s' (todo' & -> & _). lia.
  - clear todo Ha Htodo Hargv Hr. intros k [d r1] s1 (todo & -> & Hs1 & Ha & Htodo & Hargv & Hr).
    destruct todo as [|w todo].
    + rewrite bool_decide_true in Ha, Hr by done. simpl in Ha.
      apply wp_bind. eapply wp_peek; [exact Ha|]. rewrite app_nil_r in Hargv.
      destruct (Z.eqb_spec (front ts) 0) as [Hz|Hz]; cbn [negb andb].
      * destruct ts as [|t ts].
        -- apply wp_bind. eapply wp_gettoken_end; [exact Ha|]. apply wp_ret. by apply HQ.
        -- exfalso. destruct Ha as (_ & Hok & _). apply list.Forall_cons in Hok as [Hok _].
           by apply token_front in Hok.
      * destruct Hts as [Hts|Hts]; [done|]. rewrite Hts. apply wp_ret. by apply HQ.
    + rewrite bool_decide_false in Ha, Hr by done. apply list.Forall_cons in Htodo as [Hw Htodo].
      apply wp_bind. eapply wp_peek; [exact Ha|]. simpl app.
      rewrite (front_word w _ Hw) by reflexivity. rewrite andb_false_r.
      apply wp_bind. eapply wp_gettoken; [exact Ha|]. intros sp s2 Ha2 Hs2 Hsl. cbn [code].
      change (tok_a =? 0) with false. rewrite Z.eqb_refl. cbn [negb]. cbv iota zeta.
      assert (Hargv' : map (slice buf) (d ++ [sp]) ++ todo = argv).
      { rewrite map_app, <- (assoc_L (++)). simpl. rewrite Hsl. exact Hargv. }
      rewrite bool_decide_false.
      2:{ pose proof (f_equal length Hargv') as Hl. rewrite length_app, length_map in Hl. lia. }
      apply wp_bind. apply (wp_parseredirs r1 (EXEC []) (if bool_decide (todo = []) then rs else []) s2
        (map Word todo ++ (if bool_decide (todo = []) then [] else redirs rs) ++ ts)).
      * by destruct todo.
      * exact Hr.
      * by destruct (bool_decide (todo = [])).
      * destruct todo as [|w2 todo]; [by apply follows3_not|].
        apply list.Forall_cons in Htodo as [Hw2 _]. by apply (front_word w2 _ Hw2).
      * exact short.
      * intros r2 s3 Ha3 Hs3 Hr2. apply wp_ret. exists (Z.of_nat (length todo)). split; [|simpl; lia].
        exists todo. split; [done|]. split; [lia|]. split; [exact Ha3|]. split; [done|]. split; [done|].
        rewrite Hr2. by destruct (bool_decide (todo = [])).
Qed.

(** What may follow a pipeline, a background command and a line. *)
Definition follows2 (ts : list token) : Prop := front ts = 0 \/ among [CLOSE; AMP; SEMI] (front ts) = true.
Definition follows1 (ts : list token) : Prop := front ts = 0 \/ among [CLOSE; SEMI] (front ts) = true.
Definition follows0 (ts : list token) : Prop := front ts = 0 \/ front ts = CLOSE.

Definition returns (m : SM (cmd span)) (s : nat) (ts : list token) (c : cmd (list Z)) : Prop :=
  wp m s (fun t s' => ahead s' ts /\ (s <= s')%nat /\ read t = c).

(** What each function does where [c] is printed for it. *)
Definition part_ok (c : cmd (list Z)) : Prop := forall f rs s ts,
  ahead s (print 3 c ++ redirs rs ++ ts) -> (length buf - s <= f)%nat -> follows3 ts -> valid_redirs rs ->
  returns (parseexec buf (parseline buf f)) s ts (wrap c rs).
Definition pipe_ok (c : cmd (list Z)) : Prop := forall f2 f s ts,
  ahead s (print 2 c ++ ts) -> (length buf - s < f2)%nat -> (length buf - s <= f)%nat -> follows2 ts ->
  returns (parsepipe buf f2 (parseline buf f)) s ts c.
Definition ampersands (c : cmd span) : SM (cmd span) :=
  loop c (fun c =>
    let! b := peek buf [AMP] in
    if b then let! _ := gettoken buf in ret (inl (BACK c)) else ret (inr c)).
Definition back_ok (c : cmd (list Z)) : Prop := forall f2 f k s ts,
  ahead s (print 1 c ++ replicate k (Sym AMP) ++ ts) ->
  (length buf - s < f2)%nat -> (length buf - s <= f)%nat -> follows1 ts ->
  returns (let! c := parsepipe buf f2 (parseline buf f) in ampersands c) s ts (Nat.iter k BACK c).
Definition line_ok (c : cmd (list Z)) : Prop := forall f s ts,
  ahead s (print 0 c ++ ts) -> (length buf - s < f)%nat -> follows0 ts ->
  returns (parseline buf f) s ts c.

Lemma ahead_le s ts : ahead s ts -> (s <= length buf)%nat.
Proof. by intros (_ & _ & H). Qed.

Lemma wp_ampersands c x k s ts : ahead s (replicate k (Sym AMP) ++ ts) -> follows1 ts -> read c = x ->
  returns (ampersands c) s ts (Nat.iter k BACK x).
Proof.
  intros Ha Hts Hc. unfold returns, ampersands.
  apply (wp_loop_idx (fun k' c s' => exists j y, k' = Z.of_nat j /\ (s <= s')%nat /\
    ahead s' (replicate j (Sym AMP) ++ ts) /\ read c = y /\ Nat.iter j BACK y = Nat.iter k BACK x) _ _ (Z.of_nat k)).
  - exists k, x. by split_and!.
  - assert (k <= length buf)%nat; [|lia]. destruct Ha as (Hd & _ & _).
    apply (f_equal length) in Hd. rewrite length_drop in Hd.
    assert (k <= length (render (replicate k (Sym AMP) ++ ts)))%nat; [|lia].
    clear. induction k as [|k IH]; [lia|].
    pose proof (render_cons (Sym AMP) (replicate k (Sym AMP) ++ ts)). simpl replicate. simpl app. lia.
  - intros k' c' s' (j & y & -> & _). lia.
  - clear c Ha Hc. intros k' c s1 (j & y & -> & Hs1 & Ha & Hc & Hi). apply wp_bind.
    destruct j as [|j].
    + eapply wp_peek; [exact Ha|]. simpl app.
      assert (among [AMP] (front ts) = false) as ->.
      { destruct Hts as [->|H]; [done|]. unfold among in *. simpl in *.
        rewrite !orb_true_iff, !Z.eqb_eq in H. by destruct H as [->|[->|H]]. }
      rewrite andb_false_r. apply wp_ret. split; [exact Ha|]. split; [done|]. by rewrite Hc.
    + eapply wp_peek; [exact Ha|]. change (negb (front (replicate (S j) (Sym AMP) ++ ts) =? 0) &&
        among [AMP] (front (replicate (S j) (Sym AMP) ++ ts))) with true. cbv iota.
      apply wp_bind. eapply wp_gettoken; [exact Ha|]. intros w s2 Ha2 Hs2 _. apply wp_ret.
      exists (Z.of_nat j). split; [|lia]. exists j, (BACK y). split; [done|]. split; [lia|].
      split; [exact Ha2|]. split; [simpl; by rewrite Hc|]. rewrite <- Hi. by rewrite Nat.iter_succ_r.
Qed.

Lemma pipe_of_part c : print 2 c = print 3 c -> part_ok c -> pipe_ok c.
Proof.
  intros E Hp f2 f s ts Ha Hf2 Hf Hts. rewrite E in Ha. destruct f2 as [|f2]; [lia|]. cbn [parsepipe].
  assert (Hts3 : follows3 ts).
  { destruct Hts as [H|H]; [by left|right]. unfold among in *. simpl in *. by rewrite H, orb_true_r. }
  eapply wp_bind_mono; [apply (Hp f [] s ts); [exact Ha|exact Hf|exact Hts3|constructor]|]. intros t s' (Ha' & Hs' & Ht).
  apply wp_bind. eapply wp_peek; [exact Ha'|].
  assert (among [BAR] (front ts) = false) as ->.
  { destruct Hts as [->|H]; [done|]. unfold among in *. simpl in *.
    rewrite !orb_true_iff, !Z.eqb_eq in H. by destruct H as [->|[->|[->|H]]]. }
  rewrite andb_false_r. by apply wp_ret.
Qed.

Lemma back_of_pipe c : print 1 c = print 2 c -> pipe_ok c -> back_ok c.
Proof.
  intros E Hp f2 f k s ts Ha Hf2 Hf Hts. rewrite E in Ha.
  assert (Hts2 : follows2 (replicate k (Sym AMP) ++ ts)).
  { destruct k; [|by right]. simpl. destruct Hts as [H|H]; [by left|right]. unfold among in *. simpl in *.
    rewrite !orb_true_iff in *. tauto. }
  eapply wp_bind_mono; [by apply Hp|]. intros t s' (Ha' & Hs' & Ht).
  eapply wp_mono; [by apply (wp_ampersands t c k)|]. intros t' s2 (H1 & H2 & H3). split; [done|]. split; [lia|done].
Qed.

Lemma line_of_back c : print 0 c = print 1 c -> back_ok c -> line_ok c.
Proof.
  intros E Hb f s ts Ha Hf Hts. rewrite E in Ha. destruct f as [|f]; [lia|].
  assert (Hts1 : follows1 ts) by (destruct Hts as [H|H]; [by left|right; by rewrite H]).
  pose proof (Hb (S f) f 0%nat s ts Ha ltac:(lia) ltac:(lia) Hts1) as H.
  unfold returns in *. cbn [parseline]. apply wp_bind_inv in H. apply wp_bind.
  eapply wp_mono; [exact H|]. intros t s1 Ht. eapply wp_bind_mono; [exact Ht|].
  intros t' s2 (Ha2 & Hs2 & Ht2). apply wp_bind. eapply wp_peek; [exact Ha2|].
  assert (among [SEMI] (front ts) = false) as -> by (by destruct Hts as [->| ->]).
  rewrite andb_false_r. by apply wp_ret.
Qed.

Lemma part_of_line c : print 3 c = [Sym OPEN] ++ print 0 c ++ [Sym CLOSE] -> line_ok c -> part_ok c.
Proof.
  intros E Hl f rs s ts Ha Hf Hts Hrs. rewrite E, <- !(assoc_L (++)) in Ha. unfold returns, parseexec.
  apply wp_bind. eapply wp_peek; [exact Ha|].
  change (negb (front ([Sym OPEN] ++ print 0 c ++ [Sym CLOSE] ++ redirs rs ++ ts) =? 0) &&
    among [OPEN] (front ([Sym OPEN] ++ print 0 c ++ [Sym CLOSE] ++ redirs rs ++ ts))) with true. cbv iota.
  unfold parseblock. apply wp_bind. eapply wp_peek; [exact Ha|].
  change (negb (front ([Sym OPEN] ++ print 0 c ++ [Sym CLOSE] ++ redirs rs ++ ts) =? 0) &&
    among [OPEN] (front ([Sym OPEN] ++ print 0 c ++ [Sym CLOSE] ++ redirs rs ++ ts))) with true. cbn [negb].
  apply wp_bind. eapply wp_gettoken; [exact Ha|]. intros w1 s1 Ha1 Hs1 _.
  pose proof (ahead_le _ _ Ha1). eapply wp_bind_mono; [apply (Hl f s1); [exact Ha1|lia|by right]|].
  intros t s2 (Ha2 & Hs2 & Ht). apply wp_bind. eapply wp_peek; [exact Ha2|].
  change (negb (front ([Sym CLOSE] ++ redirs rs ++ ts) =? 0) &&
    among [CLOSE] (front ([Sym CLOSE] ++ redirs rs ++ ts))) with true. cbn [negb].
  apply wp_bind. eapply wp_gettoken; [exact Ha2|]. intros w3 s3 Ha3 Hs3 _.
  apply (wp_parseredirs t c rs s3 ts); [exact Ha3|exact Ht|exact Hrs|by apply follows3_not|exact short|].
  intros t' s4 Ha4 Hs4 Ht'. split; [done|]. split; [lia|done].
Qed.

Lemma exec_part argv : valid (EXEC argv) -> part_ok (EXEC argv).
Proof.
  intros [Hw Hfit] f rs s ts Ha Hf Hts Hrs. cbn [print] in Ha. unfold returns, parseexec.
  apply wp_bind. eapply wp_peek; [exact Ha|].
  assert (among [OPEN] (front (map Word argv ++ redirs rs ++ ts)) = false) as ->.
  { destruct argv as [|w argv].
    - destruct rs as [|r rs]; [by apply follows3_not|].
      destruct (front_redirs (r :: rs) ts Hrs) as [H|H]; [done|simpl app in *; by rewrite H..].
    - apply list.Forall_cons in Hw as [Hw _]. by apply (front_word w _ Hw). }
  rewrite andb_false_r. apply wp_bind.
  apply (wp_parseredirs (EXEC []) (EXEC []) (if bool_decide (argv = []) then rs else []) s
    (map Word argv ++ (if bool_decide (argv = []) then [] else redirs rs) ++ ts)).
  - by destruct argv.
  - done.
  - by destruct (bool_decide (argv = [])).
  - destruct argv as [|w argv]; [by apply follows3_not|].
    apply list.Forall_cons in Hw as [Hw _]. by apply (front_word w _ Hw).
  - exact short.
  - intros r s1 Ha1 Hs1 Hr. apply wp_bind.
    apply (wp_arguments argv rs argv [] r s1 ts); [exact Ha1|exact Hw|exact Hrs|exact Hts|exact Hfit|done| |].
    + rewrite Hr. by destruct (bool_decide (argv = [])).
    + intros done' r' s2 Ha2 Hs2 Hd Hr'. apply wp_ret. split; [done|]. split; [lia|].
      by rewrite read_set_argv, Hd, Hr', set_argv_wrap.
Qed.

Lemma redir_part c f m fd : valid_redir m fd -> part_ok c -> part_ok (REDIR c f m fd).
Proof.
  intros Hv Hp f' rs s ts Ha Hf Hts Hrs. cbn [print] in Ha. rewrite <- (assoc_L (++)) in Ha.
  apply (Hp f' ((f, m, fd) :: rs) s ts); [exact Ha|done|done|by constructor].
Qed.

Lemma pipe_pipe l r : part_ok l -> pipe_ok r -> pipe_ok (PIPE l r).
Proof.
  intros Hl Hr f2 f s ts Ha Hf2 Hf Hts. destruct f2 as [|f2]; [lia|]. cbn [print paren Nat.ltb] in Ha.
  change (2 <? 2)%nat with false in Ha. cbn [paren] in Ha. rewrite <- !(assoc_L (++)) in Ha.
  unfold returns. cbn [parsepipe].
  eapply wp_bind_mono; [apply (Hl f [] s); [exact Ha|exact Hf|by right|constructor]|].
  intros t s1 (Ha1 & Hs1 & Ht). apply wp_bind. eapply wp_peek; [exact Ha1|].
  change (negb (front ([Sym BAR] ++ print 2 r ++ ts) =? 0) && among [BAR] (front ([Sym BAR] ++ print 2 r ++ ts))) with true.
  cbv iota. apply wp_bind. eapply wp_gettoken; [exact Ha1|]. intros w s2 Ha2 Hs2 _.
  pose proof (ahead_le _ _ Ha2). eapply wp_bind_mono; [apply (Hr f2 f s2 ts); [exact Ha2|lia|lia|exact Hts]|].
  intros t2 s3 (Ha3 & Hs3 & Ht2). apply wp_ret. split; [done|]. split; [lia|]. simpl. by rewrite Ht, Ht2.
Qed.

Lemma line_list l r : back_ok l -> line_ok r -> line_ok (LIST l r).
Proof.
  intros Hl Hr f s ts Ha Hf Hts. destruct f as [|f]; [lia|]. cbn [print] in Ha.
  change (0 <? 0)%nat with false in Ha. cbn [paren] in Ha. rewrite <- !(assoc_L (++)) in Ha.
  assert (H : returns (let! c := parsepipe buf (S f) (parseline buf f) in ampersands c) s
    ([Sym SEMI] ++ print 0 r ++ ts) l).
  { apply (Hl (S f) f 0%nat s); [exact Ha|lia|lia|by right]. }
  unfold returns in *. cbn [parseline]. apply wp_bind_inv in H. apply wp_bind.
  eapply wp_mono; [exact H|]. intros t s1 Ht. eapply wp_bind_mono; [exact Ht|].
  intros t' s2 (Ha2 & Hs2 & Ht2). apply wp_bind. eapply wp_peek; [exact Ha2|].
  change (negb (front ([Sym SEMI] ++ print 0 r ++ ts) =? 0) && among [SEMI] (front ([Sym SEMI] ++ print 0 r ++ ts))) with true.
  cbv iota. apply wp_bind. eapply wp_gettoken; [exact Ha2|]. intros w s3 Ha3 Hs3 _.
  pose proof (ahead_le _ _ Ha3). eapply wp_bind_mono; [apply (Hr f s3 ts); [exact Ha3|lia|exact Hts]|].
  intros t3 s4 (Ha4 & Hs4 & Ht3). apply wp_ret. split; [done|]. split; [lia|]. simpl. by rewrite Ht2, Ht3.
Qed.

Lemma back_back c : back_ok c -> back_ok (BACK c).
Proof.
  intros Hc f2 f k s ts Ha Hf2 Hf Hts. cbn [print] in Ha. change (1 <? 1)%nat with false in Ha.
  cbn [paren] in Ha. rewrite <- (assoc_L (++)) in Ha. rewrite <- Nat.iter_succ_r.
  by apply (Hc f2 f (S k) s ts).
Qed.

Lemma printed_ok c : valid c -> part_ok c /\ pipe_ok c /\ back_ok c /\ line_ok c.
Proof.
  induction c as [argv|c IH w m fd|l IHl r IHr|l IHl r IHr|c IH]; intros Hv.
  - pose proof (exec_part argv Hv) as H1. pose proof (pipe_of_part (EXEC argv) eq_refl H1) as H2.
    pose proof (back_of_pipe (EXEC argv) eq_refl H2) as H3. by pose proof (line_of_back (EXEC argv) eq_refl H3).
  - destruct Hv as (Hv & _ & Hr). destruct (IH Hv) as (H0 & _).
    pose proof (redir_part c w m fd Hr H0) as H1. pose proof (pipe_of_part (REDIR c w m fd) eq_refl H1) as H2.
    pose proof (back_of_pipe (REDIR c w m fd) eq_refl H2) as H3.
    by pose proof (line_of_back (REDIR c w m fd) eq_refl H3).
  - destruct Hv as [Hl Hr]. destruct (IHl Hl) as (Hl1 & _). destruct (IHr Hr) as (_ & Hr2 & _).
    pose proof (pipe_pipe l r Hl1 Hr2) as H2. pose proof (back_of_pipe (PIPE l r) eq_refl H2) as H3.
    pose proof (line_of_back (PIPE l r) eq_refl H3) as H4. by pose proof (part_of_line (PIPE l r) eq_refl H4).
  - destruct Hv as [Hl Hr]. destruct (IHl Hl) as (_ & _ & Hl3 & _). destruct (IHr Hr) as (_ & _ & _ & Hr4).
    pose proof (line_list l r Hl3 Hr4) as H4. pose proof (part_of_line (LIST l r) eq_refl H4) as H1.
    pose proof (pipe_of_part (LIST l r) eq_refl H1) as H2. by pose proof (back_of_pipe (LIST l r) eq_refl H2).
  - destruct (IH Hv) as (_ & _ & H0 & _). pose proof (back_back c H0) as H3.
    pose proof (line_of_back (BACK c) eq_refl H3) as H4. pose proof (part_of_line (BACK c) eq_refl H4) as H1.
    by pose proof (pipe_of_part (BACK c) eq_refl H1).
Qed.
End print.

Lemma print_tokens lv c : valid c -> Forall token_ok (print lv c).
Proof.
  assert (Hp : forall b ts, Forall token_ok ts -> Forall token_ok (paren b ts)).
  { intros [] ts H; [|done]. unfold paren. rewrite !Forall_app. split_and!; [|done|];
      (constructor; [unfold token_ok, symbols; set_solver|constructor]). }
  assert (Hs : forall x, x ∈ symbols -> Forall token_ok [Sym x]) by (intros x Hx; by constructor).
  revert lv. induction c as [argv|c IH w m fd|l IHl r IHr|l IHl r IHr|c IH]; intros lv Hv; cbn [print].
  - destruct Hv as [Hv _]. induction Hv; constructor; done.
  - destruct Hv as (Hv & Hw & Hr). apply Forall_app. split; [by apply IH|].
    constructor; [|by constructor]. unfold redir_token, token_ok. repeat case_match; try done;
      simplify_eq; unfold symbols; set_solver.
  - apply Hp. rewrite !Forall_app. destruct Hv. split_and!; [by apply IHl|apply Hs; unfold symbols; set_solver|by apply IHr].
  - apply Hp. rewrite !Forall_app. destruct Hv. split_and!; [by apply IHl|apply Hs; unfold symbols; set_solver|by apply IHr].
  - apply Hp. rewrite !Forall_app. split_and!; [by apply IH|apply Hs; unfold symbols; set_solver].
Qed.

Lemma render_nonzero ts : Forall token_ok ts -> Forall (fun c => c <> 0) (render ts).
Proof.
  induction 1 as [|t ts Ht _ IH]; [constructor|]. unfold render in *. simpl. apply Forall_app. split; [|done].
  apply Forall_app. split; [|by constructor]. destruct t as [c| |w]; simpl.
  - constructor; [|constructor]. by apply (token_front (Sym c)).
  - by repeat constructor.
  - destruct Ht as [_ Hw]. eapply list.Forall_impl; [exact Hw|]. by intros x [? _].
Qed.

Lemma cmd_map_ext {V W} (f g : V -> W) c : (forall w, w ∈ words c -> f w = g w) -> cmd_map f c = cmd_map g c.
Proof.
  induction c as [argv|c IH w m fd|l IHl r IHr|l IHl r IHr|c IH]; simpl; intros H.
  - f_equal. apply map_ext_in. intros w Hw. apply H. by apply list_elem_of_In.
  - rewrite IH, H; [done| |]; set_solver.
  - rewrite IHl, IHr; [done| |]; set_solver.
  - rewrite IHl, IHr; [done| |]; set_solver.
  - by rewrite IH.
Qed.

(** C36: Every command of the shell's language can be written down and is parsed
    back: [parsecmd] of its text returns its tree, and the words of the tree, read
    as C strings after [nulterminate], are its words. *)
Theorem parse_print c : valid c -> Z.of_nat (length (render (print 0 c))) < 2 ^ 32 ->
  exists t l s, parsecmd (render (print 0 c)) 0%nat = Ret (t, l) s /\
    cmd_map (fun w => c_str (drop w.1 l)) t = c.
Proof.
  intros Hv Hlen. set (buf := render (print 0 c)) in *.
  pose proof (print_tokens 0 c Hv) as Hok. pose proof (render_nonzero _ Hok) as Hn. fold buf in Hn.
  destruct (printed_ok buf Hlen c Hv) as (_ & _ & _ & Hline).
  assert (Ha : ahead buf 0 (print 0 c ++ [])) by (rewrite app_nil_r; split; [done|split; [done|lia]]).
  pose proof (Hline (S (length buf)) 0%nat [] Ha ltac:(lia) (or_introl eq_refl)) as H.
  apply wp_inv in H as (t & s & E & Ha' & _ & Ht).
  assert (Hs : s = length buf).
  { destruct Ha' as (Hd & _ & Hle). apply (f_equal length) in Hd. rewrite length_drop in Hd. simpl in Hd. lia. }
  assert (Ep : parse buf 0%nat = Ret t s).
  { unfold parse. rewrite (bind_eq _ _ _ _ _ E). rewrite (bind_eq _ _ _ _ _ (peek_eq buf [] s)).
    rewrite (ahead_skip _ _ _ Ha'). rewrite (bind_eq _ _ s s s) by done. by rewrite Hs, Nat.eqb_refl. }
  exists t, (nulterminate t (buf ++ [0])), s. split; [unfold parsecmd; by rewrite (bind_eq _ _ _ _ _ Ep)|].
  rewrite <- Ht. apply cmd_map_ext. intros w Hw. pose proof (parse_safe buf Hn Hlen) as Hsafe.
  unfold wpe in Hsafe. rewrite Ep in Hsafe. destruct Hsafe as [Hall _]. by apply (read_word buf t w).
Qed.

(** ** Running a command

    [runcmd] of a parsed command, in a process with the open files [fds]: what the
    process does next.  [fork1], [wait] and [exec] are constructors; the other
    system calls work on the table of open files, where a new file takes the
    lowest free descriptor.  A pipe is named by where its command is in the line. *)

Inductive handle :=
| Other (n : nat)
| File (name : list Z) (mode : Z)
| ReadEnd (pipe : list bool)
| WriteEnd (pipe : list bool).
Definition fdtable : Type := list (option handle).

Inductive process :=
| Exec (argv : list (list Z)) (fds : fdtable)
| Fork (child parent : process)
| Wait (fds : fdtable) (p : process)
| Exit (status : Z).

Definition sh_close (fds : fdtable) (fd : nat) : fdtable := <[fd := None]> fds.
(** The lowest free descriptor. *)
Fixpoint lowest (fds : fdtable) : option nat :=
  match fds with
  | [] => None
  | None :: _ => Some O
  | Some _ :: fds' => S <$> lowest fds'
  end.
Definition sh_alloc (fds : fdtable) (h : handle) : option (nat * fdtable) :=
  match lowest fds with Some fd => Some (fd, <[fd := Some h]> fds) | None => None end.
Definition sh_dup (fds : fdtable) (fd : nat) : fdtable :=
  match fds !! fd with
  | Some (Some h) => match sh_alloc fds h with Some (_, fds') => fds' | None => fds end
  | _ => fds
  end.
(** [pipe(p)]: [None] when it fails. *)
Definition sh_pipe (fds : fdtable) (path : list bool) : option (nat * nat * fdtable) :=
  match sh_alloc fds (ReadEnd path) with
  | None => None
  | Some (p0, fds1) =>
      match sh_alloc fds1 (WriteEnd path) with
      | None => None
      | Some (p1, fds2) => Some (p0, p1, fds2)
      end
  end.

Section run.
(** Whether [open] of a file succeeds. *)
Variable can_open : list Z -> Z -> bool.

Definition sh_open (fds : fdtable) (name : list Z) (mode : Z) : option fdtable :=
  if can_open name mode then
    match sh_alloc fds (File name mode) with Some (_, fds') => Some fds' | None => None end
  else None.

Fixpoint runcmd (path : list bool) (fds : fdtable) (c : cmd (list Z)) : process :=
  match c with
  | EXEC argv => match argv with [] => Exit 1 | _ => Exec argv fds end
  | REDIR c' file mode fd =>
      match sh_open (sh_close fds (Z.to_nat fd)) file mode with
      | None => Exit 1
      | Some fds => runcmd path fds c'
      end
  | LIST l r => Fork (runcmd (path ++ [false]) fds l) (Wait fds (runcmd (path ++ [true]) fds r))
  | PIPE l r =>
      match sh_pipe fds path with
      | None => Exit 1
      | Some (p0, p1, fds) =>
          Fork
            (let fds := sh_close fds 1 in
             let fds := sh_dup fds p1 in
             let fds := sh_close fds p0 in
             let fds := sh_close fds p1 in
             runcmd (path ++ [false]) fds l)
            (Fork
              (let fds := sh_close fds 0 in
               let fds := sh_dup fds p0 in
               let fds := sh_close fds p0 in
               let fds := sh_close fds p1 in
               runcmd (path ++ [true]) fds r)
              (let fds := sh_close fds p0 in
               let fds := sh_close fds p1 in
               Wait fds (Wait fds (Exit 0))))
      end
  | BACK c' => Fork (runcmd (path ++ [false]) fds c') (Exit 0)
  end.

(** The table with three open files. *)
Definition std (i o e : handle) : fdtable := [Some i; Some o; Some e] ++ replicate 13 None.

(** What a command means: programs, each with its input and output, that are
    started by processes which hold nothing but their own three files. *)
Fixpoint wired (path : list bool) (i o e : handle) (c : cmd (list Z)) : process :=
  match c with
  | EXEC argv => match argv with [] => Exit 1 | _ => Exec argv (std i o e) end
  | REDIR c' file mode fd =>
      if can_open file mode then
        if fd =? 0 then wired path (File file mode) o e c' else wired path i (File file mode) e c'
      else Exit 1
  | LIST l r =>
      Fork (wired (path ++ [false]) i o e l) (Wait (std i o e) (wired (path ++ [true]) i o e r))
  | PIPE l r =>
      Fork (wired (path ++ [false]) i (WriteEnd path) e l)
        (Fork (wired (path ++ [true]) (ReadEnd path) o e r)
          (Wait (std i o e) (Wait (std i o e) (Exit 0))))
  | BACK c' => Fork (wired (path ++ [false]) i o e c') (Exit 0)
  end.

(** C37: [runcmd] connects the programs of a command, for every command that the
    parser can return: a redirection replaces standard input or output, the two
    sides of a pipeline are connected by the pipe, and no process keeps another
    descriptor: neither the programs nor the shell's processes that wait hold an
    end of a pipe that is not their own input or output. *)
Theorem runcmd_wired path i o e c : valid c -> runcmd path (std i o e) c = wired path i o e c.
Proof.
  revert path i o. induction c as [argv|c IH w m fd|l IHl r IHr|l IHl r IHr|c IH]; intros path i o Hv.
  - done.
  - destruct Hv as (Hv & _ & Hr). cbn [runcmd wired]. unfold sh_open.
    destruct (can_open w m); [|done]. unfold valid_redir in Hr.
    assert (Hfd : fd = 0 \/ fd = 1).
    { repeat (apply elem_of_cons in Hr as [[= -> ->]|Hr]; [by auto|]). by apply not_elem_of_nil in Hr. }
    destruct Hfd as [-> | ->]; simpl; by apply IH.
  - destruct Hv as [Hl Hr]. simpl. f_equal; [by apply IHl|]. f_equal. by apply IHr.
  - destruct Hv as [Hl Hr]. simpl. f_equal; [by apply IHl|]. f_equal. by apply IHr.
  - simpl. f_equal. by apply IH.
Qed.
End run.

(** "echo hi>f &" *)
Definition some_line : list Z := [101; 99; 104; 111; 32; 104; 105; 62; 102; 32; 38].

Lemma some_line_run : result (parsecmd some_line 0%nat) =
  Some (BACK (REDIR (EXEC [(0%nat, 4%nat); (5%nat, 7%nat)]) (8%nat, 9%nat) 1537 1),
        [101; 99; 104; 111; 0; 104; 105; 0; 102; 0; 38; 0]).
Proof. vm_compute. reflexivity. Qed.

Lemma parsecmd_words_witness : exists c l s, parsecmd some_line 0%nat = Ret (c, l) s /\
  forall w, w ∈ words c -> c_str (drop w.1 l) <> [].
Proof.
  destruct (parsecmd_words some_line) as [(msg & E & _)|(c & l & s & E & _ & _ & H)].
  - repeat constructor; discriminate.
  - reflexivity.
  - exfalso. pose proof some_line_run as R. rewrite E in R. discriminate R.
  - exists c, l, s. split; [exact E|]. intros w Hw. apply (H w Hw).
Defined.

(** (a > f; b &) | c d >> g *)
Definition some_cmd : cmd (list Z) :=
  PIPE (LIST (REDIR (EXEC [[97]]) [102] 1537 1) (BACK (EXEC [[98]])))
    (REDIR (EXEC [[99]; [100]]) [103] 513 1).

Lemma some_cmd_valid : valid some_cmd.
Proof.
  assert (Hw : forall c, c <> 0 -> is_word c = true -> valid_word [c]).
  { intros c H1 H2. split; [discriminate|]. by repeat constructor. }
  assert (Hr : forall m, m = 1537 \/ m = 513 -> valid_redir m 1).
  { intros m [-> | ->]; unfold valid_redir; [do 1 right|do 2 right]; left. }
  unfold some_cmd. cbn [valid]. unfold MAXARGS. simpl length.
  split_and!; try lia; try (apply Hr; auto); try (apply Hw; [discriminate|reflexivity]).
  all: repeat (apply list.Forall_cons; split; [apply Hw; [discriminate|reflexivity]|]); constructor.
Qed.

Lemma parse_print_witness : valid some_cmd /\
  exists t l s, parsecmd (render (print 0 some_cmd)) 0%nat = Ret (t, l) s /\
    cmd_map (fun w => c_str (drop w.1 l)) t = some_cmd.
Proof.
  split; [exact some_cmd_valid|]. apply (parse_print some_cmd some_cmd_valid). vm_compute. reflexivity.
Defined.

Lemma runcmd_wired_witness : valid some_cmd /\
  runcmd (fun _ _ => true) [] (std (Other 0) (Other 1) (Other 2)) some_cmd =
  wired (fun _ _ => true) [] (Other 0) (Other 1) (Other 2) some_cmd.
Proof.
  split; [exact some_cmd_valid|].
  apply (runcmd_wired (fun _ _ => true) [] (Other 0) (Other 1) (Other 2) some_cmd some_cmd_valid).
Defined.
